(* ===== verification/_CoqProject ===== *)
-Q . S2P
Prelude.v
SharedLib.v
NetworkSplits.v
Heartbeat.v
DateHelper.v
ScanState.v
NetworkMessages.v
NetworkBlocks.v
AppStore.v
StateActions.v
MemoryResources.v
WorkPool.v
NodeDht.v
Ledger.v
WonSlots.v
GuardedLoad.v
NodesOverview.v
NodesLive.v
NodesBootstrap.v
Dashboard.v
DashboardLedger.v
DashboardBlocks.v
BlockOverview.v
DhtTree.v
MinimumDistance.v
EqualDistance.v
DhtGraph.v
Leaderboard.v
NetworkConnections.v
BootstrapStats.v
Mempool.v
Fuzzing.v
Benchmarks.v
MessagesPage.v
Treemap.v
SplitsGraph.v
WebNode.v
Layout.v
Tables.v
TablePages.v
Routing.v
Shell.v
ScanStateChart.v
ScanStatePage.v
WonSlotsPage.v
DhtLine.v
Sentry.v
DashboardPage.v
OverviewPage.v
MessagesView.v
NodesPages.v
WorkPoolPage.v
FuzzingPage.v
MempoolPage.v
SplitsPage.v
MemoryPage.v
NetworkPages.v
TreemapChart.v
DhtDrawing.v
WebNodeService.v
Menus.v
LeaderboardPage.v
ScanStateDrawing.v
BenchmarksPage.v
ZkApp.v
WebNodeBar.v
SplitsDrawing.v
Application.v
EpochGraphs.v
Polling.v
