(* ===== verification/Prelude.v ===== *)
(** * The OpenMina dashboard, verified

    The repository holds a Mina node written in Rust and, in
    [src/frontend], the dashboard that shows it: an Angular application in
    TypeScript whose pages each have a store (a state, actions and a reducer),
    a service that turns the node's JSON answers into the data of the store,
    and effects that run the service when an action asks for it and dispatch
    its outcome. [src/frontend/functions] is a cloud function that accepts the
    heartbeats of the nodes. This development models the stores, services and
    effects of the dashboard, the components that compute something from them,
    and the cloud function; answers of the node are inputs of the model.

    ** Conventions

    A reducer is a function from a state and an action to a state, or to a
    [result] when it can throw. An effect is a step function: it takes what the
    class remembers between events (a pending flag, the request in flight) and
    an event (an action, a timer, the outcome of a request) and gives what it
    remembers next and the dispatched actions. [switchMap] is the replacement of
    the request in flight, [EMPTY] its removal. [catchErrorAndRepeat] is the
    shared error path. Absent values are [option], or [js] where [undefined]
    and [null] differ. Numbers are integers; where the code divides a time or
    an amount by a power of ten, the undivided number is kept, and the file
    says so; percentages and coordinates are rationals. The clock and the size
    of the window are arguments. A component with timers is a machine whose
    events are the firings of the timers it has set.
    The npm package [@openmina/shared], d3, the signer of the benchmarks and
    the cryptography of the cloud function are not in the repository: they are
    classes whose laws say what the code relies on ([TableSorter],
    [ItemToggler], [HasValue], [NanOrElse], [Browser], [D3], [Crypto],
    [Partition], [UrlParams], [TreeLayout], [Zoom], [O1js]), each with an instance, or parameters. A table that
    follows the address of its page takes the keys of its rows through the class
    [RouteKey].

    ** Files

    - [Prelude]: JavaScript values, exceptions, arrays, strings, the hint
      database [jsdb] and the lemmas the components share.
    - [SharedLib]: the interface to [@openmina/shared] and
      [shared/constants/store-functions.ts].
    - [NetworkSplits]: [features/network/splits]. The breadth-first search
      [splitThePeers] cuts the peers into the connected components of the
      links; it fails exactly when a link names an unknown peer.
    - [Heartbeat]: [functions/src/index.ts] and [submitterValidator.ts]. Over
      any sequence of calls no key stores more heartbeats in a window than the
      limit, what is stored was signed by an allowed key, and a refused call
      changes nothing.
    - [DateHelper]: [shared/helpers/date.helper.ts]; the rounding of relative
      times.
    - [ScanState]: [features/snarks/scan-state]. [buildTree] links every leaf
      below its ancestors of the heap order, in a store of shared objects.
    - [NetworkMessages]: [features/network/messages]. The list of pages stays
      sorted and without duplicates; polling stops after a failed load.
    - [NetworkBlocks]: [features/network/blocks]. The decimal timestamps denote
      the times, latencies are relative to the first block.
    - [AppStore]: [app.reducer.ts], [app.effects.ts], [app.service.ts],
      [layout/toolbar/loading.reducer.ts], [layout/error-preview],
      [shared/constants/config.ts], [core/services/rust.service.ts]. The
      loading indicator counts the requests in flight exactly; closing a page ends
      its loads.
    - [StateActions]: [features/state/actions]. The groups partition the
      actions and their totals add up.
    - [MemoryResources]: [features/resources/memory]. The nodes of the profile
      are numbered in order and without gaps; the breadcrumbs are the path to
      the active node.
    - [WorkPool]: [features/snarks/work-pool]. The origin filters; closing the
      page during a load blocks every later load.
    - [NodeDht]: [features/network/node-dht]. The binary distance denotes the
      hexadecimal one and the number of its leading zeros is the distance
      shown; every entry of the buckets is shown once.
    - [Ledger]: [shared/helpers/ledger.helper.ts]. The message to be
      signed has the fields of the transaction at their places, and tells apart any
      two transactions that differ modulo the widths of the fields.
    - [WonSlots]: [features/block-production/won-slots]. The table shows
      exactly the visible slots in every reachable state; the choice of the
      active slot.
    - [GuardedLoad]: the pipeline of the effects that load under a pending
      flag. It never blocks exactly for the policies that clear the flag; the pages
      instantiate the policy.
    - [NodesOverview], [NodesLive], [NodesBootstrap]: [features/nodes]. Every
      reachable table has one row per node, and a poll refreshes the rows.
    - [Dashboard], [DashboardLedger], [DashboardBlocks]: [features/dashboard].
      The steps of the ledger synchronisation come in order and its progress
      is bounded and complete when the node is.
    - [BlockOverview]: [features/block-production/overview]. The squares
      of the slots do not overlap, each slot is classified by its block, and a
      load shows the epoch that was asked for.
    - [DhtTree], [MinimumDistance], [EqualDistance], [DhtGraph]:
      [features/network/dht-graph]: the tree, its two algorithms and the graph.
      The construction terminates, and both algorithms return the same tree up to
      ids, branches, empty nodes and the chains that make the distances equal.
    - [Leaderboard]: [features/leaderboard]. The prizes go to the nodes with
      the required uptime and the highest scores.
    - [NetworkConnections], [BootstrapStats]: [features/network/connections]
      and [bootstrap-stats]; how their polling stops or blocks after an error.
    - [Mempool]: [features/mempool] and [shared/helpers/transaction.helper.ts].
      A memo is read back as it was written.
    - [Fuzzing]: [features/fuzzing]. Read as html, a coloured line shows its
      characters, each in the colour of its counter.
    - [Benchmarks]: [features/benchmarks]. A batch has one receiver other than
      the sender per wallet, every answer is counted once, and a cycle of
      sending unblocks the page.
    - [MessagesPage]: the components of [features/network/messages]. The
      filters survive a reload of the address.
    - [Treemap]: [features/resources/memory/memory-resources-treemap]. Every
      rectangle lies in that of its parent; escape undoes a click.
    - [SplitsGraph]: [features/network/splits/dashboard-splits-graph]. The
      Laplacian matrix vanishes exactly on the vectors that are constant on
      the sets of [NetworkSplits]; the lines are the links; the colours are
      those of the active peer after any use of the mouse.
    - [WebNode]: [core/services/web-node.service.ts], [core/helpers] and
      [features/web-node]. On a first visit the page opens the dashboard only
      after a peer is connected or a download was longer than announced by more than
      a quarter, and within a hundred firings of the last timer after the
      connection, in any order of timers and events.
    - [Layout]: the form, menu, tabs, picker and error list of [layout]. A node
      added with the form has exactly the features that were checked.
    - [Tables], [TablePages]: [shared/components/mina-table] and the tables of
      the pages. The tables that follow the address of their page are instances
      of one machine: the address of a row leads back to it; on new rows only the two
      tables of the nodes raise, for an id that names no row while one is active; and
      all but that of the won slots raise nothing while the store makes only rows
      active that are shown.
    - [Routing]: the route tables of the modules and the guards of
      [core/guards]. A navigation settles after two redirections.
    - [Shell]: [app.component.ts], the server status, menus, toolbar and pills of
      [layout].
    - [ScanStateChart], [ScanStatePage]: the chart, toolbar, side panel and page
      of [features/snarks/scan-state]. A complete tree is drawn inside the chart
      without overlaps; a page opened at a block stays at it.
    - [WonSlotsPage]: the page, side panel, cards and filters of
      [features/block-production/won-slots]. The countdown of the running slot
      shows the seconds that are left and stops at its end.
    - [DhtLine]: the line, side panel and page of [features/network/node-dht].
      Every peer is drawn at its share of the key space.
    - [Sentry]: [core/services/sentry.service.ts]. A nested object is flattened
      without loss; each synchronisation is reported at most once.
    - [DashboardPage]: [features/dashboard/dashboard.component.ts]. The parts of
      the progress bar keep to their shares and their order.
    - [OverviewPage]: the chart, toolbar, side panel and page of
      [features/block-production/overview]. The chart shows the slots of the
      epoch in the colours of the filters.
    - [MessagesView]: the components of [features/network/messages] as machines;
      the address the filter panel writes restores the filters.
    - [NodesPages]: the toolbars, side panels and pages of [features/nodes]. The
      buttons of the live view walk along the best tips, a link opens its tip,
      and the age of the best tip follows the clock.
    - [WorkPoolPage]: the components of [features/snarks/work-pool]. The accounts
      listed for a pair of jobs are exactly those below the roots of its ledger
      witnesses.
    - [FuzzingPage]: the panel of the code and the page of [features/fuzzing]. The
      zipped streams of the panel never lag behind the store.
    - [MempoolPage]: the filters and the page of [features/mempool]. The search
      settles on the text that was typed last.
    - [SplitsPage], [MemoryPage], [NetworkPages]: the toolbars, side panels and
      pages of [features/network/splits], [features/resources/memory],
      [features/network/blocks], [features/network/bootstrap-stats] and
      [features/state/actions]. The set of the active peer is expanded, the way
      back undoes the way down, and the first request of a node is forced.
    - [TreemapChart]: the component of the treemap with its drawing, mouse, table
      and breadcrumbs. What is drawn follows the active resource of the store, and
      the drawn rectangles fit and do not overlap.
    - [DhtDrawing]: the circles, lines and digits of the routing table. Peers with
      different distances of one length are drawn without an error, each once, except
      for the origin beside a single peer of the other half.
    - [WebNodeService]: [core/services/web-node.service.ts] with the effects that
      subscribe to it. Heartbeats are posted only where configured, in order, and
      no more than one per tick of a timer and start of a node.
    - [Menus]: the menus and the tabs of [layout] composed with the store; they show
      the features of the active node.
    - [LeaderboardPage]: the pages of [features/leaderboard]. The rows are those of
      the last answer that match the search.
    - [ScanStateDrawing]: the elements of the scan state chart and the list of its
      trees. Whatever the store, the inputs and the mouse do, one rectangle per leaf
      is drawn in the colours and the view of the store.
    - [BenchmarksPage], [ZkApp]: the toolbars, table and page of
      [features/benchmarks/wallets], and the zkapp commands. The toolbars have the
      values of the store, a typed number becomes the batch that is sent, and the
      commands are run one after the other.
    - [WebNodeBar], [SplitsDrawing]: the drawing of the progress bar of [WebNode] and
      of the graph of [SplitsGraph]. The bar shows the progress of the page; the
      lines end at the shapes of their peers after every tick.
    - [Application]: [app.effects.ts] composed with the store, the request service
      and the address. The requests go to the active node as long as it is not
      deleted, also after a change of the node has raised.
    - [EpochGraphs]: the bars of
      [features/block-production/overview/epoch-graphs]. Their heights are between 0
      and 100 percent unless the greatest count is one or a power of ten.
    - [Polling]: what the effects built on [GuardedLoad] and that of [BootstrapStats]
      promise to their pages: three of them are a lock that allows one load at a time,
      the fourth a fuse that a failed load blows until the page is closed.

    Each file has one module of the same or a shorter name ([AppStore] has one
    per store), first the data and operations in the order of the sources, then
    the properties. A property's comment begins with its number. Concrete
    inputs at which it applies are the lemmas named [.._witness].

    ** Fuel

    Loops that do not follow a structure carry fuel, and the theorems are about
    the functions that supply it.
    - [NetworkSplits.bfs]: two units more than there are pairs of a peer and a
      link ([bfs_fuel]), since a peer is expanded once and puts at most one
      entry per link into the queue; [bfs_fuel_enough] shows that it never
      runs out.
    - [ScanState.build_loop]: one unit more than there are leaves; each turn
      handles one leaf and no leaf comes twice, so [buildTree] gives a tree.
    - [StateActions.square_loop]: one unit per call, while each turn divides the
      number of calls by ten.
    - [NetworkBlocks.pad_nano]: nine, the number of digits it fills up to.
    - [Ledger.hex_string]: one unit more than the binary logarithm, which bounds
      the number of hexadecimal digits ([hex_string_fuel]).
    - [MinimumDistance.insertPeer] and [EqualDistance.insertPeer]: two units more
      than the distance has digits ([DhtTree.insert_fuel]), since each call goes
      one digit down.
    - [Routing.settle]: three navigations, since a redirection of the guard leads
      to a configured page or out of the feature.
    - [Benchmarks.getRandomReceiver] follows the list of the random numbers that
      are drawn; the source recurs until one differs from the sender, and the
      list is as long as the calls the stack has room for.
    - [BenchmarksPage.settle] and [BenchmarksPage.batch_set]: eight actions follow
      from one dispatch and four settings of the field from one key at most, since a
      value that is set again is not emitted again; the invariant of the page shows
      that neither runs out.

    ** Not modelled

    Modules, environments and server-side rendering are declarations for, or
    calls of, the Angular framework. Templates are modelled where a component's
    state decides what is shown; overlays are open or closed, and their position,
    the easing of transitions and the style sheets are left out. The wasm module of
    the web node, the layouts, forces and zooms of d3, the eigenvalues of the splits
    graph, o1js and the delivery of a report are third party code. The router is
    modelled by the routes and guards of [Routing] and the navigations the
    components ask for, not by the events of the framework. The Rust crates, the
    end to end tests and the deployment files are outside the dashboard. The
    rounding of floating point numbers is not modelled: sums and comparisons are
    those of integers, rationals and real numbers.

    What is left of the components passes one field of the store to a template or
    an input to an output without a decision: the frames of the features that hold
    a router outlet, the graphs and lists that hand their data to a chart of
    [@openmina/shared], the static pages of the leaderboard, the pagination and the
    cards. [getURL] of the configuration, the creation of components at run time and
    the fallback of a failed load of the state actions are calls of the browser, of
    the framework and of [@openmina/shared]. *)

From Stdlib Require Import ZArith Lia Sorting.Sorted.
From stdpp Require Import base gmap strings list pretty.

(** ** JavaScript values *)

Declare Scope js_scope.
Delimit Scope js_scope with js.

(** A value whose absence the code observes in two ways: [undefined] and
    [null] are told apart by [===], and both are falsy and nullish. *)
Inductive js (A : Type) : Type :=
| Undefined : js A
| Null : js A
| Val : A -> js A.
Arguments Undefined {A}.
Arguments Null {A}.
Arguments Val {A} _.

#[export] Instance js_eq_dec {A} `{EqDecision A} : EqDecision (js A).
Proof. solve_decision. Defined.

Definition js_is_null {A} (v : js A) : bool :=
  match v with Null => true | _ => false end.

(** A value that may be [undefined] but is never [null]. *)
Definition to_js {A} (o : option A) : js A :=
  match o with Some a => Val a | None => Undefined end.

(** [v ?? d] *)
Definition nullish {A} (v : js A) (d : A) : A :=
  match v with Val a => a | _ => d end.

Notation "v ?? d" := (nullish v d) (at level 50, left associativity) : js_scope.

(** Truthiness of a number ([0] is falsy), of an optional number, of a
    string and of an optional object. *)
Definition truthyZ (n : Z) : bool := negb (Z.eqb n 0).

Definition truthy_num (v : js Z) : bool :=
  match v with Val n => truthyZ n | _ => false end.

Definition truthy_onum (v : option Z) : bool :=
  match v with Some n => truthyZ n | None => false end.

Definition truthy_str (s : string) : bool :=
  match s with EmptyString => false | _ => true end.

Definition is_some {A} (o : option A) : bool :=
  match o with Some _ => true | None => false end.

(** ** Exceptions *)

(** A computation returns a value or throws; the payload of [Throw] is the
    message of the JavaScript error. *)
Inductive result (A : Type) : Type :=
| Ok : A -> result A
| Throw : string -> result A.
Arguments Ok {A} _.
Arguments Throw {A} _.

#[export] Instance result_ret : MRet result := fun A a => Ok a.
#[export] Instance result_bind : MBind result := fun A B f r =>
  match r with Ok a => f a | Throw e => Throw e end.
#[export] Instance result_fmap : FMap result := fun A B f r =>
  match r with Ok a => Ok (f a) | Throw e => Throw e end.

#[export] Instance result_eq_dec {A} `{EqDecision A} : EqDecision (result A).
Proof. solve_decision. Defined.

Definition throws {A} (r : result A) : bool :=
  match r with Ok _ => false | Throw _ => true end.

(** ** Arrays *)

(** [l.reduce((acc, x) => acc + x, 0)] *)
Definition sumZ (l : list Z) : Z := fold_left Z.add l 0%Z.

(** [Array.prototype.findIndex]; [None] stands for [-1]. *)
Fixpoint findIndex {A} (f : A -> bool) (l : list A) : option nat :=
  match l with
  | [] => None
  | x :: l' => if f x then Some 0 else S <$> findIndex f l'
  end.

(** [l.filter(f).length] *)
Definition count_if {A} (f : A -> bool) (l : list A) : nat :=
  length (List.filter f l).

(** [lastItem]-style access [l[l.length - 1]]. *)
Definition last_item {A} (l : list A) : option A := last l.

(** [Array.prototype.includes] on a list of comparable values. *)
Definition includes {A} `{EqDecision A} (l : list A) (x : A) : bool :=
  bool_decide (x ∈ l).

(** [Array.from(new Set(l))]: the first occurrences, [seen] those already met. *)
Fixpoint unique {A} `{EqDecision A} (l seen : list A) : list A :=
  match l with
  | [] => []
  | x :: l' => if includes seen x then unique l' seen else x :: unique l' (x :: seen)
  end.

(** [l.map((x, i) => f(x, i))] *)
Definition mapi {A B} (f : nat -> A -> B) (l : list A) : list B := imap f l.

(** [Array.prototype.sort] with a comparison function.  The language
    requires a stable sort; insertion from the right is one. *)
Fixpoint js_insert {A} (cmp : A -> A -> Z) (x : A) (l : list A) : list A :=
  match l with
  | [] => [x]
  | y :: l' => if (cmp x y <=? 0)%Z then x :: y :: l' else y :: js_insert cmp x l'
  end.

Fixpoint js_sort {A} (cmp : A -> A -> Z) (l : list A) : list A :=
  match l with
  | [] => []
  | x :: l' => js_insert cmp x (js_sort cmp l')
  end.

(** [l.reduce(f)] without an initial value throws on the empty array. *)
Definition reduce1 {A} (f : A -> A -> A) (l : list A) : result A :=
  match l with
  | [] => Throw "Reduce of empty array with no initial value"
  | x :: l' => Ok (fold_left f l' x)
  end.

(** ** Numbers *)

(** [Math.floor(a / b)] and [Math.ceil(a / b)] for a positive [b]. *)
Definition floor_div (a b : Z) : Z := (a / b)%Z.
Definition ceil_div (a b : Z) : Z := (- ((- a) / b))%Z.

(** The decimal rendering of an integer in a template literal. *)
Definition show (n : Z) : string := pretty n.

(** ** Strings *)

Fixpoint string_repeat (s : string) (n : nat) : string :=
  match n with O => EmptyString | S n' => s +:+ string_repeat s n' end.

(** [s.slice(n)] for a non-negative [n]. *)
Fixpoint string_drop (n : nat) (s : string) : string :=
  match n, s with
  | O, _ => s
  | S n', String _ s' => string_drop n' s'
  | S _, EmptyString => EmptyString
  end.

(** [s.slice(0, n)] for a non-negative [n]. *)
Fixpoint string_take (n : nat) (s : string) : string :=
  match n, s with
  | O, _ => EmptyString
  | S n', String c s' => String c (string_take n' s')
  | S _, EmptyString => EmptyString
  end.

Fixpoint string_prefix (p s : string) : bool :=
  match p, s with
  | EmptyString, _ => true
  | String a p', String b s' => Ascii.eqb a b && string_prefix p' s'
  | String _ _, EmptyString => false
  end.

(** [s.includes(p)] *)
Fixpoint string_includes (p s : string) : bool :=
  string_prefix p s ||
  match s with
  | EmptyString => false
  | String _ s' => string_includes p s'
  end.

(** [s.trim()] on ASCII blanks. *)
Definition is_blank (c : Ascii.ascii) : bool :=
  let n := Ascii.nat_of_ascii c in
  ((9 <=? n) && (n <=? 13)) || (n =? 32) || (n =? 160).

Fixpoint trim_left (s : string) : string :=
  match s with
  | EmptyString => EmptyString
  | String c s' => if is_blank c then trim_left s' else s
  end.

Fixpoint trim_right (s : string) : string :=
  match s with
  | EmptyString => EmptyString
  | String c s' =>
    match trim_right s' with
    | EmptyString => if is_blank c then EmptyString else String c EmptyString
    | t => String c t
    end
  end.

Definition trim (s : string) : string := trim_right (trim_left s).

Definition ascii_lower (c : Ascii.ascii) : Ascii.ascii :=
  let n := Ascii.nat_of_ascii c in
  if (65 <=? n) && (n <=? 90) then Ascii.ascii_of_nat (n + 32) else c.

(** [s.toLowerCase()] on ASCII text. *)
Fixpoint toLowerCase (s : string) : string :=
  match s with
  | EmptyString => EmptyString
  | String c s' => String (ascii_lower c) (toLowerCase s')
  end.

(** ** Automation *)

Create HintDb jsdb.

(** Turn the boolean tests of the code into propositions. *)
Ltac breflect :=
  repeat match goal with
  | H : (_ && _)%bool = true |- _ => apply andb_true_iff in H as [? ?]
  | H : (_ || _)%bool = false |- _ => apply orb_false_iff in H as [? ?]
  | H : negb _ = true |- _ => apply negb_true_iff in H
  | H : negb _ = false |- _ => apply negb_false_iff in H
  | H : Z.eqb _ _ = true |- _ => apply Z.eqb_eq in H
  | H : Z.eqb _ _ = false |- _ => apply Z.eqb_neq in H
  | H : Z.leb _ _ = true |- _ => apply Z.leb_le in H
  | H : Z.leb _ _ = false |- _ => apply Z.leb_gt in H
  | H : Z.ltb _ _ = true |- _ => apply Z.ltb_lt in H
  | H : Z.ltb _ _ = false |- _ => apply Z.ltb_ge in H
  | H : bool_decide _ = true |- _ => apply bool_decide_eq_true in H
  | H : bool_decide _ = false |- _ => apply bool_decide_eq_false in H
  | H : String.eqb _ _ = true |- _ => apply String.eqb_eq in H
  | H : String.eqb _ _ = false |- _ => apply String.eqb_neq in H
  end.

(** Case analysis on every test and match the goal is stuck on. *)
Ltac split_cases :=
  repeat (case_match; breflect; simplify_eq/=).

(** ** Lemmas on arrays *)

Section ListLemmas.
Context {A : Type}.
Implicit Types (f g : A -> bool) (l : list A).

Lemma findIndex_Some f l i :
  findIndex f l = Some i ->
  exists x, l !! i = Some x /\ f x = true /\
            forall j y, j < i -> l !! j = Some y -> f y = false.
Proof.
  revert i; induction l as [|a l IH]; intros i H; simpl in H; [done|].
  destruct (f a) eqn:Ha.
  - inv H. exists a. repeat split; auto. intros; lia.
  - destruct (findIndex f l) as [k|] eqn:Hk; simpl in H; [|done]. inv H.
    destruct (IH k eq_refl) as (x & Hx & Hf & Hmin).
    exists x. repeat split; auto.
    intros [|j] y Hj Hy; simpl in Hy; [congruence|].
    apply (Hmin j); [lia|done].
Qed.

Lemma findIndex_None f l :
  findIndex f l = None <-> forall x, x ∈ l -> f x = false.
Proof.
  induction l as [|a l IH]; simpl.
  { split; [intros _ x Hx; inv Hx|done]. }
  destruct (f a) eqn:Ha.
  - split; [done|]. intros H. rewrite (H a) in Ha; [done|left].
  - destruct (findIndex f l) eqn:E; simpl.
    + split; [done|]. intros H. exfalso. enough (Some n = None) by done.
      apply IH. intros x Hx; apply H; by right.
    + split; [|done]. intros _ x [->|Hx]%elem_of_cons; [done|].
      by apply IH.
Qed.

Lemma findIndex_lt f l i : findIndex f l = Some i -> i < length l.
Proof.
  intros H. destruct (findIndex_Some _ _ _ H) as (x & Hx & _).
  by apply lookup_lt_Some in Hx.
Qed.

Lemma findIndex_fmap {B} (g : B -> A) f (l : list B) :
  findIndex f (g <$> l) = findIndex (fun b => f (g b)) l.
Proof.
  induction l as [|b l IH]; [done|]. rewrite fmap_cons. simpl. by rewrite <- IH.
Qed.

Lemma findIndex_app f l l' :
  findIndex f (l ++ l') =
  match findIndex f l with
  | Some i => Some i
  | None => (fun i => length l + i) <$> findIndex f l'
  end.
Proof.
  induction l as [|a l IH]; simpl; [by destruct (findIndex f l')|].
  destruct (f a); [done|]. rewrite IH.
  destruct (findIndex f l); [done|]. by destruct (findIndex f l').
Qed.

Lemma findIndex_complete f l i x :
  l !! i = Some x -> f x = true -> exists j, findIndex f l = Some j /\ j <= i.
Proof.
  intros Hx Hf. destruct (findIndex f l) as [j|] eqn:E.
  - exists j; split; [done|].
    destruct (findIndex_Some _ _ _ E) as (y & Hy & _ & Hmin).
    destruct (decide (j <= i)); [done|].
    rewrite (Hmin i x) in Hf; [done|lia|done].
  - rewrite findIndex_None in E. rewrite E in Hf; [done|].
    by eapply list_elem_of_lookup_2.
Qed.

Lemma elem_of_lfilter f l x : x ∈ List.filter f l <-> x ∈ l /\ f x = true.
Proof. by rewrite !list_elem_of_In, filter_In. Qed.

Lemma elem_of_lconcat (ls : list (list A)) x :
  x ∈ concat ls <-> exists c, c ∈ ls /\ x ∈ c.
Proof.
  rewrite list_elem_of_In, in_concat. by setoid_rewrite list_elem_of_In.
Qed.

Lemma lfilter_all f l : (forall x, x ∈ l -> f x = true) -> List.filter f l = l.
Proof.
  induction l as [|a l IH]; intros H; simpl; [done|].
  rewrite H by left. f_equal. apply IH. intros x Hx; apply H; by right.
Qed.

Lemma lfilter_none f l : (forall x, x ∈ l -> f x = false) -> List.filter f l = [].
Proof.
  induction l as [|a l IH]; intros H; simpl; [done|].
  rewrite H by left. apply IH. intros x Hx; apply H; by right.
Qed.

Lemma lfilter_ext f g l :
  (forall x, x ∈ l -> f x = g x) -> List.filter f l = List.filter g l.
Proof.
  induction l as [|a l IH]; intros H; simpl; [done|].
  rewrite (H a) by left. rewrite IH; [done|]. intros x Hx; apply H; by right.
Qed.

Lemma lfilter_and f g l :
  List.filter f (List.filter g l) = List.filter (fun x => g x && f x) l.
Proof.
  induction l as [|a l IH]; simpl; [done|].
  destruct (g a); simpl; rewrite <- ?IH; [|done]. by destruct (f a); simpl.
Qed.

Lemma lfilter_perm f l l' : l ≡ₚ l' -> List.filter f l ≡ₚ List.filter f l'.
Proof.
  induction 1; simpl; repeat case_match; try done; eauto using perm_swap.
  by etrans.
Qed.

Lemma lfilter_sublist f l : List.filter f l `sublist_of` l.
Proof.
  induction l as [|a l IH]; simpl; [done|].
  destruct (f a); by constructor.
Qed.

Lemma lfilter_partition f l :
  List.filter f l ++ List.filter (fun x => negb (f x)) l ≡ₚ l.
Proof.
  induction l as [|a l IH]; simpl; [done|].
  destruct (f a); simpl; [by rewrite IH|].
  by rewrite <- Permutation_middle, IH.
Qed.

Lemma NoDup_lfilter f l : NoDup l -> NoDup (List.filter f l).
Proof. intros H. eapply sublist_NoDup; [done|apply lfilter_sublist]. Qed.

Lemma NoDup_fmap_lfilter {B} (g : A -> B) f l :
  NoDup (g <$> l) -> NoDup (g <$> List.filter f l).
Proof. intros H. eapply sublist_NoDup; [done|]. apply fmap_sublist, lfilter_sublist. Qed.

Lemma count_if_le f l : count_if f l <= length l.
Proof. apply sublist_length, lfilter_sublist. Qed.

Lemma count_if_cons f a l :
  count_if f (a :: l) = (if f a then 1 else 0) + count_if f l.
Proof. unfold count_if; simpl. by destruct (f a). Qed.

Lemma count_if_perm f l l' : l ≡ₚ l' -> count_if f l = count_if f l'.
Proof. intros H. by apply Permutation_length, lfilter_perm. Qed.

Lemma count_if_split f g l :
  (forall x, x ∈ l -> f x = true -> g x = false) ->
  count_if (fun x => f x || g x) l = count_if f l + count_if g l.
Proof.
  induction l as [|a l IH]; intros H; [done|].
  rewrite !count_if_cons, IH by (intros x Hx; apply H; by right).
  specialize (H a ltac:(left)). destruct (f a); simpl; [|lia].
  rewrite H by done. lia.
Qed.

Lemma count_if_app f l l' : count_if f (l ++ l') = count_if f l + count_if f l'.
Proof. unfold count_if. by rewrite List.filter_app, length_app. Qed.

Lemma find_Some_elem f l x : List.find f l = Some x -> x ∈ l /\ f x = true.
Proof. intros H%find_some. by rewrite list_elem_of_In. Qed.

Lemma find_None_elem f l x : List.find f l = None -> x ∈ l -> f x = false.
Proof. intros H Hx. apply (find_none _ _ H). by apply list_elem_of_In. Qed.

Lemma find_app f (l l' : list A) :
  List.find f (l ++ l') =
  match List.find f l with Some x => Some x | None => List.find f l' end.
Proof. induction l as [|a l IH]; simpl; [done|]. by destruct (f a). Qed.

Lemma find_is_Some f l x : x ∈ l -> f x = true -> is_Some (List.find f l).
Proof.
  intros Hx Hf. destruct (List.find f l) eqn:E; [done|].
  rewrite (find_None_elem _ _ _ E Hx) in Hf. done.
Qed.

Lemma key_unique {B} (key : A -> B) l x y :
  NoDup (key <$> l) -> x ∈ l -> y ∈ l -> key x = key y -> x = y.
Proof.
  intros Hd Hx Hy Hk. apply list_elem_of_lookup in Hx as [i Hi], Hy as [j Hj].
  assert (i = j) as ->; [|congruence]. apply (NoDup_lookup _ i j (key x) Hd).
  - by rewrite list_lookup_fmap, Hi.
  - by rewrite list_lookup_fmap, Hj, Hk.
Qed.

Lemma find_by_key {B} (key : A -> B) f l x :
  NoDup (key <$> l) -> x ∈ l -> f x = true -> (forall y, f y = true -> key y = key x) ->
  List.find f l = Some x.
Proof.
  intros Hd Hx Hf Hk. destruct (find_is_Some f l x Hx Hf) as [y Hy]. rewrite Hy.
  apply find_Some_elem in Hy as [Hin Hfy]. f_equal. by apply (key_unique key l); auto.
Qed.
End ListLemmas.

#[export] Hint Resolve NoDup_lfilter lfilter_perm lfilter_sublist count_if_le : jsdb.

(** ** Sums *)

Lemma sumZ_acc (l : list Z) a : fold_left Z.add l a = (a + sumZ l)%Z.
Proof.
  unfold sumZ. revert a. induction l as [|x l IH]; intros a; cbn [fold_left]; [lia|].
  rewrite (IH (a + x)%Z), (IH (0 + x)%Z). lia.
Qed.

Lemma sumZ_cons x (l : list Z) : sumZ (x :: l) = (x + sumZ l)%Z.
Proof. unfold sumZ at 1. cbn [fold_left]. rewrite sumZ_acc. lia. Qed.

Lemma sumZ_app (l l' : list Z) : sumZ (l ++ l') = (sumZ l + sumZ l')%Z.
Proof. induction l as [|x l IH]; [done|]. cbn [app]. rewrite !sumZ_cons, IH. lia. Qed.

Lemma sumZ_split {A} (h : A -> Z) (f g : A -> bool) (l : list A) :
  (forall x, x ∈ l -> f x = true -> g x = true -> False) ->
  sumZ (h <$> List.filter (fun x => f x || g x) l) =
  (sumZ (h <$> List.filter f l) + sumZ (h <$> List.filter g l))%Z.
Proof.
  induction l as [|x l IH]; intros Hd; [done|]. cbn [List.filter].
  specialize (IH (fun y Hy => Hd y (list_elem_of_further _ _ _ Hy))).
  specialize (Hd x (list_elem_of_here _ _)).
  destruct (f x), (g x); cbn [orb]; rewrite ?fmap_cons, ?sumZ_cons, IH; lia || by destruct Hd.
Qed.

(** ** Deduplication *)

Section Unique.
Context {A : Type} `{EqDecision A}.

Lemma elem_of_unique (l seen : list A) x : x ∈ unique l seen <-> x ∈ l /\ x ∉ seen.
Proof.
  revert seen. induction l as [|y l IH]; intros seen; cbn [unique]; [set_solver|].
  unfold includes. case_bool_decide; rewrite ?elem_of_cons, IH; [set_solver|].
  destruct (decide (x = y)); set_solver.
Qed.

Lemma NoDup_unique (l seen : list A) : NoDup (unique l seen).
Proof.
  revert seen. induction l as [|y l IH]; intros seen; cbn [unique]; [constructor|].
  unfold includes. case_bool_decide; [done|]. constructor; [|done].
  rewrite elem_of_unique. set_solver.
Qed.
End Unique.

Lemma Sorted_mono {A} (R S : A -> A -> Prop) (l : list A) :
  (forall x y, R x y -> S x y) -> Sorted R l -> Sorted S l.
Proof.
  intros HRS. induction 1 as [|a l _ IH Hd]; [constructor|]. constructor; [done|].
  destruct Hd; constructor. by apply HRS.
Qed.

(** ** The sort *)

Section SortLemmas.
Context {A : Type} (cmp : A -> A -> Z).

Definition cmp_le (x y : A) : Prop := (cmp x y <= 0)%Z.

Lemma js_insert_perm x l : js_insert cmp x l ≡ₚ x :: l.
Proof.
  induction l as [|y l IH]; simpl; [done|].
  case_match; [done|]. rewrite IH. apply Permutation_swap.
Qed.

Lemma js_sort_perm l : js_sort cmp l ≡ₚ l.
Proof.
  induction l as [|x l IH]; simpl; [done|].
  by rewrite js_insert_perm, IH.
Qed.

(** A comparator that orders every pair one way or the other sorts. *)
Context (Htotal : forall x y, (cmp x y <= 0 \/ cmp y x <= 0)%Z).

Lemma js_insert_HdRel x y l :
  cmp_le y x -> HdRel cmp_le y l -> HdRel cmp_le y (js_insert cmp x l).
Proof. intros Hx Hl. destruct Hl; simpl; [by constructor|]. case_match; by constructor. Qed.

Lemma js_insert_sorted x l : Sorted cmp_le l -> Sorted cmp_le (js_insert cmp x l).
Proof.
  induction 1 as [|y l Hs IH Hhd]; simpl; [by repeat constructor|].
  case_match; breflect.
  - constructor; [by constructor|by constructor].
  - constructor; [done|]. apply js_insert_HdRel; [|done].
    unfold cmp_le. destruct (Htotal x y); lia.
Qed.

Lemma js_sort_sorted l : Sorted cmp_le (js_sort cmp l).
Proof. induction l; simpl; [constructor|by apply js_insert_sorted]. Qed.
End SortLemmas.

#[export] Hint Resolve js_sort_perm js_sort_sorted : jsdb.

Lemma js_sort_elem {A} (cmp : A -> A -> Z) l x : x ∈ js_sort cmp l <-> x ∈ l.
Proof. by rewrite js_sort_perm. Qed.

Lemma js_sort_length {A} (cmp : A -> A -> Z) l : length (js_sort cmp l) = length l.
Proof. apply Permutation_length, js_sort_perm. Qed.

(** ** Numbers *)

Lemma ceil_div_spec a b : (0 < b)%Z -> (a <= b * ceil_div a b < a + b)%Z.
Proof.
  intros Hb. unfold ceil_div.
  pose proof (Z.div_mod (- a) b ltac:(lia)).
  pose proof (Z.mod_pos_bound (- a) b Hb). nia.
Qed.

Lemma ceil_div_nonneg a b : (0 <= a)%Z -> (0 < b)%Z -> (0 <= ceil_div a b)%Z.
Proof. intros Ha Hb. unfold ceil_div. assert ((- a) / b <= 0)%Z; [|lia]. apply Z.div_le_upper_bound; lia. Qed.

Lemma floor_div_spec a b : (0 < b)%Z -> (b * floor_div a b <= a < b * floor_div a b + b)%Z.
Proof.
  intros Hb. unfold floor_div.
  pose proof (Z.div_mod a b ltac:(lia)).
  pose proof (Z.mod_pos_bound a b Hb). nia.
Qed.

(** ** Strings *)

Lemma string_length_app s t :
  String.length (s +:+ t) = String.length s + String.length t.
Proof. induction s; simpl; auto. Qed.

Lemma string_length_repeat s n :
  String.length (string_repeat s n) = n * String.length s.
Proof. induction n; simpl; [done|]. rewrite string_length_app. lia. Qed.

Lemma string_length_drop n s :
  String.length (string_drop n s) = String.length s - n.
Proof. revert s; induction n; intros [|c s]; simpl; auto. Qed.

Lemma string_drop_app n s t :
  n <= String.length s -> string_drop n (s +:+ t) = string_drop n s +:+ t.
Proof.
  revert s; induction n; intros [|c s] H; simpl in *; try done; [lia|].
  apply IHn; lia.
Qed.

Lemma string_drop_all s t : string_drop (String.length s) (s +:+ t) = t.
Proof. induction s; simpl; auto. Qed.

Lemma string_app_assoc (s t u : string) : (s +:+ t) +:+ u = s +:+ (t +:+ u).
Proof. induction s as [|c s IH]; [done|]. exact (f_equal (String c) IH). Qed.

Lemma string_app_nil_r (s : string) : s +:+ EmptyString = s.
Proof. induction s as [|c s IH]; [done|]. exact (f_equal (String c) IH). Qed.

Create Rewrite HintDb jsrw.
#[export] Hint Rewrite string_length_app string_length_repeat string_length_drop
  string_app_assoc string_app_nil_r : jsrw.
