(* ===== verification/SharedLib.v ===== *)
(** * The interface to [@openmina/shared] and the store helpers

    The dashboard imports its table sort, a few predicates and its date
    formatting from the npm package [@openmina/shared], which is not part
    of the repository.  Its operations are the methods of the classes below,
    with the behaviour the components rely on as laws.  The second half
    models [src/frontend/src/app/shared/constants/store-functions.ts]. *)

From stdpp Require Import base gmap strings list.
From S2P Require Import Prelude.

(** ** Table sorting *)

Inductive SortDirection := ASC | DSC.

#[export] Instance SortDirection_eq_dec : EqDecision SortDirection.
Proof. solve_decision. Defined.

(** [TableSort<T>]: the name of the column and the direction. *)
Record TableSort := mkTableSort { sortBy : string; sortDirection : SortDirection }.

#[export] Instance TableSort_eq_dec : EqDecision TableSort.
Proof. solve_decision. Defined.

(** [sort<T>(items, tableSort, stringKeys, flag)] returns the rows it is
    given in another order: it neither drops nor invents rows. *)
Class TableSorter (A : Type) := {
  sort : list A -> TableSort -> list string -> bool -> list A;
  sort_perm : forall l ts keys flag, sort l ts keys flag ≡ₚ l
}.

(** The identity is one table sort: the class is inhabited at every type. *)
Definition unsorted (A : Type) : TableSorter A :=
  {| sort := fun l _ _ _ => l; sort_perm := fun l _ _ _ => reflexivity l |}.

Section Sorter.
Context {A : Type} `{TableSorter A}.

Lemma sort_elem l ts keys flag (x : A) : x ∈ sort l ts keys flag <-> x ∈ l.
Proof. by rewrite sort_perm. Qed.

Lemma sort_length l ts keys flag : length (sort l ts keys flag) = length l.
Proof. apply Permutation_length, sort_perm. Qed.

Lemma sort_nil ts keys flag : sort [] ts keys flag = [].
Proof. apply Permutation_nil. symmetry. apply sort_perm. Qed.
End Sorter.

#[export] Hint Resolve sort_perm : jsdb.

(** [toggleItem(list, item)] removes the item when it is present and adds it
    when it is not; the position of an added item is the library's choice. *)
Class ItemToggler (A : Type) `{EqDecision A} := {
  toggleItem : list A -> A -> list A;
  toggleItem_present : forall l x y,
    x ∈ l -> y ∈ toggleItem l x <-> y ∈ l /\ y <> x;
  toggleItem_absent : forall l x y,
    x ∉ l -> y ∈ toggleItem l x <-> y ∈ l \/ y = x
}.

Definition toggle {A} `{EqDecision A} (l : list A) (x : A) : list A :=
  if bool_decide (x ∈ l) then List.filter (fun y => negb (bool_decide (y = x))) l else l ++ [x].

Definition item_toggler {A} `{EqDecision A} : ItemToggler A.
Proof.
  refine {| toggleItem := toggle |}.
  - intros l x y Hx. unfold toggle. rewrite bool_decide_eq_true_2, elem_of_lfilter by done.
    by rewrite negb_true_iff, bool_decide_eq_false.
  - intros l x y Hx. unfold toggle. rewrite bool_decide_eq_false_2 by done.
    by rewrite elem_of_app, list_elem_of_singleton.
Defined.

(** ** Dispatched actions and errors *)

(** [MinaErrorType] *)
Inductive MinaErrorType := RUST | GENERIC | DEBUGGER.

#[export] Instance MinaErrorType_eq_dec : EqDecision MinaErrorType.
Proof. solve_decision. Defined.

(** [MinaError], the payload of [ADD_ERROR]. *)
Record MinaError := mkMinaError {
  err_type : MinaErrorType;
  err_message : string;
  err_status : option string;
  err_timestamp : string;
  err_seen : bool
}.

#[export] Instance MinaError_eq_dec : EqDecision MinaError.
Proof. solve_decision. Defined.

(** An [Error], or an [HttpErrorResponse] when the status is present. *)
Record JsError := mkJsError {
  message : string;
  status : option Z;
  statusText : string
}.

(** [createType(module, submodule, actionName)] *)
Definition createType (module : string) (submodule : option string)
    (actionName : string) : string :=
  "[" +:+ module
      +:+ (match submodule with
           | Some s => if truthy_str s then " " +:+ s else ""
           | None => ""
           end)
      +:+ "] " +:+ actionName.

(** [addError(error, type)]; [now] is [toReadableDate(Date.now(), 'HH:mm:ss')]. *)
Definition addError (now : string) (e : JsError) (type : MinaErrorType) : MinaError :=
  {| err_type := type;
     err_message := message e;
     err_status := match status e with
                   | Some s => if truthyZ s
                               then Some (show s +:+ " " +:+ statusText e)
                               else None
                   | None => None
                   end;
     err_timestamp := now;
     err_seen := false |}.

(** What a request of a service produces: a value or an error. *)
Inductive outcome (T : Type) :=
| Next (t : T)
| Failed (e : JsError).
Arguments Next {T} _.
Arguments Failed {T} _.

(** An action an effect puts back on the store. *)
Inductive dispatched (T : Type) :=
| ErrorAdd (e : MinaError)
| Dispatch (t : T).
Arguments ErrorAdd {T} _.
Arguments Dispatch {T} _.

#[export] Instance dispatched_eq_dec {T} `{EqDecision T} : EqDecision (dispatched T).
Proof. solve_decision. Defined.

(** [catchErrorAndRepeat(errType, type, payload)]: a value passes through; an
    error becomes the two actions [ADD_ERROR] and the fallback, and [repeat()]
    subscribes to the source again, so the next value is handled the same
    way. *)
Definition catchErrorAndRepeat {T} (now : string) (errType : MinaErrorType)
    (fallback : T) (o : outcome T) : list (dispatched T) :=
  match o with
  | Next t => [Dispatch t]
  | Failed e => [ErrorAdd (addError now e errType); Dispatch fallback]
  end.

(** The store handles the actions an effect dispatched, in their order; the
    error actions go to another slice. *)
Fixpoint reduce_all {S T} (reducer : S -> T -> result S) (s : S)
    (l : list (dispatched T)) : result S :=
  match l with
  | [] => Ok s
  | ErrorAdd _ :: l' => reduce_all reducer s l'
  | Dispatch t :: l' =>
    match reducer s t with
    | Ok s' => reduce_all reducer s' l'
    | Throw e => Throw e
    end
  end.

(** ** Helpers of [@openmina/shared] *)

(** [hasValue(v)]: neither [undefined] nor [null]. *)
Class HasValue := {
  hasValue : forall {A}, option A -> bool;
  hasValue_spec : forall {A} (o : option A), hasValue o = is_some o
}.

Definition has_value : HasValue := {|
  hasValue := fun A o => is_some o;
  hasValue_spec := fun A o => eq_refl
|}.

(** ** Types several features use *)

(** [BlockProductionWonSlotsStatus] *)
Inductive WonSlotsStatus :=
| Scheduled
| StagedLedgerDiffCreatePending
| StagedLedgerDiffCreateSuccess
| Produced
| ProofCreatePending
| ProofCreateSuccess
| BlockApplyPending
| BlockApplySuccess
| Committed
| Discarded
| Canonical
| Orphaned.

#[export] Instance WonSlotsStatus_eq_dec : EqDecision WonSlotsStatus.
Proof. solve_decision. Defined.

(** [FeaturesConfig]: the sub-features by feature, in the order of the keys; a
    configuration file may hold an array instead. *)
Inductive FeaturesConfig :=
| FArray (features : list string)
| FObject (features : list (string * list string)).

#[export] Instance FeaturesConfig_eq_dec : EqDecision FeaturesConfig.
Proof. solve_decision. Defined.

(** [MinaNode] *)
Record MinaNode := mkMinaNode {
  node_name : string;
  node_url : option string;
  memoryProfiler : option string;
  debugger : option string;
  features : option FeaturesConfig;
  isCustom : bool;
  isWebNode : bool
}.

#[export] Instance MinaNode_eq_dec : EqDecision MinaNode.
Proof. solve_decision. Defined.
