(* ===== verification/NetworkSplits.v ===== *)
(** * Network splits

    Models [src/frontend/src/app/features/network/splits]: the service that
    collects peers and links ([dashboard-splits.service.ts]), the reducer
    ([dashboard-splits.reducer.ts]) and, at its heart, [splitThePeers], the
    breadth-first search that cuts the peers into connected sets.

    A peer object is identified by its index in the [peers] array, so that
    the JavaScript [Set] of objects is a duplicate-free list of indices and
    [peers.find] is [findIndex]; an [undefined] in the queue is [None]. *)

From Stdlib Require Import ZArith Lia Ascii.
From stdpp Require Import base gmap strings list relations.
From S2P Require Import Prelude SharedLib.

Module Splits.

(** ** Data *)

Record Link := mkLink { source : string; target : string }.

Record Peer := mkPeer {
  address : string;
  peerId : option string;
  node : option string;
  radius : option Z;
  outgoingConnections : option nat;
  incomingConnections : option nat
}.

#[export] Instance Link_eq_dec : EqDecision Link.
Proof. solve_decision. Defined.
#[export] Instance Peer_eq_dec : EqDecision Peer.
Proof. solve_decision. Defined.

Record DashboardSplits := mkSplits { sp_peers : list Peer; sp_links : list Link }.

Record PeerSet := mkSet { set_peers : list Peer }.

Record NodeCount := mkNodeCount {
  nodes : nat; producers : nat; snarkers : nat; seeders : nat;
  transactionGenerators : nat
}.

Record State := mkState {
  peers : list Peer;
  links : list Link;
  sets : list PeerSet;
  activePeer : option Peer;
  networkSplitsDetails : option string;
  networkMergeDetails : option string;
  nodeStats : option NodeCount;
  fetching : bool;
  sort_ : TableSort;
  openSidePanel : bool
}.

Inductive Action :=
| Close
| GetSplits
| GetSplitsSuccess (payload : DashboardSplits)
| SetActivePeer (payload : option Peer)
| SplitNodes
| SplitNodesSuccess
| MergeNodes
| MergeNodesSuccess
| SortPeers (payload : TableSort)
| ToggleSidePanel.

(** ** The breadth-first search *)

Definition has_address (a : string) (p : Peer) : bool := String.eqb (address p) a.

(** The pushes of the [for (const link of links)] loop, [visited] being
    constant during it. *)
Definition neighbours (ps : list Peer) (ls : list Link) (cur : string)
    (visited : gset string) : list (option nat) :=
  flat_map (fun l =>
    if String.eqb (source l) cur && negb (bool_decide (target l ∈ visited))
    then [findIndex (has_address (target l)) ps]
    else if String.eqb (target l) cur && negb (bool_decide (source l ∈ visited))
    then [findIndex (has_address (source l)) ps]
    else []) ls.

Definition type_error : string := "Cannot read properties of undefined (reading 'address')".
Definition out_of_fuel : string := "out of fuel".

(** The [while (queue.length > 0)] loop. *)
Fixpoint bfs (fuel : nat) (ps : list Peer) (ls : list Link)
    (queue : list (option nat)) (current : list nat) (visited : gset string)
    : result (list nat * gset string) :=
  match fuel with
  | O => Throw out_of_fuel
  | S fuel' =>
    match queue with
    | [] => Ok (current, visited)
    | None :: _ => Throw type_error
    | Some i :: queue' =>
      if bool_decide (i ∈ current) then bfs fuel' ps ls queue' current visited
      else match ps !! i with
           | None => Throw type_error
           | Some p =>
             let visited' := {[address p]} ∪ visited in
             bfs fuel' ps ls (queue' ++ neighbours ps ls (address p) visited')
                 (current ++ [i]) visited'
           end
    end
  end.

(** One pop per queued index, and at most [length ls] pushes per new peer. *)
Definition bfs_fuel (ps : list Peer) (ls : list Link) : nat :=
  2 + length ps * length ls.
Arguments bfs_fuel : simpl never.

(** The [for (const peer of peers)] loop over the indices [todo]. *)
Fixpoint split_loop (ps : list Peer) (ls : list Link) (todo : list nat)
    (visited : gset string) (acc : list (list nat)) : result (list (list nat)) :=
  match todo with
  | [] => Ok acc
  | i :: todo' =>
    match ps !! i with
    | None => Throw type_error
    | Some p =>
      if bool_decide (address p ∈ visited)
      then split_loop ps ls todo' visited acc
      else match bfs (bfs_fuel ps ls) ps ls [Some i] [] visited with
           | Throw e => Throw e
           | Ok (current, visited') => split_loop ps ls todo' visited' (acc ++ [current])
           end
    end
  end.

Definition split_indices (ps : list Peer) (ls : list Link) : result (list (list nat)) :=
  split_loop ps ls (seq 0 (length ps)) ∅ [].

(** ** Reducer *)

Definition getRadius (a : string) (ls : list Link) : Z :=
  let occurrence :=
    count_if (fun l => String.eqb (source l) a || String.eqb (target l) a) ls in
  if occurrence <? 6 then 4
  else if occurrence <? 8 then 6
  else if occurrence <? 10 then 8
  else if occurrence <? 12 then 10
  else if occurrence <? 14 then 12
  else 14.

Definition getNodeCount (urls : list string) : NodeCount :=
  {| nodes := count_if (string_includes "node") urls;
     producers := count_if (string_includes "prod") urls;
     snarkers := count_if (string_includes "snarker") urls;
     seeders := count_if (string_includes "seed") urls;
     transactionGenerators := count_if (string_includes "transaction-generator") urls |}.

(** The url [GetSplitsSuccess] counts a peer under: [!p.node ? 'node' : ...]. *)
Definition peer_url (p : Peer) : string :=
  match node p with
  | Some n => if truthy_str n then toLowerCase n else "node"
  | None => "node"
  end.

(** The peer with the fields [GetSplitsSuccess] adds. *)
Definition annotate (ls : list Link) (p : Peer) : Peer :=
  {| address := address p; peerId := peerId p; node := node p;
     radius := Some (getRadius (address p) ls);
     outgoingConnections := Some (count_if (fun l => String.eqb (source l) (address p)) ls);
     incomingConnections := Some (count_if (fun l => String.eqb (target l) (address p)) ls) |}.

Definition default_sort : TableSort := mkTableSort "outgoingConnections" DSC.

Section Reducer.
Context `{TableSorter Peer}.

Definition sortPeers (ps : list Peer) (ts : TableSort) : list Peer :=
  sort ps ts ["address"; "peerId"; "node"] true.

Definition peers_at (ps : list Peer) (indices : list nat) : list Peer :=
  omap (fun i => ps !! i) indices.

Definition splitThePeers (ps : list Peer) (ls : list Link) : result (list PeerSet) :=
  match split_indices ps ls with
  | Ok indices =>
    Ok ((fun current => mkSet (sortPeers (peers_at ps current) default_sort)) <$> indices)
  | Throw e => Throw e
  end.

(** [openSidePanel: !isMobile()] is read once, when the module loads. *)
Definition initialState (isMobile : bool) : State :=
  {| peers := []; links := []; sets := []; activePeer := None;
     networkSplitsDetails := None; networkMergeDetails := None;
     nodeStats := None; fetching := true; sort_ := default_sort;
     openSidePanel := negb isMobile |}.

Definition resort (ts : TableSort) (s : PeerSet) : PeerSet :=
  mkSet (sortPeers (set_peers s) ts).

(** [now] is [toReadableDate(Date.now(), noMillisFormat)]. *)
Definition topologyReducer (isMobile : bool) (now : string)
    (state : State) (action : Action) : result State :=
  match action with
  | GetSplits =>
    Ok {| peers := peers state; links := links state; sets := sets state;
          activePeer := None;
          networkSplitsDetails := networkSplitsDetails state;
          networkMergeDetails := networkMergeDetails state;
          nodeStats := nodeStats state; fetching := true;
          sort_ := sort_ state; openSidePanel := openSidePanel state |}
  | GetSplitsSuccess payload =>
    let ps := annotate (sp_links payload) <$> sp_peers payload in
    match splitThePeers ps (sp_links payload) with
    | Throw e => Throw e
    | Ok new_sets =>
      Ok {| peers := ps; links := sp_links payload;
            sets := resort (sort_ state) <$> new_sets;
            activePeer := activePeer state;
            networkSplitsDetails := networkSplitsDetails state;
            networkMergeDetails := networkMergeDetails state;
            nodeStats := Some (getNodeCount (peer_url <$> ps));
            fetching := false;
            sort_ := sort_ state; openSidePanel := openSidePanel state |}
    end
  | SetActivePeer payload =>
    Ok {| peers := peers state; links := links state; sets := sets state;
          activePeer := payload;
          networkSplitsDetails := networkSplitsDetails state;
          networkMergeDetails := networkMergeDetails state;
          nodeStats := nodeStats state; fetching := fetching state;
          sort_ := sort_ state; openSidePanel := true |}
  | SplitNodes =>
    Ok {| peers := peers state; links := links state; sets := sets state;
          activePeer := activePeer state;
          networkSplitsDetails := Some ("Last split: " +:+ now);
          networkMergeDetails := networkMergeDetails state;
          nodeStats := nodeStats state; fetching := fetching state;
          sort_ := sort_ state; openSidePanel := openSidePanel state |}
  | MergeNodes =>
    Ok {| peers := peers state; links := links state; sets := sets state;
          activePeer := activePeer state;
          networkSplitsDetails := networkSplitsDetails state;
          networkMergeDetails := Some ("Last merge: " +:+ now);
          nodeStats := nodeStats state; fetching := fetching state;
          sort_ := sort_ state; openSidePanel := openSidePanel state |}
  | SortPeers payload =>
    Ok {| peers := peers state; links := links state;
          sets := resort payload <$> sets state;
          activePeer := activePeer state;
          networkSplitsDetails := networkSplitsDetails state;
          networkMergeDetails := networkMergeDetails state;
          nodeStats := nodeStats state; fetching := fetching state;
          sort_ := payload; openSidePanel := openSidePanel state |}
  | ToggleSidePanel =>
    Ok {| peers := peers state; links := links state; sets := sets state;
          activePeer := activePeer state;
          networkSplitsDetails := networkSplitsDetails state;
          networkMergeDetails := networkMergeDetails state;
          nodeStats := nodeStats state; fetching := fetching state;
          sort_ := sort_ state; openSidePanel := negb (openSidePanel state) |}
  | Close => Ok (initialState isMobile)
  | SplitNodesSuccess | MergeNodesSuccess => Ok state
  end.
End Reducer.

(** ** Service *)

Record GetPeersResponse := mkResponse {
  externalIp : string;        (* daemonStatus.addrsAndPorts.externalIp *)
  hosts : list string;        (* getPeers[i].host *)
  response_node : string      (* the name of the node that answered *)
}.

Definition is_digit (c : Ascii.ascii) : bool :=
  let n := Ascii.nat_of_ascii c in (48 <=? n) && (n <=? 57).

Definition ascii_upper (c : Ascii.ascii) : Ascii.ascii :=
  let n := Ascii.nat_of_ascii c in
  if (97 <=? n) && (n <=? 122) then Ascii.ascii_of_nat (n - 32) else c.

(** [node.replace(/(\d+)/g, ' $1')]: a space before every run of digits. *)
Fixpoint space_digits (in_run : bool) (s : string) : string :=
  match s with
  | EmptyString => EmptyString
  | String c s' =>
    if is_digit c
    then if in_run then String c (space_digits true s')
         else String " "%char (String c (space_digits true s'))
    else String c (space_digits false s')
  end.

Definition node_title (n : string) : string :=
  space_digits false
    match n with
    | EmptyString => EmptyString
    | String c s => String (ascii_upper c) s
    end.

(** The [Map] from the address of a queried node to its title. *)
Definition node_map (array : list GetPeersResponse) : gmap string string :=
  fold_left (fun m r => <[externalIp r := node_title (response_node r)]> m) array ∅.

Definition plain_peer (a : string) (n : option string) : Peer :=
  {| address := a; peerId := None; node := n; radius := None;
     outgoingConnections := None; incomingConnections := None |}.

(** One step of [array.reduce]: the peers and links a response adds. *)
Definition collect_step (m : gmap string string) (acc : DashboardSplits)
    (r : GetPeersResponse) : DashboardSplits :=
  let hs := take 10 (hosts r) in
  {| sp_peers := sp_peers acc ++
       ((fun h => plain_peer h (m !! h)) <$> hs) ++
       [plain_peer (externalIp r) (m !! externalIp r);
        plain_peer "rand" (Some "seed16");
        plain_peer "rand2" (Some "seed15")];
     sp_links := sp_links acc ++
       ((fun h => mkLink (externalIp r) h) <$> hs) ++
       [mkLink "rand2" "rand"] |}.

(** [peers.filter((peer, index, peers) => index === peers.findIndex(...))] *)
Definition removeDuplicatedPeers (response : DashboardSplits) : DashboardSplits :=
  let ps := sp_peers response in
  {| sp_peers := omap id (imap (fun i p =>
       if bool_decide (findIndex (has_address (address p)) ps = Some i)
       then Some p else None) ps);
     sp_links := sp_links response |}.

(** The last two steps of [getPeers()], on an array of responses. *)
Definition collectPeers (array : list GetPeersResponse) : DashboardSplits :=
  removeDuplicatedPeers (fold_left (collect_step (node_map array)) array (mkSplits [] [])).

(** The responses of [mock.ts]. *)
Definition peersMock : list GetPeersResponse :=
  [mkResponse "10.233.90.145" ["10.233.113.61"; "10.233.64.200"; "10.233.76.157"; "10.233.85.48"] "node1";
   mkResponse "10.233.77.35" ["10.233.92.19"; "10.233.64.200"; "10.233.120.155"] "node2";
   mkResponse "10.233.101.234" ["10.233.64.200"; "10.233.123.39"; "10.233.82.173"] "node3";
   mkResponse "10.233.110.50" ["10.233.64.200"; "10.233.127.9"; "10.233.80.87"] "node4"].

(** [getPeers()]: [map(() => peersMock)] replaces what the nodes answered by an array [mock]. *)
Definition getPeers (mock answers : list GetPeersResponse) : DashboardSplits := collectPeers mock.

(** A request to the firewall of a debugger. *)
Record Whitelist := mkWhitelist { ips : list string; ports : list Z }.

Record FirewallRequest := mkFirewall {
  fw_url : string;
  fw_body : option Whitelist    (* [null] to disable *)
}.

Record NodeConfig := mkNodeConfig { cfg_name : string; cfg_debugger : string }.

(** [str.replace(' ', '')] removes the first space. *)
Fixpoint remove_first_space (s : string) : string :=
  match s with
  | EmptyString => EmptyString
  | String c s' => if Ascii.eqb c " "%char then s' else String c (remove_first_space s')
  end.

Definition nodeName (n : string) : string := remove_first_space (toLowerCase n).

Fixpoint lastChar (s : string) : option Ascii.ascii :=
  match s with
  | EmptyString => None
  | String c EmptyString => Some c
  | String _ s' => lastChar s'
  end.

(** [Number(lastChar(p.node)) % 2 === 0].  [Number] of a digit is the digit,
    of a blank it is [0], and of any other character [NaN], whose remainder is
    not [0]. *)
Definition even_node (n : string) : bool :=
  match lastChar n with
  | Some c => if is_digit c then Nat.even (Ascii.nat_of_ascii c - 48)
              else is_blank c
  | None => false
  end.

(** [peers.filter(p => p.node)], paired with the name. *)
Definition named_peers (ps : list Peer) : list (Peer * string) :=
  omap (fun p => match node p with
                 | Some n => if truthy_str n then Some (p, n) else None
                 | None => None
                 end) ps.

(** [n.address.split(':')[0]] *)
Fixpoint before_colon (s : string) : string :=
  match s with
  | EmptyString => EmptyString
  | String c s' => if Ascii.eqb c ":"%char then EmptyString else String c (before_colon s')
  end.

(** [CONFIG.configs.find(c => c.name === nodeName(node)).debugger + suffix] *)
Definition debugger_url (configs : list NodeConfig) (suffix : string) (n : string)
    : result string :=
  match List.find (fun c => String.eqb (cfg_name c) (nodeName n)) configs with
  | Some c => Ok (cfg_debugger c +:+ suffix)
  | None => Throw "Cannot read properties of undefined (reading 'debugger')"
  end.

(** The requests of one side of [splitNodes], or of [mergeNodes]. *)
Fixpoint firewall_requests (configs : list NodeConfig) (suffix : string)
    (body : option Whitelist) (side : list (Peer * string))
    : result (list FirewallRequest) :=
  match side with
  | [] => Ok []
  | (_, n) :: side' =>
    match debugger_url configs suffix n with
    | Throw e => Throw e
    | Ok url =>
      match firewall_requests configs suffix body side' with
      | Throw e => Throw e
      | Ok reqs => Ok (mkFirewall url body :: reqs)
      end
    end
  end.

Definition leftList (ps : list Peer) : list (Peer * string) :=
  List.filter (fun pn => even_node pn.2) (named_peers ps).

Definition rightList (ps : list Peer) : list (Peer * string) :=
  List.filter (fun pn => negb (even_node pn.2)) (named_peers ps).

Definition side_ips (side : list (Peer * string)) : list string :=
  (fun pn => before_colon (address pn.1)) <$> side.

Definition splitNodes (configs : list NodeConfig) (ps : list Peer)
    : result (list FirewallRequest * list FirewallRequest) :=
  let enable side :=
    firewall_requests configs "/firewall/whitelist/enable" 
      (Some (mkWhitelist (side_ips side) [10909; 10001]%Z)) side in
  match enable (leftList ps) with
  | Throw e => Throw e
  | Ok l =>
    match enable (rightList ps) with
    | Throw e => Throw e
    | Ok r => Ok (l, r)
    end
  end.

Definition mergeNodes (configs : list NodeConfig) (ps : list Peer)
    : result (list FirewallRequest) :=
  firewall_requests configs "/firewall/whitelist/disable" None (named_peers ps).

(** ** Effects *)

(** [getSplits$] on [DASHBOARD_SPLITS_GET_SPLITS] ([CLOSE] unsubscribes from the
    request): [response] is what the nodes answer, or the error; [mock] is
    [peersMock]. *)
Definition getSplits (mock : list GetPeersResponse) (now : string) (response : outcome (list GetPeersResponse))
    : list (dispatched Action) :=
  catchErrorAndRepeat now RUST (GetSplitsSuccess (mkSplits [] []))
    match response with
    | Next answers => Next (GetSplitsSuccess (getPeers mock answers))
    | Failed e => Failed e
    end.

(** [splitNodes$]: the requests are built from the peers of the state; [error]
    is the error of one of them, if any. *)
Definition splitNodes_effect (now : string) (configs : list NodeConfig) (s : State)
    (error : option JsError) : list (dispatched Action) :=
  catchErrorAndRepeat now RUST SplitNodesSuccess
    match splitNodes configs (peers s), error with
    | Throw e, _ => Failed (mkJsError e None "")
    | Ok _, Some e => Failed e
    | Ok _, None => Next SplitNodesSuccess
    end.

(** [mergeNodes$] *)
Definition mergeNodes_effect (now : string) (configs : list NodeConfig) (s : State)
    (error : option JsError) : list (dispatched Action) :=
  catchErrorAndRepeat now RUST MergeNodesSuccess
    match mergeNodes configs (peers s), error with
    | Throw e, _ => Failed (mkJsError e None "")
    | Ok _, Some e => Failed e
    | Ok _, None => Next MergeNodesSuccess
    end.

(** ** The search terminates *)

Section Search.
Context (ps : list Peer) (ls : list Link).

Definition in_range (o : option nat) : Prop :=
  match o with Some i => i < length ps | None => True end.

Lemma neighbours_length cur visited :
  length (neighbours ps ls cur visited) <= length ls.
Proof.
  unfold neighbours. induction ls as [|l l' IH]; simpl; [done|].
  rewrite length_app. repeat case_match; simpl; lia.
Qed.

Lemma neighbours_in_range cur visited :
  Forall in_range (neighbours ps ls cur visited).
Proof.
  apply Forall_forall. intros o Ho. apply list_elem_of_In, in_flat_map in Ho as (l & _ & Ho).
  assert (Hfi : forall f, in_range (findIndex f ps)).
  { intros f. destruct (findIndex f ps) eqn:E; [|done]. by apply findIndex_lt in E. }
  repeat case_match; simpl in Ho; try done; destruct Ho as [<-|[]]; apply Hfi.
Qed.

Lemma indices_bound cur :
  NoDup cur -> Forall (fun i => i < length ps) cur -> length cur <= length ps.
Proof.
  intros Hnd Hlt. rewrite <- (length_seq (length ps) 0).
  apply submseteq_length, NoDup_submseteq; [done|].
  intros i Hi. rewrite Forall_forall in Hlt. apply elem_of_seq. specialize (Hlt i Hi). lia.
Qed.

Lemma bfs_fuel_enough fuel queue cur visited :
  NoDup cur -> Forall (fun i => i < length ps) cur -> Forall in_range queue ->
  length queue + (length ps - length cur) * length ls < fuel ->
  bfs fuel ps ls queue cur visited <> Throw out_of_fuel.
Proof.
  revert queue cur visited. induction fuel as [|fuel IH]; [intros * _ _ _ H; by apply Nat.nlt_0_r in H|].
  intros [|[i|] queue] cur visited Hnd Hlt Hq Hf; simpl in *; [done| |done].
  apply Forall_cons in Hq as [Hi Hq].
  case_bool_decide as Hin; [apply IH; auto; lia|].
  destruct (ps !! i) as [p|] eqn:Hp; [|done].
  assert (Hnd' : NoDup (cur ++ [i])).
  { apply NoDup_app; repeat split; [done| |apply NoDup_singleton].
    intros x Hx ->%list_elem_of_singleton. done. }
  assert (Hlt' : Forall (fun j => j < length ps) (cur ++ [i])) by (by apply Forall_app; auto).
  pose proof (indices_bound _ Hnd' Hlt') as Hb. rewrite length_app in Hb; simpl in Hb.
  apply IH; auto.
  - apply Forall_app; split; [done|apply neighbours_in_range].
  - rewrite !length_app. simpl.
    pose proof (neighbours_length (address p) ({[address p]} ∪ visited)). nia.
Qed.

(** ** The relation the sets are cut along *)

Definition adj (i j : nat) : Prop :=
  exists l p q, l ∈ ls /\ ps !! i = Some p /\ ps !! j = Some q /\
    ((source l = address p /\ target l = address q) \/
     (target l = address p /\ source l = address q)).

Definition connected : nat -> nat -> Prop := rtc adj.

#[local] Instance adj_symmetric : Symmetric adj.
Proof. intros i j (l & p & q & ?). exists l, q, p. tauto. Qed.

Lemma connected_sym i j : connected i j -> connected j i.
Proof.
  induction 1 as [i|i k j Hik _ IH]; [reflexivity|].
  etrans; [exact IH|]. by apply rtc_once, adj_symmetric.
Qed.

(** A link is dangling when exactly one of its ends is a known peer. *)
Definition known (a : string) : Prop := exists p, p ∈ ps /\ address p = a.
Definition dangling (l : Link) : Prop :=
  (known (source l) /\ ~ known (target l)) \/ (known (target l) /\ ~ known (source l)).
Definition no_dangling : Prop :=
  forall l, l ∈ ls -> known (source l) <-> known (target l).

Lemma findIndex_known a : known a -> exists i p,
  findIndex (has_address a) ps = Some i /\ ps !! i = Some p /\ address p = a.
Proof.
  intros (p & Hp & Ha). apply list_elem_of_lookup in Hp as [i Hi].
  destruct (findIndex_complete (has_address a) ps i p Hi) as (j & Hj & _).
  { by apply String.eqb_eq. }
  destruct (findIndex_Some _ _ _ Hj) as (q & Hq & Hf & _).
  apply String.eqb_eq in Hf. eauto.
Qed.

Lemma findIndex_unknown a : ~ known a -> findIndex (has_address a) ps = None.
Proof.
  intros Hu. apply findIndex_None. intros p Hp. apply String.eqb_neq. intros <-.
  apply Hu. by exists p.
Qed.

(** ** A search that returns met no dangling link *)

Lemma known_dec a : known a \/ findIndex (has_address a) ps = None.
Proof.
  destruct (findIndex (has_address a) ps) as [i|] eqn:E; [left|by right].
  destruct (findIndex_Some _ _ _ E) as (p & Hp & Ha & _). exists p.
  split; [by eapply list_elem_of_lookup_2|by apply String.eqb_eq].
Qed.

Definition sound_at (a : string) : Prop :=
  forall l, l ∈ ls -> (source l = a -> known (target l)) /\ (target l = a -> known (source l)).

Lemma neighbours_undefined a visited :
  known a -> (forall b, b ∈ visited -> known b) ->
  sound_at a \/ None ∈ neighbours ps ls a visited.
Proof.
  intros Hk Hv. destruct (decide (None ∈ neighbours ps ls a visited)) as [|Hn]; [by right|].
  left. intros l Hl. assert (Hpush : forall o,
    (if String.eqb (source l) a && negb (bool_decide (target l ∈ visited))
     then [findIndex (has_address (target l)) ps]
     else if String.eqb (target l) a && negb (bool_decide (source l ∈ visited))
     then [findIndex (has_address (source l)) ps] else []) = [o] -> o <> None).
  { intros o Ho ->. apply Hn, list_elem_of_In, in_flat_map. exists l.
    split; [by apply list_elem_of_In|]. rewrite Ho. by left. }
  split; intros <-.
  - destruct (known_dec (target l)) as [|Hu]; [done|].
    assert (target l ∉ visited) by (intros [p [Hp Ha]]%Hv; rewrite findIndex_None in Hu;
      by apply (String.eqb_neq (address p) (target l)); [apply Hu|]).
    exfalso. eapply Hpush; [|done]. rewrite String.eqb_refl, bool_decide_false by done.
    simpl. by rewrite Hu.
  - destruct (known_dec (source l)) as [|Hu]; [done|].
    assert (Hns : ~ known (source l)) by (intros [p [Hp Ha]]; rewrite findIndex_None in Hu;
      by apply (String.eqb_neq (address p) (source l)); [apply Hu|]).
    assert (source l ∉ visited) by (intros ?%Hv; done).
    exfalso. eapply Hpush; [|done].
    destruct (String.eqb_spec (source l) (target l)) as [Heq|]; [by rewrite Heq in Hns|].
    simpl. rewrite String.eqb_refl, bool_decide_false by done. simpl. by rewrite Hu.
Qed.

Lemma bfs_Ok_sound fuel queue cur visited cur' visited' :
  bfs fuel ps ls queue cur visited = Ok (cur', visited') ->
  (forall a, a ∈ visited -> known a /\ (sound_at a \/ None ∈ queue)) ->
  visited ⊆ visited' /\ forall a, a ∈ visited' -> known a /\ sound_at a.
Proof.
  revert queue cur visited. induction fuel as [|fuel IH]; [done|].
  intros [|[i|] queue] cur visited H Hv; simpl in H; [| |done].
  { simplify_eq. split; [done|]. intros a Ha.
    destruct (Hv a Ha) as [? [?|Hin]]; [done|inv Hin]. }
  assert (Htl : forall q, None ∈ Some i :: queue -> None ∈ queue ++ q).
  { intros q [?|?]%elem_of_cons; [done|]. apply elem_of_app; by left. }
  case_bool_decide.
  - eapply IH; [done|]. intros a Ha. destruct (Hv a Ha) as [? [?|Hin]]; [auto|].
    split; [done|right]. specialize (Htl [] Hin). by rewrite app_nil_r in Htl.
  - destruct (ps !! i) as [p|] eqn:Hp; [|done].
    assert (Hk : known (address p))
      by (exists p; split; [by eapply list_elem_of_lookup_2|done]).
    destruct (IH _ _ _ H) as [Hsub Hall].
    { intros a [->%elem_of_singleton|Ha]%elem_of_union.
      - split; [done|]. destruct (neighbours_undefined (address p) ({[address p]} ∪ visited))
          as [|Hin]; [done| |by left|right; apply elem_of_app; by right].
        intros b [->%elem_of_singleton|Hb]%elem_of_union; [done|by apply Hv].
      - destruct (Hv a Ha) as [? [?|Hin]]; auto. }
    split; [set_solver|done].
Qed.

Lemma bfs_start fuel i p visited :
  ps !! i = Some p ->
  bfs (S fuel) ps ls [Some i] [] visited =
  bfs fuel ps ls (neighbours ps ls (address p) ({[address p]} ∪ visited)) [i]
      ({[address p]} ∪ visited).
Proof. intros Hp. cbn [bfs]. by rewrite Hp. Qed.

Lemma split_loop_Ok_sound todo visited acc acc' :
  split_loop ps ls todo visited acc = Ok acc' ->
  (forall a, a ∈ visited -> known a /\ sound_at a) ->
  forall i p, i ∈ todo -> ps !! i = Some p -> sound_at (address p).
Proof.
  revert visited acc. induction todo as [|k todo IH]; intros visited acc H Hv i p Hi Hp.
  { inv Hi. }
  cbn [split_loop] in H. destruct (ps !! k) as [r|] eqn:Hr; [|done].
  case_bool_decide as Ha.
  - apply elem_of_cons in Hi as [->|Hi]; [|by eapply IH].
    simplify_eq. by apply Hv.
  - destruct (bfs _ _ _ _ _ _) as [[cur visited']|] eqn:Hb; [|done].
    assert (Hk : known (address r))
      by (exists r; split; [by eapply list_elem_of_lookup_2|done]).
    change (bfs_fuel ps ls) with (S (S (length ps * length ls))) in Hb.
    rewrite (bfs_start _ _ _ _ Hr) in Hb. apply bfs_Ok_sound in Hb as [Hsub Hall].
    + apply elem_of_cons in Hi as [->|Hi]; [|by eapply (IH _ _ H Hall)].
      simplify_eq. apply Hall, Hsub. set_solver.
    + intros a [->%elem_of_singleton|Ha']%elem_of_union; [|by destruct (Hv a Ha'); auto].
      split; [done|]. apply neighbours_undefined; [done|].
      intros b [->%elem_of_singleton|Hb']%elem_of_union; [done|by apply Hv].
Qed.

Lemma split_indices_Ok_no_dangling acc :
  split_indices ps ls = Ok acc -> no_dangling.
Proof.
  intros H l Hl.
  assert (Hs : forall p, p ∈ ps -> sound_at (address p)).
  { intros p [i Hi]%list_elem_of_lookup. eapply split_loop_Ok_sound; [done|set_solver| |done].
    apply elem_of_seq. apply lookup_lt_Some in Hi. lia. }
  split; intros (p & Hp & Ha); by apply (Hs p Hp l Hl).
Qed.

(** ** Correctness of one search *)

Context (Huniq : NoDup (address <$> ps)) (Hclosed : no_dangling).

Lemma same_address i j p q :
  ps !! i = Some p -> ps !! j = Some q -> address p = address q -> i = j.
Proof.
  intros Hp Hq Ha. eapply (NoDup_lookup (address <$> ps)); [done| |].
  - by rewrite list_lookup_fmap, Hp.
  - rewrite list_lookup_fmap, Hq. simpl. by rewrite Ha.
Qed.

Lemma findIndex_unique j q :
  ps !! j = Some q -> findIndex (has_address (address q)) ps = Some j.
Proof.
  intros Hq. destruct (findIndex_known (address q)) as (i & p & Hi & Hp & Ha).
  { exists q; split; [by eapply list_elem_of_lookup_2|done]. }
  by rewrite Hi, (same_address i j p q).
Qed.

Lemma neighbours_sound i p visited o :
  ps !! i = Some p -> o ∈ neighbours ps ls (address p) visited ->
  exists j q, o = Some j /\ ps !! j = Some q /\ adj i j /\ address q ∉ visited.
Proof.
  intros Hp Ho. apply list_elem_of_In, in_flat_map in Ho as (l & Hl & Ho).
  apply list_elem_of_In in Hl.
  assert (Hk : known (address p)).
  { exists p; split; [by eapply list_elem_of_lookup_2|done]. }
  repeat case_match; breflect; simpl in Ho; try done; destruct Ho as [<-|[]];
    simplify_eq/=.
  - destruct (findIndex_known (target l)) as (j & q & -> & Hq & Ha).
    { apply Hclosed; congruence. }
    exists j, q; repeat split; [done| |congruence]. exists l, p, q. intuition congruence.
  - destruct (findIndex_known (source l)) as (j & q & -> & Hq & Ha).
    { apply Hclosed; congruence. }
    exists j, q; repeat split; [done| |congruence]. exists l, p, q. intuition congruence.
Qed.

Lemma neighbours_complete i j p q visited :
  ps !! i = Some p -> ps !! j = Some q -> adj i j -> address q ∉ visited ->
  Some j ∈ neighbours ps ls (address p) visited.
Proof.
  intros Hp Hq (l & p' & q' & Hl & Hp' & Hq' & Hends) Hv. simplify_eq.
  apply list_elem_of_In, in_flat_map. exists l. split; [by apply list_elem_of_In|].
  rewrite <- (findIndex_unique j q Hq).
  destruct Hends as [[Hs Ht]|[Ht Hs]]; rewrite Hs, Ht, String.eqb_refl.
  - rewrite bool_decide_false by done. by left.
  - rewrite (bool_decide_false (address q ∈ visited)) by done. simpl.
    destruct (String.eqb_spec (address q) (address p)) as [Heq|]; simpl; [|by left].
    rewrite <- Heq, bool_decide_false by done. by left.
Qed.

(** The invariant of the loop started at [s] with [seen] already visited. *)
Record search_inv (s : nat) (seen : gset string)
    (queue : list (option nat)) (cur : list nat) (visited : gset string) : Prop := {
  si_nodup : NoDup cur;
  si_visited : forall a, a ∈ visited <->
    a ∈ seen \/ exists i p, i ∈ cur /\ ps !! i = Some p /\ address p = a;
  si_queue : forall o, o ∈ queue -> exists i p,
    o = Some i /\ ps !! i = Some p /\ connected s i /\ address p ∉ seen;
  si_cur : forall i, i ∈ cur -> exists p,
    ps !! i = Some p /\ connected s i /\ address p ∉ seen;
  si_step : forall i j q, i ∈ cur -> adj i j -> ps !! j = Some q ->
    address q ∈ visited \/ Some j ∈ queue;
  si_start : s ∈ cur \/ Some s ∈ queue
}.

Lemma search_inv_skip s seen i queue cur visited :
  search_inv s seen (Some i :: queue) cur visited -> i ∈ cur ->
  search_inv s seen queue cur visited.
Proof.
  intros [Hnd Hv Hq Hc Hst Hs] Hi. split; auto.
  - intros o Ho. apply Hq. by right.
  - intros k j q Hk Ha Hj. destruct (Hst k j q Hk Ha Hj) as [|Hin]; [by left|].
    apply elem_of_cons in Hin as [[= ->]|]; [|by right].
    left. apply Hv. right. eauto.
  - destruct Hs as [|[[= ->]|]%elem_of_cons]; auto.
Qed.

Lemma search_inv_visit s seen i p queue cur visited :
  search_inv s seen (Some i :: queue) cur visited -> i ∉ cur -> ps !! i = Some p ->
  search_inv s seen
    (queue ++ neighbours ps ls (address p) ({[address p]} ∪ visited))
    (cur ++ [i]) ({[address p]} ∪ visited).
Proof.
  intros [Hnd Hv Hq Hc Hst Hs] Hi Hp.
  destruct (Hq (Some i)) as (i' & p' & [= <-] & Hp' & Hconn & Hnew); [by left|].
  simplify_eq. split.
  - apply NoDup_app; repeat split; [done| |apply NoDup_singleton].
    intros x Hx ->%list_elem_of_singleton. done.
  - intros a. rewrite elem_of_union, elem_of_singleton, Hv. split.
    + intros [->|[|(k & q & Hk & ?)]]; [|by left|]; right.
      * exists i, p. set_solver.
      * exists k, q. set_solver.
    + intros [|(k & q & Hk & Hkq & Ha)]; [auto|].
      apply elem_of_app in Hk as [Hk| ->%list_elem_of_singleton]; [eauto 10|].
      left. congruence.
  - intros o [Ho|Ho]%elem_of_app; [apply Hq; by right|].
    destruct (neighbours_sound i p _ o Hp Ho) as (j & q & -> & Hj & Hadj & Hn).
    exists j, q. repeat split; auto.
    + etrans; [done|by apply rtc_once].
    + set_solver.
  - intros k [Hk| ->%list_elem_of_singleton]%elem_of_app; eauto.
  - intros k j q Hk Hadj Hj.
    destruct (decide (address q ∈ {[address p]} ∪ visited)) as [|Hn]; [by left|right].
    apply elem_of_app. apply elem_of_app in Hk as [Hk| ->%list_elem_of_singleton].
    + destruct (Hst k j q Hk Hadj Hj) as [|[[= ->]|]%elem_of_cons]; [set_solver| |auto].
      simplify_eq. set_solver.
    + right. by eapply neighbours_complete.
  - rewrite !elem_of_app. destruct Hs as [|[[= ->]|]%elem_of_cons]; [auto| |auto].
    left. right. by apply list_elem_of_singleton.
Qed.

Lemma bfs_correct s seen fuel queue cur visited :
  search_inv s seen queue cur visited ->
  length queue + (length ps - length cur) * length ls < fuel ->
  exists cur' visited',
    bfs fuel ps ls queue cur visited = Ok (cur', visited') /\
    search_inv s seen [] cur' visited'.
Proof.
  revert queue cur visited.
  induction fuel as [|fuel IH]; [intros * _ H; by apply Nat.nlt_0_r in H|].
  intros [|o queue] cur visited Hinv Hf; simpl; [eauto|].
  destruct (si_queue _ _ _ _ _ Hinv o) as (i & p & -> & Hp & _); [by left|].
  case_bool_decide as Hin.
  - apply IH; [by eapply search_inv_skip|simpl in Hf; lia].
  - rewrite Hp. pose proof (search_inv_visit _ _ _ _ _ _ _ Hinv Hin Hp) as Hinv'.
    apply IH; [done|].
    assert (Hb : length (cur ++ [i]) <= length ps).
    { apply indices_bound; [apply (si_nodup _ _ _ _ _ Hinv')|].
      apply Forall_forall. intros k Hk.
      destruct (si_cur _ _ _ _ _ Hinv' k Hk) as (? & Hk' & _).
      by apply lookup_lt_Some in Hk'. }
    rewrite !length_app in *. simpl in *.
    pose proof (neighbours_length (address p) ({[address p]} ∪ visited)). nia.
Qed.

(** Addresses visited so far form whole components. *)
Definition component_closed (seen : gset string) : Prop :=
  forall i j p q, adj i j -> ps !! i = Some p -> ps !! j = Some q ->
    address p ∈ seen -> address q ∈ seen.

Lemma search_component s seen cur visited j :
  search_inv s seen [] cur visited -> component_closed seen ->
  j ∈ cur <-> connected s j.
Proof.
  intros Hinv Hcl. split.
  - intros Hj. by destruct (si_cur _ _ _ _ _ Hinv j Hj) as (? & _ & ? & _).
  - revert j. apply rtc_ind_r.
    { destruct (si_start _ _ _ _ _ Hinv) as [|H]; [done|inv H]. }
    intros k j _ Hadj IH.
    destruct (si_cur _ _ _ _ _ Hinv k IH) as (p & Hp & _ & Hnew).
    pose proof Hadj as (l & p' & q & _ & Hp' & Hq & _). simplify_eq.
    destruct (si_step _ _ _ _ _ Hinv k j q IH Hadj Hq) as [Hv|H]; [|inv H].
    apply (si_visited _ _ _ _ _ Hinv) in Hv as [Hv|(m & r & Hm & Hr & Ha)].
    + destruct Hnew. eapply Hcl; [by apply adj_symmetric|done..].
    + by rewrite <- (same_address m j r q).
Qed.

(** ** Correctness of the outer loop *)

Record split_inv (todo : list nat) (visited : gset string)
    (acc : list (list nat)) : Prop := {
  sv_nodup : NoDup (concat acc);
  sv_visited : forall a, a ∈ visited <->
    exists i p, i ∈ concat acc /\ ps !! i = Some p /\ address p = a;
  sv_component : forall c i j, c ∈ acc -> i ∈ c -> j ∈ c <-> connected i j;
  sv_range : forall i, i ∈ concat acc -> i < length ps;
  sv_covered : forall i, i < length ps -> i ∈ todo \/ i ∈ concat acc
}.

Lemma split_inv_closed todo visited acc :
  split_inv todo visited acc -> component_closed visited.
Proof.
  intros Hinv i j p q Hadj Hp Hq Ha.
  apply (sv_visited _ _ _ Hinv) in Ha as (k & r & Hk & Hr & Har).
  rewrite (same_address k i r p) in Hk by done.
  apply (sv_visited _ _ _ Hinv). exists j, q. repeat split; auto.
  apply elem_of_lconcat in Hk as (c & Hc & Hi).
  apply elem_of_lconcat. exists c. split; [done|].
  eapply (sv_component _ _ _ Hinv c i); [done..|]. by apply rtc_once.
Qed.

Lemma split_inv_skip i p todo visited acc :
  split_inv (i :: todo) visited acc -> ps !! i = Some p -> address p ∈ visited ->
  split_inv todo visited acc.
Proof.
  intros Hinv Hp Ha. destruct Hinv as [H1 H2 H3 H4 H5]. split; auto.
  intros k Hk. destruct (H5 k Hk) as [[->|]%elem_of_cons|]; auto.
  right. apply H2 in Ha as (m & r & Hm & Hr & Har).
  by rewrite <- (same_address m i r p).
Qed.

Lemma split_inv_add i p todo visited visited' acc cur :
  split_inv (i :: todo) visited acc -> ps !! i = Some p -> address p ∉ visited ->
  search_inv i visited [] cur visited' ->
  split_inv todo visited' (acc ++ [cur]).
Proof.
  intros Hinv Hp Hnew Hs. pose proof (split_inv_closed _ _ _ Hinv) as Hcl.
  pose proof (fun j => search_component i visited cur visited' j Hs Hcl) as Hcomp.
  destruct Hinv as [H1 H2 H3 H4 H5]. destruct Hs as [S1 S2 S3 S4 S5 S6].
  assert (Hconcat : concat (acc ++ [cur]) = concat acc ++ cur)
    by (by rewrite concat_app; simpl; rewrite app_nil_r).
  split; rewrite ?Hconcat.
  - apply NoDup_app; repeat split; auto. intros k Hk Hk'.
    destruct (S4 k Hk') as (r & Hr & _ & Hr'). apply Hr', H2. eauto.
  - intros a. rewrite S2, H2. setoid_rewrite elem_of_app. naive_solver.
  - intros c k j [Hc| ->%list_elem_of_singleton]%elem_of_app Hk; [by apply H3|].
    rewrite Hcomp. apply Hcomp in Hk. split; intros Hj.
    + etrans; [by apply connected_sym|done].
    + by etrans.
  - intros k [|Hk]%elem_of_app; auto. destruct (S4 k Hk) as (r & Hr & _).
    by apply lookup_lt_Some in Hr.
  - intros k Hk. rewrite elem_of_app.
    destruct (H5 k Hk) as [[->|]%elem_of_cons|]; auto.
    right; right. by apply Hcomp.
Qed.

Lemma split_loop_correct todo visited acc :
  split_inv todo visited acc -> Forall (fun i => i < length ps) todo ->
  exists acc' visited', split_loop ps ls todo visited acc = Ok acc' /\
    split_inv [] visited' acc'.
Proof.
  revert visited acc. induction todo as [|i todo IH]; intros visited acc Hinv Hlt; cbn [split_loop].
  { eauto. }
  apply Forall_cons in Hlt as [[p Hp]%lookup_lt_is_Some Hlt]. rewrite Hp.
  case_bool_decide as Ha; [apply IH; auto; by eapply split_inv_skip|].
  destruct (bfs_correct i visited (bfs_fuel ps ls) [Some i] [] visited)
      as (cur & visited' & -> & Hs).
  - split.
    + constructor.
    + intros a. split; [by left|]. intros [|(?&?&H&_)]; [done|inv H].
    + intros o ->%list_elem_of_singleton. exists i, p. repeat split; auto. reflexivity.
    + intros k H; inv H.
    + intros k j q H; inv H.
    + right. by apply list_elem_of_singleton.
  - unfold bfs_fuel; simpl. lia.
  - apply IH; auto. by eapply split_inv_add.
Qed.

Lemma split_indices_correct : exists acc,
  split_indices ps ls = Ok acc /\ concat acc ≡ₚ seq 0 (length ps) /\
  forall c i j, c ∈ acc -> i ∈ c -> j ∈ c <-> connected i j.
Proof.
  destruct (split_loop_correct (seq 0 (length ps)) ∅ []) as (acc & v & Hok & Hinv).
  - split; simpl.
    + apply NoDup_nil_2.
    + set_solver.
    + intros c i j H; inv H.
    + intros i H; inv H.
    + intros i Hi. left. apply elem_of_seq. lia.
  - apply Forall_forall. intros i Hi%elem_of_seq. lia.
  - exists acc. split; [done|]. split; [|apply (sv_component _ _ _ Hinv)].
    apply NoDup_Permutation; [apply Hinv|apply NoDup_seq|]. intros i.
    rewrite elem_of_seq. split.
    + intros Hi%(sv_range _ _ _ Hinv). lia.
    + intros [_ Hi]. destruct (sv_covered _ _ _ Hinv i) as [H|]; [lia|inv H|done].
Qed.
End Search.

(** ** The only exception is the missing peer *)

Lemma bfs_Throw ps ls fuel queue cur visited e :
  bfs fuel ps ls queue cur visited = Throw e -> e = type_error \/ e = out_of_fuel.
Proof.
  revert queue cur visited. induction fuel as [|fuel IH]; intros queue cur visited H; simpl in H.
  { simplify_eq; auto. }
  repeat case_match; simplify_eq; eauto.
Qed.

Lemma split_loop_Throw ps ls todo visited acc e :
  split_loop ps ls todo visited acc = Throw e -> e = type_error.
Proof.
  revert visited acc. induction todo as [|i todo IH]; intros visited acc H;
    cbn [split_loop] in H; [done|].
  destruct (ps !! i) as [p|] eqn:Hp; [|by simplify_eq].
  case_bool_decide; [by eapply IH|].
  destruct (bfs _ _ _ _ _ _) as [[cur v]|e'] eqn:Hb; [by eapply IH|]. simplify_eq.
  destruct (bfs_Throw _ _ _ _ _ _ _ Hb) as [|Hof]; [done|]. rewrite Hof in Hb.
  exfalso. revert Hb. apply bfs_fuel_enough; [apply NoDup_nil_2|constructor| |].
  - repeat constructor. by apply lookup_lt_Some in Hp.
  - unfold bfs_fuel. simpl. lia.
Qed.

(** ** The sets in terms of peers *)

(** Two peers joined by a link, in either direction. *)
Definition joined (ps : list Peer) (ls : list Link) (p q : Peer) : Prop :=
  p ∈ ps /\ q ∈ ps /\ exists l, l ∈ ls /\
    ((source l = address p /\ target l = address q) \/
     (target l = address p /\ source l = address q)).

Definition linked (ps : list Peer) (ls : list Link) : Peer -> Peer -> Prop :=
  rtc (joined ps ls).

Lemma connected_linked ps ls i j p q :
  ps !! i = Some p -> ps !! j = Some q -> connected ps ls i j -> linked ps ls p q.
Proof.
  intros Hp Hq H. revert p Hp. induction H as [i|i k j Hik _ IH]; intros p Hp.
  { simplify_eq. reflexivity. }
  destruct Hik as (l & p' & r & Hl & Hp' & Hr & Hends). simplify_eq.
  eapply rtc_l; [|by apply IH].
  split; [by eapply list_elem_of_lookup_2|]. split; [by eapply list_elem_of_lookup_2|eauto].
Qed.

Lemma linked_connected ps ls i j p q :
  NoDup (address <$> ps) ->
  ps !! i = Some p -> ps !! j = Some q -> linked ps ls p q -> connected ps ls i j.
Proof.
  intros Hnd Hp Hq H. revert i Hp. induction H as [p|p r q Hpr _ IH]; intros i Hp.
  { rewrite (same_address ps Hnd i j p p) by done. reflexivity. }
  destruct Hpr as (_ & [k Hk]%list_elem_of_lookup & l & Hl & Hends).
  eapply rtc_l; [|by apply IH]. exists l, p, r. auto.
Qed.

Lemma elem_of_peers_at ps indices q :
  q ∈ peers_at ps indices <-> exists i, i ∈ indices /\ ps !! i = Some q.
Proof. unfold peers_at. by rewrite list_elem_of_omap. Qed.

Lemma peers_at_perm ps a b : a ≡ₚ b -> peers_at ps a ≡ₚ peers_at ps b.
Proof. unfold peers_at. by intros ->. Qed.

Lemma peers_at_seq ps : peers_at ps (seq 0 (length ps)) = ps.
Proof.
  unfold peers_at. induction ps as [|p l IH] using rev_ind; [done|].
  rewrite length_app, seq_app, omap_app. simpl. rewrite list_lookup_middle by done. simpl.
  f_equal. rewrite <- IH at 2. apply list_omap_ext, Forall2_same_length_lookup.
  split; [done|]. intros k x y Hx Hy. simplify_eq.
  apply lookup_seq in Hx as [-> Hk]. apply lookup_app_l. lia.
Qed.

Lemma peers_at_concat ps indices :
  concat (peers_at ps <$> indices) = peers_at ps (concat indices).
Proof.
  induction indices as [|a l IH]; [done|]. rewrite fmap_cons. cbn [concat].
  rewrite IH. unfold peers_at. by rewrite omap_app.
Qed.

Section Sets.
Context `{TableSorter Peer}.

Lemma sortPeers_perm ps ts : sortPeers ps ts ≡ₚ ps.
Proof. apply sort_perm. Qed.

Lemma concat_sorted_sets (f : list nat -> PeerSet) ps indices :
  (forall c, set_peers (f c) ≡ₚ peers_at ps c) ->
  concat (set_peers <$> (f <$> indices)) ≡ₚ concat (peers_at ps <$> indices).
Proof.
  intros Hf. induction indices as [|c l IH]; simpl; [done|]. by rewrite Hf, IH.
Qed.

Lemma splitThePeers_Ok ps ls :
  NoDup (address <$> ps) -> no_dangling ps ls ->
  exists sets, splitThePeers ps ls = Ok sets /\
    concat (set_peers <$> sets) ≡ₚ ps /\
    forall c p q, c ∈ sets -> p ∈ set_peers c -> q ∈ ps ->
      q ∈ set_peers c <-> linked ps ls p q.
Proof.
  intros Hnd Hcl. unfold splitThePeers.
  destruct (split_indices_correct ps ls Hnd Hcl) as (acc & -> & Hperm & Hcomp).
  eexists; split; [done|]. split.
  - rewrite (concat_sorted_sets _ ps) by (intros c; apply sortPeers_perm).
    rewrite peers_at_concat, (peers_at_perm _ _ _ Hperm), peers_at_seq. done.
  - intros c p q (is' & -> & Hin)%list_elem_of_fmap Hp Hq. simpl in *.
    rewrite sortPeers_perm in Hp. rewrite sortPeers_perm.
    apply elem_of_peers_at in Hp as (i & Hi & Hp).
    apply list_elem_of_lookup in Hq as [j Hj]. split.
    + intros (j' & Hj' & Hq)%elem_of_peers_at. eapply connected_linked; [done|exact Hq|].
      by apply (Hcomp is' i j').
    + intros Hl. apply elem_of_peers_at. exists j. split; [|done].
      apply (Hcomp is' i j); [done..|]. by eapply linked_connected.
Qed.
End Sets.

(** ** The service delivers what the search needs *)

Definition dedup (ps : list Peer) : list Peer :=
  sp_peers (removeDuplicatedPeers (mkSplits ps [])).

Lemma dedup_snoc ps p :
  dedup (ps ++ [p]) =
  dedup ps ++ match findIndex (has_address (address p)) ps with
              | Some _ => []
              | None => [p]
              end.
Proof.
  unfold dedup, removeDuplicatedPeers. simpl. rewrite imap_app, omap_app. f_equal.
  - apply (f_equal (omap id)), imap_ext. intros i q Hq.
    rewrite findIndex_app.
    destruct (findIndex_complete (has_address (address q)) ps i q Hq) as (j & -> & _); [|done].
    by apply String.eqb_eq.
  - assert (Hp : has_address (address p) p = true) by apply String.eqb_refl.
    simpl. rewrite findIndex_app, Nat.add_0_r. simpl. rewrite Hp.
    destruct (findIndex _ ps) as [j|] eqn:E; simpl.
    + rewrite bool_decide_false; [done|]. intros [= ->].
      apply findIndex_lt in E. lia.
    + by rewrite Nat.add_0_r, bool_decide_true.
Qed.

Lemma dedup_known ps a : known (dedup ps) a <-> known ps a.
Proof.
  unfold known. induction ps as [|p ps IH] using rev_ind; [done|]. rewrite dedup_snoc.
  setoid_rewrite elem_of_app. setoid_rewrite list_elem_of_singleton.
  destruct (findIndex _ ps) as [j|] eqn:E.
  - setoid_rewrite elem_of_nil. destruct (findIndex_Some _ _ _ E) as (q & Hq & Ha & _).
    apply String.eqb_eq in Ha. apply list_elem_of_lookup_2 in Hq. naive_solver.
  - setoid_rewrite list_elem_of_singleton. naive_solver.
Qed.

Lemma dedup_NoDup ps : NoDup (address <$> dedup ps).
Proof.
  induction ps as [|p ps IH] using rev_ind; [constructor|]. rewrite dedup_snoc.
  destruct (findIndex _ ps) as [j|] eqn:E; [by rewrite app_nil_r|].
  rewrite fmap_app. apply NoDup_app; repeat split; [done| |apply NoDup_singleton].
  intros a (q & -> & Hq)%list_elem_of_fmap Ha%list_elem_of_singleton. simpl in Ha.
  assert (Hk : known ps (address p)) by (apply dedup_known; exists q; auto).
  destruct Hk as (r & Hr & Hrp). rewrite findIndex_None in E.
  by apply (String.eqb_neq (address r) (address p)); [apply E|].
Qed.

Lemma collect_known m array acc :
  (forall l, l ∈ sp_links acc -> known (sp_peers acc) (source l) /\ known (sp_peers acc) (target l)) ->
  let r := fold_left (collect_step m) array acc in
  forall l, l ∈ sp_links r -> known (sp_peers r) (source l) /\ known (sp_peers r) (target l).
Proof.
  revert acc. induction array as [|r array IH]; intros acc Hacc; [done|]. simpl. apply IH.
  intros l. simpl. unfold known. setoid_rewrite elem_of_app. intros [Hl|Hl].
  { destruct (Hacc l Hl) as [(p & Hp & ?) (q & Hq & ?)]. split; eauto 10. }
  setoid_rewrite elem_of_app. apply elem_of_app in Hl as [Hl|Hl].
  - apply list_elem_of_fmap in Hl as (h & -> & Hh). simpl. split.
    + exists (plain_peer (externalIp r) (m !! externalIp r)). set_solver.
    + exists (plain_peer h (m !! h)). split; [|done]. right; left.
      apply list_elem_of_fmap. eauto.
  - apply list_elem_of_singleton in Hl as ->. simpl. split.
    + exists (plain_peer "rand2" (Some "seed15")). set_solver.
    + exists (plain_peer "rand" (Some "seed16")). set_solver.
Qed.

Lemma collectPeers_NoDup array : NoDup (address <$> sp_peers (collectPeers array)).
Proof. apply (dedup_NoDup (sp_peers (fold_left _ _ _))). Qed.

Lemma collectPeers_no_dangling array :
  no_dangling (sp_peers (collectPeers array)) (sp_links (collectPeers array)).
Proof.
  intros l Hl. unfold collectPeers in *. simpl in Hl.
  destruct (collect_known (node_map array) array (mkSplits [] [])) with (l := l) as [Hs Ht];
    [intros ? H; inv H|done|].
  split; intros _; by apply dedup_known.
Qed.

Lemma annotate_address ls (ps : list Peer) : address <$> (annotate ls <$> ps) = address <$> ps.
Proof. rewrite <- list_fmap_compose. by apply list_fmap_ext. Qed.

Lemma annotate_known ls (ps : list Peer) a : known (annotate ls <$> ps) a <-> known ps a.
Proof.
  unfold known. setoid_rewrite list_elem_of_fmap. split.
  - intros (q & (p & -> & Hp) & <-). by exists p.
  - intros (p & Hp & <-). exists (annotate ls p). eauto.
Qed.

Lemma annotate_no_dangling ls (ps : list Peer) :
  no_dangling ps ls -> no_dangling (annotate ls <$> ps) ls.
Proof. intros H l Hl. rewrite !annotate_known. by apply H. Qed.

(** ** Properties *)

Lemma known_fmap ps a : known ps a <-> a ∈ address <$> ps.
Proof. unfold known. rewrite list_elem_of_fmap. naive_solver. Qed.

#[export] Instance known_decision ps a : Decision (known ps a).
Proof.
  refine (cast_if (decide (a ∈ address <$> ps))); by rewrite known_fmap.
Defined.
#[export] Instance dangling_decision ps l : Decision (dangling ps l).
Proof. unfold dangling. apply _. Defined.

Section Properties.
Context `{TableSorter Peer}.

(** The sets a state shows are the state's peers, each in one set. *)
Definition sets_cover (s : State) : Prop :=
  concat (set_peers <$> sets s) ≡ₚ peers s.

Lemma resort_cover ts (l : list PeerSet) :
  concat (set_peers <$> (resort ts <$> l)) ≡ₚ concat (set_peers <$> l).
Proof. induction l as [|c l IH]; simpl; [done|]. rewrite IH. apply (Permutation_app (sortPeers_perm _ _)). done. Qed.

Lemma splitThePeers_perm ps ls new_sets :
  NoDup (address <$> ps) -> splitThePeers ps ls = Ok new_sets ->
  concat (set_peers <$> new_sets) ≡ₚ ps.
Proof.
  intros Hnd Hs. pose proof Hs as Hs'. unfold splitThePeers in Hs'.
  destruct (split_indices ps ls) as [acc|] eqn:E; [|done].
  destruct (splitThePeers_Ok ps ls Hnd (split_indices_Ok_no_dangling _ _ _ E))
    as (sets' & Hs'' & Hp & _). rewrite Hs in Hs''. by injection Hs'' as ->.
Qed.

(** One dispatch of an action, the peers of a response having distinct
    addresses, as [removeDuplicatedPeers] makes them. *)
Inductive dispatch (isMobile : bool) : State -> State -> Prop :=
| dispatch_action now s a s' :
    (forall payload, a = GetSplitsSuccess payload -> NoDup (address <$> sp_peers payload)) ->
    topologyReducer isMobile now s a = Ok s' -> dispatch isMobile s s'.

Lemma dispatch_cover isMobile s s' :
  dispatch isMobile s s' -> sets_cover s -> sets_cover s'.
Proof.
  intros Hd Hs. destruct Hd as [now s a s' Hnd Hr]. unfold sets_cover in *.
  destruct a; simpl in Hr; try (by simplify_eq).
  - destruct (splitThePeers _ _) as [new_sets|] eqn:E; [|done]. simplify_eq/=.
    rewrite resort_cover. eapply splitThePeers_perm; [|done].
    rewrite annotate_address. by apply Hnd.
  - simplify_eq/=. by rewrite resort_cover.
Qed.

(** C1: on peers with distinct addresses and links whose two ends are either
    both peers or both unknown, [splitThePeers] returns without an exception;
    its sets partition the peers, and two peers share a set exactly when a
    chain of links joins them: the sets are the connected components. *)
Theorem splitThePeers_components ps ls :
  NoDup (address <$> ps) -> no_dangling ps ls ->
  exists sets, splitThePeers ps ls = Ok sets /\
    concat (set_peers <$> sets) ≡ₚ ps /\
    forall c p q, c ∈ sets -> p ∈ set_peers c -> q ∈ ps ->
      q ∈ set_peers c <-> linked ps ls p q.
Proof. apply splitThePeers_Ok. Qed.

(** On peers with distinct addresses [splitThePeers] throws exactly when
    some link joins a peer to an address that is no peer's. *)
Theorem splitThePeers_throws_iff_dangling ps ls :
  NoDup (address <$> ps) ->
  splitThePeers ps ls = Throw type_error <-> exists l, l ∈ ls /\ dangling ps l.
Proof.
  intros Hnd. unfold splitThePeers. split.
  - intros Ht. destruct (decide (Exists (dangling ps) ls)) as [He|Hn];
      [by apply Exists_exists in He|].
    exfalso. destruct (split_indices_correct ps ls Hnd) as (acc & Hok & _);
      [|by rewrite Hok in Ht].
    intros l Hl. assert (Hd : ~ dangling ps l).
    { intros Hd. apply Hn, Exists_exists. eauto. }
    unfold dangling in Hd.
    destruct (decide (known ps (source l))), (decide (known ps (target l))); tauto.
  - intros (l & Hl & Hd). destruct (split_indices ps ls) as [acc|e] eqn:E.
    + pose proof (split_indices_Ok_no_dangling _ _ _ E l Hl). unfold dangling in Hd. tauto.
    + unfold split_indices in E. by rewrite (split_loop_Throw _ _ _ _ _ _ E).
Qed.

Lemma collectPeers_reduce isMobile now s array :
  exists s', topologyReducer isMobile now s (GetSplitsSuccess (collectPeers array)) = Ok s' /\
    sets_cover s' /\ fetching s' = false /\ links s' = sp_links (collectPeers array).
Proof.
  unfold topologyReducer. set (ls := sp_links (collectPeers array)). set (ps := sp_peers (collectPeers array)).
  destruct (splitThePeers_Ok (annotate ls <$> ps) ls) as (new_sets & -> & Hperm & _).
  - rewrite annotate_address. apply collectPeers_NoDup.
  - apply annotate_no_dangling, collectPeers_no_dangling.
  - eexists; split; [done|]. split; [|done]. unfold sets_cover. simpl.
    by rewrite resort_cover.
Qed.

(** C22: whatever the mock holds and the nodes answer, or fail with, the actions of the load are
    handled without an exception, the loading flag is cleared, and the sets
    partition the stored peers: the peers the service collects have distinct
    addresses and its links join only these peers. *)
Theorem getSplits_settles isMobile mock now s response :
  exists s', reduce_all (topologyReducer isMobile now) s (getSplits mock now response) = Ok s' /\
    fetching s' = false /\ sets_cover s'.
Proof.
  destruct response as [answers|e]; cbn -[topologyReducer collectPeers]; unfold getPeers.
  - destruct (collectPeers_reduce isMobile now s mock) as (s' & -> & ? & ? & _). eauto.
  - destruct (collectPeers_reduce isMobile now s []) as (s' & Hs & ? & ? & _).
    exists s'. rewrite <- Hs. eauto.
Qed.

(** In every state reachable from the initial one the sets partition the
    peers, whatever the sort, split, merge and load actions in between. *)
Theorem reachable_sets_cover isMobile s :
  rtc (dispatch isMobile) (initialState isMobile) s -> sets_cover s.
Proof.
  revert s. apply rtc_ind_r; [apply Permutation_refl|].
  intros s s' _ Hd Hs. by eapply dispatch_cover.
Qed.
End Properties.

Lemma firewall_requests_Ok configs suffix body side reqs :
  firewall_requests configs suffix body side = Ok reqs ->
  length reqs = length side /\ forall r, r ∈ reqs -> fw_body r = body.
Proof.
  revert reqs. induction side as [|[p n] side IH]; intros reqs Hr; simpl in Hr.
  { simplify_eq. split; [done|]. intros r Hr. inv Hr. }
  destruct (debugger_url _ _ _); [|done].
  destruct (firewall_requests _ _ _ side) as [rs|]; [|done]. simplify_eq.
  destruct (IH rs eq_refl) as [Hl Hb]. split; [simpl; lia|].
  intros r [->|Hin]%elem_of_cons; [done|by apply Hb].
Qed.

Lemma sides_partition ps : leftList ps ++ rightList ps ≡ₚ named_peers ps.
Proof. apply lfilter_partition. Qed.

(** When [splitNodes] builds its requests, the named peers are divided
    into two sides by the parity of their last digit, there is one request per
    peer, and every request whitelists exactly the addresses of its own side,
    so a node of one side is cut from all nodes of the other. *)
Theorem splitNodes_isolates configs ps left right :
  splitNodes configs ps = Ok (left, right) ->
  leftList ps ++ rightList ps ≡ₚ named_peers ps /\
  (length left = length (leftList ps) /\
   forall r, r ∈ left -> ips <$> fw_body r = Some (side_ips (leftList ps))) /\
  (length right = length (rightList ps) /\
   forall r, r ∈ right -> ips <$> fw_body r = Some (side_ips (rightList ps))).
Proof.
  unfold splitNodes. intros Hs. split; [apply sides_partition|].
  destruct (firewall_requests _ _ _ (leftList ps)) as [l|] eqn:El; [|done].
  destruct (firewall_requests _ _ _ (rightList ps)) as [r|] eqn:Er; [|done]. simplify_eq.
  apply firewall_requests_Ok in El as [El Bl], Er as [Er Br].
  split; (split; [done|]); intros q Hq; [rewrite (Bl q Hq)|rewrite (Br q Hq)]; done.
Qed.

(** *** Concrete inputs *)

Definition sample_peer (a : string) (n : string) : Peer :=
  mkPeer a None (Some n) None None None.
Definition sample_peers : list Peer :=
  [sample_peer "1.1.1.1:80" "Node 1"; sample_peer "2.2.2.2:80" "Node 2";
   sample_peer "3.3.3.3:80" "Node 3"].
Definition sample_links : list Link :=
  [mkLink "1.1.1.1:80" "3.3.3.3:80"; mkLink "8.8.8.8:80" "9.9.9.9:80"].

Lemma sample_NoDup : NoDup (address <$> sample_peers).
Proof. apply (bool_decide_unpack _). vm_compute. exact I. Qed.

Lemma sample_no_dangling : no_dangling sample_peers sample_links.
Proof.
  intros l Hl. rewrite !known_fmap. unfold sample_links in Hl. set_solver.
Qed.

Lemma splitThePeers_components_witness :
  exists sets, @splitThePeers (unsorted Peer) sample_peers sample_links = Ok sets /\
    length sets = 2.
Proof.
  destruct (@splitThePeers_components (unsorted Peer) sample_peers sample_links
    sample_NoDup sample_no_dangling) as (sets & Hs & _).
  exists sets. split; [exact Hs|]. vm_compute in Hs. by injection Hs as <-.
Defined.

Lemma splitThePeers_throws_iff_dangling_witness :
  exists l, l ∈ [mkLink "1.1.1.1:80" "7.7.7.7:80"] /\ dangling sample_peers l.
Proof.
  apply (@splitThePeers_throws_iff_dangling (unsorted Peer) sample_peers _ sample_NoDup).
  vm_compute. reflexivity.
Defined.

Lemma reachable_sets_cover_witness :
  exists s, sets_cover s /\ length (sets s) = 2.
Proof.
  destruct (@topologyReducer (unsorted Peer) false "now" (initialState false)
    (GetSplitsSuccess (mkSplits sample_peers sample_links))) as [s|e] eqn:E;
    [|vm_compute in E; discriminate E].
  exists s. split.
  - apply (@reachable_sets_cover (unsorted Peer) false), rtc_once.
    eapply (dispatch_action false "now"); [|exact E].
    intros payload [= <-]. apply sample_NoDup.
  - vm_compute in E. by injection E as <-.
Defined.

Lemma splitNodes_isolates_witness :
  exists left right,
    splitNodes [mkNodeConfig "node1" "d1"; mkNodeConfig "node2" "d2"; mkNodeConfig "node3" "d3"]
      sample_peers = Ok (left, right) /\ length left = 1 /\ length right = 2.
Proof.
  destruct (splitNodes [mkNodeConfig "node1" "d1"; mkNodeConfig "node2" "d2";
    mkNodeConfig "node3" "d3"] sample_peers) as [[l r]|e] eqn:E; [|vm_compute in E; discriminate E].
  exists l, r. split; [done|].
  destruct (splitNodes_isolates _ _ _ _ E) as (_ & [-> _] & [-> _]). by vm_compute.
Defined.

(** Whatever the nodes answer, the page shows one network of fourteen peers and one of two. *)
Lemma mock_networks answers :
  let r := getPeers peersMock answers in
  exists indices, split_indices (sp_peers r) (sp_links r) = Ok indices /\ length <$> indices = [14; 2].
Proof. eexists. split; vm_compute; reflexivity. Qed.

End Splits.
