(* ===== verification/Heartbeat.v ===== *)
(** * The heartbeat cloud function

    [src/frontend/functions/src/index.ts] and [submitterValidator.ts]: the
    signature check of a submitted heartbeat, the allow list of submitters, and
    the transaction that enforces a sliding-window rate limit per public key
    and stores the heartbeat.  The Firestore collections are finite maps and
    lists, the clock of a call is an argument, and the cryptography is a class
    of functions that may throw. *)

From Stdlib Require Import Sorting.Sorted.
From stdpp Require Import base list gmap strings sorting.
From S2P Require Import Prelude.
Open Scope Z_scope.

Module Heartbeat.

(** ** Data *)

Record SignatureJson := mkSignature { field : string; scalar : string }.

Record HeartbeatData := mkHeartbeat {
  version : Z;
  payload : string;
  submitter : string;
  signature : SignatureJson
}.

Definition WINDOW_SIZE_MS : Z := 60000.
Definition MAX_REQUESTS_PER_WINDOW : nat := 6.

(** A document of [publicKeyRateLimits]; the field [timestamps] may be missing
    from a document another program wrote. *)
Record RateLimitDoc := mkRateLimitDoc { timestamps : option (list Z); lastCall : Z }.

(** The two collections: the limits by public key, and the heartbeats in the
    order of creation with their [createTime]. *)
Record Db := mkDb {
  publicKeyRateLimits : gmap string RateLimitDoc;
  heartbeats : list (HeartbeatData * Z)
}.

Inductive HttpsError :=
| permission_denied
| unauthenticated
| resource_exhausted
| internal.

Definition response : Type := unit + HttpsError.
Definition stored_successfully : response := inl ().

#[export] Instance HttpsError_eq_dec : EqDecision HttpsError.
Proof. solve_decision. Defined.

(** [blake2], [bs58check] and [mina-signer]: each call may throw. *)
Class Crypto := {
  blake2b_hex : string -> result string;
  bs58check_decode : string -> result (list Z);
  verifyMessage : string -> SignatureJson -> string -> result bool
}.

(** ** Operations *)

Section Function_.
Context `{Crypto}.

(** [validateSignature]: every exception ends in [false]. *)
Definition validateSignature (data : string) (sig : SignatureJson)
    (publicKeyBase58 : string) : bool :=
  match blake2b_hex data with
  | Throw _ => false
  | Ok digest =>
    match bs58check_decode publicKeyBase58 with
    | Throw _ => false
    | Ok publicKeyBytes =>
      if negb (bool_decide (publicKeyBytes !! 0%nat = Some 203)) then false
      else match verifyMessage digest sig publicKeyBase58 with
           | Ok b => b
           | Throw _ => false
           end
    end
  end.

(** [submitterAllowed] against the configured set of keys. *)
Definition submitterAllowed (allowedPublicKeys : gset string) (k : string) : bool :=
  if bool_decide (size allowedPublicKeys = 0%nat) then true
  else bool_decide (k ∈ allowedPublicKeys).

(** [data?.timestamps || []] *)
Definition previousTimestamps (doc : RateLimitDoc) : list Z :=
  match timestamps doc with Some l => l | None => [] end.

(** The body of [runTransaction] at the time [now], [stamp] being the server
    timestamp: the new collections, or the error that aborts it. *)
Definition transaction (now stamp : Z) (data : HeartbeatData) (db : Db) : Db + HttpsError :=
  let windowStart := now - WINDOW_SIZE_MS in
  let create limits :=
    inl {| publicKeyRateLimits := limits;
           heartbeats := heartbeats db ++ [(data, stamp)] |} in
  match publicKeyRateLimits db !! submitter data with
  | Some doc =>
    let currentWindowTimestamps :=
      List.filter (fun ts => windowStart <? ts) (previousTimestamps doc) ++ [now] in
    if (MAX_REQUESTS_PER_WINDOW <? length currentWindowTimestamps)%nat
    then inr resource_exhausted
    else create (<[submitter data := mkRateLimitDoc (Some currentWindowTimestamps) stamp]>
                   (publicKeyRateLimits db))
  | None =>
    create (<[submitter data := mkRateLimitDoc (Some [now]) stamp]> (publicKeyRateLimits db))
  end.

(** A call: its data, the clock, and whether Firestore fails to run the
    transaction. *)
Record Call := mkCall {
  call_data : HeartbeatData;
  call_now : Z;
  call_stamp : Z;
  firestore_fails : bool
}.

Definition handleValidationAndStore (allowed : gset string) (c : Call) (db : Db)
    : Db * response :=
  let data := call_data c in
  if negb (submitterAllowed allowed (submitter data)) then (db, inr permission_denied)
  else if negb (validateSignature (payload data) (signature data) (submitter data))
  then (db, inr unauthenticated)
  else if firestore_fails c then (db, inr internal)
  else match transaction (call_now c) (call_stamp c) data db with
       | inl db' => (db', stored_successfully)
       | inr e => (db, inr e)
       end.

(** The collections after a sequence of calls, and the accepted calls as pairs
    of their time and public key. *)
Fixpoint serve (allowed : gset string) (calls : list Call) (db : Db)
    : Db * list (Z * string) :=
  match calls with
  | [] => (db, [])
  | c :: calls' =>
    let '(db', r) := handleValidationAndStore allowed c db in
    let '(db'', accepted) := serve allowed calls' db' in
    (db'', match r with
           | inl _ => [(call_now c, submitter (call_data c))]
           | inr _ => []
           end ++ accepted)
  end.

(** The calls with the responses they get. *)
Fixpoint answered (allowed : gset string) (calls : list Call) (db : Db) : list (Call * response) :=
  match calls with
  | [] => []
  | c :: calls' =>
    let '(db', r) := handleValidationAndStore allowed c db in (c, r) :: answered allowed calls' db'
  end.

End Function_.

(** The document a call with this response leaves in the collection. *)
Definition document (a : Call * response) : option (HeartbeatData * Z) :=
  match a.2 with inl _ => Some (call_data a.1, call_stamp a.1) | inr _ => None end.

Definition emptyDb : Db := mkDb ∅ [].

(** The accepted calls of [k] in the window of times after [t] up to
    [t + WINDOW_SIZE_MS]. *)
Definition in_window (k : string) (t : Z) (a : Z * string) : bool :=
  String.eqb a.2 k && (t <? a.1) && (a.1 <=? t + WINDOW_SIZE_MS).

(** ** The window invariant *)

Definition times_after (k : string) (t : Z) (log : list (Z * string)) : list Z :=
  List.filter (fun ts => t <? ts) (List.filter (fun a => String.eqb a.2 k) log).*1.

Definition stored_times (db : Db) (k : string) : list Z :=
  match publicKeyRateLimits db !! k with
  | Some doc => previousTimestamps doc
  | None => []
  end.

(** After the calls of [log], the last of them not after [now]: the stored
    timestamps and the log agree on the current window, and no window holds
    more than the allowed number of calls. *)
Record limited (log : list (Z * string)) (now : Z) (db : Db) : Prop := {
  limited_past : Forall (fun a => a.1 <= now) log;
  limited_stored : forall k t, now - WINDOW_SIZE_MS <= t ->
    List.filter (fun ts => t <? ts) (stored_times db k) = times_after k t log;
  limited_window : forall k t, (count_if (in_window k t) log <= MAX_REQUESTS_PER_WINDOW)%nat
}.

Lemma count_in_window k t log :
  Forall (fun a => a.1 <= t + WINDOW_SIZE_MS) log ->
  count_if (in_window k t) log = length (times_after k t log).
Proof.
  induction 1 as [|[ts k'] log Hts _ IH]; [done|].
  rewrite count_if_cons, IH. unfold times_after, in_window. simpl in *.
  rewrite (proj2 (Z.leb_le ts _) Hts), andb_true_r.
  destruct (String.eqb k' k); simpl; [|done]. by destruct (t <? ts).
Qed.

Lemma times_after_snoc k t log ts k' :
  times_after k t (log ++ [(ts, k')]) =
  times_after k t log ++ (if String.eqb k' k && (t <? ts) then [ts] else []).
Proof.
  unfold times_after. rewrite List.filter_app, fmap_app, List.filter_app. simpl.
  destruct (String.eqb k' k); simpl; [|done]. by destruct (t <? ts).
Qed.

Lemma limited_later log now now' db :
  limited log now db -> now <= now' -> limited log now' db.
Proof.
  intros [Hp Hs Hw] Hle. split; [|intros k t Ht; apply Hs; lia|done].
  eapply Forall_impl; [exact Hp|]. simpl. lia.
Qed.

Lemma limited_empty now : limited [] now emptyDb.
Proof.
  split; [done| |intros; cbn; lia].
  intros k t _. unfold stored_times, emptyDb. simpl. by rewrite lookup_empty.
Qed.

(** The stored timestamps of [k] in the window that ends at [now]. *)
Definition kept (db : Db) (k : string) (now : Z) : list Z :=
  List.filter (fun ts => now - WINDOW_SIZE_MS <? ts) (stored_times db k).

(** What an accepted transaction does to the stored timestamps. *)
Lemma transaction_accepts now stamp data db db' :
  transaction now stamp data db = inl db' ->
  (length (kept db (submitter data) now) < MAX_REQUESTS_PER_WINDOW)%nat /\
  heartbeats db' = heartbeats db ++ [(data, stamp)] /\
  forall k, stored_times db' k =
    if String.eqb (submitter data) k then kept db (submitter data) now ++ [now] else stored_times db k.
Proof.
  unfold transaction, kept, stored_times.
  destruct (publicKeyRateLimits db !! submitter data) as [doc|] eqn:E; intros Ht.
  - destruct (_ <? _)%nat eqn:Hn; [done|]. simplify_eq/=.
    rewrite length_app in Hn. simpl in Hn. apply Nat.ltb_ge in Hn.
    split; [unfold MAX_REQUESTS_PER_WINDOW in *; lia|]. split; [done|]. intros k.
    destruct (String.eqb_spec (submitter data) k) as [<-|Hne];
      [by rewrite lookup_insert_eq|by rewrite lookup_insert_ne].
  - simplify_eq/=. split; [unfold MAX_REQUESTS_PER_WINDOW; lia|]. split; [done|]. intros k.
    destruct (String.eqb_spec (submitter data) k) as [<-|Hne];
      [by rewrite lookup_insert_eq|by rewrite lookup_insert_ne].
Qed.

Lemma transaction_rejects now stamp data db e :
  transaction now stamp data db = inr e ->
  e = resource_exhausted /\
  (MAX_REQUESTS_PER_WINDOW <= length (kept db (submitter data) now))%nat.
Proof.
  unfold transaction, kept, stored_times. destruct (_ !! _) as [doc|]; intros Ht; [|done].
  destruct (_ <? _)%nat eqn:Hn; [|done]. simplify_eq. split; [done|].
  apply Nat.ltb_lt in Hn. rewrite length_app in Hn. simpl in Hn. lia.
Qed.

Lemma filter_after t w (l : list Z) :
  w <= t ->
  List.filter (fun ts => t <? ts) (List.filter (fun ts => w <? ts) l) =
  List.filter (fun ts => t <? ts) l.
Proof.
  intros Hw. induction l as [|ts l IH]; simpl; [done|].
  destruct (Z.ltb_spec w ts); simpl; [by rewrite IH|].
  destruct (Z.ltb_spec t ts); [lia|done].
Qed.

Lemma limited_accept log now stamp data db db' :
  limited log now db -> transaction now stamp data db = inl db' ->
  limited (log ++ [(now, submitter data)]) now db'.
Proof.
  intros [Hp Hs Hw] Ht. destruct (transaction_accepts _ _ _ _ _ Ht) as (Hlen & _ & Hst).
  assert (Hs' : forall k t, now - WINDOW_SIZE_MS <= t ->
    List.filter (fun ts => t <? ts) (stored_times db' k) =
    times_after k t (log ++ [(now, submitter data)])).
  { intros k t Hk. rewrite Hst, times_after_snoc.
    destruct (String.eqb_spec (submitter data) k) as [<-|]; simpl;
      [|by rewrite app_nil_r, Hs].
    unfold kept. rewrite List.filter_app, filter_after, Hs by lia. simpl. by destruct (t <? now). }
  assert (Hp' : Forall (fun a => a.1 <= now) (log ++ [(now, submitter data)])).
  { apply Forall_app; split; [done|]. repeat constructor. simpl. lia. }
  split; [done..|]. intros k t.
  destruct (Z.le_gt_cases (now - WINDOW_SIZE_MS) t) as [Hk|Hk].
  - rewrite count_in_window by (eapply Forall_impl; [exact Hp'|simpl; lia]).
    rewrite <- Hs', Hst by done.
    destruct (String.eqb (submitter data) k).
    + etrans; [apply List.filter_length_le|]. rewrite length_app. simpl. lia.
    + rewrite Hs by done. rewrite <- count_in_window; [apply Hw|].
      eapply Forall_impl; [exact Hp|simpl; lia].
  - rewrite count_if_app. replace (count_if _ [_]) with 0%nat; [rewrite Nat.add_0_r; apply Hw|].
    unfold count_if, in_window. simpl. rewrite (proj2 (Z.leb_gt now _)) by lia.
    by rewrite andb_false_r.
Qed.

(** ** Sequences of calls *)

Section Serving.
Context `{Crypto} (allowed : gset string).

(** The call passes the checks before the transaction. *)
Definition authentic (data : HeartbeatData) : bool :=
  submitterAllowed allowed (submitter data) &&
  validateSignature (payload data) (signature data) (submitter data).

Lemma handle_authentic c db :
  authentic (call_data c) = true -> firestore_fails c = false ->
  handleValidationAndStore allowed c db =
  match transaction (call_now c) (call_stamp c) (call_data c) db with
  | inl db' => (db', stored_successfully)
  | inr e => (db, inr e)
  end.
Proof.
  unfold authentic, handleValidationAndStore. intros [-> ->]%andb_prop ->. done.
Qed.

(** Either the call is stored by its transaction, or nothing changes. *)
Lemma handle_cases c db :
  (exists db', handleValidationAndStore allowed c db = (db', stored_successfully) /\
     authentic (call_data c) = true /\
     transaction (call_now c) (call_stamp c) (call_data c) db = inl db') \/
  (exists e, handleValidationAndStore allowed c db = (db, inr e)).
Proof.
  unfold authentic, handleValidationAndStore.
  destruct (submitterAllowed _ _); simpl; [|eauto].
  destruct (validateSignature _ _ _); simpl; [|eauto].
  destruct (firestore_fails c); [eauto|].
  destruct (transaction _ _ _ _); eauto.
Qed.

Lemma serve_cons c calls db :
  serve allowed (c :: calls) db =
  let '(db', r) := handleValidationAndStore allowed c db in
  let '(db'', accepted) := serve allowed calls db' in
  (db'', match r with
         | inl _ => [(call_now c, submitter (call_data c))]
         | inr _ => []
         end ++ accepted).
Proof. done. Qed.

Lemma serve_limited calls db log now b :
  limited log now db ->
  StronglySorted Z.le (now :: (call_now <$> calls)) ->
  Forall (fun t => t <= b) (now :: (call_now <$> calls)) ->
  limited (log ++ (serve allowed calls db).2) b (serve allowed calls db).1.
Proof.
  revert db log now. induction calls as [|c calls IH]; intros db log now Hl Hs Hb.
  { simpl. rewrite app_nil_r. eapply limited_later; [done|]. by inv Hb. }
  apply StronglySorted_inv in Hs as [Hs Hle]. inv Hle. inv Hb.
  apply (limited_later _ _ (call_now c)) in Hl; [|done]. rewrite serve_cons.
  destruct (handle_cases c db) as [(db' & -> & _ & Ht)|[e ->]].
  - specialize (IH db' _ _ (limited_accept _ _ _ _ _ _ Hl Ht) Hs).
    destruct (serve allowed calls db') as [db'' acc]. simpl in *.
    rewrite <- app_assoc in IH. by apply IH.
  - specialize (IH db log _ Hl Hs).
    destruct (serve allowed calls db) as [db'' acc]. by apply IH.
Qed.

Lemma bounded_above (l : list Z) : exists b, Forall (fun t => t <= b) l.
Proof.
  induction l as [|t l [b IH]]; [by exists 0|]. exists (Z.max t b). constructor; [lia|].
  eapply Forall_impl; [exact IH|]. simpl. lia.
Qed.

Lemma serve_empty_limited calls b :
  StronglySorted Z.le (call_now <$> calls) ->
  Forall (fun t => t <= b) (call_now <$> calls) ->
  limited (serve allowed calls emptyDb).2 b (serve allowed calls emptyDb).1.
Proof.
  destruct calls as [|c calls]; intros Hs Hb; [apply limited_empty|].
  apply (serve_limited _ _ [] (call_now c)); [apply limited_empty| |].
  - constructor; [done|]. apply StronglySorted_inv in Hs as [_ Hs]. constructor; [lia|done].
  - constructor; [by inv Hb|done].
Qed.

(** ** Properties *)

(** C3: as long as the clock does not go back, no public key ever has more
    than [MAX_REQUESTS_PER_WINDOW] accepted heartbeats in any window of
    [WINDOW_SIZE_MS] milliseconds, wherever the window starts. *)
Theorem rate_limit_holds calls k t :
  StronglySorted Z.le (call_now <$> calls) ->
  (count_if (in_window k t) (serve allowed calls emptyDb).2 <= MAX_REQUESTS_PER_WINDOW)%nat.
Proof.
  intros Hs. destruct (bounded_above (call_now <$> calls)) as [b Hb].
  by apply (serve_empty_limited calls b Hs Hb).
Qed.

(** The limit is exact: an authentic call is accepted when fewer than
    [MAX_REQUESTS_PER_WINDOW] heartbeats of its key were accepted in the window
    that ends now, and is answered [resource-exhausted] otherwise. *)
Theorem rate_limit_exact calls c :
  StronglySorted Z.le (call_now <$> (calls ++ [c])) ->
  authentic (call_data c) = true -> firestore_fails c = false ->
  (handleValidationAndStore allowed c (serve allowed calls emptyDb).1).2 =
  if (count_if (in_window (submitter (call_data c)) (call_now c - WINDOW_SIZE_MS))
        (serve allowed calls emptyDb).2 <? MAX_REQUESTS_PER_WINDOW)%nat
  then stored_successfully else inr resource_exhausted.
Proof.
  intros Hs Ha Hf. rewrite fmap_app in Hs.
  destruct (serve_empty_limited calls (call_now c)) as [Hp Hst _].
  { eapply StronglySorted_app_1_l, Hs. }
  { apply Forall_forall. intros t Ht.
    eapply (StronglySorted_app_1_elem_of Z.le); [done..|]. simpl. by left. }
  rewrite handle_authentic by done. rewrite count_in_window
    by (eapply Forall_impl; [exact Hp|simpl; lia]).
  rewrite <- Hst by lia. fold (kept (serve allowed calls emptyDb).1 (submitter (call_data c)) (call_now c)).
  destruct (transaction _ _ _ _) as [db'|e] eqn:Ht.
  - apply transaction_accepts in Ht as [Hlt%Nat.ltb_lt _]. by rewrite Hlt.
  - apply transaction_rejects in Ht as [-> Hge%Nat.ltb_ge]. by rewrite Hge.
Qed.

Lemma answered_cons c calls db :
  answered allowed (c :: calls) db =
  (c, (handleValidationAndStore allowed c db).2) :: answered allowed calls (handleValidationAndStore allowed c db).1.
Proof. cbn [answered]. by destruct (handleValidationAndStore allowed c db). Qed.

Lemma serve_documents calls db :
  heartbeats (serve allowed calls db).1 = heartbeats db ++ omap document (answered allowed calls db).
Proof.
  revert db. induction calls as [|c calls IH]; intros db; [by rewrite app_nil_r|].
  rewrite serve_cons, answered_cons. destruct (handle_cases c db) as [(db' & -> & Ha & Ht)|[e ->]].
  - apply transaction_accepts in Ht as (_ & Hh & _). specialize (IH db').
    destruct (serve allowed calls db') as [db'' acc]. cbn in *. by rewrite IH, Hh, <- app_assoc.
  - specialize (IH db). by destruct (serve allowed calls db) as [db'' acc].
Qed.

(** C35: whatever is called in whatever order, the stored heartbeats are the data of
    exactly those calls that were answered with success, in their order and each with
    its server timestamp, and each of them comes from an allowed submitter and carries
    a valid signature of its payload. *)
Theorem stored_heartbeats_authentic calls :
  heartbeats (serve allowed calls emptyDb).1 = omap document (answered allowed calls emptyDb) /\
  Forall (fun a => forall h, document a = Some h ->
    submitterAllowed allowed (submitter h.1) = true /\
    validateSignature (payload h.1) (signature h.1) (submitter h.1) = true) (answered allowed calls emptyDb).
Proof.
  split; [apply serve_documents|]. generalize emptyDb.
  induction calls as [|c calls IH]; intros db; [constructor|]. rewrite answered_cons. constructor; [|apply IH].
  intros h. unfold document. cbn. destruct (handle_cases c db) as [(db' & -> & Ha & _)|[e ->]]; [|done].
  intros [= <-]. by apply andb_true_iff in Ha.
Qed.

(** A refused call changes nothing, and the error says why: the submitter
    is not on the list, the signature is wrong, the limit is reached, or
    Firestore failed. *)
Theorem refused_call_changes_nothing c db e :
  (handleValidationAndStore allowed c db).2 = inr e ->
  (handleValidationAndStore allowed c db).1 = db /\
  match e with
  | permission_denied => submitterAllowed allowed (submitter (call_data c)) = false
  | unauthenticated => authentic (call_data c) = false
  | internal => authentic (call_data c) = true /\ firestore_fails c = true
  | resource_exhausted => authentic (call_data c) = true /\
      (MAX_REQUESTS_PER_WINDOW <= length (kept db (submitter (call_data c)) (call_now c)))%nat
  end.
Proof.
  unfold handleValidationAndStore, authentic.
  destruct (submitterAllowed _ _); simpl; [|intros [= <-]; auto].
  destruct (validateSignature _ _ _); simpl; [|intros [= <-]; auto].
  destruct (firestore_fails c); [intros [= <-]; auto|].
  destruct (transaction _ _ _ _) eqn:Ht; simpl; [done|]. intros [= <-].
  apply transaction_rejects in Ht as [-> ?]. auto.
Qed.

End Serving.

(** *** Concrete inputs *)

Definition sample_crypto : Crypto := {|
  blake2b_hex := fun s => Ok s;
  bs58check_decode := fun s => if String.eqb s "" then Throw "Invalid checksum" else Ok [203];
  verifyMessage := fun digest sig _ => Ok (String.eqb (field sig) digest)
|}.

Definition sample_call (now : Z) : Call :=
  mkCall (mkHeartbeat 1 "p" "B62" (mkSignature "p" "s")) now now false.

Definition sample_calls : list Call := sample_call <$> [1; 2; 3; 4; 5; 6].

Lemma sample_sorted : StronglySorted Z.le (call_now <$> (sample_calls ++ [sample_call 7])).
Proof. repeat constructor; simpl; lia. Qed.

Lemma rate_limit_holds_witness :
  (count_if (in_window "B62" 0)
     (@serve sample_crypto ∅ (sample_calls ++ [sample_call 7]) emptyDb).2 <= 6)%nat.
Proof. apply (@rate_limit_holds sample_crypto ∅ _ "B62" 0), sample_sorted. Defined.

Lemma rate_limit_exact_witness :
  (@handleValidationAndStore sample_crypto ∅ (sample_call 7)
     (@serve sample_crypto ∅ sample_calls emptyDb).1).2 =
  inr resource_exhausted.
Proof.
  rewrite (@rate_limit_exact sample_crypto ∅ sample_calls (sample_call 7));
    [vm_compute; reflexivity|exact sample_sorted|vm_compute; reflexivity|reflexivity].
Defined.

Lemma refused_call_changes_nothing_witness :
  (@handleValidationAndStore sample_crypto {["B62"]}
     (mkCall (mkHeartbeat 1 "p" "B63" (mkSignature "p" "s")) 0 0 false) emptyDb).1 = emptyDb.
Proof.
  apply (@refused_call_changes_nothing sample_crypto {["B62"]} _ _ permission_denied).
  vm_compute. reflexivity.
Defined.

End Heartbeat.
