(* ===== verification/DateHelper.v ===== *)
(** * Relative and elapsed times

    [src/frontend/src/app/shared/helpers/date.helper.ts].  Times are integers of
    milliseconds; the quotients the code takes are of integers below [2^53], on
    which [Math.floor(a / b)] is the integer quotient. *)

From Stdlib Require Import ZArith Lia.
From stdpp Require Import base list strings pretty sets.
From S2P Require Import Prelude.
Open Scope Z_scope.

Module DateHelper.

(** The optional argument [config]. *)
Record DiffConfig := mkDiffConfig {
  withSecs : bool;
  only1unit : bool;
  fromTime : option Z
}.

Record TimeDiff := mkTimeDiff { diff : option string; inFuture : bool }.

(** The days, hours, minutes and seconds of a non-negative difference, with the
    remainder carried from one unit to the next as the code does. *)
Record Parts := mkParts { days : Z; hours : Z; minutes : Z; seconds : Z }.

Definition split_time (timeDifference : Z) : Parts :=
  let days := floor_div timeDifference (1000 * 60 * 60 * 24) in
  let timeDifference := timeDifference - days * 1000 * 60 * 60 * 24 in
  let hours := floor_div timeDifference (1000 * 60 * 60) in
  let timeDifference := timeDifference - hours * 1000 * 60 * 60 in
  let minutes := floor_div timeDifference (1000 * 60) in
  let timeDifference := timeDifference - minutes * 1000 * 60 in
  let seconds := floor_div timeDifference 1000 in
  mkParts days hours minutes seconds.

(** The branch [config?.only1unit]. *)
Definition one_unit (secs : bool) (p : Parts) : string :=
  if 0 <? days p then
    if 12 <=? hours p then "<" +:+ show (days p + 1) +:+ "d "
    else "~" +:+ show (days p) +:+ "d "
  else if 0 <? hours p then
    if 30 <=? minutes p then "<" +:+ show (hours p + 1) +:+ "h "
    else "~" +:+ show (hours p) +:+ "h "
  else if 0 <? minutes p then
    if 30 <=? seconds p then "<" +:+ show (minutes p + 1) +:+ "m "
    else "~" +:+ show (minutes p) +:+ "m "
  else if secs then show (seconds p) +:+ "s "
  else "<1m ".

(** The other branch: the string is built by successive additions, and the last
    statement replaces it. *)
Definition all_units (secs : bool) (p : Parts) : string :=
  let timeAgo := "" in
  let timeAgo := if 0 <? days p then timeAgo +:+ show (days p) +:+ "d " else timeAgo in
  let timeAgo := if 0 <? hours p then timeAgo +:+ show (hours p) +:+ "h " else timeAgo in
  let timeAgo := if (days p =? 0) && negb (hours p =? 0) && (0 <? minutes p)
                 then timeAgo +:+ show (minutes p) +:+ "m " else timeAgo in
  let timeAgo := if (days p =? 0) && (hours p =? 0) && (0 <? minutes p)
                 then timeAgo +:+ show (minutes p) +:+ "m " else timeAgo in
  let timeAgo := if secs && (days p =? 0) && (hours p =? 0)
                 then timeAgo +:+ show (seconds p) +:+ "s " else timeAgo in
  if negb secs && (days p =? 0) && (hours p =? 0) && (minutes p =? 0)
  then "<1m " else timeAgo.

(** [time *= ONE_THOUSAND] for a time of ten characters. *)
Definition to_millis (time : Z) : Z :=
  if (String.length (show time) =? 10)%nat then time * 1000 else time.

(** [now] is [Date.now()]; a missing [time] is [None]. *)
Definition getTimeDiff (now : Z) (time : option Z) (config : DiffConfig) : TimeDiff :=
  match time with
  | None => mkTimeDiff None false
  | Some t =>
    if negb (truthyZ t) then mkTimeDiff None false
    else
      let paramTime := to_millis t in
      let currentTime := match fromTime config with
                         | Some f => if truthyZ f then f else now
                         | None => now
                         end in
      let timeDifference := paramTime - currentTime in
      let inFuture := 0 <? timeDifference in
      let p := split_time (Z.abs timeDifference) in
      if only1unit config
      then mkTimeDiff (Some (trim (one_unit (withSecs config) p))) inFuture
      else mkTimeDiff (Some (trim (all_units (withSecs config) p))) inFuture
  end.

Definition getElapsedTime (timeInSeconds : Z) : string :=
  if timeInSeconds <? 60 then show timeInSeconds +:+ "s"
  else
    let minutes := floor_div timeInSeconds 60 in
    let seconds := Z.rem timeInSeconds 60 in
    show minutes +:+ "m " +:+ show seconds +:+ "s".

Definition getElapsedTimeInMinsAndHours (timeInMinutes : Z) : string :=
  if timeInMinutes <? 60 then show timeInMinutes +:+ "m"
  else
    let hours := floor_div timeInMinutes 60 in
    let minutes := Z.rem timeInMinutes 60 in
    show hours +:+ "h " +:+ show minutes +:+ "m".

(** ** The parts add up *)

Lemma split_time_spec t :
  0 <= t ->
  let p := split_time t in
  0 <= days p /\ 0 <= hours p < 24 /\ 0 <= minutes p < 60 /\ 0 <= seconds p < 60 /\
  0 <= t - (((days p * 24 + hours p) * 60 + minutes p) * 60 + seconds p) * 1000 < 1000.
Proof. intros Ht. unfold split_time, floor_div; cbn zeta; cbn [days hours minutes seconds].
  set (d := t / (1000 * 60 * 60 * 24)). set (t1 := t - d * 1000 * 60 * 60 * 24).
  set (h := t1 / (1000 * 60 * 60)). set (t2 := t1 - h * 1000 * 60 * 60).
  set (m := t2 / (1000 * 60)). set (t3 := t2 - m * 1000 * 60).
  pose proof (Z.div_mod t 86400000 ltac:(lia)). pose proof (Z.mod_pos_bound t 86400000 ltac:(lia)).
  pose proof (Z.div_mod t1 3600000 ltac:(lia)). pose proof (Z.mod_pos_bound t1 3600000 ltac:(lia)).
  pose proof (Z.div_mod t2 60000 ltac:(lia)). pose proof (Z.mod_pos_bound t2 60000 ltac:(lia)).
  pose proof (Z.div_mod t3 1000 ltac:(lia)). pose proof (Z.mod_pos_bound t3 1000 ltac:(lia)).
  change (t / 86400000) with d in *. change (t1 / 3600000) with h in *.
  change (t2 / 60000) with m in *. lia.
Qed.

Lemma trim_right_blank s c :
  is_blank c = false ->
  trim_right (s +:+ String c " ") = s +:+ String c "".
Proof.
  intros Hc. induction s as [|c' s IH].
  - change (trim_right (String c " ") = String c ""). cbn [trim_right].
    change (is_blank (Ascii.ascii_of_nat 32)) with true. cbn iota. by rewrite Hc.
  - change (trim_right (String c' (s +:+ String c " ")) = String c' (s +:+ String c "")).
    cbn [trim_right]. rewrite IH. by destruct s.
Qed.

(** The label [one_unit] prints, with the blank it ends in trimmed. *)
Lemma trim_label c n u :
  is_blank c = false -> is_blank u = false ->
  trim (String c "" +:+ show n +:+ String u " ") = String c "" +:+ show n +:+ String u "".
Proof.
  intros Hc Hu. unfold trim.
  change (String c "" +:+ show n +:+ String u " ") with (String c (show n +:+ String u " ")).
  change (String c "" +:+ show n +:+ String u "") with (String c (show n) +:+ String u "").
  cbn [trim_left]. rewrite Hc. exact (trim_right_blank (String c (show n)) u Hu).
Qed.

(** The time [getTimeDiff] compares with. *)
Definition reference_time (now : Z) (config : DiffConfig) : Z :=
  match fromTime config with
  | Some f => if truthyZ f then f else now
  | None => now
  end.

Lemma diff_one_unit now t config :
  only1unit config = true -> t <> 0 ->
  diff (getTimeDiff now (Some t) config) =
  Some (trim (one_unit (withSecs config)
    (split_time (Z.abs (to_millis t - reference_time now config))))).
Proof.
  intros Ho Ht. unfold getTimeDiff. rewrite Ho.
  assert (truthyZ t = true) as -> by (unfold truthyZ; by rewrite (proj2 (Z.eqb_neq t 0) Ht)).
  done.
Qed.

Definition units : list (Z * string) :=
  [(86400000, "d"); (3600000, "h"); (60000, "m")].

Lemma units_cases u label :
  (u, label) ∈ units -> u = 86400000 \/ u = 3600000 \/ u = 60000.
Proof. unfold units. rewrite !elem_of_cons, elem_of_nil. naive_solver. Qed.

(** The label of [n] or [n + 1] units of the length [u]. *)
Ltac label_case n u label :=
  rewrite trim_label by done;
  let solve_label m :=
    exists m, u, label; split; [set_solver|]; split; [lia|]; split;
    [intros u' label' Hu ?; apply units_cases in Hu; lia
    |first [left; split; [reflexivity|lia]|right; split; [reflexivity|lia]]] in
  first [solve_label n|solve_label constr:(n + 1)].

(** With [only1unit], a difference [delta] of at least one minute is
    labelled in the largest unit [u] it reaches, as [~n] when it lies in the
    first half after [n] units and as [<n] when it lies in the second half
    before [n] units. *)
Theorem one_unit_rounds now t config :
  only1unit config = true -> t <> 0 ->
  let delta := Z.abs (to_millis t - reference_time now config) in
  60000 <= delta ->
  exists n u label, (u, label) ∈ units /\ u <= delta /\
    (forall u' label', (u', label') ∈ units -> u < u' -> delta < u') /\
    ((diff (getTimeDiff now (Some t) config) = Some ("~" +:+ show n +:+ label) /\
      n * u <= delta /\ 2 * delta < (2 * n + 1) * u) \/
     (diff (getTimeDiff now (Some t) config) = Some ("<" +:+ show n +:+ label) /\
      (2 * n - 1) * u <= 2 * delta /\ delta < n * u)).
Proof.
  intros Ho Ht delta Hd. rewrite diff_one_unit by done. fold delta.
  destruct (split_time_spec delta ltac:(lia)) as (Hdy & Hh & Hm & Hs & Hsum).
  set (p := split_time delta) in *. unfold one_unit.
  destruct (Z.ltb_spec 0 (days p)); [|destruct (Z.ltb_spec 0 (hours p));
    [|destruct (Z.ltb_spec 0 (minutes p)); [|lia]]].
  - destruct (Z.leb_spec 12 (hours p)); label_case (days p) 86400000 "d".
  - destruct (Z.leb_spec 30 (minutes p)); label_case (hours p) 3600000 "h".
  - destruct (Z.leb_spec 30 (seconds p)); label_case (minutes p) 60000 "m".
Qed.

Lemma one_unit_rounds_witness :
  exists n u label, (u, label) ∈ units /\
    (diff (getTimeDiff 1700000000000 (Some 1700005400) (mkDiffConfig false true None)) =
       Some ("~" +:+ show n +:+ label) \/
     diff (getTimeDiff 1700000000000 (Some 1700005400) (mkDiffConfig false true None)) =
       Some ("<" +:+ show n +:+ label)).
Proof.
  destruct (one_unit_rounds 1700000000000 1700005400 (mkDiffConfig false true None) eq_refl)
    as (n & u & label & Hu & _ & _ & Hd); [lia|vm_compute; discriminate|].
  exists n, u, label. split; [exact Hu|]. destruct Hd as [[Hd _]|[Hd _]]; auto.
Defined.

End DateHelper.
