(* ===== verification/ScanState.v ===== *)
(** * The scan state

    [src/frontend/src/app/features/snarks/scan-state]: the mapping of the node's
    response to trees and working snarkers ([scan-state.service.ts]), the store
    ([scan-state.reducer.ts]), the effect that loads a block
    ([scan-state.effects.ts]) and the binary tree the chart is drawn from
    ([buildTree] of [scan-state-tree-chart.component.ts]). *)

From stdpp Require Import base list gmap strings.
From S2P Require Import Prelude SharedLib.

Module ScanState.

(** ** Data *)

Inductive LeafStatus := Empty | Pending | Done | Todo.

#[export] Instance LeafStatus_eq_dec : EqDecision LeafStatus.
Proof. solve_decision. Defined.

Record Snark := mkSnark {
  snarker : string; fee : string; received_t : option Z; sender : option string
}.

(** [ScanStateLeaf].  [job] is the kind of the job, [commitment] the key of the
    snarker that committed to it; a leaf the reducer makes from a missing one
    has no status. *)
Record Leaf := mkLeaf {
  status : option LeafStatus;
  job_id : option string;
  bundle_job_id : option string;
  job : option string;
  seq_no : option Z;
  commitment : option string;
  snark : option Snark;
  jobIndex : option nat;
  treeIndex : option nat;
  scrolling : option bool
}.

#[export] Instance Snark_eq_dec : EqDecision Snark.
Proof. solve_decision. Defined.
#[export] Instance Leaf_eq_dec : EqDecision Leaf.
Proof. solve_decision. Defined.

Record Tree := mkTree {
  leafs : list Leaf;
  availableJobs : nat;
  ongoing : nat;
  notIncludedSnarks : nat;
  completedSnarks : nat;
  empty : nat;
  coinbase : nat;
  payment : nat;
  zkApp : nat;
  feeTransfer : nat;
  merge : nat
}.

Record WorkingSnarker := mkSnarker {
  ws_hash : string;
  ws_name : string;
  ws_local : bool;
  ws_url : option string;
  ws_leafs : list Leaf;
  ws_error : option string
}.

(** The block part of the response. *)
Record BlockInfo := mkBlockInfo {
  bi_hash : string;
  bi_height : Z;
  bi_global_slot : Z
}.

(** [ScanStateBlock]; the payload of a failed load has only the two lists.  The
    transactions and completed works are passed on unread and are left out. *)
Record Block := mkBlock {
  info : option BlockInfo;
  workingSnarkers : list WorkingSnarker;
  trees : list Tree
}.

(** ** Service *)

Definition has_status (s : LeafStatus) (l : Leaf) : bool := bool_decide (status l = Some s).
Definition has_kind (k : string) (l : Leaf) : bool :=
  match job l with Some kind => String.eqb kind k | None => false end.
Definition is_working (l : Leaf) : bool := is_some (commitment l) && negb (is_some (snark l)).
Definition no_kind (l : Leaf) : bool :=
  match job l with Some k => negb (truthy_str k) | None => true end.

Definition with_indices (ti ji : nat) (l : Leaf) : Leaf :=
  {| status := status l; job_id := job_id l; bundle_job_id := bundle_job_id l; job := job l;
     seq_no := seq_no l; commitment := commitment l; snark := snark l;
     jobIndex := Some ji; treeIndex := Some ti; scrolling := scrolling l |}.

Definition mapTree (ti : nat) (tree : list Leaf) : Tree :=
  {| availableJobs := count_if (has_status Todo) tree;
     ongoing := count_if is_working tree;
     notIncludedSnarks := count_if (fun l => is_some (snark l) && has_status Pending l) tree;
     completedSnarks := count_if (fun l => is_some (snark l) && has_status Done l) tree;
     leafs := imap (fun ji l => with_indices ti ji l) tree;
     empty := count_if no_kind tree;
     coinbase := count_if (has_kind "Coinbase") tree;
     feeTransfer := count_if (has_kind "FeeTransfer") tree;
     payment := count_if (has_kind "Payment") tree;
     zkApp := count_if (has_kind "Zkapp") tree;
     merge := count_if (has_kind "Merge") tree |}.

Definition mapTrees (scan_state : list (list Leaf)) : list Tree :=
  imap mapTree (reverse scan_state).

Definition workingLeafs (ts : list Tree) : list Leaf :=
  flat_map (fun t => List.filter is_working (leafs t)) ts.

Definition reset_snarker (url : option string) (s : WorkingSnarker) : WorkingSnarker :=
  {| ws_hash := ws_hash s; ws_name := ws_name s; ws_local := bool_decide (ws_url s = url);
     ws_url := ws_url s; ws_leafs := []; ws_error := ws_error s |}.

Definition push_leaf (l : Leaf) (s : WorkingSnarker) : WorkingSnarker :=
  {| ws_hash := ws_hash s; ws_name := ws_name s; ws_local := ws_local s;
     ws_url := ws_url s; ws_leafs := ws_leafs s ++ [l]; ws_error := ws_error s |}.

(** [snarkers.find(...)?.leafs.push(leaf)]: the first snarker with the key. *)
Definition assign_leaf (ss : list WorkingSnarker) (l : Leaf) : list WorkingSnarker :=
  match commitment l with
  | Some k =>
    match findIndex (fun s => String.eqb (ws_hash s) k) ss with
    | Some i => alter (push_leaf l) i ss
    | None => ss
    end
  | None => ss
  end.

Record Response := mkResponse { scan_state : list (list Leaf); block_info : BlockInfo }.

(** [mapScanState]: the block and the snarkers the service keeps. *)
Definition mapScanState (url : option string) (snarkers : list WorkingSnarker)
    (response : option Response) : result (Block * list WorkingSnarker) :=
  match response with
  | None => Throw "Scan state not ready!"
  | Some r =>
    let ts := mapTrees (scan_state r) in
    let snarkers' := fold_left assign_leaf (workingLeafs ts) (reset_snarker url <$> snarkers) in
    Ok (mkBlock (Some (block_info r)) snarkers' ts, snarkers')
  end.

(** An error of the request for the configuration of a snarker. *)
Record ConfigError := mkConfigError { ce_message : string; ce_statusCode : option Z }.

(** One request of the [forkJoin]: [Ok None] is the answer of a node that is no
    snarker. *)
Definition fetchSnarker (url : option string) (n : MinaNode) (answer : option string + ConfigError)
    : option WorkingSnarker :=
  let make h e := {| ws_hash := h; ws_name := node_name n;
                     ws_local := bool_decide (node_url n = url);
                     ws_url := node_url n; ws_leafs := []; ws_error := e |} in
  match answer with
  | inl None => None
  | inl (Some public_key) => Some (make public_key None)
  | inr err =>
    let parsing := negb (string_includes "Http failure" (ce_message err)) &&
      match ce_statusCode err with Some c => (c <? 400)%Z | None => false end in
    Some (make "" (Some (if parsing then "Frontend parsing error" else ce_message err)))
  end.

(** [getScanState]: [cached] is the field [snarkers] of the service, [answers]
    the configurations of the nodes, used only when nothing is cached. *)
Definition getScanState (url : option string) (cached : option (list WorkingSnarker))
    (answers : list (MinaNode * (option string + ConfigError))) (response : option Response)
    : result (Block * list WorkingSnarker) :=
  let snarkers := match cached with
                  | Some ss => ss
                  | None => omap (fun na => fetchSnarker url na.1 na.2) answers
                  end in
  mapScanState url snarkers response.

(** ** Store *)

Record State := mkState {
  block : option Block;
  activeJobId : option string;
  activeLeaf : option Leaf;
  openSidePanel : bool;
  sideBarResized : Z;
  stream : bool;
  treeView : bool;
  highlightSnarkPool : bool
}.

(** A height or a hash. *)
Definition HeightOrHash : Type := Z + string.

Inductive Action :=
| Init
| InitSuccess
| Close
| GetBlock (heightOrHash : option HeightOrHash)
| GetBlockSuccess (payload : Block)
| SetActiveJobId (payload : option string)
| SetActiveLeaf (payload : option Leaf)
| ToggleSidePanel
| SidebarResized
| Start
| Pause
| ToggleTreeView
| HighlightSnarkPool.

(** [isDesktop] and the stored tree view are read when the module loads. *)
Definition initialState (isDesktop stored_tree_view : bool) : State :=
  {| block := None; activeJobId := None; activeLeaf := None; openSidePanel := isDesktop;
     sideBarResized := 0; stream := true; treeView := stored_tree_view;
     highlightSnarkPool := true |}.

(** [{ ...leaf, scrolling }], the leaf being possibly [undefined]. *)
Definition with_scrolling (l : option Leaf) (b : bool) : Leaf :=
  match l with
  | Some l =>
    {| status := status l; job_id := job_id l; bundle_job_id := bundle_job_id l; job := job l;
       seq_no := seq_no l; commitment := commitment l; snark := snark l;
       jobIndex := jobIndex l; treeIndex := treeIndex l; scrolling := Some b |}
  | None =>
    {| status := None; job_id := None; bundle_job_id := None; job := None; seq_no := None;
       commitment := None; snark := None; jobIndex := None; treeIndex := None;
       scrolling := Some b |}
  end.

(** The first leaf of the trees with the job id. *)
Definition leaf_of_job (ts : list Tree) (id : string) : option Leaf :=
  head (fold_left (fun acc t =>
    acc ++ List.filter (fun l => bool_decide (bundle_job_id l = Some id)) (leafs t)) ts []).

Definition reducer (desktop stored : bool) (state : State) (action : Action) : State :=
  match action with
  | GetBlockSuccess payload =>
    {| block := Some payload; activeJobId := activeJobId state;
       activeLeaf := match activeJobId state with
                     | Some id =>
                       if truthy_str id
                       then Some (with_scrolling (leaf_of_job (trees payload) id)
                                    (negb (is_some (activeLeaf state))))
                       else None
                     | None => None
                     end;
       openSidePanel := openSidePanel state; sideBarResized := sideBarResized state;
       stream := stream state; treeView := treeView state;
       highlightSnarkPool := highlightSnarkPool state |}
  | SetActiveJobId payload =>
    {| block := block state; activeJobId := payload; activeLeaf := activeLeaf state;
       openSidePanel := openSidePanel state; sideBarResized := sideBarResized state;
       stream := false; treeView := treeView state;
       highlightSnarkPool := highlightSnarkPool state |}
  | ToggleSidePanel =>
    {| block := block state; activeJobId := None; activeLeaf := None;
       openSidePanel := negb (openSidePanel state); sideBarResized := sideBarResized state;
       stream := stream state; treeView := treeView state;
       highlightSnarkPool := highlightSnarkPool state |}
  | SetActiveLeaf payload =>
    {| block := block state;
       activeJobId := match payload with Some l => bundle_job_id l | None => None end;
       activeLeaf := payload;
       openSidePanel := if is_some payload then true else openSidePanel state;
       sideBarResized := sideBarResized state;
       stream := if is_some payload then false else stream state; treeView := treeView state;
       highlightSnarkPool := highlightSnarkPool state |}
  | SidebarResized =>
    {| block := block state; activeJobId := activeJobId state; activeLeaf := activeLeaf state;
       openSidePanel := openSidePanel state; sideBarResized := (sideBarResized state + 1)%Z;
       stream := stream state; treeView := treeView state;
       highlightSnarkPool := highlightSnarkPool state |}
  | Start | Pause =>
    {| block := block state; activeJobId := activeJobId state; activeLeaf := activeLeaf state;
       openSidePanel := openSidePanel state; sideBarResized := sideBarResized state;
       stream := match action with Start => true | _ => false end; treeView := treeView state;
       highlightSnarkPool := highlightSnarkPool state |}
  | ToggleTreeView =>
    {| block := block state; activeJobId := activeJobId state; activeLeaf := activeLeaf state;
       openSidePanel := openSidePanel state; sideBarResized := sideBarResized state;
       stream := stream state; treeView := negb (treeView state);
       highlightSnarkPool := highlightSnarkPool state |}
  | HighlightSnarkPool =>
    {| block := block state; activeJobId := activeJobId state; activeLeaf := activeLeaf state;
       openSidePanel := openSidePanel state; sideBarResized := sideBarResized state;
       stream := stream state; treeView := treeView state;
       highlightSnarkPool := negb (highlightSnarkPool state) |}
  | Close => initialState desktop stored
  | Init | InitSuccess | GetBlock _ => state
  end.

(** ** Effect *)

(** The field [inProgressGettingHeight], and the request [switchMap] is
    subscribed to. *)
Record EffectState := mkEffect {
  inProgressGettingHeight : js HeightOrHash;
  inFlight : option (option HeightOrHash)
}.

Definition initialEffect : EffectState := mkEffect Null None.

(** What [getScanState$] sees: an action of the store, or the outcome of the
    request in flight. *)
Inductive Event :=
| OnAction (a : Action)
| OnOutcome (o : outcome Block).

Inductive Output :=
| Put (a : dispatched Action)
| Navigate (height : Z).

Definition failedBlock : Block := mkBlock None [] [].

(** [stream] is the slice's flag, [url] the router's address, [now] the time of
    an error. *)
Definition getScanState_effect (stream : bool) (url now : string)
    (e : EffectState) (ev : Event) : EffectState * list Output :=
  match ev with
  | OnAction (GetBlock h) =>
    if bool_decide (to_js h = inProgressGettingHeight e) then (e, [])
    else (mkEffect (to_js h) (Some h), if stream then [] else [Put (Dispatch Init)])
  | OnAction Close => (mkEffect Null None, [])
  | OnAction _ => (e, [])
  | OnOutcome o =>
    match inFlight e with
    | None => (e, [])
    | Some _ =>
      (mkEffect Null None,
       match o with
       | Next b =>
         match info b with
         | Some bi =>
           if negb (string_includes (show (bi_height bi)) url) &&
              negb (string_includes (bi_hash bi) url)
           then [Navigate (bi_height bi)] else []
         | None => []
         end
       | Failed _ => []
       end ++
       (Put <$> catchErrorAndRepeat now GENERIC (GetBlockSuccess failedBlock)
          match o with
          | Next b => Next (GetBlockSuccess b)
          | Failed err => Failed err
          end))
    end
  end.

(** ** The tree of the chart *)

(** [SSTree] objects are mutated after they are linked, so they live in a store:
    a reference is a position in a list of nodes. *)
Record SSTree := mkSSTree {
  t_leaf : option Leaf;
  t_children : list nat;
  t_size : option Z
}.

Definition new_node (l : option Leaf) : SSTree := mkSSTree l [] None.

Definition push_child (c : nat) (n : SSTree) : SSTree :=
  mkSSTree (t_leaf n) (t_children n ++ [c]) (t_size n).

Definition set_size (n : SSTree) : SSTree := mkSSTree (t_leaf n) (t_children n) (Some 1%Z).

(** One of the two [if (childIndex < leafs.length)] blocks. *)
Definition add_child (ls : list Leaf) (current child : nat)
    (st : list SSTree * list (nat * nat)) : list SSTree * list (nat * nat) :=
  let '(store, stack) := st in
  if child <? length ls
  then (alter (push_child (length store)) current store ++ [new_node (ls !! child)],
        (length store, child) :: stack)
  else (store, stack).

(** The body of the loop on the popped pair; the head of the list is the top of
    the stack. *)
Definition build_step (ls : list Leaf) (current index : nat)
    (store : list SSTree) (stack : list (nat * nat)) : list SSTree * list (nat * nat) :=
  let leftChildIndex := 2 * index + 1 in
  let rightChildIndex := 2 * index + 2 in
  let '(store, stack) :=
    add_child ls current rightChildIndex (add_child ls current leftChildIndex (store, stack)) in
  (if (length ls <=? leftChildIndex) && (length ls <=? rightChildIndex)
   then alter set_size current store else store, stack).

Fixpoint build_loop (fuel : nat) (ls : list Leaf)
    (store : list SSTree) (stack : list (nat * nat)) : option (list SSTree) :=
  match stack with
  | [] => Some store
  | (current, index) :: stack' =>
    match fuel with
    | 0 => None
    | S fuel' =>
      let '(store', stack'') := build_step ls current index store stack' in
      build_loop fuel' ls store' stack''
    end
  end.

(** The root has the reference [0].  One turn per leaf is enough. *)
Definition buildTree (ls : list Leaf) : option (list SSTree) :=
  build_loop (S (length ls)) ls [new_node (ls !! 0)] [(0, 0)].

Definition rectsFill (l : option Leaf) (highlight : bool) : string :=
  match l with
  | None => "var(--base-container)"
  | Some l =>
    if bool_decide (status l = Some Done) then "var(--special-selected-alt-2-tertiary)"
    else if bool_decide (status l = Some Todo) then "var(--base-tertiary)"
    else if bool_decide (status l = Some Pending) then
      if highlight then "var(--aware-tertiary)" else "var(--base-tertiary)"
    else "var(--base-container)"
  end.

Definition getColorByStatus (s : option LeafStatus) (highlight : bool) : string :=
  if bool_decide (s = Some Done) then "var(--special-selected-alt-2-primary)"
  else if bool_decide (s = Some Todo) then "var(--base-primary)"
  else if bool_decide (s = Some Pending) then
    if highlight then "var(--aware-primary)" else "var(--base-primary)"
  else "var(--base-tertiary)".

Definition getClassByKind (kind : option string) : string :=
  if bool_decide (kind = Some "Coinbase") then "code-teal"
  else if bool_decide (kind = Some "FeeTransfer") then "code-purple"
  else if bool_decide (kind = Some "Zkapp") then "code-magenta"
  else if bool_decide (kind = Some "Payment") then "primary"
  else "tertiary".

Definition hasPulseEffect (highlightSnarks : bool) (l : Leaf) : bool :=
  highlightSnarks && has_status Pending l && negb (is_some (snark l)).

(** ** The tree is the heap of the leafs *)

Section BuildTree.
Context (ls : list Leaf).

(** The number of nodes: an empty list still has a root. *)
Definition size' : nat := Nat.max 1 (length ls).

(** The indices of the children of the node for the leaf [i]. *)
Definition child_indices (i : nat) : list nat :=
  List.filter (fun j => j <? length ls) [2 * i + 1; 2 * i + 2].

Definition refs_for (g : list nat) (refs indices : list nat) : Prop :=
  Forall2 (fun r i => g !! r = Some i) refs indices.

Definition finish (i : nat) (refs : list nat) (n : SSTree) : SSTree :=
  mkSSTree (t_leaf n) (t_children n ++ refs)
    (if length ls <=? 2 * i + 1 then Some 1%Z else t_size n).

(** A turn of the loop allocates the children, links and stacks them. *)
Lemma build_step_eq cur i store stack :
  cur < length store ->
  let js := child_indices i in
  let refs := seq (length store) (length js) in
  build_step ls cur i store stack =
  (alter (finish i refs) cur store ++ ((fun j => new_node (ls !! j)) <$> js),
   reverse (zip refs js) ++ stack).
Proof.
  intros Hc. unfold build_step, add_child, child_indices, finish.
  remember (2 * i + 1) as a eqn:Ha. remember (2 * i + 2) as b eqn:Hb. cbn [List.filter].
  destruct (Nat.ltb_spec a (length ls)) as [Hl|Hl];
    destruct (Nat.ltb_spec b (length ls)) as [Hr|Hr]; try lia.
  - rewrite (proj2 (Nat.leb_gt (length ls) a)) by lia. cbn.
    rewrite alter_app_l by (by rewrite length_alter).
    rewrite list_alter_alter_eq, length_app, length_alter, <- app_assoc, Nat.add_1_r. cbn.
    f_equal. f_equal. apply list_alter_ext; [|done]. intros n _. unfold push_child. cbn.
    by rewrite <- app_assoc.
  - rewrite (proj2 (Nat.leb_gt (length ls) a)) by lia. done.
  - rewrite (proj2 (Nat.leb_le (length ls) a)), (proj2 (Nat.leb_le (length ls) b)) by lia. cbn.
    rewrite app_nil_r. f_equal. apply list_alter_ext; [|done]. intros n _.
    unfold set_size. by rewrite app_nil_r.
Qed.

Lemma elem_of_child_indices i j :
  j ∈ child_indices i <-> j < length ls /\ (j = 2 * i + 1 \/ j = 2 * i + 2).
Proof.
  unfold child_indices. rewrite elem_of_lfilter, Nat.ltb_lt, !elem_of_cons, elem_of_nil.
  tauto.
Qed.

Lemma NoDup_child_indices i : NoDup (child_indices i).
Proof.
  apply NoDup_lfilter. apply NoDup_cons; split; [|apply NoDup_singleton].
  rewrite list_elem_of_singleton. lia.
Qed.

(** Positions of the ghost list [g] are references, its values leaf indices. *)
Record built (store : list SSTree) (stack : list (nat * nat)) (g : list nat) : Prop := {
  built_length : length g = length store;
  built_nodup : NoDup g;
  built_root : g !! 0 = Some 0;
  built_stack_nodup : NoDup stack.*1;
  built_stack : forall r i, (r, i) ∈ stack ->
    g !! r = Some i /\ store !! r = Some (new_node (ls !! i));
  built_done : forall r i, g !! r = Some i -> r ∉ stack.*1 ->
    exists n, store !! r = Some n /\ t_leaf n = ls !! i /\
      refs_for g (t_children n) (child_indices i) /\
      t_size n = if length ls <=? 2 * i + 1 then Some 1%Z else None;
  built_parent : forall i, i ∈ g -> i = 0 \/
    exists p r, i ∈ child_indices p /\ g !! r = Some p /\ r ∉ stack.*1
}.

Lemma refs_for_app g js refs indices :
  refs_for g refs indices -> refs_for (g ++ js) refs indices.
Proof. intros H. eapply Forall2_impl; [exact H|]. intros r i Hr. by apply lookup_app_l_Some. Qed.

Lemma refs_for_new g js : refs_for (g ++ js) (seq (length g) (length js)) js.
Proof.
  apply Forall2_same_length_lookup. split; [by rewrite length_seq|].
  intros m r j Hr Hj. apply lookup_seq in Hr as [-> _].
  rewrite lookup_app_r by lia. by replace (length g + m - length g) with m by lia.
Qed.

Lemma stack_refs L js (stack : list (nat * nat)) :
  (reverse (zip (seq L (length js)) js) ++ stack).*1 = reverse (seq L (length js)) ++ stack.*1.
Proof.
  rewrite fmap_app, fmap_reverse, fst_zip; [done|]. by rewrite length_seq.
Qed.

Lemma built_fresh_children store cur i stack g :
  built store ((cur, i) :: stack) g -> NoDup (g ++ child_indices i).
Proof.
  intros Hb. apply NoDup_app. split; [apply Hb|]. split; [|apply NoDup_child_indices].
  intros j Hj Hji. pose proof Hji as Hji'. apply elem_of_child_indices in Hji as [_ Hji].
  destruct (built_parent _ _ _ Hb j Hj) as [->|(p & r & Hp & Hr & Hn)]; [lia|].
  apply elem_of_child_indices in Hp as [_ Hp]. assert (p = i) as -> by lia.
  apply Hn. destruct (built_stack _ _ _ Hb cur i) as [Hcur _]; [by left|].
  rewrite (NoDup_lookup g r cur i (built_nodup _ _ _ Hb) Hr Hcur). by left.
Qed.

Lemma built_step store cur i stack g :
  built store ((cur, i) :: stack) g ->
  let '(store', stack') := build_step ls cur i store stack in
  built store' stack' (g ++ child_indices i).
Proof.
  intros Hb. pose proof (built_fresh_children _ _ _ _ _ Hb) as Hnd.
  destruct Hb as [Hlen _ Hroot Hsn Hst Hdone Hpar].
  destruct (Hst cur i) as [Hgc Hsc]; [by left|].
  pose proof (lookup_lt_Some _ _ _ Hsc) as Hc.
  rewrite build_step_eq by done. cbn zeta beta. set (js := child_indices i) in *.
  rewrite <- Hlen. apply NoDup_cons in Hsn as [Hcs Hsn].
  assert (Hlt : forall r, r ∈ stack.*1 -> r < length g).
  { intros r ([r' j] & -> & Hr)%list_elem_of_fmap. destruct (Hst r' j) as [Hg _]; [by right|].
    by apply lookup_lt_Some in Hg. }
  assert (Hold : forall r, r < length g -> r ∉ stack.*1 ->
    r ∉ reverse (seq (length g) (length js)) ++ stack.*1).
  { intros r Hr Hn [Hr'|Hr']%elem_of_app; [|done].
    rewrite elem_of_reverse, elem_of_seq in Hr'. lia. }
  split.
  - rewrite !length_app, length_alter, length_fmap. lia.
  - done.
  - by apply lookup_app_l_Some.
  - rewrite stack_refs. apply NoDup_app. split; [rewrite reverse_Permutation; apply NoDup_seq|]. split; [|done].
    intros r Hr Hr'%Hlt. rewrite elem_of_reverse, elem_of_seq in Hr. lia.
  - intros r j [Hr|Hr]%elem_of_app.
    + rewrite elem_of_reverse in Hr. apply list_elem_of_lookup in Hr as [m Hm].
      apply lookup_zip_with_Some in Hm as (r' & j' & [= -> ->] & Hr & Hj).
      apply lookup_seq in Hr as [-> _].
      rewrite !lookup_app_r by (rewrite ?length_alter; lia).
      rewrite length_alter, <- Hlen. replace (length g + m - length g) with m by lia.
      by rewrite list_lookup_fmap, Hj.
    + destruct (Hst r j) as [Hg Hs]; [by right|]. split; [by apply lookup_app_l_Some|].
      apply lookup_app_l_Some. rewrite list_lookup_alter_ne; [done|]. intros <-.
      apply Hcs. apply list_elem_of_fmap. by exists (cur, j).
  - rewrite stack_refs. intros r j Hr Hn. rewrite elem_of_app, elem_of_reverse, elem_of_seq in Hn.
    pose proof (lookup_lt_Some _ _ _ Hr) as Hrl. rewrite length_app in Hrl.
    assert (Hrg : r < length g) by (destruct (decide (r < length g)); [done|exfalso; apply Hn; lia]).
    rewrite lookup_app_l in Hr by done.
    destruct (decide (r = cur)) as [->|Hne].
    + simplify_eq. eexists. split; [apply lookup_app_l_Some; by rewrite list_lookup_alter_eq, Hsc|].
      cbn. split; [done|]. split; [apply refs_for_new|]. by destruct (_ <=? _).
    + destruct (Hdone r j Hr) as (n & Hnn & Hl & Hrf & Hsz).
      { intros [->|Hr']%elem_of_cons; [done|]. apply Hn. by right. }
      exists n. split; [apply lookup_app_l_Some; by rewrite list_lookup_alter_ne|].
      split; [done|]. split; [by apply refs_for_app|done].
  - rewrite stack_refs. intros j [Hj|Hj]%elem_of_app.
    + destruct (Hpar j Hj) as [->|(q & r & Hq & Hr & Hn)]; [by left|]. right.
      exists q, r. split; [done|]. split; [by apply lookup_app_l_Some|].
      apply Hold; [by eapply lookup_lt_Some|]. intros Hr'. apply Hn. by right.
    + right. exists i, cur. split; [done|]. split; [by apply lookup_app_l_Some|].
      apply Hold; [lia|done].
Qed.

Lemma built_bound store stack g i : built store stack g -> i ∈ g -> i < size'.
Proof.
  intros Hb Hi. unfold size'. destruct (built_parent _ _ _ Hb i Hi) as [->|(p & r & Hp & _)]; [lia|].
  apply elem_of_child_indices in Hp. lia.
Qed.

Lemma built_length_le store stack g : built store stack g -> length g <= size'.
Proof.
  intros Hb. rewrite <- (length_seq size' 0). apply submseteq_length, NoDup_submseteq; [apply Hb|].
  intros i Hi. apply elem_of_seq. pose proof (built_bound _ _ _ _ Hb Hi). lia.
Qed.

Lemma built_init : built [new_node (ls !! 0)] [(0, 0)] [0].
Proof.
  split; [done|apply NoDup_singleton|done|apply NoDup_singleton| | |].
  - intros r i [= -> ->]%list_elem_of_singleton. done.
  - intros r i Hr Hn. apply list_lookup_singleton_Some in Hr as [-> _].
    exfalso. apply Hn. by left.
  - intros i ->%list_elem_of_singleton. by left.
Qed.

Lemma build_loop_built fuel store stack g :
  built store stack g -> size' + length stack <= length g + fuel ->
  exists store' g', build_loop fuel ls store stack = Some store' /\ built store' [] g'.
Proof.
  revert store stack g. induction fuel as [|fuel IH]; intros store [|[cur i] stack] g Hb Hf;
    cbn [build_loop]; [eauto| |eauto|].
  - pose proof (built_length_le _ _ _ Hb). simpl in Hf. lia.
  - pose proof (built_step _ _ _ _ _ Hb) as Hs.
    destruct (build_step ls cur i store stack) as [store' stack'] eqn:E.
    apply (IH _ _ _ Hs). destruct (built_stack _ _ _ Hb cur i) as [_ Hc]; [by left|].
    rewrite build_step_eq in E by (by apply lookup_lt_Some in Hc).
    injection E as _ <-. rewrite !length_app, length_reverse, length_zip_with, length_seq.
    simpl in Hf. lia.
Qed.

Lemma built_closed store g i : built store [] g -> i < size' -> i ∈ g.
Proof.
  intros Hb. induction i as [i IH] using lt_wf_ind. intros Hi.
  destruct (decide (i = 0)) as [->|Hne].
  { eapply list_elem_of_lookup_2, Hb. }
  unfold size' in Hi. set (p := (i - 1) / 2).
  pose proof (Nat.div_mod (i - 1) 2 ltac:(lia)). pose proof (Nat.mod_upper_bound (i - 1) 2 ltac:(lia)).
  assert (Hp : p ∈ g) by (apply IH; unfold size', p; lia).
  apply list_elem_of_lookup in Hp as [r Hr].
  destruct (built_done _ _ _ Hb r p Hr) as (n & _ & _ & Hrf & _); [apply not_elem_of_nil|].
  assert (Hc : i ∈ child_indices p) by (apply elem_of_child_indices; fold p in H; lia).
  apply list_elem_of_lookup in Hc as [m Hm].
  destruct (Forall2_lookup_r _ _ _ _ _ Hrf Hm) as (c & _ & Hc).
  by eapply list_elem_of_lookup_2.
Qed.

Lemma built_size store g : built store [] g -> length store = size'.
Proof.
  intros Hb. rewrite <- (built_length _ _ _ Hb). apply Nat.le_antisymm; [by eapply built_length_le|].
  rewrite <- (length_seq size' 0) at 1. apply submseteq_length, NoDup_submseteq; [apply NoDup_seq|].
  intros i Hi%elem_of_seq. eapply built_closed; [done|lia].
Qed.

End BuildTree.

(** The breadth-first order, in which [d3] lists the descendants of a node. *)
Fixpoint bfs_walk (fuel : nat) (store : list SSTree) (queue : list nat) : list (option Leaf) :=
  match fuel, queue with
  | S fuel', r :: queue' =>
    match store !! r with
    | Some n => t_leaf n :: bfs_walk fuel' store (queue' ++ t_children n)
    | None => []
    end
  | _, _ => []
  end.

Definition descendants (store : list SSTree) : list (option Leaf) :=
  bfs_walk (length store) store [0].

Lemma seq_children ls i :
  i < size' ls ->
  seq (S i) (Nat.min (2 * i + 1) (size' ls) - S i) ++ child_indices ls i =
  seq (S i) (Nat.min (2 * S i + 1) (size' ls) - S i).
Proof.
  intros Hi. unfold child_indices, size' in *. cbn [List.filter].
  destruct (Nat.ltb_spec (2 * i + 1) (length ls)) as [Hl|Hl];
    destruct (Nat.ltb_spec (2 * i + 2) (length ls)) as [Hr|Hr]; try lia.
  - replace (Nat.min (2 * S i + 1) _ - S i) with (i + 2) by lia.
    replace (Nat.min (2 * i + 1) _ - S i) with i by lia.
    rewrite seq_app. f_equal. simpl. f_equal; [lia|]. f_equal. lia.
  - replace (Nat.min (2 * S i + 1) _ - S i) with (i + 1) by lia.
    replace (Nat.min (2 * i + 1) _ - S i) with i by lia.
    rewrite seq_app. f_equal. simpl. f_equal. lia.
  - rewrite app_nil_r. f_equal. lia.
Qed.

Lemma bfs_walk_built ls store g k i queue :
  built ls store [] g -> size' ls = i + k ->
  refs_for g queue (seq i (Nat.min (2 * i + 1) (size' ls) - i)) ->
  bfs_walk k store queue = (fun j => ls !! j) <$> seq i k.
Proof.
  intros Hb. revert i queue. induction k as [|k IH]; intros i queue Hk Hq; [done|].
  replace (Nat.min (2 * i + 1) (size' ls) - i) with (S (Nat.min (2 * i + 1) (size' ls) - S i)) in Hq by lia.
  cbn [seq] in Hq. apply Forall2_cons_inv_r in Hq as (r & queue' & Hr & Hq & ->).
  destruct (built_done _ _ _ _ Hb r i Hr) as (n & Hn & Hl & Hrf & _); [apply not_elem_of_nil|].
  cbn [bfs_walk seq]. rewrite Hn, Hl. rewrite fmap_cons. f_equal. apply IH; [lia|].
  unfold refs_for. rewrite <- seq_children by lia. by apply Forall2_app.
Qed.

(** C5: [buildTree] terminates on every list of leafs; the tree it links has
    one node per leaf, in breadth-first order the nodes carry the leafs in
    their order (so the [jobIndex] of a leaf is the position of its cell), and
    exactly the nodes without children have the size [1]. *)
Theorem buildTree_descendants ls :
  exists store, buildTree ls = Some store /\
    descendants store = match ls with [] => [None] | _ => Some <$> ls end /\
    forall r n, store !! r = Some n -> t_size n = Some 1%Z <-> t_children n = [].
Proof.
  destruct (build_loop_built ls (S (length ls)) _ _ _ (built_init ls)) as (store & g & Hs & Hb).
  { unfold size'. simpl. lia. }
  exists store. split; [exact Hs|]. split.
  - unfold descendants. rewrite (built_size _ _ _ Hb).
    rewrite (bfs_walk_built ls store g _ 0 [0] Hb eq_refl).
    + unfold size'. destruct ls as [|l ls']; [done|]. rewrite Nat.max_r by (simpl; lia).
      apply list_eq. intros j. rewrite !list_lookup_fmap.
      destruct (decide (j < length (l :: ls'))) as [Hj|Hj].
      * rewrite lookup_seq_lt by done. simpl.
        by destruct (lookup_lt_is_Some_2 (l :: ls') j Hj) as [x ->].
      * rewrite lookup_seq_ge by lia. by rewrite lookup_ge_None_2 by lia.
    + unfold size'. replace (Nat.min _ _ - 0) with 1 by lia. repeat constructor. apply Hb.
  - intros r n Hr. pose proof (lookup_lt_Some _ _ _ Hr) as Hlt.
    rewrite <- (built_length _ _ _ _ Hb) in Hlt.
    destruct (lookup_lt_is_Some_2 _ _ Hlt) as [i Hi].
    destruct (built_done _ _ _ _ Hb r i Hi) as (n' & Hn & _ & Hrf & Hsz); [apply not_elem_of_nil|].
    rewrite Hr in Hn. injection Hn as <-. rewrite Hsz. unfold child_indices in Hrf. cbn [List.filter] in Hrf.
    destruct (Nat.leb_spec (length ls) (2 * i + 1)) as [Hle|Hle].
    + rewrite (proj2 (Nat.ltb_ge (2 * i + 1) _)), (proj2 (Nat.ltb_ge (2 * i + 2) _)) in Hrf by lia.
      apply Forall2_nil_inv_r in Hrf. done.
    + rewrite (proj2 (Nat.ltb_lt (2 * i + 1) _)) in Hrf by lia. split; [done|].
      intros Hnil. rewrite Hnil in Hrf. inv Hrf.
Qed.

(** ** The mapped response *)

(** The position of the snarker a committed leaf is given to. *)
Definition owner (ss : list WorkingSnarker) (l : Leaf) : option nat :=
  match commitment l with
  | Some k => findIndex (fun s => String.eqb (ws_hash s) k) ss
  | None => None
  end.

Lemma owner_hashes ss ss' l : ws_hash <$> ss = ws_hash <$> ss' -> owner ss l = owner ss' l.
Proof.
  intros H. unfold owner. destruct (commitment l) as [k|]; [|done].
  by rewrite <- !(findIndex_fmap ws_hash (fun h => String.eqb h k)), H.
Qed.

Lemma assign_leaf_hashes ss l : ws_hash <$> assign_leaf ss l = ws_hash <$> ss.
Proof.
  unfold assign_leaf. destruct (commitment l); [|done]. destruct (findIndex _ ss) as [i|]; [|done].
  apply list_eq. intros j. rewrite !list_lookup_fmap. destruct (decide (i = j)) as [->|].
  - rewrite list_lookup_alter_eq. by destruct (ss !! j).
  - by rewrite list_lookup_alter_ne.
Qed.

Lemma assign_leaf_lookup ss l k s :
  ss !! k = Some s ->
  assign_leaf ss l !! k = Some (if bool_decide (owner ss l = Some k) then push_leaf l s else s).
Proof.
  intros Hk. unfold assign_leaf, owner. destruct (commitment l) as [c|]; [|done].
  destruct (findIndex _ ss) as [i|] eqn:E; [|done].
  destruct (decide (i = k)) as [->|Hne].
  - by rewrite list_lookup_alter_eq, Hk, bool_decide_true.
  - rewrite list_lookup_alter_ne, bool_decide_false by congruence. done.
Qed.

Lemma assign_leafs ls ss k s :
  ss !! k = Some s ->
  exists s', fold_left assign_leaf ls ss !! k = Some s' /\ ws_hash s' = ws_hash s /\
    ws_leafs s' = ws_leafs s ++ List.filter (fun l => bool_decide (owner ss l = Some k)) ls.
Proof.
  revert ss s. induction ls as [|l ls IH]; intros ss s Hk; simpl.
  { exists s. by rewrite app_nil_r. }
  destruct (IH _ _ (assign_leaf_lookup ss l k s Hk)) as (s' & Hs & Hh & Hl).
  exists s'. split; [done|].
  rewrite (lfilter_ext _ (fun l => bool_decide (owner ss l = Some k))) in Hl
    by (intros x _; by rewrite (owner_hashes _ _ _ (assign_leaf_hashes ss l))).
  destruct (bool_decide (owner ss l = Some k)); [|done].
  split; [done|]. rewrite Hl. simpl. by rewrite <- app_assoc.
Qed.

Definition known_kind (l : Leaf) : bool :=
  no_kind l || has_kind "Coinbase" l || has_kind "FeeTransfer" l || has_kind "Payment" l ||
  has_kind "Zkapp" l || has_kind "Merge" l.

Lemma kind_counts ti tree :
  let t := mapTree ti tree in
  empty t + coinbase t + feeTransfer t + payment t + zkApp t + merge t =
  count_if known_kind tree.
Proof.
  cbn. induction tree as [|l tree IH]; [done|]. rewrite !count_if_cons, <- IH.
  generalize (count_if no_kind tree), (count_if (has_kind "Coinbase") tree),
    (count_if (has_kind "FeeTransfer") tree), (count_if (has_kind "Payment") tree),
    (count_if (has_kind "Zkapp") tree), (count_if (has_kind "Merge") tree).
  intros. unfold known_kind, no_kind, has_kind.
  destruct (job l) as [k|]; [|simpl; lia].
  destruct (String.eqb_spec k "Coinbase") as [->|]; [simpl; lia|].
  destruct (String.eqb_spec k "FeeTransfer") as [->|]; [simpl; lia|].
  destruct (String.eqb_spec k "Payment") as [->|]; [simpl; lia|].
  destruct (String.eqb_spec k "Zkapp") as [->|]; [simpl; lia|].
  destruct (String.eqb_spec k "Merge") as [->|]; [simpl; lia|].
  destruct (truthy_str k); simpl; lia.
Qed.

(** In a mapped block every leaf carries its own address (the number of its
    tree in the reversed response and its number in the tree), the per-kind
    counts of a tree add up to its leafs of known kinds, and every snarker has,
    in order, exactly the working leafs committed to by its key, the first
    snarker with a key taking them all. *)
Theorem mapScanState_consistent url snarkers r b ss :
  mapScanState url snarkers (Some r) = Ok (b, ss) ->
  (forall i t j l, trees b !! i = Some t -> leafs t !! j = Some l ->
     treeIndex l = Some i /\ jobIndex l = Some j) /\
  (forall i t, trees b !! i = Some t -> exists tree, reverse (scan_state r) !! i = Some tree /\
     empty t + coinbase t + feeTransfer t + payment t + zkApp t + merge t =
     count_if known_kind tree) /\
  (forall k s, snarkers !! k = Some s ->
     exists s', workingSnarkers b !! k = Some s' /\ ws_hash s' = ws_hash s /\
       ws_leafs s' = List.filter (fun l => bool_decide (owner snarkers l = Some k))
                       (workingLeafs (trees b))).
Proof.
  simpl. intros [= <- _]. cbn [trees workingSnarkers]. unfold mapTrees. split; [|split].
  - intros i t j l Ht Hl. rewrite list_lookup_imap in Ht.
    apply fmap_Some in Ht as (tree & _ & ->). cbn in Hl. rewrite list_lookup_imap in Hl.
    by apply fmap_Some in Hl as (l' & _ & ->).
  - intros i t Ht. rewrite list_lookup_imap in Ht. apply fmap_Some in Ht as (tree & Htr & ->).
    exists tree. split; [done|apply kind_counts].
  - intros k s Hk.
    destruct (assign_leafs (workingLeafs (imap mapTree (reverse (scan_state r))))
      (reset_snarker url <$> snarkers) k (reset_snarker url s)) as (s' & Hs & Hh & Hl).
    { by rewrite list_lookup_fmap, Hk. }
    exists s'. split; [done|]. split; [done|]. rewrite Hl. cbn. apply lfilter_ext.
    intros l _. erewrite owner_hashes; [done|]. by rewrite <- list_fmap_compose.
Qed.

(** ** One request at a time *)

Inductive effect_step : EffectState -> EffectState -> Prop :=
| effect_event stream url now e ev :
    effect_step e (getScanState_effect stream url now e ev).1.

(** The remembered height is that of the request in flight, and [null] when
    there is none. *)
Definition in_step (e : EffectState) : Prop :=
  inProgressGettingHeight e = match inFlight e with Some h => to_js h | None => Null end.

Lemma effect_in_step e e' : effect_step e e' -> in_step e -> in_step e'.
Proof.
  intros [stream url now e1 ev] He. unfold in_step in *.
  destruct ev as [a|o]; [|cbn; destruct (inFlight e1) eqn:E; cbn; [done|by rewrite E]].
  destruct a; try done. cbn. by case_bool_decide.
Qed.

Lemma to_js_inj {A} (x y : option A) : to_js x = to_js y -> x = y.
Proof. destruct x, y; simpl; congruence. Qed.

(** In every reachable state of the effect, a block that is being loaded
    is not requested again, any other block is requested at once in place of
    the one in flight, and the outcome of a load frees the effect for the same
    block again. *)
Theorem scan_state_loads e stream url now h :
  rtc effect_step initialEffect e ->
  getScanState_effect stream url now e (OnAction (GetBlock h)) =
  (if bool_decide (inFlight e = Some h) then (e, [])
   else (mkEffect (to_js h) (Some h), if stream then [] else [Put (Dispatch Init)])) /\
  forall o, inFlight e = Some h ->
    (getScanState_effect stream url now e (OnOutcome o)).1 = initialEffect.
Proof.
  intros Hr. assert (He : in_step e).
  { revert e Hr. apply rtc_ind_r; [done|]. intros e1 e2 _ Hs He. by eapply effect_in_step. }
  split; [|intros o Ho; cbn; by rewrite Ho]. cbn. unfold in_step in He. rewrite He.
  destruct (inFlight e) as [h'|].
  - do 2 case_bool_decide; try done; exfalso.
    + apply to_js_inj in H. congruence.
    + congruence.
  - rewrite !bool_decide_false; [done|done|by destruct h].
Qed.

(** *** Concrete inputs *)

Definition sample_leaf (k : string) (c : option string) : Leaf :=
  mkLeaf (Some Todo) (Some k) (Some k) (Some "Payment") None c None None None None.

Lemma mapScanState_consistent_witness :
  exists b ss, mapScanState (Some "u") [mkSnarker "pk" "n" false (Some "u") [] None]
      (Some (mkResponse [[sample_leaf "a" (Some "pk")]; [sample_leaf "b" None]]
               (mkBlockInfo "h" 1 1))) = Ok (b, ss) /\
    exists s', workingSnarkers b !! 0 = Some s' /\ length (ws_leafs s') = 1.
Proof.
  destruct (mapScanState (Some "u") [mkSnarker "pk" "n" false (Some "u") [] None]
      (Some (mkResponse [[sample_leaf "a" (Some "pk")]; [sample_leaf "b" None]]
               (mkBlockInfo "h" 1 1)))) as [[b ss]|] eqn:E; [|discriminate E].
  exists b, ss. split; [done|].
  destruct (mapScanState_consistent _ _ _ _ _ E) as (_ & _ & Hs).
  destruct (Hs 0 _ eq_refl) as (s' & Hk & _ & Hl). exists s'. split; [done|].
  rewrite Hl. vm_compute in E. injection E as <- <-. by vm_compute.
Defined.

Lemma scan_state_loads_witness :
  getScanState_effect true "" "" (mkEffect (Val (inl 5%Z)) (Some (Some (inl 5%Z))))
    (OnAction (GetBlock (Some (inl 6%Z)))) =
  (mkEffect (Val (inl 6%Z)) (Some (Some (inl 6%Z))), []).
Proof.
  refine (proj1 (scan_state_loads _ true "" "" _ _)). apply rtc_once.
  exact (effect_event true "" "" initialEffect (OnAction (GetBlock (Some (inl 5%Z))))).
Defined.

End ScanState.
