(* ===== verification/NetworkMessages.v ===== *)
(** * Network messages

    [src/frontend/src/app/features/network/messages]: the store with its pages
    and filters ([network-messages.reducer.ts]), the requests of the service
    ([network-messages.service.ts]) and the polling of the effects
    ([network-messages.effects.ts]). *)

From Stdlib Require Import Sorting.Sorted.
From stdpp Require Import base list gmap strings sorting.
From S2P Require Import Prelude SharedLib.
Open Scope Z_scope.

Module Messages.

(** ** Data *)

Inductive Direction := FORWARD | REVERSE.
Inductive FilterType := STREAM_KIND | MESSAGE_KIND | ADDRESS.

#[export] Instance Direction_eq_dec : EqDecision Direction.
Proof. solve_decision. Defined.
#[export] Instance FilterType_eq_dec : EqDecision FilterType.
Proof. solve_decision. Defined.

(** [value: string | number] *)
Definition FilterValue : Type := Z + string.

Record Filter := mkFilter {
  f_type : FilterType; f_display : string; f_value : FilterValue; f_tooltip : option string
}.

(** The kind of a message is the field [message] of the response as it is: a
    name, or the counters of an error report. *)
Inductive MessageKind :=
| Kind (name : string)
| ErrorReport (total_failed total_decrypted : Z).

#[export] Instance MessageKind_eq_dec : EqDecision MessageKind.
Proof. solve_decision. Defined.

(** [NetworkMessage], without the percentage shown for an error report. *)
Record Message := mkMessage {
  id : Z;
  connectionId : Z;
  m_address : string;
  size_ : Z;
  incoming : string;
  m_timestamp : string;
  streamKind : string;
  messageKind : MessageKind
}.

#[export] Instance Message_eq_dec : EqDecision Message.
Proof. solve_decision. Defined.

Record Connection := mkConnection {
  c_address : string; pid : Z; fd : Z; c_incoming : bool; c_timestamp : string
}.

Record TimestampInterval := mkInterval { from : option Z; to : option Z }.

(** [VirtualScrollActivePage].  The code tells [null] from [undefined]. *)
Record ActivePage := mkPage {
  page_id : option Z;
  start : option Message;
  end_ : option Message;
  numberOfRecords : option nat;
  firstPageIdWithFilters : js Z;
  lastPageIdWithFilters : js Z;
  firstPageIdWithTimestamp : js Z;
  lastPageIdWithTimestamp : js Z
}.

Definition emptyPage : ActivePage :=
  mkPage None None None None Undefined Undefined Undefined Undefined.

(** An entry of [pages] is [undefined] when the page was empty.  The full
    message and the connection may be the text of an error. *)
Record State := mkState {
  messages : list Message;
  activeRow : option Message;
  activeRowFullMessage : option string;
  activeRowHex : option string;
  connection : option (Connection + string);
  activeFilters : list Filter;
  timestamp : TimestampInterval;
  activeTab : Z;
  stream : bool;
  limit : Z;
  direction : option Direction;
  activePage : ActivePage;
  pages : list (option Z)
}.

(** The payload of the two filter actions. *)
Record FilterPayload := mkFilterPayload {
  fp_filters : list Filter;
  fp_add : bool;                              (* type === 'add' *)
  fp_timestamp : option TimestampInterval;
  fp_direction : option Direction
}.

Inductive Action :=
| Init
| Close
| GetMessages
| GetMessagesSuccess (payload : list Message)
| GetPaginatedMessages (page : option Z) (dir : option Direction)
    (interval : option TimestampInterval)
| ToggleFilter (payload : FilterPayload)
| SetTimestampInterval (interval : TimestampInterval) (dir : option Direction)
| SetActiveRow (payload : option Message)
| GoLive
| Pause
| GetFullMessage (i : Z)
| GetFullMessageSuccess (payload : option string)
| GetMessageHex (i : Z)
| GetMessageHexSuccess (payload : option string)
| GetConnection (i : Z)
| GetConnectionSuccess (payload : Connection + string)
| ChangeTab (payload : Z)
| GetSpecificMessage (i : Z) (payload : FilterPayload).

(** ** Store *)

Definition initialState : State :=
  {| messages := []; activeRow := None; activeRowFullMessage := None; activeRowHex := None;
     connection := None; activeFilters := []; timestamp := mkInterval None None;
     activeTab := 1; stream := false; limit := 1000; direction := Some REVERSE;
     activePage := emptyPage; pages := [] |}.

Definition setActivePage (ms : list Message) (state : State) : ActivePage :=
  match head ms, last ms with
  | Some first, Some last =>
    let page := activePage state in
    let has_from := truthy_onum (from (timestamp state)) in
    {| page_id := Some (id last);
       start := Some first;
       end_ := Some last;
       numberOfRecords := Some (length ms);
       firstPageIdWithFilters :=
         if bool_decide (firstPageIdWithFilters page = Val (-1)) then Val (id first)
         else firstPageIdWithFilters page;
       lastPageIdWithFilters :=
         if js_is_null (lastPageIdWithFilters page) then Val (id last)
         else lastPageIdWithFilters page;
       firstPageIdWithTimestamp :=
         if has_from && negb (truthy_num (firstPageIdWithTimestamp page)) then Val (id first)
         else firstPageIdWithTimestamp page;
       lastPageIdWithTimestamp :=
         if has_from && negb (truthy_num (lastPageIdWithTimestamp page)) then Val (id last)
         else lastPageIdWithTimestamp page |}
  | _, _ => emptyPage
  end.

(** [pages.sort((a, b) => a - b)]: [sort] moves [undefined] to the end without
    calling the comparison. *)
Definition sort_pages (ps : list (option Z)) : list (option Z) :=
  (Some <$> js_sort (fun a b => a - b) (omap (fun p => p) ps)) ++
  List.filter (fun p => negb (is_some p)) ps.

(** [a > b], false when a side is [undefined]. *)
Definition page_gt (a b : option Z) : bool :=
  match a, b with Some a, Some b => b <? a | _, _ => false end.

Definition setPages (page : ActivePage) (state : State) : list (option Z) :=
  let currentPages := pages state in
  if includes currentPages (page_id page) then currentPages
  else if page_gt (page_id page) (mjoin (last currentPages)) then [page_id page]
  else sort_pages (currentPages ++ [page_id page]).

Definition same_value (f g : Filter) : bool := bool_decide (f_value f = f_value g).

Definition toggled_filters (current : list Filter) (payload : FilterPayload) : list Filter :=
  if fp_add payload
  then current ++ List.filter (fun f => negb (existsb (fun fi => same_value fi f) current))
                    (fp_filters payload)
  else List.filter (fun f => negb (existsb (fun fi => same_value fi f) (fp_filters payload)))
         current.

(** The direction of the two filter actions: [??] binds tighter than the
    conditional, so an explicit direction is only tested for its truth. *)
Definition toggled_direction (payload : FilterPayload) (filters : list Filter) (state : State)
    : option Direction :=
  let cond :=
    match fp_direction payload with
    | Some _ => true
    | None => (length filters =? 0)%nat && negb (truthy_onum (from (timestamp state)))
    end in
  if cond then Some REVERSE else direction state.

Definition toggle_filter (payload : FilterPayload) (state : State) : State :=
  let filters := toggled_filters (activeFilters state) payload in
  {| messages := messages state; activeRow := activeRow state;
     activeRowFullMessage := activeRowFullMessage state; activeRowHex := activeRowHex state;
     connection := connection state;
     activeFilters := filters;
     timestamp := match fp_timestamp payload with
                  | None => timestamp state
                  | Some t => mkInterval (from t) (to t)
                  end;
     activeTab := activeTab state; stream := false; limit := limit state;
     direction := toggled_direction payload filters state;
     activePage := mkPage None None None None Null Null Null (Val (-1));
     pages := [] |}.

(** The state with another active page and stream flag. *)
Definition with_page (state : State) (s : bool) (d : option Direction) (page : ActivePage) : State :=
  {| messages := messages state; activeRow := activeRow state;
     activeRowFullMessage := activeRowFullMessage state; activeRowHex := activeRowHex state;
     connection := connection state; activeFilters := activeFilters state;
     timestamp := timestamp state; activeTab := activeTab state; stream := s;
     limit := limit state; direction := d; activePage := page; pages := pages state |}.

Definition clear_first (page : ActivePage) : ActivePage :=
  mkPage (page_id page) (start page) (end_ page) (numberOfRecords page) Null
    (lastPageIdWithFilters page) (firstPageIdWithTimestamp page) (lastPageIdWithTimestamp page).

(** The state with another row, its details and tab. *)
Definition with_row (state : State) (row : option Message) (full hex : option string)
    (conn : option (Connection + string)) (tab : Z) : State :=
  {| messages := messages state; activeRow := row; activeRowFullMessage := full;
     activeRowHex := hex; connection := conn; activeFilters := activeFilters state;
     timestamp := timestamp state; activeTab := tab; stream := stream state;
     limit := limit state; direction := direction state; activePage := activePage state;
     pages := pages state |}.

(** Where the code spreads the whole state into [activePage], the page fields it
    does not set become [undefined]; the other fields the spread copies are
    never read. *)
Definition networkMessagesReducer (state : State) (action : Action) : State :=
  match action with
  | GetMessages =>
    with_page state (stream state) (direction state) (clear_first (activePage state))
  | GetMessagesSuccess payload =>
    let page := setActivePage payload state in
    {| messages := payload; activeRow := activeRow state;
       activeRowFullMessage := activeRowFullMessage state; activeRowHex := activeRowHex state;
       connection := connection state; activeFilters := activeFilters state;
       timestamp := timestamp state; activeTab := activeTab state; stream := stream state;
       limit := limit state; direction := direction state;
       activePage := page; pages := setPages page state |}
  | GetFullMessageSuccess payload =>
    with_row state (activeRow state) payload (activeRowHex state) (connection state)
      (activeTab state)
  | GetMessageHexSuccess payload =>
    with_row state (activeRow state) (activeRowFullMessage state) payload (connection state)
      (activeTab state)
  | GetConnectionSuccess payload =>
    with_row state (activeRow state) (activeRowFullMessage state) (activeRowHex state)
      (Some payload) (activeTab state)
  | ToggleFilter payload | GetSpecificMessage _ payload => toggle_filter payload state
  | SetActiveRow payload => with_row state payload None None None (activeTab state)
  | Init | GoLive => with_page state true (direction state) (clear_first (activePage state))
  | Pause => with_page state false (direction state) (activePage state)
  | GetPaginatedMessages page dir interval =>
    let p := activePage state in
    with_page state false dir
      {| page_id := page_id p; start := start p; end_ := end_ p;
         numberOfRecords := numberOfRecords p;
         firstPageIdWithFilters :=
           if bool_decide (page = Some 0) then Val (-1) else firstPageIdWithFilters p;
         lastPageIdWithFilters := lastPageIdWithFilters p;
         firstPageIdWithTimestamp := firstPageIdWithTimestamp p;
         lastPageIdWithTimestamp :=
           match interval with
           | Some t => if truthy_onum (to t) && truthy_onum (from t) then Null else Val (-1)
           | None => Val (-1)
           end |}
  | SetTimestampInterval interval dir =>
    {| messages := messages state; activeRow := activeRow state;
       activeRowFullMessage := activeRowFullMessage state; activeRowHex := activeRowHex state;
       connection := connection state; activeFilters := activeFilters state;
       timestamp := mkInterval (from interval) (to interval);
       activeTab := activeTab state; stream := false; limit := limit state; direction := dir;
       activePage := mkPage None None None None Undefined Undefined Null (Val (-1));
       pages := [] |}
  | ChangeTab payload =>
    with_row state (activeRow state) (activeRowFullMessage state) (activeRowHex state)
      (connection state) payload
  | Close => initialState
  | GetFullMessage _ | GetMessageHex _ | GetConnection _ => state
  end.

(** ** Service *)

Definition show_direction (d : option Direction) : string :=
  match d with Some FORWARD => "forward" | Some REVERSE => "reverse" | None => "undefined" end.

Definition show_filter_type (t : FilterType) : string :=
  match t with STREAM_KIND => "stream_kind" | MESSAGE_KIND => "message_kind" | ADDRESS => "addr" end.

Definition show_value (v : FilterValue) : string :=
  match v with inl n => show n | inr s => s end.

Fixpoint join (sep : string) (l : list string) : string :=
  match l with
  | [] => ""
  | [x] => x
  | x :: l' => x +:+ sep +:+ join sep l'
  end.

Definition url_param (name : string) (v : option Z) : string :=
  match v with
  | Some n => if truthyZ n then name +:+ show n else ""
  | None => ""
  end.

(** The parameters of one filter type. *)
Definition filter_params (filters : list Filter) (t : FilterType) : string :=
  let chosen := List.filter (fun f => bool_decide (f_type f = t)) filters in
  if existsb (fun f => bool_decide (f_type f = t)) filters
  then "&" +:+ show_filter_type t +:+ "=" +:+ join "," ((fun f => show_value (f_value f)) <$> chosen)
  else "".

(** The url [getNetworkMessages] requests. *)
Definition messages_url (debugger : string) (lim : Z) (i : option Z) (dir : option Direction)
    (filters : list Filter) (fr t : option Z) : string :=
  debugger +:+ "/messages?limit=" +:+ show lim +:+ "&direction=" +:+ show_direction dir +:+
  url_param "&id=" i +:+ url_param "&timestamp=" fr +:+ url_param "&timestamp_limit=" t +:+
  filter_params filters STREAM_KIND +:+ filter_params filters MESSAGE_KIND +:+
  filter_params filters ADDRESS.

(** A pair of the response: the id and the fields of the message. *)
Record RawMessage := mkRaw {
  raw_id : Z;
  secs_since_epoch : Z;
  nanos_since_epoch : Z;
  raw_incoming : bool;
  connection_id : Z;
  remote_addr : string;
  raw_size : Z;
  stream_kind : string;
  raw_message : MessageKind
}.

(** [readable] is [toReadableDate] of the time in nanoseconds. *)
Definition mapMessage (readable : Z -> string) (m : RawMessage) : Message :=
  {| id := raw_id m;
     m_timestamp := readable (secs_since_epoch m * 1000000000 + nanos_since_epoch m);
     incoming := if raw_incoming m then "Incoming" else "Outgoing";
     connectionId := connection_id m;
     m_address := remote_addr m;
     size_ := raw_size m;
     streamKind := stream_kind m;
     messageKind := raw_message m |}.

Definition mapNetworkMessageResponse (readable : Z -> string) (ms : list RawMessage)
    (dir : option Direction) : list Message :=
  mapMessage readable <$> (if bool_decide (dir = Some REVERSE) then reverse ms else ms).

(** The events of the request for a full message. *)
Inductive HttpEvent :=
| DownloadProgress (total : option Z)
| HttpResponse (body : string)
| OtherEvent.

(** The values [getNetworkFullMessage] emits: an event that is no response maps
    to [undefined], and a download of more than ten mebibytes ends the stream
    with its size as the text. *)
Fixpoint getNetworkFullMessage (events : list HttpEvent) : list (option string) :=
  match events with
  | [] => []
  | DownloadProgress (Some total) :: events' =>
    if 10485760 <? total then [Some (show total)]
    else None :: getNetworkFullMessage events'
  | DownloadProgress None :: events' | OtherEvent :: events' =>
    None :: getNetworkFullMessage events'
  | HttpResponse body :: events' => Some body :: getNetworkFullMessage events'
  end.

(** [info] of a connection: its address, process and descriptor. *)
Definition mapNetworkConnectionResponse (readable : Z -> string)
    (addr : string) (p f : Z) (inc : bool) (secs : Z) : Connection :=
  {| c_address := addr; pid := p; fd := f; c_incoming := inc;
     c_timestamp := readable (secs * 1000000000) |}.

(** ** Effects *)

(** A request for messages, with the parameters it is made with. *)
Record Request := mkRequest {
  rq_limit : Z; rq_id : option Z; rq_direction : option Direction;
  rq_filters : list Filter; rq_from : option Z; rq_to : option Z
}.

(** The fields of the effects class, whether the polling timer runs, and the
    request for messages in flight. *)
Record EffectState := mkEffect {
  streamActive : bool;
  waitingForServer : bool;
  polling : bool;
  inFlight : option Request
}.

Definition initialEffect : EffectState := mkEffect false false false None.

Inductive Event :=
| OnAction (a : Action)                    (* after the reducer *)
| Tick                                     (* the timer of [init$] *)
| OnMessages (o : outcome (list Message)). (* the outcome of the request *)

(** The id and interval [getMessages$] takes from the payload. *)
Definition messages_request (a : Action) (s : State) : option Request :=
  let make i t := Some (mkRequest (limit s) i (direction s) (activeFilters s)
                          (match t with Some t => from t | None => None end)
                          (match t with Some t => to t | None => None end)) in
  match a with
  | GetMessages | GoLive => make None None
  | GetPaginatedMessages i _ t => make i t
  | ToggleFilter payload => make None (fp_timestamp payload)
  | SetTimestampInterval t _ => make None (Some t)
  | _ => None
  end.

(** [init$], [getMessages$], [pause$], [goLive$] and [close$] on the state [s]
    after the reducer. *)
Definition messages_effects (now : string) (s : State) (e : EffectState) (ev : Event)
    : EffectState * list (dispatched Action) :=
  match ev with
  | Tick =>
    (e, if polling e && streamActive e && negb (waitingForServer e)
        then [Dispatch GetMessages] else [])
  | OnMessages o =>
    match inFlight e with
    | None => (e, [])
    | Some _ =>
      (mkEffect (streamActive e)
         match o with Next _ => false | Failed _ => waitingForServer e end
         (polling e) None,
       catchErrorAndRepeat now DEBUGGER (GetMessagesSuccess [])
         match o with Next ms => Next (GetMessagesSuccess ms) | Failed err => Failed err end)
    end
  | OnAction a =>
    match messages_request a s with
    | Some r =>
      let active := match a with
                    | GetPaginatedMessages _ _ _ => false
                    | GoLive => true
                    | _ => stream s
                    end in
      (mkEffect active true (polling e) (Some r), [])
    | None =>
      match a with
      | Init => (mkEffect (stream s) (waitingForServer e) true (inFlight e), [])
      | Pause => (mkEffect false (waitingForServer e) (polling e) (inFlight e), [])
      | Close => (mkEffect false (waitingForServer e) false (inFlight e), [])
      | GetSpecificMessage _ _ =>
        (mkEffect (stream s) (waitingForServer e) (polling e) (inFlight e), [])
      | _ => (e, [])
      end
    end
  end.

(** The two requests of [getSpecificMessage$]. *)
Definition specific_requests (i : Z) (s : State) : Request * Request :=
  (mkRequest (limit s / 2) (Some i) (Some REVERSE) (activeFilters s) None (to (timestamp s)),
   mkRequest (limit s / 2 + 1) (Some i) (Some FORWARD) (activeFilters s) None (to (timestamp s))).

(** The actions [getSpecificMessage$] dispatches from the two answers. *)
Definition getSpecificMessage (now : string) (i : Z)
    (o : outcome (list Message * list Message)) : list (dispatched Action) :=
  match o with
  | Next (before, after) =>
    let ms := before ++ drop 1 after in
    [Dispatch (GetMessagesSuccess ms);
     Dispatch (SetActiveRow (List.find (fun m => id m =? i) ms))]
  | Failed err => catchErrorAndRepeat now DEBUGGER (SetActiveRow None) (Failed err)
  end.

(** [setActiveRow$] *)
Definition setActiveRow (s : State) : list Action :=
  match activeRow s with
  | None => []
  | Some row =>
    if activeTab s =? 1 then
      match activeRowFullMessage s with
      | Some m => if truthy_str m then [] else [GetFullMessage (id row)]
      | None => [GetFullMessage (id row)]
      end
    else if activeTab s =? 2 then
      match activeRowHex s with
      | Some h => if truthy_str h then [] else [GetMessageHex (id row)]
      | None => [GetMessageHex (id row)]
      end
    else if is_some (connection s) then [] else [GetConnection (connectionId row)]
  end.

Definition getFullMessage (o : outcome (option string)) : Action :=
  match o with
  | Next payload => GetFullMessageSuccess payload
  | Failed err => GetFullMessageSuccess (Some (message err))
  end.

Definition getMessageHex (now : string) (o : outcome string) : list (dispatched Action) :=
  catchErrorAndRepeat now DEBUGGER (GetMessageHexSuccess (Some "Error fetching hex"))
    match o with Next h => Next (GetMessageHexSuccess (Some h)) | Failed err => Failed err end.

Definition getConnection (now : string) (o : outcome Connection) : list (dispatched Action) :=
  catchErrorAndRepeat now DEBUGGER (GetConnectionSuccess (inr "Error fetching connection"))
    match o with Next c => Next (GetConnectionSuccess (inl c)) | Failed err => Failed err end.

(** ** The pages stay sorted *)

(** Known pages in strictly increasing order, possibly followed by the
    [undefined] of an empty page. *)
Definition pages_ok (ps : list (option Z)) : Prop :=
  exists zs tail, ps = (Some <$> zs) ++ tail /\ StronglySorted Z.lt zs /\
    (tail = [] \/ tail = [None]).

Lemma sorted_lt (zs : list Z) :
  Sorted (cmp_le (fun a b => a - b)) zs -> NoDup zs -> StronglySorted Z.lt zs.
Proof.
  intros Hs Hnd. apply Sorted_StronglySorted in Hs; [|intros x y z; unfold cmp_le; lia].
  induction Hs as [|z zs _ IH Hz]; [constructor|]. apply NoDup_cons in Hnd as [Hnz Hnd].
  constructor; [by apply IH|]. apply Forall_forall. intros y Hy.
  rewrite Forall_forall in Hz. specialize (Hz y Hy). unfold cmp_le in Hz.
  assert (y <> z) by congruence. lia.
Qed.

Lemma StronglySorted_lt_NoDup zs : StronglySorted Z.lt zs -> NoDup zs.
Proof.
  induction 1 as [|z zs _ IH Hz]; [constructor|]. constructor; [|done].
  intros Hin. rewrite Forall_forall in Hz. specialize (Hz z Hin). lia.
Qed.

Lemma omap_somes zs tail :
  tail = [] \/ tail = [None] ->
  omap (fun p : option Z => p) ((Some <$> zs) ++ tail) = zs /\
  List.filter (fun p : option Z => negb (is_some p)) ((Some <$> zs) ++ tail) = tail.
Proof.
  intros Ht. induction zs as [|z zs [IH1 IH2]]; [destruct Ht as [->| ->]; done|].
  cbn. split; [by f_equal|done].
Qed.

Lemma elem_of_somes zs (tail : list (option Z)) z :
  tail = [] \/ tail = [None] -> Some z ∈ (Some <$> zs) ++ tail <-> z ∈ zs.
Proof.
  intros Ht. rewrite elem_of_app, list_elem_of_fmap.
  destruct Ht as [->| ->]; rewrite ?list_elem_of_singleton, ?elem_of_nil; naive_solver.
Qed.

Lemma setPages_ok page s : pages_ok (pages s) -> pages_ok (setPages page s).
Proof.
  intros (zs & tail & Hp & Hs & Ht). unfold setPages, includes. case_bool_decide as Hin.
  { by exists zs, tail. }
  destruct (page_gt _ _) eqn:Hgt.
  { destruct (page_id page) as [z|]; [|done]. exists [z], []. repeat split; auto.
    repeat constructor. }
  rewrite Hp in *. unfold sort_pages. destruct (omap_somes zs tail Ht) as [Ho Hf].
  rewrite omap_app, Ho, List.filter_app, Hf. destruct (page_id page) as [z|]; cbn.
  - rewrite app_nil_r. exists (js_sort (fun a b => a - b) (zs ++ [z])), tail.
    split; [done|]. split; [|done]. rewrite elem_of_somes in Hin by done.
    apply sorted_lt; [apply js_sort_sorted; intros; lia|]. rewrite js_sort_perm.
    apply NoDup_app. split; [by apply StronglySorted_lt_NoDup|].
    split; [set_solver|apply NoDup_singleton].
  - rewrite app_nil_r. destruct Ht as [->| ->]; [|set_solver].
    exists (js_sort (fun a b => a - b) zs), [None]. split; [done|]. split; [|auto].
    apply sorted_lt; [apply js_sort_sorted; intros; lia|]. rewrite js_sort_perm.
    by apply StronglySorted_lt_NoDup.
Qed.

Lemma reducer_pages_ok s a : pages_ok (pages s) -> pages_ok (pages (networkMessagesReducer s a)).
Proof.
  assert (pages_ok []) by (exists [], []; repeat split; auto; constructor).
  intros Hs. destruct a; try done. by apply setPages_ok.
Qed.

(** Whatever is dispatched, the known pages are strictly increasing, without
    duplicates, with at most one [undefined] entry, at the end; and right after
    messages arrive their page is one of them. *)
Theorem pages_stay_sorted actions :
  let s := fold_left networkMessagesReducer actions initialState in
  pages_ok (pages s) /\
  forall ms, let s' := networkMessagesReducer s (GetMessagesSuccess ms) in
    page_id (activePage s') ∈ pages s'.
Proof.
  cbn zeta. set (s := fold_left _ _ _). assert (Hok : pages_ok (pages s)).
  { subst s. assert (H0 : pages_ok (pages initialState)).
    { exists [], []. repeat split; auto. constructor. }
    revert H0. generalize initialState. induction actions as [|a actions IH]; intros s Hs; [done|].
    cbn [fold_left]. apply IH. by apply reducer_pages_ok. }
  split; [done|]. intros ms. cbn. unfold setPages, includes. case_bool_decide; [done|].
  destruct (page_gt _ _); [by left|]. unfold sort_pages.
  destruct (page_id _) as [z|]; rewrite elem_of_app.
  - left. apply list_elem_of_fmap. exists z. split; [done|]. rewrite js_sort_perm.
    rewrite omap_app. apply elem_of_app. right. by left.
  - right. rewrite List.filter_app. apply elem_of_app. right. by left.
Qed.

(** An empty answer leaves [undefined] as the last page, and from then on a page
    beyond the biggest one no longer starts a new list. *)
Lemma empty_page_blocks_reset :
  let arrived ms s := networkMessagesReducer s (GetMessagesSuccess ms) in
  let msg i := mkMessage i 0 "" 0 "Incoming" "" "" (Kind "k") in
  pages (arrived [msg 9] (arrived [msg 5] initialState)) = [Some 9] /\
  pages (arrived [msg 9] (arrived [] (arrived [msg 5] initialState))) = [Some 5; Some 9; None].
Proof. vm_compute. done. Qed.

(** ** Filters *)

Lemma existsb_value current f :
  existsb (fun fi => same_value fi f) current = bool_decide (f_value f ∈ f_value <$> current).
Proof.
  induction current as [|c current IH]; [done|]. cbn [existsb]. rewrite IH. unfold same_value.
  rewrite fmap_cons. destruct (decide (f_value c = f_value f)) as [He|Hne].
  - rewrite (bool_decide_true (f_value c = _)) by done. simpl. symmetry.
    apply bool_decide_eq_true. rewrite He. by left.
  - rewrite (bool_decide_false (f_value c = _)) by done. simpl.
    apply bool_decide_ext. rewrite elem_of_cons. naive_solver.
Qed.

(** Adding filters yields the union of the values and removing them the
    difference, and the values of the active filters stay distinct. *)
Theorem toggled_filters_values current payload :
  NoDup (f_value <$> current) -> NoDup (f_value <$> fp_filters payload) ->
  NoDup (f_value <$> toggled_filters current payload) /\
  forall v, v ∈ f_value <$> toggled_filters current payload <->
    if fp_add payload
    then v ∈ f_value <$> current \/ v ∈ f_value <$> fp_filters payload
    else v ∈ f_value <$> current /\ v ∉ f_value <$> fp_filters payload.
Proof.
  intros Hc Hp. unfold toggled_filters. destruct (fp_add payload).
  - rewrite fmap_app. split.
    + apply NoDup_app. split; [done|]. split.
      * intros v Hv (f & -> & Hf)%list_elem_of_fmap. apply elem_of_lfilter in Hf as [_ Hf].
        rewrite existsb_value, bool_decide_true in Hf; done.
      * by apply NoDup_fmap_lfilter.
    + intros v. rewrite elem_of_app. split; [intros [Hv|Hv]; [by left|right]|intros [Hv|Hv]; [by left|]].
      * apply list_elem_of_fmap in Hv as (f & -> & Hf). apply elem_of_lfilter in Hf as [Hf _].
        apply list_elem_of_fmap. eauto.
      * apply list_elem_of_fmap in Hv as (f & -> & Hf).
        destruct (decide (f_value f ∈ f_value <$> current)) as [Hin|Hin]; [by left|right].
        apply list_elem_of_fmap. exists f. split; [done|]. apply elem_of_lfilter.
        split; [done|]. by rewrite existsb_value, bool_decide_false.
  - split; [by apply NoDup_fmap_lfilter|].
    intros v. rewrite !list_elem_of_fmap. split.
    + intros (f & -> & Hf). apply elem_of_lfilter in Hf as [Hf Hn].
      rewrite existsb_value in Hn. case_bool_decide as Hd; [done|].
      rewrite list_elem_of_fmap in Hd. eauto.
    + intros [(f & -> & Hf) Hn]. exists f. split; [done|]. apply elem_of_lfilter.
      split; [done|]. rewrite existsb_value, bool_decide_false; [done|].
      by rewrite list_elem_of_fmap.
Qed.

(** The explicit direction of a filter action never reaches the state. *)
Lemma explicit_direction_ignored payload s d :
  fp_direction payload = Some d ->
  direction (networkMessagesReducer s (ToggleFilter payload)) = Some REVERSE.
Proof. intros Hd. cbn. unfold toggled_direction. by rewrite Hd. Qed.

(** ** Polling *)

Inductive effect_step : EffectState -> EffectState -> Prop :=
| effect_event now s e ev : effect_step e (messages_effects now s e ev).1.

Lemma waiting_while_in_flight e :
  rtc effect_step initialEffect e -> inFlight e <> None -> waitingForServer e = true.
Proof.
  revert e. apply (rtc_ind_r (fun e => inFlight e <> None -> waitingForServer e = true));
    [done|]. intros e e' _ Hs IH Hf. destruct Hs as [now s e ev].
  destruct ev as [a| |o]; cbn in *.
  - destruct (messages_request a s); [done|]. destruct a; cbn in *; auto.
  - auto.
  - destruct (inFlight e) eqn:E; cbn in *; [done|congruence].
Qed.

(** While the timer runs and the stream is on, the tick after a successful
    load asks for new messages, but after a failed load no tick does, in any
    later state of the store: the flag [waitingForServer] is only cleared by a
    successful load. *)
Theorem failed_load_stops_polling e r now s :
  rtc effect_step initialEffect e -> inFlight e = Some r ->
  polling e = true -> streamActive e = true ->
  (forall ms now' s', let e' := (messages_effects now s e (OnMessages (Next ms))).1 in
     messages_effects now' s' e' Tick = (e', [Dispatch GetMessages])) /\
  (forall err now' s', let e' := (messages_effects now s e (OnMessages (Failed err))).1 in
     messages_effects now' s' e' Tick = (e', [])).
Proof.
  intros Hr Hf Hp Hs. pose proof (waiting_while_in_flight e Hr ltac:(congruence)) as Hw.
  cbn. rewrite Hf. cbn. rewrite Hp, Hs, Hw. done.
Qed.

(** ** A specific message *)

(** When the answers around the message [m] are in order, the first ending
    and the second starting with it, the loaded list is strictly increasing
    (the message is not repeated) and [m] becomes the active row. *)
Theorem specific_message_selected now before after m m' :
  StronglySorted Z.lt (id <$> before ++ [m]) ->
  StronglySorted Z.lt (id <$> m' :: after) -> id m' = id m ->
  getSpecificMessage now (id m) (Next (before ++ [m], m' :: after)) =
    [Dispatch (GetMessagesSuccess (before ++ m :: after)); Dispatch (SetActiveRow (Some m))] /\
  StronglySorted Z.lt (id <$> before ++ m :: after).
Proof.
  intros Hb Ha Hid. rewrite fmap_app in Hb. rewrite fmap_cons, Hid in Ha. split.
  - cbn. rewrite <- app_assoc. cbn. repeat f_equal.
    rewrite find_app. destruct (List.find _ before) as [x|] eqn:E; cbn.
    + apply find_Some_elem in E as [Hx Hi]. apply Z.eqb_eq in Hi.
      pose proof (StronglySorted_app_1_elem_of Z.lt _ _ (id x) (id m) Hb) as Hlt.
      rewrite list_elem_of_fmap in Hlt. specialize (Hlt ltac:(eauto) ltac:(by left)). lia.
    + by rewrite Z.eqb_refl.
  - rewrite fmap_app, fmap_cons. apply StronglySorted_app in Hb as (Hbm & Hb & _).
    apply StronglySorted_app. split; [|done]. intros x y Hx [->|Hy]%elem_of_cons.
    + apply Hbm; [done|by left].
    + etrans; [apply Hbm; [done|by left]|]. apply StronglySorted_inv in Ha as [_ Ha].
      rewrite Forall_forall in Ha. by apply Ha.
Qed.

(** *** Concrete inputs *)

Definition sample_message (i : Z) : Message := mkMessage i 0 "a" 1 "Incoming" "t" "k" (Kind "k").

Lemma toggled_filters_values_witness :
  NoDup (f_value <$> toggled_filters [mkFilter ADDRESS "a" (inr "a") None]
    (mkFilterPayload [mkFilter ADDRESS "b" (inr "b") None] true None None)).
Proof.
  apply toggled_filters_values; apply NoDup_singleton.
Defined.

Lemma failed_load_stops_polling_witness :
  let s := networkMessagesReducer initialState Init in
  let e := (messages_effects "" s (messages_effects "" s initialEffect (OnAction Init)).1
              (OnAction GetMessages)).1 in
  let e' := (messages_effects "" s e (OnMessages (Failed (mkJsError "timeout" None "")))).1 in
  messages_effects "" s e' Tick = (e', []).
Proof.
  cbn zeta. eapply failed_load_stops_polling; [|vm_compute; reflexivity..].
  eapply rtc_l; [|eapply rtc_once];
    [exact (effect_event "" (networkMessagesReducer initialState Init) initialEffect (OnAction Init))
    |exact (effect_event "" _ _ (OnAction GetMessages))].
Defined.

Lemma specific_message_selected_witness :
  StronglySorted Z.lt (id <$> [sample_message 1] ++ sample_message 2 :: [sample_message 3]).
Proof.
  apply (specific_message_selected "" [sample_message 1] [sample_message 3]
    (sample_message 2) (sample_message 2)); [| |done]; repeat constructor; simpl; lia.
Defined.

End Messages.
