(* ===== verification/NetworkBlocks.v ===== *)
(** * Network blocks

    [src/frontend/src/app/features/network/blocks]: the block messages with
    their latencies ([network-blocks.service.ts]), the store with its filters
    ([network-blocks.reducer.ts]) and the polling of the effects
    ([network-blocks.effects.ts]).

    Latencies are kept in nanoseconds; the code divides them by a billion. *)

From stdpp Require Import base list gmap strings pretty.
From S2P Require Import Prelude SharedLib.
Open Scope Z_scope.

Module Blocks.

(** ** Data *)

Record Block := mkBlock {
  messageKind : string;
  producerId : string;
  hash : string;
  date : string;
  timestamp : string;
  sender : string;
  receiver : string;
  messageId : Z;
  height : Z;
  globalSlot : Z;
  incoming : string;
  sentLatency : option Z;
  receivedLatency : option Z
}.

Record State := mkState {
  blocks : list Block;
  filteredBlocks : list Block;
  stream : bool;
  sort_ : TableSort;
  openSidePanel : bool;
  allFilters : list string;
  activeFilters : list string;
  activeBlock : option Z;
  earliestBlock : option Z
}.

Inductive Action :=
| Init
| Close
| GetBlocks (h : option Z)
| GetBlocksSuccess (payload : list Block)
| Sort (payload : TableSort)
| ToggleSidePanel
| ToggleFilter (payload : string)
| SetActiveBlock (h : option Z) (fetchNew : bool)
| GetEarliestBlock
| SetEarliestBlock (h : option Z).

(** ** Service *)

(** [while (newNano.length < 9) newNano = '0' + newNano]: at most nine turns. *)
Fixpoint pad_nano (fuel : nat) (s : string) : string :=
  match fuel with
  | O => s
  | S fuel' => if (String.length s <? 9)%nat then pad_nano fuel' ("0" +:+ s) else s
  end.

Definition getTimestamp (secs nano : Z) : string := show secs +:+ pad_nano 9 (show nano).

Definition digit (c : Ascii.ascii) : Z := Z.of_nat (Ascii.nat_of_ascii c) - 48.

(** [BigInt(s)] of a string of digits. *)
Fixpoint parse_digits (acc : Z) (s : string) : Z :=
  match s with
  | EmptyString => acc
  | String c s' => parse_digits (10 * acc + digit c) s'
  end.

Definition BigInt (s : string) : Z := parse_digits 0 s.

(** [reduce((t1, t2) => t2 < t1 ? t2 : t1)] *)
Definition fastest (times : list Z) : result Z := reduce1 (fun t1 t2 => if t2 <? t1 then t2 else t1) times.

Record RawBlock := mkRaw {
  message_kind : string; producer_id : string; raw_hash : string;
  secs_since_epoch : Z; nanos_since_epoch : Z;
  sender_addr : string; receiver_addr : string;
  block_height : Z; global_slot : Z; message_id : Z; raw_incoming : bool
}.

(** [readable] is [toReadableDate] of a time in nanoseconds. *)
Definition mapBlock (readable : Z -> string) (fastestTime : Z) (b : RawBlock) : Block :=
  let t := getTimestamp (secs_since_epoch b) (nanos_since_epoch b) in
  let latency := BigInt t - fastestTime in
  {| messageKind := message_kind b; producerId := producer_id b; hash := raw_hash b;
     date := readable (secs_since_epoch b * 1000000000 + nanos_since_epoch b);
     timestamp := t; sender := sender_addr b; receiver := receiver_addr b;
     height := block_height b; globalSlot := global_slot b; messageId := message_id b;
     incoming := if raw_incoming b then "Incoming" else "Outgoing";
     receivedLatency := if raw_incoming b then Some latency else None;
     sentLatency := if raw_incoming b then None else Some latency |}.

(** [mapBlocks]; a missing answer has no blocks, an answer without events makes
    [reduce] throw. *)
Definition mapBlocks (readable : Z -> string) (events : option (list RawBlock))
    : result (list Block) :=
  match events with
  | None => Ok []
  | Some bs =>
    match fastest ((fun b => BigInt (getTimestamp (secs_since_epoch b) (nanos_since_epoch b))) <$> bs) with
    | Ok t => Ok (mapBlock readable t <$> bs)
    | Throw e => Throw e
    end
  end.

Definition getEarliestBlockHeight (latest : option Z) : result Z :=
  match latest with Some h => Ok h | None => Throw "No blocks found!" end.

(** ** Store *)

Definition initialState : State :=
  {| blocks := []; filteredBlocks := []; stream := true; activeBlock := None;
     earliestBlock := None; sort_ := mkTableSort "date" ASC; openSidePanel := false;
     allFilters := []; activeFilters := [] |}.

Definition getFilteredBlocks (bs : list Block) (filters : list string) : list Block :=
  if (0 <? length filters)%nat then List.filter (fun b => includes filters (hash b)) bs else bs.

Definition with_latency (fastestTime : Z) (b : Block) : Block :=
  let latency := BigInt (timestamp b) - fastestTime in
  {| messageKind := messageKind b; producerId := producerId b; hash := hash b; date := date b;
     timestamp := timestamp b; sender := sender b; receiver := receiver b;
     messageId := messageId b; height := height b; globalSlot := globalSlot b;
     incoming := incoming b;
     receivedLatency := if is_some (receivedLatency b) then Some latency else None;
     sentLatency := if is_some (sentLatency b) then Some latency else None |}.

Definition applyNewLatencies (bs : list Block) : result (list Block) :=
  match fastest ((fun b => BigInt (timestamp b)) <$> bs) with
  | Ok t => Ok (with_latency t <$> bs)
  | Throw e => Throw e
  end.

Section Reducer.
Context `{TableSorter Block}.

Definition sortBlocks (bs : list Block) (ts : TableSort) : list Block :=
  sort bs ts ["date"; "hash"; "sender"; "receiver"; "messageKind"] false.

Definition networkBlocksReducer (s : State) (a : Action) : result State :=
  match a with
  | GetBlocksSuccess payload =>
    let bs := sortBlocks payload (sort_ s) in
    let filtered := getFilteredBlocks bs (activeFilters s) in
    match (if (0 <? length (activeFilters s))%nat then applyNewLatencies filtered
           else Ok filtered) with
    | Throw e => Throw e
    | Ok filtered =>
      Ok {| blocks := bs; filteredBlocks := filtered; stream := stream s; sort_ := sort_ s;
            openSidePanel := openSidePanel s; allFilters := unique (hash <$> payload) [];
            activeFilters := activeFilters s; activeBlock := activeBlock s;
            earliestBlock := earliestBlock s |}
    end
  | Sort payload =>
    Ok {| blocks := blocks s; filteredBlocks := sortBlocks (filteredBlocks s) payload;
          stream := stream s; sort_ := payload; openSidePanel := openSidePanel s;
          allFilters := allFilters s; activeFilters := activeFilters s;
          activeBlock := activeBlock s; earliestBlock := earliestBlock s |}
  | ToggleSidePanel =>
    Ok {| blocks := blocks s; filteredBlocks := filteredBlocks s; stream := stream s;
          sort_ := sort_ s; openSidePanel := negb (openSidePanel s); allFilters := allFilters s;
          activeFilters := activeFilters s; activeBlock := activeBlock s;
          earliestBlock := earliestBlock s |}
  | ToggleFilter payload =>
    let filters := if includes (activeFilters s) payload
                   then List.filter (fun f => negb (String.eqb f payload)) (activeFilters s)
                   else activeFilters s ++ [payload] in
    let filtered := getFilteredBlocks (blocks s) filters in
    match applyNewLatencies (sortBlocks filtered (sort_ s)) with
    | Throw e => Throw e
    | Ok filtered =>
      Ok {| blocks := blocks s; filteredBlocks := filtered; stream := stream s;
            sort_ := sort_ s; openSidePanel := openSidePanel s; allFilters := allFilters s;
            activeFilters := filters; activeBlock := activeBlock s;
            earliestBlock := earliestBlock s |}
    end
  | SetActiveBlock h fetchNew =>
    Ok {| blocks := blocks s; filteredBlocks := filteredBlocks s; stream := stream s;
          sort_ := sort_ s; openSidePanel := openSidePanel s; allFilters := allFilters s;
          activeFilters := if fetchNew then [] else activeFilters s; activeBlock := h;
          earliestBlock := earliestBlock s |}
  | SetEarliestBlock h =>
    Ok {| blocks := blocks s; filteredBlocks := filteredBlocks s; stream := stream s;
          sort_ := sort_ s; openSidePanel := openSidePanel s; allFilters := allFilters s;
          activeFilters := activeFilters s; activeBlock := activeBlock s; earliestBlock := h |}
  | Close => Ok initialState
  | Init | GetBlocks _ | GetEarliestBlock => Ok s
  end.
End Reducer.

(** ** Effects *)

(** [earliestBlock$] on an answer. *)
Definition earliestBlock_effect (now : string) (s : State) (o : outcome Z)
    : list (dispatched Action) :=
  match o with
  | Next h =>
    Dispatch (SetEarliestBlock (Some h)) ::
    (if truthy_onum (activeBlock s) then []
     else [Dispatch (SetActiveBlock (Some h) false); Dispatch Init])
  | Failed err => catchErrorAndRepeat now DEBUGGER (SetEarliestBlock None) (Failed err)
  end.

(** The fields of the effects class, whether the timer runs, and the height of
    the request in flight. *)
Record EffectState := mkEffect {
  streamActive : bool; waitingForServer : bool; polling : bool; inFlight : option (option Z)
}.

Definition initialEffect : EffectState := mkEffect false false false None.

Inductive Event :=
| OnAction (a : Action)
| Tick
| OnBlocks (o : outcome (list Block)).

(** [init$], [getBlocks$], [setActiveBlock$] and [close$] on the state after the
    reducer. *)
Definition blocks_effects (now : string) (s : State) (e : EffectState) (ev : Event)
    : EffectState * list (dispatched Action) :=
  match ev with
  | OnAction Init => (mkEffect (streamActive e) (waitingForServer e) true (inFlight e), [])
  | OnAction Close => (mkEffect false (waitingForServer e) false (inFlight e), [])
  | OnAction (GetBlocks h) =>
    let target := if truthy_onum h then h else activeBlock s in
    (mkEffect (stream s) true (polling e) (Some target), [])
  | OnAction (SetActiveBlock h true) => (e, [Dispatch (GetBlocks h)])
  | OnAction _ => (e, [])
  | Tick => (e, if polling e && negb (waitingForServer e) then [Dispatch (GetBlocks None)] else [])
  | OnBlocks o =>
    match inFlight e with
    | None => (e, [])
    | Some _ =>
      (mkEffect (streamActive e)
         match o with Next _ => false | Failed _ => waitingForServer e end (polling e) None,
       catchErrorAndRepeat now DEBUGGER (GetBlocksSuccess [])
         match o with Next bs => Next (GetBlocksSuccess bs) | Failed err => Failed err end)
    end
  end.

(** ** Timestamps *)

Lemma parse_digits_app acc s t : parse_digits acc (s +:+ t) = parse_digits (parse_digits acc s) t.
Proof.
  revert acc. induction s as [|c s IH]; intros acc; [done|].
  exact (IH (10 * acc + digit c)).
Qed.

Lemma parse_digits_acc acc s :
  parse_digits acc s = acc * 10 ^ Z.of_nat (String.length s) + parse_digits 0 s.
Proof.
  revert acc. induction s as [|c s IH]; intros acc; [simpl; lia|].
  cbn [parse_digits String.length]. rewrite (IH (10 * acc + digit c)), (IH (10 * 0 + digit c)).
  rewrite Nat2Z.inj_succ, Z.pow_succ_r by lia. lia.
Qed.

Lemma digit_char n : (n < 10)%N -> digit (pretty_N_char n) = Z.of_N n.
Proof.
  intros Hn. destruct n as [|p]; [done|].
  do 4 (try (destruct p as [p|p|]; try done)); lia.
Qed.

Lemma parse_pretty_go x s : parse_digits 0 (pretty_N_go x s) = parse_digits (Z.of_N x) s.
Proof.
  revert s. induction x as [x IH] using (well_founded_induction N.lt_wf_0). intros s.
  destruct (decide (x = 0%N)) as [->|Hx]; [by rewrite pretty_N_go_0|].
  rewrite pretty_N_go_step by lia. rewrite IH by (apply N.div_lt; lia).
  cbn [parse_digits]. rewrite digit_char by (apply N.mod_lt; lia). f_equal.
  rewrite N2Z.inj_div, N2Z.inj_mod. rewrite (Z.div_mod (Z.of_N x) 10) at 3 by lia. done.
Qed.

Lemma length_pretty_go k x s :
  (x < 10 ^ N.of_nat k)%N -> (String.length (pretty_N_go x s) <= k + String.length s)%nat.
Proof.
  revert x s. induction k as [|k IH]; intros x s Hx.
  { assert (x = 0%N) as -> by (simpl in Hx; lia). by rewrite pretty_N_go_0. }
  destruct (decide (x = 0%N)) as [->|Hne]; [rewrite pretty_N_go_0; lia|].
  rewrite pretty_N_go_step by lia. etrans; [apply IH|simpl; lia].
  apply N.Div0.div_lt_upper_bound. rewrite Nat2N.inj_succ, N.pow_succ_r' in Hx. lia.
Qed.

Lemma show_N n : 0 < n -> show n = pretty_N_go (Z.to_N n) "".
Proof.
  intros Hn. destruct n as [|p|p]; [lia| |lia]. unfold show, pretty, pretty_Z, pretty, pretty_positive.
  unfold pretty, pretty_N. by rewrite decide_False by done.
Qed.

Lemma BigInt_show n : 0 <= n -> BigInt (show n) = n.
Proof.
  intros Hn. destruct (decide (n = 0)) as [->|Hne]; [done|].
  unfold BigInt. rewrite show_N, parse_pretty_go by lia. simpl. lia.
Qed.

Lemma length_show n : 0 <= n < 10 ^ 9 -> (String.length (show n) <= 9)%nat.
Proof.
  intros Hn. destruct (decide (n = 0)) as [->|Hne]; [simpl; lia|].
  rewrite show_N by lia. etrans; [apply (length_pretty_go 9)|simpl; lia]. simpl. lia.
Qed.

Lemma pad_nano_spec fuel s :
  (String.length s <= 9)%nat -> (9 <= fuel + String.length s)%nat ->
  String.length (pad_nano fuel s) = 9%nat /\ parse_digits 0 (pad_nano fuel s) = parse_digits 0 s.
Proof.
  revert s. induction fuel as [|fuel IH]; intros s Hs Hf; cbn [pad_nano]; [split; [lia|done]|].
  destruct (Nat.ltb_spec (String.length s) 9) as [Hlt|Hge]; [|split; [lia|done]].
  destruct (IH ("0" +:+ s)) as [Hl Hp]; [rewrite string_length_app; simpl; lia..|].
  split; [done|]. by rewrite Hp.
Qed.

(** The timestamp string the service builds denotes the time in
    nanoseconds: the padding of the nanoseconds makes concatenation of the two
    decimal numbers the sum of their values. *)
Theorem timestamp_denotes_time secs nano :
  0 <= secs -> 0 <= nano < 10 ^ 9 ->
  BigInt (getTimestamp secs nano) = secs * 10 ^ 9 + nano.
Proof.
  intros Hs Hn. unfold getTimestamp, BigInt. rewrite parse_digits_app.
  fold (BigInt (show secs)). rewrite BigInt_show by done. rewrite parse_digits_acc.
  destruct (pad_nano_spec 9 (show nano)) as [-> ->]; [by apply length_show|lia|].
  fold (BigInt (show nano)). by rewrite BigInt_show by lia.
Qed.

(** ** Latencies *)

Lemma fold_fastest l x :
  let t := fold_left (fun t1 t2 => if t2 <? t1 then t2 else t1) l x in
  (t = x \/ t ∈ l) /\ t <= x /\ forall y, y ∈ l -> t <= y.
Proof.
  revert x. induction l as [|z l IH]; intros x; cbn [fold_left].
  { split; [by left|]. split; [lia|]. intros y Hy. inv Hy. }
  destruct (IH (if z <? x then z else x)) as (Hin & Hle & Hall).
  destruct (Z.ltb_spec z x) as [Hzx|Hzx].
  - split; [destruct Hin as [->|]; right; [by left|by right]|]. split; [lia|].
    intros y [->|Hy]%elem_of_cons; [done|by apply Hall].
  - split; [destruct Hin as [->|]; [by left|right; by right]|]. split; [lia|].
    intros y [->|Hy]%elem_of_cons; [lia|by apply Hall].
Qed.

Lemma fastest_Ok l t : fastest l = Ok t -> t ∈ l /\ forall y, y ∈ l -> t <= y.
Proof.
  destruct l as [|x l]; [done|]. cbn. intros [= <-].
  destruct (fold_fastest l x) as (Hin & Hle & Hall). split.
  - destruct Hin as [->|]; [by left|by right].
  - intros y [->|Hy]%elem_of_cons; [done|by apply Hall].
Qed.

Lemma applyNewLatencies_Throw bs e : applyNewLatencies bs = Throw e -> bs = [].
Proof. destruct bs; [done|]. unfold applyNewLatencies. cbn. done. Qed.

Lemma applyNewLatencies_nil : throws (applyNewLatencies []) = true.
Proof. done. Qed.

Section Properties.
Context `{TableSorter Block}.

(** With active filters, arriving blocks are shown with latencies relative
    to the earliest shown block: no latency is negative and the earliest block
    has the latency zero; the reducer throws exactly when no arriving block
    passes the filters (also on the empty list of a failed load). *)
Theorem filtered_latencies s payload :
  activeFilters s <> [] ->
  match networkBlocksReducer s (GetBlocksSuccess payload) with
  | Throw _ => forall b, b ∈ payload -> hash b ∉ activeFilters s
  | Ok s' =>
    length (filteredBlocks s') = count_if (fun b => includes (activeFilters s) (hash b)) payload /\
    exists t, (exists b, b ∈ filteredBlocks s' /\ BigInt (timestamp b) = t) /\
    forall b, b ∈ filteredBlocks s' -> hash b ∈ activeFilters s /\ t <= BigInt (timestamp b) /\
      (receivedLatency b = None \/ receivedLatency b = Some (BigInt (timestamp b) - t)) /\
      (sentLatency b = None \/ sentLatency b = Some (BigInt (timestamp b) - t))
  end.
Proof.
  intros Hf. assert (Hlen : (0 <? length (activeFilters s))%nat = true)
    by (by destruct (activeFilters s)).
  unfold networkBlocksReducer, getFilteredBlocks. cbn zeta. rewrite Hlen. set (shown := List.filter _ _).
  assert (Hshown : forall b, b ∈ shown <-> b ∈ payload /\ hash b ∈ activeFilters s).
  { intros b. unfold shown. rewrite elem_of_lfilter. unfold sortBlocks.
    rewrite sort_perm. unfold includes. by rewrite bool_decide_eq_true. }
  destruct (applyNewLatencies shown) as [bs|e] eqn:Hl.
  - cbn [filteredBlocks]. unfold applyNewLatencies in Hl.
    destruct (fastest _) as [t|] eqn:Ht; [|done]. injection Hl as <-.
    split.
    { rewrite length_fmap. unfold shown, count_if, sortBlocks.
      by apply Permutation_length, lfilter_perm, sort_perm. }
    apply fastest_Ok in Ht as [Hin Hmin]. exists t. split.
    + apply list_elem_of_fmap in Hin as (b & -> & Hb). exists (with_latency (BigInt (timestamp b)) b).
      split; [|done]. apply list_elem_of_fmap. eauto.
    + intros b' (b & -> & Hb)%list_elem_of_fmap.
      cbn [with_latency hash timestamp receivedLatency sentLatency].
      split; [by apply Hshown|].
      split; [apply Hmin, list_elem_of_fmap; eauto|].
      split; [destruct (receivedLatency b)|destruct (sentLatency b)]; cbn; auto.
  - apply applyNewLatencies_Throw in Hl. intros b Hb Hh.
    assert (Hin : b ∈ shown) by (by apply Hshown). rewrite Hl in Hin. inv Hin.
Qed.
End Properties.

Lemma timestamp_denotes_time_witness : BigInt (getTimestamp 12 345) = 12000000345.
Proof. rewrite (timestamp_denotes_time 12 345); lia. Defined.

Lemma filtered_latencies_witness :
  let s := mkState [] [] true (mkTableSort "date" ASC) false [] ["h"] None None in
  match @networkBlocksReducer (unsorted Block) s (GetBlocksSuccess []) with
  | Throw _ => forall b, b ∈ @nil Block -> hash b ∉ activeFilters s
  | Ok _ => True
  end.
Proof.
  intros s. exact (@filtered_latencies (unsorted Block) s [] ltac:(discriminate)).
Defined.

End Blocks.
