(* ===== verification/AppStore.v ===== *)
(** * The application store

    The loading indicator ([layout/toolbar/loading.reducer.ts]), the nodes, menu
    and node details ([app.reducer.ts], [app.service.ts], [app.effects.ts]), the
    error list ([layout/error-preview]), the feature configuration
    ([shared/constants/config.ts]) and the dispatch of requests to the web node
    ([core/services/rust.service.ts]), all under [src/frontend/src/app]. *)

From stdpp Require Import base list gmap strings.
From S2P Require Import Prelude SharedLib.

(** ** The loading indicator *)

Module Loading.

Definition LoadingState : Type := list string.

(** The cases that [add]. *)
Definition added : list string :=
  ["[App] Init";
   "[Block Production Overview] Get Slots"; "[Block Production Won Slots] Init";
   "STATE_ACTIONS_GET_EARLIEST_SLOT"; "STATE_ACTIONS_GET_ACTIONS";
   "NODES_OVERVIEW_INIT"; "NODES_BOOTSTRAP_INIT"; "NODES_LIVE_INIT";
   "SNARKS_WORK_POOL_INIT"; "SNARKS_WORK_POOL_GET_WORK_POOL_DETAIL";
   "SCAN_STATE_INIT"; "MEMORY_RESOURCES_GET";
   "NETWORK_NODE_DHT_INIT"; "NETWORK_BOOTSTRAP_STATS_INIT";
   "BENCHMARKS_WALLETS_GET_WALLETS"; "BENCHMARKS_WALLETS_GET_ALL_TXS"].

(** The cases that [remove], with the types they remove. *)
Definition removed : list (string * list string) :=
  [("[App] Init Success", ["[App] Init"]);
   ("[Block Production Overview] Get Slots Success", ["[Block Production Overview] Get Slots"]);
   ("[Block Production Overview] Close", ["[Block Production Overview] Close"]);
   ("[Block Production Won Slots] Get Slots Success", ["[Block Production Won Slots] Init"]);
   ("[Block Production Won Slots] Close", ["[Block Production Won Slots] Init"]);
   ("STATE_ACTIONS_GET_EARLIEST_SLOT_SUCCESS", ["STATE_ACTIONS_GET_EARLIEST_SLOT"]);
   ("STATE_ACTIONS_GET_ACTIONS_SUCCESS", ["STATE_ACTIONS_GET_ACTIONS"]);
   ("STATE_ACTIONS_CLOSE", ["STATE_ACTIONS_GET_EARLIEST_SLOT"; "STATE_ACTIONS_GET_ACTIONS"]);
   ("NODES_OVERVIEW_GET_NODES_SUCCESS", ["NODES_OVERVIEW_INIT"]);
   ("NODES_OVERVIEW_CLOSE", ["NODES_OVERVIEW_INIT"]);
   ("NODES_BOOTSTRAP_GET_NODES_SUCCESS", ["NODES_BOOTSTRAP_INIT"]);
   ("NODES_BOOTSTRAP_CLOSE", ["NODES_BOOTSTRAP_INIT"]);
   ("NODES_LIVE_GET_NODES_SUCCESS", ["NODES_LIVE_INIT"]);
   ("NODES_LIVE_CLOSE", ["NODES_LIVE_INIT"]);
   ("SNARKS_WORK_POOL_GET_WORK_POOL_SUCCESS", ["SNARKS_WORK_POOL_INIT"]);
   ("SNARKS_WORK_POOL_GET_WORK_POOL_DETAIL_SUCCESS", ["SNARKS_WORK_POOL_GET_WORK_POOL_DETAIL"]);
   ("SNARKS_WORK_POOL_CLOSE", ["SNARKS_WORK_POOL_INIT"; "SNARKS_WORK_POOL_GET_WORK_POOL_DETAIL"]);
   ("SCAN_STATE_GET_BLOCK_SUCCESS", ["SCAN_STATE_INIT"]);
   ("SCAN_STATE_CLOSE", ["SCAN_STATE_INIT"]);
   ("MEMORY_RESOURCES_GET_SUCCESS", ["MEMORY_RESOURCES_GET"]);
   ("MEMORY_RESOURCES_CLOSE", ["MEMORY_RESOURCES_GET"]);
   ("NETWORK_NODE_DHT_GET_PEERS_SUCCESS", ["NETWORK_NODE_DHT_INIT"]);
   ("NETWORK_NODE_DHT_CLOSE", ["NETWORK_NODE_DHT_INIT"]);
   ("NETWORK_BOOTSTRAP_STATS_GET_BOOTSTRAP_STATS_SUCCESS", ["NETWORK_BOOTSTRAP_STATS_INIT"]);
   ("NETWORK_BOOTSTRAP_STATS_CLOSE", ["NETWORK_BOOTSTRAP_STATS_INIT"]);
   ("BENCHMARKS_WALLETS_GET_WALLETS_SUCCESS", ["BENCHMARKS_WALLETS_GET_WALLETS"]);
   ("BENCHMARKS_GET_ALL_TXS_SUCCESS", ["BENCHMARKS_WALLETS_GET_ALL_TXS"]);
   ("BENCHMARKS_WALLETS_CLOSE",
    ["BENCHMARKS_WALLETS_GET_WALLETS"; "BENCHMARKS_WALLETS_GET_ALL_TXS"])].

Definition add (state : LoadingState) (type : string) : LoadingState := type :: state.

Definition remove (state : LoadingState) (types : list string) : LoadingState :=
  List.filter (fun t => negb (includes types t)) state.

(** The types the action removes. *)
Definition removed_by (type : string) : list string :=
  match List.find (fun r => String.eqb r.1 type) removed with
  | Some r => r.2
  | None => []
  end.

Definition loadingReducer (state : LoadingState) (type : string) : LoadingState :=
  if includes added type then add state type else remove state (removed_by type).

Definition selectLoadingStateLength (state : LoadingState) : nat := length state.

(** The state after the actions. *)
Definition loading (types : list string) : LoadingState := fold_left loadingReducer types [].

(** An entry is shown as loading exactly when its action was dispatched and
    no action that removes it came after. *)
Lemma loading_exact types t :
  t ∈ loading types <->
  t ∈ added /\ exists before after, types = before ++ t :: after /\
    forall f, f ∈ after -> f ∉ added -> t ∉ removed_by f.
Proof.
  unfold loading. induction types as [|f types IH] using rev_ind.
  { split; [intros H; inv H|]. intros (_ & b & a & H & _). by destruct b. }
  rewrite fold_left_app. cbn [fold_left]. unfold loadingReducer at 1, includes.
  case_bool_decide as Hf.
  - unfold add. rewrite elem_of_cons, IH. split.
    + intros [->|(Ht & b & a & -> & Ha)].
      * split; [done|]. exists types, []. split; [done|]. intros g Hg. inv Hg.
      * split; [done|]. exists b, (a ++ [f]). split; [by rewrite <- app_assoc|].
        intros g [Hg|Hg]%elem_of_app; [by apply Ha|]. apply list_elem_of_singleton in Hg as ->.
        done.
    + intros (Ht & b & a & He & Ha). destruct a as [|f' a _] using rev_ind.
      { apply app_inj_tail in He as [_ ->]. by left. }
      right. split; [done|]. exists b, a. rewrite app_comm_cons, app_assoc in He.
      apply app_inj_tail in He as [-> ->]. split; [done|].
      intros g Hg. apply Ha, elem_of_app. by left.
  - unfold remove. rewrite elem_of_lfilter, IH. unfold includes. split.
    + intros [(Ht & b & a & -> & Ha) Hn]. split; [done|]. exists b, (a ++ [f]).
      split; [by rewrite <- app_assoc|]. intros g [Hg|Hg]%elem_of_app; [by apply Ha|].
      apply list_elem_of_singleton in Hg as ->. intros _. by case_bool_decide.
    + intros (Ht & b & a & He & Ha). destruct a as [|f' a _] using rev_ind.
      { apply app_inj_tail in He as [_ ->]. done. }
      rewrite app_comm_cons, app_assoc in He. apply app_inj_tail in He as [-> ->].
      split; [split; [done|]|].
      * exists b, a. split; [done|]. intros g Hg. apply Ha, elem_of_app. by left.
      * rewrite bool_decide_false; [done|]. apply Ha; [|done]. apply elem_of_app. right. by left.
Qed.

(** The pages with loads: the beginning of the types of their actions, and the action that
    closes them. *)
Definition pages : list (string * string) :=
  [("[Block Production Won Slots]", "[Block Production Won Slots] Close");
   ("STATE_ACTIONS", "STATE_ACTIONS_CLOSE"); ("NODES_OVERVIEW", "NODES_OVERVIEW_CLOSE");
   ("NODES_BOOTSTRAP", "NODES_BOOTSTRAP_CLOSE"); ("NODES_LIVE", "NODES_LIVE_CLOSE");
   ("SNARKS_WORK_POOL", "SNARKS_WORK_POOL_CLOSE"); ("SCAN_STATE", "SCAN_STATE_CLOSE");
   ("MEMORY_RESOURCES", "MEMORY_RESOURCES_CLOSE"); ("NETWORK_NODE_DHT", "NETWORK_NODE_DHT_CLOSE");
   ("NETWORK_BOOTSTRAP_STATS", "NETWORK_BOOTSTRAP_STATS_CLOSE"); ("BENCHMARKS", "BENCHMARKS_WALLETS_CLOSE")].

(** The features: the pages, the overview of the block production and the application. *)
Definition feature_names : list string := "[App]" :: "[Block Production Overview]" :: pages.*1.

Definition same_feature (f t : string) : bool :=
  existsb (fun p => String.prefix p f && String.prefix p t) feature_names.

(** The type of an action that brings an answer. *)
Definition is_success (f : string) : bool :=
  let ends s := String.eqb (String.substring (String.length f - String.length s) (String.length s) f) s in
  ends " Success" || ends "_SUCCESS".

Lemma loading_snoc types f t :
  t ∈ loading (types ++ [f]) <->
  if includes added f then t = f \/ t ∈ loading types else t ∈ loading types /\ t ∉ removed_by f.
Proof.
  unfold loading. rewrite fold_left_app. cbn [fold_left]. unfold loadingReducer at 1.
  destruct (includes added f); [apply elem_of_cons|]. unfold remove, includes. by rewrite elem_of_lfilter, negb_true_iff, bool_decide_eq_false.
Qed.

Lemma loading_added types t : t ∈ loading types -> t ∈ added.
Proof. by intros [? _]%loading_exact. Qed.

Lemma removed_by_elem f t : t ∈ removed_by f -> exists ts, (f, ts) ∈ removed /\ t ∈ ts.
Proof.
  unfold removed_by. destruct (List.find _ removed) as [[g ts]|] eqn:E; [|by intros ?%not_elem_of_nil].
  apply List.find_some in E as [Hin Hf]. cbn in Hf. apply String.eqb_eq in Hf as ->.
  exists ts. split; [by apply list_elem_of_In|done].
Qed.

(** What the two tables have to satisfy, decided. *)
Lemma closes_checked p f t :
  (p, f) ∈ pages -> t ∈ added -> includes added f = false /\ includes (removed_by f) t = String.prefix p t.
Proof.
  intros Hp Ht. assert (H : forallb (fun pf => forallb (fun t =>
    negb (includes added pf.2) && Bool.eqb (includes (removed_by pf.2) t) (String.prefix pf.1 t)) added) pages = true)
    by (vm_compute; reflexivity).
  rewrite forallb_forall in H. specialize (H _ ltac:(by apply list_elem_of_In)). cbn [fst snd] in H.
  rewrite forallb_forall in H. specialize (H _ ltac:(by apply list_elem_of_In)).
  apply andb_true_iff in H as [H1 H2]. split; [by apply negb_true_iff|by apply Bool.eqb_prop].
Qed.

Lemma removals_checked f ts t : (f, ts) ∈ removed -> t ∈ ts -> same_feature f t = true.
Proof.
  intros Hf Ht. assert (H : forallb (fun r => forallb (same_feature r.1) r.2) removed = true) by (vm_compute; reflexivity).
  rewrite forallb_forall in H. specialize (H _ ltac:(by apply list_elem_of_In)). cbn [fst snd] in H.
  rewrite forallb_forall in H. apply H. by apply list_elem_of_In.
Qed.

Definition answers (t : string) : list string :=
  List.filter (fun f => is_success f && includes (removed_by f) t && negb (includes added f)) removed.*1.

Lemma answers_checked t : t ∈ added -> exists f, answers t = [f].
Proof.
  intros Ht. assert (H : forallb (fun t => match answers t with [_] => true | _ => false end) added = true)
    by (vm_compute; reflexivity).
  rewrite forallb_forall in H. specialize (H _ ltac:(by apply list_elem_of_In)).
  destruct (answers t) as [|f [|]]; by eauto.
Qed.

(** A load that an action ends is one the action removes. *)
Lemma ended types f t : t ∈ loading types -> t ∉ loading (types ++ [f]) -> includes added f = false /\ t ∈ removed_by f.
Proof.
  rewrite loading_snoc. destruct (includes added f); [intros Ht Hn; destruct Hn; by right|].
  intros Ht Hn. split; [done|]. destruct (decide (t ∈ removed_by f)); [done|]. by destruct Hn.
Qed.

Lemma answers_elem f t : f ∈ answers t <-> is_success f = true /\ t ∈ removed_by f /\ includes added f = false.
Proof.
  unfold answers. rewrite elem_of_lfilter, !andb_true_iff, negb_true_iff. unfold includes at 1.
  rewrite bool_decide_eq_true. split; [tauto|]. intros (Hs & Ht & Ha). split; [|tauto].
  destruct (removed_by_elem f t Ht) as (ts & Hin & _). apply list_elem_of_fmap. by exists (f, ts).
Qed.

(** C8: whatever was dispatched before, the action that closes a page (the overview of the
    block production apart) ends exactly the loads of that page, an action only ever ends
    loads of its own feature, and every load is ended by exactly one kind of answer. *)
Theorem loads_end types t :
  (forall p f, (p, f) ∈ pages ->
     (t ∈ loading (types ++ [f]) <-> t ∈ loading types /\ String.prefix p t = false)) /\
  (forall f, t ∈ loading types -> t ∉ loading (types ++ [f]) -> same_feature f t = true) /\
  (t ∈ loading types ->
     exists f, is_success f = true /\ t ∉ loading (types ++ [f]) /\
       forall g, is_success g = true -> t ∉ loading (types ++ [g]) -> g = f).
Proof.
  split; [|split].
  - intros p f Hp. rewrite loading_snoc. split.
    + intros H. assert (Ht : t ∈ added).
      { destruct (includes added f) eqn:E; [|by apply (loading_added types), H].
        destruct H as [->|H]; [|by apply (loading_added types)]. unfold includes in E. by case_bool_decide. }
      destruct (closes_checked p f t Hp Ht) as [Ha Hr]. rewrite Ha in H. destruct H as [H Hn]. split; [done|].
      rewrite <- Hr. unfold includes. by rewrite bool_decide_false.
    + intros [H Hn]. destruct (closes_checked p f t Hp (loading_added _ _ H)) as [Ha Hr]. rewrite Ha.
      split; [done|]. rewrite Hn in Hr. unfold includes in Hr. by case_bool_decide.
  - intros f Ht Hn. destruct (ended types f t Ht Hn) as [_ Hr].
    destruct (removed_by_elem f t Hr) as (ts & Hin & Hts). by apply (removals_checked f ts).
  - intros Ht. destruct (answers_checked t (loading_added _ _ Ht)) as [f Hf]. exists f.
    assert (Hin : f ∈ answers t) by (rewrite Hf; by left). apply answers_elem in Hin as (Hs & Hr & Ha).
    split; [done|]. split; [rewrite loading_snoc, Ha; by intros [_ ?]|]. intros g Hg Hn.
    destruct (ended types g t Ht Hn) as [Hga Hgr]. apply (list_elem_of_singleton g f). rewrite <- Hf.
    by apply answers_elem.
Qed.

(** Closing the overview page does not end its load. *)
Lemma overview_close_keeps_loading :
  loading ["[Block Production Overview] Get Slots"; "[Block Production Overview] Close"] =
  ["[Block Production Overview] Get Slots"].
Proof. vm_compute. done. Qed.

End Loading.

(** ** The errors *)

Module ErrorPreview.

Inductive Action := Add (payload : MinaError) | MarkErrorsAsSeen.

Definition see (e : MinaError) : MinaError :=
  {| err_type := err_type e; err_message := err_message e; err_status := err_status e;
     err_timestamp := err_timestamp e; err_seen := true |}.

Definition errorReducer (errors : list MinaError) (a : Action) : list MinaError :=
  match a with
  | Add payload => payload :: errors
  | MarkErrorsAsSeen => see <$> errors
  end.

End ErrorPreview.

(** ** The features of a node *)

Module Config.

(** [CONFIG.configs] and [CONFIG.globalConfig?.features]. *)
Record Env := mkEnv { configs : list MinaNode; globalFeatures : option FeaturesConfig }.

Section Config.
Context `{HasValue} (env : Env) (isBrowser : bool).

Definition getFeaturesConfig (config : option MinaNode) : option FeaturesConfig :=
  match configs env with
  | [] => globalFeatures env
  | _ =>
    match config ≫= features with
    | Some f => Some f
    | None => globalFeatures env
    end
  end.

(** [Object.keys]: the keys of an array are its indices. *)
Definition keys (f : FeaturesConfig) : list string :=
  match f with
  | FArray l => (fun i => show (Z.of_nat i)) <$> seq 0 (length l)
  | FObject l => l.*1
  end.

Definition getAvailableFeatures (config : option MinaNode) : result (list string) :=
  match getFeaturesConfig config with
  | Some f => Ok (keys f)
  | None => Throw "Cannot convert undefined or null to object"
  end.

(** The default argument is the first configuration. *)
Definition getFirstFeature (arg : option MinaNode) : result (option string) :=
  if negb isBrowser then Ok (Some "")
  else
    let config := match arg with Some c => Some c | None => head (configs env) end in
    match config ≫= features with
    | Some (FArray l) => Ok (head l)
    | _ =>
      match getFeaturesConfig config with
      | Some f => Ok (head (keys f))
      | None => Throw "Cannot convert undefined or null to object"
      end
    end.

(** [features[feature]]; an array has no value under the name of a feature. *)
Definition sub_features (f : FeaturesConfig) (feature : string) : option (list string) :=
  match f with
  | FArray _ => None
  | FObject l => snd <$> List.find (fun kv => String.eqb kv.1 feature) l
  end.

Definition isFeatureEnabled (config : MinaNode) (feature : string) : result bool :=
  match features config with
  | Some (FArray l) => Ok (hasValue (head l))
  | _ =>
    match getFeaturesConfig (Some config) with
    | Some f => Ok (hasValue (sub_features f feature))
    | None => Throw "Cannot read properties of undefined"
    end
  end.

Definition isSubFeatureEnabled (config : MinaNode) (feature subFeature : string) : result bool :=
  match getFeaturesConfig (Some config) with
  | None => Throw "Cannot read properties of undefined"
  | Some f =>
    Ok (hasValue (sub_features f feature) &&
        match sub_features f feature with
        | Some l => includes l subFeature
        | None => false
        end)
  end.

(** A node configured with an array has every feature as soon as the array is
    not empty, whatever it lists. *)
Lemma array_enables_everything config l f feature :
  features config = Some (FArray (f :: l)) -> isFeatureEnabled config feature = Ok true.
Proof. intros Hf. unfold isFeatureEnabled. rewrite Hf. cbn. by rewrite hasValue_spec. Qed.

(** A feature with an enabled sub-feature is itself enabled and is listed
    among the available features of the node. *)
Theorem sub_feature_implies_feature config feature sub :
  isSubFeatureEnabled config feature sub = Ok true ->
  (forall l, features config <> Some (FArray l)) ->
  isFeatureEnabled config feature = Ok true /\
  exists fs, getAvailableFeatures (Some config) = Ok fs /\ feature ∈ fs.
Proof.
  unfold isSubFeatureEnabled, isFeatureEnabled, getAvailableFeatures. intros Hs Hna.
  destruct (getFeaturesConfig (Some config)) as [f|] eqn:Ef; [|done].
  injection Hs as Hs. apply andb_prop in Hs as [Hv _]. split.
  { destruct (features config) as [[l|l]|]; [by destruct (Hna l)|by rewrite Hv..]. }
  exists (keys f). split; [done|]. rewrite hasValue_spec in Hv.
  destruct f as [l|l]; cbn in *; [done|].
  destruct (List.find _ l) as [[k v]|] eqn:E; [|done].
  apply find_Some_elem in E as [Hin Hk]. cbn in Hk. apply String.eqb_eq in Hk as ->.
  apply list_elem_of_fmap. by exists (feature, v).
Qed.

End Config.

Lemma sub_feature_implies_feature_witness :
  @isFeatureEnabled has_value
    (mkEnv [mkMinaNode "n" None None None None false false]
       (Some (FObject [("network", ["messages"])])))
    (mkMinaNode "n" None None None None false false) "network" = Ok true.
Proof.
  refine (proj1 (@sub_feature_implies_feature has_value _ _ "network" "messages" _ _));
    [vm_compute; reflexivity|intros l; discriminate].
Defined.

End Config.

(** ** Requests of the node *)

Module Rust.

(** Where a request goes. *)
Inductive Target :=
| Http (url : string)
| WebNode (stream : string)
| WebNodeActions (path : string).

(** The streams of the web node by path. *)
Definition web_node_paths : list (string * string) :=
  [("/status", "status$"); ("/state/peers", "peers$");
   ("/state/message-progress", "messageProgress$"); ("/stats/sync?limit=1", "sync$");
   ("/stats/block_producer", "blockProducerStats$"); ("/transaction-pool", "transactionPool$");
   ("/accounts", "accounts$"); ("/best-chain-user-commands", "bestChainUserCommands$");
   ("/build_env", "envBuildDetails$")].

Definition unsupported (path : string) : string :=
  "Web node doesn't support " +:+ String (Ascii.ascii_of_nat 34) path +:+
  String (Ascii.ascii_of_nat 34) " path!".

Definition getFromWebNode (path : string) : result Target :=
  if string_includes "/stats/actions" path then Ok (WebNodeActions path)
  else match List.find (fun p => String.eqb p.1 path) web_node_paths with
       | Some p => Ok (WebNode p.2)
       | None => Throw (unsupported path)
       end.

Definition show_url (u : option string) : string :=
  match u with Some s => s | None => "undefined" end.

Definition get (n : MinaNode) (path : string) : result Target :=
  if isWebNode n then getFromWebNode path else Ok (Http (show_url (node_url n) +:+ path)).

Definition postToWebNode (path : string) : result Target :=
  if String.eqb path "/send-payment" then Ok (WebNode "sendPayment$")
  else Throw (unsupported path).

Definition post (n : MinaNode) (path : string) : result Target :=
  if isWebNode n then postToWebNode path else Ok (Http (show_url (node_url n) +:+ path)).

Definition getMemProfiler (n : MinaNode) (path : string) : Target :=
  Http (show_url (memoryProfiler n) +:+ path).

End Rust.

(** ** Nodes, menu and node details *)

Module App.

Inductive NodeStatus := PENDING | BOOTSTRAP | CATCHUP | SYNCED | OFFLINE.

#[export] Instance NodeStatus_eq_dec : EqDecision NodeStatus.
Proof. solve_decision. Defined.

Inductive MinaNetwork := MAINNET | DEVNET | UNKNOWN.

Record Menu := mkMenu { collapsed : bool; isMobile : bool; open : bool }.

(** [AppNodeDetails]; the time of the next block is kept in nanoseconds, the
    code divides it by a million. *)
Record NodeDetails := mkDetails {
  status : NodeStatus;
  blockHeight : option Z;
  blockTime : option Z;
  peersConnected : nat;
  peersDisconnected : nat;
  peersConnecting : nat;
  transactions : Z;
  snarks : Z;
  producingBlockAt : option Z;
  producingBlockGlobalSlot : option Z;
  producingBlockStatus : option WonSlotsStatus;
  chainId : option string;
  network : option MinaNetwork
}.

Definition pendingDetails : NodeDetails :=
  mkDetails PENDING None None 0 0 0 0 0 None None None None None.

Definition offlineDetails : NodeDetails :=
  mkDetails OFFLINE None None 0 0 0 0 0 None None None None None.

(** [AppState]; the build information is passed on unread. *)
Record State := mkState {
  menu : Menu;
  nodes : list MinaNode;
  activeNode : option MinaNode;
  activeNodeDetails : NodeDetails;
  envBuild : option string
}.

(** The entries of the local storage the reducer reads and writes. *)
Record Storage := mkStorage {
  menu_collapsed : option bool;
  custom_nodes : option (list MinaNode)
}.

Inductive Action :=
| Init
| InitSuccess (active : option MinaNode) (ns : list MinaNode)
| ChangeActiveNode (n : MinaNode)
| GetNodeDetails
| GetNodeDetailsSuccess (details : NodeDetails)
| GetNodeEnvBuild
| GetNodeEnvBuildSuccess (build : option string)
| DeleteNode (n : MinaNode)
| AddNode (n : MinaNode)
| ChangeMenuCollapsing (isCollapsing : bool)
| ChangeSubMenus (subMenus : list string)
| ToggleMobile (mobile : bool)
| ToggleMenuOpening.

(** [storage] is [None] where there is no local storage. *)
Definition initialState (storage : option Storage) : State :=
  {| menu := mkMenu (default false (storage ≫= menu_collapsed)) false true;
     nodes := []; activeNode := None; activeNodeDetails := pendingDetails; envBuild := None |}.

(** [JSON.parse(getLocalStorage()?.getItem('custom_nodes') ?? '[]')] *)
Definition customNodes (storage : option Storage) : list MinaNode :=
  default [] (storage ≫= custom_nodes).

Definition set_custom (storage : option Storage) (ns : list MinaNode) : option Storage :=
  (fun st => mkStorage (menu_collapsed st) (Some ns)) <$> storage.

Definition with_menu (s : State) (m : Menu) : State :=
  mkState m (nodes s) (activeNode s) (activeNodeDetails s) (envBuild s).

Definition not_named (n : MinaNode) (m : MinaNode) : bool :=
  negb (String.eqb (node_name m) (node_name n)).

Definition appReducer (w : State * option Storage) (a : Action) : State * option Storage :=
  let '(state, storage) := w in
  match a with
  | InitSuccess active ns =>
    (mkState (menu state) ns active (activeNodeDetails state) (envBuild state), storage)
  | ChangeActiveNode n =>
    (mkState (menu state) (nodes state) (Some n) (activeNodeDetails state) (envBuild state),
     storage)
  | GetNodeDetailsSuccess details =>
    (mkState (menu state) (nodes state) (activeNode state) details (envBuild state), storage)
  | ChangeMenuCollapsing b =>
    (with_menu state (mkMenu b (isMobile (menu state)) (open (menu state))),
     (fun st => mkStorage (Some b) (custom_nodes st)) <$> storage)
  | ToggleMobile b =>
    (with_menu state (mkMenu (collapsed (menu state)) b (negb b)), storage)
  | ToggleMenuOpening =>
    (with_menu state (mkMenu (collapsed (menu state)) (isMobile (menu state))
                        (negb (open (menu state)))), storage)
  | AddNode n =>
    (mkState (menu state) (n :: nodes state) (activeNode state) (activeNodeDetails state)
       (envBuild state),
     set_custom storage (n :: customNodes storage))
  | DeleteNode n =>
    let ns := List.filter (not_named n) (nodes state) in
    (mkState (menu state) ns
       (match activeNode state with
        | Some a => if String.eqb (node_name a) (node_name n) then head ns else Some a
        | None => None
        end) (activeNodeDetails state) (envBuild state),
     set_custom storage (List.filter (not_named n) (customNodes storage)))
  | GetNodeEnvBuildSuccess b =>
    (mkState (menu state) (nodes state) (activeNode state) (activeNodeDetails state) b, storage)
  | Init | GetNodeDetails | GetNodeEnvBuild | ChangeSubMenus _ => w
  end.

(** *** Service *)

Definition getNodes (configs : list MinaNode) (storage : option Storage) : list MinaNode :=
  configs ++ customNodes storage.

(** [nodeName] is the parameter [node] of the address. *)
Definition getActiveNode (nodeName : option string) (ns : list MinaNode) : option MinaNode :=
  match List.find (fun c => bool_decide (Some (node_name c) = nodeName)) ns with
  | Some n => Some n
  | None => head ns
  end.

Definition getNetwork (chain_id : option string) : MinaNetwork :=
  if bool_decide (chain_id =
       Some "a7351abc7ddf2ea92d1b38cc8e636c271c1dfd2c081c637f62ebc2af34eb7cc1") then MAINNET
  else if bool_decide (chain_id =
       Some "29936104443aaf264a7f0192ac64b1c7173198c1ed404c1bcff5e562e05eb7f6") then DEVNET
  else UNKNOWN.

Record Attempt := mkAttempt {
  slot_time : Z; global_slot : Z; attempt_status : WonSlotsStatus
}.

Record NodeDetailsResponse := mkResponse {
  best_tip_height : option Z;
  sync_time : Z;
  sync_phase : string;
  pool_transactions : Z;
  connection_statuses : list string;
  pool_snarks : Z;
  chain_id : option string;
  current_attempt : option Attempt;
  previous_attempt : option Attempt
}.

Definition getStatus (phase : string) : NodeStatus :=
  if String.eqb phase "Bootstrap" then BOOTSTRAP
  else if String.eqb phase "Catchup" then CATCHUP
  else if String.eqb phase "Synced" then SYNCED
  else PENDING.

Definition mapDetails (data : NodeDetailsResponse) : NodeDetails :=
  let peers st := count_if (String.eqb st) (connection_statuses data) in
  {| status := getStatus (sync_phase data);
     blockHeight := best_tip_height data;
     blockTime := Some (sync_time data);
     peersConnected := peers "Connected";
     peersDisconnected := peers "Disconnected";
     peersConnecting := peers "Connecting";
     snarks := pool_snarks data;
     transactions := pool_transactions data;
     chainId := chain_id data;
     network := Some (getNetwork (chain_id data));
     producingBlockAt := slot_time <$> current_attempt data;
     producingBlockGlobalSlot := global_slot <$> current_attempt data;
     producingBlockStatus := attempt_status <$> current_attempt data |}.

Definition isInProduction (s : WonSlotsStatus) : bool :=
  negb (includes [Discarded; Orphaned; Canonical] s).

(** [notifyPrevBlockChanged]: the remembered attempt and the reported one. *)
Definition notifyPrevBlockChanged (webNode : bool) (previous : option Attempt)
    (data : NodeDetailsResponse) : option Attempt * option Attempt :=
  if negb webNode then (previous, None)
  else
    (previous_attempt data,
     match previous, previous_attempt data with
     | Some p, Some q =>
       if xorb (isInProduction (attempt_status p)) (isInProduction (attempt_status q))
       then Some q else None
     | _, _ => None
     end).

(** *** Effects *)

(** [init$]: the nodes, the active one (which the request service switches to)
    and the action. *)
Definition init_effect (configs : list MinaNode) (storage : option Storage)
    (nodeName : option string) : Action :=
  let ns := getNodes configs storage in
  InitSuccess (getActiveNode nodeName ns) ns.

(** [getNodeDetails$]: the field [requestInProgress] and whether a request is in
    flight. *)
Record EffectState := mkEffect { requestInProgress : bool; inFlight : bool }.

Inductive Event := OnGetNodeDetails | OnDetails (o : outcome NodeDetails).

Definition getNodeDetails (now : string) (e : EffectState) (ev : Event)
    : EffectState * list (dispatched Action) :=
  match ev with
  | OnGetNodeDetails => (if requestInProgress e then e else mkEffect true true, [])
  | OnDetails o =>
    if inFlight e
    then (mkEffect false false,
          catchErrorAndRepeat now GENERIC (GetNodeDetailsSuccess offlineDetails)
            match o with Next d => Next (GetNodeDetailsSuccess d) | Failed err => Failed err end)
    else (e, [])
  end.

Definition getNodeEnvBuild (now : string) (o : outcome string) : list (dispatched Action) :=
  catchErrorAndRepeat now RUST (GetNodeEnvBuildSuccess None)
    match o with Next b => Next (GetNodeEnvBuildSuccess (Some b)) | Failed err => Failed err end.

(** *** Custom nodes *)

Inductive node_edit : Type := EAdd (n : MinaNode) | EDelete (n : MinaNode).

Definition edit_action (e : node_edit) : Action :=
  match e with EAdd n => AddNode n | EDelete n => DeleteNode n end.

(** The start of the application and then the edits. *)
Definition session (configs : list MinaNode) (st : Storage) (nodeName : option string)
    (edits : list node_edit) : State * option Storage :=
  fold_left appReducer (edit_action <$> edits)
    (appReducer (initialState (Some st), Some st) (init_effect configs (Some st) nodeName)).

Definition deletes_no_config (configs : list MinaNode) (e : node_edit) : Prop :=
  match e with
  | EAdd _ => True
  | EDelete n => forall c, c ∈ configs -> node_name c <> node_name n
  end.

Record consistent (configs : list MinaNode) (w : State * option Storage) : Prop := {
  consistent_nodes : nodes w.1 ≡ₚ getNodes configs w.2;
  consistent_storage : is_Some w.2;
  consistent_active : forall a, activeNode w.1 = Some a -> a ∈ nodes w.1
}.

Lemma head_elem {A} (l : list A) a : head l = Some a -> a ∈ l.
Proof. destruct l; [done|]. intros [= ->]. by left. Qed.

Lemma getActiveNode_elem name ns a : getActiveNode name ns = Some a -> a ∈ ns.
Proof.
  unfold getActiveNode. destruct (List.find _ ns) as [n|] eqn:E; [|apply head_elem].
  intros [= ->]. by apply find_Some_elem in E as [? _].
Qed.

Lemma edit_consistent configs w e :
  consistent configs w -> deletes_no_config configs e ->
  consistent configs (appReducer w (edit_action e)).
Proof.
  destruct w as [s storage]. intros [Hn [st Hst] Ha] Hd. cbn [fst snd] in *. subst storage.
  destruct e as [n|n]; split; cbn [edit_action appReducer fst snd].
  - cbn. rewrite Hn. unfold getNodes. cbn. by rewrite Permutation_middle.
  - by eexists.
  - cbn. intros a Hact. right. by apply Ha.
  - cbn. rewrite (lfilter_perm _ _ _ Hn). unfold getNodes. cbn. rewrite List.filter_app.
    rewrite (lfilter_all (not_named n) configs); [done|].
    intros c Hc. unfold not_named. by apply negb_true_iff, String.eqb_neq, Hd.
  - by eexists.
  - cbn. intros a. destruct (activeNode s) as [b|]; [|done].
    destruct (String.eqb (node_name b) (node_name n)) eqn:Hname; [apply head_elem|].
    intros [= ->]. apply elem_of_lfilter. split; [by apply Ha|]. unfold not_named. by rewrite Hname.
Qed.

(** After any sequence of added and deleted nodes in which no configured
    node is deleted, the listed nodes are the ones the next start of the
    application will list, and the active node is one of them. *)
Theorem custom_nodes_persist configs st nodeName edits :
  Forall (deletes_no_config configs) edits ->
  let '(s, storage) := session configs st nodeName edits in
  nodes s ≡ₚ getNodes configs storage /\
  forall a, activeNode s = Some a -> a ∈ nodes s.
Proof.
  intros He. cut (consistent configs (session configs st nodeName edits)).
  { destruct (session _ _ _ _) as [s storage]. by intros [? _ ?]. }
  unfold session. set (w := appReducer _ _). assert (Hw : consistent configs w).
  { split; [done|by eexists|]. intros a Ha. by apply getActiveNode_elem in Ha. }
  clearbody w. revert w Hw. induction He as [|e edits He _ IH]; intros w Hw; [done|].
  rewrite fmap_cons. cbn [fold_left]. apply IH. by apply edit_consistent.
Qed.

(** *** One request for the details at a time *)

Inductive effect_step : EffectState -> EffectState -> Prop :=
| effect_event now e ev : effect_step e (getNodeDetails now e ev).1.

(** In every reachable state of the effect the flag says whether a request
    is in flight, and every outcome, an error included, is followed by a new
    request at the next action. *)
Theorem node_details_recover e now o :
  rtc effect_step (mkEffect false false) e ->
  requestInProgress e = inFlight e /\
  (inFlight e = true ->
   let e' := (getNodeDetails now e (OnDetails o)).1 in
   (getNodeDetails now e' OnGetNodeDetails).1 = mkEffect true true).
Proof.
  intros Hr. split; [|intros Hf; cbn; by rewrite Hf]. revert e Hr.
  apply (rtc_ind_r (fun e => requestInProgress e = inFlight e)); [done|].
  intros e e' _ [now' e1 ev] IH. destruct ev; cbn.
  - destruct (requestInProgress e1) eqn:E; cbn; congruence.
  - destruct (inFlight e1) eqn:E; cbn; congruence.
Qed.

Lemma custom_nodes_persist_witness :
  let n name := mkMinaNode name None None None None true false in
  nodes (session [n "a"] (mkStorage None None) None [EAdd (n "b"); EAdd (n "c"); EDelete (n "b")]).1
  ≡ₚ [n "a"; n "c"].
Proof.
  set (n := fun name => mkMinaNode name None None None None true false). cbn zeta.
  pose proof (custom_nodes_persist [n "a"] (mkStorage None None) None
    [EAdd (n "b"); EAdd (n "c"); EDelete (n "b")]) as H.
  refine (proj1 (H _)). repeat constructor. intros c ->%list_elem_of_singleton. discriminate.
Defined.

Lemma node_details_recover_witness :
  requestInProgress (mkEffect true true) = true.
Proof.
  refine (proj1 (node_details_recover (mkEffect true true) "" (Failed (mkJsError "" None "")) _)).
  apply rtc_once. exact (effect_event "" (mkEffect false false) OnGetNodeDetails).
Defined.

End App.
