(* ===== verification/StateActions.v ===== *)
(** * Action statistics

    [src/frontend/src/app/features/state/actions]: the grouping of the recorded
    actions by the words of their names and the totals of every group
    ([state-actions.service.ts]), the store ([state-actions.reducer.ts]) and the
    effects ([state-actions.effects.ts]).

    A JavaScript object used as a map is an association list in the order of
    insertion (the names are no array indices). Durations are kept in
    nanoseconds; the code divides them by a billion. *)

From Stdlib Require Import QArith.
From stdpp Require Import base list gmap strings.
From S2P Require Import Prelude SharedLib.
Open Scope nat_scope.

Module StateActions.

(** ** Objects *)

Section Objects.
Context {V : Type}.

Definition obj := list (string * V).

Fixpoint obj_get (k : string) (o : obj) : option V :=
  match o with
  | [] => None
  | (k', v) :: o' => if String.eqb k' k then Some v else obj_get k o'
  end.

(** [o[k] = v] keeps the place of an existing key. *)
Fixpoint obj_set (k : string) (v : V) (o : obj) : obj :=
  match o with
  | [] => [(k, v)]
  | (k', v') :: o' => if String.eqb k' k then (k', v) :: o' else (k', v') :: obj_set k v o'
  end.

(** [{ ...o, ...p }] *)
Definition obj_spread (o p : obj) : obj := fold_left (fun acc kv => obj_set kv.1 kv.2 acc) p o.
End Objects.
Arguments obj V : clear implicits.

(** ** Data *)

(** The counters of one range of times of an action. *)
Record Range := mkRange { total_calls : Z; total_duration : Z; max_duration : Z }.

(** The field [stats] of the response: the ranges by action name. *)
Definition Stats : Type := obj (list (string * Range)).

Record Column := mkColumn {
  c_count : Z; maxTime : Z; c_meanTime : Q; c_totalTime : Z; squareCount : nat
}.

Record GroupAction := mkAction {
  a_display : bool; title : string; fullTitle : string; a_totalTime : Z; a_meanTime : Q;
  totalCount : Z; columns : list Column
}.

Record Group := mkGroup {
  groupName : string; count : Z; totalTime : Z; meanTime : Q;
  actions : list GroupAction; display : bool
}.

(** [StateActionsStats], empty before the first answer. *)
Record ActionsStats := mkStats {
  time : option string; level : option Z; hash : option string;
  cpuIdle : option Z; cpuBusy : option Z
}.

(** ** Service *)

Definition is_upper (c : Ascii.ascii) : bool :=
  let n := Ascii.nat_of_ascii c in (65 <=? n) && (n <=? 90).

(** [name.split(/(?=[A-Z])/)]: a word starts at every capital letter but the
    first character. *)
Fixpoint split_words (s : string) : list string :=
  match s with
  | EmptyString => [""]
  | String c s' =>
    match s' with
    | EmptyString => [String c ""]
    | String c' _ =>
      if is_upper c' then String c "" :: split_words s'
      else match split_words s' with
           | w :: ws => String c w :: ws
           | [] => [String c ""]
           end
    end
  end.

(** [groups[k] = groups[k] || []; groups[k].push(name)] *)
Definition push_group (k name : string) (groups : obj (list string)) : obj (list string) :=
  match obj_get k groups with
  | Some names => obj_set k (names ++ [name]) groups
  | None => obj_set k [name] groups
  end.

(** The body of the reduction over the names: every build-up of the words is a
    group of the name. *)
Definition add_prefixes (groups : obj (list string)) (name : string) : obj (list string) :=
  (fold_left (fun '(buildup, groups) slice =>
     let buildup := buildup +:+ slice in (buildup, push_group buildup name groups))
     (split_words name) ("", groups)).2.

Definition prefixGroups (names : list string) : obj (list string) :=
  fold_left add_prefixes names [].

Definition sortedGroups (names : list string) : list (string * list string) :=
  js_sort (fun a b => Z.of_nat (String.length b.1) - Z.of_nat (String.length a.1))%Z
    (prefixGroups names).

(** The reduction over the groups with more than one name: the longest prefix
    takes the names no longer prefix has taken, when there are at least two. *)
Definition take_group (st : obj (list string) * gset string) (g : string * list string)
    : obj (list string) * gset string :=
  let '(groups, used) := st in
  let names := List.filter (fun a => negb (bool_decide (a ∈ used))) g.2 in
  if 1 <? length names
  then (obj_set g.1 names groups, list_to_set names ∪ used)
  else (groups, used).

Definition getGroupNames (names : list string) : obj (list string) :=
  let '(finalGroups, usedActions) :=
    fold_left take_group
      (List.filter (fun g => 1 <? length g.2) (sortedGroups names)) ([], ∅) in
  let ungrouped := List.filter (fun a => negb (bool_decide (a ∈ usedActions))) names in
  obj_spread finalGroups (fold_left (fun o name => obj_set name [name] o) ungrouped []).

Definition getMeanTime (duration calls : Z) : Q :=
  if negb (duration =? 0)%Z && negb (calls =? 0)%Z then inject_Z duration / inject_Z calls else 0.

(** [while (calls >= 1) { calls /= 10; squareCount++ }]: dividing by ten again
    and again reaches a number below [1] exactly when the integer quotient is
    [0].  A turn per unit of [calls] is enough. *)
Fixpoint square_loop (fuel : nat) (calls : Z) : nat :=
  match fuel with
  | 0 => 0
  | S fuel' => if (1 <=? calls)%Z then S (square_loop fuel' (calls / 10)%Z) else 0
  end.

Definition getSquareCount (calls : Z) : nat := Nat.min (square_loop (Z.to_nat calls) calls) 8.

Definition mapColumn (r : string * Range) : Column :=
  {| c_count := total_calls r.2;
     c_totalTime := total_duration r.2;
     maxTime := max_duration r.2;
     c_meanTime := getMeanTime (total_duration r.2) (total_calls r.2);
     squareCount := getSquareCount (total_calls r.2) |}.

(** [s.replace(p, '')]: the first occurrence. *)
Fixpoint replace_first (p s : string) : string :=
  if string_prefix p s then string_drop (String.length p) s
  else match s with
       | EmptyString => EmptyString
       | String c s' => String c (replace_first p s')
       end.

Definition mapAction (group : string) (a : string * list (string * Range)) : GroupAction :=
  let cols := mapColumn <$> a.2 in
  let tc := sumZ (c_count <$> cols) in
  let tt := sumZ (c_totalTime <$> cols) in
  {| title := if String.eqb a.1 group then "" else replace_first group a.1;
     fullTitle := a.1;
     totalCount := tc;
     a_totalTime := tt;
     a_meanTime := getMeanTime tt tc;
     columns := cols;
     a_display := true |}.

Definition mapGroup (response : Stats) (g : string * list string) : Group :=
  let acts := mapAction g.1 <$> List.filter (fun a => includes g.2 a.1) response in
  let c := sumZ (totalCount <$> acts) in
  let tt := sumZ (a_totalTime <$> acts) in
  {| groupName := g.1; actions := acts; count := c; totalTime := tt;
     meanTime := getMeanTime tt c; display := true |}.

Definition mapActions (response : Stats) : list Group :=
  mapGroup response <$> getGroupNames response.*1.

(** [readable] is [toReadableDate] of a time in nanoseconds. *)
Definition mapActionStats (readable : Z -> string) (block_hash : option string)
    (block_level t cpu_busy cpu_idle : option Z) : ActionsStats :=
  {| hash := block_hash; level := block_level;
     time := Some (match t with
                   | Some n => if truthyZ n then readable n else "-"
                   | None => "-"
                   end);
     cpuBusy := cpu_busy; cpuIdle := cpu_idle |}.

(** ** Store *)

Record State := mkState {
  groups : list Group;
  filteredGroups : list Group;
  openSidePanel : bool;
  earliestSlot : js Z;
  activeSlot : option Z;
  currentSort : TableSort;
  activeSearch : string;
  stats : ActionsStats
}.

Inductive Action :=
| GetEarliestSlot (force : bool)
| GetEarliestSlotSuccess (payload : js Z)
| GetActions (slot : option Z)
| GetActionsSuccess (s : ActionsStats) (gs : list Group)
| Close
| ToggleSidePanel
| Sort (payload : TableSort)
| Search (payload : string).

Definition show_action (b : bool) (a : GroupAction) : GroupAction :=
  mkAction b (title a) (fullTitle a) (a_totalTime a) (a_meanTime a) (totalCount a) (columns a).

Definition show_group (b : bool) (acts : list GroupAction) (g : Group) : Group :=
  mkGroup (groupName g) (count g) (totalTime g) (meanTime g) acts b.

Definition searchActionsInGroups (toSearch : string) (gs : list Group) : list Group :=
  if negb (truthy_str toSearch) then (fun g => show_group true (actions g) g) <$> gs
  else
    (fun g =>
       let acts := (fun a => show_action
         (string_includes (toLowerCase toSearch) (toLowerCase (fullTitle a))) a) <$> actions g in
       show_group (existsb a_display acts) acts g) <$> gs.

Section Reducer.
Context `{TableSorter Group}.

Definition sortGroups (gs : list Group) (ts : TableSort) : list Group := sort gs ts [] false.

Definition initialState (isMobile : bool) : State :=
  {| groups := []; filteredGroups := []; stats := mkStats None None None None None;
     openSidePanel := negb isMobile; activeSlot := None; earliestSlot := Undefined;
     activeSearch := ""; currentSort := mkTableSort "totalTime" DSC |}.

Definition reducer (isMobile : bool) (s : State) (a : Action) : State :=
  match a with
  | GetActions slot =>
    mkState (groups s) (filteredGroups s) (openSidePanel s) (earliestSlot s) slot
      (currentSort s) (activeSearch s) (stats s)
  | GetActionsSuccess st payload =>
    let gs := sortGroups payload (currentSort s) in
    mkState gs (searchActionsInGroups (activeSearch s) gs) (openSidePanel s) (earliestSlot s)
      (activeSlot s) (currentSort s) (activeSearch s) st
  | ToggleSidePanel =>
    mkState (groups s) (filteredGroups s) (negb (openSidePanel s)) (earliestSlot s)
      (activeSlot s) (currentSort s) (activeSearch s) (stats s)
  | GetEarliestSlotSuccess payload =>
    mkState (groups s) (filteredGroups s) (openSidePanel s) payload (activeSlot s)
      (currentSort s) (activeSearch s) (stats s)
  | Sort payload =>
    mkState (groups s) (sortGroups (filteredGroups s) payload) (openSidePanel s)
      (earliestSlot s) (activeSlot s) payload (activeSearch s) (stats s)
  | Search payload =>
    mkState (groups s)
      (sortGroups (searchActionsInGroups payload (groups s)) (currentSort s))
      (openSidePanel s) (earliestSlot s) (activeSlot s) (currentSort s) payload (stats s)
  | Close => initialState isMobile
  | GetEarliestSlot _ => s
  end.
End Reducer.

(** ** Effects *)

(** [getEarliestSlot$] on an answer [payload]: the actions, and whether the
    router moves to the slot. *)
Definition getEarliestSlot (now : string) (force : bool) (s : State) (o : outcome Z)
    : list (dispatched Action) * bool :=
  match o with
  | Next payload =>
    let load := negb (is_some (activeSlot s)) ||
                match activeSlot s with Some a => (payload <? a)%Z | None => false end || force in
    (Dispatch (GetEarliestSlotSuccess (Val payload)) ::
     (if load then [Dispatch (GetActions (Some payload))] else []), load)
  | Failed err => (catchErrorAndRepeat now GENERIC (GetEarliestSlotSuccess Null) (Failed err), false)
  end.

(** ** Objects as maps *)

Section ObjectLemmas.
Context {V : Type}.
Implicit Types o : obj V.

Lemma obj_get_set k k' v o :
  obj_get k (obj_set k' v o) = if String.eqb k' k then Some v else obj_get k o.
Proof.
  induction o as [|[k'' v''] o IH]; simpl; [done|].
  destruct (String.eqb_spec k'' k') as [->|Hne]; simpl.
  - by destruct (String.eqb_spec k' k).
  - rewrite IH. destruct (String.eqb_spec k'' k) as [->|]; [|done].
    by rewrite (proj2 (String.eqb_neq k' k)) by congruence.
Qed.

Lemma obj_get_None k o : obj_get k o = None <-> k ∉ o.*1.
Proof.
  induction o as [|[k' v] o IH]; simpl; [split; [intros _ H; inv H|done]|].
  rewrite elem_of_cons. destruct (String.eqb_spec k' k) as [->|Hne]; [naive_solver|].
  rewrite IH. naive_solver.
Qed.

Lemma obj_set_fresh k v o : k ∉ o.*1 -> obj_set k v o = o ++ [(k, v)].
Proof.
  induction o as [|[k' v'] o IH]; simpl; [done|]. rewrite elem_of_cons. intros Hk.
  rewrite (proj2 (String.eqb_neq k' k)) by naive_solver. f_equal. apply IH. naive_solver.
Qed.

Lemma obj_set_keys k v o : k ∈ o.*1 -> (obj_set k v o).*1 = o.*1.
Proof.
  induction o as [|[k' v'] o IH]; simpl; [intros H; inv H|].
  destruct (String.eqb_spec k' k) as [->|Hne]; [done|]. simpl.
  intros [->|H]%elem_of_cons; [done|]. f_equal. by apply IH.
Qed.

Lemma obj_set_NoDup k v o : NoDup o.*1 -> NoDup (obj_set k v o).*1.
Proof.
  intros Hnd. destruct (decide (k ∈ o.*1)) as [Hin|Hn]; [by rewrite obj_set_keys|].
  rewrite obj_set_fresh, fmap_app by done. apply NoDup_app. split; [done|].
  split; [set_solver|apply NoDup_singleton].
Qed.

Lemma obj_get_elem k v o : NoDup o.*1 -> (k, v) ∈ o -> obj_get k o = Some v.
Proof.
  induction o as [|[k' v'] o IH]; simpl; [intros _ H; inv H|].
  intros [Hn Hnd]%NoDup_cons [[= -> ->]|Hin]%elem_of_cons; [by rewrite String.eqb_refl|].
  rewrite (proj2 (String.eqb_neq k' k)); [by apply IH|]. intros ->.
  apply Hn, list_elem_of_fmap. by exists (k, v).
Qed.

(** Setting distinct new keys appends them. *)
Lemma obj_set_all {A} (key : A -> string) (val : A -> V) (l : list A) o :
  NoDup (key <$> l) -> (forall a, a ∈ l -> key a ∉ o.*1) ->
  fold_left (fun o a => obj_set (key a) (val a) o) l o = o ++ ((fun a => (key a, val a)) <$> l).
Proof.
  revert o. induction l as [|a l IH]; intros o Hnd Ho; simpl; [by rewrite app_nil_r|].
  rewrite fmap_cons in Hnd. apply NoDup_cons in Hnd as [Hn Hnd].
  rewrite obj_set_fresh by (apply Ho; by left). rewrite IH; [by rewrite <- app_assoc|done|].
  intros b Hb. rewrite fmap_app. intros [Hin|Hin]%elem_of_app.
  - apply (Ho b); [by right|done].
  - apply list_elem_of_singleton in Hin. simpl in Hin. apply Hn. rewrite <- Hin.
    apply list_elem_of_fmap. eauto.
Qed.
End ObjectLemmas.

(** ** The prefixes of a name *)

Fixpoint buildups (acc : string) (slices : list string) : list string :=
  match slices with
  | [] => []
  | w :: ws => (acc +:+ w) :: buildups (acc +:+ w) ws
  end.

(** The names of the groups an action can be in: its leading words. *)
Definition prefixes (name : string) : list string := buildups "" (split_words name).

Lemma add_prefixes_eq groups name :
  add_prefixes groups name = fold_left (fun o g => push_group g name o) (prefixes name) groups.
Proof.
  unfold add_prefixes, prefixes. generalize (split_words name) as ws, "".
  intros ws. revert groups. induction ws as [|w ws IH]; intros groups acc; simpl; [done|]. apply IH.
Qed.

Definition str_concat (ws : list string) : string := foldr String.append "" ws.

Lemma split_words_step c c' s :
  split_words (String c (String c' s)) =
  if is_upper c' then String c "" :: split_words (String c' s)
  else match split_words (String c' s) with
       | w :: ws => String c w :: ws
       | [] => [String c ""]
       end.
Proof. done. Qed.

Lemma split_words_cons s : exists w ws, split_words s = w :: ws.
Proof.
  destruct s as [|c [|c' s]]; [by do 2 eexists..|]. rewrite split_words_step.
  destruct (is_upper c'); [by do 2 eexists|]. by destruct (split_words _); do 2 eexists.
Qed.

Lemma split_words_concat s : str_concat (split_words s) = s.
Proof.
  induction s as [|c s IH]; [done|]. destruct s as [|c' s]; [done|].
  rewrite split_words_step. destruct (is_upper c'); [exact (f_equal (String c) IH)|].
  destruct (split_words_cons (String c' s)) as (w & ws & E). rewrite E in *.
  exact (f_equal (String c) IH).
Qed.

Lemma split_words_nonempty c s : Forall (fun w => 0 < String.length w) (split_words (String c s)).
Proof.
  revert c. induction s as [|c' s IH]; intros c; [repeat constructor|].
  rewrite split_words_step. specialize (IH c').
  destruct (is_upper c'); [constructor; [simpl; lia|exact IH]|].
  destruct (split_words_cons (String c' s)) as (w & ws & E). rewrite E in *. inv IH.
  constructor; [simpl; lia|done].
Qed.

Lemma buildups_longer acc ws b :
  Forall (fun w => 0 < String.length w) ws -> b ∈ buildups acc ws ->
  String.length acc < String.length b.
Proof.
  intros Hws. revert acc. induction Hws as [|w ws Hw _ IH]; intros acc Hb; [inv Hb|].
  simpl in Hb. pose proof (string_length_app acc w) as Hl.
  apply elem_of_cons in Hb as [->|Hb]; [lia|]. apply IH in Hb. lia.
Qed.

Lemma NoDup_buildups acc ws :
  Forall (fun w => 0 < String.length w) ws -> NoDup (buildups acc ws).
Proof.
  intros Hws. revert acc. induction Hws as [|w ws Hw Hws IH]; intros acc; [constructor|].
  simpl. constructor; [|apply IH]. intros Hb. apply buildups_longer in Hb; [lia|done].
Qed.

Lemma NoDup_prefixes name : NoDup (prefixes name).
Proof.
  destruct name as [|c s]; [apply NoDup_singleton|]. apply NoDup_buildups, split_words_nonempty.
Qed.

Lemma buildups_last acc ws : ws <> [] -> acc +:+ str_concat ws ∈ buildups acc ws.
Proof.
  revert acc. induction ws as [|w ws IH]; intros acc Hne; [done|].
  cbn [buildups str_concat foldr]. destruct ws as [|w' ws].
  - simpl. rewrite string_app_nil_r. by left.
  - right. rewrite <- string_app_assoc. by apply IH.
Qed.

Lemma name_in_prefixes name : name ∈ prefixes name.
Proof.
  destruct (split_words_cons name) as (w & ws & Hw).
  pose proof (buildups_last "" (split_words name)) as Hb. rewrite split_words_concat in Hb.
  apply Hb. by rewrite Hw.
Qed.

(** ** The groups partition the names *)

Definition items_of (names : list string) (g : string) : list string :=
  List.filter (fun a => bool_decide (g ∈ prefixes a)) names.

Definition get_or_nil (k : string) (o : obj (list string)) : list string :=
  default [] (obj_get k o).

Lemma push_group_get k g name o :
  get_or_nil k (push_group g name o) =
  if String.eqb g k then get_or_nil k o ++ [name] else get_or_nil k o.
Proof.
  unfold push_group, get_or_nil. destruct (String.eqb_spec g k) as [->|Hne].
  - destruct (obj_get k o); by rewrite obj_get_set, String.eqb_refl.
  - destruct (obj_get g o); by rewrite obj_get_set, (proj2 (String.eqb_neq g k) Hne).
Qed.

Lemma push_group_NoDup g name o : NoDup o.*1 -> NoDup (push_group g name o).*1.
Proof. unfold push_group. destruct (obj_get g o); apply obj_set_NoDup. Qed.

Lemma push_all_get k name gs o :
  NoDup gs ->
  get_or_nil k (fold_left (fun o g => push_group g name o) gs o) =
  get_or_nil k o ++ (if bool_decide (k ∈ gs) then [name] else []).
Proof.
  intros Hnd. revert o. induction Hnd as [|g gs Hg _ IH]; intros o; simpl.
  { by rewrite app_nil_r. }
  rewrite IH, push_group_get. destruct (String.eqb_spec g k) as [->|Hne].
  - rewrite (bool_decide_false (k ∈ gs)), (bool_decide_true (k ∈ k :: gs)) by (done || by left).
    by rewrite app_nil_r.
  - rewrite (bool_decide_ext (k ∈ g :: gs) (k ∈ gs)); [done|]. rewrite elem_of_cons. naive_solver.
Qed.

Lemma push_all_NoDup name gs o :
  NoDup o.*1 -> NoDup (fold_left (fun o g => push_group g name o) gs o).*1.
Proof.
  revert o. induction gs as [|g gs IH]; intros o Ho; [done|]. simpl. by apply IH, push_group_NoDup.
Qed.

Lemma prefixGroups_spec names :
  NoDup (prefixGroups names).*1 /\
  forall k, get_or_nil k (prefixGroups names) = items_of names k.
Proof.
  unfold prefixGroups. induction names as [|a names [IHn IHg]] using rev_ind.
  { split; [constructor|done]. }
  rewrite fold_left_app. cbn [fold_left]. rewrite add_prefixes_eq.
  split; [by apply push_all_NoDup|]. intros k.
  rewrite push_all_get by apply NoDup_prefixes. rewrite IHg. unfold items_of.
  rewrite List.filter_app. simpl. by destruct (bool_decide _).
Qed.

Lemma sortedGroups_spec names :
  NoDup (sortedGroups names).*1 /\
  forall g items, (g, items) ∈ sortedGroups names -> items = items_of names g.
Proof.
  destruct (prefixGroups_spec names) as [Hn Hg]. unfold sortedGroups. split.
  - by rewrite js_sort_perm.
  - intros g items Hin. rewrite js_sort_perm in Hin. rewrite <- Hg. unfold get_or_nil.
    by rewrite (obj_get_elem g items).
Qed.

(** After some of the groups are taken: the taken names are distinct and are
    the used ones, and no name of a taken group is left unused. *)
Record taken (names : list string) (gs : obj (list string)) (used : gset string) : Prop := {
  taken_nodup : NoDup (concat gs.*2);
  taken_used : forall a, a ∈ used <-> a ∈ concat gs.*2;
  taken_keys : NoDup gs.*1;
  taken_items : forall g acts, (g, acts) ∈ gs -> forall a, a ∈ acts -> a ∈ items_of names g;
  taken_all : forall g acts, (g, acts) ∈ gs -> forall a, a ∈ items_of names g -> a ∈ used
}.

Lemma take_group_taken names gs used g :
  NoDup names -> taken names gs used -> g ∉ gs.*1 ->
  let '(gs', used') := take_group (gs, used) (g, items_of names g) in
  taken names gs' used' /\ forall k, k ∈ gs'.*1 -> k ∈ gs.*1 \/ k = g.
Proof.
  intros Hnd [Hn Hu Hk Hi Ha] Hg. unfold take_group. cbn [fst snd].
  set (acts := List.filter _ _). destruct (1 <? length acts); [|by split; [split|left]].
  rewrite obj_set_fresh by done.
  assert (Hacts : forall a, a ∈ acts <-> a ∈ items_of names g /\ a ∉ used).
  { intros a. unfold acts. rewrite elem_of_lfilter, negb_true_iff, bool_decide_eq_false. done. }
  assert (Hcat : concat (gs ++ [(g, acts)]).*2 = concat gs.*2 ++ acts).
  { rewrite fmap_app, concat_app. simpl. by rewrite app_nil_r. }
  split; [split|].
  - rewrite Hcat. apply NoDup_app. split; [done|]. split.
    + intros a Hin Hact. apply Hacts in Hact as [_ Hact]. by apply Hact, Hu.
    + by apply NoDup_lfilter, NoDup_lfilter.
  - intros a. rewrite Hcat, elem_of_app, elem_of_union, elem_of_list_to_set, Hu. tauto.
  - rewrite fmap_app. apply NoDup_app. split; [done|]. split; [set_solver|apply NoDup_singleton].
  - intros g' acts' [Hin|Hin]%elem_of_app a Haa; [by eapply Hi|].
    apply list_elem_of_singleton in Hin as [= -> ->]. by apply Hacts.
  - intros g' acts' [Hin|Hin]%elem_of_app a Haa.
    + apply elem_of_union. right. by eapply Ha.
    + apply list_elem_of_singleton in Hin as [= -> ->]. rewrite elem_of_union, elem_of_list_to_set, Hacts.
      destruct (decide (a ∈ used)); tauto.
  - intros k. rewrite fmap_app, elem_of_app. simpl. rewrite list_elem_of_singleton. done.
Qed.

Lemma take_groups_taken names entries gs used :
  NoDup names -> NoDup entries.*1 ->
  (forall g items, (g, items) ∈ entries -> items = items_of names g) ->
  taken names gs used -> (forall g, g ∈ entries.*1 -> g ∉ gs.*1) ->
  let '(gs', used') := fold_left take_group entries (gs, used) in taken names gs' used'.
Proof.
  intros Hnd. revert gs used.
  induction entries as [|[g items] entries IH]; intros gs used Hne He Ht Hd; [done|].
  apply NoDup_cons in Hne as [Hg Hne]. cbn [fold_left].
  rewrite (He g items) by (by left).
  pose proof (take_group_taken names gs used g Hnd Ht ltac:(apply Hd; by left)) as Hs.
  destruct (take_group _ _) as [gs' used']. destruct Hs as [Ht' Hk].
  apply IH; [done| |done|].
  - intros g' items' Hin. apply He. by right.
  - intros g' Hin [Hk'| ->]%Hk; [|done]. apply (Hd g'); [by right|done].
Qed.

(** A name left ungrouped is not the name of a group. *)
Lemma ungrouped_fresh names gs used a :
  taken names gs used -> a ∈ names -> a ∉ used -> a ∉ gs.*1.
Proof.
  intros Ht Ha Hnu ([g acts] & -> & Hin)%list_elem_of_fmap. apply Hnu.
  eapply taken_all; [done..|]. unfold items_of. apply elem_of_lfilter. split; [done|].
  cbn. apply bool_decide_eq_true, name_in_prefixes.
Qed.

(** [getGroupNames] is the taken groups followed by the single names. *)
Lemma getGroupNames_spec names :
  NoDup names ->
  exists gs used, taken names gs used /\
    getGroupNames names = gs ++ ((fun a => (a, [a])) <$>
      List.filter (fun a => negb (bool_decide (a ∈ used))) names).
Proof.
  intros Hnd. unfold getGroupNames. destruct (sortedGroups_spec names) as [Hk Hi].
  pose proof (take_groups_taken names
    (List.filter (fun g => 1 <? length g.2) (sortedGroups names)) [] ∅ Hnd) as Ht.
  destruct (fold_left take_group _ _) as [gs used]. exists gs, used.
  assert (Hgs : taken names gs used).
  { apply Ht.
    - by apply NoDup_fmap_lfilter.
    - intros g items Hin. apply elem_of_lfilter in Hin as [Hin _]. by apply Hi.
    - split; [constructor|set_solver|constructor|set_solver|set_solver].
    - intros g _ H. inv H. }
  split; [done|]. set (un := List.filter _ names).
  assert (Hun : forall a, a ∈ un -> a ∈ names /\ a ∉ used).
  { intros a. unfold un. by rewrite elem_of_lfilter, negb_true_iff, bool_decide_eq_false. }
  rewrite (obj_set_all (fun a => a) (fun a => [a]) un []);
    [|rewrite list_fmap_id; by apply NoDup_lfilter|intros a _ H; inv H].
  unfold obj_spread. cbn [app].
  rewrite (obj_set_all fst snd _ gs).
  - rewrite <- list_fmap_compose. by f_equal.
  - rewrite <- list_fmap_compose. unfold compose. cbn. rewrite list_fmap_id. by apply NoDup_lfilter.
  - intros [k v] (a & [= -> ->] & Ha)%list_elem_of_fmap. apply Hun in Ha as [Ha Hnu].
    by eapply ungrouped_fresh.
Qed.

Lemma concat_singletons {A} (l : list A) : concat ((fun a => (a, [a])) <$> l).*2 = l.
Proof. induction l as [|a l IH]; [done|]. cbn. by f_equal. Qed.

Lemma getGroupNames_perm names :
  NoDup names -> concat (getGroupNames names).*2 ≡ₚ names.
Proof.
  intros Hnd. destruct (getGroupNames_spec names Hnd) as (gs & used & Ht & ->).
  rewrite fmap_app, concat_app, concat_singletons.
  apply NoDup_Permutation; [|done|].
  - apply NoDup_app. split; [apply Ht|]. split; [|by apply NoDup_lfilter].
    intros a Ha Hu. apply elem_of_lfilter in Hu as [_ Hu].
    rewrite bool_decide_true in Hu; [done|]. by apply (taken_used _ _ _ Ht).
  - intros a. rewrite elem_of_app, elem_of_lfilter, negb_true_iff, bool_decide_eq_false.
    rewrite <- (taken_used _ _ _ Ht a). split.
    + intros [Hu|[Ha _]]; [|done]. apply (taken_used _ _ _ Ht), elem_of_lconcat in Hu as (l & Hl & Ha).
      apply list_elem_of_fmap in Hl as ([g acts] & -> & Hin).
      eapply taken_items in Ha; [|done..]. by apply elem_of_lfilter in Ha as [? _].
    + intros Ha. destruct (decide (a ∈ used)); auto.
Qed.

(** C10: the groups have distinct names, every action is in exactly one group,
    and the name of a group is a sequence of leading words of each of its
    actions (a merge of the grouped and the single actions never loses a
    group). *)
Theorem getGroupNames_partition names :
  NoDup names ->
  NoDup (getGroupNames names).*1 /\
  concat (getGroupNames names).*2 ≡ₚ names /\
  forall g acts a, (g, acts) ∈ getGroupNames names -> a ∈ acts -> g ∈ prefixes a.
Proof.
  intros Hnd. split; [|split; [by apply getGroupNames_perm|]];
    destruct (getGroupNames_spec names Hnd) as (gs & used & Ht & ->).
  - rewrite fmap_app. apply NoDup_app. split; [apply Ht|]. rewrite <- list_fmap_compose. split.
    + intros g Hg Hg'. apply list_elem_of_fmap in Hg' as (a & -> & Ha). cbn in Hg.
      apply elem_of_lfilter in Ha as [Ha Hnu].
      apply negb_true_iff, bool_decide_eq_false in Hnu. by eapply ungrouped_fresh.
    + unfold compose. simpl. rewrite list_fmap_id. by apply NoDup_lfilter.
  - intros g acts a [Hin|Hin]%elem_of_app Ha.
    + eapply taken_items in Ha; [|done..]. apply elem_of_lfilter in Ha as [_ Ha].
      by apply bool_decide_eq_true in Ha.
    + apply list_elem_of_fmap in Hin as (b & [= -> ->] & _).
      apply list_elem_of_singleton in Ha as ->. apply name_in_prefixes.
Qed.

(** Summing over the groups sums over the actions. *)
Lemma sum_groups (h : string * list (string * Range) -> Z) (gs : list (list string)) (r : Stats) :
  NoDup (concat gs) ->
  sumZ ((fun g => sumZ (h <$> List.filter (fun a => includes g a.1) r)) <$> gs) =
  sumZ (h <$> List.filter (fun a => includes (concat gs) a.1) r).
Proof.
  induction gs as [|g gs IH]; intros Hnd.
  - by rewrite lfilter_none.
  - cbn [concat] in *. rewrite fmap_cons, sumZ_cons.
    apply NoDup_app in Hnd as (_ & Hd & Hnd). rewrite (IH Hnd), <- sumZ_split.
    + f_equal. f_equal. apply lfilter_ext. intros a _. unfold includes.
      destruct (decide (a.1 ∈ g)) as [Hg|Hg].
      * rewrite (bool_decide_true (a.1 ∈ g)) by done. cbn.
        symmetry; apply bool_decide_eq_true, elem_of_app. by left.
      * rewrite (bool_decide_false (a.1 ∈ g)) by done. cbn. apply bool_decide_ext.
        rewrite elem_of_app. tauto.
    + unfold includes. intros a _ H1%bool_decide_eq_true H2%bool_decide_eq_true. by apply (Hd a.1).
Qed.

Lemma sum_all_groups (h : string * list (string * Range) -> Z) (r : Stats) :
  NoDup r.*1 ->
  sumZ ((fun g => sumZ (h <$> List.filter (fun a => includes g.2 a.1) r)) <$> getGroupNames r.*1) =
  sumZ (h <$> r).
Proof.
  intros Hnd. pose proof (getGroupNames_perm r.*1 Hnd) as Hp.
  transitivity (sumZ ((fun g => sumZ (h <$> List.filter (fun a => includes g a.1) r)) <$>
                        (getGroupNames r.*1).*2)).
  { by rewrite <- list_fmap_compose. }
  rewrite sum_groups by (by rewrite Hp). rewrite lfilter_all; [done|].
  intros a Ha. unfold includes. apply bool_decide_eq_true. rewrite Hp.
  apply list_elem_of_fmap. eauto.
Qed.

(** The counts and times of the groups add up to the counters of the
    response: no call is lost or counted twice. *)
Theorem mapActions_totals response :
  NoDup response.*1 ->
  sumZ (count <$> mapActions response) =
    sumZ ((fun a => sumZ ((fun r => total_calls r.2) <$> a.2)) <$> response) /\
  sumZ (totalTime <$> mapActions response) =
    sumZ ((fun a => sumZ ((fun r => total_duration r.2) <$> a.2)) <$> response).
Proof.
  intros Hnd. unfold mapActions. rewrite <- !list_fmap_compose. split.
  - rewrite <- sum_all_groups by done. f_equal. apply list_fmap_ext. intros _ g _.
    cbn. rewrite <- list_fmap_compose. f_equal. apply list_fmap_ext. intros _ a _.
    cbn. by rewrite <- list_fmap_compose.
  - rewrite <- sum_all_groups by done. f_equal. apply list_fmap_ext. intros _ g _.
    cbn. rewrite <- list_fmap_compose. f_equal. apply list_fmap_ext. intros _ a _.
    cbn. by rewrite <- list_fmap_compose.
Qed.

Definition sample_names : list string :=
  ["PeerConnect"; "PeerConnectInit"; "PeerDisconnect"; "Snark"; "Peer"].

Lemma sample_names_NoDup : NoDup sample_names.
Proof. apply (bool_decide_unpack _). vm_compute. exact I. Qed.

Lemma getGroupNames_partition_witness :
  concat (getGroupNames sample_names).*2 ≡ₚ sample_names.
Proof. apply (getGroupNames_partition sample_names), sample_names_NoDup. Defined.

Definition sample_stats : Stats :=
  (fun n => (n, [("whole", mkRange 3 10 5)])) <$> sample_names.

Lemma mapActions_totals_witness :
  sumZ (count <$> mapActions sample_stats) = 15%Z.
Proof.
  rewrite (proj1 (mapActions_totals sample_stats sample_names_NoDup)). vm_compute. reflexivity.
Defined.

End StateActions.
