(* ===== verification/MemoryResources.v ===== *)
(** * Memory resources

    [src/frontend/src/app/features/resources/memory]: the tree of the memory
    profiler with a number for every node ([memory-resources.service.ts]), and
    the store with its breadcrumbs ([memory-resources.reducer.ts]). *)

From Stdlib Require Import Sorting.Sorted.
From stdpp Require Import base list strings.
From S2P Require Import Prelude SharedLib.

Module Memory.

(** ** Data *)

Record ResourceName := mkName { executableName : string; functionName : option string }.

Inductive Resource :=
| mkResource (name : ResourceName) (value : Z) (children : list Resource) (id : nat).

Definition r_name (r : Resource) : ResourceName := let 'mkResource n _ _ _ := r in n.
Definition r_value (r : Resource) : Z := let 'mkResource _ v _ _ := r in v.
Definition r_children (r : Resource) : list Resource := let 'mkResource _ _ cs _ := r in cs.
Definition r_id (r : Resource) : nat := let 'mkResource _ _ _ i := r in i.

(** The name of a frame is a string or the place of a function. *)
Inductive FrameName :=
| Plain (name : string)
| Located (offset executable : string) (function : option string).

(** [MemoryResourceTree]; [frames] may be missing. Sizes are whole kilobytes. *)
Inductive Frame :=
| mkFrame (name : FrameName) (value : Z) (frames : option (list Frame)).

(** ** Service *)

(** [+(Math.round(Number(num + 'e+2')) + 'e-2')] on an integer. *)
Definition round (n : Z) : Z := ((n * 100) / 100)%Z.

Definition getFrameName (threshold : Z) (n : FrameName) : ResourceName :=
  match n with
  | Plain name =>
    mkName (if String.eqb name "underThreshold"
            then "below " +:+ show (round threshold) +:+ " KB" else name) None
  | Located offset executable function => mkName (executable +:+ "@" +:+ offset) function
  end.

(** [c2.value - c1.value] *)
Definition by_value (c1 c2 : Resource) : Z := (r_value c2 - r_value c1)%Z.

(** One turn of the loop of [build] with the counter [next]: the children are
    built, and numbered, before the frame takes its own number. *)
Fixpoint build_frame (threshold : Z) (f : Frame) (next : nat) : Resource * nat :=
  match f with
  | mkFrame name value frames =>
    let '(cs, next) :=
      match frames with
      | None => ([], next)
      | Some fs =>
        (fix build_frames (fs : list Frame) (next : nat) : list Resource * nat :=
           match fs with
           | [] => ([], next)
           | f :: fs =>
             let '(r, next) := build_frame threshold f next in
             let '(rs, next) := build_frames fs next in (r :: rs, next)
           end) fs next
      end in
    (mkResource (getFrameName threshold name) (round value) (js_sort by_value cs) next, S next)
  end.

(** The loop of [build] over a list of frames. *)
Fixpoint build_frames (threshold : Z) (fs : list Frame) (next : nat) : list Resource * nat :=
  match fs with
  | [] => ([], next)
  | f :: fs =>
    let '(r, next) := build_frame threshold f next in
    let '(rs, next) := build_frames threshold fs next in (r :: rs, next)
  end.

Definition build (threshold : Z) (fs : list Frame) (next : nat) : list Resource * nat :=
  let '(cs, next) := build_frames threshold fs next in (js_sort by_value cs, next).

(** [mapMemoryResponse], the counter starting at [0]: the root takes the last
    number.  [function] is the function name of the root, if it has one. *)
Definition mapMemoryResponse (threshold : Z) (function : option string) (value : Z)
    (frames : list Frame) : Resource :=
  let '(cs, next) := build threshold frames 0 in
  mkResource (mkName "root" function) (round value) cs next.

(** ** Store *)

Inductive TreemapView := BINARY | SQUARE | SLICE | DICE.

#[export] Instance TreemapView_eq_dec : EqDecision TreemapView.
Proof. solve_decision. Defined.

(** [breadcrumbs] may hold the [undefined] of a missing resource. *)
Record State := mkState {
  resource : option Resource;
  activeResource : option Resource;
  breadcrumbs : list (option Resource);
  granularity : Z;
  treemapView : TreemapView
}.

Inductive Action :=
| Get
| GetSuccess (payload : option Resource)
| SetActiveResource (payload : Resource)
| SetGranularity (payload : Z)
| SetTreemapView (payload : TreemapView)
| Close.

(** [granularity] and [view] are read from the local storage at the start. *)
Definition initialState (granularity : Z) (view : TreemapView) : State :=
  mkState None None [] granularity view.

(** [breadcrumbs.findIndex(b => b.id === id)] *)
Fixpoint crumb_index (id : nat) (crumbs : list (option Resource)) : result (option nat) :=
  match crumbs with
  | [] => Ok None
  | None :: _ => Throw "Cannot read properties of undefined (reading 'id')"
  | Some b :: crumbs' =>
    if r_id b =? id then Ok (Some 0)
    else match crumb_index id crumbs' with
         | Ok o => Ok (S <$> o)
         | Throw e => Throw e
         end
  end.

Definition new_breadcrumbs (s : State) (payload : Resource) : result (list (option Resource)) :=
  if String.eqb (executableName (r_name payload)) "root" then Ok [resource s]
  else match crumb_index (r_id payload) (breadcrumbs s) with
       | Throw e => Throw e
       | Ok (Some i) => Ok (take (i + 1) (breadcrumbs s))
       | Ok None => Ok (breadcrumbs s ++ [Some payload])
       end.

(** The resources of one response are told apart by their numbers, so the test
    [state.activeResource === action.payload] compares these. *)
Definition is_active (s : State) (payload : Resource) : bool :=
  match activeResource s with Some a => r_id a =? r_id payload | None => false end.

Definition memoryResourcesReducer (init s : State) (a : Action) : result State :=
  match a with
  | GetSuccess payload =>
    Ok (mkState payload payload (match payload with Some p => [Some p] | None => [] end)
          (granularity s) (treemapView s))
  | SetActiveResource payload =>
    if is_active s payload then Ok s
    else match new_breadcrumbs s payload with
         | Throw e => Throw e
         | Ok crumbs =>
           Ok (mkState (resource s) (Some payload) crumbs (granularity s) (treemapView s))
         end
  | SetGranularity payload => Ok (mkState None None [] payload (treemapView s))
  | SetTreemapView payload =>
    Ok (mkState (resource s) (activeResource s) (breadcrumbs s) (granularity s) payload)
  | Close => Ok init
  | Get => Ok s
  end.

(** ** Effects *)

Definition getResources (now : string) (o : outcome Resource) : list (dispatched Action) :=
  catchErrorAndRepeat now GENERIC (GetSuccess None)
    match o with Next r => Next (GetSuccess (Some r)) | Failed err => Failed err end.

(** ** Numbers *)

Fixpoint ids (r : Resource) : list nat :=
  match r with mkResource _ _ cs i => i :: flat_map ids cs end.

Fixpoint frame_size (f : Frame) : nat :=
  match f with
  | mkFrame _ _ None => 1
  | mkFrame _ _ (Some fs) => S (list_sum (map frame_size fs))
  end.

Definition frames_size (fs : list Frame) : nat := list_sum (map frame_size fs).

(** Every list of children is in the order of decreasing values. *)
Fixpoint ordered (r : Resource) : Prop :=
  match r with
  | mkResource _ _ cs _ =>
    Sorted (fun c1 c2 => (r_value c2 <= r_value c1)%Z) cs /\
    (fix all (cs : list Resource) : Prop :=
       match cs with [] => True | c :: cs => ordered c /\ all cs end) cs
  end.

Lemma ordered_unfold n v cs i :
  ordered (mkResource n v cs i) <->
  Sorted (fun c1 c2 => (r_value c2 <= r_value c1)%Z) cs /\ Forall ordered cs.
Proof.
  simpl. assert (Hall : forall l, (fix all (cs : list Resource) : Prop :=
    match cs with [] => True | c :: cs => ordered c /\ all cs end) l <-> Forall ordered l).
  { induction l as [|c l IH]; [done|]. rewrite Forall_cons, IH. done. }
  by rewrite Hall.
Qed.

Lemma flat_map_perm {A B} (f : A -> list B) l l' : l ≡ₚ l' -> flat_map f l ≡ₚ flat_map f l'.
Proof.
  induction 1; simpl; [done|by f_equiv| |by etrans]. by rewrite !app_assoc, (Permutation_app_comm (f y)).
Qed.

Lemma build_frame_unfold threshold name value frames next :
  build_frame threshold (mkFrame name value frames) next =
  let '(cs, next) := build_frames threshold (default [] frames) next in
  (mkResource (getFrameName threshold name) (round value) (js_sort by_value cs) next, S next).
Proof.
  simpl. assert (H : forall fs n, (fix build_frames (fs : list Frame) (next : nat) :=
    match fs with
    | [] => ([], next)
    | f :: fs => let '(r, next) := build_frame threshold f next in
                 let '(rs, next) := build_frames fs next in (r :: rs, next)
    end) fs n = build_frames threshold fs n).
  { induction fs as [|f fs IH]; intros n; simpl; [done|].
    destruct (build_frame threshold f n) as [r n']. by rewrite IH. }
  destruct frames as [fs|]; [|done]. by rewrite H.
Qed.

Lemma Frame_nested_ind (P : Frame -> Prop) :
  (forall n v, P (mkFrame n v None)) ->
  (forall n v fs, Forall P fs -> P (mkFrame n v (Some fs))) ->
  forall f, P f.
Proof.
  intros Hnone Hsome. fix IH 1. intros [n v [fs|]]; [apply Hsome|apply Hnone].
  induction fs as [|f fs IHfs]; [constructor|]. constructor; [apply IH|exact IHfs].
Qed.

(** What a build of [size] frames from the number [next] yields. *)
Definition numbered (rs : list Resource) (next size : nat) : Prop :=
  flat_map ids rs ≡ₚ seq next size /\ Forall ordered rs.

Lemma build_frames_numbered threshold fs next :
  Forall (fun f => forall next, let '(r, next') := build_frame threshold f next in
            next' = next + frame_size f /\ numbered [r] next (frame_size f)) fs ->
  let '(rs, next') := build_frames threshold fs next in
  next' = next + frames_size fs /\ numbered rs next (frames_size fs).
Proof.
  intros Hf. revert next. induction Hf as [|f fs Hf _ IH]; intros next; simpl.
  { split; [unfold frames_size; simpl; lia|]. split; constructor. }
  specialize (Hf next). destruct (build_frame threshold f next) as [r next'].
  destruct Hf as (-> & Hi & Ho). specialize (IH (next + frame_size f)).
  destruct (build_frames threshold fs _) as [rs next'']. destruct IH as (-> & His & Hos).
  unfold frames_size in *. simpl in *. rewrite app_nil_r in Hi. split; [lia|]. split; simpl.
  - rewrite Hi, His, seq_app. done.
  - inv Ho. by constructor.
Qed.

Lemma sorted_children cs : Sorted (fun c1 c2 => (r_value c2 <= r_value c1)%Z) (js_sort by_value cs).
Proof.
  apply (Sorted_mono (cmp_le by_value)); [unfold cmp_le, by_value; lia|].
  apply js_sort_sorted. unfold by_value. intros; lia.
Qed.

Lemma numbered_node n v cs next size :
  numbered cs next size ->
  numbered [mkResource n v (js_sort by_value cs) (next + size)] next (S size).
Proof.
  intros [Hi Ho]. split; [|constructor; [|constructor]].
  - cbn [flat_map ids]. rewrite app_nil_r, (flat_map_perm ids _ _ (js_sort_perm by_value cs)), Hi.
    rewrite seq_S. by rewrite Permutation_cons_append.
  - apply ordered_unfold. split; [apply sorted_children|]. by rewrite js_sort_perm.
Qed.

Lemma build_frame_numbered threshold f next :
  let '(r, next') := build_frame threshold f next in
  next' = next + frame_size f /\ numbered [r] next (frame_size f).
Proof.
  revert next. induction f as [n v|n v fs IH] using Frame_nested_ind; intros next;
    rewrite build_frame_unfold.
  - cbn. split; [lia|].
    rewrite <- (Nat.add_0_r next) at 1. apply (numbered_node _ _ [] next 0).
    split; constructor.
  - change (default [] (Some fs)) with fs.
    pose proof (build_frames_numbered threshold fs next IH) as Hb.
    destruct (build_frames threshold fs next) as [cs next']. destruct Hb as [-> Hb].
    change (frame_size (mkFrame n v (Some fs))) with (S (frames_size fs)).
    split; [lia|by apply numbered_node].
Qed.

(** The nodes of the mapped tree are numbered from [0] without gaps or
    repetitions, one number per frame and one for the root, which has the
    largest; and the children of every node are in the order of decreasing
    size. *)
Theorem memory_tree_numbered threshold function value frames :
  let r := mapMemoryResponse threshold function value frames in
  ids r ≡ₚ seq 0 (S (frames_size frames)) /\ r_id r = frames_size frames /\ ordered r.
Proof.
  unfold mapMemoryResponse, build.
  pose proof (build_frames_numbered threshold frames 0) as Hb.
  destruct (build_frames threshold frames 0) as [cs next].
  destruct Hb as [-> Hb].
  { apply Forall_forall. intros f _. apply build_frame_numbered. }
  apply (numbered_node (mkName "root" function) (round value)) in Hb as [Hi Ho].
  cbn zeta. simpl in Hi. rewrite app_nil_r in Hi. simpl. split; [done|]. split; [done|].
  by inv Ho.
Qed.

(** ** Breadcrumbs *)

(** The crumbs are distinct resources, the last of them the active one. *)
Definition crumbs_ok (s : State) : Prop :=
  exists rs, breadcrumbs s = Some <$> rs /\ NoDup (r_id <$> rs) /\
    (r_id <$> last rs) = (r_id <$> activeResource s) /\
    (is_Some (activeResource s) -> is_Some (resource s)).

Lemma crumb_index_spec id rs :
  crumb_index id (Some <$> rs) = Ok (findIndex (fun b => r_id b =? id) rs).
Proof.
  induction rs as [|r rs IH]; [done|]. rewrite fmap_cons. cbn [crumb_index findIndex].
  destruct (r_id r =? id); [done|]. rewrite IH. by destruct (findIndex _ rs).
Qed.

(** A selected resource: the root, or a node that does not bear its name. *)
Definition selectable (s : State) (r : Resource) : Prop :=
  if String.eqb (executableName (r_name r)) "root"
  then r_id <$> resource s = Some (r_id r) else is_Some (resource s).

Lemma new_breadcrumbs_ok s r :
  crumbs_ok s -> selectable s r ->
  exists rs, new_breadcrumbs s r = Ok (Some <$> rs) /\ NoDup (r_id <$> rs) /\
    (r_id <$> last rs) = Some (r_id r).
Proof.
  intros (rs & Hc & Hnd & _ & _) Hsel. unfold new_breadcrumbs, selectable in *.
  destruct (String.eqb _ _).
  { destruct (resource s) as [root|]; [|done]. exists [root].
    split; [done|]. split; [apply NoDup_singleton|done]. }
  rewrite Hc, crumb_index_spec. destruct (findIndex _ rs) as [i|] eqn:E.
  - apply findIndex_Some in E as (b & Hb & Hid & _). apply Nat.eqb_eq in Hid.
    exists (take (i + 1) rs). split; [by rewrite fmap_take|]. split.
    + rewrite fmap_take. eapply sublist_NoDup; [exact Hnd|apply sublist_take].
    + rewrite Nat.add_1_r, (take_S_r _ _ _ Hb), last_snoc. simpl. by rewrite Hid.
  - exists (rs ++ [r]). split; [by rewrite fmap_app|]. split.
    + rewrite fmap_app. apply NoDup_app. split; [done|]. split; [|apply NoDup_singleton].
      intros x (b & -> & Hb)%list_elem_of_fmap Hx%list_elem_of_singleton.
      rewrite findIndex_None in E. specialize (E b Hb). simpl in Hx.
      apply Nat.eqb_neq in E. congruence.
    + by rewrite last_snoc.
Qed.

(** On a store whose breadcrumbs are distinct resources ending with the
    active one, no action throws, a selection of the root or of another node
    included, and the new breadcrumbs are again distinct and end with the new
    active resource. *)
Theorem breadcrumbs_follow_active init s a :
  crumbs_ok init -> crumbs_ok s ->
  (forall r, a = SetActiveResource r -> selectable s r) ->
  exists s', memoryResourcesReducer init s a = Ok s' /\ crumbs_ok s'.
Proof.
  intros Hi Hs Hsel. destruct a as [|p|r|g|v|]; cbn [memoryResourcesReducer].
  - eauto.
  - eexists; split; [done|]. unfold crumbs_ok. cbn. destruct p as [p|].
    + exists [p]. split; [done|]. split; [apply NoDup_singleton|done].
    + exists []. split; [done|]. split; [constructor|]. split; [done|]. intros [? [=]].
  - unfold is_active. specialize (Hsel r eq_refl).
    destruct (match activeResource s with Some a => _ | None => _ end); [eauto|].
    destruct (new_breadcrumbs_ok s r Hs Hsel) as (rs & -> & Hnd & Hl).
    eexists; split; [done|]. exists rs. cbn. split; [done|]. split; [done|]. split; [done|].
    intros _. unfold selectable in Hsel. destruct (String.eqb _ _); [|done].
    by destruct (resource s).
  - eexists; split; [done|]. exists []. cbn. split; [done|]. split; [constructor|].
    split; [done|]. intros [? [=]].
  - by eexists.
  - eauto.
Qed.

Lemma breadcrumbs_follow_active_witness :
  let r := mapMemoryResponse 512 None 9 [mkFrame (Plain "a") 3 None; mkFrame (Plain "b") 6 None] in
  let s := mkState (Some r) (Some r) [Some r] 512 BINARY in
  exists s', memoryResourcesReducer (initialState 512 BINARY) s
    (SetActiveResource (mkResource (mkName "b" None) 6 [] 1)) = Ok s' /\ crumbs_ok s'.
Proof.
  intros r s. apply (breadcrumbs_follow_active (initialState 512 BINARY) s).
  - exists []. split; [reflexivity|]. split; [constructor|]. split; [reflexivity|]. intros [? [=]].
  - exists [r]. split; [reflexivity|]. split; [apply NoDup_singleton|]. split; [reflexivity|].
    intros _. eexists. reflexivity.
  - intros r' [= <-]. vm_compute. eexists. reflexivity.
Defined.

End Memory.
