(* ===== verification/WorkPool.v ===== *)
(** * The snark work pool

    [src/frontend/src/app/features/snarks/work-pool]: the mapping of the jobs
    with the origin of their commitments and snarks
    ([snarks-work-pool.service.ts]), the store with its filters
    ([snarks-work-pool.reducer.ts]) and the effects
    ([snarks-work-pool.effects.ts]).

    Latencies are kept in nanoseconds; the code divides them by a billion. *)

From stdpp Require Import base list gmap strings.
From S2P Require Import Prelude SharedLib.
Open Scope Z_scope.

Module WorkPool.

(** ** Data *)

Inductive Origin := Local_ | Remote.

#[export] Instance Origin_eq_dec : EqDecision Origin.
Proof. solve_decision. Defined.

(** [WorkPoolCommitment]; [date] is what the service adds. *)
Record Commitment := mkCommitment {
  c_sender : string;
  c_received_t : Z;
  date : option string;
  c_timestamp : Z;             (* commitment.timestamp, milliseconds *)
  c_snarker : string;
  c_fee : string;
  c_job_id : string
}.

Record Snark := mkSnark { snarker : string; fee : string; received_t : Z; sender : string }.

Record Pool := mkPool {
  datetime : string;
  timestamp : Z;
  id : string;
  commitment : option Commitment;
  snark : option Snark;
  snarkRecLatency : option Z;
  snarkOrigin : option Origin;
  commitmentRecLatency : option Z;
  commitmentOrigin : option Origin;
  commitmentCreatedLatency : option Z;
  notSameCommitter : bool
}.

(** The details are passed on unread. *)
Record State := mkState {
  workPools : list Pool;
  filteredWorkPools : list Pool;
  activeWorkPool : option Pool;
  openSidePanel : bool;
  sort_ : TableSort;
  filters : list string;
  activeWorkPoolSpecs : option string;
  activeWorkPoolDetail : option string
}.

Inductive Action :=
| Init
| GetWorkPool
| GetWorkPoolSuccess (payload : list Pool)
| SortWorkPool (payload : TableSort)
| SetActiveWorkPool (i : option string)
| GetWorkPoolDetail (i : option string)
| GetWorkPoolDetailSuccess (specs detail : option string)
| ToggleSidePanel
| ToggleFilter (payload : string)
| Close.

(** ** Service *)

Record Job := mkJob {
  job_id : string; job_time : Z; job_snark : option Snark; job_commitment : option Commitment
}.

(** [[a, b].includes(this.snarkerHash) ? 'Local' : 'Remote'] *)
Definition origin (snarkerHash : option string) (a b : string) : Origin :=
  if includes [Some a; Some b] snarkerHash then Local_ else Remote.

(** [readable_ns] and [readable_ms] are [toReadableDate] of the two units. The
    flag [notSameCommitter] is read as a condition only: [undefined] is
    [false]. *)
Definition mapJob (readable_ns readable_ms : Z -> string) (snarkerHash : option string)
    (item : Job) : Pool :=
  {| id := job_id item;
     datetime := readable_ns (job_time item);
     timestamp := job_time item;
     snark := job_snark item;
     commitment :=
       (fun c => mkCommitment (c_sender c) (c_received_t c) (Some (readable_ms (c_timestamp c)))
                   (c_timestamp c) (c_snarker c) (c_fee c) (c_job_id c)) <$> job_commitment item;
     commitmentRecLatency := (fun c => c_received_t c - job_time item) <$> job_commitment item;
     commitmentCreatedLatency :=
       (fun c => c_timestamp c * 1000000 - job_time item) <$> job_commitment item;
     commitmentOrigin :=
       (fun c => origin snarkerHash (c_snarker c) (c_sender c)) <$> job_commitment item;
     snarkRecLatency := (fun s => received_t s - job_time item) <$> job_snark item;
     snarkOrigin := (fun s => origin snarkerHash (snarker s) (sender s)) <$> job_snark item;
     notSameCommitter :=
       match job_commitment item, job_snark item with
       | Some c, Some s => negb (String.eqb (c_snarker c) (snarker s))
       | _, _ => false
       end |}.

Definition mapWorkPoolResponse (readable_ns readable_ms : Z -> string)
    (snarkerHash : option string) (response : list Job) : list Pool :=
  mapJob readable_ns readable_ms snarkerHash <$> response.

(** [getWorkPool]: the key of the snarker is asked for until there is one. *)
Definition getWorkPool (readable_ns readable_ms : Z -> string) (cached public_key : option string)
    (response : list Job) : list Pool * option string :=
  let hash := match cached with
              | Some h => if truthy_str h then Some h else public_key
              | None => public_key
              end in
  (mapWorkPoolResponse readable_ns readable_ms hash response, hash).

(** ** Store *)

Definition has_origin (o : Origin) (p : Pool) : bool :=
  bool_decide (snarkOrigin p = Some o) || bool_decide (commitmentOrigin p = Some o).

Definition filterWorkPools (ps : list Pool) (fs : list string) : result (list Pool) :=
  if (length fs =? 0)%nat then Ok ps
  else if includes fs "local" then Ok (List.filter (has_origin Local_) ps)
  else if includes fs "remote" then Ok (List.filter (has_origin Remote) ps)
  else Throw "Unknown filter".

Section Reducer.
Context `{TableSorter Pool} `{!ItemToggler string}.

Definition sortWorkPools (ps : list Pool) (ts : TableSort) : list Pool :=
  sort ps ts ["id"; "snarkOrigin"; "commitmentOrigin"] false.

Definition initialState (isDesktop : bool) : State :=
  {| workPools := []; filteredWorkPools := []; activeWorkPool := None;
     openSidePanel := isDesktop; sort_ := mkTableSort "timestamp" DSC; filters := [];
     activeWorkPoolSpecs := None; activeWorkPoolDetail := None |}.

Definition reducer (isDesktop : bool) (s : State) (a : Action) : result State :=
  match a with
  | GetWorkPoolSuccess payload =>
    let ps := sortWorkPools payload (sort_ s) in
    Ok (mkState ps ps (activeWorkPool s) (openSidePanel s) (sort_ s) (filters s)
          (activeWorkPoolSpecs s) (activeWorkPoolDetail s))
  | SetActiveWorkPool i =>
    Ok (mkState (workPools s) (filteredWorkPools s)
          (List.find (fun w => bool_decide (Some (id w) = i)) (workPools s)) true (sort_ s)
          (filters s) None (activeWorkPoolDetail s))
  | SortWorkPool payload =>
    match filterWorkPools (sortWorkPools (workPools s) payload) (filters s) with
    | Throw e => Throw e
    | Ok filtered =>
      Ok (mkState (workPools s) filtered (activeWorkPool s) (openSidePanel s) payload
            (filters s) (activeWorkPoolSpecs s) (activeWorkPoolDetail s))
    end
  | ToggleSidePanel =>
    Ok (mkState (workPools s) (filteredWorkPools s) None (negb (openSidePanel s)) (sort_ s)
          (filters s) (activeWorkPoolSpecs s) (activeWorkPoolDetail s))
  | ToggleFilter payload =>
    let fs := toggleItem (filters s) payload in
    match filterWorkPools (workPools s) fs with
    | Throw e => Throw e
    | Ok filtered =>
      Ok (mkState (workPools s) filtered (activeWorkPool s) (openSidePanel s) (sort_ s) fs
            (activeWorkPoolSpecs s) (activeWorkPoolDetail s))
    end
  | GetWorkPoolDetailSuccess specs detail =>
    Ok (mkState (workPools s) (filteredWorkPools s) (activeWorkPool s) (openSidePanel s)
          (sort_ s) (filters s) specs detail)
  | Close => Ok (initialState isDesktop)
  | Init | GetWorkPool | GetWorkPoolDetail _ => Ok s
  end.
End Reducer.

(** ** Effects *)

(** [getWorkPool$]: the field [pendingRequest] and whether a request is in
    flight. *)
Record EffectState := mkEffect { pendingRequest : bool; inFlight : bool }.

Definition initialEffect : EffectState := mkEffect false false.

Inductive Event :=
| OnGetWorkPool
| OnClose
| OnPools (o : outcome (list Pool)).

Definition getWorkPool_effect (now : string) (e : EffectState) (ev : Event)
    : EffectState * list (dispatched Action) :=
  match ev with
  | OnGetWorkPool => (if pendingRequest e then e else mkEffect true true, [])
  | OnClose => (mkEffect (pendingRequest e) false, [])
  | OnPools o =>
    if inFlight e
    then (mkEffect false false,
          catchErrorAndRepeat now GENERIC (GetWorkPoolSuccess [])
            match o with Next ps => Next (GetWorkPoolSuccess ps) | Failed err => Failed err end)
    else (e, [])
  end.

Section Details.
Context `{HasValue}.

(** [selectActiveWorkPool$] *)
Definition selectActiveWorkPool (i : option string) : list Action :=
  if hasValue i then [GetWorkPoolDetail i] else [].

Inductive DetailEvent :=
| OnDetail (i : option string) (s : State)    (* the action, with the latest state *)
| OnDetailClose
| OnDetailResult (o : outcome (string * string)).

(** The id of the payload; [CLOSE] has no payload. *)
Definition payload_id (ev : DetailEvent) : option string :=
  match ev with OnDetail i _ => i | _ => None end.

Definition detail_actions (now : string) (o : outcome (string * string))
    : list (dispatched Action) :=
  catchErrorAndRepeat now GENERIC (GetWorkPoolDetailSuccess None None)
    match o with
    | Next (specs, detail) => Next (GetWorkPoolDetailSuccess (Some specs) (Some detail))
    | Failed err => Failed err
    end.

(** [getActiveWorkPoolDetail$]: the state is the id of the pool the pair of
    requests in flight is for, which the code reads from the active pool. A
    failed load falls back to an empty array, whose elements are undefined. *)
Definition getActiveWorkPoolDetail (now : string) (e : option string) (ev : DetailEvent)
    : option string * list (dispatched Action) :=
  match ev with
  | OnDetailResult o => if is_some e then (None, detail_actions now o) else (e, [])
  | OnDetail _ _ | OnDetailClose =>
    if hasValue (payload_id ev) then
      match ev with
      | OnDetail _ s =>
        match activeWorkPool s with
        | Some p => (Some (id p), [])
        | None => (None, detail_actions now
                     (Failed (mkJsError "Cannot read properties of undefined (reading 'id')"
                                None "")))
        end
      | _ => (None, [])
      end
    else (e, [])
  end.

(** The branch of [CLOSE] is never taken: a request in flight goes on. *)
Lemma close_keeps_detail_request now e :
  getActiveWorkPoolDetail now e OnDetailClose = (e, []).
Proof. cbn. by rewrite hasValue_spec. Qed.
End Details.

(** ** Properties *)

(** The effect after a sequence of events. *)
Definition run_effect (now : string) (evs : list Event) (e : EffectState) : EffectState :=
  fold_left (fun e ev => (getWorkPool_effect now e ev).1) evs e.

Lemma stuck_forever now evs : run_effect now evs (mkEffect true false) = mkEffect true false.
Proof.
  unfold run_effect. induction evs as [|ev evs IH]; [done|]. cbn [fold_left].
  by destruct ev.
Qed.

(** While the page stays open every outcome, an error included, frees the
    effect for the next load; but when the page is closed during a load the
    flag stays set, and whatever happens afterwards no load is ever requested
    again. *)
Theorem close_during_load_blocks now e evs :
  e = (getWorkPool_effect now initialEffect OnGetWorkPool).1 ->
  (forall o, (getWorkPool_effect now (getWorkPool_effect now e (OnPools o)).1 OnGetWorkPool).1
             = mkEffect true true) /\
  inFlight (run_effect now (OnClose :: evs) e) = false.
Proof.
  intros ->. split; [done|].
  change (inFlight (run_effect now evs (mkEffect true false)) = false).
  by rewrite stuck_forever.
Qed.

(** The local filter shows the jobs this node's snarker committed to or
    solved, the remote filter those another one did, and together they show
    exactly the jobs with a commitment or a snark. *)
Theorem origin_filters readable_ns readable_ms hash jobs :
  let ps := mapWorkPoolResponse readable_ns readable_ms hash jobs in
  exists l r, filterWorkPools ps ["local"] = Ok l /\ filterWorkPools ps ["remote"] = Ok r /\
  forall p, p ∈ ps ->
    (p ∈ l \/ p ∈ r <-> is_Some (commitment p) \/ is_Some (snark p)) /\
    (p ∈ l <-> (exists c, commitment p = Some c /\ (hash = Some (c_snarker c) \/ hash = Some (c_sender c))) \/
               (exists s, snark p = Some s /\ (hash = Some (snarker s) \/ hash = Some (sender s)))).
Proof.
  cbn zeta. eexists _, _. split; [done|]. split; [done|].
  intros p Hp. rewrite !elem_of_lfilter. pose proof Hp as (j & -> & _)%list_elem_of_fmap.
  assert (Ho : forall a b, origin hash a b = Local_ <-> hash = Some a \/ hash = Some b).
  { intros a b. unfold origin, includes. case_bool_decide as Hin;
      rewrite !elem_of_cons, elem_of_nil in Hin; naive_solver. }
  unfold has_origin. rewrite !orb_true_iff, !bool_decide_eq_true. cbn.
  destruct (job_commitment j) as [c|], (job_snark j) as [s|]; cbn; split.
  all: try (pose proof (Ho (c_snarker c) (c_sender c)));
    try (pose proof (Ho (snarker s) (sender s)));
    try destruct (origin hash (c_snarker c) (c_sender c));
    try destruct (origin hash (snarker s) (sender s)); naive_solver.
Qed.

Lemma close_during_load_blocks_witness :
  inFlight (run_effect "" [OnClose; OnGetWorkPool; OnPools (Next []); OnGetWorkPool]
              (mkEffect true true)) = false.
Proof.
  exact (proj2 (close_during_load_blocks "" (mkEffect true true)
    [OnGetWorkPool; OnPools (Next []); OnGetWorkPool] eq_refl)).
Defined.

End WorkPool.
