(* ===== verification/NodeDht.v ===== *)
(** * The routing table of the node

    [src/frontend/src/app/features/network/node-dht]: the peers of the buckets
    with their distances ([network-node-dht.service.ts]), the store
    ([network-node-dht.reducer.ts]) and the effects
    ([network-node-dht.effects.ts]). *)

From Stdlib Require Import Ascii.
From stdpp Require Import base list gmap strings.
From S2P Require Import Prelude SharedLib.
Open Scope Z_scope.

Module NodeDht.

(** ** Data *)

(** What the node sends. *)
Record Entry := mkEntry {
  peer_id : string; e_libp2p : string; e_key : string; dist : string;
  e_addrs : list string; e_connection : string
}.

Record Bucket := mkBucket { max_dist : string; entries : list Entry }.

Record Response := mkResponse { this_key : string; r_buckets : list Bucket }.

(** The column shows a dash for the node itself. *)
Inductive XorDistance := Dash | Zeros (n : nat).

Record Peer := mkPeer {
  peerId : string;
  key : string;
  addressesLength : nat;
  addrs : list string;
  libp2p : string;
  connection : string;
  hexDistance : string;
  binaryDistance : string;
  xorDistance : XorDistance;
  bucketMaxHex : string;
  bucketIndex : nat
}.

Record BucketInfo := mkBucketInfo { b_peers : nat; maxCapacity : nat; b_maxHex : string }.

Record Payload := mkPayload {
  p_peers : list Peer; p_thisKey : string; p_buckets : list BucketInfo
}.

Record State := mkState {
  peers : list Peer;
  thisKey : string;
  activePeer : option Peer;
  buckets : list BucketInfo;
  sidePanelWidth : Z
}.

Inductive Action :=
| Init
| Close
| GetPeers
| GetPeersSuccess (payload : Payload)
| SetActivePeer (payload : option Peer)
| SidePanelResize (payload : Z).

(** ** Numbers *)

Definition hex_digit (c : Ascii.ascii) : option Z :=
  let n := Z.of_nat (Ascii.nat_of_ascii c) in
  if (48 <=? n) && (n <=? 57) then Some (n - 48)
  else if (97 <=? n) && (n <=? 102) then Some (n - 87)
  else if (65 <=? n) && (n <=? 70) then Some (n - 55)
  else None.

Fixpoint hex_digits (acc : Z) (s : string) : option Z :=
  match s with
  | EmptyString => Some acc
  | String c s' => match hex_digit c with
                   | Some d => hex_digits (16 * acc + d) s'
                   | None => None
                   end
  end.

(** [BigInt('0x' + hex)]: blanks at the end are dropped and there must be a
    digit. *)
Definition BigInt_hex (hex : string) : result Z :=
  match trim_right hex with
  | EmptyString => Throw ("Cannot convert 0x" +:+ hex +:+ " to a BigInt")
  | s => match hex_digits 0 s with
         | Some v => Ok v
         | None => Throw ("Cannot convert 0x" +:+ hex +:+ " to a BigInt")
         end
  end.

(** [n.toString(2)] *)
Fixpoint bin_pos (p : positive) (acc : string) : string :=
  match p with
  | xH => String "1"%char acc
  | xO q => bin_pos q (String "0"%char acc)
  | xI q => bin_pos q (String "1"%char acc)
  end.

Definition toString2 (n : Z) : string :=
  match n with
  | Z0 => "0"
  | Zpos p => bin_pos p ""
  | Zneg p => "-" +:+ bin_pos p ""
  end.

(** [s.padStart(n, '0')] *)
Definition padStart0 (n : nat) (s : string) : string :=
  string_repeat "0" (n - String.length s) +:+ s.

Definition hexToBinary (hex : string) : result string :=
  match BigInt_hex hex with
  | Ok v => Ok (padStart0 256 (toString2 v))
  | Throw e => Throw e
  end.

(** The loop of the code, which stops at the first character that is not a
    zero. *)
Fixpoint getNumberOfZerosUntilFirst1 (binaryString : string) : nat :=
  match binaryString with
  | String "0"%char s => S (getNumberOfZerosUntilFirst1 s)
  | _ => 0
  end.

(** ** Service *)

Definition is_upper (c : Ascii.ascii) : bool :=
  let n := Z.of_nat (Ascii.nat_of_ascii c) in (65 <=? n) && (n <=? 90).

(** [connection.replace(/([A-Z])/g, ' $1')] *)
Fixpoint space_capitals (s : string) : string :=
  match s with
  | EmptyString => EmptyString
  | String c s' => if is_upper c then String " "%char (String c (space_capitals s'))
                   else String c (space_capitals s')
  end.

Definition convertConnectionType (connection : string) : string :=
  trim (space_capitals connection).

(** One entry of the bucket at index [i]. The buckets of a parsed response are
    different objects, so [indexOf] finds the position of the bucket. *)
Definition mapEntry (thisKey : string) (i : nat) (bucket : Bucket) (entry : Entry) : result Peer :=
  match hexToBinary (dist entry) with
  | Throw e => Throw e
  | Ok binary =>
    Ok {| connection := convertConnectionType (e_connection entry);
          peerId := peer_id entry;
          addressesLength := length (e_addrs entry);
          addrs := e_addrs entry;
          key := e_key entry;
          hexDistance := dist entry;
          libp2p := e_libp2p entry;
          binaryDistance := binary;
          bucketIndex := i;
          xorDistance := if String.eqb (e_key entry) thisKey then Dash
                         else Zeros (getNumberOfZerosUntilFirst1 binary);
          bucketMaxHex := max_dist bucket |}
  end.

Fixpoint map_result {A B} (f : A -> result B) (l : list A) : result (list B) :=
  match l with
  | [] => Ok []
  | a :: l' => match f a with
               | Throw e => Throw e
               | Ok b => match map_result f l' with
                         | Throw e => Throw e
                         | Ok bs => Ok (b :: bs)
                         end
               end
  end.

(** The [reduce] over the buckets, from the bucket at index [i] on. *)
Fixpoint bucket_peers (thisKey : string) (i : nat) (acc : list Peer) (bs : list Bucket)
    : result (list Peer) :=
  match bs with
  | [] => Ok acc
  | b :: bs' => match map_result (mapEntry thisKey i b) (entries b) with
                | Throw e => Throw e
                | Ok nodes => bucket_peers thisKey (S i) (acc ++ nodes) bs'
                end
  end.

(** [splice] and [unshift] of the origin. *)
Definition origin_first (thisKey : string) (ps : list Peer) : list Peer :=
  match findIndex (fun p => String.eqb (key p) thisKey) ps with
  | Some (S i) => match ps !! S i with
                  | Some o => o :: take (S i) ps ++ drop (S (S i)) ps
                  | None => ps
                  end
  | _ => ps
  end.

Definition mapDhtPeers (response : Response) : result Payload :=
  match bucket_peers (this_key response) 0 [] (r_buckets response) with
  | Throw e => Throw e
  | Ok ps =>
    Ok {| p_peers := origin_first (this_key response) ps;
          p_thisKey := this_key response;
          p_buckets := (fun b => mkBucketInfo (length (entries b)) 20 (max_dist b))
                         <$> r_buckets response |}
  end.

(** ** Store *)

Definition initialState : State := mkState [] "" None [] (-1).

(** [peer.addrs.every((addr, i) => addr === other.addrs[i])] *)
Fixpoint same_addrs (a b : list string) : bool :=
  match a, b with
  | [], _ => true
  | x :: a', y :: b' => String.eqb x y && same_addrs a' b'
  | _ :: _, [] => false
  end.

Definition same_peer (p q : Peer) : bool :=
  String.eqb (peerId p) (peerId q) && (addressesLength p =? addressesLength q)%nat &&
  same_addrs (addrs p) (addrs q) && String.eqb (key p) (key q) &&
  String.eqb (hexDistance p) (hexDistance q) && String.eqb (libp2p p) (libp2p q).

Fixpoint every_same (ps qs : list Peer) : bool :=
  match ps, qs with
  | [], _ => true
  | p :: ps', q :: qs' => same_peer p q && every_same ps' qs'
  | _ :: _, [] => false
  end.

Definition sameRecord (s : State) (payload : Payload) : bool :=
  (length (peers s) =? length (p_peers payload))%nat &&
  String.eqb (thisKey s) (p_thisKey payload) && every_same (peers s) (p_peers payload).

Definition networkDhtReducer (s : State) (a : Action) : State :=
  match a with
  | GetPeersSuccess payload =>
    if sameRecord s payload then s
    else mkState (p_peers payload) (p_thisKey payload) (activePeer s) (p_buckets payload)
           (sidePanelWidth s)
  | SetActivePeer payload =>
    mkState (peers s) (thisKey s) payload (buckets s) (sidePanelWidth s)
  | SidePanelResize payload =>
    mkState (peers s) (thisKey s) (activePeer s) (buckets s) payload
  | Close => initialState
  | Init | GetPeers => s
  end.

(** ** Effects *)

Record EffectState := mkEffect { pendingRequest : bool; inFlight : bool }.

Definition initialEffect : EffectState := mkEffect false false.

Inductive Event :=
| OnInit
| OnGetPeers
| OnClose
| OnPeers (o : outcome Payload).

(** [init$] and [getPeers$]: a failure is caught after the [tap] that clears
    the flag. *)
Definition dht_effects (now : string) (e : EffectState) (ev : Event)
    : EffectState * list (dispatched Action) :=
  match ev with
  | OnInit => (e, [Dispatch GetPeers])
  | OnGetPeers => (if pendingRequest e then e else mkEffect true true, [])
  | OnClose => (mkEffect false false, [])
  | OnPeers o =>
    if inFlight e then
      match o with
      | Next payload =>
        (mkEffect false false,
         catchErrorAndRepeat now RUST (GetPeersSuccess (mkPayload [] "" []))
           (Next (GetPeersSuccess payload)))
      | Failed err =>
        (mkEffect (pendingRequest e) false,
         catchErrorAndRepeat now RUST (GetPeersSuccess (mkPayload [] "" [])) (Failed err))
      end
    else (e, [])
  end.

(** ** Distances *)

(** The number a string of binary digits denotes, after [a]. *)
Fixpoint bin_value (a : Z) (s : string) : Z :=
  match s with
  | EmptyString => a
  | String c s' => bin_value (2 * a + (if Ascii.eqb c "1" then 1 else 0)) s'
  end.

Definition is_hex (s : string) : Prop :=
  Forall (fun c => is_Some (hex_digit c)) (String.list_ascii_of_string s).

Lemma bin_value_acc a s : bin_value a s = a * 2 ^ Z.of_nat (String.length s) + bin_value 0 s.
Proof.
  revert a. induction s as [|c s IH]; intros a; cbn -[Z.pow Z.of_nat Z.mul]; [lia|].
  rewrite IH, (IH (2 * 0 + _)), Nat2Z.inj_succ, Z.pow_succ_r by lia. ring.
Qed.

Lemma bin_value_bound s : 0 <= bin_value 0 s < 2 ^ Z.of_nat (String.length s).
Proof.
  induction s as [|c s IH]; [cbn; lia|]. cbn -[Z.pow Z.of_nat Z.mul].
  rewrite bin_value_acc, Nat2Z.inj_succ, Z.pow_succ_r by lia. destruct (Ascii.eqb c "1"); lia.
Qed.

Lemma bin_value_zeros n s : bin_value 0 (string_repeat "0" n +:+ s) = bin_value 0 s.
Proof. induction n as [|n IH]; [done|]. exact IH. Qed.

Lemma bin_pos_value p a acc :
  bin_value a (bin_pos p acc) = bin_value (a * 2 ^ Z.of_nat (Pos.size_nat p) + Z.pos p) acc.
Proof.
  revert a acc. induction p as [p IH|p IH|]; intros a acc; cbn [bin_pos Pos.size_nat].
  - rewrite IH, Nat2Z.inj_succ, Z.pow_succ_r, Pos2Z.inj_xI by lia. cbn [bin_value].
    change (Ascii.eqb "1" "1") with true. cbv iota. apply (f_equal (fun v => bin_value v acc)).
    generalize (2 ^ Z.of_nat (Pos.size_nat p)); lia.
  - rewrite IH, Nat2Z.inj_succ, Z.pow_succ_r, Pos2Z.inj_xO by lia. cbn [bin_value].
    change (Ascii.eqb "0" "1") with false. cbv iota. apply (f_equal (fun v => bin_value v acc)).
    generalize (2 ^ Z.of_nat (Pos.size_nat p)); lia.
  - cbn [bin_value]. change (Ascii.eqb "1" "1") with true.
    cbv iota. apply (f_equal (fun v => bin_value v acc)). change (2 ^ Z.of_nat 1) with 2. lia.
Qed.

Lemma bin_pos_length p acc :
  String.length (bin_pos p acc) = (Pos.size_nat p + String.length acc)%nat.
Proof.
  revert acc. induction p as [p IH|p IH|]; intros acc; cbn; rewrite ?IH; cbn; lia.
Qed.

Lemma size_nat_le p n : Z.pos p < 2 ^ Z.of_nat n -> (Pos.size_nat p <= n)%nat.
Proof.
  revert n. induction p as [p IH|p IH|]; intros [|n] H; cbn [Pos.size_nat];
    try (cbn in H; lia).
  all: rewrite Nat2Z.inj_succ, Z.pow_succ_r in H by lia.
  all: apply le_n_S, IH; lia.
Qed.

Lemma toString2_value v : 0 <= v -> bin_value 0 (toString2 v) = v.
Proof. destruct v as [|p|p]; intros H; [done| |lia]. cbn [toString2]. by rewrite bin_pos_value. Qed.

Lemma padStart0_length n s :
  (String.length s <= n)%nat -> String.length (padStart0 n s) = n.
Proof.
  intros H. unfold padStart0. rewrite string_length_app, string_length_repeat. cbn. lia.
Qed.

Lemma toString2_length v n :
  (0 < n)%nat -> 0 <= v < 2 ^ Z.of_nat n -> (String.length (toString2 v) <= n)%nat.
Proof.
  destruct v as [|p|p]; intros Hn H; cbn [toString2]; [cbn; lia| |lia].
  rewrite bin_pos_length. pose proof (size_nat_le p n). cbn. lia.
Qed.

(** The leading zeros of a string say between which powers of two it is. *)
Lemma leading_zeros_spec s :
  Forall (fun c => c = "0"%char \/ c = "1"%char) (String.list_ascii_of_string s) ->
  let z := getNumberOfZerosUntilFirst1 s in
  (z <= String.length s)%nat /\
  bin_value 0 s < 2 ^ (Z.of_nat (String.length s) - Z.of_nat z) /\
  ((z < String.length s)%nat -> 2 ^ (Z.of_nat (String.length s) - Z.of_nat z - 1) <= bin_value 0 s).
Proof.
  induction s as [|c s IH]; intros H; [cbn; split_and!; lia|].
  inversion H as [|? ? [->| ->] Hs]; subst.
  - destruct (IH Hs) as (H1 & H2 & H3). cbn [getNumberOfZerosUntilFirst1 String.length].
    change (bin_value 0 (String "0" s)) with (bin_value 0 s).
    rewrite !Nat2Z.inj_succ.
    replace (Z.succ (Z.of_nat (String.length s)) - Z.succ (Z.of_nat (getNumberOfZerosUntilFirst1 s)))
      with (Z.of_nat (String.length s) - Z.of_nat (getNumberOfZerosUntilFirst1 s)) by lia.
    split_and!; [lia|done|intros; apply H3; lia].
  - pose proof (bin_value_bound (String "1" s)) as Hb.
    cbn [getNumberOfZerosUntilFirst1]. change (Z.of_nat 0) with 0. split_and!; [lia|rewrite Z.sub_0_r; lia|intros _].
    cbn -[Z.pow Z.of_nat Z.mul]. rewrite bin_value_acc, Nat2Z.inj_succ.
    pose proof (bin_value_bound s).
    replace (Z.succ (Z.of_nat (String.length s)) - 0 - 1)
      with (Z.of_nat (String.length s)) by lia. lia.
Qed.

Lemma hex_digits_bound a s v :
  0 <= a -> hex_digits a s = Some v ->
  a * 16 ^ Z.of_nat (String.length s) <= v < (a + 1) * 16 ^ Z.of_nat (String.length s).
Proof.
  revert a. induction s as [|c s IH]; intros a Ha; cbn [hex_digits String.length].
  { intros [= ->]. change (16 ^ Z.of_nat 0) with 1. lia. }
  destruct (hex_digit c) as [d|] eqn:Hd; [|done]. intros Hv.
  assert (0 <= d < 16) by (unfold hex_digit in Hd; repeat case_match; simplify_eq; lia).
  apply IH in Hv; [|lia]. rewrite Nat2Z.inj_succ, Z.pow_succ_r by lia.
  assert (0 < 16 ^ Z.of_nat (String.length s)) by lia. nia.
Qed.

Lemma hex_digits_total a s : is_hex s -> is_Some (hex_digits a s).
Proof.
  revert a. induction s as [|c s IH]; intros a H; [by eexists|].
  inversion H as [|? ? [d Hd] Hs]; subst. cbn [hex_digits]. rewrite Hd. by apply IH.
Qed.

Lemma hex_not_blank c : is_Some (hex_digit c) -> is_blank c = false.
Proof.
  intros [d Hd]. destruct (is_blank c) eqn:Hb; [|done]. exfalso.
  unfold is_blank in Hb. unfold hex_digit in Hd.
  rewrite !orb_true_iff, andb_true_iff, !Nat.leb_le, !Nat.eqb_eq in Hb.
  repeat case_match; rewrite ?andb_true_iff in *; simplify_eq; lia.
Qed.

Lemma trim_right_hex s : is_hex s -> trim_right s = s.
Proof.
  induction s as [|c s IH]; intros H; [done|]. inversion H as [|? ? Hc Hs]; subst.
  cbn [trim_right]. rewrite (IH Hs), (hex_not_blank c Hc). by destruct s.
Qed.

Lemma BigInt_hex_ok hex :
  is_hex hex -> hex <> EmptyString ->
  exists v, hex_digits 0 hex = Some v /\ BigInt_hex hex = Ok v /\
            0 <= v < 16 ^ Z.of_nat (String.length hex).
Proof.
  intros Hh Hne. destruct (hex_digits_total 0 hex Hh) as [v Hv]. exists v.
  split; [done|]. split.
  - unfold BigInt_hex. rewrite trim_right_hex by done. destruct hex; [done|]. by rewrite Hv.
  - pose proof (hex_digits_bound 0 hex v ltac:(lia) Hv). lia.
Qed.

Definition is_bin (s : string) : Prop :=
  Forall (fun c => c = "0"%char \/ c = "1"%char) (String.list_ascii_of_string s).

Lemma is_bin_toString2 v : 0 <= v -> is_bin (toString2 v).
Proof.
  assert (Hp : forall p acc, is_bin acc -> is_bin (bin_pos p acc)).
  { induction p as [p IH|p IH|]; intros acc Ha; cbn; try apply IH;
      apply Forall_cons; auto. }
  destruct v as [|p|p]; intros H; [|apply Hp|lia]; repeat constructor; auto.
Qed.

Lemma is_bin_padStart0 n s : is_bin s -> is_bin (padStart0 n s).
Proof.
  intros H. unfold padStart0. induction (n - String.length s)%nat as [|k IH]; [done|].
  apply Forall_cons; auto.
Qed.

(** C15: the distance of at most 64 hexadecimal digits becomes a string of 256
    binary digits that denotes the same number, and the exclusive-or distance
    shown for a peer is the position of the highest bit set, counted from the
    left: 256 for a distance of zero, else 255 less the binary logarithm. *)
Theorem xor_distance_correct hex :
  is_hex hex -> hex <> EmptyString -> (String.length hex <= 64)%nat ->
  exists v b, hex_digits 0 hex = Some v /\ hexToBinary hex = Ok b /\
    String.length b = 256%nat /\ bin_value 0 b = v /\
    (v = 0 -> getNumberOfZerosUntilFirst1 b = 256%nat) /\
    (v <> 0 -> Z.of_nat (getNumberOfZerosUntilFirst1 b) = 255 - Z.log2 v).
Proof.
  intros Hh Hne Hl. destruct (BigInt_hex_ok hex Hh Hne) as (v & Hv & HB & H0 & Hb).
  exists v, (padStart0 256 (toString2 v)). split; [done|].
  split; [unfold hexToBinary; by rewrite HB|].
  assert (Hv2 : v < 2 ^ Z.of_nat 256).
  { change (2 ^ Z.of_nat 256) with (16 ^ 64).
    pose proof (Z.pow_le_mono_r 16 (Z.of_nat (String.length hex)) 64). lia. }
  assert (Hlen := padStart0_length 256 (toString2 v) (toString2_length v 256 ltac:(lia) (conj H0 Hv2))).
  assert (Hval : bin_value 0 (padStart0 256 (toString2 v)) = v)
    by (unfold padStart0; by rewrite bin_value_zeros, toString2_value).
  split; [done|]. split; [done|].
  destruct (leading_zeros_spec _ (is_bin_padStart0 256 _ (is_bin_toString2 v H0))) as (Hz1 & Hz2 & Hz3).
  rewrite Hlen, Hval in *. clear Hlen Hval Hv2.
  set (z := getNumberOfZerosUntilFirst1 _) in *. clearbody z.
  split; intros Hv0.
  - destruct (decide (z < 256)%nat) as [Hlt|]; [|lia]. specialize (Hz3 Hlt). lia.
  - destruct (decide (z = 256%nat)) as [->|]; [cbn in Hz2; lia|].
    rewrite (Z.log2_unique v (255 - Z.of_nat z)); [lia..|].
    replace (Z.succ (255 - Z.of_nat z)) with (Z.of_nat 256 - Z.of_nat z) by lia.
    split; [|done]. replace (255 - Z.of_nat z) with (Z.of_nat 256 - Z.of_nat z - 1) by lia.
    apply Hz3. lia.
Qed.

Lemma xor_distance_correct_witness :
  exists v b, hex_digits 0 "00a3" = Some v /\ hexToBinary "00a3" = Ok b /\
    (v <> 0 -> Z.of_nat (getNumberOfZerosUntilFirst1 b) = 255 - Z.log2 v).
Proof.
  destruct (xor_distance_correct "00a3") as (v & b & H1 & H2 & _ & _ & _ & H3);
    [repeat constructor; by eexists|done|cbn; lia|]. by exists v, b.
Defined.

(** ** Peers *)

(** The entries of the buckets with their bucket, from index [i] on. *)
Fixpoint indexed_entries (i : nat) (bs : list Bucket) : list (nat * Bucket * Entry) :=
  match bs with
  | [] => []
  | b :: bs' => ((fun e => (i, b, e)) <$> entries b) ++ indexed_entries (S i) bs'
  end.

(** The peer [p] shows the entry [x]. *)
Definition shows (k : string) (x : nat * Bucket * Entry) (p : Peer) : Prop :=
  mapEntry k x.1.1 x.1.2 x.2 = Ok p.

Definition parses (x : nat * Bucket * Entry) : Prop :=
  exists v, BigInt_hex (dist x.2) = Ok v.

Lemma map_result_Ok {A B} (f : A -> result B) l bs :
  map_result f l = Ok bs <-> Forall2 (fun a b => f a = Ok b) l bs.
Proof.
  revert bs. induction l as [|a l IH]; intros bs; cbn [map_result].
  - split; [intros [= <-]; constructor|by inversion 1].
  - split.
    + destruct (f a) as [b|] eqn:Hf; [|done]. destruct (map_result f l); [|done].
      intros [= <-]. constructor; [done|]. by apply IH.
    + inversion 1 as [|? b ? bs' Hf Hl]; subst. apply IH in Hl. by rewrite Hf, Hl.
Qed.

Lemma map_result_bucket k i b ps :
  map_result (mapEntry k i b) (entries b) = Ok ps <->
  Forall2 (shows k) ((fun e => (i, b, e)) <$> entries b) ps.
Proof. rewrite Forall2_fmap_l. apply map_result_Ok. Qed.

Lemma bucket_peers_Ok k i acc bs out :
  bucket_peers k i acc bs = Ok out <->
  exists all, out = acc ++ all /\ Forall2 (shows k) (indexed_entries i bs) all.
Proof.
  revert i acc. induction bs as [|b bs IH]; intros i acc; cbn [bucket_peers indexed_entries].
  - split; [intros [= ->]; exists []; by rewrite app_nil_r|].
    intros (all & -> & H). inversion H; subst. by rewrite app_nil_r.
  - pose proof (map_result_bucket k i b) as Hb.
    destruct (map_result (mapEntry k i b) (entries b)) as [nodes|e].
    + rewrite IH. split.
      * intros (all & -> & H). exists (nodes ++ all). rewrite app_assoc. split; [done|].
        apply Forall2_app; [by apply Hb|done].
      * intros (all & -> & H). apply Forall2_app_inv_l in H as (n' & all' & H1 & H2 & ->).
        apply Hb in H1 as [= ->]. exists all'. by rewrite app_assoc.
    + split; [done|]. intros (all & _ & H).
      apply Forall2_app_inv_l in H as (n' & all' & H1 & _). by apply Hb in H1.
Qed.

Lemma shows_parses k x p : shows k x p -> parses x.
Proof.
  unfold shows, mapEntry, hexToBinary, parses.
  destruct (BigInt_hex _) as [v|]; [by exists v|done].
Qed.

Lemma parses_shows k x : parses x -> exists p, shows k x p.
Proof. intros [v Hv]. unfold shows, mapEntry, hexToBinary. rewrite Hv. by eexists. Qed.

Lemma shows_all k xs : Forall parses xs <-> exists ps, Forall2 (shows k) xs ps.
Proof.
  split.
  - induction 1 as [|x xs Hx _ [ps IH]]; [by exists []|].
    destruct (parses_shows k x Hx) as [p Hp]. exists (p :: ps). by constructor.
  - intros [ps H]. induction H; constructor; eauto using shows_parses.
Qed.

Lemma origin_first_split k l1 o l2 :
  (forall p, p ∈ l1 -> key p <> k) -> key o = k ->
  origin_first k (l1 ++ o :: l2) = o :: l1 ++ l2.
Proof.
  intros H1 Ho. unfold origin_first. rewrite findIndex_app.
  replace (findIndex _ l1) with (@None nat).
  2: { symmetry. apply findIndex_None. intros p Hp. apply String.eqb_neq. by apply H1. }
  cbn [findIndex]. rewrite (proj2 (String.eqb_eq _ _) Ho). cbn. rewrite Nat.add_0_r.
  assert (Hd : drop (S (length l1)) (l1 ++ o :: l2) = l2).
  { rewrite drop_app_ge by lia. by replace (S (length l1) - length l1)%nat with 1%nat by lia. }
  pose proof (list_lookup_middle l1 l2 o _ eq_refl) as Ho'.
  pose proof (take_app_length l1 (o :: l2)) as Ht.
  destruct (length l1) as [|n] eqn:Hn; [by destruct l1|]. by rewrite Ho', Ht, Hd.
Qed.

Lemma origin_first_absent k ps : (forall p, p ∈ ps -> key p <> k) -> origin_first k ps = ps.
Proof.
  intros H. unfold origin_first. rewrite (proj2 (findIndex_None _ _)); [done|].
  intros p Hp. apply String.eqb_neq. by apply H.
Qed.

Lemma first_match k ps :
  (forall p, p ∈ ps -> key p <> k) \/
  exists l1 o l2, ps = l1 ++ o :: l2 /\ (forall p, p ∈ l1 -> key p <> k) /\ key o = k.
Proof.
  induction ps as [|p ps [IH|(l1 & o & l2 & -> & H1 & Ho)]].
  - left. intros p Hp. inversion Hp.
  - destruct (decide (key p = k)) as [Hk|Hk].
    + right. exists [], p, ps. split_and!; [done| |done]. intros q Hq; inversion Hq.
    + left. intros q [->|Hq]%elem_of_cons; auto.
  - destruct (decide (key p = k)) as [Hk|Hk]; right.
    + exists [], p, (l1 ++ o :: l2). split_and!; [done| |done]. intros q Hq; inversion Hq.
    + exists (p :: l1), o, l2. split_and!; [done| |done]. intros q [->|Hq]%elem_of_cons; auto.
Qed.

Lemma indexed_entries_length i bs :
  length (indexed_entries i bs) = sum_list ((fun b => length (entries b)) <$> bs).
Proof.
  revert i. induction bs as [|b bs IH]; intros i; [done|]. cbn.
  by rewrite length_app, length_fmap, IH.
Qed.

(** A response is shown exactly when every distance in it is a number.
    Then each entry of each bucket is shown once, in order but for the node's
    own entry, which comes first when there is one, and the bucket sizes add
    up to the number of peers. *)
Theorem peers_of_buckets r :
  (Forall parses (indexed_entries 0 (r_buckets r)) <-> exists out, mapDhtPeers r = Ok out) /\
  forall out, mapDhtPeers r = Ok out ->
  sum_list (b_peers <$> p_buckets out) = length (p_peers out) /\
  exists all, Forall2 (shows (this_key r)) (indexed_entries 0 (r_buckets r)) all /\
    ((forall p, p ∈ all -> key p <> this_key r) /\ p_peers out = all \/
     exists l1 o l2, all = l1 ++ o :: l2 /\ (forall p, p ∈ l1 -> key p <> this_key r) /\
       key o = this_key r /\ p_peers out = o :: l1 ++ l2).
Proof.
  unfold mapDhtPeers. split.
  - rewrite (shows_all (this_key r)). split.
    + intros [ps H]. destruct (bucket_peers _ _ _ _) eqn:E; [by eexists|].
      rewrite (proj2 (bucket_peers_Ok _ _ _ _ ps)) in E; [done|]. by exists ps.
    + intros [out H]. destruct (bucket_peers _ _ _ _) eqn:E; [|done].
      apply bucket_peers_Ok in E as (all & _ & HF). by exists all.
  - intros out H. destruct (bucket_peers _ _ _ _) as [ps|] eqn:E; [|done].
    apply bucket_peers_Ok in E as (all & -> & HF). injection H as <-. cbn [p_peers p_buckets app].
    pose proof (Forall2_length _ _ _ HF) as Hlen. rewrite indexed_entries_length in Hlen.
    rewrite <- list_fmap_compose. unfold compose. cbn [b_peers].
    destruct (first_match (this_key r) all) as [Hn|(l1 & o & l2 & -> & H1 & Ho)].
    + rewrite origin_first_absent by done. split; [done|]. exists all. auto.
    + rewrite origin_first_split by done. split.
      { rewrite Hlen. cbn [length]. rewrite !length_app. cbn. lia. }
      exists (l1 ++ o :: l2). split; [done|]. right. by exists l1, o, l2.
Qed.

(** ** Store and effects *)

(** What [sameRecord] compares. *)
Definition identity (p : Peer) : string * list string * string * string * string :=
  (peerId p, addrs p, key p, hexDistance p, libp2p p).

Definition counted (p : Peer) : Prop := addressesLength p = length (addrs p).

Lemma same_addrs_eq a b : length a = length b -> same_addrs a b = true -> a = b.
Proof.
  revert b. induction a as [|x a IH]; intros [|y b] Hl; try done. cbn.
  intros [->%String.eqb_eq H]%andb_true_iff. f_equal. apply IH; [|done]. cbn in Hl. lia.
Qed.

Lemma every_same_identity ps qs :
  length ps = length qs -> Forall counted ps -> Forall counted qs ->
  every_same ps qs = true -> identity <$> ps = identity <$> qs.
Proof.
  revert qs. induction ps as [|p ps IH]; intros [|q qs] Hl Hp Hq; try done.
  inversion Hp as [|? ? Cp Hps]; inversion Hq as [|? ? Cq Hqs]; subst. cbn [every_same].
  unfold same_peer. rewrite !andb_true_iff, !String.eqb_eq, Nat.eqb_eq.
  intros ((((((H1 & H2) & H3) & H4) & H5) & H6) & H).
  rewrite !fmap_cons. f_equal; [|apply IH; auto].
  unfold identity. rewrite H1, H4, H5, H6, (same_addrs_eq (addrs p) (addrs q)); [done| |done].
  unfold counted in *. congruence.
Qed.

(** After an answer the store holds the peers of the answer up to what the
    comparison skips: the same identities in the same order, for the same
    key. *)
Theorem peers_are_current s payload :
  Forall counted (peers s) -> Forall counted (p_peers payload) ->
  let s' := networkDhtReducer s (GetPeersSuccess payload) in
  identity <$> peers s' = identity <$> p_peers payload /\ thisKey s' = p_thisKey payload /\
  Forall counted (peers s').
Proof.
  intros Hs Hp. cbn. destruct (sameRecord s payload) eqn:E; [|done].
  unfold sameRecord in E. rewrite !andb_true_iff, Nat.eqb_eq, String.eqb_eq in E.
  destruct E as [[Hl Hk] He]. split_and!; [|done..]. by apply every_same_identity.
Qed.

Definition sample_peer (connection : string) : Peer :=
  mkPeer "a" "k" 1 ["x"] "l" connection "1" "1" (Zeros 0) "f" 0.

Lemma peers_are_current_witness :
  let s' := networkDhtReducer initialState
              (GetPeersSuccess (mkPayload [sample_peer "Connected"] "t" [])) in
  identity <$> peers s' = [("a", ["x"], "k", "1", "l")].
Proof.
  refine (proj1 (peers_are_current initialState (mkPayload [sample_peer "Connected"] "t" []) _ _));
    repeat constructor.
Defined.

(** A peer that connects is still shown as not connected. *)
Lemma connection_stale :
  let s := networkDhtReducer initialState
             (GetPeersSuccess (mkPayload [sample_peer "Not Connected"] "t" [])) in
  networkDhtReducer s (GetPeersSuccess (mkPayload [sample_peer "Connected"] "t" [])) = s.
Proof. reflexivity. Qed.

(** After a failed load no load starts until the page is closed. *)
Lemma failed_load_blocks now err e :
  pendingRequest e = true -> inFlight e = true ->
  let e' := (dht_effects now e (OnPeers (Failed err))).1 in
  dht_effects now e' OnGetPeers = (e', []) /\ inFlight e' = false /\
  inFlight (dht_effects now (dht_effects now e' OnClose).1 OnGetPeers).1 = true.
Proof. intros Hp Hf. cbn. by rewrite Hf, Hp. Qed.

End NodeDht.
