(* ===== verification/Ledger.v ===== *)
(** * The hardware wallet

    [src/frontend/src/app/shared/helpers/ledger.helper.ts]: the messages to the
    Mina app of a Ledger device and the reading of its answers.

    Strings are lists of UTF-16 code units and buffers lists of bytes. A number
    argument that is missing or not a number is [None]; fractions are not
    modelled, except that where the code asks for an integer they are [None]
    too. The transport is a parameter. *)

From stdpp Require Import base list strings.
From S2P Require Import Prelude SharedLib.
Open Scope Z_scope.

Module Ledger.

Definition jstr := list Z.

(** A string literal. *)
Definition lit (s : string) : jstr :=
  (fun c => Z.of_nat (Ascii.nat_of_ascii c)) <$> String.list_ascii_of_string s.

(** ** Buffers *)

Definition hex_char (d : Z) : Z := if d <? 10 then 48 + d else 87 + d.

Definition nibble (c : Z) : option Z :=
  if (48 <=? c) && (c <=? 57) then Some (c - 48)
  else if (97 <=? c) && (c <=? 102) then Some (c - 87)
  else if (65 <=? c) && (c <=? 70) then Some (c - 55)
  else None.

(** [buffer.toString('hex')] *)
Definition to_hex (bs : list Z) : jstr :=
  bs ≫= fun b => [hex_char (b / 16); hex_char (b mod 16)].

(** [Buffer.from(s, 'hex')] stops at the first pair that is not hexadecimal. *)
Fixpoint from_hex (s : jstr) : list Z :=
  match s with
  | a :: b :: s' => match nibble a, nibble b with
                    | Some x, Some y => (16 * x + y) :: from_hex s'
                    | _, _ => []
                    end
  | _ => []
  end.

(** [Buffer.from(s, 'ascii')] *)
Definition ascii_bytes (s : jstr) : list Z := (fun c => c mod 256) <$> s.

(** [Buffer.from(s, 'utf8')]; a surrogate without its partner becomes the
    replacement character. *)
Fixpoint utf8_bytes (s : jstr) : list Z :=
  match s with
  | [] => []
  | c :: s' =>
    if c <? 128 then c :: utf8_bytes s'
    else if c <? 2048 then (192 + c / 64) :: (128 + c mod 64) :: utf8_bytes s'
    else if (55296 <=? c) && (c <=? 57343) then
      match s' with
      | d :: s'' =>
        if (c <=? 56319) && (56320 <=? d) && (d <=? 57343) then
          let p := 65536 + (c - 55296) * 1024 + (d - 56320) in
          (240 + p / 262144) :: (128 + (p / 4096) mod 64) :: (128 + (p / 64) mod 64)
            :: (128 + p mod 64) :: utf8_bytes s''
        else 239 :: 191 :: 189 :: utf8_bytes s'
      | [] => [239; 191; 189]
      end
    else (224 + c / 4096) :: (128 + (c / 64) mod 64) :: (128 + c mod 64) :: utf8_bytes s'
  end.

(** An index of [slice]: negative ones count from the end. *)
Definition slice_index {A} (l : list A) (i : Z) : nat :=
  if i <? 0 then Z.to_nat (Z.of_nat (length l) + i) else Z.to_nat (Z.min i (Z.of_nat (length l))).

Definition js_slice {A} (l : list A) (a b : Z) : list A :=
  take (slice_index l b - slice_index l a) (drop (slice_index l a) l).

(** ** Numbers *)

Fixpoint hex_string (fuel : nat) (n : Z) : jstr :=
  match fuel with
  | O => []
  | S f => if n <? 16 then [hex_char n] else hex_string f (n / 16) ++ [hex_char (n mod 16)]
  end.

(** [n.toString(16)]: a number has no more hexadecimal than binary digits. *)
Definition hex_of_nat (n : Z) : jstr := hex_string (S (Z.to_nat (Z.log2 n))) n.

Definition toString16 (n : Z) : jstr :=
  if n <? 0 then 45 :: hex_of_nat (- n) else hex_of_nat n.

Definition to_upper (c : Z) : Z := if (97 <=? c) && (c <=? 122) then c - 32 else c.

Definition toUpperCase (s : jstr) : jstr := to_upper <$> s.

(** [pad(n, width)] with the default padding [0]. *)
Definition pad (n : jstr) (width : nat) : jstr :=
  drop (length n) (replicate width 48 ++ n).

(** ** Transactions *)

Record SignTransactionArgs := mkArgs {
  txType : option Z;
  senderAccount : option Z;
  senderAddress : jstr;
  receiverAddress : jstr;
  amount : option Z;
  fee : option Z;
  nonce : option Z;
  validUntil : option Z;
  memo : option jstr;
  networkId : option Z
}.

Definition asciiToHex (s : jstr) : jstr := to_hex (ascii_bytes s).

(** The loop appends a null character until there are 32. *)
Fixpoint fill_memo (charToAdd : nat) (s : jstr) : jstr :=
  match charToAdd with O => s | S n => fill_memo n (s ++ [0]) end.

Definition convertMemo (m : jstr) : jstr := to_hex (utf8_bytes (fill_memo (32 - length m) m)).

(** The arguments once they are known to be numbers. *)
Record Tx := mkTx {
  t_txType : Z; t_account : Z; t_sender : jstr; t_receiver : jstr; t_amount : Z; t_fee : Z;
  t_nonce : Z; t_validUntil : Z; t_memo : jstr; t_networkId : Z
}.

Definition createTXApdu (t : Tx) : jstr :=
  pad (toString16 (t_account t)) 8 ++
  asciiToHex (t_sender t) ++
  asciiToHex (t_receiver t) ++
  pad (toString16 (t_amount t)) 16 ++
  pad (toString16 (t_fee t)) 16 ++
  pad (toUpperCase (toString16 (t_nonce t))) 8 ++
  pad (toString16 (t_validUntil t)) 8 ++
  convertMemo (t_memo t) ++
  pad (toString16 (t_txType t)) 2 ++
  pad (lit (show (t_networkId t))) 2.

(** An answer of the helper: [value] is the signature, key, name or version. *)
Record Response := mkResponse {
  value : option jstr;
  r_version : option jstr;      (* only of [getAppName] *)
  returnCode : jstr;
  r_message : option jstr;
  r_statusText : option jstr
}.

Definition refusal (code message statusText : string) : Response :=
  mkResponse None None (lit code) (Some (lit message)) (Some (lit statusText)).

(** What [transport.send] ends in. *)
Record SendError := mkSendError {
  statusCode : option Z; e_returnCode : option jstr; e_message : option jstr; e_statusText : option jstr
}.

Inductive Sent := Answer (bs : list Z) | SendFailed (e : SendError).

(** [send(cla, ins, p1, p2, data, statusList)] *)
Definition Transport := Z -> Z -> Z -> Z -> option (list Z) -> option (list Z) -> Sent.

Definition CLA_LEDGER : Z := 176.
Definition GET_NAME_VERSION : Z := 1.
Definition CLA_APP : Z := 224.
Definition GET_VERSION : Z := 1.
Definition GET_ADDR : Z := 2.
Definition SIGN : Z := 3.
Definition SW_OK : Z := 36864.
Definition SW_CANCEL : Z := 27014.

(** The constructor's check. *)
Definition newMinaLedgerJS (transport : option Transport) : result Transport :=
  match transport with
  | None => Throw "Transport cannot be empty"
  | Some t => Ok t
  end.

(** The part of [signTransaction] before the message is sent: a refusal or the
    data to send. *)
Definition prepareSign (a : SignTransactionArgs) : Response + list Z :=
  let m := default [] (memo a) in
  match txType a, senderAccount a, amount a, fee a, nonce a, networkId a with
  | Some ty, Some acc, Some am, Some fe, Some no, Some net =>
    if (length (senderAddress a) =? 0)%nat || (length (receiverAddress a) =? 0)%nat ||
       ((am =? 0) && (ty =? 0)) || (fe =? 0)
    then inl (refusal "-1" "Missing or wrong arguments" "MISSING_ARGUMENTS")
    else if (32 <? length m)%nat
    then inl (refusal "-3" "Memo field too long" "MEMO_TOO_BIG")
    else if fe <? 1000000
    then inl (refusal "-4" "Fee too small" "FEE_TOO_SMALL")
    else
      let data := from_hex (createTXApdu
        (mkTx ty acc (senderAddress a) (receiverAddress a) am fe no
              (default 4294967295 (validUntil a)) m net)) in
      if (256 <? length data)%nat
      then inl (refusal "-2" "data length > 256 bytes" "DATA_TOO_BIG")
      else inr data
  | _, _, _, _, _, _ => inl (refusal "-1" "Missing or wrong arguments" "MISSING_ARGUMENTS")
  end.

Definition code_of (bs : list Z) : jstr :=
  to_hex (js_slice bs (Z.of_nat (length bs) - 2) (Z.of_nat (length bs))).

Definition signTransaction (send : Transport) (a : SignTransactionArgs) : result Response :=
  match prepareSign a with
  | inl r => Ok r
  | inr data =>
    match send CLA_APP SIGN 0 0 (Some data) (Some [SW_OK; SW_CANCEL]) with
    | Answer bs =>
      Ok (mkResponse (Some (to_hex (js_slice bs 0 (Z.of_nat (length bs) - 2)))) None
            (code_of bs) None None)
    | SendFailed e =>
      match statusCode e with
      | Some c => Ok (mkResponse None None (lit (show c)) (e_message e) (e_statusText e))
      | None => Throw "Cannot read properties of undefined (reading 'toString')"
      end
    end
  end.

Section Answers.
(** [buffer.toString('utf8')] of the buffer package. *)
Variable utf8_decode : list Z -> jstr.

Definition or_5000 (code : option jstr) : jstr :=
  match code with
  | Some (c :: s) => c :: s
  | _ => lit "5000"
  end.

Definition getAddress (send : Transport) (account : option Z) : Response :=
  match account with
  | None => refusal "-5" "Account number must be Int" "ACCOUNT_NOT_INT"
  | Some n =>
    let failed (e : SendError) :=
      mkResponse None None (or_5000 (e_returnCode e)) (e_message e) (e_statusText e) in
    match send CLA_APP GET_ADDR 0 0 (Some (from_hex (pad (toString16 n) 8)))
            (Some [SW_OK; SW_CANCEL]) with
    | SendFailed e => failed e
    | Answer bs =>
      let publicKey := utf8_decode (js_slice bs 0 (Z.of_nat (length bs) - 3)) in
      if bool_decide (code_of bs = toString16 SW_OK)
      then mkResponse (Some publicKey) None (code_of bs) None None
      else failed (mkSendError None (Some (code_of bs)) (Some (lit "unknown error"))
                     (Some (lit "UNKNOWN_ERROR")))
    end
  end.

(** [s[i]] in a concatenation. *)
Definition char_at (s : jstr) (i : nat) : jstr :=
  match s !! i with Some c => [c] | None => lit "undefined" end.

Definition getAppVersion (send : Transport) : Response :=
  match send CLA_APP GET_VERSION 0 0 None None with
  | Answer bs =>
    let raw := to_hex (js_slice bs 0 (Z.of_nat (length bs) - 2)) in
    mkResponse (Some (char_at raw 1 ++ lit "." ++ char_at raw 2 ++ lit "." ++ char_at raw 3)) None
      (code_of bs) None None
  | SendFailed e =>
    mkResponse None None (or_5000 ((fun c => lit (show c)) <$> statusCode e)) (e_message e)
      (e_statusText e)
  end.

Definition getAppName (send : Transport) : Response :=
  match send CLA_LEDGER GET_NAME_VERSION 0 0 None None with
  | Answer bs =>
    let separator := match findIndex (Z.eqb 5) bs with Some i => Z.of_nat i | None => -1 end in
    mkResponse (Some ((fun b => b mod 128) <$> js_slice bs 2 separator))
      (Some (utf8_decode (js_slice bs (separator + 1) (Z.of_nat (length bs) - 4))))
      (code_of bs) None None
  | SendFailed e =>
    mkResponse None None (or_5000 ((fun c => lit (show c)) <$> statusCode e)) (e_message e)
      (e_statusText e)
  end.
End Answers.

Fixpoint hex_number (acc : Z) (s : jstr) : option Z :=
  match s with
  | [] => Some acc
  | c :: s' => match nibble c with
               | Some d => hex_number (16 * acc + d) s'
               | None => None
               end
  end.

(** [BigInt('0x' + s).toString()] of a string without blanks. *)
Definition hex_to_decimal (s : jstr) : result string :=
  match s with
  | [] => Throw "Cannot convert 0x to a BigInt"
  | _ => match hex_number 0 s with
         | Some v => Ok (show v)
         | None => Throw "Cannot convert to a BigInt"
         end
  end.

Definition getScalarFromSignature (signature : jstr) : result string :=
  hex_to_decimal (drop 64 signature).

Definition getFieldFromSignature (signature : jstr) : result string :=
  hex_to_decimal (take 64 signature).

(** ** The encoding *)

(** The reference encoding: [w] bytes, the most significant first. *)
Fixpoint be (w : nat) (n : Z) : list Z :=
  match w with O => [] | S w' => be w' (n / 256) ++ [n mod 256] end.

Fixpoint be_value (acc : Z) (bs : list Z) : Z :=
  match bs with [] => acc | b :: bs' => be_value (256 * acc + b) bs' end.

Definition byte (b : Z) : Prop := 0 <= b < 256.

(** [w] hexadecimal digits. *)
Fixpoint hexw (w : nat) (n : Z) : jstr :=
  match w with O => [] | S w' => hexw w' (n / 16) ++ [hex_char (n mod 16)] end.

Lemma log2_div16 n : 16 <= n -> 0 < n / 16 /\ 0 <= Z.log2 (n / 16) < Z.log2 n.
Proof.
  intros H. split; [apply Z.div_str_pos; lia|]. split; [apply Z.log2_nonneg|].
  change 16 with (2 ^ 4). rewrite <- Z.shiftr_div_pow2, Z.log2_shiftr by lia.
  pose proof (Z.log2_le_mono 16 n H) as Hl. change (Z.log2 16) with 4 in Hl. lia.
Qed.

Lemma hex_string_fuel f g n :
  0 <= n -> (Z.to_nat (Z.log2 n) < f)%nat -> (Z.to_nat (Z.log2 n) < g)%nat ->
  hex_string f n = hex_string g n.
Proof.
  revert g n. induction f as [|f IH]; intros [|g] n Hn Hf Hg; [lia..|]. cbn [hex_string].
  destruct (Z.ltb_spec n 16); [done|]. f_equal.
  pose proof (log2_div16 n ltac:(lia)). apply IH; lia.
Qed.

Lemma hex_of_nat_small n : 0 <= n < 16 -> hex_of_nat n = [hex_char n].
Proof. intros H. unfold hex_of_nat. cbn [hex_string]. by destruct (Z.ltb_spec n 16); [|lia]. Qed.

Lemma hex_of_nat_step n : 16 <= n -> hex_of_nat n = hex_of_nat (n / 16) ++ [hex_char (n mod 16)].
Proof.
  intros H. unfold hex_of_nat at 1. cbn [hex_string].
  destruct (Z.ltb_spec n 16); [lia|]. f_equal.
  pose proof (log2_div16 n ltac:(lia)). unfold hex_of_nat. apply hex_string_fuel; lia.
Qed.

Lemma hexw_zero w : hexw w 0 = replicate w 48.
Proof.
  induction w as [|w IH]; [done|]. cbn [hexw]. change (0 / 16) with 0. rewrite IH.
  change (hex_char (0 mod 16)) with 48. by rewrite <- replicate_S_end.
Qed.

Lemma hex_of_nat_length n : 0 <= n -> (1 <= length (hex_of_nat n))%nat.
Proof.
  intros H. destruct (Z.ltb_spec n 16).
  - rewrite hex_of_nat_small by lia. cbn. lia.
  - rewrite hex_of_nat_step, length_app by lia. cbn. lia.
Qed.

(** Padding keeps exactly the lowest [w] digits. *)
Lemma pad_hexw w n : 0 <= n -> pad (hex_of_nat n) w = hexw w n.
Proof.
  unfold pad. revert n. induction w as [|w IH]; intros n Hn.
  { apply drop_all. }
  rewrite replicate_S_end. destruct (Z.ltb_spec n 16) as [Hs|Hs].
  - rewrite hex_of_nat_small by lia. cbn [hexw length]. rewrite Z.div_small, Z.mod_small by lia.
    rewrite hexw_zero, <- replicate_S_end. done.
  - rewrite hex_of_nat_step by lia. cbn [hexw]. rewrite <- IH by (apply Z.div_pos; lia).
    rewrite length_app. cbn [length]. rewrite Nat.add_1_r, <- replicate_S_end.
    cbn [replicate app drop]. rewrite (app_assoc (replicate w 48)).
    rewrite drop_app_le; [done|]. rewrite length_app. lia.
Qed.

Lemma to_hex_app a b : to_hex (a ++ b) = to_hex a ++ to_hex b.
Proof. apply bind_app. Qed.

Lemma hexw_be w n : 0 <= n -> hexw (2 * w) n = to_hex (be w n).
Proof.
  revert n. induction w as [|w IH]; intros n Hn; [done|].
  replace (2 * S w)%nat with (S (S (2 * w))) by lia. cbn [hexw be].
  rewrite Z.div_div, to_hex_app, <- IH, <- app_assoc by (try apply Z.div_pos; lia).
  change (16 * 16) with 256.
  assert (H1 : n mod 256 / 16 = (n / 16) mod 16) by (Z.to_euclidean_division_equations; lia).
  assert (H2 : (n mod 256) mod 16 = n mod 16) by (Z.to_euclidean_division_equations; lia).
  cbn [to_hex mbind list_bind app]. by rewrite H1, H2.
Qed.

Lemma pad_be w n : 0 <= n -> pad (toString16 n) (2 * w) = to_hex (be w n).
Proof.
  intros H. unfold toString16. destruct (Z.ltb_spec n 0); [lia|].
  by rewrite pad_hexw, hexw_be.
Qed.

Lemma pad_upper s w : pad (toUpperCase s) w = toUpperCase (pad s w).
Proof.
  unfold pad, toUpperCase. rewrite length_fmap, fmap_drop, fmap_app. do 2 f_equal.
  rewrite fmap_replicate. done.
Qed.

Lemma be_length w n : length (be w n) = w.
Proof. revert n. induction w as [|w IH]; intros n; [done|]. cbn. rewrite length_app, IH. cbn. lia. Qed.

Lemma be_bytes w n : Forall byte (be w n).
Proof.
  revert n. induction w as [|w IH]; intros n; [constructor|]. cbn [be].
  apply Forall_app. split; [done|]. constructor; [|constructor]. by apply Z.mod_pos_bound.
Qed.

Lemma be_value_app acc a b : be_value acc (a ++ b) = be_value (be_value acc a) b.
Proof. revert acc. induction a as [|x a IH]; intros acc; [done|]. apply IH. Qed.

(** [w] bytes hold a number up to [256 ^ w]. *)
Lemma be_value_be w n : be_value 0 (be w n) = n mod 256 ^ Z.of_nat w.
Proof.
  revert n. induction w as [|w IH]; intros n.
  { cbn. by rewrite Z.mod_1_r. }
  cbn [be]. rewrite be_value_app, IH. cbn [be_value].
  rewrite Nat2Z.inj_succ, Z.pow_succ_r by lia.
  rewrite (Z.rem_mul_r n 256) by lia. lia.
Qed.

(** The bytes depend on the number modulo their width alone. *)
Lemma be_ext w n m : n mod 256 ^ Z.of_nat w = m mod 256 ^ Z.of_nat w -> be w n = be w m.
Proof.
  revert n m. induction w as [|w IH]; intros n m; [done|]. cbn [be].
  rewrite Nat2Z.inj_succ, Z.pow_succ_r, !(Z.rem_mul_r _ 256) by lia. intros E.
  pose proof (Z.mod_pos_bound n 256). pose proof (Z.mod_pos_bound m 256).
  rewrite (IH (n / 256) (m / 256)) by lia. f_equal. f_equal. lia.
Qed.

Lemma nibble_hex_char d : 0 <= d < 16 ->
  nibble (hex_char d) = Some d /\ nibble (to_upper (hex_char d)) = Some d.
Proof.
  intros H. assert (Hd : d ∈ seqZ 0 16) by (apply elem_of_seqZ; lia).
  vm_compute in Hd. repeat (apply elem_of_cons in Hd as [->|Hd]; [done|]). inversion Hd.
Qed.

Lemma byte_nibbles b : byte b -> 0 <= b / 16 < 16 /\ 0 <= b mod 16 < 16 /\ 16 * (b / 16) + b mod 16 = b.
Proof. unfold byte. intros. Z.to_euclidean_division_equations; lia. Qed.

Lemma from_to_hex bs r : Forall byte bs -> from_hex (to_hex bs ++ r) = bs ++ from_hex r.
Proof.
  induction 1 as [|b bs Hb _ IH]; [done|]. destruct (byte_nibbles b Hb) as (H1 & H2 & H3).
  change (to_hex (b :: bs) ++ r) with (hex_char (b / 16) :: hex_char (b mod 16) :: to_hex bs ++ r).
  cbn [from_hex]. rewrite (proj1 (nibble_hex_char _ H1)), (proj1 (nibble_hex_char _ H2)), H3, IH.
  done.
Qed.

Lemma from_to_hex_upper bs r :
  Forall byte bs -> from_hex (toUpperCase (to_hex bs) ++ r) = bs ++ from_hex r.
Proof.
  induction 1 as [|b bs Hb _ IH]; [done|]. destruct (byte_nibbles b Hb) as (H1 & H2 & H3).
  change (toUpperCase (to_hex (b :: bs)) ++ r) with
    (to_upper (hex_char (b / 16)) :: to_upper (hex_char (b mod 16)) :: toUpperCase (to_hex bs) ++ r).
  cbn [from_hex]. rewrite (proj2 (nibble_hex_char _ H1)), (proj2 (nibble_hex_char _ H2)), H3, IH.
  done.
Qed.

Lemma ascii_bytes_bytes s : Forall byte (ascii_bytes s).
Proof. apply Forall_fmap, Forall_true. intros c. by apply Z.mod_pos_bound. Qed.

Definition code_unit (c : Z) : Prop := 0 <= c < 65536.

(** A code unit takes at most three bytes. *)
Lemma utf8_bytes_spec s :
  Forall code_unit s ->
  Forall byte (utf8_bytes s) /\ (length (utf8_bytes s) <= 3 * length s)%nat.
Proof.
  remember (length s) as n eqn:Hn. revert s Hn.
  induction (lt_wf n) as [n _ IH]. intros [|c s] -> Hs; [by split; [constructor|cbn; lia]|].
  inversion Hs as [|? ? Hc Hs']; subst. unfold code_unit in *.
  destruct (IH (length s) ltac:(cbn; lia) s eq_refl Hs') as [H1 H2]. cbn [utf8_bytes length].
  repeat case_match; subst; rewrite ?andb_true_iff in *; rewrite ?Z.ltb_lt, ?Z.ltb_ge, ?Z.leb_le in *.
  all: try (split; [repeat (constructor; [unfold byte; Z.to_euclidean_division_equations; lia|]); done
                   |cbn in *; lia]).
  inversion Hs' as [|? ? Hd Hs'']; subst. unfold code_unit in *.
  match goal with |- context [utf8_bytes ?t] =>
    destruct (IH (length t) ltac:(cbn; lia) t eq_refl Hs'') as [Hb4 Hl4] end.
  split; [|cbn in *; lia].
  repeat (constructor; [unfold byte; Z.to_euclidean_division_equations; lia|]). done.
Qed.

Lemma utf8_ascii s : Forall (fun c => 0 <= c < 128) s -> utf8_bytes s = s.
Proof.
  induction 1 as [|c s Hc _ IH]; [done|]. cbn [utf8_bytes].
  destruct (Z.ltb_spec c 128); [|lia]. by rewrite IH.
Qed.

Lemma fill_memo_eq n s : fill_memo n s = s ++ replicate n 0.
Proof.
  revert s. induction n as [|n IH]; intros s; cbn; [by rewrite app_nil_r|].
  by rewrite IH, <- app_assoc.
Qed.

(** Numbers the message can carry at all; they may exceed their field. *)
Record wf_tx (t : Tx) : Prop := {
  wf_account : 0 <= t_account t;
  wf_amount : 0 <= t_amount t;
  wf_fee : 0 <= t_fee t;
  wf_nonce : 0 <= t_nonce t;
  wf_valid : 0 <= t_validUntil t;
  wf_type : 0 <= t_txType t;
  wf_network : 0 <= t_networkId t < 10;
  wf_memo : Forall code_unit (t_memo t)
}.

(** The memo field: the memo and null characters. *)
Definition memo_field (m : jstr) : list Z := utf8_bytes (m ++ replicate (32 - length m) 0).

Lemma memo_field_bytes m :
  Forall code_unit m ->
  Forall byte (memo_field m) /\ (length (memo_field m) <= 3 * Nat.max 32 (length m))%nat.
Proof.
  intros H. destruct (utf8_bytes_spec (m ++ replicate (32 - length m) 0)) as [H1 H2].
  - apply Forall_app. split; [done|]. apply Forall_replicate. unfold code_unit. lia.
  - split; [done|]. unfold memo_field. rewrite length_app, length_replicate in H2. lia.
Qed.

Lemma memo_field_ascii m :
  Forall (fun c => 0 <= c < 128) m -> memo_field m = m ++ replicate (32 - length m) 0.
Proof.
  intros H. apply utf8_ascii, Forall_app. split; [done|]. apply Forall_replicate. lia.
Qed.

Lemma pad_network n : 0 <= n < 10 -> pad (lit (show n)) 2 = to_hex (be 1 n).
Proof.
  intros H. assert (Hd : n ∈ seqZ 0 10) by (apply elem_of_seqZ; lia).
  vm_compute in Hd. repeat (apply elem_of_cons in Hd as [->|Hd]; [done|]). inversion Hd.
Qed.

Lemma apdu_bytes t :
  wf_tx t ->
  from_hex (createTXApdu t) =
    be 4 (t_account t) ++ ascii_bytes (t_sender t) ++ ascii_bytes (t_receiver t) ++
    be 8 (t_amount t) ++ be 8 (t_fee t) ++ be 4 (t_nonce t) ++ be 4 (t_validUntil t) ++
    memo_field (t_memo t) ++ be 1 (t_txType t) ++ be 1 (t_networkId t).
Proof.
  intros []. unfold createTXApdu, asciiToHex, convertMemo.
  rewrite fill_memo_eq, pad_upper, pad_network by done.
  change (utf8_bytes _) with (memo_field (t_memo t)).
  rewrite !(pad_be 4), !(pad_be 8), (pad_be 1) by done.
  rewrite !from_to_hex, from_to_hex_upper, !from_to_hex
    by (apply be_bytes || apply ascii_bytes_bytes || by apply memo_field_bytes).
  do 9 f_equal. rewrite <- (app_nil_r (to_hex _)), from_to_hex by apply be_bytes.
  by rewrite app_nil_r.
Qed.

(** The fields of a message of 172 bytes, at their offsets. *)
Definition message_fields (bs : list Z) : Tx := {|
  t_account := be_value 0 (take 4 bs);
  t_sender := take 55 (drop 4 bs);
  t_receiver := take 55 (drop 59 bs);
  t_amount := be_value 0 (take 8 (drop 114 bs));
  t_fee := be_value 0 (take 8 (drop 122 bs));
  t_nonce := be_value 0 (take 4 (drop 130 bs));
  t_validUntil := be_value 0 (take 4 (drop 134 bs));
  t_memo := take 32 (drop 138 bs);
  t_txType := be_value 0 (take 1 (drop 170 bs));
  t_networkId := be_value 0 (take 1 (drop 171 bs))
|}.

Definition ascii (s : jstr) : Prop := Forall (fun c => 0 <= c < 128) s.

Definition address (s : jstr) : Prop := length s = 55%nat /\ ascii s.

Lemma ascii_bytes_ascii s : ascii s -> ascii_bytes s = s.
Proof.
  induction 1 as [|c s Hc _ IH]; [done|]. unfold ascii_bytes. rewrite fmap_cons.
  fold (ascii_bytes s). rewrite IH, Z.mod_small by lia. done.
Qed.

(** The field [l] at its offset. *)
Lemma field_at {A} n k (pre l r bs : list A) :
  bs = pre ++ l ++ r -> length pre = k -> length l = n -> take n (drop k bs) = l.
Proof. intros -> <- <-. by rewrite drop_app_length, take_app_length. Qed.

Lemma decode_fields acc snd rcv am fe no va me ty ne :
  length acc = 4%nat -> length snd = 55%nat -> length rcv = 55%nat -> length am = 8%nat ->
  length fe = 8%nat -> length no = 4%nat -> length va = 4%nat -> length me = 32%nat ->
  length ty = 1%nat -> length ne = 1%nat ->
  message_fields (acc ++ snd ++ rcv ++ am ++ fe ++ no ++ va ++ me ++ ty ++ ne) =
    mkTx (be_value 0 ty) (be_value 0 acc) snd rcv (be_value 0 am) (be_value 0 fe)
      (be_value 0 no) (be_value 0 va) me (be_value 0 ne).
Proof.
  intros. unfold message_fields. rewrite (take_app_length' acc _ 4) by done.
  rewrite (field_at 55 4 acc snd (rcv ++ am ++ fe ++ no ++ va ++ me ++ ty ++ ne)),
    (field_at 55 59 (acc ++ snd) rcv (am ++ fe ++ no ++ va ++ me ++ ty ++ ne)),
    (field_at 8 114 (acc ++ snd ++ rcv) am (fe ++ no ++ va ++ me ++ ty ++ ne)),
    (field_at 8 122 (acc ++ snd ++ rcv ++ am) fe (no ++ va ++ me ++ ty ++ ne)),
    (field_at 4 130 (acc ++ snd ++ rcv ++ am ++ fe) no (va ++ me ++ ty ++ ne)),
    (field_at 4 134 (acc ++ snd ++ rcv ++ am ++ fe ++ no) va (me ++ ty ++ ne)),
    (field_at 32 138 (acc ++ snd ++ rcv ++ am ++ fe ++ no ++ va) me (ty ++ ne)),
    (field_at 1 170 (acc ++ snd ++ rcv ++ am ++ fe ++ no ++ va ++ me) ty ne),
    (field_at 1 171 (acc ++ snd ++ rcv ++ am ++ fe ++ no ++ va ++ me ++ ty) ne []).
  all: try (by rewrite ?app_nil_r, <- ?app_assoc); try (rewrite ?length_app; cbn; lia).
Qed.

(** A transaction every field of which fits its place as text: addresses of 55 characters and a memo of at most 32,
    all in ASCII. *)
Record sendable (t : Tx) : Prop := {
  send_wf : wf_tx t;
  send_sender : address (t_sender t);
  send_receiver : address (t_receiver t);
  send_memo : ascii (t_memo t);
  send_memo_length : (length (t_memo t) <= 32)%nat
}.

(** The transaction with each number modulo the width of its field, and the memo filled up with null characters. *)
Definition truncated (t : Tx) : Tx :=
  mkTx (t_txType t mod 2 ^ 8) (t_account t mod 2 ^ 32) (t_sender t) (t_receiver t)
    (t_amount t mod 2 ^ 64) (t_fee t mod 2 ^ 64) (t_nonce t mod 2 ^ 32)
    (t_validUntil t mod 2 ^ 32) (t_memo t ++ replicate (32 - length (t_memo t)) 0)
    (t_networkId t).

Definition layout (t : Tx) : list Z :=
  be 4 (t_account t) ++ t_sender t ++ t_receiver t ++ be 8 (t_amount t) ++ be 8 (t_fee t) ++ be 4 (t_nonce t) ++
  be 4 (t_validUntil t) ++ t_memo t ++ replicate (32 - length (t_memo t)) 0 ++ be 1 (t_txType t) ++ be 1 (t_networkId t).

Lemma apdu_layout t : sendable t -> from_hex (createTXApdu t) = layout t.
Proof.
  intros [Hw [_ Hs] [_ Hr] Hm _]. rewrite apdu_bytes, !ascii_bytes_ascii, memo_field_ascii by done.
  unfold layout. by rewrite <- !app_assoc.
Qed.

Lemma layout_fields t : sendable t -> message_fields (layout t) = truncated t.
Proof.
  intros [Hw [Hs _] [Hr _] _ Hl]. unfold layout. rewrite (app_assoc (t_memo t)).
  rewrite decode_fields, !be_value_be;
    [|rewrite ?be_length, ?length_app, ?length_replicate; (done || lia)..].
  destruct Hw. unfold truncated. by rewrite (Z.mod_small (t_networkId t)) by (cbn; lia).
Qed.

Lemma layout_length t : sendable t -> length (layout t) = 172%nat.
Proof.
  intros [_ [Hs _] [Hr _] _ Hl]. unfold layout. rewrite !length_app, !be_length, length_replicate. lia.
Qed.

Lemma layout_truncated t t' : truncated t = truncated t' -> layout t = layout t'.
Proof.
  unfold truncated, layout. intros [=]. rewrite !(app_assoc (t_memo _)).
  rewrite (be_ext 4 (t_account t) (t_account t')), (be_ext 8 (t_amount t) (t_amount t')), (be_ext 8 (t_fee t) (t_fee t')),
    (be_ext 4 (t_nonce t) (t_nonce t')), (be_ext 4 (t_validUntil t) (t_validUntil t')),
    (be_ext 1 (t_txType t) (t_txType t')) by done. congruence.
Qed.

(** C7: For transactions between addresses of 55 ASCII characters, with an ASCII memo of at most 32 characters and numbers
    that are not negative, the message has 172 bytes: the account, the two addresses, the amount, the fee, the nonce, the
    end of validity, the memo filled up with nulls, the type and the network, every number with the most significant byte
    first; and two such transactions have the same message exactly when they agree up to the nulls of the memo and the
    multiples of the width of each number. *)
Theorem apdu_unambiguous t t' :
  sendable t -> sendable t' ->
  from_hex (createTXApdu t) = layout t /\ length (layout t) = 172%nat /\
  (from_hex (createTXApdu t) = from_hex (createTXApdu t') <-> truncated t = truncated t').
Proof.
  intros H H'. rewrite !apdu_layout by done. split; [done|]. split; [by apply layout_length|].
  split; [|apply layout_truncated]. intros E. by rewrite <- !layout_fields, E.
Qed.

(** ** Signing *)

(** A transaction between two addresses of 55 characters is passed on to
    the device exactly when a payment has an amount, the memo has at most 32
    characters and the fee is at least a million; the message then has at most
    236 bytes, so the check of its length never refuses it. *)
Theorem sign_accepts ty acc snd rcv am fe no va me ne :
  let t := mkTx ty acc snd rcv am fe no va me ne in
  wf_tx t -> length snd = 55%nat -> length rcv = 55%nat ->
  let r := prepareSign (mkArgs (Some ty) (Some acc) snd rcv (Some am) (Some fe) (Some no)
             (Some va) (Some me) (Some ne)) in
  (forall data, r = inr data -> data = from_hex (createTXApdu t) /\ (length data <= 236)%nat) /\
  ((exists data, r = inr data) <->
   (ty = 0 -> am <> 0) /\ (length me <= 32)%nat /\ 1000000 <= fe).
Proof.
  intros t Hw Hs Hr r.
  assert (Hlen : (length me <= 32)%nat -> (length (from_hex (createTXApdu t)) <= 236)%nat).
  { intros Hm. rewrite apdu_bytes, !length_app, !be_length by done.
    unfold ascii_bytes. rewrite !length_fmap. cbn [t_sender t_receiver t_memo t].
    pose proof (proj2 (memo_field_bytes me (wf_memo t Hw))). lia. }
  unfold r, prepareSign. cbn -[from_hex createTXApdu Nat.ltb refusal]. fold t. rewrite Hs, Hr.
  destruct Hw as [? ? Hfe ? ? ? ? ?]. cbn in Hfe.
  destruct (Z.eqb_spec am 0), (Z.eqb_spec ty 0), (Z.eqb_spec fe 0), (Nat.ltb_spec 32 (length me)),
    (Z.ltb_spec fe 1000000); cbn -[from_hex createTXApdu Nat.ltb refusal];
    try (split; [done|]; split; [by intros [? ?]|]; intros (? & ? & ?); exfalso; tauto || lia).
  all: specialize (Hlen ltac:(lia)); destruct (Nat.ltb_spec 256 (length (from_hex (createTXApdu t)))); [lia|].
  all: split; [by intros ? [= <-]|]; split; [intros _; split_and!; [by intros|lia..]|by eexists].
Qed.

(** ** Answers *)

Lemma js_slice_mid {A} (a b c bs : list A) x y :
  bs = a ++ b ++ c -> x = Z.of_nat (length a) -> y = Z.of_nat (length a + length b) ->
  js_slice bs x y = b.
Proof.
  intros -> -> ->. unfold js_slice, slice_index. rewrite !length_app.
  destruct (Z.ltb_spec (Z.of_nat (length a)) 0); [lia|].
  destruct (Z.ltb_spec (Z.of_nat (length a + length b)) 0); [lia|].
  rewrite !Z.min_l, !Nat2Z.id by lia. rewrite drop_app_length.
  replace (length a + length b - length a)%nat with (length b) by lia. apply take_app_length.
Qed.

(** From an answer of the firmware (format, length of the name, name,
    length of the version, version, length of the flags, flags, status) the
    name and the version are read, when the version has five characters and
    neither the name nor its length has the byte 5. *)
Theorem app_name_read decode send name version flags sw1 sw2 :
  (forall s, ascii s -> decode s = s) ->
  send CLA_LEDGER GET_NAME_VERSION 0 0 None None =
    Answer (1 :: Z.of_nat (length name) :: name ++ 5 :: version ++ [1; flags; sw1; sw2]) ->
  ascii name -> ascii version -> length version = 5%nat -> 5 ∉ name -> length name <> 5%nat ->
  getAppName decode send =
    mkResponse (Some name) (Some version) (to_hex [sw1; sw2]) None None.
Proof.
  intros Hdec Hsend Hn Hv Hlen H5 Hnl. unfold getAppName. rewrite Hsend.
  set (pre := [1; Z.of_nat (length name)]).
  change (1 :: Z.of_nat (length name) :: name ++ ?r) with (pre ++ name ++ r).
  assert (Hsep : findIndex (Z.eqb 5) (pre ++ name ++ 5 :: version ++ [1; flags; sw1; sw2])
                 = Some (2 + length name)%nat).
  { rewrite app_assoc, findIndex_app. replace (findIndex _ (pre ++ name)) with (@None nat).
    - cbn. f_equal. lia.
    - symmetry. apply findIndex_None. intros x [Hx|Hx]%elem_of_app; apply Z.eqb_neq.
      + unfold pre in Hx. rewrite !elem_of_cons, elem_of_nil in Hx. lia.
      + intros <-. done. }
  rewrite Hsep. unfold code_of. clear Hsep Hsend.
  rewrite (js_slice_mid pre name (5 :: version ++ [1; flags; sw1; sw2]));
    [|done|done|cbn; lia].
  rewrite (js_slice_mid (pre ++ name ++ [5]) version [1; flags; sw1; sw2]);
    [|by rewrite <- !app_assoc|rewrite !length_app; cbn; lia
     |rewrite !length_app; cbn; rewrite !length_app; cbn; lia].
  rewrite (js_slice_mid (pre ++ name ++ 5 :: version ++ [1; flags]) [sw1; sw2] []);
    [|by rewrite <- !app_assoc; cbn; rewrite <- !app_assoc
     |rewrite !length_app; cbn; rewrite !length_app; cbn; lia..].
  rewrite (Hdec version) by done. do 3 f_equal.
  clear -Hn. induction Hn as [|c n Hc _ IH]; [done|]. rewrite fmap_cons, IH, Z.mod_small by lia. done.
Qed.

Lemma app_name_read_witness :
  let send : Transport := fun _ _ _ _ _ _ => Answer ([1; 4] ++ lit "Mina" ++ [5] ++ lit "1.0.2" ++ [1; 2; 144; 0]) in
  getAppName (fun s => s) send =
    mkResponse (Some (lit "Mina")) (Some (lit "1.0.2")) (to_hex [144; 0]) None None.
Proof.
  apply (app_name_read (fun s => s) _ (lit "Mina") (lit "1.0.2") 2 144 0); try done.
  - repeat (constructor; [done|]). constructor.
  - repeat (constructor; [done|]). constructor.
  - vm_compute. intros H. repeat (apply elem_of_cons in H as [H|H]; [done|]). inversion H.
Defined.

(** The version of three bytes is not read as major, minor and patch. *)
Lemma app_version_misread :
  value (getAppVersion (fun _ _ _ _ _ _ => Answer [1; 2; 3; 144; 0])) = Some (lit "1.0.2").
Proof. vm_compute. reflexivity. Qed.

(** The number of a string of hexadecimal digits is that of its bytes. *)
Lemma hex_number_be acc bs : Forall byte bs -> hex_number acc (to_hex bs) = Some (be_value acc bs).
Proof.
  intros H. revert acc. induction H as [|b bs Hb _ IH]; intros acc; [done|].
  destruct (byte_nibbles b Hb) as (H1 & H2 & H3).
  change (to_hex (b :: bs)) with (hex_char (b / 16) :: hex_char (b mod 16) :: to_hex bs).
  cbn [hex_number be_value].
  rewrite (proj1 (nibble_hex_char _ H1)), (proj1 (nibble_hex_char _ H2)), IH.
  do 2 f_equal. lia.
Qed.

Lemma to_hex_length bs : length (to_hex bs) = (2 * length bs)%nat.
Proof. induction bs as [|b bs IH]; [done|]. change (to_hex (b :: bs)) with (hex_char (b / 16) :: hex_char (b mod 16) :: to_hex bs). cbn [length]. lia. Qed.

Lemma hex_to_decimal_be bs :
  Forall byte bs -> bs <> [] -> hex_to_decimal (to_hex bs) = Ok (show (be_value 0 bs)).
Proof.
  intros Hb Hne. unfold hex_to_decimal. rewrite hex_number_be by done. by destruct bs.
Qed.

(** Of a signature of 64 bytes the field and the scalar are the numbers
    that the first and the last 32 bytes encode. *)
Theorem signature_halves bs :
  Forall byte bs -> length bs = 64%nat ->
  getFieldFromSignature (to_hex bs) = Ok (show (be_value 0 (take 32 bs))) /\
  getScalarFromSignature (to_hex bs) = Ok (show (be_value 0 (drop 32 bs))).
Proof.
  intros Hb Hl. unfold getFieldFromSignature, getScalarFromSignature.
  replace (to_hex bs) with (to_hex (take 32 bs) ++ to_hex (drop 32 bs))
    by (by rewrite <- to_hex_app, take_drop).
  pose proof (to_hex_length (take 32 bs)) as Ht. rewrite length_take in Ht.
  replace 64%nat with (length (to_hex (take 32 bs))) by lia.
  rewrite take_app_length, drop_app_length.
  split; apply hex_to_decimal_be; try (by apply Forall_take || by apply Forall_drop);
    intros E%(f_equal length); rewrite ?length_take, ?length_drop, Hl in E; done.
Qed.

Lemma signature_halves_witness :
  getFieldFromSignature (to_hex (be 32 7 ++ be 32 9)) = Ok "7".
Proof.
  refine (proj1 (signature_halves (be 32 7 ++ be 32 9) _ _)).
  - apply Forall_app; split; apply be_bytes.
  - reflexivity.
Defined.

Definition sample_tx : Tx :=
  mkTx 0 42 (lit "B62qr9pMrhSwBA6txJ8kD3f9GZ3VQPoUaFnKhEosdJmnZXXKj6qhkGF")
    (lit "B62qkEB9FPhBs9mYdPJPVkUevrJuYr22MwANNvavy6HWZEDqL8WKR3F")
    1000000000 98146290 2 4294967295 (lit "clorio <3 ledger!") 0.

Lemma sample_units m : forallb (fun c => (0 <=? c) && (c <? 128)) m = true -> ascii m /\ Forall code_unit m.
Proof.
  intros H. rewrite forallb_forall in H. split; apply Forall_forall; intros c Hc;
    specialize (H c ltac:(by apply list_elem_of_In)); rewrite andb_true_iff, Z.leb_le, Z.ltb_lt in H;
    unfold code_unit; lia.
Qed.

Lemma sample_wf : wf_tx sample_tx.
Proof. split; try (cbn; lia). by apply sample_units. Qed.

Lemma sample_sendable : sendable sample_tx.
Proof.
  split; [exact sample_wf| | |by apply sample_units|vm_compute; lia]; (split; [reflexivity|by apply sample_units]).
Qed.

Lemma apdu_unambiguous_witness :
  sendable sample_tx /\ length (layout sample_tx) = 172%nat.
Proof.
  split; [exact sample_sendable|]. apply (apdu_unambiguous sample_tx sample_tx); exact sample_sendable.
Defined.

Lemma sign_accepts_witness :
  exists data, prepareSign (mkArgs (Some 0) (Some 42) (t_sender sample_tx) (t_receiver sample_tx)
    (Some 1000000000) (Some 98146290) (Some 2) (Some 4294967295) (Some (t_memo sample_tx)) (Some 0))
    = inr data.
Proof.
  apply (sign_accepts 0 42 (t_sender sample_tx) (t_receiver sample_tx) 1000000000 98146290 2
           4294967295 (t_memo sample_tx) 0 sample_wf eq_refl eq_refl).
  split_and!; [done|vm_compute; lia|done].
Defined.

(** A memo outside ASCII is longer in bytes than in characters, and moves the
    fields after it. *)
Lemma unicode_memo_moves_fields :
  let t := mkTx 4 0 (t_sender sample_tx) (t_receiver sample_tx) 0 1000000 0 0 (replicate 32 8364) 1 in
  let d := message_fields (from_hex (createTXApdu t)) in
  t_txType d <> 4 /\ t_networkId d <> 1 /\ length (from_hex (createTXApdu t)) = 236%nat.
Proof. vm_compute. split_and!; done. Qed.

(** An amount beyond 64 bits is signed as a smaller one. *)
Lemma large_amount_wraps :
  t_amount (message_fields (from_hex (createTXApdu
    (mkTx 0 0 (t_sender sample_tx) (t_receiver sample_tx) (2 ^ 64 + 5) 1000000 0 0 [] 1)))) = 5.
Proof. vm_compute. reflexivity. Qed.

End Ledger.
