(* ===== verification/WonSlots.v ===== *)
(** * The won slots of the block producer

    [src/frontend/src/app/features/block-production/won-slots]: the attempts and
    the future slots the node reports ([block-production-won-slots.service.ts]),
    the store with its filters ([block-production-won-slots.reducer.ts]) and the
    choice of the active slot ([block-production-won-slots.effects.ts]).

    Durations are kept in nanoseconds and rewards in billionths; the code
    divides both by a billion. *)

From Stdlib Require Import Ascii.
From stdpp Require Import base list gmap strings.
From S2P Require Import Prelude SharedLib DateHelper.
Open Scope Z_scope.

Module WonSlots.
Import DateHelper.

(** ** What the node sends *)

Record WonSlot := mkWonSlot {
  slot_time : Z; global_slot : Z; w_epoch : Z; value_with_threshold : list Z
}.

Record Transactions := mkTransactions { t_payments : Z; t_delegations : Z; t_zkapps : Z }.

Record Block := mkBlock {
  b_hash : string; b_height : Z; transactions : Transactions;
  coinbase : Z; b_fees : Z; snark_fees : Z; completed_works_count : Z
}.

Record RawTimes := mkRawTimes {
  r_scheduled : Z;
  staged_ledger_diff_create_start : option Z;
  staged_ledger_diff_create_end : option Z;
  r_produced : option Z;
  proof_create_start : option Z;
  proof_create_end : option Z;
  block_apply_start : option Z;
  block_apply_end : option Z;
  r_discarded : option Z;
  r_committed : option Z
}.

Record Attempt := mkAttempt {
  won_slot : WonSlot;
  block : option Block;
  a_times : RawTimes;
  a_status : option WonSlotsStatus;
  last_observed_confirmations : option Z;
  orphaned_by : option string;
  discard_reason : option string
}.

Record WonSlotResponse := mkResponse {
  attempts : list Attempt;
  future_won_slots : list WonSlot;
  current_global_slot : Z;
  current_time : Z;
  epoch_end : Z;
  epoch_start : Z;
  current_epoch : Z;
  current_epoch_vrf_stats : option (Z * Z);
  public_key : string
}.

(** ** What the store holds *)

Record Times := mkTimes {
  scheduled : Z;
  stagedLedgerDiffCreate : option Z;
  produced : option Z;
  proofCreate : option Z;
  blockApply : option Z;
  discarded : option Z;
  committed : option Z;
  stagedLedgerDiffCreateEnd : option Z;
  producedEnd : option Z;
  proofCreateEnd : option Z;
  blockApplyEnd : option Z
}.

Record Slot := mkSlot {
  epoch : option Z;
  message : string;
  age : string;
  slotTime : Z;
  globalSlot : Z;
  slotInEpoch : option Z;
  vrfValueWithThreshold : list Z;
  active : bool;
  percentage : option Z;
  height : option Z;
  hash : option string;
  transactionsTotal : option Z;
  payments : option Z;
  delegations : option Z;
  zkapps : option Z;
  snarkFees : option Z;
  coinbaseRewards : option Z;
  txFeesRewards : option Z;
  completedWorksCount : option Z;
  times : option Times;
  status : option WonSlotsStatus;
  discardReason : option string;
  lastObservedConfirmations : option Z;
  orphanedBy : option string
}.

Record Epoch := mkEpoch {
  epochNumber : Z; start : Z; end_ : Z; currentGlobalSlot : Z; currentTime : Z;
  evaluated : option Z; total : option Z; publicKey : string
}.

Record Filters := mkFilters {
  accepted : bool; orphaned : bool; upcoming : bool; f_discarded : bool
}.

Record State := mkState {
  s_epoch : option Epoch;
  slots : list Slot;
  filteredSlots : list Slot;
  activeSlot : option Slot;
  activeSlotRoute : option string;
  openSidePanel : bool;
  filters : Filters;
  sort_ : TableSort;
  serverResponded : bool
}.

(** ** Service *)

(** [nanOrElse(value, other)] of the shared library; a value that is missing or
    computed from a missing one is not a number. *)
Class NanOrElse := {
  nanOrElse : option Z -> Z -> Z;
  nanOrElse_num : forall x d, nanOrElse (Some x) d = x;
  nanOrElse_nan : forall d, nanOrElse None d = d
}.

Definition nan_or_else : NanOrElse := {|
  nanOrElse o d := match o with Some x => x | None => d end;
  nanOrElse_num x d := eq_refl;
  nanOrElse_nan d := eq_refl
|}.

(** The slot time is in milliseconds here. *)
Definition getActive (now slotTime : Z) (t : RawTimes) : bool :=
  (slotTime <=? now) && (now <? 3 * 60 * 1000 + slotTime) && negb (truthy_onum (r_discarded t)).

Definition getMessage (isDesktop active : bool) (st : option WonSlotsStatus) : string :=
  if active then "Producing"
  else match st with
       | Some Scheduled => (if isDesktop then "Production " else "") +:+ "Scheduled"
       | Some Canonical => "Produced Block"
       | Some Orphaned => "Orphaned Block"
       | Some Discarded => "Discarded Block"
       | Some Committed => if isDesktop then "Waiting for Confirmation" else "Confirming"
       | _ => (if isDesktop then "Upcoming " else "") +:+ "Won Slot"
       end.

(** [diff.replace('<', '')] *)
Fixpoint remove_lt (s : string) : string :=
  match s with
  | EmptyString => EmptyString
  | String c s' => if Ascii.eqb c "<"%char then s' else String c (remove_lt s')
  end.

Definition calculateTimeAgo (now : Z) (active : bool) (slotTime : Z) : string :=
  if active then "Now"
  else
    let d := getTimeDiff now (Some slotTime) (mkDiffConfig false false None) in
    let text := default "undefined" (diff d) in
    if inFuture d then "in ~ " +:+ remove_lt text else text +:+ " ago".

(** [!b || !a ? null : b - a] *)
Definition elapsed (a b : option Z) : option Z :=
  match a, b with
  | Some x, Some y => if truthyZ x && truthyZ y then Some (y - x) else None
  | _, _ => None
  end.

(** [t || null] *)
Definition or_null (t : option Z) : option Z :=
  match t with Some x => if truthyZ x then Some x else None | None => None end.

Definition mapTimes (t : RawTimes) : Times := {|
  scheduled := r_scheduled t;
  stagedLedgerDiffCreate := elapsed (staged_ledger_diff_create_start t) (staged_ledger_diff_create_end t);
  produced := elapsed (staged_ledger_diff_create_end t) (r_produced t);
  proofCreate := elapsed (proof_create_start t) (proof_create_end t);
  blockApply := elapsed (block_apply_start t) (block_apply_end t);
  discarded := or_null (r_discarded t);
  committed := or_null (r_committed t);
  stagedLedgerDiffCreateEnd := staged_ledger_diff_create_end t;
  producedEnd := r_produced t;
  proofCreateEnd := proof_create_end t;
  blockApplyEnd := block_apply_end t
|}.

Section Service.
Context `{HasValue} `{NanOrElse} (isDesktop : bool) (now : Z).

Definition progress (t : Times) : Z :=
  Z.of_nat (length (List.filter hasValue
    [stagedLedgerDiffCreate t; produced t; proofCreate t; blockApply t; committed t])) * 20.

Definition mapAttempt (a : Attempt) : Slot :=
  let w := won_slot a in
  let time := floor_div (slot_time w) 1000000 in
  let act := getActive now time (a_times a) in
  let txs := transactions <$> block a in
  {| epoch := Some (w_epoch w);
     message := getMessage isDesktop act (a_status a);
     age := calculateTimeAgo now act time;
     slotTime := time;
     globalSlot := global_slot w;
     slotInEpoch := Some (Z.rem (global_slot w) 7140);
     vrfValueWithThreshold := value_with_threshold w;
     active := act;
     percentage := if act then Some (progress (mapTimes (a_times a))) else None;
     height := b_height <$> block a;
     hash := b_hash <$> block a;
     transactionsTotal := Some (nanOrElse
       ((fun t => t_payments t + t_delegations t + t_zkapps t) <$> txs) 0);
     zkapps := Some (nanOrElse (t_zkapps <$> txs) 0);
     payments := Some (nanOrElse (t_payments <$> txs) 0);
     delegations := Some (nanOrElse (t_delegations <$> txs) 0);
     completedWorksCount := Some (nanOrElse (completed_works_count <$> block a) 0);
     snarkFees := snark_fees <$> block a;
     coinbaseRewards := coinbase <$> block a;
     txFeesRewards := b_fees <$> block a;
     status := a_status a;
     discardReason := discard_reason a;
     lastObservedConfirmations := last_observed_confirmations a;
     orphanedBy := orphaned_by a;
     times := Some (mapTimes (a_times a)) |}.

(** A slot that is still to come has only the fields of the slot. *)
Definition mapFuture (w : WonSlot) : Slot :=
  let time := floor_div (slot_time w) 1000000 in
  {| epoch := None; message := getMessage isDesktop false None;
     age := calculateTimeAgo now false time; slotTime := time; globalSlot := global_slot w;
     slotInEpoch := None; vrfValueWithThreshold := value_with_threshold w; active := false;
     percentage := None; height := None; hash := None; transactionsTotal := None;
     payments := None; delegations := None; zkapps := None; snarkFees := None;
     coinbaseRewards := None; txFeesRewards := None; completedWorksCount := None; times := None;
     status := None; discardReason := None; lastObservedConfirmations := None; orphanedBy := None |}.

Definition getSlots (response : option WonSlotResponse) : list Slot * option Epoch :=
  match response with
  | None => ([], None)
  | Some r =>
    ((mapAttempt <$> attempts r) ++ (mapFuture <$> future_won_slots r),
     Some {| epochNumber := current_epoch r; start := epoch_start r; end_ := epoch_end r;
             currentGlobalSlot := current_global_slot r; currentTime := current_time r;
             evaluated := fst <$> current_epoch_vrf_stats r;
             total := snd <$> current_epoch_vrf_stats r; publicKey := public_key r |})
  end.
End Service.

(** ** Store *)

Inductive Action :=
| Init (route : option string)
| Close
| GetSlots
| GetSlotsSuccess (l : list Slot) (e : option Epoch) (a : option Slot)
| ChangeFilters (f : Filters)
| SetActiveSlot (slot : option Slot)
| SetActiveSlotNumber (slotNumber : Z)
| Sort (ts : TableSort)
| ToggleSidePanel.

Definition has_status (s : Slot) (st : WonSlotsStatus) : bool := bool_decide (status s = Some st).

Definition show_slot (f : Filters) (s : Slot) : bool :=
  if (accepted f && has_status s Canonical) || (orphaned f && has_status s Orphaned) ||
     (f_discarded f && has_status s Discarded) || active s || has_status s Committed
  then true
  else (upcoming f && negb (is_some (status s))) || has_status s Scheduled.

Definition filterSlots (l : list Slot) (f : Filters) : list Slot := List.filter (show_slot f) l.

Section Reducer.
Context `{TableSorter Slot} (isDesktop isMobile : bool).

Definition sortSlots (l : list Slot) (ts : TableSort) : list Slot := sort l ts ["message"] false.

Definition initialState : State :=
  {| s_epoch := None; slots := []; filteredSlots := []; activeSlot := None;
     activeSlotRoute := None; openSidePanel := negb isMobile;
     filters := mkFilters true true true true; sort_ := mkTableSort "slotTime" ASC;
     serverResponded := false |}.

Definition reducer (s : State) (a : Action) : result State :=
  match a with
  | Init route =>
    Ok (mkState (s_epoch s) (slots s) (filteredSlots s) (activeSlot s) route (openSidePanel s)
          (filters s) (sort_ s) false)
  | GetSlotsSuccess l e act =>
    Ok (mkState e l (filterSlots (sortSlots l (sort_ s)) (filters s)) act (activeSlotRoute s)
          (if is_some (activeSlot s) then openSidePanel s else isDesktop) (filters s) (sort_ s) true)
  | SetActiveSlot None => Throw "Cannot read properties of undefined (reading 'globalSlot')"
  | SetActiveSlot (Some slot) =>
    Ok (mkState (s_epoch s) (slots s) (filteredSlots s) (Some slot)
          (Some (show (globalSlot slot))) true (filters s) (sort_ s) (serverResponded s))
  | Sort ts =>
    Ok (mkState (s_epoch s) (slots s) (filterSlots (sortSlots (slots s) ts) (filters s))
          (activeSlot s) (activeSlotRoute s) (openSidePanel s) (filters s) ts (serverResponded s))
  | ChangeFilters f =>
    Ok (mkState (s_epoch s) (slots s) (filterSlots (sortSlots (slots s) (sort_ s)) f)
          (activeSlot s) (activeSlotRoute s) (openSidePanel s) f (sort_ s) (serverResponded s))
  | ToggleSidePanel =>
    Ok (mkState (s_epoch s) (slots s) (filteredSlots s)
          (if openSidePanel s then None else activeSlot s)
          (if openSidePanel s then None else activeSlotRoute s) (negb (openSidePanel s))
          (filters s) (sort_ s) (serverResponded s))
  | Close => Ok initialState
  | GetSlots | SetActiveSlotNumber _ => Ok s
  end.

(** ** Effects *)

Definition or_else {A} (a b : option A) : option A :=
  match a with Some _ => a | None => b end.

Definition route_set (r : option string) : bool :=
  match r with Some s => truthy_str s | None => false end.

(** The slot shown when the route names none. *)
Definition preferred (l : list Slot) : option Slot :=
  or_else (List.find active l)
    (or_else (List.find (fun s => has_status s Committed) l)
      (or_else (List.find (fun s => has_status s Scheduled) l)
        (List.find (fun s => negb (is_some (status s))) l))).

Definition chooseActive (s : State) (l : list Slot) : option Slot :=
  let route := activeSlotRoute s in
  let found := List.find (fun x => bool_decide (Some (show (globalSlot x)) = route)) l in
  if (isDesktop && negb (route_set route)) || (route_set route && negb (is_some found)) ||
     (isMobile && negb (route_set route) && (length (slots s) =? 0)%nat)
  then preferred l else found.

(** The part of the route that names the slot, when it is set. *)
Definition chooseRoute (s : State) (act : option Slot) : option string :=
  let route := activeSlotRoute s in
  if (is_some act && isDesktop) || (route_set route && negb (is_some (activeSlot s))) ||
     (route_set route && openSidePanel s)
  then Some match act with Some x => show (globalSlot x) | None => "" end
  else None.

Inductive Event :=
| OnInit
| OnGetSlots (s : State)               (* with the state at that moment *)
| OnClose
| OnSlots (o : outcome (list Slot * option Epoch))
| OnSetActiveSlotNumber (s : State) (n : Z).

(** The three effects; [e] is the state with which the request in flight was
    made. A new request replaces the one before, and [CLOSE] cancels it. *)
Definition slots_effects (time : string) (e : option State) (ev : Event)
    : option State * list (dispatched Action) :=
  match ev with
  | OnInit => (e, [Dispatch GetSlots])
  | OnGetSlots s => (Some s, [])
  | OnClose => (None, [])
  | OnSlots o =>
    match e with
    | None => (e, [])
    | Some s =>
      (None, catchErrorAndRepeat time GENERIC (GetSlotsSuccess [] None None)
        match o with
        | Next (l, ep) => Next (GetSlotsSuccess l ep (chooseActive s l))
        | Failed err => Failed err
        end)
    end
  | OnSetActiveSlotNumber s n =>
    (e, [Dispatch (SetActiveSlot (List.find (fun x => globalSlot x =? n) (slots s)))])
  end.
End Reducer.

(** ** Properties *)

Section Properties.
Context `{TableSorter Slot} (isDesktop isMobile : bool).

Inductive reachable : State -> Prop :=
| reach_init : reachable (initialState isMobile)
| reach_step s a s' : reachable s -> reducer isDesktop isMobile s a = Ok s' -> reachable s'.

(** The slots the table is to show. *)
Definition visible (f : Filters) (s : Slot) : Prop :=
  active s = true \/
  match status s with
  | Some Canonical => accepted f = true
  | Some Orphaned => orphaned f = true
  | Some Discarded => f_discarded f = true
  | Some Committed | Some Scheduled => True
  | None => upcoming f = true
  | Some _ => False
  end.

Lemma show_slot_visible f s : show_slot f s = true <-> visible f s.
Proof.
  unfold show_slot, visible, has_status. destruct (status s) as [[]|], (active s), f as [[] [] [] []];
    cbn; intuition congruence.
Qed.

Definition consistent (s : State) : Prop :=
  filteredSlots s ≡ₚ List.filter (show_slot (filters s)) (slots s).

Lemma filterSlots_perm l ts f : filterSlots (sortSlots l ts) f ≡ₚ List.filter (show_slot f) l.
Proof. apply lfilter_perm, sort_perm. Qed.

Lemma reachable_consistent s : reachable s -> consistent s.
Proof.
  induction 1 as [|s a s' _ IH Hs]; [exact (perm_nil _)|]. unfold consistent in *.
  destruct a as [| | |l e act|f|[slot|]| |ts|]; cbn in Hs; simplify_eq; try done;
    apply filterSlots_perm.
Qed.

(** Whatever the user and the node do, the table shows each slot as often
    as the node reported it when it is being produced, waits for confirmation
    or is scheduled, or when the filter of its outcome is on, and no other: the
    upcoming filter concerns the future slots only, and an attempt that stopped
    in between is never shown. *)
Theorem table_shows_visible s slot :
  reachable s ->
  (slot ∈ filteredSlots s <-> slot ∈ slots s /\ visible (filters s) slot) /\
  filteredSlots s ≡ₚ List.filter (show_slot (filters s)) (slots s).
Proof.
  intros Hr%reachable_consistent. unfold consistent in Hr. split; [|done].
  rewrite Hr, elem_of_lfilter, show_slot_visible. done.
Qed.

(** The slot to show among [l] when none is asked for: one being produced, else
    one waiting for confirmation, else a scheduled one, else one to come. *)
Definition best (l : list Slot) (o : option Slot) : Prop :=
  match o with
  | Some x => x ∈ l /\
      (active x = true \/
       ((forall y, y ∈ l -> active y = false) /\
        (status x = Some Committed \/
         (forall y, y ∈ l -> status y <> Some Committed) /\
         (status x = Some Scheduled \/
          (forall y, y ∈ l -> status y <> Some Scheduled) /\ status x = None))))
  | None => forall y, y ∈ l -> active y = false /\
      status y <> Some Committed /\ status y <> Some Scheduled /\ status y <> None
  end.

Lemma preferred_best l : best l (preferred l).
Proof.
  unfold best, preferred, or_else, has_status.
  destruct (List.find active l) as [x|] eqn:E1; [apply find_Some_elem in E1; naive_solver|].
  pose proof (fun y => find_None_elem _ _ y E1) as N1.
  destruct (List.find (fun s => bool_decide (status s = Some Committed)) l) as [x|] eqn:E2.
  { apply find_Some_elem in E2 as [? ?%bool_decide_eq_true]. naive_solver. }
  pose proof (fun y Hy => proj1 (bool_decide_eq_false _) (find_None_elem _ _ y E2 Hy)) as N2.
  destruct (List.find (fun s => bool_decide (status s = Some Scheduled)) l) as [x|] eqn:E3.
  { apply find_Some_elem in E3 as [? ?%bool_decide_eq_true]. naive_solver. }
  pose proof (fun y Hy => proj1 (bool_decide_eq_false _) (find_None_elem _ _ y E3 Hy)) as N3.
  destruct (List.find (fun s => negb (is_some (status s))) l) as [x|] eqn:E4.
  - apply find_Some_elem in E4 as [? E]. cbn beta in E.
    destruct (status x) eqn:Ex; [discriminate E|]. naive_solver.
  - intros y Hy. pose proof (find_None_elem _ _ y E4 Hy) as E. cbn beta in E.
    destruct (status y) eqn:Ey; [|discriminate E].
    split; [by apply N1|]. rewrite <- Ey. split_and!; [by apply N2|by apply N3|congruence].
Qed.

(** An answer dispatches the slots with the active one: the slot the route
    names when the answer has it; when the route names a slot that is gone, or
    on a desktop names none, the slot to be shown first. *)
Theorem active_slot_chosen time s l ep :
  exists c, slots_effects isDesktop isMobile time (Some s) (OnSlots (Next (l, ep))) =
    (None, [Dispatch (GetSlotsSuccess l ep c)]) /\
  (forall x, c = Some x -> x ∈ l) /\
  (forall r, activeSlotRoute s = Some r -> r <> EmptyString ->
     ((exists x, c = Some x /\ show (globalSlot x) = r) \/
      (forall x, x ∈ l -> show (globalSlot x) <> r) /\ best l c)) /\
  (activeSlotRoute s = None -> isDesktop = true -> best l c).
Proof.
  exists (chooseActive isDesktop isMobile s l). split; [done|].
  pose proof (preferred_best l) as Hp. unfold chooseActive.
  destruct (List.find _ l) as [x|] eqn:E.
  - apply find_Some_elem in E as [Hx Hr%bool_decide_eq_true]. split_and!.
    + intros y. case_match; [|congruence]. intros Hy. rewrite Hy in Hp. apply Hp.
    + intros r Hr' Hne. left. exists x. rewrite Hr' in *. cbn.
      assert (truthy_str r = true) as -> by (by destruct r). rewrite !andb_false_r. cbn.
      split; [done|congruence].
    + congruence.
  - pose proof (fun y Hy => proj1 (bool_decide_eq_false _) (find_None_elem _ _ y E Hy)) as N.
    split_and!.
    + intros y. case_match; [|done]. intros Hy. rewrite Hy in Hp. apply Hp.
    + intros r Hr Hne. right. rewrite Hr in *. cbn.
      assert (truthy_str r = true) as -> by (by destruct r). cbn. rewrite orb_true_r. cbn.
      split; [|done]. intros x Hx Hs. apply (N x Hx). by rewrite Hs.
    + intros -> ->. done.
Qed.

(** A slot being produced is one whose time came less than three minutes
    ago and that was not discarded; only it has a percentage, a fifth for each
    of the five steps that is done, so all of them are when it shows 100. *)
Theorem attempt_progress `{HasValue} `{NanOrElse} now a :
  let s := mapAttempt isDesktop now a in
  (active s = true <->
   slotTime s <= now < slotTime s + 180000 /\ truthy_onum (r_discarded (a_times a)) = false) /\
  (is_Some (percentage s) <-> active s = true) /\
  forall p t, percentage s = Some p -> times s = Some t ->
  let steps := [stagedLedgerDiffCreate t; produced t; proofCreate t; blockApply t; committed t] in
  p = 20 * Z.of_nat (count_if is_some steps) /\ 0 <= p <= 100 /\
  (p = 100 <-> Forall is_Some steps).
Proof.
  intros s. split_and!.
  - unfold s, mapAttempt, getActive. cbn [active slotTime].
    rewrite !andb_true_iff, negb_true_iff, Z.leb_le, Z.ltb_lt. intuition lia.
  - unfold s, mapAttempt. cbn [percentage active]. destruct (getActive _ _ _); split; intros Hx;
      [done|by eexists|by destruct Hx|done].
  - intros p t Hp Ht steps.
    assert (Hpt : p = 20 * Z.of_nat (count_if is_some steps)).
    { unfold s, mapAttempt in Hp, Ht. cbn [percentage times] in Hp, Ht. case_match; [|done].
      injection Ht as <-. injection Hp as <-. unfold progress, count_if. rewrite Z.mul_comm. do 3 f_equal.
      apply lfilter_ext. intros x _. apply hasValue_spec. }
    split; [done|]. pose proof (count_if_le is_some steps) as Hle. change (length steps) with 5%nat in Hle.
    split; [lia|]. rewrite Hpt. split.
    + intros Hc. assert (Hn : count_if is_some steps = 5%nat) by lia. clear -Hn. unfold steps in *.
      destruct (stagedLedgerDiffCreate t), (produced t), (proofCreate t), (blockApply t), (committed t);
        try discriminate Hn. repeat constructor; by eexists.
    + intros HF. unfold steps in *. rewrite !Forall_cons in HF.
      destruct HF as ([? ->] & [? ->] & [? ->] & [? ->] & [? ->] & _). done.
Qed.

End Properties.

Definition no_times : RawTimes :=
  mkRawTimes 1 (Some 1) (Some 2) None None None None None None None.

Definition sample_attempt (st : WonSlotsStatus) : Attempt :=
  mkAttempt (mkWonSlot 1700000000000000000 7141 1 []) None no_times (Some st) None None None.

Definition sample_slot (st : WonSlotsStatus) : Slot :=
  @mapAttempt has_value nan_or_else true 1700000500000 (sample_attempt st).

Lemma table_shows_visible_witness :
  exists s : State, slots s = [sample_slot Orphaned; sample_slot Canonical] /\
    (sample_slot Canonical ∈ filteredSlots s <->
     sample_slot Canonical ∈ slots s /\ visible (filters s) (sample_slot Canonical)).
Proof.
  pose (l := [sample_slot Orphaned; sample_slot Canonical]).
  eexists. split; [|apply (@table_shows_visible (unsorted Slot) true false)].
  2: { eapply (@reach_step (unsorted Slot) true false _ (GetSlotsSuccess l None None));
         [apply reach_init|reflexivity]. }
  reflexivity.
Defined.

Lemma attempt_progress_witness :
  0 <= 20 <= 100 /\ (20 = 100 <-> Forall is_Some [Some 1; None; None; None; None : option Z]).
Proof.
  exact (proj2 (proj2 (proj2 (@attempt_progress true has_value nan_or_else 1700000000000
    (sample_attempt Produced))) 20 (mapTimes no_times) eq_refl eq_refl)).
Defined.

(** With the upcoming filter off a scheduled slot is still shown, and an attempt
    that stopped while its block was applied is not shown with every filter on. *)
Lemma upcoming_shows_scheduled :
  show_slot (mkFilters true true false true) (sample_slot Scheduled) = true /\
  show_slot (mkFilters true true true true) (sample_slot BlockApplyPending) = false.
Proof. split; reflexivity. Qed.

End WonSlots.
