(* ===== verification/GuardedLoad.v ===== *)
(** * Loads guarded by a flag

    Most pages load their data with the same pipeline: an action starts a
    request unless the field [pendingRequest] of the effects says that one is
    under way, [CLOSE] switches to the empty stream, and [tap]s set and clear the
    flag. The pages differ in three points, which are the fields of [Policy].
    This file has the pipeline and exactly which policies never block; what the
    effects of the pages do is in [Polling]. *)

From stdpp Require Import base list strings.
From S2P Require Import Prelude SharedLib.

Module GuardedLoad.

Record Policy := mkPolicy {
  close_passes : bool;    (* [CLOSE] passes the filter while a request is pending *)
  close_clears : bool;    (* [CLOSE] clears the flag *)
  error_clears : bool     (* the flag is cleared after an error is caught *)
}.

Record EffectState := mkEffect { pendingRequest : bool; inFlight : bool }.

Definition initialEffect : EffectState := mkEffect false false.

Inductive Event (T : Type) :=
| OnGet (force : bool)
| OnClose
| OnOutcome (o : outcome T).
Arguments OnGet {T} _.
Arguments OnClose {T}.
Arguments OnOutcome {T} _.

(** What can be seen of a loader: a request that goes out, and the actions. *)
Inductive Output (A : Type) :=
| Request
| Actions (l : list (dispatched A)).
Arguments Request {A}.
Arguments Actions {A} _.

Section Pipeline.
Context {T A : Type} (policy : Policy) (errType : MinaErrorType) (fallback : A) (wrap : T -> A).

Definition answer (now : string) (o : outcome T) : list (dispatched A) :=
  catchErrorAndRepeat now errType fallback
    match o with Next t => Next (wrap t) | Failed err => Failed err end.

Definition guarded_load (now : string) (e : EffectState) (ev : Event T) : EffectState * list (Output A) :=
  match ev with
  | OnGet force =>
    if force || negb (pendingRequest e) then (mkEffect true true, [Request]) else (e, [])
  | OnClose =>
    if close_passes policy || negb (pendingRequest e)
    then (mkEffect (if close_clears policy then false else pendingRequest e) false, [])
    else (e, [])
  | OnOutcome o =>
    if inFlight e
    then (mkEffect match o with
                   | Next _ => false
                   | Failed _ => if error_clears policy then false else pendingRequest e
                   end false,
          [Actions (answer now o)])
    else (e, [])
  end.

(** ** Blocking *)

Inductive reachable : EffectState -> Prop :=
| reach_init : reachable initialEffect
| reach_step now e ev : reachable e -> reachable (guarded_load now e ev).1.

Definition live_policy : bool :=
  error_clears policy && (close_clears policy || negb (close_passes policy)).

(** A flag that is set stands for a request that can still clear it. *)
Lemma live_invariant e :
  live_policy = true -> reachable e -> pendingRequest e = true -> inFlight e = true.
Proof.
  unfold live_policy. rewrite andb_true_iff. intros [He Hc].
  induction 1 as [|now e ev _ IH]; [done|]. destruct e as [[] []]; cbn in IH.
  all: destruct ev as [[]| |[t|err]], (close_passes policy) eqn:E1, (close_clears policy) eqn:E2;
    cbn; rewrite ?E1, ?E2, ?He; cbn; intuition congruence.
Qed.

(** The page is closed during a load, or the load fails. *)
Lemma blocked_reachable (err : JsError) :
  live_policy = false -> reachable (mkEffect true false).
Proof.
  unfold live_policy. intros Hl.
  assert (Hr : reachable (mkEffect true true)).
  { exact (reach_step "" initialEffect (OnGet false) reach_init). }
  destruct (error_clears policy) eqn:He; cbn in Hl.
  - apply orb_false_iff in Hl as [Hc Hp%negb_false_iff].
    pose proof (reach_step "" _ OnClose Hr) as H. cbn in H. by rewrite Hp, Hc in H.
  - pose proof (reach_step "" _ (OnOutcome (Failed err)) Hr) as H. cbn in H. by rewrite He in H.
Qed.
End Pipeline.

Arguments reachable {T A} _ _ _ _ _.

(** C38: the pipeline is never blocked, that is, in every reachable state in
    which nothing is loading the next action starts a request, exactly when an
    error clears the flag and [CLOSE] clears it too or cannot interrupt a
    request. *)
Theorem guarded_load_live {T A} policy errType (fallback : A) (wrap : T -> A) :
  (forall e now force, reachable policy errType fallback wrap e -> inFlight e = false ->
     guarded_load policy errType fallback wrap now e (OnGet force) = (mkEffect true true, [Request])) <->
  live_policy policy = true.
Proof.
  split.
  - intros H. destruct (live_policy policy) eqn:Hl; [done|]. exfalso.
    specialize (H (mkEffect true false) "" false
      (blocked_reachable policy errType fallback wrap (mkJsError "" None "") Hl) eq_refl). done.
  - intros Hl e now force Hr Hf. cbn. destruct (pendingRequest e) eqn:Hp; [|by rewrite orb_true_r].
    rewrite (live_invariant policy errType fallback wrap e Hl Hr Hp) in Hf. done.
Qed.

End GuardedLoad.
