(* ===== verification/NodesOverview.v ===== *)
(** * The overview of the nodes

    [src/frontend/src/app/features/nodes/overview]: what a node says about its
    synchronisation ([nodes-overview.service.ts]), the table of all configured
    nodes ([nodes-overview.reducer.ts]) and the effects that ask every node
    ([nodes-overview.effects.ts]). Times are nanoseconds; the code divides the
    time of the best tip by a million before it stores it. *)

From stdpp Require Import base list strings.
From S2P Require Import Prelude SharedLib.
Open Scope Z_scope.

Module NodesOverview.

(** ** What the store holds *)

Inductive BlockStatus := APPLIED | APPLYING | FETCHED | FETCHING | MISSING.

#[export] Instance BlockStatus_eq_dec : EqDecision BlockStatus.
Proof. solve_decision. Defined.

Record Block := mkBlock {
  b_globalSlot : Z;
  b_height : Z;
  hash : string;
  predHash : string;
  status : BlockStatus;
  fetchStart : option Z;
  fetchEnd : option Z;
  applyStart : option Z;
  applyEnd : option Z;
  fetchDuration : option Z;
  applyDuration : option Z;
  isBestTip : bool
}.

Inductive StepState := PENDING | LOADING | SUCCESS.

#[export] Instance StepState_eq_dec : EqDecision StepState.
Proof. solve_decision. Defined.

Record SnarkedStep := mkSnarkedStep {
  fetchHashesStart : option Z;
  fetchHashesEnd : option Z;
  fetchHashesDuration : option Z;
  fetchHashesPassedTime : option Z;
  fetchAccountsStart : option Z;
  fetchAccountsEnd : option Z;
  fetchAccountsDuration : option Z;
  fetchAccountsPassedTime : option Z
}.

Record StagedStep := mkStagedStep {
  fetchPartsStart : option Z;
  fetchPartsEnd : option Z;
  fetchPartsDuration : option Z;
  fetchPassedTime : option Z;
  reconstructStart : option Z;
  reconstructEnd : option Z;
  reconstructDuration : option Z;
  reconstructPassedTime : option Z
}.

Record EpochStep := mkEpochStep {
  state : StepState; snarked : SnarkedStep; totalTime : option Z
}.

Record RootStagedStep := mkRootStaged {
  st_state : StepState; staged : StagedStep; st_totalTime : option Z
}.

Record Ledgers := mkLedgers {
  stakingEpoch : EpochStep;
  nextEpoch : EpochStep;
  rootSnarked : EpochStep;
  rootStaged : RootStagedStep
}.

Inductive Kind := BOOTSTRAP | CATCHUP | SYNCED | KPENDING | OFFLINE.

#[export] Instance Kind_eq_dec : EqDecision Kind.
Proof. solve_decision. Defined.

(** A configured node that has not answered yet has a name and a kind only. *)
Record Node := mkNode {
  name : string;
  kind : option Kind;
  snarks : option Z;
  transactions : option Z;
  bestTipReceived : option string;
  bestTipReceivedTimestamp : option Z;
  bestTip : option string;
  height : option Z;
  globalSlot : option Z;
  appliedBlocks : option nat;
  applyingBlocks : option nat;
  missingBlocks : option nat;
  fetchedBlocks : option nat;
  fetchingBlocks : option nat;
  ledgers : option Ledgers;
  blocks : list Block
}.

(** ** What a node sends *)

Record RawBlock := mkRawBlock {
  global_slot : Z;
  r_height : Z;
  r_hash : string;
  pred_hash : string;
  r_status : BlockStatus;
  fetch_start : option Z;
  fetch_end : option Z;
  apply_start : option Z;
  apply_end : option Z
}.

Record RawSnarked := mkRawSnarked {
  fetch_hashes_start : option Z;
  fetch_hashes_end : option Z;
  fetch_accounts_start : option Z;
  fetch_accounts_end : option Z
}.

Record RawStaged := mkRawStaged {
  fetch_parts_start : option Z;
  fetch_parts_end : option Z;
  reconstruct_start : option Z;
  reconstruct_end : option Z
}.

(** Each step has a field [snarked], the root one also [staged]. *)
Record RawLedgers := mkRawLedgers {
  root : option (RawSnarked * RawStaged);
  next_epoch : option RawSnarked;
  staking_epoch : option RawSnarked
}.

Record SyncTip := mkSyncTip {
  r_kind : option Kind;
  synced : option Z;
  best_tip_received : Z;
  r_blocks : list RawBlock;
  r_ledgers : RawLedgers
}.

(** The fields of [/status] the overview reads. *)
Record Details := mkDetails { phase : Kind; d_snarks : Z; d_transactions : Z }.

(** ** Service *)

Definition getDuration (start stop : option Z) : option Z :=
  match stop, start with
  | Some e, Some s =>
    if truthyZ e && truthyZ s then Some (ceil_div (e - s) 1000000000) else None
  | _, _ => None
  end.

(** [now] is [Date.now()], in milliseconds. *)
Definition getPassed (now : Z) (start : option Z) : option Z :=
  match start with
  | Some s => if truthyZ s then Some (ceil_div (now * 1000000 - s) 1000000000) else None
  | None => None
  end.

Definition noneOfStepsCompleted (step : RawSnarked) : bool :=
  negb (truthy_onum (fetch_hashes_start step)) && negb (truthy_onum (fetch_accounts_start step)).

Definition getSnarkedLedgerStep (now : Z) (step : option RawSnarked) : EpochStep :=
  match step with
  | None => mkEpochStep PENDING (mkSnarkedStep None None None None None None None None) None
  | Some r =>
    {| state := if noneOfStepsCompleted r then PENDING else LOADING;
       snarked := {|
         fetchHashesStart := fetch_hashes_start r;
         fetchHashesEnd := fetch_hashes_end r;
         fetchAccountsStart := fetch_accounts_start r;
         fetchAccountsEnd := fetch_accounts_end r;
         fetchHashesDuration := getDuration (fetch_hashes_start r) (fetch_hashes_end r);
         fetchAccountsDuration := getDuration (fetch_accounts_start r) (fetch_accounts_end r);
         fetchHashesPassedTime := getPassed now (fetch_hashes_start r);
         fetchAccountsPassedTime := getPassed now (fetch_accounts_start r) |};
       totalTime := None |}
  end.

(** [a + b] of two durations: [null] counts as zero. *)
Definition add_durations (a b : option Z) : option Z := Some (default 0 a + default 0 b).

(** A later step has begun: this one is taken to be done. *)
Definition complete (s : EpochStep) : EpochStep :=
  mkEpochStep SUCCESS (snarked s)
    (add_durations (fetchHashesDuration (snarked s)) (fetchAccountsDuration (snarked s))).

Definition complete_if (later : StepState) (s : EpochStep) : EpochStep :=
  if bool_decide (later = PENDING) then s else complete s.

Definition getStaged (now : Z) (r : RawStaged) : StagedStep :=
  {| fetchPartsStart := fetch_parts_start r;
     fetchPartsEnd := fetch_parts_end r;
     reconstructStart := reconstruct_start r;
     reconstructEnd := reconstruct_end r;
     fetchPartsDuration := getDuration (fetch_parts_start r) (fetch_parts_end r);
     reconstructDuration := getDuration (reconstruct_start r) (reconstruct_end r);
     fetchPassedTime := getPassed now (fetch_parts_start r);
     reconstructPassedTime := getPassed now (reconstruct_start r) |}.

(** The two steps of the root ledger. The snarked one looks at the state of the
    staged one before that is set to [SUCCESS]. *)
Definition getRoot (now : Z) (r : option (RawSnarked * RawStaged)) : EpochStep * RootStagedStep :=
  let epochLedger := getSnarkedLedgerStep now (fst <$> r) in
  match r with
  | None =>
    (epochLedger, mkRootStaged PENDING (mkStagedStep None None None None None None None None) None)
  | Some (_, rs) =>
    let st := getStaged now rs in
    let begun := if negb (truthy_onum (fetch_parts_start rs)) && negb (truthy_onum (reconstruct_start rs))
                 then PENDING else LOADING in
    (complete_if begun epochLedger,
     if truthy_onum (reconstructEnd st)
     then mkRootStaged SUCCESS st (add_durations (fetchPartsDuration st) (reconstructDuration st))
     else mkRootStaged begun st None)
  end.

Definition getLedgers (now : Z) (r : RawLedgers) : Ledgers :=
  let '(rootSnarked, rootStaged) := getRoot now (root r) in
  let nextEpoch := complete_if (state rootSnarked) (getSnarkedLedgerStep now (next_epoch r)) in
  let stakingEpoch := complete_if (state nextEpoch) (getSnarkedLedgerStep now (staking_epoch r)) in
  mkLedgers stakingEpoch nextEpoch rootSnarked rootStaged.

(** [getKind] is not called. *)
Definition getKind (t : SyncTip) : Kind :=
  if bool_decide (r_kind t = Some SYNCED) then SYNCED
  else match head (r_blocks t) with
       | Some b => if truthy_str (r_hash b) then CATCHUP else BOOTSTRAP
       | None => BOOTSTRAP
       end.

Definition count_status (st : BlockStatus) (bs : list RawBlock) : nat :=
  count_if (fun b => bool_decide (r_status b = st)) bs.

Definition mapBlock (index : nat) (b : RawBlock) : Block :=
  {| b_globalSlot := global_slot b; b_height := r_height b; hash := r_hash b;
     predHash := pred_hash b; status := r_status b;
     fetchStart := fetch_start b; fetchEnd := fetch_end b;
     applyStart := apply_start b; applyEnd := apply_end b;
     fetchDuration := getDuration (fetch_start b) (fetch_end b);
     applyDuration := getDuration (apply_start b) (apply_end b);
     isBestTip := bool_decide (index = 0%nat) |}.

Section Service.
(** [readable] is [toReadableDate] of a time in nanoseconds. *)
Context `{HasValue} (readable : Z -> string) (now : Z).

Definition mapTip (nodeName : string) (nodeDetails : option Details) (t : SyncTip) : Node :=
  {| name := nodeName;
     kind := match nodeDetails with
             | Some d => Some (phase d)
             | None => if hasValue (synced t) then Some SYNCED else r_kind t
             end;
     snarks := d_snarks <$> nodeDetails;
     transactions := d_transactions <$> nodeDetails;
     bestTipReceived := Some (readable (best_tip_received t));
     bestTipReceivedTimestamp := Some (best_tip_received t);
     bestTip := r_hash <$> head (r_blocks t);
     height := r_height <$> head (r_blocks t);
     globalSlot := global_slot <$> head (r_blocks t);
     appliedBlocks := Some (count_status APPLIED (r_blocks t));
     applyingBlocks := Some (count_status APPLYING (r_blocks t));
     missingBlocks := Some (count_status MISSING (r_blocks t));
     fetchedBlocks := Some (count_status FETCHED (r_blocks t));
     fetchingBlocks := Some (count_status FETCHING (r_blocks t));
     ledgers := Some (getLedgers now (r_ledgers t));
     blocks := mapi mapBlock (r_blocks t) |}.

Definition mapNodeTipsResponse (syncTips : list SyncTip) (nodeDetails : option Details)
    (nodeName : string) : result (list Node) :=
  if (length syncTips =? 0)%nat then Throw "Empty response"
  else Ok (mapTip nodeName nodeDetails <$> syncTips).

Definition mapNodeTipsErrorResponse (nodeName : string) : list Node :=
  [ {| name := nodeName; kind := Some OFFLINE; snarks := Some 0; transactions := Some 0;
       bestTipReceived := Some "-"; bestTipReceivedTimestamp := Some 0; bestTip := Some "-";
       height := None; globalSlot := Some 0;
       appliedBlocks := Some 0%nat; applyingBlocks := Some 0%nat; missingBlocks := Some 0%nat;
       fetchedBlocks := Some 0%nat; fetchingBlocks := Some 0%nat;
       ledgers := Some (getLedgers now (mkRawLedgers None None None)); blocks := [] |} ].

(** An error of the two requests or of the mapping ends in the same place. *)
Definition getNodeTips (nodeName : string) (o : outcome (list SyncTip * Details)) : list Node :=
  match o with
  | Failed _ => mapNodeTipsErrorResponse nodeName
  | Next (syncTips, d) =>
    match mapNodeTipsResponse syncTips (Some d) nodeName with
    | Ok nodes => nodes
    | Throw _ => mapNodeTipsErrorResponse nodeName
    end
  end.
End Service.

(** ** Store *)

Record State := mkState { nodes : list Node; activeNode : option Node; sort_ : TableSort }.

Inductive Action :=
| Init
| GetNodes
| GetNodesSuccess (payload : list Node)
| GetNodeStatus (payload : MinaNode)
| GetNodeStatusSuccess (payload : option Node)
| SortNodes (payload : TableSort)
| SetActiveNode (payload : option Node)
| Close.

Section Reducer.
Context `{TableSorter Node} (configs : list MinaNode).

Definition sortNodes (l : list Node) (ts : TableSort) : list Node :=
  sort l ts ["kind"; "name"; "bestTip"] false.

Definition pendingNode (n : MinaNode) : Node :=
  mkNode (node_name n) (Some KPENDING) None None None None None None None None None None None
    None None [].

Definition initialState : State :=
  mkState (pendingNode <$> configs) None (mkTableSort "kind" DSC).

Definition same_name (n m : Node) : bool := bool_decide (name m = name n).

(** The row of the node is replaced, or added at the end. *)
Definition updateNode (l : list Node) (currentNode : option Node) : list Node :=
  match currentNode with
  | None => l
  | Some n =>
    match findIndex (same_name n) l with
    | Some i => <[i:=n]> l
    | None => l ++ [n]
    end
  end.

Definition reducer (s : State) (a : Action) : State :=
  match a with
  | GetNodeStatusSuccess currentNode =>
    let l := updateNode (nodes s) currentNode in
    {| nodes := sortNodes l (sort_ s);
       activeNode := match activeNode s with
                     | Some active => List.find (same_name active) l
                     | None => None
                     end;
       sort_ := sort_ s |}
  | SortNodes payload => mkState (sortNodes (nodes s) payload) (activeNode s) payload
  | SetActiveNode payload => mkState (nodes s) payload (sort_ s)
  | Close => initialState
  | Init | GetNodes | GetNodesSuccess _ | GetNodeStatus _ => s
  end.
End Reducer.

(** ** Effects *)

Inductive Event := OnGetNodes (appNodes : list MinaNode) | OnClose.

(** [getNodes$], over the field [pendingRequest]: the flag is cleared by each
    of the actions, so only when there is one. *)
Definition getNodes_effect (pendingRequest : bool) (ev : Event) : bool * list Action :=
  if pendingRequest then (true, [])
  else match ev with
       | OnClose => (false, [])
       | OnGetNodes appNodes =>
         (bool_decide (appNodes = []), GetNodeStatus <$> appNodes)
       end.

(** [getNodeStatus$]: the answers of the nodes come in any order ([mergeMap]),
    and none of them fails. *)
Definition getNodeStatus_effect `{HasValue} (readable : Z -> string) (now : Z) (n : MinaNode)
    (o : outcome (list SyncTip * Details)) : Action :=
  GetNodeStatusSuccess (head (getNodeTips readable now (node_name n) o)).

(** ** Properties *)

(** The four steps in the order the node takes them. *)
Definition step_states (l : Ledgers) : list StepState :=
  [state (stakingEpoch l); state (nextEpoch l); state (rootSnarked l); st_state (rootStaged l)].

(** A reconstruction that ended had begun. *)
Definition reconstruct_begun (r : RawLedgers) : Prop :=
  forall sn st, root r = Some (sn, st) ->
    truthy_onum (reconstruct_end st) = true -> truthy_onum (reconstruct_start st) = true.

Lemma complete_if_state later s :
  state (complete_if later s) = if bool_decide (later = PENDING) then state s else SUCCESS.
Proof. unfold complete_if. by case_bool_decide. Qed.

Lemma getRoot_staged now r :
  (forall sn st, r = Some (sn, st) ->
     truthy_onum (reconstruct_end st) = true -> truthy_onum (reconstruct_start st) = true) ->
  st_state (getRoot now r).2 <> PENDING -> state (getRoot now r).1 = SUCCESS.
Proof.
  intros Hr. destruct r as [[sn st]|]; [|done]. specialize (Hr sn st eq_refl). cbn.
  rewrite complete_if_state.
  destruct (truthy_onum (reconstruct_end st)); cbn.
  - rewrite Hr by done. cbn. by rewrite andb_false_r.
  - by destruct (_ && _).
Qed.

Lemma ledgers_all_done now r :
  reconstruct_begun r -> st_state (rootStaged (getLedgers now r)) = SUCCESS ->
  state (stakingEpoch (getLedgers now r)) = SUCCESS /\
  state (nextEpoch (getLedgers now r)) = SUCCESS /\
  state (rootSnarked (getLedgers now r)) = SUCCESS.
Proof.
  intros Hr. pose proof (getRoot_staged now (root r) Hr) as Hst.
  unfold getLedgers. destruct (getRoot now (root r)) as [sn st]. cbn in Hst |- *.
  intros Hs. rewrite Hs in Hst. rewrite !complete_if_state, Hst by done. done.
Qed.

Lemma reconstruct_end_done now r :
  truthy_onum (reconstructEnd (staged (rootStaged (getLedgers now r)))) = true ->
  st_state (rootStaged (getLedgers now r)) = SUCCESS.
Proof.
  unfold getLedgers. destruct (root r) as [[sn st]|]; cbn; [|done].
  destruct (truthy_onum (reconstruct_end st)) eqn:E; cbn; [done|]. by rewrite E.
Qed.

(** The steps of the ledger synchronisation are shown in their order: when
    one of them has begun, all steps before it are done. *)
Theorem ledger_steps_ordered now r i j s :
  reconstruct_begun r -> (i < j)%nat ->
  step_states (getLedgers now r) !! j = Some s -> s <> PENDING ->
  step_states (getLedgers now r) !! i = Some SUCCESS.
Proof.
  intros Hr Hij. pose proof (getRoot_staged now (root r) Hr) as Hst.
  unfold getLedgers, step_states. destruct (getRoot now (root r)) as [sn st]. cbn in Hst |- *.
  rewrite !complete_if_state. intros Hj Hs.
  destruct j as [|[|[|[|j]]]]; [lia| | | |done]; cbn in Hj; injection Hj as <-;
    destruct i as [|[|[|i]]]; try lia; cbn.
  all: rewrite ?Hst by done; try done.
  all: destruct (state sn); cbn in *; try done;
    destruct (state (getSnarkedLedgerStep now (next_epoch r))); done.
Qed.

Lemma count_statuses bs :
  (count_status APPLIED bs + count_status APPLYING bs + count_status MISSING bs +
   count_status FETCHED bs + count_status FETCHING bs)%nat = length bs.
Proof.
  unfold count_status. induction bs as [|b bs IH]; [done|]. rewrite !count_if_cons. cbn [length].
  destruct (r_status b); cbn [bool_decide]; repeat case_bool_decide; try done; lia.
Qed.

(** A node whose answer is empty counts as offline; otherwise there is one
    entry per tip, the five counts add up to its blocks and exactly the first
    block is the best tip. *)
Theorem node_tips_counted `{HasValue} readable now nodeName tips d n :
  n ∈ getNodeTips readable now nodeName (Next (tips, d)) ->
  length (getNodeTips readable now nodeName (Next (tips, d))) = Nat.max 1 (length tips) /\
  (kind n = if bool_decide (tips = []) then Some OFFLINE else Some (phase d)) /\
  (exists a b c e f, appliedBlocks n = Some a /\ applyingBlocks n = Some b /\
     missingBlocks n = Some c /\ fetchedBlocks n = Some e /\ fetchingBlocks n = Some f /\
     (a + b + c + e + f)%nat = length (blocks n)) /\
  forall i b, blocks n !! i = Some b -> isBestTip b = bool_decide (i = 0%nat).
Proof.
  unfold getNodeTips, mapNodeTipsResponse. destruct tips as [|t tips]; cbn.
  - intros ->%list_elem_of_singleton. repeat split; [by repeat eexists|done].
  - intros Hn. split; [by rewrite length_fmap|].
    change (n ∈ mapTip readable now nodeName (Some d) <$> (t :: tips)) in Hn.
    apply list_elem_of_fmap in Hn as (t' & -> & _). cbn. split; [done|]. split.
    + eexists _, _, _, _, _. repeat split. by rewrite count_statuses, length_imap.
    + intros i b. unfold mapi. rewrite list_lookup_imap. destruct (r_blocks t' !! i); [|done].
      by intros [= <-].
Qed.

Section Store.
Context `{TableSorter Node} (configs : list MinaNode).

Inductive reachable : State -> Prop :=
| reach_init : reachable (initialState configs)
| reach_step s a : reachable s -> reachable (reducer configs s a).

Lemma same_name_index n l i :
  findIndex (same_name n) l = Some i -> exists m, l !! i = Some m /\ name m = name n.
Proof.
  intros (m & Hm & Hn & _)%findIndex_Some. exists m. split; [done|].
  by apply bool_decide_eq_true in Hn.
Qed.

(** The names of the rows: the row's own name when it is replaced. *)
Lemma updateNode_names l n :
  name <$> updateNode l (Some n) =
    if bool_decide (name n ∈ name <$> l) then name <$> l else (name <$> l) ++ [name n].
Proof.
  unfold updateNode. destruct (findIndex (same_name n) l) as [i|] eqn:Hi.
  - destruct (same_name_index _ _ _ Hi) as (m & Hm & Hn). rewrite list_fmap_insert.
    rewrite bool_decide_eq_true_2.
    + rewrite <- Hn. apply list_insert_id. by rewrite list_lookup_fmap, Hm.
    + rewrite <- Hn. apply list_elem_of_fmap. exists m. split; [done|]. by eapply list_elem_of_lookup_2.
  - rewrite bool_decide_eq_false_2, fmap_app; [done|]. intros (m & Hn & Hm)%list_elem_of_fmap.
    pose proof (findIndex_None (same_name n) l) as [Hf _]. specialize (Hf Hi m Hm).
    by apply bool_decide_eq_false in Hf.
Qed.

Lemma updateNode_unique l n : NoDup (name <$> l) -> NoDup (name <$> updateNode l n).
Proof.
  destruct n as [n|]; [|done]. rewrite updateNode_names. case_bool_decide; [done|].
  intros Hd. apply NoDup_app. split; [done|]. split; [|apply NoDup_singleton].
  intros x Hx ->%list_elem_of_singleton. done.
Qed.

Lemma sortNodes_names l ts : name <$> sortNodes l ts ≡ₚ name <$> l.
Proof. unfold sortNodes. by rewrite sort_perm. Qed.

Lemma initial_names : name <$> nodes (initialState configs) = node_name <$> configs.
Proof. cbn. rewrite <- list_fmap_compose. by apply list_fmap_ext. Qed.

Lemma reachable_unique s :
  NoDup (node_name <$> configs) -> reachable s -> NoDup (name <$> nodes s).
Proof.
  intros Hc. induction 1 as [|s a Hr IH]; [by rewrite initial_names|].
  destruct a; try done; cbn [nodes reducer]; rewrite ?sortNodes_names; try done.
  - by apply updateNode_unique.
  - by rewrite initial_names.
Qed.

Lemma reachable_configured s c :
  reachable s -> c ∈ configs -> node_name c ∈ name <$> nodes s.
Proof.
  intros Hr Hin. apply (list_elem_of_fmap_2 node_name) in Hin. rewrite <- initial_names in Hin.
  induction Hr as [|s a Hr IH]; [done|].
  destruct a as [| | | |[n|]| | |]; try done; cbn [nodes reducer]; rewrite ?sortNodes_names; try done.
  rewrite updateNode_names. case_bool_decide; [done|]. apply elem_of_app. by left.
Qed.

(** When the configured names differ, no two rows of the table ever have
    the same name, every configured node has a row, and a node that is selected
    from the table stays one of its rows when rows are updated. *)
Theorem node_rows_unique s :
  NoDup (node_name <$> configs) -> reachable s ->
  NoDup (name <$> nodes s) /\ (forall c, c ∈ configs -> node_name c ∈ name <$> nodes s) /\
  forall n m, activeNode (reducer configs s (GetNodeStatusSuccess n)) = Some m ->
    m ∈ nodes (reducer configs s (GetNodeStatusSuccess n)).
Proof.
  intros Hc Hr. split; [by apply reachable_unique|]. split; [by intros; apply reachable_configured|].
  intros n m. cbn. destruct (activeNode s); [|done]. intros [Hm _]%find_Some_elem.
  unfold sortNodes. by rewrite sort_perm.
Qed.

Lemma updateNode_elem l n m :
  name m <> name n -> m ∈ updateNode l (Some n) <-> m ∈ l.
Proof.
  intros Hm. unfold updateNode. destruct (findIndex (same_name n) l) as [i|] eqn:Hi.
  - destruct (same_name_index _ _ _ Hi) as (k & Hk & Hn).
    rewrite !list_elem_of_lookup. split; intros [j Hj]; exists j.
    + destruct (decide (i = j)) as [<-|Hij]; [|by rewrite list_lookup_insert_ne in Hj].
      rewrite list_lookup_insert_eq in Hj by (by eapply lookup_lt_Some). congruence.
    + rewrite list_lookup_insert_ne; [done|]. intros ->. congruence.
  - rewrite elem_of_app, list_elem_of_singleton. intuition congruence.
Qed.

Lemma updateNode_new l n : n ∈ updateNode l (Some n).
Proof.
  unfold updateNode. destruct (findIndex (same_name n) l) as [i|] eqn:Hi.
  - apply list_elem_of_insert. by eapply findIndex_lt.
  - apply elem_of_app. right. by apply list_elem_of_singleton.
Qed.

Lemma NoDup_names_eq l n m :
  NoDup (name <$> l) -> n ∈ l -> m ∈ l -> name n = name m -> n = m.
Proof.
  intros Hd [i Hi]%list_elem_of_lookup [j Hj]%list_elem_of_lookup Hn.
  enough (i = j) by congruence.
  apply (NoDup_lookup _ i j (name n) Hd); rewrite list_lookup_fmap; [by rewrite Hi|].
  by rewrite Hj, Hn.
Qed.

Section Poll.
Context `{HasValue} (readable : Z -> string) (now : Z).

(** The answers of the nodes are handled in the order in which they come. *)
Definition poll (s : State) (polls : list (MinaNode * outcome (list SyncTip * Details))) : State :=
  fold_left (fun s p => reducer configs s (getNodeStatus_effect readable now p.1 p.2)) polls s.

Lemma getNodeTips_named nodeName o :
  exists row, head (getNodeTips readable now nodeName o) = Some row /\ name row = nodeName.
Proof.
  destruct o as [[[|t tips] d]|e]; cbn; by eexists.
Qed.

Lemma poll_reachable polls s : reachable s -> reachable (poll s polls).
Proof.
  revert s. induction polls as [|p polls IH]; [done|]. intros s Hs. apply IH. by apply reach_step.
Qed.

Lemma poll_keeps row polls s :
  name row ∉ (node_name <$> polls.*1) -> row ∈ nodes s -> row ∈ nodes (poll s polls).
Proof.
  revert s. induction polls as [|[n o] polls IH]; intros s Hn Hrow; [done|].
  apply not_elem_of_cons in Hn as [Hn Hns]. cbn [fst snd fmap list_fmap] in *.
  apply IH; [done|]. unfold getNodeStatus_effect. cbn [fst snd].
  destruct (getNodeTips_named (node_name n) o) as (m & -> & Hm). cbn [reducer nodes].
  apply sort_elem, updateNode_elem; [congruence|done].
Qed.

(** However the answers of the nodes are ordered, once they are all in, the
    table has for each node that was asked exactly one row, which is the first
    entry of its answer, or the offline row when the node could not be
    reached. *)
Theorem poll_refreshes_rows s polls n o :
  NoDup (node_name <$> configs) -> reachable s ->
  NoDup (node_name <$> polls.*1) -> (n, o) ∈ polls ->
  exists row, head (getNodeTips readable now (node_name n) o) = Some row /\
  forall m, m ∈ nodes (poll s polls) /\ name m = node_name n <-> m = row.
Proof.
  intros Hc Hr Hd Hin. destruct (getNodeTips_named (node_name n) o) as (row & Hrow & Hname).
  exists row. split; [done|].
  assert (Hrowin : row ∈ nodes (poll s polls)).
  { apply list_elem_of_split in Hin as (p1 & p2 & ->). unfold poll. rewrite fold_left_app.
    cbn [fold_left fst snd]. apply poll_keeps.
    - rewrite !fmap_app in Hd. apply NoDup_app in Hd as (_ & _ & [Hd _]%NoDup_cons).
      by rewrite Hname.
    - unfold getNodeStatus_effect. rewrite Hrow. cbn [reducer nodes]. apply sort_elem, updateNode_new. }
  intros m. split; [|by intros ->]. intros [Hm Hn].
  pose proof (poll_reachable polls s Hr) as Hr'.
  assert (Hu : NoDup (name <$> nodes (poll s polls))) by by apply reachable_unique.
  apply (NoDup_names_eq _ _ _ Hu Hm Hrowin). congruence.
Qed.
End Poll.
End Store.

(** Without configured nodes the first poll leaves the flag set, and no later
    one asks anybody, also not after nodes were added. *)
Lemma empty_poll_blocks evs :
  fold_left (fun p ev => (getNodes_effect p ev).1) evs (getNodes_effect false (OnGetNodes [])).1 = true /\
  forall ev, (getNodes_effect true ev).2 = [].
Proof. split; [|done]. cbn. by induction evs. Qed.

(** ** Witnesses *)

Definition staged_running : RawLedgers :=
  mkRawLedgers (Some (mkRawSnarked (Some 1) (Some 2) (Some 2) (Some 3),
                      mkRawStaged (Some 4) None None None)) None None.

Lemma ledger_steps_ordered_witness :
  step_states (getLedgers 0 staged_running) !! 0%nat = Some SUCCESS.
Proof.
  apply (ledger_steps_ordered 0 staged_running 0 3 LOADING);
    [by intros sn st [= <- <-]|lia|reflexivity|done].
Defined.

Definition one_tip : SyncTip :=
  mkSyncTip None None 5 [mkRawBlock 1 2 "a" "b" APPLIED None None None None;
                         mkRawBlock 1 1 "b" "c" FETCHED None None None None]
    (mkRawLedgers None None None).

Definition node_a : MinaNode := mkMinaNode "a" None None None None false false.
Definition node_b : MinaNode := mkMinaNode "b" None None None None false false.

Lemma node_tips_counted_witness :
  kind (@mapTip has_value (fun _ => "") 0 "a" (Some (mkDetails SYNCED 1 2)) one_tip) = Some SYNCED.
Proof.
  refine (proj1 (proj2 (@node_tips_counted has_value (fun _ => "") 0 "a" [one_tip]
    (mkDetails SYNCED 1 2) _ _))).
  left.
Defined.

Lemma node_rows_unique_witness :
  NoDup (name <$> nodes (@reducer (unsorted Node) [node_a] (@initialState [node_a])
    (@getNodeStatus_effect has_value (fun _ => "") 0 node_b (Next ([one_tip], mkDetails SYNCED 1 2))))).
Proof.
  refine (proj1 (@node_rows_unique (unsorted Node) [node_a] _ _ _)).
  - apply NoDup_singleton.
  - apply reach_step, reach_init.
Defined.

Lemma poll_refreshes_rows_witness :
  exists row, name row = "b" /\ kind row = Some OFFLINE /\
  row ∈ nodes (@poll (unsorted Node) [node_a] has_value (fun _ => "") 0 (@initialState [node_a])
    [(node_b, Failed (mkJsError "" None "")); (node_a, Next ([one_tip], mkDetails SYNCED 1 2))]).
Proof.
  destruct (@poll_refreshes_rows (unsorted Node) [node_a] has_value (fun _ => "") 0
    (@initialState [node_a])
    [(node_b, Failed (mkJsError "" None "")); (node_a, Next ([one_tip], mkDetails SYNCED 1 2))]
    node_b (Failed (mkJsError "" None ""))) as (row & [= <-] & Hm).
  - apply NoDup_singleton.
  - apply reach_init.
  - by apply (bool_decide_eq_true _).
  - left.
  - eexists. split; [|split]; [| |apply Hm; reflexivity]; reflexivity.
Defined.

End NodesOverview.
