(* ===== verification/NodesLive.v ===== *)
(** * The live view of a node

    [src/frontend/src/app/features/nodes/live]: the tips of the chosen node with
    the events of their blocks ([nodes-live.service.ts]), the store
    ([nodes-live.reducer.ts]) and the effect that loads them
    ([nodes-live.effects.ts]). Times are nanoseconds. *)

From stdpp Require Import base list strings.
From S2P Require Import Prelude SharedLib GuardedLoad NodesOverview.
Open Scope Z_scope.

Module NodesLive.
Import NodesOverview GuardedLoad.

Record BlockEvent := mkEvent {
  datetime : string;
  timestamp : Z;
  e_height : Z;
  message : string;
  e_status : string;
  elapsed : option Z;
  e_isBestTip : bool
}.

(** A node of the overview with its index and its events. *)
Record LiveNode := mkLiveNode { overview : Node; index : nat; events : list BlockEvent }.

(** ** Service *)

(** The names of the enumeration [NodesOverviewNodeBlockStatus]. *)
Definition status_name (s : BlockStatus) : string :=
  match s with
  | APPLIED => "Applied"
  | APPLYING => "Applying"
  | FETCHED => "Fetched"
  | FETCHING => "Fetching"
  | MISSING => "Missing"
  end.

Definition status_names : list string :=
  status_name <$> [APPLIED; APPLYING; FETCHED; FETCHING; MISSING].

Section Service.
(** [readable] is [toReadableDate] of a time in nanoseconds. *)
Context (readable : Z -> string).

(** The event for one of the four times of a block, when the block has it. *)
Definition event_at (isBestTip : bool) (b : Block) (time : option Z) (st : BlockStatus)
    (word : string) (took : option Z) : list BlockEvent :=
  match time with
  | Some t =>
    if truthyZ t then [mkEvent (readable t) t (b_height b) (status_name st) word took isBestTip] else []
  | None => []
  end.

Definition block_events (i : nat) (b : Block) : list BlockEvent :=
  let isBestTip := bool_decide (i = 0%nat) in
  event_at isBestTip b (fetchStart b) FETCHING "Started" None ++
  event_at isBestTip b (fetchEnd b) FETCHED "Completed" (fetchDuration b) ++
  event_at isBestTip b (applyStart b) APPLYING "Started" None ++
  event_at isBestTip b (applyEnd b) APPLIED "Completed" (applyDuration b).

Definition getEvents (n : Node) : list BlockEvent := concat (mapi block_events (blocks n)).

Definition getLiveNodeTips (tips : list Node) : list LiveNode :=
  mapi (fun i n => mkLiveNode n i (getEvents n))
    (reverse (List.filter (fun n => negb (bool_decide (kind n = Some OFFLINE))) tips)).
End Service.

(** ** Store *)

Record State := mkState {
  nodes : list LiveNode;
  activeNode : option LiveNode;
  sort_ : TableSort;
  openSidePanel : bool;
  filteredEvents : list BlockEvent;
  filters : list string
}.

Inductive Action :=
| Init
| GetNodes (force : bool)
| GetNodesSuccess (payload : list LiveNode)
| SortEvents (payload : TableSort)
| SetActiveNode (hash : option string)
| ToggleSidePanel
| ToggleFilter (payload : string)
| Close.

Definition has_tip (tip : option string) (n : LiveNode) : bool :=
  bool_decide (bestTip (overview n) = tip).

Definition filterEvents (l : list BlockEvent) (fs : list string) : list BlockEvent :=
  if (length fs =? 0)%nat then l
  else
    let l1 := if includes fs "best tip" then List.filter e_isBestTip l else l in
    if existsb (includes status_names) fs
    then List.filter (fun e => includes fs (message e)) l1 else l1.

Definition no_active_node : string := "Cannot read properties of undefined (reading 'events')".

Section Reducer.
Context `{TableSorter BlockEvent} `{!ItemToggler string} (isDesktop : bool).

Definition sortEvents (l : list BlockEvent) (ts : TableSort) : list BlockEvent :=
  sort l ts ["message"; "status"] false.

Definition initialState : State :=
  {| nodes := []; activeNode := None; openSidePanel := isDesktop;
     sort_ := mkTableSort "timestamp" DSC; filteredEvents := []; filters := [] |}.

Definition reducer (s : State) (a : Action) : result State :=
  match a with
  | GetNodesSuccess payload =>
    let active := match activeNode s with
                  | Some n => List.find (has_tip (bestTip (overview n))) payload
                  | None => last_item payload
                  end in
    Ok (mkState payload active (sort_ s) (openSidePanel s)
          (filterEvents (sortEvents (default [] (events <$> active)) (sort_ s)) (filters s))
          (filters s))
  | SetActiveNode hash =>
    match List.find (has_tip hash) (nodes s) with
    | None => Ok s
    | Some n =>
      Ok (mkState (nodes s) (Some n) (sort_ s) (openSidePanel s)
            (filterEvents (sortEvents (events n) (sort_ s)) (filters s)) (filters s))
    end
  | SortEvents payload =>
    match activeNode s with
    | None => Throw no_active_node
    | Some n =>
      Ok (mkState (nodes s) (Some n) payload (openSidePanel s)
            (filterEvents (sortEvents (events n) payload) (filters s)) (filters s))
    end
  | ToggleSidePanel =>
    Ok (mkState (nodes s) (if openSidePanel s then None else activeNode s) (sort_ s)
          (negb (openSidePanel s)) (filteredEvents s) (filters s))
  | ToggleFilter payload =>
    let fs := toggleItem (filters s) payload in
    match activeNode s with
    | None => Throw no_active_node
    | Some n =>
      Ok (mkState (nodes s) (Some n) (sort_ s) (openSidePanel s)
            (filterEvents (sortEvents (events n) (sort_ s)) fs) fs)
    end
  | Close => Ok initialState
  | Init | GetNodes _ => Ok s
  end.
End Reducer.

(** ** Effect *)

(** [CLOSE] carries no [force], so it passes the filter only when no request is
    pending. *)
Definition policy : Policy :=
  {| close_passes := false; close_clears := false; error_clears := true |}.

Section Effect.
Context `{HasValue} (readable : Z -> string) (clock : Z) (nodeName : string).

Inductive LiveEvent :=
| OnLoad (force : bool)
| OnLeave
| OnAnswer (o : outcome (list SyncTip * Details)).

(** What the two requests of the node send becomes the nodes of the store.
    [getNodeTips] handles every error, so the fallback of the effect, which is
    not a list of nodes, is never dispatched. *)
Definition tips (ev : LiveEvent) : Event (list LiveNode) :=
  match ev with
  | OnLoad force => OnGet force
  | OnLeave => OnClose
  | OnAnswer o =>
    OnOutcome (Next (getLiveNodeTips readable (getNodeTips readable clock nodeName o)))
  end.

(** [getNodes$] *)
Definition getNodes_effect (fallback : Action) (now : string) (e : EffectState) (ev : LiveEvent)
    : EffectState * list (Output Action) :=
  guarded_load policy GENERIC fallback GetNodesSuccess now e (tips ev).
End Effect.

(** ** Properties *)

(** The times of a block in the order in which they come about, with the
    message, the status and the elapsed time of their events. *)
Definition block_times (b : Block) : list (option Z * string * string * option Z) :=
  [(fetchStart b, "Fetching", "Started", None); (fetchEnd b, "Fetched", "Completed", fetchDuration b);
   (applyStart b, "Applying", "Started", None); (applyEnd b, "Applied", "Completed", applyDuration b)].

Lemma elem_of_event_at readable best b time st word took e :
  e ∈ event_at readable best b time st word took <->
  exists t, time = Some t /\ t <> 0 /\
    e = mkEvent (readable t) t (b_height b) (status_name st) word took best.
Proof.
  unfold event_at, truthyZ. destruct time as [t|].
  - destruct (Z.eqb_spec t 0) as [->|Ht]; cbn.
    + rewrite elem_of_nil. naive_solver.
    + rewrite list_elem_of_singleton. naive_solver.
  - rewrite elem_of_nil. naive_solver.
Qed.

Lemma elem_of_block_events readable i b e :
  e ∈ block_events readable i b <->
  timestamp e <> 0 /\ datetime e = readable (timestamp e) /\ e_height e = b_height b /\
  e_isBestTip e = bool_decide (i = 0%nat) /\
  (Some (timestamp e), message e, e_status e, elapsed e) ∈ block_times b.
Proof.
  unfold block_events, block_times. rewrite !elem_of_app, !elem_of_event_at, !elem_of_cons, elem_of_nil.
  destruct e as [dt ts h msg st el best]. cbn [status_name timestamp datetime e_height message e_status elapsed e_isBestTip].
  split.
  - intros [(t & Ht & H0 & He)|[(t & Ht & H0 & He)|[(t & Ht & H0 & He)|(t & Ht & H0 & He)]]];
      injection He as -> -> -> -> -> -> ->; rewrite Ht; intuition congruence.
  - intros (H0 & -> & -> & -> & [He|[He|[He|[He|[]]]]]); injection He as Ht -> -> ->;
      [left|right; left|do 2 right; left|do 3 right]; exists ts; auto.
Qed.

Lemma elem_of_mapi {A B} (f : nat -> A -> B) l x :
  x ∈ mapi f l <-> exists i y, l !! i = Some y /\ x = f i y.
Proof.
  unfold mapi. rewrite list_elem_of_lookup. setoid_rewrite list_lookup_imap. split.
  - intros [i Hi]. destruct (l !! i) eqn:E; [|done]. injection Hi as <-. by eauto.
  - intros (i & y & Hy & ->). exists i. by rewrite Hy.
Qed.

(** The live view has the tips of a node in the reverse order, with their
    positions, and an event is listed exactly when it is one of the four times
    of one of the tip's blocks, with the words for that time; events of the
    first block are those of the best tip. *)
Theorem live_events_exact readable tips i m e :
  getLiveNodeTips readable tips !! i = Some m ->
  index m = i /\
  reverse (List.filter (fun n => negb (bool_decide (kind n = Some OFFLINE))) tips) !! i = Some (overview m) /\
  (e ∈ events m <-> exists j b, blocks (overview m) !! j = Some b /\
    timestamp e <> 0 /\ datetime e = readable (timestamp e) /\ e_height e = b_height b /\
    e_isBestTip e = bool_decide (j = 0%nat) /\
    (Some (timestamp e), message e, e_status e, elapsed e) ∈ block_times b).
Proof.
  unfold getLiveNodeTips, mapi. rewrite list_lookup_imap.
  destruct (_ !! i) as [n|] eqn:Hn; [|done]. cbn. intros [= <-]. cbn. split; [done|].
  split; [done|]. unfold getEvents. rewrite elem_of_lconcat. split.
  - intros (l & (j & b & Hb & ->)%elem_of_mapi & Hl). exists j, b. split; [done|].
    by apply elem_of_block_events in Hl.
  - intros (j & b & Hb & He). exists (block_events readable j b). split.
    + apply elem_of_mapi. eauto.
    + by apply elem_of_block_events.
Qed.

(** An event passes the filters: those of the statuses are alternatives, the
    one for the best tip is a further condition. *)
Definition event_visible (fs : list string) (e : BlockEvent) : bool :=
  (negb (includes fs "best tip") || e_isBestTip e) &&
  (negb (existsb (includes status_names) fs) || includes fs (message e)).

Lemma filterEvents_visible l fs : filterEvents l fs = List.filter (event_visible fs) l.
Proof.
  unfold filterEvents. destruct fs as [|f fs]; cbn [length Nat.eqb].
  - symmetry. by apply lfilter_all.
  - unfold event_visible.
    destruct (includes (f :: fs) "best tip"), (existsb (includes status_names) (f :: fs)); cbn [negb orb].
    + by rewrite lfilter_and.
    + apply lfilter_ext. intros x _. by rewrite andb_true_r.
    + apply lfilter_ext. done.
    + symmetry. by apply lfilter_all.
Qed.

Section Store.
Context `{TableSorter BlockEvent} `{!ItemToggler string} (isDesktop : bool).

(** States reached by actions that do not throw. *)
Inductive reachable : State -> Prop :=
| reach_init : reachable (initialState isDesktop)
| reach_step s a s' : reachable s -> reducer isDesktop s a = Ok s' -> reachable s'.

Definition table_follows (s : State) : Prop :=
  forall n, activeNode s = Some n ->
    n ∈ nodes s /\ filteredEvents s ≡ₚ List.filter (event_visible (filters s)) (events n).

Lemma filtered_perm l ts fs :
  filterEvents (sortEvents l ts) fs ≡ₚ List.filter (event_visible fs) l.
Proof. rewrite filterEvents_visible. apply lfilter_perm, sort_perm. Qed.

Lemma last_elem {A} (l : list A) x : last l = Some x -> x ∈ l.
Proof. rewrite last_lookup. apply list_elem_of_lookup_2. Qed.

(** In every reachable state the active node is one of the loaded nodes and
    the table shows exactly those of its events that pass the filters. *)
Theorem live_table_follows_active s : reachable s -> table_follows s.
Proof.
  unfold table_follows. induction 1 as [|s a s' _ IH Hs]; [done|].
  destruct a as [|f|payload|ts|hash| |f|]; cbn in Hs.
  - by injection Hs as <-.
  - by injection Hs as <-.
  - injection Hs as <-. cbn. intros n Hn. split.
    + destruct (activeNode s); [by apply find_Some_elem in Hn as [? _]|by apply last_elem].
    + rewrite Hn. apply filtered_perm.
  - destruct (activeNode s) as [n|]; [|done]. injection Hs as <-. cbn. intros m [= <-].
    split; [by apply IH|apply filtered_perm].
  - destruct (List.find _ _) as [n|] eqn:Hf; injection Hs as <-; [|done]. cbn. intros m [= <-].
    split; [by apply find_Some_elem in Hf as [? _]|apply filtered_perm].
  - injection Hs as <-. cbn. destruct (openSidePanel s); [done|]. apply IH.
  - destruct (activeNode s) as [n|]; [|done]. injection Hs as <-. cbn. intros m [= <-].
    split; [by apply IH|apply filtered_perm].
  - by injection Hs as <-.
Qed.

(** Sorting and filtering need an active node, which closing the side panel
    takes away. *)
Lemma closed_panel_throws s ts f :
  openSidePanel s = true ->
  exists s', reducer isDesktop s ToggleSidePanel = Ok s' /\
    reducer isDesktop s' (SortEvents ts) = Throw no_active_node /\
    reducer isDesktop s' (ToggleFilter f) = Throw no_active_node.
Proof. intros Hp. eexists. split; [done|]. cbn. by rewrite Hp. Qed.
End Store.

(** Leaving the page during a load does not cancel it: the answer is written
    into the store that was just reset. *)
Lemma late_answer_written `{HasValue} readable clock nodeName fallback now o :
  let step e ev := (getNodes_effect readable clock nodeName fallback now e ev).1 in
  (getNodes_effect readable clock nodeName fallback now
     (step (step initialEffect (OnLoad false)) OnLeave) (OnAnswer o)).2 =
  [Actions [Dispatch (GetNodesSuccess (getLiveNodeTips readable (getNodeTips readable clock nodeName o)))]].
Proof. done. Qed.

(** ** Witnesses *)

Definition tip_block : Block :=
  mkBlock 3 7 "a" "b" APPLIED (Some 10) (Some 20) (Some 30) None (Some 1) None true.

Definition tip_node : Node :=
  mkNode "n" (Some SYNCED) None None None None (Some "a") None None None None None None None None [tip_block].

Lemma live_events_exact_witness :
  mkEvent "" 20 7 "Fetched" "Completed" (Some 1) true ∈ getEvents (fun _ => "") tip_node.
Proof.
  refine (proj2 (proj2 (proj2 (live_events_exact (fun _ => "") [tip_node] 0
    (mkLiveNode tip_node 0 (getEvents (fun _ => "") tip_node))
    (mkEvent "" 20 7 "Fetched" "Completed" (Some 1) true) eq_refl))) _).
  exists 0%nat, tip_block. repeat split; try done. right. left.
Defined.

Definition filtered_state : State :=
  let m := mkLiveNode tip_node 0 (getEvents (fun _ => "") tip_node) in
  mkState [m] (Some m) (mkTableSort "timestamp" DSC) true
    [mkEvent "" 20 7 "Fetched" "Completed" (Some 1) true] ["Fetched"].

Lemma live_table_follows_active_witness : table_follows filtered_state.
Proof.
  apply (@live_table_follows_active (unsorted BlockEvent) item_toggler true).
  refine (@reach_step (unsorted BlockEvent) item_toggler true
    (mkState (getLiveNodeTips (fun _ => "") [tip_node]) _ _ _ _ _) (ToggleFilter "Fetched") _ _ _).
  - refine (@reach_step (unsorted BlockEvent) item_toggler true _
      (GetNodesSuccess (getLiveNodeTips (fun _ => "") [tip_node])) _
      (@reach_init (unsorted BlockEvent) item_toggler true) _).
    reflexivity.
  - vm_compute. reflexivity.
Defined.

End NodesLive.
