(* ===== verification/NodesBootstrap.v ===== *)
(** * The bootstrap view of a node

    [src/frontend/src/app/features/nodes/bootstrap]: the tips of the chosen node
    with the shortest, mean and longest times its blocks took
    ([nodes-bootstrap.service.ts]), the store ([nodes-bootstrap.reducer.ts]) and
    the effect that loads them ([nodes-bootstrap.effects.ts]). Means are
    rational numbers. *)

From Stdlib Require Import QArith.
From stdpp Require Import base list strings.
From S2P Require Import Prelude SharedLib GuardedLoad NodesOverview.
Open Scope Z_scope.

Module NodesBootstrap.
Import NodesOverview GuardedLoad.

(** A node of the overview; the counts, the height and the slot are its own. *)
Record BootstrapNode := mkBootstrapNode {
  overview : Node;
  index : nat;
  n_fetchedBlocks : nat;
  appliedBlocksAvg : Q;
  appliedBlocksMin : Z;
  appliedBlocksMax : Z;
  n_appliedBlocks : nat;
  fetchedBlocksAvg : Q;
  fetchedBlocksMin : Z;
  fetchedBlocksMax : Z;
  n_globalSlot : option Z;
  n_height : option Z
}.

(** ** Service *)

(** A block that was applied but has no end of it has the duration [null],
    which counts as zero in sums, minima and maxima. *)
Definition durations (f : Block -> option Z) (bs : list Block) : list Z :=
  (fun b => default 0 (f b)) <$> bs.

Definition average (ds : list Z) : Q :=
  (inject_Z (sumZ ds) / inject_Z (if (length ds =? 0)%nat then 1 else Z.of_nat (length ds)))%Q.

(** [Math.min(...ds)] where there is one, and [Math.max(...ds, 0)]. *)
Definition minimum (ds : list Z) : Z :=
  match ds with [] => 0 | d :: ds' => fold_left Z.min ds' d end.
Definition maximum (ds : list Z) : Z := fold_right Z.max 0 ds.

Section Service.
Context `{HasValue}.

Definition applied (b : Block) : bool :=
  bool_decide (status b = APPLIED) && hasValue (applyStart b).
Definition fetched (b : Block) : bool :=
  bool_decide (status b = FETCHED) && hasValue (fetchStart b).

Definition mapBootstrapNode (i : nat) (n : Node) : BootstrapNode :=
  let appliedBlocks := List.filter applied (blocks n) in
  let fetchedBlocks := List.filter fetched (blocks n) in
  let applyBlocksDurations := durations applyDuration appliedBlocks in
  let fetchBlocksDurations := durations fetchDuration fetchedBlocks in
  {| overview := n;
     index := i;
     n_fetchedBlocks := length fetchedBlocks;
     appliedBlocksAvg := average applyBlocksDurations;
     appliedBlocksMin := minimum applyBlocksDurations;
     appliedBlocksMax := maximum applyBlocksDurations;
     n_appliedBlocks := length appliedBlocks;
     fetchedBlocksAvg := average fetchBlocksDurations;
     fetchedBlocksMin := minimum fetchBlocksDurations;
     fetchedBlocksMax := maximum fetchBlocksDurations;
     n_globalSlot := b_globalSlot <$> head (blocks n);
     n_height := b_height <$> head (blocks n) |}.

Definition getBootstrapNodeTips (tips : list Node) : list BootstrapNode :=
  mapi mapBootstrapNode (List.filter (fun n => negb (bool_decide (kind n = Some OFFLINE))) tips).
End Service.

(** ** Store *)

Record State := mkState {
  nodes : list BootstrapNode;
  activeNode : option BootstrapNode;
  sort_ : TableSort;
  openSidePanel : bool
}.

Inductive Action :=
| Init
| GetNodes (force : bool)
| GetNodesSuccess (payload : list BootstrapNode)
| SortNodes (payload : TableSort)
| SetActiveBlock (payload : option BootstrapNode)
| ToggleSidePanel
| Close.

Section Reducer.
Context `{TableSorter BootstrapNode} (isDesktop : bool).

Definition sortNodes (l : list BootstrapNode) (ts : TableSort) : list BootstrapNode :=
  sort l ts ["bestTip"] false.

Definition initialState : State :=
  {| nodes := []; activeNode := None; openSidePanel := isDesktop; sort_ := mkTableSort "index" ASC |}.

Definition same_index (n m : BootstrapNode) : bool := bool_decide (index m = index n).

Definition reducer (s : State) (a : Action) : State :=
  match a with
  | GetNodesSuccess payload =>
    mkState (sortNodes payload (sort_ s))
      match activeNode s with
      | Some n => List.find (same_index n) payload
      | None => None
      end (sort_ s) (openSidePanel s)
  | SetActiveBlock payload =>
    mkState (nodes s) payload (sort_ s) (if is_some payload then true else openSidePanel s)
  | SortNodes payload => mkState (sortNodes (nodes s) payload) (activeNode s) payload (openSidePanel s)
  | ToggleSidePanel =>
    mkState (nodes s) (if openSidePanel s then None else activeNode s) (sort_ s)
      (negb (openSidePanel s))
  | Close => initialState
  | Init | GetNodes _ => s
  end.
End Reducer.

(** ** Effect *)

Definition policy : Policy :=
  {| close_passes := false; close_clears := false; error_clears := true |}.

Section Effect.
Context `{HasValue} (readable : Z -> string) (clock : Z) (nodeName : string).

Inductive BootstrapEvent :=
| OnLoad (force : bool)
| OnLeave
| OnAnswer (o : outcome (list SyncTip * Details)).

(** As in the live view, no error is left for the fallback. *)
Definition tips (ev : BootstrapEvent) : Event (list BootstrapNode) :=
  match ev with
  | OnLoad force => OnGet force
  | OnLeave => OnClose
  | OnAnswer o => OnOutcome (Next (getBootstrapNodeTips (getNodeTips readable clock nodeName o)))
  end.

(** [getNodes$] *)
Definition getNodes_effect (fallback : Action) (now : string) (e : EffectState) (ev : BootstrapEvent)
    : EffectState * list (Output Action) :=
  guarded_load policy GENERIC fallback GetNodesSuccess now e (tips ev).
End Effect.

(** ** Properties *)

Lemma fold_min_le ds d x : x = d \/ x ∈ ds -> fold_left Z.min ds d <= x.
Proof.
  revert d. induction ds as [|a ds IH] in x |- *; intros d; cbn.
  - intros [->|Hx]; [lia|by apply not_elem_of_nil in Hx].
  - pose proof (IH (Z.min d a) (Z.min d a) (or_introl eq_refl)).
    rewrite elem_of_cons. intros [->|[->|Hx]]; [lia|lia|]. apply IH. by right.
Qed.

Lemma minimum_le ds x : x ∈ ds -> minimum ds <= x.
Proof. destruct ds; [by intros ?%not_elem_of_nil|]. rewrite elem_of_cons. apply fold_min_le. Qed.

Lemma maximum_ge ds x : x ∈ ds -> x <= maximum ds.
Proof.
  induction ds as [|a ds IH]; [by intros ?%not_elem_of_nil|]. cbn.
  intros [->|Hx]%elem_of_cons; [lia|]. specialize (IH Hx). unfold maximum in IH. lia.
Qed.

Lemma sumZ_bounds ds lo hi :
  (forall x, x ∈ ds -> lo <= x <= hi) ->
  lo * Z.of_nat (length ds) <= sumZ ds <= hi * Z.of_nat (length ds).
Proof.
  induction ds as [|a ds IH]; intros Hx; [cbn; lia|]. rewrite sumZ_cons. cbn [length].
  assert (Ha := Hx a (list_elem_of_here _ _)).
  assert (IH' := IH (fun x H => Hx x (list_elem_of_further _ _ _ H))). lia.
Qed.

Lemma average_bounds ds :
  (inject_Z (minimum ds) <= average ds <= inject_Z (maximum ds))%Q.
Proof.
  destruct (decide (ds = [])) as [->|Hne]; [by vm_compute|].
  pose proof (sumZ_bounds ds (minimum ds) (maximum ds)
    (fun x H => conj (minimum_le ds x H) (maximum_ge ds x H))) as [Hlo Hhi].
  assert (Hlen : 0 < Z.of_nat (length ds)) by (destruct ds; [done|cbn; lia]).
  unfold average. replace (length ds =? 0)%nat with false by (destruct ds; done).
  assert (Hpos : (0 < inject_Z (Z.of_nat (length ds)))%Q) by (by rewrite <- (Zlt_Qlt 0)).
  split; [apply Qle_shift_div_l|apply Qle_shift_div_r]; try done; by rewrite <- inject_Z_mult, <- Zle_Qle.
Qed.

(** For every tip the mean time its blocks took to be applied lies between
    the shortest and the longest one, and so does the mean time to fetch them;
    the number of blocks timed is at most that of the overview. *)
Theorem bootstrap_means_bounded `{HasValue} tips n :
  n ∈ getBootstrapNodeTips tips ->
  (inject_Z (appliedBlocksMin n) <= appliedBlocksAvg n <= inject_Z (appliedBlocksMax n))%Q /\
  (inject_Z (fetchedBlocksMin n) <= fetchedBlocksAvg n <= inject_Z (fetchedBlocksMax n))%Q /\
  (n_appliedBlocks n <= count_if (fun b => bool_decide (status b = APPLIED)) (blocks (overview n)))%nat /\
  (n_fetchedBlocks n <= count_if (fun b => bool_decide (status b = FETCHED)) (blocks (overview n)))%nat.
Proof.
  intros (i & Hi)%list_elem_of_lookup. unfold getBootstrapNodeTips, mapi in Hi.
  rewrite list_lookup_imap in Hi. destruct (_ !! i) as [m|]; [|done]. injection Hi as <-. cbn.
  split; [apply average_bounds|]. split; [apply average_bounds|].
  unfold applied, fetched, count_if. rewrite <- !lfilter_and. split; apply sublist_length, lfilter_sublist.
Qed.

Section Store.
Context `{TableSorter BootstrapNode} (isDesktop : bool).

(** The details in the side panel are those of the latest load. *)
Lemma active_refreshed s payload n :
  activeNode (reducer isDesktop s (GetNodesSuccess payload)) = Some n ->
  n ∈ nodes (reducer isDesktop s (GetNodesSuccess payload)).
Proof.
  cbn. destruct (activeNode s); [|done]. intros [Hn _]%find_Some_elem. by apply sort_elem.
Qed.
End Store.

Definition timed_node : Node :=
  mkNode "n" (Some SYNCED) None None None None None None None None None None None None None
    [mkBlock 3 7 "a" "b" APPLIED None None (Some 30) (Some 40) None (Some 4) true;
     mkBlock 2 6 "b" "c" APPLIED None None (Some 10) (Some 20) None (Some 1) false].

Lemma bootstrap_means_bounded_witness :
  (inject_Z 1 <= average [4; 1]%Z <= inject_Z 4)%Q.
Proof.
  exact (proj1 (@bootstrap_means_bounded has_value [timed_node]
    (@mapBootstrapNode has_value 0 timed_node) (list_elem_of_here _ _))).
Defined.

End NodesBootstrap.
