(* ===== verification/Dashboard.v ===== *)
(** * The dashboard

    [src/frontend/src/app/features/dashboard]: the peers of the node and how
    many requests each of them answered ([dashboard.service.ts]), the store
    ([dashboard.reducer.ts]) and the effects ([dashboard.effects.ts]). The two
    components that compute from the store are [DashboardLedger] and
    [DashboardBlocks]. *)

From stdpp Require Import base list strings.
From S2P Require Import Prelude SharedLib GuardedLoad NodesOverview.
Open Scope Z_scope.

Module Dashboard.
Import NodesOverview GuardedLoad.

(** ** What the store holds *)

Inductive PeerStatus := CONNECTED | CONNECTING | DISCONNECTED.

#[export] Instance PeerStatus_eq_dec : EqDecision PeerStatus.
Proof. solve_decision. Defined.

Record Peer := mkPeer {
  peerId : string;
  p_status : PeerStatus;
  datetime : string;
  timestamp : Z;
  address : option string;
  p_bestTip : option string;
  p_globalSlot : option Z;
  bestTipTimestamp : option Z;
  bestTipDatetime : string;
  p_height : option Z;
  requests : Z
}.

Record PeersStats := mkPeersStats { connected : nat; connecting : nat; disconnected : nat }.

Record PeerRpcResponses := mkPeerRpc { rpc_peerId : string; requestsMade : Z }.

(** How much of a ledger has been fetched: both are counts. *)
Record LedgerStepStats := mkStepStats { s_fetched : option nat; s_estimation : option nat }.

Record RpcStats := mkRpcStats {
  peerResponses : list PeerRpcResponses;
  stakingLedger : option LedgerStepStats;
  nextLedger : option LedgerStepStats;
  snarkedRootLedger : option LedgerStepStats;
  stagedRootLedger : option LedgerStepStats
}.

(** ** What the node sends *)

Record PeersResponse := mkPeersResponse {
  peer_id : string;
  best_tip : option string;
  time : Z;
  best_tip_height : option Z;
  best_tip_global_slot : option Z;
  best_tip_timestamp : option Z;
  connection_status : PeerStatus;
  r_address : option string
}.

(** The keys of the object [messages_stats] differ; its values are the counts
    by the name of the request. *)
Definition MessagesStats := list (string * list (string * Z)).

(** The root ledger has the counts of the snarked one and, when they are known,
    those of the staged one. *)
Record MessageProgress := mkProgress {
  messages_stats : MessagesStats;
  staking_ledger_sync : option LedgerStepStats;
  next_epoch_ledger_sync : option LedgerStepStats;
  root_ledger_sync : option (LedgerStepStats * option LedgerStepStats)
}.

(** ** Service *)

Section Service.
(** [readable] is [toReadableDate] of a time in nanoseconds. *)
Context `{HasValue} (readable : Z -> string) (clock : Z).

Definition mapPeer (p : PeersResponse) : Peer :=
  {| peerId := peer_id p;
     p_bestTip := best_tip p;
     p_globalSlot := best_tip_global_slot p;
     bestTipDatetime := match best_tip_timestamp p with
                        | Some t => if truthyZ t then readable t else "-"
                        | None => "-"
                        end;
     bestTipTimestamp := best_tip_timestamp p;
     datetime := readable (time p);
     timestamp := time p;
     p_height := best_tip_height p;
     p_status := connection_status p;
     address := r_address p;
     requests := 0 |}.

Definition getPeers (response : list PeersResponse) : list Peer := mapPeer <$> response.

Definition getTips (nodeName : string) (o : outcome (list SyncTip)) : list Node :=
  match o with
  | Failed _ => mapNodeTipsErrorResponse clock nodeName
  | Next tips =>
    match mapNodeTipsResponse readable clock tips None nodeName with
    | Ok nodes => nodes
    | Throw _ => mapNodeTipsErrorResponse clock nodeName
    end
  end.
End Service.

Definition mapMessageProgressResponse (p : MessageProgress) : RpcStats :=
  {| peerResponses := (fun e => mkPeerRpc e.1 (sumZ (snd <$> e.2))) <$> messages_stats p;
     stakingLedger := staking_ledger_sync p;
     nextLedger := next_epoch_ledger_sync p;
     snarkedRootLedger := fst <$> root_ledger_sync p;
     stagedRootLedger :=
       let staged := match root_ledger_sync p with Some (_, st) => st | None => None end in
       Some (mkStepStats (match staged with Some st => s_fetched st | None => None end)
                         (match staged with Some st => s_estimation st | None => None end)) |}.

(** ** Store *)

(** The counters after [rpcStats] are never written. *)
Record State := mkState {
  peers : list Peer;
  peersStats : PeersStats;
  peersSort : TableSort;
  nodes : list Node;
  rpcStats : RpcStats;
  nodeBootstrappingPercentage : Z;
  appliedBlocks : Z;
  maxBlockHeightSeen : Z;
  berkeleyBlockHeight : Z;
  receivedBlocks : Z;
  receivedTxs : Z;
  receivedSnarks : Z
}.

Inductive Action :=
| Init
| GetData (force : bool)
| GetDataSuccess (p : list Peer) (ledger : list Node) (r : RpcStats)
| GetPeers
| GetPeersSuccess (payload : list Peer)
| PeersSort (payload : TableSort)
| Close.

Definition no_rpc_stats : RpcStats := mkRpcStats [] None None None None.

Definition initialState : State :=
  mkState [] (mkPeersStats 0 0 0) (mkTableSort "height" DSC) [] no_rpc_stats 0 0 0 0 0 0 0.

Definition count_peers (st : PeerStatus) (l : list Peer) : nat :=
  count_if (fun p => bool_decide (p_status p = st)) l.

(** [find(..)?.requestsMade || 0] *)
Definition requests_of (rs : list PeerRpcResponses) (i : string) : Z :=
  match List.find (fun r => bool_decide (rpc_peerId r = i)) rs with
  | Some r => requestsMade r
  | None => 0
  end.

Definition with_requests (rs : list PeerRpcResponses) (p : Peer) : Peer :=
  {| peerId := peerId p; p_bestTip := p_bestTip p; p_globalSlot := p_globalSlot p;
     bestTipDatetime := bestTipDatetime p; bestTipTimestamp := bestTipTimestamp p;
     datetime := datetime p; timestamp := timestamp p; p_height := p_height p;
     p_status := p_status p; address := address p; requests := requests_of rs (peerId p) |}.

Section Reducer.
Context `{TableSorter Peer}.

Definition sortPeers (l : list Peer) (ts : TableSort) : list Peer :=
  sort l ts ["peerId"; "status"; "bestTip"; "address"] false.

Definition set_peers (s : State) (l : list Peer) (stats : PeersStats) (ts : TableSort)
    (ns : list Node) (r : RpcStats) : State :=
  mkState l stats ts ns r (nodeBootstrappingPercentage s) (appliedBlocks s) (maxBlockHeightSeen s)
    (berkeleyBlockHeight s) (receivedBlocks s) (receivedTxs s) (receivedSnarks s).

Definition dashboardReducer (s : State) (a : Action) : State :=
  match a with
  | GetData force =>
    if force
    then set_peers initialState [] (mkPeersStats 0 0 0) (peersSort s) [] no_rpc_stats
    else s
  | PeersSort payload =>
    set_peers s (sortPeers (peers s) payload) (peersStats s) payload (nodes s) (rpcStats s)
  | GetDataSuccess p ledger r =>
    let l := sortPeers (with_requests (peerResponses r) <$> p) (peersSort s) in
    set_peers s l (mkPeersStats (count_peers CONNECTED l) (count_peers CONNECTING l)
                     (count_peers DISCONNECTED l)) (peersSort s) ledger r
  | Close => initialState
  | Init | GetPeers | GetPeersSuccess _ => s
  end.
End Reducer.

(** ** Effects *)

(** [init$] *)
Definition init_effect (a : Action) : list Action :=
  match a with Init => [GetData false] | _ => [] end.

Definition policy : Policy :=
  {| close_passes := false; close_clears := false; error_clears := true |}.

(** What the requests for the peers, the tips and the progress send; the one for
    the tips handles its own error. *)
Record Answer := mkAnswer {
  a_peers : list PeersResponse;
  a_tips : outcome (list SyncTip);
  a_progress : MessageProgress
}.

Section Effect.
Context `{HasValue} (readable : Z -> string) (clock : Z) (nodeName : string).

Definition success (a : Answer) : Action :=
  GetDataSuccess (getPeers readable (a_peers a)) (getTips readable clock nodeName (a_tips a))
    (mapMessageProgressResponse (a_progress a)).

(** [getData$] *)
Definition getData_effect (now : string) (e : EffectState) (ev : Event Answer)
    : EffectState * list (Output Action) :=
  guarded_load policy GENERIC (GetDataSuccess [] [] no_rpc_stats) success now e ev.
End Effect.

(** ** Properties *)

Section Store.
Context `{TableSorter Peer}.

Inductive reachable : State -> Prop :=
| reach_init : reachable initialState
| reach_step s a : reachable s -> reachable (dashboardReducer s a).

Lemma count_peers_sort st l ts : count_peers st (sortPeers l ts) = count_peers st l.
Proof. apply count_if_perm, sort_perm. Qed.

Lemma count_peers_total l :
  (count_peers CONNECTED l + count_peers CONNECTING l + count_peers DISCONNECTED l)%nat = length l.
Proof.
  unfold count_peers. induction l as [|p l IH]; [done|]. rewrite !count_if_cons. cbn [length].
  destruct (p_status p); repeat case_bool_decide; try done; lia.
Qed.

(** In every reachable state the three counters are those of the peers
    shown, and together they count every peer once. *)
Theorem peer_stats_exact s :
  reachable s ->
  peersStats s = mkPeersStats (count_peers CONNECTED (peers s)) (count_peers CONNECTING (peers s))
                   (count_peers DISCONNECTED (peers s)) /\
  (connected (peersStats s) + connecting (peersStats s) + disconnected (peersStats s))%nat
    = length (peers s).
Proof.
  intros Hr. enough (Hs : peersStats s = mkPeersStats (count_peers CONNECTED (peers s))
    (count_peers CONNECTING (peers s)) (count_peers DISCONNECTED (peers s))).
  { split; [done|]. rewrite Hs. apply count_peers_total. }
  induction Hr as [|s a _ IH]; [done|].
  destruct a as [|[]| | | |ts|]; try done.
  cbn [dashboardReducer set_peers peers peersStats]. by rewrite !count_peers_sort.
Qed.

(** All counts the progress has for a peer. *)
Definition total_requests (stats : MessagesStats) (i : string) : Z :=
  sumZ (snd <$> concat (snd <$> List.filter (fun e => bool_decide (e.1 = i)) stats)).

Lemma requests_of_stats (stats : MessagesStats) i :
  NoDup (stats.*1) ->
  requests_of ((fun e => mkPeerRpc e.1 (sumZ (snd <$> e.2))) <$> stats) i = total_requests stats i.
Proof.
  unfold requests_of, total_requests. induction stats as [|[j rs] stats IH]; [done|]. cbn.
  intros [Hj Hd]%NoDup_cons. case_bool_decide as Hi; cbn.
  - rewrite lfilter_none; [cbn; by rewrite app_nil_r|]. intros [k ks] Hk. cbn.
    apply bool_decide_eq_false. intros ->. apply Hj. subst. by apply (list_elem_of_fmap_2 fst) in Hk.
  - by apply IH.
Qed.

(** After an answer the table has one row per peer of it, whose number of
    requests is the sum of all counts the progress has under the peer's id. *)
Theorem peer_requests_joined `{HasValue} readable clock nodeName s a :
  NoDup ((messages_stats (a_progress a)).*1) ->
  (fun p => (peerId p, p_status p, requests p))
    <$> peers (dashboardReducer s (success readable clock nodeName a)) ≡ₚ
  (fun p => (peer_id p, connection_status p, total_requests (messages_stats (a_progress a)) (peer_id p)))
    <$> a_peers a.
Proof.
  intros Hd. cbn [dashboardReducer set_peers peers success]. unfold sortPeers. rewrite sort_perm.
  unfold getPeers. rewrite <- !list_fmap_compose.
  match goal with |- ?l ≡ₚ ?r => enough (l = r) as -> by done end. apply list_fmap_ext.
  intros i p _. cbn. by rewrite requests_of_stats.
Qed.
End Store.

(** ** Witnesses *)

Definition peer_answer : Answer :=
  mkAnswer [mkPeersResponse "a" None 5 None None None CONNECTED None;
            mkPeersResponse "b" None 6 None None (Some 3) CONNECTING None]
    (Next []) (mkProgress [("b", [("ledger", 2); ("tip", 3)]); ("c", [])] None None None).

Lemma peer_stats_exact_witness :
  peersStats (@dashboardReducer (unsorted Peer) initialState
    (@success has_value (fun _ => "") 0 "n" peer_answer)) = mkPeersStats 1 1 0.
Proof.
  exact (proj1 (@peer_stats_exact (unsorted Peer) _
    (reach_step _ _ (@reach_init (unsorted Peer))))).
Defined.

Lemma peer_requests_joined_witness :
  [("a", CONNECTED, 0); ("b", CONNECTING, 5)] ≡ₚ [("a", CONNECTED, 0); ("b", CONNECTING, 5)].
Proof.
  refine (@peer_requests_joined (unsorted Peer) has_value (fun _ => "") 0 "n" initialState peer_answer _).
  by apply (bool_decide_eq_true _).
Defined.

End Dashboard.
