(* ===== verification/DashboardLedger.v ===== *)
(** * The progress of the ledger synchronisation

    [src/frontend/src/app/features/dashboard/dashboard-ledger]: what the
    component computes from the first node and the progress of the requests
    whenever the store changes. Times of the node are nanoseconds, [now] is the
    clock in milliseconds; percentages are rational numbers or infinite, where
    the code divides by zero. *)

From Stdlib Require Import QArith Lqa.
From stdpp Require Import base list strings.
From S2P Require Import Prelude SharedLib NodesOverview Dashboard.
Open Scope Z_scope.

Module DashboardLedger.
Import NodesOverview Dashboard.

(** ** Data *)

Inductive Percent := Finite (q : Q) | Infinite.

Inductive Timer := NoTimer | Running | Cleared.

#[export] Instance Timer_eq_dec : EqDecision Timer.
Proof. solve_decision. Defined.

(** The options of the pipe that formats durations. *)
Record SecDurationConfig := mkSecDurationConfig {
  includeMinutes : bool; onlySeconds : bool; color : bool; undefinedAlternative : option string
}.

Record LedgerConfigMap := mkConfigMap {
  c_stakingEpoch : SecDurationConfig;
  c_nextEpoch : SecDurationConfig;
  c_rootSnarked : SecDurationConfig;
  c_rootStaged : SecDurationConfig
}.

Record Component := mkComponent {
  c_ledgers : Ledgers;
  progress : option string;
  configMap : LedgerConfigMap;
  stakingProgress : Percent;
  nextProgress : Percent;
  rootSnarkedProgress : Percent;
  rootStagedProgress : Percent;
  totalProgress : option Percent;
  isWebNode : bool;
  fetchedParts : option nat * option nat;
  (* [None] is [undefined] or not a number *)
  remainingStakingLedger : option Z;
  previousStakingLedgerDownloaded : option nat;
  remainingNextLedger : option Z;
  previousNextLedgerDownloaded : option nat;
  remainingRootSnarkedLedger : option Z;
  previousRootSnarkedLedgerDownloaded : option nat;
  remainingRootStagedLedgerFetchParts : option Z;
  previousRootStagedLedgerDownloaded : option nat;
  remainingReconstruct : Z;
  reconstructTimer : Timer
}.

Definition initialSnarked : EpochStep :=
  mkEpochStep PENDING (mkSnarkedStep (Some 0) (Some 0) None None (Some 0) (Some 0) None None) None.

Definition initialStaged : RootStagedStep :=
  mkRootStaged PENDING (mkStagedStep (Some 0) (Some 0) None None (Some 0) (Some 0) None None) None.

Definition initialLedgers : Ledgers :=
  mkLedgers initialSnarked initialSnarked initialSnarked initialStaged.

Definition emptyConfig : SecDurationConfig := mkSecDurationConfig true false false None.

Definition undefinedConfig : SecDurationConfig := mkSecDurationConfig true false false (Some "-").

Definition emptyConfigMap : LedgerConfigMap := mkConfigMap emptyConfig emptyConfig emptyConfig emptyConfig.

Definition initialComponent (webNode : bool) : Component :=
  {| c_ledgers := initialLedgers; progress := None; configMap := emptyConfigMap;
     stakingProgress := Finite 0; nextProgress := Finite 0; rootSnarkedProgress := Finite 0;
     rootStagedProgress := Finite 0; totalProgress := None; isWebNode := webNode;
     fetchedParts := (Some 0%nat, Some 0%nat);
     remainingStakingLedger := None; previousStakingLedgerDownloaded := None;
     remainingNextLedger := None; previousNextLedgerDownloaded := None;
     remainingRootSnarkedLedger := None; previousRootSnarkedLedgerDownloaded := None;
     remainingRootStagedLedgerFetchParts := None; previousRootStagedLedgerDownloaded := None;
     remainingReconstruct := 20; reconstructTimer := NoTimer |}.

(** ** Operations *)

Definition getConfig (st : StepState) : SecDurationConfig :=
  if bool_decide (st = LOADING) then undefinedConfig else emptyConfig.

(** [calculateProgressTime(timestamp, action)] *)
Definition calculateProgressTime (now timestamp : Z) (action : string) : string :=
  let millisecondsAgo := now - ceil_div timestamp 1000000 in
  let minutesAgo := floor_div millisecondsAgo 60000 in
  let hoursAgo := floor_div minutesAgo 60 in
  let daysAgo := floor_div hoursAgo 24 in
  if 0 <? daysAgo then action +:+ " " +:+ show daysAgo +:+ "d ago"
  else if 0 <? hoursAgo then action +:+ " " +:+ show hoursAgo +:+ "h ago"
  else if 0 <? minutesAgo then action +:+ " " +:+ show minutesAgo +:+ "m ago"
  else action +:+ " <1m ago".

(** [setProgressTime()]: the progress shown afterwards. *)
Definition setProgressTime (now : Z) (l : Ledgers) (before : option string) : option string :=
  let start := fetchHashesStart (snarked (stakingEpoch l)) in
  if negb (truthy_onum start) then before
  else if bool_decide (st_state (rootStaged l) = SUCCESS)
       then Some (calculateProgressTime now (default 0 (reconstructEnd (staged (rootStaged l)))) "finished")
       else Some (calculateProgressTime now (default 0 start) "started").

(** [stats?.fetched] *)
Definition downloaded (stats : option LedgerStepStats) : option nat :=
  match stats with Some s => s_fetched s | None => None end.

Definition estimated (stats : option LedgerStepStats) : option nat :=
  match stats with Some s => s_estimation s | None => None end.

Definition truthy_count (n : option nat) : bool :=
  match n with Some (S _) => true | _ => false end.

(** The seconds a download still takes at its mean speed so far: computed only
    when this and the previous answer have downloaded something; a start that
    is [null] is the time zero. *)
Definition remaining_time (now : Z) (start : option Z) (previous : option nat)
    (stats : option LedgerStepStats) (before : option Z) : option Z :=
  let current := downloaded stats in
  if truthy_count previous && truthy_count current && (default 0 start <? now * 1000000)
  then match current, estimated stats with
       | Some c, Some est =>
         Some (floor_div ((Z.of_nat est - Z.of_nat c) * (now * 1000000 - default 0 start))
                         (Z.of_nat c * 1000000000))
       | _, _ => None
       end
  else before.

(** [fetched / estimation * 100 || 0] *)
Definition percentage (stats : option LedgerStepStats) : Percent :=
  match downloaded stats, estimated stats with
  | Some (S f), Some 0%nat => Infinite
  | Some f, Some (S e) => Finite (inject_Z (Z.of_nat f) / inject_Z (Z.of_nat (S e)) * 100)
  | _, _ => Finite 0
  end.

Definition done_or (st : StepState) (p : Percent) : Percent :=
  if bool_decide (st = SUCCESS) then Finite 100 else p.

(** Fifty for each of the two parts of the staged ledger. *)
Definition staged_percentage (st : StagedStep) : Z :=
  (if truthy_onum (fetchPartsEnd st) then 50 else 0) +
  (if truthy_onum (reconstructEnd st) then 50 else 0).

Definition add_percent (a b : Percent) : Percent :=
  match a, b with Finite x, Finite y => Finite (x + y) | _, _ => Infinite end.

Definition total (a b c d : Percent) : Percent :=
  match add_percent (add_percent (add_percent a b) c) d with
  | Finite q => Finite (q / 4)
  | Infinite => Infinite
  end.

Definition next_timer (webNode : bool) (st : StagedStep) (t : Timer) : Timer :=
  let staged := staged_percentage st in
  if (staged <? 100) && webNode && truthy_onum (fetchPartsEnd st) && bool_decide (t = NoTimer)
  then Running
  else if (staged =? 100) && bool_decide (t = Running) then Cleared else t.

(** What [listenToNodesChanges] does with the nodes and the progress. *)
Definition on_nodes (now : Z) (c : Component) (nodes : list Node) (rpc : RpcStats) : result Component :=
  match nodes with
  | [] =>
    Ok {| c_ledgers := initialLedgers; progress := None; configMap := emptyConfigMap;
          stakingProgress := Finite 0; nextProgress := Finite 0; rootSnarkedProgress := Finite 0;
          rootStagedProgress := Finite 0; totalProgress := Some (Finite 0); isWebNode := isWebNode c;
          fetchedParts := (Some 0%nat, Some 0%nat);
          remainingStakingLedger := remainingStakingLedger c;
          previousStakingLedgerDownloaded := previousStakingLedgerDownloaded c;
          remainingNextLedger := remainingNextLedger c;
          previousNextLedgerDownloaded := previousNextLedgerDownloaded c;
          remainingRootSnarkedLedger := remainingRootSnarkedLedger c;
          previousRootSnarkedLedgerDownloaded := previousRootSnarkedLedgerDownloaded c;
          remainingRootStagedLedgerFetchParts := remainingRootStagedLedgerFetchParts c;
          previousRootStagedLedgerDownloaded := previousRootStagedLedgerDownloaded c;
          remainingReconstruct := remainingReconstruct c; reconstructTimer := reconstructTimer c |}
  | n :: _ =>
    match ledgers n with
    | None => Throw "Cannot read properties of undefined (reading 'stakingEpoch')"
    | Some l =>
      let staged := staged (rootStaged l) in
      let staking := done_or (state (stakingEpoch l)) (percentage (stakingLedger rpc)) in
      let next := done_or (state (nextEpoch l)) (percentage (nextLedger rpc)) in
      let snarkedRoot := done_or (state (rootSnarked l)) (percentage (snarkedRootLedger rpc)) in
      let stagedRoot := done_or (st_state (rootStaged l)) (Finite (inject_Z (staged_percentage staged))) in
      Ok {| c_ledgers := l;
            progress := setProgressTime now l (progress c);
            configMap := mkConfigMap (getConfig (state (stakingEpoch l))) (getConfig (state (nextEpoch l)))
                           (getConfig (state (rootSnarked l))) (getConfig (st_state (rootStaged l)));
            stakingProgress := staking; nextProgress := next; rootSnarkedProgress := snarkedRoot;
            rootStagedProgress := stagedRoot;
            totalProgress := Some (total staking next snarkedRoot stagedRoot);
            isWebNode := isWebNode c;
            fetchedParts := if truthy_count (estimated (stagedRootLedger rpc))
                            then (downloaded (stagedRootLedger rpc), estimated (stagedRootLedger rpc))
                            else fetchedParts c;
            remainingStakingLedger :=
              remaining_time now (fetchHashesStart (snarked (stakingEpoch l)))
                (previousStakingLedgerDownloaded c) (stakingLedger rpc) (remainingStakingLedger c);
            previousStakingLedgerDownloaded := downloaded (stakingLedger rpc);
            remainingNextLedger :=
              remaining_time now (fetchHashesStart (snarked (nextEpoch l)))
                (previousNextLedgerDownloaded c) (nextLedger rpc) (remainingNextLedger c);
            previousNextLedgerDownloaded := downloaded (nextLedger rpc);
            remainingRootSnarkedLedger :=
              remaining_time now (fetchHashesStart (snarked (rootSnarked l)))
                (previousRootSnarkedLedgerDownloaded c) (snarkedRootLedger rpc) (remainingRootSnarkedLedger c);
            previousRootSnarkedLedgerDownloaded := downloaded (snarkedRootLedger rpc);
            remainingRootStagedLedgerFetchParts :=
              if isWebNode c
              then remaining_time now (fetchPartsStart staged) (previousRootStagedLedgerDownloaded c)
                     (stagedRootLedger rpc) (remainingRootStagedLedgerFetchParts c)
              else remainingRootStagedLedgerFetchParts c;
            previousRootStagedLedgerDownloaded :=
              if isWebNode c then downloaded (stagedRootLedger rpc)
              else previousRootStagedLedgerDownloaded c;
            remainingReconstruct := remainingReconstruct c;
            reconstructTimer := next_timer (isWebNode c) staged (reconstructTimer c) |}
    end
  end.

(** The callback of [startTimerForReconstruct]: [coin] is
    [Math.floor(Math.random() * 2)]. It returns what is left and whether the
    timer goes on. *)
Definition reconstruct_tick (remaining : Z) (coin : bool) : Z * bool :=
  let r := remaining - 1 in
  (r, negb (r =? (if coin then 1 else 0) + 2)).

(** ** Properties *)

(** No more was fetched than there is. *)
Definition bounded (stats : option LedgerStepStats) : Prop :=
  forall f e, downloaded stats = Some f -> estimated stats = Some e -> (f <= e)%nat.

Definition bounded_stats (rpc : RpcStats) : Prop :=
  bounded (stakingLedger rpc) /\ bounded (nextLedger rpc) /\
  bounded (snarkedRootLedger rpc) /\ bounded (stagedRootLedger rpc).

Definition in_range (p : Percent) : Prop := exists q, p = Finite q /\ (0 <= q <= 100)%Q.

Definition not_negative (o : option Z) : Prop := forall z, o = Some z -> 0 <= z.

(** The component shows percentages and no negative time. *)
Definition component_ok (c : Component) : Prop :=
  (in_range (stakingProgress c) /\ in_range (nextProgress c) /\
   in_range (rootSnarkedProgress c) /\ in_range (rootStagedProgress c) /\
   (forall p, totalProgress c = Some p -> in_range p)) /\
  not_negative (remainingStakingLedger c) /\ not_negative (remainingNextLedger c) /\
  not_negative (remainingRootSnarkedLedger c) /\ not_negative (remainingRootStagedLedgerFetchParts c).

Lemma in_range_const q : (0 <= q <= 100)%Q -> in_range (Finite q).
Proof. intros H. by exists q. Qed.

Lemma percentage_range stats : bounded stats -> in_range (percentage stats).
Proof.
  unfold bounded, percentage. intros Hb.
  destruct (downloaded stats) as [f|], (estimated stats) as [e|];
    try (apply in_range_const; by vm_compute).
  2: { destruct f; apply in_range_const; by vm_compute. }
  specialize (Hb f e eq_refl eq_refl).
  destruct e as [|e]; [replace f with 0%nat by lia; apply in_range_const; by vm_compute|].
  replace (match f with 0%nat | _ => Finite (inject_Z (Z.of_nat f) / inject_Z (Z.of_nat (S e)) * 100) end)
    with (Finite (inject_Z (Z.of_nat f) / inject_Z (Z.of_nat (S e)) * 100)) by (by destruct f).
  apply in_range_const.
  assert (Hpos : (0 < inject_Z (Z.of_nat (S e)))%Q) by (rewrite <- (Zlt_Qlt 0); lia).
  assert (H0 : (0 <= inject_Z (Z.of_nat f) / inject_Z (Z.of_nat (S e)))%Q).
  { apply Qle_shift_div_l; [done|]. rewrite Qmult_0_l, <- (Zle_Qle 0). lia. }
  assert (H1 : (inject_Z (Z.of_nat f) / inject_Z (Z.of_nat (S e)) <= 1)%Q).
  { apply Qle_shift_div_r; [done|]. rewrite Qmult_1_l, <- Zle_Qle. lia. }
  generalize dependent (inject_Z (Z.of_nat f) / inject_Z (Z.of_nat (S e)))%Q.
  intros q H0 H1. split; lra.
Qed.

Lemma done_or_range st p : in_range p -> in_range (done_or st p).
Proof. unfold done_or. case_bool_decide; [|done]. intros _. apply in_range_const. by vm_compute. Qed.

Lemma staged_percentage_range st : in_range (Finite (inject_Z (staged_percentage st))).
Proof.
  apply in_range_const. unfold staged_percentage.
  destruct (truthy_onum (fetchPartsEnd st)), (truthy_onum (reconstructEnd st)); by vm_compute.
Qed.

Lemma total_range a b c d :
  in_range a -> in_range b -> in_range c -> in_range d -> in_range (total a b c d).
Proof.
  intros (qa & -> & Ha) (qb & -> & Hb) (qc & -> & Hc) (qd & -> & Hd).
  apply in_range_const. cbv [total add_percent].
  split; [apply Qle_shift_div_l|apply Qle_shift_div_r]; try done; lra.
Qed.

Lemma remaining_time_range now start previous stats before :
  bounded stats -> not_negative before ->
  not_negative (remaining_time now start previous stats before).
Proof.
  unfold remaining_time, bounded. intros Hb Hbefore.
  destruct (truthy_count previous && truthy_count (downloaded stats)) eqn:Ht; [|done].
  destruct (Z.ltb_spec (default 0 start) (now * 1000000)) as [Hlt|]; [|done]. cbn.
  destruct (downloaded stats) as [[|f]|]; [by rewrite andb_false_r in Ht| |done].
  destruct (estimated stats) as [e|]; [|done]. specialize (Hb _ _ eq_refl eq_refl).
  intros z [= <-]. unfold floor_div. apply Z.div_pos; [|lia]. apply Z.mul_nonneg_nonneg; lia.
Qed.

#[local] Hint Resolve percentage_range done_or_range staged_percentage_range total_range
  remaining_time_range : core.

(** As long as the node does not report more as fetched than it estimates,
    the component shows percentages between 0 and 100, the total included, and
    never a negative remaining time. *)
Theorem ledger_progress_bounded now c ns rpc c' :
  bounded_stats rpc -> component_ok c -> on_nodes now c ns rpc = Ok c' ->
  component_ok (initialComponent (isWebNode c)) /\ component_ok c'.
Proof.
  intros (Hst & Hne & Hsn & Hsd) (Hp & H1 & H2 & H3 & H4) Hc.
  assert (H0 : in_range (Finite 0)) by (apply in_range_const; by vm_compute).
  split; [by repeat split|].
  destruct ns as [|n ns]; cbn in Hc.
  - injection Hc as <-. repeat split; cbn; try done. by intros p [= <-].
  - destruct (ledgers n) as [l|]; [|done]. injection Hc as <-.
    split; cbn; [repeat split; auto; intros p [= <-]; auto 6|].
    destruct (isWebNode c); repeat split; auto.
Qed.

Lemma total_full a b c d :
  in_range a -> in_range b -> in_range c -> in_range (Finite d) ->
  exists q, total a b c (Finite d) = Finite q /\
    ((q == 100)%Q -> (d == 100)%Q) /\
    (a = Finite 100 -> b = Finite 100 -> c = Finite 100 -> (d == 100)%Q -> (q == 100)%Q).
Proof.
  intros (qa & -> & Ha) (qb & -> & Hb) (qc & -> & Hc) (qd & [= ->] & Hd).
  eexists. split; [done|]. split.
  - intros Hq. assert (Hs : (qa + qb + qc + qd == 400)%Q).
    { rewrite <- (Qmult_div_r (qa + qb + qc + qd) 4) by done. rewrite Hq. by vm_compute. }
    lra.
  - intros [= ->] [= ->] [= ->] ->. by vm_compute.
Qed.

(** For a node whose ledgers come from its own report, the total progress
    is a number, and it is 100 exactly when the staged ledger, the last step,
    is done. *)
Theorem ledger_progress_complete now clock c n ns rpc r :
  bounded_stats rpc -> reconstruct_begun r -> ledgers n = Some (getLedgers clock r) ->
  exists c' q, on_nodes now c (n :: ns) rpc = Ok c' /\ totalProgress c' = Some (Finite q) /\
    ((q == 100)%Q <-> st_state (rootStaged (getLedgers clock r)) = SUCCESS).
Proof.
  intros (Hst & Hne & Hsn & _) Hr Hl. cbn [on_nodes]. rewrite Hl.
  pose proof (ledgers_all_done clock r Hr) as Hall.
  pose proof (reconstruct_end_done clock r) as Hend.
  set (l := getLedgers clock r) in *.
  destruct (done_or_range (st_state (rootStaged l)) _ (staged_percentage_range (staged (rootStaged l))))
    as (d & Hd & Hrange).
  destruct (total_full (done_or (state (stakingEpoch l)) (percentage (stakingLedger rpc)))
    (done_or (state (nextEpoch l)) (percentage (nextLedger rpc)))
    (done_or (state (rootSnarked l)) (percentage (snarkedRootLedger rpc))) d)
    as (q & Hq & Hto & Hfrom); [by auto|by auto|by auto|by exists d|].
  eexists _, q. split; [done|]. cbn [totalProgress]. rewrite Hd, Hq. split; [done|]. split.
  - intros H100. specialize (Hto H100). destruct (st_state (rootStaged l)) eqn:Hs; [| |done];
      cbn in Hd; injection Hd as <-; apply Hend; clear -Hto; unfold staged_percentage in Hto;
      destruct (truthy_onum (reconstructEnd _)); [done| |done|];
      destruct (truthy_onum (fetchPartsEnd _)); by vm_compute in Hto.
  - intros Hs. destruct (Hall Hs) as (Ha & Hb & Hc). rewrite Hs in Hd. cbn in Hd. injection Hd as <-.
    apply Hfrom; [by rewrite Ha|by rewrite Hb|by rewrite Hc|done].
Qed.

(** The countdown of the reconstruction: it stops at two or three, but only when
    the coin of that second agrees. *)
Fixpoint ticks (remaining : Z) (coins : list bool) : Z * bool :=
  match coins with
  | [] => (remaining, true)
  | coin :: coins' =>
    let '(r, goes_on) := reconstruct_tick remaining coin in
    if goes_on then ticks r coins' else (r, false)
  end.

(** It can run on for ever, into negative numbers. *)
Lemma countdown_runs_away n : exists coins, ticks 20 coins = (20 - Z.of_nat n, true).
Proof.
  enough (H : forall m r, exists coins, ticks r coins = (r - Z.of_nat m, true)) by apply H.
  induction m as [|m IH]; intros r; [exists []; cbn; f_equal; lia|].
  destruct (IH (r - 1)) as [coins Hc]. exists ((r - 1 =? 2) :: coins). cbn.
  replace (r - 1 =? (if r - 1 =? 2 then 1 else 0) + 2) with false
    by (symmetry; destruct (Z.eqb_spec (r - 1) 2); apply Z.eqb_neq; lia).
  cbn. rewrite Hc. f_equal. lia.
Qed.

(** ** Witnesses *)

Definition half_done : RpcStats :=
  mkRpcStats [] (Some (mkStepStats (Some 3%nat) (Some 4%nat))) None None None.

Definition done_ledgers : RawLedgers :=
  mkRawLedgers (Some (mkRawSnarked (Some 1) (Some 2) (Some 2) (Some 3),
                      mkRawStaged (Some 4) (Some 5) (Some 5) (Some 6))) None None.

Definition done_node : Node :=
  mkNode "n" (Some SYNCED) None None None None None None None None None None None None
    (Some (getLedgers 0 done_ledgers)) [].

Lemma half_done_bounded : bounded_stats half_done.
Proof. repeat split; intros f e; cbn; try done. intros [= <-] [= <-]. lia. Qed.

Lemma ledger_progress_bounded_witness :
  match on_nodes 0 (initialComponent true) [done_node] half_done with
  | Ok c' => component_ok c'
  | Throw _ => False
  end.
Proof.
  refine (proj2 (ledger_progress_bounded 0 (initialComponent true) [done_node] half_done _
    half_done_bounded _ eq_refl)).
  repeat split; try done; apply in_range_const; by vm_compute.
Defined.

Lemma ledger_progress_complete_witness :
  exists c' q, on_nodes 0 (initialComponent true) [done_node] half_done = Ok c' /\
    totalProgress c' = Some (Finite q) /\ (q == 100)%Q.
Proof.
  destruct (ledger_progress_complete 0 0 (initialComponent true) done_node [] half_done done_ledgers
    half_done_bounded) as (c' & q & Hc & Hq & H).
  - by intros sn st [= <- <-].
  - reflexivity.
  - exists c', q. split; [exact Hc|]. split; [exact Hq|]. apply H. reflexivity.
Defined.

End DashboardLedger.
