(* ===== verification/DashboardBlocks.v ===== *)
(** * The progress of the block synchronisation

    [src/frontend/src/app/features/dashboard/dashboard-blocks-sync]: what the
    component computes from the blocks of the first node and the heights of the
    peers whenever the store changes. Times of the node are nanoseconds, [now]
    is the clock in milliseconds. *)

From stdpp Require Import base list strings.
From S2P Require Import Prelude SharedLib NodesOverview Dashboard DashboardLedger.
Open Scope Z_scope.

Module DashboardBlocks.
Import NodesOverview Dashboard.

Definition PENDING_ : string := "Pending".
Definition SYNCED_ : string := "Synced".

Record Component := mkComponent {
  c_fetched : option nat;
  fetchedPercentage : string;
  c_applied : option nat;
  appliedPercentage : option Z;
  c_root : option Z;
  rootText : string;
  bestTipBlock : option Z;
  bestTipBlockSyncedText : string;
  targetBlock : option Z;
  syncProgress : option string;
  remaining : option Z;
  lengthWithoutRoot : option nat
}.

Definition initialComponent : Component :=
  mkComponent None "-" None None None PENDING_ None PENDING_ None None None None.

(** [calculateProgressTime(timestamp)] *)
Definition calculateProgressTime (now : Z) (timestamp : option Z) : string :=
  match timestamp with
  | Some t => if truthyZ t then DashboardLedger.calculateProgressTime now t SYNCED_ else "Pending"
  | None => "Pending"
  end.

(** The first of the times that are set. *)
Definition sync_start (bs : list Block) : option Z :=
  match List.filter truthyZ (omap fetchStart bs) with
  | [] => None
  | t :: ts => Some (fold_left Z.min ts t)
  end.

(** The seconds until all 291 blocks are fetched and applied: a fetched block
    has the weight 1 and an applied one the weight 5. Without a start the speed
    is a negative zero and nothing is computed. *)
Definition remaining_time (now : Z) (bs : list Block) (before : option Z) : option Z :=
  let blocksFetched := Z.of_nat (count_if (fun b => truthy_onum (fetchEnd b)) bs) in
  let blocksApplied := Z.of_nat (count_if (fun b => truthy_onum (applyEnd b)) bs) in
  if blocksApplied <? 291 then
    let weightedBlocksTotal := blocksFetched + blocksApplied * 5 in
    let weightedBlocksRemaining := 291 + 291 * 5 - weightedBlocksTotal in
    match sync_start bs with
    | Some syncStart =>
      let passed := now * 1000000 - syncStart in
      if (0 <? weightedBlocksTotal) && (0 <=? passed)
      then Some (ceil_div (weightedBlocksRemaining * passed) (weightedBlocksTotal * 1000000000))
      else before
    | None => before
    end
  else None.

(** The height of a peer that has none is not above that of another. *)
Definition highest (acc : Z) (p : Peer) : Z :=
  match p_height p with Some h => if acc <? h then h else acc | None => acc end.

Definition extractPeersData (ps : list Peer) : Z := fold_left highest ps 0.

Definition is_fetched (b : Block) : bool :=
  negb (bool_decide (status b = MISSING)) && negb (bool_decide (status b = FETCHING)).

Definition is_applied (b : Block) : bool := bool_decide (status b = APPLIED).

(** [Math.floor(n * 100 / (length || 100))] *)
Definition percent_of (n len : nat) : Z :=
  floor_div (Z.of_nat n * 100) (if (len =? 0)%nat then 100 else Z.of_nat len).

Definition extractNodesData (now : Z) (c : Component) (n : Node) : Component :=
  let bs := blocks n in
  let '(bestTip, text, sync) :=
    match bs, last_item bs with
    | b :: _, Some final =>
      let text := "Fetched " +:+ string_drop 7 (calculateProgressTime now (bestTipReceivedTimestamp n)) in
      (Some (b_height b), text,
       Some (if negb (is_applied final) then "Pending" else string_drop 8 text))
    | _, _ => (bestTipBlock c, bestTipBlockSyncedText c, syncProgress c)
    end in
  let '(rootBlock, rootText, text') :=
    match bs, last_item bs with
    | b :: _, Some final =>
      if (length bs =? 291)%nat
      then (Some (b_height final), calculateProgressTime now (applyEnd final),
            if is_applied b then SYNCED_ +:+ " " +:+ string_drop 7 text else text)
      else (None, PENDING_, text)
    | _, _ => (None, PENDING_, text)
    end in
  let rest := tail bs in
  let fetched := count_if is_fetched rest in
  let applied := count_if is_applied rest in
  {| c_fetched := Some fetched;
     fetchedPercentage := show (percent_of fetched (length rest)) +:+ "%";
     c_applied := Some applied;
     appliedPercentage := Some (percent_of applied (length rest));
     c_root := rootBlock;
     rootText := rootText;
     bestTipBlock := bestTip;
     bestTipBlockSyncedText := text';
     targetBlock := targetBlock c;
     syncProgress := sync;
     remaining := remaining c;
     lengthWithoutRoot := Some (length rest) |}.

Definition set_remaining (c : Component) (r : option Z) : Component :=
  mkComponent (c_fetched c) (fetchedPercentage c) (c_applied c) (appliedPercentage c) (c_root c)
    (rootText c) (bestTipBlock c) (bestTipBlockSyncedText c) (targetBlock c) (syncProgress c) r
    (lengthWithoutRoot c).

Definition set_target (c : Component) (t : option Z) : Component :=
  mkComponent (c_fetched c) (fetchedPercentage c) (c_applied c) (appliedPercentage c) (c_root c)
    (rootText c) (bestTipBlock c) (bestTipBlockSyncedText c) t (syncProgress c) (remaining c)
    (lengthWithoutRoot c).

(** What [listenToNodesChanges] does with the nodes and the peers: the component
    and whether it asks for the details of the node. *)
Definition on_nodes (now : Z) (c : Component) (nodes : list Node) (peers : list Peer)
    : Component * bool :=
  match nodes with
  | [] =>
    (mkComponent None "-" None None None PENDING_ None PENDING_ None None (remaining c)
       (lengthWithoutRoot c), false)
  | n :: _ =>
    let c1 := set_remaining c (remaining_time now (blocks n) (remaining c)) in
    let c2 := set_target (extractNodesData now c1 n) (Some (extractPeersData peers)) in
    (c2, bool_decide (appliedPercentage c2 = Some 100))
  end.

(** ** Properties *)

Lemma percent_of_bounds n len : (n <= len)%nat -> 0 <= percent_of n len <= 100.
Proof.
  intros H. unfold percent_of, floor_div. destruct (Nat.eqb_spec len 0) as [->|Hl].
  - replace n with 0%nat by lia. done.
  - split; [apply Z.div_pos; lia|]. apply Z.div_le_upper_bound; lia.
Qed.

Lemma percent_of_mono n m len : (n <= m)%nat -> percent_of n len <= percent_of m len.
Proof.
  intros H. unfold percent_of, floor_div. destruct (Nat.eqb_spec len 0); apply Z.div_le_mono; lia.
Qed.

Lemma percent_of_full n len : (n <= len)%nat -> percent_of n len = 100 <-> n = len /\ (0 < len)%nat.
Proof.
  intros H. unfold percent_of, floor_div. destruct (Nat.eqb_spec len 0) as [->|Hl].
  - replace n with 0%nat by lia. split; [done|lia].
  - split.
    + intros Hd. assert (Z.of_nat len * 100 <= Z.of_nat n * 100); [|lia].
      rewrite <- Hd at 1. apply Z.mul_div_le. lia.
    + intros [-> _]. rewrite Z.mul_comm. by apply Z.div_mul; lia.
Qed.

Lemma count_if_mono {A} (f g : A -> bool) l :
  (forall x, f x = true -> g x = true) -> (count_if f l <= count_if g l)%nat.
Proof.
  intros H. induction l as [|a l IH]; [done|]. rewrite !count_if_cons.
  destruct (f a) eqn:E; [rewrite (H a E); lia|lia].
Qed.

Lemma count_if_full {A} (f : A -> bool) l : count_if f l = length l <-> Forall (fun x => f x = true) l.
Proof.
  induction l as [|a l IH]; [done|]. rewrite count_if_cons, Forall_cons, <- IH. cbn [length].
  pose proof (count_if_le f l). destruct (f a); cbn; split; try lia; intros []; try done; lia.
Qed.

Lemma applied_is_fetched b : is_applied b = true -> is_fetched b = true.
Proof. unfold is_applied, is_fetched. rewrite bool_decide_eq_true. by intros ->. Qed.

(** The percentage of the applied blocks is at most that of the fetched ones,
    both are between 0 and 100, and the applied one is 100, which is when the
    component asks for the details of the node, exactly when there are at least
    two blocks and every block but the first is applied. *)
Theorem block_percentages now c n ns peers :
  exists f a, let '(c', asks) := on_nodes now c (n :: ns) peers in
  fetchedPercentage c' = show f +:+ "%" /\ appliedPercentage c' = Some a /\
  0 <= a <= f /\ f <= 100 /\ asks = bool_decide (a = 100) /\
  (a = 100 <-> (2 <= length (blocks n))%nat /\ Forall (fun b => status b = APPLIED) (tail (blocks n))).
Proof.
  set (rest := tail (blocks n)).
  exists (percent_of (count_if is_fetched rest) (length rest)),
         (percent_of (count_if is_applied rest) (length rest)).
  assert (Hc : fetchedPercentage (on_nodes now c (n :: ns) peers).1 =
      show (percent_of (count_if is_fetched rest) (length rest)) +:+ "%" /\
    appliedPercentage (on_nodes now c (n :: ns) peers).1 =
      Some (percent_of (count_if is_applied rest) (length rest))).
  { cbn. unfold extractNodesData. repeat case_match; simplify_eq; done. }
  assert (Hlen : length rest = (length (blocks n) - 1)%nat) by (unfold rest; destruct (blocks n); cbn; lia).
  pose proof (count_if_le is_fetched rest) as Hf. pose proof (count_if_le is_applied rest) as Ha.
  pose proof (count_if_mono is_applied is_fetched rest applied_is_fetched) as Hm.
  destruct Hc as [Hc1 Hc2]. destruct (on_nodes now c (n :: ns) peers) as [c' asks] eqn:E.
  cbn [fst] in Hc1, Hc2.
  pose proof (percent_of_bounds _ _ Hf). pose proof (percent_of_bounds _ _ Ha).
  pose proof (percent_of_mono _ _ (length rest) Hm).
  split; [done|]. split; [done|]. split; [lia|]. split; [lia|]. split.
  - transitivity (bool_decide (appliedPercentage c' = Some 100)).
    + injection E as <- <-. done.
    + rewrite Hc2. apply bool_decide_ext. split; congruence.
  - rewrite percent_of_full, count_if_full, Hlen by done. unfold is_applied.
    setoid_rewrite bool_decide_eq_true. split; intros []; split; done || lia.
Qed.

(** With at most 292 blocks, a start in the past and something fetched, the
    component shows a remaining time that is not negative until 291 blocks are
    applied, and none afterwards. *)
Theorem remaining_not_negative now c n ns peers start :
  (length (blocks n) <= 292)%nat -> sync_start (blocks n) = Some start ->
  start <= now * 1000000 -> (0 < count_if (fun b => truthy_onum (fetchEnd b)) (blocks n))%nat ->
  let r := remaining (on_nodes now c (n :: ns) peers).1 in
  if (count_if (fun b => truthy_onum (applyEnd b)) (blocks n) <? 291)%nat
  then exists secs, r = Some secs /\ 0 <= secs
  else r = None.
Proof.
  intros Hlen Hs Hnow Hf. cbn zeta.
  assert (Hr : remaining (on_nodes now c (n :: ns) peers).1 = remaining_time now (blocks n) (remaining c)).
  { cbn. unfold extractNodesData. repeat case_match; done. }
  rewrite Hr. unfold remaining_time. rewrite Hs.
  pose proof (count_if_le (fun b => truthy_onum (fetchEnd b)) (blocks n)).
  set (f := count_if (fun b => truthy_onum (fetchEnd b)) (blocks n)) in *.
  set (a := count_if (fun b => truthy_onum (applyEnd b)) (blocks n)) in *.
  destruct (Nat.ltb_spec a 291), (Z.ltb_spec (Z.of_nat a) 291); try lia; [|done].
  rewrite (proj2 (Z.ltb_lt 0 _)), (proj2 (Z.leb_le 0 _)) by lia. cbn.
  eexists. split; [done|].
  apply ceil_div_nonneg; [apply Z.mul_nonneg_nonneg; lia|lia].
Qed.

Lemma highest_max ps acc :
  acc <= fold_left highest ps acc /\
  (forall p h, p ∈ ps -> p_height p = Some h -> h <= fold_left highest ps acc) /\
  (fold_left highest ps acc = acc \/ exists p, p ∈ ps /\ p_height p = Some (fold_left highest ps acc)).
Proof.
  induction ps as [|p ps IH] in acc |- *; cbn.
  - split; [lia|]. split; [by intros p h ?%not_elem_of_nil|by left].
  - destruct (IH (highest acc p)) as (H1 & H2 & H3).
    assert (Hacc : acc <= highest acc p /\ (forall h, p_height p = Some h -> h <= highest acc p) /\
      (highest acc p = acc \/ p_height p = Some (highest acc p))).
    { unfold highest. destruct (p_height p) as [h|]; [|split; [lia|]; split; [done|by left]].
      destruct (Z.ltb_spec acc h); split; try lia; split; try (intros h' [= <-]; lia); auto. }
    destruct Hacc as (Ha & Hb & Hc). split; [lia|]. split.
    + intros p' h [->|Hp]%elem_of_cons Hh; [specialize (Hb h Hh); lia|by apply (H2 p')].
    + destruct H3 as [H3|(p' & Hp' & Hh)]; [|right; exists p'; split; [by right|done]].
      rewrite H3. destruct Hc as [Hc|Hc]; [by left|right; exists p; split; [left|done]].
Qed.

(** The target is the greatest height any peer reports, or 0. *)
Lemma target_is_highest now c n ns peers :
  targetBlock (on_nodes now c (n :: ns) peers).1 = Some (extractPeersData peers) /\
  forall p h, p ∈ peers -> p_height p = Some h -> h <= extractPeersData peers.
Proof. split; [done|]. apply highest_max. Qed.

(** The block left out of the percentages is the first one, the best tip, and
    not the root, which is the last one: all is shown as applied while the best
    tip is still missing. *)
Lemma best_tip_not_counted now c b1 b2 n ns peers :
  blocks n = [b1; b2] -> status b2 = APPLIED ->
  appliedPercentage (on_nodes now c (n :: ns) peers).1 = Some 100.
Proof.
  intros Hb Hs. cbn. unfold extractNodesData. rewrite Hb. cbn. unfold is_applied. rewrite Hs. done.
Qed.

(** ** Witness *)

Definition syncing_node : Node :=
  mkNode "n" (Some SYNCED) None None None None None None None None None None None None None
    [mkBlock 3 7 "a" "b" FETCHED (Some 1000000000) (Some 2000000000) None None (Some 1) None true].

Lemma remaining_not_negative_witness :
  exists secs, remaining (on_nodes 3000 initialComponent [syncing_node] []).1 = Some secs /\ 0 <= secs.
Proof.
  apply (remaining_not_negative 3000 initialComponent syncing_node [] [] 1000000000);
    [cbn; lia|reflexivity|lia|cbn; lia].
Defined.

End DashboardBlocks.
