(* ===== verification/BlockOverview.v ===== *)
(** * The overview of the block production

    [src/frontend/src/app/features/block-production/overview]: the summaries of
    the epochs and the slots of one of them
    ([block-production-overview.service.ts]), the store
    ([block-production-overview.reducer.ts]), its effects
    ([block-production-overview.effects.ts]) and what the components compute
    from the store: the grid, colours and texts of the slots ([slots]), the
    statistics of the side panel ([side-panel]) and the totals of the toolbar
    ([toolbar]); the graphs of the epochs are in [EpochGraphs]. Amounts are
    billionths, as the node sends them. *)

From stdpp Require Import base list strings.
From S2P Require Import Prelude SharedLib.
Open Scope Z_scope.

Module BlockOverview.

(** ** What the node sends *)

Inductive BlockStatus :=
| Empty
| ToBeProduced
| Orphaned
| OrphanedPending
| Canonical
| CanonicalPending
| Foreign
| Missed.

#[export] Instance BlockStatus_eq_dec : EqDecision BlockStatus.
Proof. solve_decision. Defined.

Record Summary := mkSummary {
  max_ : Z;
  won_slots : Z;
  r_canonical : Z;
  r_orphaned : Z;
  r_missed : Z;
  future_rights : Z;
  slot_start : Z;
  slot_end : Z;
  expected_rewards : Z;
  earned_rewards : Z;
  is_current : bool
}.

Record EpochResponse := mkEpochResponse {
  epoch_number : Z;
  balance_delegated : Z;
  balance_producer : Z;
  balance_staked : Z;
  summary : option Summary;
  sub_windows : list Summary
}.

(** The summary of an epoch comes alone or in an array. *)
Inductive SummaryResponse := One (r : EpochResponse) | Many (l : list EpochResponse).

Record AllStatsResponse := mkAllStatsResponse {
  a_won_slots : Z;
  a_canonical : Z;
  a_orphaned : Z;
  a_missed : Z;
  a_future_rights : Z;
  a_expected_rewards : Z;
  a_earned_rewards : Z
}.

Record SlotResponse := mkSlotResponse {
  r_slot : Z;
  global_slot : Z;
  block_status : BlockStatus;
  r_timestamp : Z;
  state_hash : option string;
  r_height : option Z;
  is_current_slot : bool
}.

(** ** What the store holds *)

Record Details := mkDetails {
  d_epochNumber : Z;
  d_totalSlots : Z;
  d_wonSlots : Z;
  d_canonical : Z;
  d_orphaned : Z;
  d_missed : Z;
  d_futureRights : Z;
  slotStart : Z;
  slotEnd : Z;
  d_expectedRewards : option string;
  d_earnedRewards : option string;
  balanceDelegated : option string;
  balanceProducer : option string;
  balanceStaked : option string
}.

Record AllStats := mkAllStats {
  wonSlots : Z;
  totalSlots : Z;
  s_canonical : Z;
  s_orphaned : Z;
  s_missed : Z;
  s_futureRights : Z;
  expectedRewards : option string;
  earnedRewards : option string
}.

Record Slot := mkSlot {
  slot : Z;
  globalSlot : Z;
  height : option Z;
  time : Z;
  status : BlockStatus;
  finished : bool;
  canonical : bool;
  orphaned : bool;
  missed : bool;
  futureRights : bool;
  hash : option string;
  active : bool
}.

Record Window := mkWindow {
  start : Z; end_ : Z; w_canonical : Z; w_missed : Z; w_orphaned : Z; w_futureRights : Z;
  interval : Z * Z
}.

(** An epoch of the store is built by spreading objects, so each of its fields
    may be missing. *)
Record Epoch := mkEpoch {
  epochNumber : option Z;
  windows : option (list Window);
  finishedWindows : option Z;
  details : option Details;
  slots : option (list Slot);
  isLastEpoch : option bool
}.

Record Filters := mkFilters {
  f_canonical : bool; f_orphaned : bool; f_missed : bool; f_future : bool
}.

Inductive Scale := linear | adaptive.

Record State := mkState {
  epochs : list Epoch;
  activeEpoch : option Epoch;
  activeEpochNumber : option Z;
  allTimeStats : option AllStats;
  filters : Filters;
  activeSlot : option Slot;
  activeSlotRoute : option Z;
  scale : Scale;
  isLoading : bool;
  isCalculatingVRF : bool
}.

(** ** Service *)

(** [Intl.NumberFormat] of a billionth with at most two decimal places: the
    hundredths are rounded, a half up, and zeros at the end are dropped. *)
Definition hundredths (n : Z) : Z := floor_div (n + 5000000) 10000000.

Definition show_hundredths (h : Z) : string :=
  show (h / 100) +:+
  (if h mod 100 =? 0 then ""
   else if h mod 10 =? 0 then "." +:+ show (h mod 100 / 10)
   else "." +:+ (if h mod 100 <? 10 then "0" else "") +:+ show (h mod 100)).

Definition format (n : Z) : string := show_hundredths (hundredths n).

(** [${n ?? 'latest'}] *)
Definition or_latest (n : option Z) : string :=
  match n with Some n => show n | None => "latest" end.

Definition getEpochDetails_url (n : option Z) : string := "/epoch/summary/" +:+ or_latest n.

Definition mapDetails (r : EpochResponse) : Details :=
  match summary r with
  | None => mkDetails (epoch_number r) 0 0 0 0 0 0 0 0 None None None None None
  | Some s =>
    {| d_epochNumber := epoch_number r;
       d_totalSlots := r_canonical s + r_orphaned s + r_missed s + future_rights s;
       d_wonSlots := won_slots s;
       d_canonical := r_canonical s;
       d_orphaned := r_orphaned s;
       d_missed := r_missed s;
       d_futureRights := future_rights s;
       slotStart := slot_start s;
       slotEnd := slot_end s;
       d_expectedRewards := Some (format (expected_rewards s));
       d_earnedRewards := Some (format (earned_rewards s));
       balanceDelegated := Some (format (balance_delegated r));
       balanceProducer := Some (format (balance_producer r));
       balanceStaked := Some (format (balance_staked r)) |}
  end.

Definition getEpochDetails (response : SummaryResponse) : result Details :=
  match response with
  | One r => Ok (mapDetails r)
  | Many (r :: _) => Ok (mapDetails r)
  | Many [] => Throw "Cannot read properties of undefined (reading 'summary')"
  end.

Definition getSlots_url (n : option Z) : string := "/epoch/" +:+ or_latest n.

Definition is_status (l : list BlockStatus) (r : SlotResponse) : bool := includes l (block_status r).

(** [activeSlotIndex] is -1 when the current slot is not in the epoch, and then
    no index is below or equal to it. *)
Definition mapSlot (activeSlotIndex : option nat) (i : nat) (r : SlotResponse) : Slot :=
  {| slot := r_slot r;
     globalSlot := global_slot r;
     height := r_height r;
     time := r_timestamp r;
     finished := match activeSlotIndex with Some k => (i <? k)%nat | None => false end &&
                 negb (is_status [Empty] r);
     canonical := is_status [Canonical; CanonicalPending] r;
     orphaned := is_status [Orphaned; OrphanedPending] r;
     missed := is_status [Missed] r;
     futureRights := is_status [ToBeProduced] r;
     status := block_status r;
     active := bool_decide (activeSlotIndex = Some i);
     hash := state_hash r |}.

Definition getSlots (response : list SlotResponse) (currentSlot : Z) : list Slot :=
  let activeSlotIndex := findIndex (fun r => global_slot r =? currentSlot) response in
  mapi (mapSlot activeSlotIndex) response.

Section Urls.
Context `{HasValue}.

Definition getEpochs_url (n : option Z) (limit : Z) : string :=
  let n' := if hasValue n then (fun e => Z.max (e + 3) 6) <$> n else n in
  "/epoch/summary/" +:+ match n' with Some e => show e | None => "undefined" end +:+
  "?limit=" +:+ show (limit + 2).
End Urls.

Definition mapWindow (w : Summary) : Window :=
  {| start := slot_start w; end_ := slot_end w; w_canonical := r_canonical w;
     w_orphaned := r_orphaned w; w_missed := r_missed w; w_futureRights := future_rights w;
     interval := (slot_start w, slot_end w) |}.

Definition mapEpoch (r : EpochResponse) : Epoch :=
  {| epochNumber := Some (epoch_number r);
     isLastEpoch := Some (existsb (fun w => 0 <? future_rights w) (sub_windows r));
     finishedWindows := Some match findIndex is_current (sub_windows r) with
                             | Some i => Z.of_nat i + 1
                             | None => 0
                             end;
     windows := Some (mapWindow <$> sub_windows r);
     details := None;
     slots := None |}.

Definition getEpochs (response : list EpochResponse) : list Epoch := mapEpoch <$> reverse response.

Definition getRewardsAllTimeStats (r : AllStatsResponse) : AllStats :=
  {| wonSlots := a_won_slots r;
     s_canonical := a_canonical r;
     s_orphaned := a_orphaned r;
     s_missed := a_missed r;
     s_futureRights := a_future_rights r;
     totalSlots := a_canonical r + a_orphaned r + a_missed r + a_future_rights r;
     expectedRewards := Some (format (a_expected_rewards r));
     earnedRewards := Some (format (a_earned_rewards r)) |}.

(** ** Store *)

Inductive Action :=
| Init
| Close
| GetEpochs (n : option Z)
| GetEpochsSuccess (l : list Epoch)
| GetSlots (n : option Z)
| GetSlotsSuccess (l : list Slot)
| GetEpochDetails (n : option Z)
| GetEpochDetailsSuccess (d : option Details)
| GetRewardsStats
| GetRewardsStatsSuccess (stats : option AllStats)
| ChangeFilters (f : Filters)
| ChangeScale (sc : Scale)
| SetActiveSlot (n : option Z).

Definition SLOTS_PER_EPOCH : nat := 7140.

Definition initialState : State :=
  {| epochs := []; activeEpoch := None; allTimeStats := None; activeEpochNumber := None;
     filters := mkFilters true true true true; activeSlot := None; activeSlotRoute := None;
     scale := adaptive; isLoading := true; isCalculatingVRF := false |}.

Definition emptyEpoch : Epoch := mkEpoch None None None None None None.

(** [{ ...e, ...e' }] *)
Definition prefer {A} (a b : option A) : option A := match a with Some _ => a | None => b end.

Definition spread (e e' : Epoch) : Epoch :=
  mkEpoch (prefer (epochNumber e') (epochNumber e)) (prefer (windows e') (windows e))
    (prefer (finishedWindows e') (finishedWindows e)) (prefer (details e') (details e))
    (prefer (slots e') (slots e)) (prefer (isLastEpoch e') (isLastEpoch e)).

Definition current_epoch (s : State) : Epoch := default emptyEpoch (activeEpoch s).

Definition find_slot (l : list Slot) (n : option Z) : option Slot :=
  List.find (fun x => bool_decide (Some (slot x) = n)) l.

Definition reducer (s : State) (a : Action) : result State :=
  match a with
  | GetEpochsSuccess l =>
    let found := List.find (fun e => bool_decide (epochNumber e = activeEpochNumber s)) l in
    Ok (mkState l (Some (spread (current_epoch s) (default emptyEpoch found))) (activeEpochNumber s)
          (allTimeStats s) (filters s) (activeSlot s) (activeSlotRoute s) (scale s) (isLoading s)
          (isCalculatingVRF s))
  | GetEpochDetails n =>
    Ok (mkState (epochs s) (activeEpoch s) n (allTimeStats s) (filters s) (activeSlot s)
          (activeSlotRoute s) (scale s) (isLoading s) (isCalculatingVRF s))
  | GetEpochDetailsSuccess d =>
    let e := current_epoch s in
    Ok (mkState (epochs s)
          (Some (mkEpoch (epochNumber e) (windows e) (finishedWindows e) d (slots e) (isLastEpoch e)))
          (if truthy_onum (activeEpochNumber s) then activeEpochNumber s else d_epochNumber <$> d)
          (allTimeStats s) (filters s) (activeSlot s) (activeSlotRoute s) (scale s) (isLoading s)
          (isCalculatingVRF s))
  | GetSlotsSuccess l =>
    let e := current_epoch s in
    Ok (mkState (epochs s)
          (Some (mkEpoch (epochNumber e) (windows e) (finishedWindows e) (details e) (Some l) (isLastEpoch e)))
          (activeEpochNumber s) (allTimeStats s) (filters s) (find_slot l (activeSlotRoute s))
          (activeSlotRoute s) (scale s) false
          (negb (length l =? 0)%nat && negb (length l =? SLOTS_PER_EPOCH)%nat))
  | ChangeFilters f =>
    Ok (mkState (epochs s) (activeEpoch s) (activeEpochNumber s) (allTimeStats s) f (activeSlot s)
          (activeSlotRoute s) (scale s) (isLoading s) (isCalculatingVRF s))
  | GetRewardsStatsSuccess stats =>
    Ok (mkState (epochs s) (activeEpoch s) (activeEpochNumber s) stats (filters s) (activeSlot s)
          (activeSlotRoute s) (scale s) (isLoading s) (isCalculatingVRF s))
  | ChangeScale sc =>
    Ok (mkState (epochs s) (activeEpoch s) (activeEpochNumber s) (allTimeStats s) (filters s)
          (activeSlot s) (activeSlotRoute s) sc (isLoading s) (isCalculatingVRF s))
  | SetActiveSlot n =>
    let set found :=
      Ok (mkState (epochs s) (activeEpoch s) (activeEpochNumber s) (allTimeStats s) (filters s)
            found n (scale s) (isLoading s) (isCalculatingVRF s)) in
    match activeEpoch s with
    | None => set None
    | Some e =>
      match slots e with
      | Some l => set (find_slot l n)
      | None => Throw "Cannot read properties of undefined (reading 'find')"
      end
    end
  | Close => Ok initialState
  | Init | GetEpochs _ | GetSlots _ | GetRewardsStats => Ok s
  end.

(** ** Effects *)

(** The four effects have the same shape: a request replaces the one in flight,
    [close] removes it, and the outcome of the one in flight is dispatched. *)
Inductive Event (T : Type) := OnGet (n : option Z) | OnClose | OnOutcome (o : outcome T).
Arguments OnGet {T} _.
Arguments OnClose {T}.
Arguments OnOutcome {T} _.

Inductive Output := Request (url : string) | Actions (l : list (dispatched Action)).

Section Effects.
Context `{HasValue} (now : string).

Definition switch_load {T} (url : option Z -> string) (answer : outcome T -> list (dispatched Action))
    (inFlight : bool) (ev : Event T) : bool * list Output :=
  match ev with
  | OnGet n => (true, [Request (url n)])
  | OnClose => (false, [])
  | OnOutcome o => if inFlight then (false, [Actions (answer o)]) else (false, [])
  end.

Definition or_fallback (fallback : Action) (r : outcome (list Action)) : list (dispatched Action) :=
  match r with
  | Next l => Dispatch <$> l
  | Failed e => catchErrorAndRepeat now GENERIC fallback (Failed e)
  end.

(** An exception in a [map] is an error of the stream. *)
Definition details_answer (o : outcome SummaryResponse) : list (dispatched Action) :=
  or_fallback (GetEpochDetailsSuccess None)
    match o with
    | Failed e => Failed e
    | Next r =>
      match getEpochDetails r with
      | Throw msg => Failed (mkJsError msg None "")
      | Ok d => Next [GetEpochDetailsSuccess (Some d); GetEpochs (Some (d_epochNumber d));
                      GetSlots (Some (d_epochNumber d))]
      end
    end.

(** [getActiveEpochDetails$] *)
Definition getActiveEpochDetails := switch_load getEpochDetails_url details_answer.

Definition epochs_answer (o : outcome (list EpochResponse)) : list (dispatched Action) :=
  or_fallback (GetEpochsSuccess [])
    match o with Failed e => Failed e | Next r => Next [GetEpochsSuccess (getEpochs r)] end.

(** [getEpochs$] *)
Definition getEpochs_effect := switch_load (fun n => getEpochs_url n 5) epochs_answer.

Definition slots_answer (o : outcome (list SlotResponse * Z)) : list (dispatched Action) :=
  or_fallback (GetSlotsSuccess [])
    match o with
    | Failed e => Failed e
    | Next (r, currentSlot) => Next [GetSlotsSuccess (getSlots r currentSlot)]
    end.

(** [getActiveEpochSlots$]: the epoch is read from the state, not from the
    action. *)
Definition getActiveEpochSlots (s : State) :=
  switch_load (fun _ => getSlots_url (activeEpochNumber s)) slots_answer.

Definition stats_answer (o : outcome AllStatsResponse) : list (dispatched Action) :=
  or_fallback (GetRewardsStatsSuccess None)
    match o with
    | Failed e => Failed e
    | Next r => Next [GetRewardsStatsSuccess (Some (getRewardsAllTimeStats r))]
    end.

(** [getRewardsStats$] *)
Definition getRewardsStats := switch_load (fun _ => "/summary") stats_answer.

(** The route an answer navigates to, below the page of the overview. *)
Definition details_route (s : State) (d : Details) : list Z :=
  if truthy_onum (activeSlotRoute s)
  then [d_epochNumber d; default 0 (activeSlotRoute s)] else [d_epochNumber d].
End Effects.

(** ** Components *)

Definition slotWidth : Z := 8.
Definition slotHeight : Z := 8.
Definition slotMargin : Z := 1.

Definition slotsPerRow (width : Z) : Z := floor_div width (slotWidth + slotMargin).

Definition setY (perRow i : Z) : Z := floor_div i perRow * (slotHeight + slotMargin).
Definition setX (perRow i : Z) : Z := (i mod perRow) * (slotWidth + slotMargin).

Definition filtered (on : bool) (shown hidden : string) : string := if on then shown else hidden.

Definition getSlotColor (d : Slot) (fs : option Filters) : string :=
  let on f := match fs with Some fs => f fs | None => false end in
  let color := if finished d then "selected-tertiary" else "base-container" in
  let color :=
    if canonical d then "success-" +:+ filtered (on f_canonical) "primary" "tertiary"
    else if orphaned d then "special-selected-alt-1-" +:+ filtered (on f_orphaned) "primary" "tertiary"
    else if missed d then "warn-" +:+ filtered (on f_missed) "primary" "tertiary"
    else if futureRights d then "base-" +:+ filtered (on f_future) "secondary" "divider"
    else if negb (finished d) then "base-container" else color in
  let color := if active d then "selected-primary" else color in
  "var(--" +:+ color +:+ ")".

Definition getSlotText (d : Slot) : string :=
  let text := if finished d then "Block by another producer" else "" in
  let text :=
    if canonical d then "Canonical Block Produced"
    else if orphaned d then "Orphaned Block Produced"
    else if missed d then "Missed Block"
    else if futureRights d then "Right to produce a block"
    else if negb (finished d) then "Empty Slot" else text in
  if active d then "Currently producing" else text.

(** The toolbar: the slots of each kind. *)
Record Totals := mkTotals {
  totalCanonical : nat; totalOrphaned : nat; totalMissed : nat; totalFuture : nat
}.

Definition toolbar_totals (e : option Epoch) : Totals :=
  match (e ≫= slots) with
  | Some l => mkTotals (count_if canonical l) (count_if orphaned l) (count_if missed l) (count_if futureRights l)
  | None => mkTotals 0 0 0 0
  end.

Inductive FilterKey := KCanonical | KOrphaned | KMissed | KFuture.

Definition changeFilter (fs : Filters) (k : FilterKey) (value : bool) : Action :=
  ChangeFilters
    match k with
    | KCanonical => mkFilters value (f_orphaned fs) (f_missed fs) (f_future fs)
    | KOrphaned => mkFilters (f_canonical fs) value (f_missed fs) (f_future fs)
    | KMissed => mkFilters (f_canonical fs) (f_orphaned fs) value (f_future fs)
    | KFuture => mkFilters (f_canonical fs) (f_orphaned fs) (f_missed fs) value
    end.

(** The side panel. [readable] is [toReadableDate] of a time in seconds. *)
Record Extras := mkExtras {
  x_balanceProducer : option string;
  x_balanceDelegated : option string;
  x_balanceStaked : option string;
  epochStarted : string;
  epochEnds : string;
  slotsUsed : string
}.

(** [Math.round(n / total * 100) + '%'] *)
Definition percent_text (n total : Z) : string :=
  if total =? 0 then (if n =? 0 then "NaN%" else "Infinity%")
  else show (floor_div (2 * (n * 100) + total) (2 * total)) +:+ "%".

Definition slot_date (readable : Z -> string) (l : list Slot) (n : Z) : string :=
  match List.find (fun x => globalSlot x =? n) l with
  | Some x => readable (time x)
  | None => "-"
  end.

Definition side_panel (readable : Z -> string) (d : Details) (l : list Slot) : AllStats * Extras :=
  ({| totalSlots := d_totalSlots d; wonSlots := d_wonSlots d; s_canonical := d_canonical d;
      s_orphaned := d_orphaned d; s_missed := d_missed d; s_futureRights := d_futureRights d;
      earnedRewards := d_earnedRewards d; expectedRewards := d_expectedRewards d |},
   {| x_balanceProducer := balanceProducer d; x_balanceDelegated := balanceDelegated d;
      x_balanceStaked := balanceStaked d;
      epochStarted := slot_date readable l (slotStart d);
      epochEnds := slot_date readable l (slotEnd d);
      slotsUsed := percent_text (d_canonical d + d_orphaned d + d_missed d) (d_totalSlots d) |}).

(** The panel is updated only when the epoch has slots and details. *)
Definition listen_active_epoch (readable : Z -> string) (e : option Epoch) : option (AllStats * Extras) :=
  match e with
  | Some (mkEpoch _ _ _ (Some d) (Some (x :: l)) _) => Some (side_panel readable d (x :: l))
  | _ => None
  end.

(** ** Properties *)

(** In a row that has room for a slot, every slot lies within the width of
    the drawing, and no two slots overlap. *)
Theorem slot_grid_disjoint width i j :
  slotWidth + slotMargin <= width -> 0 <= i -> 0 <= j ->
  let x := setX (slotsPerRow width) in
  let y := setY (slotsPerRow width) in
  0 <= x i /\ x i + slotWidth <= width /\ 0 <= y i /\
  (i <> j -> slotWidth < Z.abs (x i - x j) \/ slotHeight < Z.abs (y i - y j)).
Proof.
  unfold setX, setY, slotsPerRow, floor_div, slotWidth, slotHeight, slotMargin. cbn zeta.
  intros Hw Hi Hj. change (8 + 1) with 9 in *.
  assert (Hp : 1 <= width / 9) by (apply Z.div_le_lower_bound; lia).
  assert (Hp9 : 9 * (width / 9) <= width) by (apply Z.mul_div_le; lia).
  set (p := width / 9) in *.
  pose proof (Z.mod_pos_bound i p) as Hmi. pose proof (Z.div_pos i p).
  pose proof (Z.div_mod i p ltac:(lia)) as Hdi. pose proof (Z.div_mod j p ltac:(lia)) as Hdj.
  split; [lia|]. split; [lia|]. split; [lia|]. intros Hne.
  destruct (Z.eq_dec (i / p) (j / p)) as [E|E]; [left; rewrite E in Hdi; lia|right; lia].
Qed.

Lemma active_index_unique r cur i x :
  NoDup (global_slot <$> r) -> r !! i = Some x ->
  findIndex (fun r => global_slot r =? cur) r = Some i <-> global_slot x = cur.
Proof.
  intros Hd Hx. split.
  - intros (y & Hy & E & _)%findIndex_Some. apply Z.eqb_eq in E. congruence.
  - intros Hc. destruct (findIndex_complete (fun r => global_slot r =? cur) r i x Hx) as (k & Hk & Hle);
      [by apply Z.eqb_eq|].
    pose proof (findIndex_Some _ _ _ Hk) as (y & Hy & E%Z.eqb_eq & _). rewrite Hk. f_equal.
    apply (NoDup_lookup _ k i cur Hd); rewrite list_lookup_fmap; [by rewrite Hy, <- E|by rewrite Hx, <- Hc].
Qed.

(** What the text of a slot says, by its status and by whether the current slot
    comes later in the same epoch. *)
Definition slot_says (st : BlockStatus) (later : bool) : string :=
  match st with
  | Canonical | CanonicalPending => "Canonical Block Produced"
  | Orphaned | OrphanedPending => "Orphaned Block Produced"
  | Missed => "Missed Block"
  | ToBeProduced => "Right to produce a block"
  | Foreign => if later then "Block by another producer" else "Empty Slot"
  | Empty => "Empty Slot"
  end.

Definition count_slots (st : BlockStatus) (r : list SlotResponse) : nat :=
  count_if (fun y => bool_decide (block_status y = st)) r.

Lemma mapSlot_text k i r :
  getSlotText (mapSlot k i r) =
    if bool_decide (k = Some i) then "Currently producing"
    else slot_says (block_status r) (match k with Some k => (i <? k)%nat | None => false end).
Proof.
  unfold getSlotText, mapSlot, is_status.
  cbn [active finished canonical orphaned missed futureRights].
  generalize (match k with Some k => (i <? k)%nat | None => false end) as later. intros later.
  case_bool_decide; [done|]. by destruct (block_status r), later.
Qed.

Lemma count_mapSlot (f : Slot -> bool) (g : SlotResponse -> bool) k r :
  (forall i y, f (mapSlot k i y) = g y) -> count_if f (mapi (mapSlot k) r) = count_if g r.
Proof.
  intros Hfg. unfold mapi.
  enough (H : forall h, (forall i y, f (h i y) = g y) -> count_if f (imap h r) = count_if g r) by auto.
  clear Hfg. induction r as [|y r IH]; intros h Hh; [done|]. cbn [imap].
  rewrite !count_if_cons, Hh. f_equal. by apply IH; intros; apply Hh.
Qed.

(** When the slots of an epoch differ, the one marked as active is the
    current slot and no other; the text of every slot follows from its status,
    blocks of others being named only before the current slot; and the totals
    of the toolbar count every slot once, apart from the empty and the foreign
    ones. *)
Theorem slots_classified r cur e :
  NoDup (global_slot <$> r) -> slots e = Some (getSlots r cur) ->
  (forall i x, getSlots r cur !! i = Some x -> exists y, r !! i = Some y /\
     slot x = r_slot y /\ globalSlot x = global_slot y /\ hash x = state_hash y /\
     (active x = true <-> global_slot y = cur) /\
     exists later, getSlotText x = (if active x then "Currently producing" else slot_says (block_status y) later) /\
       (later = true <-> exists j z, (i < j)%nat /\ r !! j = Some z /\ global_slot z = cur)) /\
  let t := toolbar_totals (Some e) in
  (totalCanonical t + totalOrphaned t + totalMissed t + totalFuture t +
   count_slots Empty r + count_slots Foreign r)%nat = length r.
Proof.
  intros Hd He. split.
  - intros i x. unfold getSlots, mapi. rewrite list_lookup_imap.
    destruct (r !! i) as [y|] eqn:Hy; [|done]. intros [= <-].
    pose proof (active_index_unique r cur i y Hd Hy) as Hact.
    exists y. split; [done|]. split; [done|]. split; [done|]. split; [done|]. cbn [active mapSlot].
    rewrite bool_decide_eq_true. split; [done|]. eexists. split; [apply mapSlot_text|].
    destruct (findIndex _ r) as [k|] eqn:Hk.
    + pose proof (findIndex_Some _ _ _ Hk) as (z & Hz & E%Z.eqb_eq & _). rewrite Nat.ltb_lt. split.
      * intros Hlt. by exists k, z.
      * intros (j & z' & Hlt & Hz' & Ez'). enough (j = k) by (by subst).
        apply (NoDup_lookup _ j k cur Hd); rewrite list_lookup_fmap; [by rewrite Hz', <- Ez'|by rewrite Hz, <- E].
    + split; [done|]. intros (j & z & _ & Hz & E). rewrite findIndex_None in Hk.
      specialize (Hk z ltac:(by eapply list_elem_of_lookup_2)). by apply Z.eqb_neq in Hk.
  - unfold toolbar_totals. cbn [mbind option_bind]. rewrite He.
    cbn [totalCanonical totalOrphaned totalMissed totalFuture]. unfold getSlots.
    rewrite (count_mapSlot _ (is_status [Canonical; CanonicalPending])),
      (count_mapSlot _ (is_status [Orphaned; OrphanedPending])),
      (count_mapSlot _ (is_status [Missed])), (count_mapSlot _ (is_status [ToBeProduced])) by done.
    clear. unfold count_slots, is_status. induction r as [|y r IH]; [done|].
    rewrite !count_if_cons. cbn [length].
    destruct (block_status y); repeat match goal with
      | |- context [if ?b then 1%nat else 0%nat] =>
        let v := eval vm_compute in b in change b with v; cbv iota
      end; lia.
Qed.

(** In an epoch without the current slot, so in every past one, the blocks of
    other producers are shown as empty slots. *)
Lemma past_foreign_empty r cur i x y :
  (forall z, z ∈ r -> global_slot z <> cur) ->
  getSlots r cur !! i = Some x -> r !! i = Some y -> block_status y = Foreign ->
  getSlotText x = "Empty Slot".
Proof.
  intros Hz. unfold getSlots, mapi. rewrite list_lookup_imap. intros Hx Hy Hs.
  rewrite Hy in Hx. injection Hx as <-. rewrite mapSlot_text, Hs.
  assert (findIndex (fun r => global_slot r =? cur) r = None) as ->; [|done].
  apply findIndex_None. intros z Hin. apply Z.eqb_neq. by apply Hz.
Qed.

(** An answer for the epochs before the one for the slots leaves an active epoch
    without slots, and choosing a slot then throws. *)
Lemma choose_slot_early s l n :
  activeEpoch s = None -> Forall (fun e => slots e = None) l ->
  exists s', reducer s (GetEpochsSuccess l) = Ok s' /\ throws (reducer s' (SetActiveSlot n)) = true.
Proof.
  intros Ha Hl. eexists. split; [done|]. cbn. unfold current_epoch. rewrite Ha. cbn.
  destruct (List.find _ l) as [e|] eqn:Hf; cbn; [|done].
  apply find_Some_elem in Hf as [Hin _]. rewrite Forall_forall in Hl.
  by rewrite (Hl e Hin).
Qed.

(** The slot 0 of an epoch is dropped from the route. *)
Lemma slot_zero_not_routed s d : activeSlotRoute s = Some 0 -> details_route s d = [d_epochNumber d].
Proof. unfold details_route. by intros ->. Qed.

(** The amounts are off by at most half a hundredth. *)
Lemma hundredths_close n : Z.abs (hundredths n * 10000000 - n) <= 5000000.
Proof. unfold hundredths, floor_div. Z.to_euclidean_division_equations. lia. Qed.

Lemma mapDetails_number r : d_epochNumber (mapDetails r) = epoch_number r.
Proof. unfold mapDetails. by destruct (summary r). Qed.

Definition find_epoch (k : option Z) (l : list Epoch) : option Epoch :=
  List.find (fun e => bool_decide (epochNumber e = k)) l.

Lemma find_epoch_unique eps p :
  NoDup (epoch_number <$> eps) -> p ∈ eps ->
  find_epoch (Some (epoch_number p)) (getEpochs eps) = Some (mapEpoch p).
Proof.
  intros Hd Hp. unfold find_epoch. destruct (List.find _ _) as [e|] eqn:Hf.
  - apply find_Some_elem in Hf as [(q & -> & Hq)%list_elem_of_fmap E%bool_decide_eq_true].
    cbn in E. injection E as E. do 2 f_equal. rewrite elem_of_reverse in Hq.
    apply list_elem_of_lookup in Hp as [i Hi], Hq as [j Hj]. enough (i = j) by congruence.
    apply (NoDup_lookup _ i j (epoch_number p) Hd); rewrite list_lookup_fmap; [by rewrite Hi|by rewrite Hj, <- E].
  - apply (find_None_elem _ _ (mapEpoch p)) in Hf.
    + by rewrite bool_decide_eq_false in Hf.
    + apply (list_elem_of_fmap_2 mapEpoch). by rewrite elem_of_reverse.
Qed.

(** When an epoch is chosen, or the latest one is asked for, the slots that
    are requested are those of the epoch whose details came, and once the
    details, the epochs and the slots are in, in whichever order the last two
    come, the active epoch has exactly them, with the windows of its own
    number. *)
Theorem epoch_loads now s n r eps sl cur p answers :
  n = None \/ n = Some (epoch_number r) ->
  NoDup (epoch_number <$> eps) -> p ∈ eps -> epoch_number p = epoch_number r ->
  let e_answer := epochs_answer now (Next eps) in
  let s_answer := slots_answer now (Next (sl, cur)) in
  answers = [e_answer; s_answer] \/ answers = [s_answer; e_answer] ->
  exists s1 s2 s3, reducer s (GetEpochDetails n) = Ok s1 /\
    reduce_all reducer s1 (details_answer now (Next (One r))) = Ok s2 /\
    (getActiveEpochSlots now s2 false (OnGet n)).2 = [Request (getSlots_url (Some (epoch_number r)))] /\
    reduce_all reducer s2 (concat answers) = Ok s3 /\ isLoading s3 = false /\
    epochs s3 = getEpochs eps /\ activeEpochNumber s3 = Some (epoch_number r) /\
    activeEpoch s3 = Some (mkEpoch (Some (epoch_number r)) (Some (mapWindow <$> sub_windows p))
      (finishedWindows (mapEpoch p)) (Some (mapDetails r)) (Some (getSlots sl cur)) (isLastEpoch (mapEpoch p))).
Proof.
  intros Hn Hd Hp Hpr. cbn zeta. intros Hans.
  assert (Hnum : (if truthy_onum n then n else Some (d_epochNumber (mapDetails r))) = Some (epoch_number r)).
  { rewrite mapDetails_number. destruct Hn as [->|Hn]; [done|]. rewrite Hn. by destruct (truthy_onum _). }
  pose proof (find_epoch_unique eps p Hd Hp) as Hfind. rewrite Hpr in Hfind. unfold find_epoch in Hfind.
  destruct Hans as [-> | ->]; (eexists _, _, _; (split; [done|]); (split; [done|])).
  all: split; [cbn; by rewrite Hnum|]; (split; [done|]).
  all: cbn [isLoading epochs activeEpochNumber activeEpoch fmap option_fmap option_map];
    rewrite ?Hnum; repeat (split; [done|]).
  all: rewrite ?Hfind; unfold current_epoch, spread; cbn; rewrite ?Hpr; reflexivity.
Qed.

(** ** Witnesses *)

Definition raw_epoch (n : Z) : EpochResponse := mkEpochResponse n 1 2 3 None [mkSummary 1 0 0 0 0 0 5 6 0 0 false].

Definition two_slots : list SlotResponse :=
  [mkSlotResponse 0 10 Foreign 1 None None false; mkSlotResponse 1 11 Empty 2 None None true].

Lemma slot_grid_disjoint_witness : setX (slotsPerRow 100) 13 + slotWidth <= 100.
Proof.
  exact (proj1 (proj2 (slot_grid_disjoint 100 13 2 ltac:(by vm_compute) ltac:(lia) ltac:(lia)))).
Defined.

Lemma slots_classified_witness :
  exists y, two_slots !! 0%nat = Some y /\ (active (mapSlot (Some 1%nat) 0 y) = true <-> global_slot y = 11).
Proof.
  assert (Hd : NoDup (global_slot <$> two_slots)) by (by apply (bool_decide_eq_true _)).
  destruct (proj1 (slots_classified two_slots 11
    (mkEpoch None None None None (Some (getSlots two_slots 11)) None) Hd eq_refl) 0%nat
    (mapSlot (Some 1%nat) 0 (mkSlotResponse 0 10 Foreign 1 None None false)) eq_refl)
    as (y & Hy & _ & _ & _ & Ha & _).
  exists y. split; [exact Hy|]. injection Hy as <-. exact Ha.
Defined.

Lemma epoch_loads_witness :
  exists s3, activeEpoch s3 = Some (mkEpoch (Some 3) (Some [mkWindow 5 6 0 0 0 0 (5, 6)]) (Some 0)
    (Some (mapDetails (raw_epoch 3))) (Some (getSlots two_slots 11)) (Some false)).
Proof.
  destruct (epoch_loads "" initialState None (raw_epoch 3) [raw_epoch 4; raw_epoch 3] two_slots 11
    (raw_epoch 3) [slots_answer "" (Next (two_slots, 11)); epochs_answer "" (Next [raw_epoch 4; raw_epoch 3])])
    as (s1 & s2 & s3 & _ & _ & _ & _ & _ & _ & _ & He).
  - by left.
  - by apply (bool_decide_eq_true _).
  - right. left.
  - reflexivity.
  - by right.
  - exists s3. exact He.
Defined.

End BlockOverview.
