(* ===== verification/DhtTree.v ===== *)
(** * The binary tree of the routing table

    [src/frontend/src/app/features/network/dht-graph]: the nodes of the tree in
    which the peers are drawn by the digits of their distances, and what its two
    algorithms share. A distance is the list of its binary digits; [None] as the
    peer of a node stands for the placeholder whose distance is a dash. The
    children of a node are none or two until the distances are made equal, which
    may add single children. *)

From stdpp Require Import base list strings.
From S2P Require Import Prelude SharedLib.

Module DhtTree.

(** ** Data *)

(** [id] is the number the component gives the peers, by which two of the same
    key and distance are still different objects. *)
Record Peer := mkPeer { key : string; bits : list bool; number : option nat }.

#[export] Instance Peer_eq_dec : EqDecision Peer.
Proof. solve_decision. Defined.

Inductive tree :=
| Node (peer : option Peer) (children : list tree) (id : option nat) (prevBranch : option bool).

Definition t_peer (t : tree) : option Peer := let '(Node p _ _ _) := t in p.
Definition t_children (t : tree) : list tree := let '(Node _ cs _ _) := t in cs.

(** What a run of an algorithm gives: nothing when the fuel runs out, otherwise
    a value or an exception. *)
Definition run (A : Type) : Type := option (result A).

#[export] Instance run_ret : MRet run := fun A a => Some (Ok a).
#[export] Instance run_bind : MBind run := fun A B f m =>
  match m with
  | Some (Ok a) => f a
  | Some (Throw e) => Some (Throw e)
  | None => None
  end.

Definition raise {A} (e : string) : run A := Some (Throw e).

(** [peer.binaryDistance[level] === '0' ? 0 : 1], which is 1 beyond the end. *)
Definition direction (p : Peer) (level : nat) : bool := nth level (bits p) true.

Definition index (d : bool) : nat := if d then 1 else 0.

(** Two children, [x] being the one in the given direction. *)
Definition both (d : bool) (x y : tree) : list tree := if d then [y; x] else [x; y].

(** [this.peers.slice(this.peers.indexOf(peer) + 1)] *)
Definition later_peers (peers : list Peer) (p : Peer) : list Peer :=
  match findIndex (fun q => bool_decide (q = p)) peers with
  | Some i => drop (S i) peers
  | None => peers
  end.

Definition same_prefix (n : nat) (p q : Peer) : bool :=
  bool_decide (take n (bits p) = take n (bits q)).

(** The condition under which the peer takes the place of the empty node itself:
    [sibling] is [parentOfNode.children[0]]. *)
Definition collapses (peers : list Peer) (sibling : option tree) (children : list tree) (p : Peer)
    (level : nat) : bool :=
  match level with
  | 0 => false
  | S level' =>
    bool_decide (bits p !! level' = Some true) &&
    match sibling with
    | Some (Node (Some q) [] _ _) =>
      bool_decide (children = []) && same_prefix level' q p &&
      forallb (fun p' => negb (same_prefix level' p' p)) (later_peers peers p)
    | _ => false
    end
  end.

(** [this.peers.find(p => p.binaryDistance === ...)] *)
Definition find_peer (peers : list Peer) (q : Peer) : run Peer :=
  match List.find (fun p => bool_decide (bits p = bits q)) peers with
  | Some p => mret p
  | None => raise "Cannot read properties of undefined (reading 'binaryDistance')"
  end.

(** [cleanUpTree(node)], the same in both algorithms. *)
Fixpoint cleanUpTree (t : tree) : tree :=
  match t with
  | Node p [a; b] i br =>
    match t_peer a, t_peer b with
    | None, Some q => Node (Some q) [] i br
    | _, _ => Node p [cleanUpTree a; cleanUpTree b] i br
    end
  | _ => t
  end.

(** A path of [n] digits is walked by at most [n + 2] calls. *)
Definition insert_fuel (p : Peer) : nat := length (bits p) + 2.
End DhtTree.
