(* ===== verification/MinimumDistance.v ===== *)
(** * The tree of the shortest distances

    [network-dht-graph-binary-tree/minimum-distance-algorithm.ts]: a peer is put
    at the first free place on the path of its digits. *)

From stdpp Require Import base list strings.
From S2P Require Import Prelude SharedLib DhtTree.

Module MinimumDistance.
Import DhtTree.

Definition empty : tree := Node None [] None None.

Fixpoint insertPeer (peers : list Peer) (fuel : nat) (sibling : option tree) (node : tree) (p : Peer)
    (level : nat) : run tree :=
  match fuel with
  | 0 => None
  | S fuel' =>
    if length (bits p) <? level then mret node
    else
      let '(Node np cs i br) := node in
      let d := direction p level in
      match cs !! index d with
      | None =>
        if collapses peers sibling cs p level then mret (Node (Some p) [] i br)
        else mret (Node np (both d (Node (Some p) [] None None) (default empty (cs !! index (negb d)))) i br)
      | Some c =>
        match t_peer c with
        | Some q =>
          existing ← find_peer peers q;
          c1 ← insertPeer peers fuel' (<[index d := empty]> cs !! 0) empty existing (S level);
          c2 ← insertPeer peers fuel' (<[index d := c1]> cs !! 0) c1 p (S level);
          mret (Node np (<[index d := c2]> cs) i br)
        | None =>
          c' ← insertPeer peers fuel' (cs !! 0) c p (S level);
          mret (Node np (<[index d := c']> cs) i br)
        end
      end
  end.

Fixpoint insertPeers (peers : list Peer) (root : tree) (l : list Peer) : run tree :=
  match l with
  | [] => mret root
  | p :: l' => root' ← insertPeer peers (insert_fuel p) None root p 0; insertPeers peers root' l'
  end.

(** [statics] is the static field [peers]; the result is [null] for no peers. *)
Definition createBinaryTree (statics peers : list Peer) : run (option tree) :=
  match peers with
  | [] => mret None
  | origin :: l =>
    root ← insertPeers statics (Node (Some origin) [] None None) l;
    mret (Some (cleanUpTree root))
  end.

End MinimumDistance.
