(* ===== verification/EqualDistance.v ===== *)
(** * The tree of equal distances

    [network-dht-graph-binary-tree/equal-distance-algorithm.ts], the one that is
    drawn: the peers are put as in [MinimumDistance], with an id for every node,
    and then all moved down to the same level. *)

From stdpp Require Import base list strings.
From S2P Require Import Prelude SharedLib DhtTree.

Module EqualDistance.
Import DhtTree.

(** The static fields. *)
Record Statics := mkStatics { peers_ : list Peer; maxDistance : nat; id_ : nat }.

(** The static [id] is threaded through the calls. [branch] is the index of the
    node in [parentOfNode.children]. *)
Fixpoint insertPeer (peers : list Peer) (fuel : nat) (sibling : option tree) (branch : bool) (node : tree)
    (p : Peer) (level id : nat) : run (tree * nat) :=
  match fuel with
  | 0 => None
  | S fuel' =>
    if length (bits p) <? level then mret (node, id)
    else
      let '(Node np cs i br) := node in
      let d := direction p level in
      match cs !! index d with
      | None =>
        if collapses peers sibling cs p level
        then mret (Node (Some p) [] (Some id) (Some branch), S id)
        else
          let new := Node (Some p) [] (Some id) (Some d) in
          match cs !! index (negb d) with
          | Some other => mret (Node np (both d new other) i br, S id)
          | None =>
            mret (Node np (both d new (Node None [] (Some (S id)) (Some (negb d)))) i br, S (S id))
          end
      | Some c =>
        match t_peer c with
        | Some q =>
          existing ← find_peer peers q;
          let fresh := Node None [] (Some id) (Some d) in
          '(c1, id1) ← insertPeer peers fuel' (<[index d := fresh]> cs !! 0) d fresh existing (S level) (S id);
          '(c2, id2) ← insertPeer peers fuel' (<[index d := c1]> cs !! 0) d c1 p (S level) id1;
          mret (Node np (<[index d := c2]> cs) i br, id2)
        | None =>
          '(c', id') ← insertPeer peers fuel' (cs !! 0) d c p (S level) id;
          mret (Node np (<[index d := c']> cs) i br, id')
        end
      end
  end.

Fixpoint insertPeers (peers : list Peer) (root : tree) (l : list Peer) (id : nat) : run (tree * nat) :=
  match l with
  | [] => mret (root, id)
  | p :: l' =>
    '(root', id') ← insertPeer peers (insert_fuel p) None false root p 0 id;
    insertPeers peers root' l' id'
  end.

(** [findMaxDistance(node, distance)]: the static [maxDistance] afterwards. *)
Fixpoint findMaxDistance (t : tree) (distance max : nat) : nat :=
  match t with
  | Node _ [] _ _ => Nat.max max distance
  | Node _ cs _ _ => fold_left (fun m c => findMaxDistance c (S distance) m) cs max
  end.

(** [makeEqualDistancesForAllNodes(node, parentNode, distance)]: [left] is
    [maxDistance - distance], [branch] the index of the node in its parent. *)
Fixpoint makeEqualDistances (left : nat) (branch : option bool) (t : tree) (distance : nat) : tree :=
  match left with
  | 0 => t
  | S left' =>
    let '(Node p cs i br) := t in
    let go j c := makeEqualDistances left' (Some (bool_decide (j = 1))) c (S distance) in
    match cs with
    | [] =>
      match p with
      | None => t
      | Some q =>
        match bits q !! distance with
        | Some d => Node None [go 0 (Node (Some q) [] None (Some d))] i br
        | None => t
        end
      end
    | _ => Node p (imap go cs) i branch
    end
  end.

(** [removeEmptyNodes(node, parentNode)]: the nodes that are left. *)
Fixpoint removeEmptyNodes (t : tree) : option tree :=
  let '(Node p cs i br) := t in
  match p, cs with
  | None, [] => None
  | _, _ => Some (Node p (omap removeEmptyNodes cs) i br)
  end.

(** The tree before the distances are made equal. *)
Definition buildTree (st : Statics) (origin : Peer) (l : list Peer) : run (tree * nat) :=
  '(root, id') ← insertPeers (peers_ st) (Node (Some origin) [] None None) l (id_ st);
  mret (cleanUpTree root, id').

Definition createBinaryTree (st : Statics) (peers : list Peer) : run (option tree * Statics) :=
  match peers with
  | [] => mret (None, st)
  | origin :: l =>
    '(root, id') ← buildTree st origin l;
    let max := findMaxDistance root 0 (maxDistance st) in
    match removeEmptyNodes (makeEqualDistances max None root 0) with
    | Some root' => mret (Some root', mkStatics (peers_ st) max id')
    | None => raise "Cannot read properties of null (reading 'children')"
    end
  end.

End EqualDistance.
