(* ===== verification/DhtGraph.v ===== *)
(** * The graph of the routing table

    [src/frontend/src/app/features/network/dht-graph]: the component that draws
    the tree of [EqualDistance], and what the two algorithms compute: that they
    agree, end, and show every peer at the level of the others. *)

From Stdlib Require Import Sorting.Sorted.
From stdpp Require Import base list strings.
From S2P Require Import Prelude SharedLib DhtTree MinimumDistance EqualDistance.

Module DhtGraph.
Import DhtTree.

(** ** Component *)

(** The comparator of the peers. *)
Fixpoint compare_bits (a b : list bool) : Z :=
  match a with
  | [] => 0
  | x :: a' =>
    match b with
    | y :: b' => if bool_decide (x = y) then compare_bits a' b' else if x then 1 else -1
    | [] => if x then 1 else -1
    end
  end%Z.

Definition sortPeers (a b : Peer) : Z := compare_bits (bits a) (bits b).

(** [.map((p, i) => ({ ...p, id: i }))] *)
Definition with_ids (peers : list Peer) : list Peer := imap (fun i p => mkPeer (key p) (bits p) (Some i)) peers.

(** The data of the graph. *)
Definition graph_data (st : EqualDistance.Statics) (peers : list Peer) : run (option tree * EqualDistance.Statics) :=
  let newPeers := with_ids (js_sort sortPeers peers) in
  EqualDistance.createBinaryTree (EqualDistance.mkStatics newPeers (EqualDistance.maxDistance st) (EqualDistance.id_ st)) newPeers.

(** The nodes that are drawn, in the order of [descendants()] up to depth: those
    with a peer. *)
Fixpoint shown (t : tree) : list Peer :=
  let '(Node p cs _ _) := t in option_list p ++ concat (shown <$> cs).

Definition isOrigin (peers : list Peer) (p : Peer) : bool :=
  match head peers with
  | Some origin => bool_decide (key p = key origin)
  | None => false
  end.

(** ** The two algorithms agree *)

(** A node without its id and its branch. *)
Fixpoint erase (t : tree) : tree :=
  let '(Node p cs _ _) := t in Node p (erase <$> cs) None None.

Definition erase_run (r : run (tree * nat)) : run tree := '(t, _) ← r; mret (erase t).

Lemma erase_peer t : t_peer (erase t) = t_peer t.
Proof. by destruct t. Qed.

Lemma erase_collapses peers sibling cs p level :
  collapses peers (erase <$> sibling) (erase <$> cs) p level = collapses peers sibling cs p level.
Proof.
  destruct level as [|level]; [done|]. cbn. f_equal.
  destruct sibling as [[[q|] [|c cs'] i br]|]; cbn; try done. by destruct cs.
Qed.

Lemma erase_both d x y : erase <$> both d x y = both d (erase x) (erase y).
Proof. by destruct d. Qed.

Lemma erase_cleanUp t : cleanUpTree (erase t) = erase (cleanUpTree t).
Proof.
  revert t. fix IH 1. intros [p cs i br]. destruct cs as [|a [|b [|c cs]]];
    [clear IH; done|clear IH; done| |clear IH; done].
  change (cleanUpTree (Node p [erase a; erase b] None None) = erase (cleanUpTree (Node p [a; b] i br))).
  cbn [cleanUpTree]. rewrite !erase_peer.
  pose proof (IH a) as Ha. pose proof (IH b) as Hb. clear IH.
  destruct (t_peer a), (t_peer b); cbn; by rewrite ?Ha, ?Hb.
Qed.

Lemma insert_erase peers fuel sibling branch node p level id :
  MinimumDistance.insertPeer peers fuel (erase <$> sibling) (erase node) p level =
  erase_run (EqualDistance.insertPeer peers fuel sibling branch node p level id).
Proof.
  revert sibling branch node p level id. induction fuel as [|fuel IH]; intros; [done|].
  destruct node as [np cs i br]. cbn [MinimumDistance.insertPeer EqualDistance.insertPeer erase].
  destruct (length (bits p) <? level); [done|]. set (d := direction p level).
  rewrite list_lookup_fmap. destruct (cs !! index d) as [c|] eqn:Hc; cbn [fmap option_fmap option_map].
  - rewrite erase_peer. destruct (t_peer c) as [q|].
    + unfold find_peer. destruct (List.find _ peers) as [existing|]; [|done]. cbn [mbind run_bind mret run_ret].
      set (fresh := Node None [] (Some id) (Some d)).
      pose proof (IH (<[index d:=fresh]> cs !! 0) d fresh existing (S level) (S id)) as H1.
      rewrite <- list_lookup_fmap, list_fmap_insert in H1.
      change (erase fresh) with MinimumDistance.empty in H1. rewrite H1.
      destruct (EqualDistance.insertPeer _ _ _ _ fresh _ _ _) as [[[c1 id1]|e]|]; [|done..].
      cbn [erase_run mbind run_bind mret run_ret].
      pose proof (IH (<[index d:=c1]> cs !! 0) d c1 p (S level) id1) as H2.
      rewrite <- list_lookup_fmap, list_fmap_insert in H2. rewrite H2.
      destruct (EqualDistance.insertPeer _ _ _ _ c1 _ _ _) as [[[c2 id2]|e]|]; [|done..].
      cbn. by rewrite list_fmap_insert.
    + pose proof (IH (cs !! 0) d c p (S level) id) as H1. rewrite <- list_lookup_fmap in H1. rewrite H1.
      destruct (EqualDistance.insertPeer _ _ _ _ c _ _ _) as [[[c' id']|e]|]; [|done..].
      cbn. by rewrite list_fmap_insert.
  - rewrite erase_collapses. destruct (collapses _ _ _ _ _); [done|].
    rewrite list_lookup_fmap. destruct (cs !! index (negb d)); cbn; by rewrite erase_both.
Qed.

Lemma insertPeers_erase peers root l id :
  MinimumDistance.insertPeers peers (erase root) l = erase_run (EqualDistance.insertPeers peers root l id).
Proof.
  revert root id. induction l as [|p l IH]; intros root id; [done|].
  cbn [MinimumDistance.insertPeers EqualDistance.insertPeers].
  pose proof (insert_erase peers (insert_fuel p) None false root p 0 id) as H.
  cbn [fmap option_fmap option_map] in H. rewrite H.
  destruct (EqualDistance.insertPeer _ _ _ _ _ _ _ _) as [[[root' id']|e]|]; [|done..]. apply IH.
Qed.

(** The tree of the minimum distances is, without ids and branches, the one the
    other algorithm has before it makes the distances equal. *)
Lemma same_before_equal st origin l :
  MinimumDistance.createBinaryTree (EqualDistance.peers_ st) (origin :: l) =
  ('(t, _) ← EqualDistance.buildTree st origin l; mret (Some (erase t))).
Proof.
  unfold MinimumDistance.createBinaryTree, EqualDistance.buildTree.
  change (Node (Some origin) [] None None) with (erase (Node (Some origin) [] None None)) at 1.
  rewrite (insertPeers_erase _ _ _ (EqualDistance.id_ st)).
  destruct (EqualDistance.insertPeers _ _ _ _) as [[[root id']|e]|]; [|done..].
  cbn. by rewrite erase_cleanUp.
Qed.

(** The tree without ids and branches, without the nodes that have no peer below
    them, and with a node that only leads to another one replaced by that one. *)
Fixpoint compact (t : tree) : option tree :=
  let '(Node p cs _ _) := t in
  match p, omap compact cs with
  | None, [] => None
  | None, [c] => Some c
  | _, cs' => Some (Node p cs' None None)
  end.

Lemma tree_ind' (P : tree -> Prop) :
  (forall p cs i br, Forall P cs -> P (Node p cs i br)) -> forall t, P t.
Proof.
  intros H. fix IH 1. intros [p cs i br]. apply H. induction cs as [|c cs IHcs]; constructor; [apply IH|apply IHcs].
Qed.

Lemma compact_erase t : compact (erase t) = compact t.
Proof.
  induction t as [p cs i br IH] using tree_ind'. cbn [erase compact].
  assert (omap compact (erase <$> cs) = omap compact cs) as ->; [|done].
  induction IH as [|c cs Hc _ IHcs]; [done|]. cbn. by rewrite Hc, IHcs.
Qed.

Lemma compact_remove t : EqualDistance.removeEmptyNodes t ≫= compact = compact t.
Proof.
  induction t as [p cs i br IH] using tree_ind'.
  assert (Hcs : omap compact (omap EqualDistance.removeEmptyNodes cs) = omap compact cs).
  { clear p i br. induction IH as [|c cs Hc _ IHcs]; [done|]. cbn.
    destruct (EqualDistance.removeEmptyNodes c) as [c'|]; cbn in Hc |- *; rewrite <- Hc, <- IHcs; done. }
  destruct p as [q|], cs as [|c cs]; try done; cbn [EqualDistance.removeEmptyNodes mbind option_bind compact];
    by rewrite Hcs.
Qed.

Lemma compact_equal left branch t distance :
  compact (EqualDistance.makeEqualDistances left branch t distance) = compact t.
Proof.
  revert branch t distance. induction left as [|left IH]; intros branch [p cs i br] distance; [done|].
  cbn [EqualDistance.makeEqualDistances]. destruct cs as [|c cs].
  - destruct p as [q|]; [|done]. destruct (bits q !! distance); [|done].
    cbn [compact omap list_omap]. by rewrite IH.
  - generalize (c :: cs) as l. intros l. cbn [compact].
    set (go := fun (j : nat) (c : tree) => _). replace (omap compact (imap go l)) with (omap compact l); [done|].
    assert (Hgo : forall j c, compact (go j c) = compact c) by (intros; apply IH). clearbody go. clear IH.
    revert go Hgo. induction l as [|x l IHl]; intros go Hgo; [done|]. rewrite imap_cons. cbn. rewrite Hgo.
    by rewrite <- (IHl (go ∘ S)) by (intros; apply Hgo).
Qed.

(** ** Termination *)

Lemma elem_of_shown q np cs i br :
  q ∈ shown (Node np cs i br) <-> np = Some q \/ exists c, c ∈ cs /\ q ∈ shown c.
Proof.
  cbn. rewrite elem_of_app, elem_of_lconcat. split.
  - intros [Hq|(c & (t & -> & Ht)%list_elem_of_fmap & Hq)]; [left|right; by exists t].
    destruct np; cbn in Hq; [|by apply not_elem_of_nil in Hq]. apply list_elem_of_singleton in Hq. by subst.
  - intros [->|(c & Hc & Hq)]; [left; cbn; left|right]. exists (shown c). split; [|done].
    apply list_elem_of_fmap. by exists c.
Qed.

Lemma elem_of_both d x y c : c ∈ both d x y <-> c = x \/ c = y.
Proof. destruct d; cbn; rewrite !elem_of_cons, elem_of_nil; tauto. Qed.

Section Terminates.
Context (peers : list Peer).

(** Every peer in the tree is one of the list. *)
Definition known (t : tree) : Prop := forall q, q ∈ shown t -> q ∈ peers.

Lemma find_peer_known q : q ∈ peers -> exists p, find_peer peers q = mret p /\ p ∈ peers.
Proof.
  intros Hq. unfold find_peer. destruct (find_is_Some (fun p => bool_decide (bits p = bits q)) peers q Hq)
    as [p Hp]; [by apply bool_decide_eq_true|].
  exists p. rewrite Hp. split; [done|]. by apply find_Some_elem in Hp as [? _].
Qed.

Lemma known_child np cs i br d c : known (Node np cs i br) -> cs !! d = Some c -> known c.
Proof.
  intros Hk Hc q Hq. apply Hk, elem_of_shown. right. exists c. split; [|done].
  by eapply list_elem_of_lookup_2.
Qed.

Lemma known_insert np cs i br d c : known (Node np cs i br) -> known c -> known (Node np (<[d:=c]> cs) i br).
Proof.
  intros Hk Hc q [->|(c' & Hc' & Hq)]%elem_of_shown; [apply Hk, elem_of_shown; by left|].
  apply list_elem_of_lookup in Hc' as [j Hj].
  destruct (decide (d = j)) as [<-|Hdj].
  - destruct (decide (d < length cs)) as [Hlt|Hge].
    + rewrite list_lookup_insert_eq in Hj by done. injection Hj as <-. by apply Hc.
    + rewrite list_insert_ge in Hj by lia. apply lookup_lt_Some in Hj. lia.
  - rewrite list_lookup_insert_ne in Hj by done. apply Hk, elem_of_shown. right. exists c'.
    split; [by eapply list_elem_of_lookup_2|done].
Qed.

Lemma known_leaf p i br : p ∈ peers -> known (Node (Some p) [] i br).
Proof. intros Hp q [[= ->]|(c & Hc & _)]%elem_of_shown; [done|]. by apply not_elem_of_nil in Hc. Qed.

Lemma known_empty i br : known (Node None [] i br).
Proof. intros q Hq. by apply not_elem_of_nil in Hq. Qed.

Lemma known_both np i br d x y cs :
  known (Node np cs i br) -> known x -> known y -> known (Node np (both d x y) i br).
Proof.
  intros Hk Hx Hy q [->|(c & [->| ->]%elem_of_both & Hq)]%elem_of_shown; [|by apply Hx|by apply Hy].
  apply Hk, elem_of_shown. by left.
Qed.

#[local] Hint Resolve known_leaf known_empty known_insert known_both known_child : core.

(** A node without children takes a peer without a further call. *)
Lemma insert_childless fuel sibling branch np i br p level id :
  p ∈ peers -> known (Node np [] i br) -> exists t' id',
  EqualDistance.insertPeer peers (S fuel) sibling branch (Node np [] i br) p level id = mret (t', id') /\ known t'.
Proof.
  intros Hp Hk. cbn [EqualDistance.insertPeer]. destruct (length (bits p) <? level); [by eauto|].
  rewrite lookup_nil. destruct (collapses _ _ _ _ _); [by eauto|].
  rewrite lookup_nil. eexists _, _. split; [done|]. by apply known_both with (cs := []); auto.
Qed.

Lemma insert_terminates fuel sibling branch node p level id :
  S (length (bits p)) - level < fuel -> p ∈ peers -> known node -> exists t' id',
  EqualDistance.insertPeer peers fuel sibling branch node p level id = mret (t', id') /\ known t'.
Proof.
  revert sibling branch node p level id. induction fuel as [|fuel IH]; intros sibling branch node p level id Hf Hp Hk; [lia|].
  destruct node as [np cs i br]. cbn [EqualDistance.insertPeer].
  destruct (Nat.ltb_spec (length (bits p)) level) as [|Hl]; [by eauto|].
  destruct fuel as [|fuel]; [lia|].
  destruct (cs !! index (direction p level)) as [c|] eqn:Hc.
  - assert (Hkc : known c) by eauto. destruct (t_peer c) as [q|] eqn:Hq.
    + destruct (find_peer_known q) as (existing & Hex & Hexp).
      { apply Hkc. destruct c as [cp ccs ci cbr]. apply elem_of_shown. by left. }
      rewrite Hex. cbn [mbind run_bind mret run_ret].
      destruct (insert_childless fuel (<[index (direction p level):=Node None [] (Some id) (Some (direction p level))]> cs !! 0)
        (direction p level) None (Some id) (Some (direction p level)) existing (S level) (S id) Hexp)
        as (c1 & id1 & Hc1 & Hk1); [done|].
      rewrite Hc1. cbn [mbind run_bind mret run_ret].
      destruct (IH (<[index (direction p level):=c1]> cs !! 0) (direction p level) c1 p (S level) id1)
        as (c2 & id2 & Hc2 & Hk2); [lia|done|done|].
      rewrite Hc2. cbn. eauto.
    + destruct (IH (cs !! 0) (direction p level) c p (S level) id) as (c' & id' & Hc' & Hk'); [lia|done|done|].
      rewrite Hc'. cbn. eauto.
  - destruct (collapses _ _ _ _ _); [by eauto|].
    destruct (cs !! index (negb (direction p level))) eqn:Ho; eexists _, _; (split; [done|]); eauto.
Qed.

Lemma insert_root_peer fuel sibling branch node p id t' id' :
  EqualDistance.insertPeer peers fuel sibling branch node p 0 id = mret (t', id') -> t_peer t' = t_peer node.
Proof.
  destruct fuel as [|fuel]; [done|]. destruct node as [np cs i br]. cbn [EqualDistance.insertPeer collapses].
  destruct (length (bits p) <? 0); [by intros [= <- _]|].
  destruct (cs !! index (direction p 0)) as [c|].
  - destruct (t_peer c).
    + unfold find_peer. destruct (List.find _ _); [|done]. cbn [mbind run_bind mret run_ret].
      destruct (EqualDistance.insertPeer _ _ _ _ _ _ _ _) as [[[c1 id1]|]|]; [|done..]. cbn [mbind run_bind].
      destruct (EqualDistance.insertPeer _ _ _ _ c1 _ _ _) as [[[c2 id2]|]|]; [|done..]. by intros [= <- _].
    + destruct (EqualDistance.insertPeer _ _ _ _ _ _ _ _) as [[[c1 id1]|]|]; [|done..]. by intros [= <- _].
  - destruct (cs !! index (negb (direction p 0))); by intros [= <- _].
Qed.

Lemma insertPeers_terminates root l id :
  known root -> (forall p, p ∈ l -> p ∈ peers) -> exists root' id',
  EqualDistance.insertPeers peers root l id = mret (root', id') /\ known root' /\ t_peer root' = t_peer root.
Proof.
  revert root id. induction l as [|p l IH]; intros root id Hk Hl; [by eauto|].
  cbn [EqualDistance.insertPeers].
  destruct (insert_terminates (insert_fuel p) None false root p 0 id) as (root1 & id1 & H1 & Hk1).
  - unfold insert_fuel. lia.
  - apply Hl. left.
  - done.
  - rewrite H1. cbn [mbind run_bind mret run_ret]. rewrite <- (insert_root_peer _ _ _ _ _ _ _ _ H1).
    apply IH; [done|]. intros q Hq. apply Hl. by right.
Qed.
End Terminates.

(** A node that is not removed. *)
Definition kept (t : tree) : Prop := t_peer t <> None \/ t_children t <> [].

Lemma cleanUp_kept t : t_peer t <> None -> t_peer (cleanUpTree t) <> None.
Proof.
  destruct t as [p [|a [|b [|c cs]]] i br]; try done. cbn. by destruct (t_peer a), (t_peer b).
Qed.

Lemma equal_kept left branch t distance : kept t -> kept (EqualDistance.makeEqualDistances left branch t distance).
Proof.
  destruct left as [|left]; [done|]. destruct t as [p cs i br]. cbn.
  destruct cs as [|c cs]; [|by right]. destruct p as [q|]; [|done].
  destruct (bits q !! distance); [by right|done].
Qed.

Lemma remove_kept t : kept t -> is_Some (EqualDistance.removeEmptyNodes t).
Proof. destruct t as [[p|] [|c cs] i br]; intros [H|H]; done. Qed.

Lemma insertPeers_root_peer peers root l id root' id' :
  EqualDistance.insertPeers peers root l id = mret (root', id') -> t_peer root' = t_peer root.
Proof.
  revert root id. induction l as [|p l IH]; intros root id; [by intros [= <- _]|].
  cbn [EqualDistance.insertPeers].
  destruct (EqualDistance.insertPeer _ _ _ _ _ _ _ _) as [[[root1 id1]|e]|] eqn:E; [|done..].
  intros ->%IH. by eapply insert_root_peer.
Qed.

(** What a run gives up to ids, branches, empty nodes and nodes with one child. *)
Definition compact_run (r : run (option tree)) : run (option tree) := t ← r; mret (t ≫= compact).

(** C6: For any peers the two algorithms give the same tree, up to the ids and the
    branches of the nodes, the nodes without a peer below them and the chains of
    nodes with one child by which the second algorithm moves its peers down; and
    when one of them fails, the other fails with the same error. *)
Theorem algorithms_agree st peers :
  compact_run (MinimumDistance.createBinaryTree (EqualDistance.peers_ st) peers) =
  compact_run ('(t, _) ← EqualDistance.createBinaryTree st peers; mret t).
Proof.
  destruct peers as [|origin l]; [done|]. rewrite same_before_equal. cbn [EqualDistance.createBinaryTree].
  destruct (EqualDistance.buildTree st origin l) as [[[root id']|e]|] eqn:E; [|done..].
  assert (Hk : t_peer root <> None).
  { unfold EqualDistance.buildTree in E.
    destruct (EqualDistance.insertPeers _ _ _ _) as [[[r i]|e]|] eqn:Hr; [|done..].
    injection E as <- _. apply cleanUp_kept. by rewrite (insertPeers_root_peer _ _ _ _ _ _ Hr). }
  cbn [mbind run_bind mret run_ret]. set (max := EqualDistance.findMaxDistance _ _ _).
  destruct (remove_kept (EqualDistance.makeEqualDistances max None root 0)) as [t Ht];
    [apply equal_kept; by left|].
  rewrite Ht. unfold compact_run. cbn [mbind run_bind mret run_ret option_bind].
  by rewrite compact_erase, <- (compact_equal max None root 0), <- compact_remove, Ht.
Qed.

(** C13: for any list of peers, with any distances, equal ones and ones of
    different lengths included, the construction of the tree ends and does not
    throw; the fuel of each insertion is enough. *)
Theorem createBinaryTree_terminates st peers :
  (forall p, p ∈ peers -> p ∈ EqualDistance.peers_ st) ->
  exists t st', EqualDistance.createBinaryTree st peers = mret (t, st').
Proof.
  intros Hp. destruct peers as [|origin l]; [by eexists _, _|].
  unfold EqualDistance.createBinaryTree, EqualDistance.buildTree.
  destruct (insertPeers_terminates (EqualDistance.peers_ st) (Node (Some origin) [] None None) l (EqualDistance.id_ st))
    as (root & id' & Hr & _ & Hpeer).
  - apply known_leaf, Hp. left.
  - intros p Hin. apply Hp. by right.
  - rewrite Hr. cbn [mbind run_bind mret run_ret].
    edestruct (remove_kept (EqualDistance.makeEqualDistances
      (EqualDistance.findMaxDistance (cleanUpTree root) 0 (EqualDistance.maxDistance st)) None (cleanUpTree root) 0)) as [t Ht].
    { apply equal_kept. left. apply cleanUp_kept. by rewrite Hpeer. }
    rewrite Ht. by eexists _, _.
Qed.

(** ** No peer is lost *)

(** The peers at the leaves. *)
Fixpoint content (t : tree) : list Peer :=
  match t with
  | Node p [] _ _ => option_list p
  | Node _ cs _ _ => concat (content <$> cs)
  end.

Definition contents (cs : list tree) : list Peer := concat (content <$> cs).

Lemma content_children p cs i br : cs <> [] -> content (Node p cs i br) = contents cs.
Proof. by destruct cs. Qed.

Lemma contents_two a b : contents [a; b] = content a ++ content b.
Proof. unfold contents. cbn. by rewrite app_nil_r. Qed.

(** The digits follow the path from the root. *)
Definition agree (path b : list bool) : Prop := forall i d, path !! i = Some d -> nth i b true = d.

(** A node of the tree at a path: an empty one, a peer on this path, or an inner
    node without a peer, which has one below it; to the left of a peer there is
    no inner node. *)
Inductive wf : list bool -> tree -> Prop :=
| wf_empty path i br : wf path (Node None [] i br)
| wf_leaf path p i br : agree path (bits p) -> wf path (Node (Some p) [] i br)
| wf_inner path a b i br : wf_pair path a b -> wf path (Node None [a; b] i br)
with wf_pair : list bool -> tree -> tree -> Prop :=
| wf_two path a b :
  wf (path ++ [false]) a -> wf (path ++ [true]) b -> content a ++ content b <> [] ->
  (t_peer b <> None -> t_children a = []) -> wf_pair path a b.

Scheme wf_mut := Minimality for wf Sort Prop
  with wf_pair_mut := Minimality for wf_pair Sort Prop.

Definition wf_children (path : list bool) (cs : list tree) : Prop :=
  cs = [] \/ exists a b, cs = [a; b] /\ wf_pair path a b.

Lemma agree_app path d b : agree (path ++ [d]) b <-> agree path b /\ nth (length path) b true = d.
Proof.
  unfold agree. split.
  - intros H. split.
    + intros i x Hi. apply H. by apply lookup_app_l_Some.
    + apply H. by rewrite lookup_app_r, Nat.sub_diag by lia.
  - intros [H1 H2] i x [Hi|[Hlen Hi]]%lookup_app_Some; [by apply H1|].
    assert (i = length path) as ->; [|].
    + apply lookup_lt_Some in Hi. cbn in Hi. lia.
    + rewrite Nat.sub_diag in Hi. injection Hi as <-. done.
Qed.

Lemma wf_agree path t q : wf path t -> q ∈ content t -> agree path (bits q).
Proof.
  intros Hwf. revert path t Hwf q.
  apply (wf_mut (fun path t => forall q, q ∈ content t -> agree path (bits q))
    (fun path a b => forall q, q ∈ content a ++ content b -> agree path (bits q))).
  - intros path i br q Hq. by apply not_elem_of_nil in Hq.
  - intros path p i br Ha q Hq. cbn in Hq. apply list_elem_of_singleton in Hq. by subst.
  - intros path a b i br _ IH q Hq. apply IH. by rewrite <- contents_two.
  - intros path a b _ IHa _ IHb _ _ q [Hq|Hq]%elem_of_app; [apply IHa in Hq|apply IHb in Hq];
      by apply agree_app in Hq as [? _].
Qed.

Lemma wf_no_content path t : wf path t -> content t = [] -> t_peer t = None.
Proof. by destruct 1. Qed.

(** The first digit in which two distances differ is smaller in the first. *)
Definition lt_bits (a b : list bool) : Prop :=
  exists n, a !! n = Some false /\ b !! n = Some true /\ forall i, i < n -> nth i a true = nth i b true.

Lemma lookup_nth (b : list bool) i x : b !! i = Some x -> nth i b true = x.
Proof. intros H. by rewrite nth_lookup, H. Qed.

Lemma lt_split path a b :
  agree path a -> agree path b -> lt_bits a b ->
  length path < length a /\ (nth (length path) b true = false -> nth (length path) a true = false).
Proof.
  intros Ha Hb (n & Han & Hbn & Heq). pose proof (lookup_nth _ _ _ Han) as Ha'.
  pose proof (lookup_nth _ _ _ Hbn) as Hb'.
  destruct (decide (n < length path)) as [Hn|Hn].
  - apply lookup_lt_is_Some in Hn as [d Hd]. rewrite (Ha _ _ Hd) in Ha'. rewrite (Hb _ _ Hd) in Hb'. congruence.
  - split; [apply lookup_lt_Some in Han; lia|]. intros Hf.
    destruct (decide (n = length path)) as [->|]; [congruence|]. rewrite Heq by lia. done.
Qed.

Lemma agree_take path a b :
  agree path a -> agree path b -> length path <= length a -> length path <= length b ->
  take (length path) a = take (length path) b.
Proof.
  intros Ha Hb Hla Hlb. apply list_eq. intros i.
  destruct (decide (i < length path)) as [Hi|Hi]; [|by rewrite !lookup_take_ge by lia].
  rewrite !lookup_take_lt by done. apply lookup_lt_is_Some in Hi as Hd. destruct Hd as [d Hd].
  destruct (lookup_lt_is_Some_2 a i) as [x Hx]; [lia|]. destruct (lookup_lt_is_Some_2 b i) as [y Hy]; [lia|].
  rewrite Hx, Hy. apply lookup_nth in Hx, Hy. specialize (Ha _ _ Hd). specialize (Hb _ _ Hd). congruence.
Qed.

Lemma both_wf path p i br i' br' :
  agree path (bits p) ->
  let cs := both (direction p (length path)) (Node (Some p) [] i br) (Node None [] i' br') in
  wf_children path cs /\ cs <> [] /\ contents cs = [p].
Proof.
  intros Ha. cbn zeta.
  assert (Hd : agree (path ++ [direction p (length path)]) (bits p)) by (by apply agree_app).
  destruct (direction p (length path)); cbn [both].
  - split; [|done]. right. eexists _, _. split; [done|]. constructor; [constructor|by constructor|done|done].
  - split; [|done]. right. eexists _, _. split; [done|]. constructor; [by constructor|constructor|done|done].
Qed.

Section Insert.
Context (before after : list Peer) (peer : Peer) (L : nat).
Let peers : list Peer := before ++ peer :: after.
Hypothesis same_length : forall q, q ∈ peers -> length (bits q) = L.
Hypothesis distinct : NoDup (bits <$> peers).
Hypothesis in_order : forall q, q ∈ before -> lt_bits (bits q) (bits peer).

Lemma peer_known : peer ∈ peers.
Proof. apply elem_of_app. right. left. Qed.

Lemma before_known q : q ∈ before -> q ∈ peers.
Proof. intros Hq. apply elem_of_app. by left. Qed.

Lemma find_peer_exact q : q ∈ peers -> find_peer peers q = mret q.
Proof.
  intros Hq. unfold find_peer.
  destruct (find_is_Some (fun p => bool_decide (bits p = bits q)) peers q Hq) as [p Hp];
    [by apply bool_decide_eq_true|].
  rewrite Hp. f_equal. apply find_Some_elem in Hp as [Hin Hb%bool_decide_eq_true].
  apply list_elem_of_lookup in Hq as [i Hi], Hin as [j Hj].
  enough (i = j) by (f_equal; congruence).
  apply (NoDup_lookup _ i j (bits q) distinct); rewrite list_lookup_fmap; [by rewrite Hi|by rewrite Hj, <- Hb].
Qed.

Lemma peer_is_later q : q ∈ before -> peer ∈ later_peers peers q.
Proof.
  intros Hq. unfold later_peers, peers. rewrite findIndex_app.
  destruct (findIndex (fun p => bool_decide (p = q)) before) as [i|] eqn:Hi.
  - apply findIndex_lt in Hi. rewrite drop_app_le by lia. apply elem_of_app. right. left.
  - rewrite findIndex_None in Hi. specialize (Hi q Hq). by rewrite bool_decide_eq_false in Hi.
Qed.

(** A peer that makes room does not take the place of the node: the one that
    comes shares its digits so far. *)
Lemma existing_stays sibling cs path q :
  q ∈ before -> agree path (bits q) -> agree path (bits peer) -> length path <= L ->
  collapses peers sibling cs q (S (length path)) = false.
Proof.
  intros Hq Haq Hap Hl. cbn. apply andb_false_iff. right.
  destruct sibling as [[[q'|] [|] ? ?]|]; try done. apply andb_false_iff. right.
  apply not_true_iff_false. intros Hall. rewrite forallb_forall in Hall.
  specialize (Hall peer). rewrite <- list_elem_of_In in Hall.
  specialize (Hall (peer_is_later q Hq)). apply negb_true_iff in Hall.
  unfold same_prefix in Hall. rewrite bool_decide_eq_false in Hall. apply Hall.
  apply agree_take; [done|done| |]; rewrite same_length by (apply peer_known || by apply before_known); done.
Qed.

Lemma insert_existing fuel sibling path d i br q id :
  q ∈ before -> agree (path ++ [d]) (bits q) -> agree path (bits peer) -> length path < L ->
  exists cs1 id1, EqualDistance.insertPeer peers (S fuel) sibling d (Node None [] i br) q (S (length path)) id
    = mret (Node None cs1 i br, id1) /\
  wf_children (path ++ [d]) cs1 /\ cs1 <> [] /\ contents cs1 = [q].
Proof.
  intros Hq Haq Hap Hl. pose proof Haq as [Haq' _]%agree_app. cbn [EqualDistance.insertPeer].
  rewrite same_length by (by apply before_known). destruct (Nat.ltb_spec L (S (length path))); [lia|].
  rewrite !lookup_nil, existing_stays by (done || lia).
  eexists _, _. split; [done|].
  replace (S (length path)) with (length (path ++ [d])) by (rewrite length_app; cbn; lia).
  by apply both_wf.
Qed.

(** What an insertion gives: the node with more children, or, when it had none
    and the condition holds, a leaf. *)
Definition inserted (sibling : option tree) (path : list bool) (np : option Peer) (cs : list tree)
    (i : option nat) (br : option bool) (t' : tree) : Prop :=
  (exists cs', t' = Node np cs' i br /\ cs' <> [] /\ wf_children path cs' /\
     contents cs' ≡ₚ peer :: contents cs) \/
  (cs = [] /\ collapses peers sibling [] peer (length path) = true /\
   exists i' br', t' = Node (Some peer) [] i' br').

Lemma contents_before path cs q :
  wf_children path cs -> q ∈ contents cs -> agree path (bits q).
Proof.
  intros [->|(a & b & -> & Hw)] Hq; [by apply not_elem_of_nil in Hq|].
  apply (wf_agree path (Node None [a; b] None None)); [by constructor|done].
Qed.

(** The children after the one in the direction of the peer is replaced by [c],
    which holds the peer. *)
Lemma replace_child path a b d c :
  wf_pair path a b -> agree path (bits peer) -> direction peer (length path) = d ->
  (forall q, q ∈ contents [a; b] -> q ∈ before) ->
  wf (path ++ [d]) c -> peer ∈ content c -> (d = true -> t_peer c <> None -> t_children a = []) ->
  wf_children path (<[index d := c]> [a; b]).
Proof.
  intros Hab Hap Hd Hin Hc Hpc Hleft. inversion Hab as [? ? ? Ha Hb _ Hlr]; subst.
  right. destruct (direction peer (length path)) eqn:Hd; cbn.
  - exists a, c. split; [done|]. constructor; [done|done| |auto].
    intros [_ H]%app_nil. rewrite H in Hpc. by apply not_elem_of_nil in Hpc.
  - exists c, b. split; [done|]. constructor; [done|done| |].
    + intros [H _]%app_nil. rewrite H in Hpc. by apply not_elem_of_nil in Hpc.
    + intros Hbp. exfalso. apply Hbp. apply (wf_no_content _ _ Hb).
      destruct (content b) as [|q l] eqn:Hq; [done|]. exfalso.
      assert (Hqb : q ∈ content b) by (rewrite Hq; left).
      pose proof (wf_agree _ _ _ Hb Hqb) as [Haq Hbit]%agree_app.
      assert (Hqbef : q ∈ before) by (apply Hin; rewrite contents_two; apply elem_of_app; by right).
      destruct (lt_split path (bits q) (bits peer) Haq Hap (in_order q Hqbef)) as [_ Hf].
      unfold direction in Hd. specialize (Hf Hd). congruence.
Qed.

Lemma contents_replace a b d c :
  content c ≡ₚ peer :: content (if d : bool then b else a) ->
  contents (<[index d := c]> [a; b]) ≡ₚ peer :: contents [a; b].
Proof.
  intros Hc. destruct d; cbn [index insert list_insert]; rewrite !contents_two, Hc; [|done].
  by rewrite <- Permutation_middle.
Qed.

Lemma wf_node path cs i br : wf path (Node None cs i br) <-> wf_children path cs.
Proof.
  split.
  - inversion 1; subst; [by left|right; eauto].
  - intros [->|(a & b & -> & Hab)]; by constructor.
Qed.

Lemma content_none cs i br : content (Node None cs i br) = contents cs.
Proof. by destruct cs. Qed.

Lemma collapses_left ps a cs p n : collapses ps (Some a) cs p (S n) = true -> t_children a = [].
Proof. cbn. rewrite andb_true_iff. intros [_ H]. by destruct a as [[|] [|] ? ?]. Qed.

(** A distance that has been walked to its end meets no other peer. *)
Lemma walked_to_end path cs :
  wf_children path cs -> agree path (bits peer) -> (forall q, q ∈ contents cs -> q ∈ before) ->
  cs <> [] -> length path < L.
Proof.
  intros Hw Hap Hin Hne. pose proof Hw as [->|(a & b & -> & Hab)]; [done|].
  inversion Hab as [? ? ? _ _ Hc _]; subst.
  destruct (content a ++ content b) as [|q l] eqn:Hq; [done|].
  assert (Hqc : q ∈ contents [a; b]) by (rewrite contents_two, Hq; left).
  specialize (Hin q Hqc).
  destruct (lt_split path (bits q) (bits peer)) as [Hlt _].
  - by eapply contents_before.
  - done.
  - by apply in_order.
  - by rewrite same_length in Hlt by (by apply before_known).
Qed.

Lemma insert_spec fuel : forall sibling branch np cs i br path id,
  wf_children path cs -> length path <= L -> agree path (bits peer) ->
  (forall q, q ∈ contents cs -> q ∈ before) -> S L - length path < fuel ->
  exists t' id', EqualDistance.insertPeer peers fuel sibling branch (Node np cs i br) peer (length path) id
    = mret (t', id') /\ inserted sibling path np cs i br t'.
Proof.
  induction fuel as [|fuel IH]; intros sibling branch np cs i br path id Hw Hl Hap Hin Hf; [lia|].
  cbn [EqualDistance.insertPeer]. rewrite same_length by apply peer_known.
  destruct (Nat.ltb_spec L (length path)); [lia|].
  pose proof Hw as [->|(a & b & -> & Hab)].
  - rewrite !lookup_nil. destruct (collapses peers sibling [] peer (length path)) eqn:Hcol.
    + eexists _, _. split; [done|]. right. eauto.
    + eexists _, _. split; [done|]. left. eexists. split; [done|].
      destruct (both_wf path peer (Some id) (Some (direction peer (length path))) (Some (S id))
        (Some (negb (direction peer (length path)))) Hap) as (H1 & H2 & H3).
      split; [done|]. split; [done|]. by rewrite H3.
  - pose proof (walked_to_end path [a; b] Hw Hap Hin ltac:(done)) as Hlt.
    set (d := direction peer (length path)) in *.
    assert (Hap' : agree (path ++ [d]) (bits peer)) by (by apply agree_app).
    assert (Hlen : length (path ++ [d]) = S (length path)) by (rewrite length_app; cbn; lia).
    set (c := if d then b else a).
    assert (Hc : [a; b] !! index d = Some c) by (by destruct d).
    assert (Hwc : wf (path ++ [d]) c) by (inversion Hab; subst; by destruct d).
    assert (Hinc : forall q, q ∈ content c -> q ∈ before).
    { intros q Hq. apply Hin. rewrite contents_two. apply elem_of_app. destruct d; auto. }
    rewrite Hc.
    assert (Hstep : forall c', wf (path ++ [d]) c' -> content c' ≡ₚ peer :: content c ->
      (d = true -> t_peer c' <> None -> t_children a = []) ->
      inserted sibling path np [a; b] i br (Node np (<[index d:=c']> [a; b]) i br)).
    { intros c' Hwc' Hcc' Hleft. left. eexists. split; [done|]. split; [by destruct d|]. split.
      - apply replace_child; try done. rewrite Hcc'. left.
      - by apply contents_replace. }
    destruct c as [cp ccs ci cbr] eqn:Ec. destruct cp as [q|]; cbn [t_peer].
    + inversion Hwc as [|? ? ? ? Haq|]; subst.
      assert (Hq : q ∈ before) by (apply Hinc; left).
      rewrite find_peer_exact by (by apply before_known). cbn [mbind run_bind mret run_ret].
      destruct fuel as [|fuel]; [lia|].
      edestruct (insert_existing fuel) as (cs1 & id1 & H1 & Hw1 & Hne1 & Hc1); [done..|]. rewrite H1.
      cbn [mbind run_bind mret run_ret]. rewrite <- Hlen.
      edestruct (IH (<[index d:=Node None cs1 (Some id) (Some d)]> [a; b] !! 0) d None cs1 (Some id) (Some d)
        (path ++ [d]) id1) as (c2 & id2 & H2 & Hins); [done|lia|done| |lia|].
      { rewrite Hc1. by intros q' ->%list_elem_of_singleton. }
      rewrite H2. eexists _, _. split; [done|].
      destruct Hins as [(cs2 & -> & Hne2 & Hw2 & Hc2)|(-> & _)]; [|done].
      apply Hstep; [by apply wf_node| |done]. by rewrite content_none, Hc2, Hc1.
    + apply wf_node in Hwc. rewrite <- Hlen.
      edestruct (IH ([a; b] !! 0) d None ccs ci cbr (path ++ [d]) id) as (c' & id' & H1 & Hins);
        [done|lia|done| |lia|].
      { intros q Hq. apply Hinc. by rewrite content_none. }
      rewrite H1. eexists _, _. split; [done|].
      destruct Hins as [(cs' & -> & Hne' & Hw' & Hc')|(-> & Hcol & i' & br' & ->)]; apply Hstep.
      * by apply wf_node.
      * by rewrite !content_none.
      * done.
      * by constructor.
      * done.
      * intros _ _. rewrite Hlen in Hcol. by eapply collapses_left.
Qed.
End Insert.

Lemma StronglySorted_before {A} (R : A -> A -> Prop) l1 x l2 y :
  StronglySorted R (l1 ++ x :: l2) -> y ∈ l1 -> R y x.
Proof.
  induction l1 as [|z l1 IH]; intros Hs Hy; [by apply not_elem_of_nil in Hy|].
  apply StronglySorted_inv in Hs as [Hs Hz]. apply elem_of_cons in Hy as [->|Hy]; [|by apply IH].
  rewrite Forall_forall in Hz. apply Hz, elem_of_app. right. left.
Qed.

Definition in_order (p q : Peer) : Prop := lt_bits (bits p) (bits q).

Lemma lt_bits_irrefl a : ~ lt_bits a a.
Proof. intros (n & H1 & H2 & _). congruence. Qed.

Lemma sorted_distinct l : StronglySorted in_order l -> NoDup (bits <$> l).
Proof.
  induction 1 as [|p l Hs IH Hp]; [constructor|]. cbn. constructor; [|done].
  intros (q & Hb & Hq)%list_elem_of_fmap. rewrite Forall_forall in Hp.
  apply (lt_bits_irrefl (bits p)). rewrite Hb at 2. by apply Hp.
Qed.

Section InsertAll.
Context (origin : Peer) (l : list Peer) (L : nat).
Hypothesis same_length : forall q, q ∈ origin :: l -> length (bits q) = L.
Hypothesis sorted : StronglySorted in_order (origin :: l).

Lemma insertPeers_spec past rest cs id :
  l = past ++ rest -> wf_children [] cs -> contents cs ≡ₚ past ->
  exists cs' id', EqualDistance.insertPeers (origin :: l) (Node (Some origin) cs None None) rest id
    = mret (Node (Some origin) cs' None None, id') /\ wf_children [] cs' /\ contents cs' ≡ₚ l.
Proof.
  revert past cs id. induction rest as [|p rest IH]; intros past cs id Hl Hw Hc.
  - eexists _, _. split; [reflexivity|]. split; [exact Hw|]. by rewrite Hl, app_nil_r.
  - cbn [EqualDistance.insertPeers]. assert (Hps : origin :: l = (origin :: past) ++ p :: rest) by (by rewrite Hl).
    assert (Hlen : length (bits p) = L).
    { apply same_length. rewrite Hps. apply elem_of_app. right. left. }
    edestruct (insert_spec (origin :: past) rest p L) with (fuel := insert_fuel p) (sibling := @None tree)
      (branch := false) (np := Some origin) (cs := cs) (i := @None nat) (br := @None bool)
      (path := @nil bool) (id := id) as (t' & id' & Ht & Hins).
    + intros q. rewrite <- Hps. apply same_length.
    + rewrite <- Hps. by apply sorted_distinct.
    + intros q Hq. pose proof sorted as Hs. rewrite Hps in Hs.
      exact (StronglySorted_before in_order _ _ _ _ Hs Hq).
    + done.
    + cbn. lia.
    + by intros i d Hi.
    + intros q Hq. rewrite Hc in Hq. by right.
    + cbn. unfold insert_fuel. lia.
    + rewrite <- Hps in Ht. cbn [length] in Ht. rewrite Ht. cbn [mbind run_bind mret run_ret].
      destruct Hins as [(cs' & -> & _ & Hw' & Hc')|(_ & Hcol & _)]; [|done].
      apply (IH (past ++ [p])); [by rewrite <- app_assoc|done|]. rewrite Hc', Hc. apply Permutation_cons_append.
Qed.
End InsertAll.

(** The graph without its origin: the only other peer is on the right. *)
Definition origin_lost (l : list Peer) : bool :=
  match l with [_; q] => direction q 0 | _ => false end.

Lemma cleanUp_shown path t : wf path t -> shown (cleanUpTree t) = content t.
Proof.
  apply (wf_mut (fun _ t => shown (cleanUpTree t) = content t)
    (fun _ a b => shown (cleanUpTree (Node None [a; b] None None)) = content a ++ content b)).
  - done.
  - done.
  - intros path' a b i br _ IH. change (content (Node None [a; b] i br)) with (contents [a; b]).
    rewrite contents_two, <- IH. cbn. by destruct (t_peer a), (t_peer b).
  - intros path' a b Ha IHa Hb IHb _ Hlr. cbn.
    destruct (t_peer a) eqn:Ea, (t_peer b) as [q|] eqn:Eb; cbn; rewrite ?IHa, ?IHb, ?app_nil_r; try done.
    specialize (Hlr ltac:(done)). destruct a as [? [|] ? ?]; [|done]. cbn in Ea. subst.
    inversion Hb; subst; cbn in Eb; [done| |done]. by injection Eb as ->.
Qed.

(** No inner node has a peer. *)
Fixpoint pure (t : tree) : Prop :=
  match t with
  | Node _ [] _ _ => True
  | Node p cs _ _ => p = None /\ foldr (fun c P => pure c /\ P) True cs
  end.

Lemma cleanUp_pure path t : wf path t -> pure (cleanUpTree t).
Proof.
  apply (wf_mut (fun _ t => pure (cleanUpTree t))
    (fun _ a b => pure (cleanUpTree a) /\ pure (cleanUpTree b))); try done.
  intros path' a b i br _ [Ha Hb]. cbn. by destruct (t_peer a), (t_peer b).
Qed.

Lemma cleanUp_root_pure origin cs i br :
  wf_children [] cs -> Forall pure (t_children (cleanUpTree (Node (Some origin) cs i br))).
Proof.
  intros [->|(a & b & -> & Hab)]; [constructor|]. inversion Hab as [? ? ? Ha Hb _ _]; subst.
  cbn. apply cleanUp_pure in Ha, Hb.
  destruct (t_peer a), (t_peer b); cbn; repeat constructor; done.
Qed.

Lemma cleanUp_root origin cs l :
  wf_children [] cs -> contents cs ≡ₚ l -> length l <> 1 ->
  shown (cleanUpTree (Node (Some origin) cs None None)) ≡ₚ origin :: l.
Proof.
  intros Hw Hc Hl. destruct Hw as [->|(a & b & -> & Hab)].
  - apply Permutation_nil_l in Hc as <-. done.
  - inversion Hab as [? ? ? Ha Hb _ Hlr]; subst. rewrite contents_two in Hc. cbn [cleanUpTree].
    pose proof (cleanUp_shown _ _ Ha) as Hsa. pose proof (cleanUp_shown _ _ Hb) as Hsb.
    destruct (t_peer a) eqn:Ea, (t_peer b) as [q|] eqn:Eb;
      try (cbn; by rewrite app_nil_r, Hsa, Hsb, Hc).
    exfalso. apply Hl. rewrite <- Hc. specialize (Hlr ltac:(done)).
    destruct a as [? [|] ? ?]; [|done]. cbn in Ea. subst.
    inversion Hb; subst; cbn in Eb; done.
Qed.

Lemma build_shown st origin l L :
  EqualDistance.peers_ st = origin :: l ->
  (forall q, q ∈ origin :: l -> length (bits q) = L) -> StronglySorted in_order (origin :: l) ->
  exists t id', EqualDistance.buildTree st origin l = mret (t, id') /\
    shown t ≡ₚ (if origin_lost (origin :: l) then l else origin :: l) /\
    t_peer t <> None /\ Forall pure (t_children t).
Proof.
  intros Hst Hlen Hs. unfold EqualDistance.buildTree. rewrite Hst.
  destruct (decide (length l = 1)) as [H1|H1].
  - destruct l as [|q [|]]; try done. cbn [EqualDistance.insertPeers]. unfold insert_fuel. rewrite Nat.add_comm.
    cbn [EqualDistance.insertPeer Nat.add]. rewrite !lookup_nil. cbn [collapses].
    replace (length (bits q) <? 0) with false by done.
    cbn [mbind run_bind mret run_ret]. eexists _, _. split; [done|]. cbn [origin_lost].
    by destruct (direction q 0); repeat constructor.
  - destruct (insertPeers_spec origin l L Hlen Hs [] l [] (EqualDistance.id_ st)) as (cs & id' & Hi & Hw & Hc);
      [done|by left|done|].
    rewrite Hi. eexists _, _. split; [done|].
    replace (origin_lost (origin :: l)) with false by (by destruct l as [|? [|]]).
    split; [by apply cleanUp_root|]. split; [by apply cleanUp_kept|by apply cleanUp_root_pure].
Qed.

(** Making the distances equal moves peers down, and removing empty nodes takes
    none away. *)
Lemma shown_equal left branch t distance :
  shown (EqualDistance.makeEqualDistances left branch t distance) = shown t.
Proof.
  revert branch t distance. induction left as [|left IH]; intros branch [p cs i br] distance; [done|].
  cbn [EqualDistance.makeEqualDistances]. destruct cs as [|c cs].
  - destruct p as [q|]; [|done]. destruct (bits q !! distance) as [d|]; [|done].
    cbn [shown fmap list_fmap]. rewrite IH. done.
  - cbn [shown]. do 2 f_equal. apply list_eq. intros j.
    rewrite !list_lookup_fmap, list_lookup_imap. destruct ((c :: cs) !! j); [|done]. cbn. by rewrite IH.
Qed.

Lemma shown_remove t : from_option shown [] (EqualDistance.removeEmptyNodes t) = shown t.
Proof.
  induction t as [p cs i br IH] using tree_ind'.
  assert (Hcs : concat (shown <$> omap EqualDistance.removeEmptyNodes cs) = concat (shown <$> cs)).
  { induction IH as [|c cs Hc _ IHcs]; [done|]. cbn. rewrite <- Hc, <- IHcs.
    by destruct (EqualDistance.removeEmptyNodes c). }
  destruct p as [q|], cs as [|c cs]; try done; cbn [EqualDistance.removeEmptyNodes from_option shown];
    by rewrite Hcs.
Qed.

Lemma compare_lt a b : length a = length b -> (compare_bits a b <= 0)%Z -> a = b \/ lt_bits a b.
Proof.
  revert b. induction a as [|x a IH]; intros [|y b]; cbn; try done; [by left|]. intros [= Hlen].
  case_bool_decide as Hxy; [subst|destruct x, y; try done].
  - intros Hc. destruct (IH b Hlen Hc) as [->|(n & H1 & H2 & H3)]; [by left|right].
    exists (S n). split; [done|]. split; [done|]. intros [|i] Hi; [done|]. apply H3. lia.
  - intros _. right. exists 0. split; [done|]. split; [done|]. intros i Hi. lia.
Qed.

Lemma compare_total a b : (compare_bits a b <= 0)%Z \/ (compare_bits b a <= 0)%Z.
Proof.
  revert b. induction a as [|x a IH]; intros [|y b]; cbn [compare_bits]; [by left|by left|by right|].
  destruct x, y; repeat case_bool_decide; try done; auto; lia.
Qed.

Lemma lt_bits_trans a b c : lt_bits a b -> lt_bits b c -> lt_bits a c.
Proof.
  intros (n & Ha & Hb & Hab) (m & Hb' & Hc & Hbc).
  destruct (Nat.lt_trichotomy n m) as [Hlt|[->|Hlt]]; [|congruence|].
  - exists n. split; [done|]. split; [|intros i Hi; rewrite Hab, Hbc by lia; done].
    destruct (lookup_lt_is_Some_2 c n) as [x Hx]; [apply lookup_lt_Some in Hc; lia|].
    rewrite Hx. f_equal. rewrite <- (lookup_nth _ _ _ Hx), <- Hbc by done. by apply lookup_nth.
  - exists m. split; [|split; [done|intros i Hi; rewrite Hab, Hbc by lia; done]].
    destruct (lookup_lt_is_Some_2 a m) as [x Hx]; [apply lookup_lt_Some in Ha; lia|].
    rewrite Hx. f_equal. rewrite <- (lookup_nth _ _ _ Hx), Hab by done. by apply lookup_nth.
Qed.

Lemma sort_in_order peers L :
  (forall q, q ∈ peers -> length (bits q) = L) -> NoDup (bits <$> peers) ->
  StronglySorted in_order (js_sort sortPeers peers).
Proof.
  intros Hlen Hd. pose proof (js_sort_sorted sortPeers (fun p q => compare_total _ _) peers) as Hs.
  assert (Hlen' : forall q, q ∈ js_sort sortPeers peers -> length (bits q) = L).
  { intros q Hq. apply Hlen. by rewrite js_sort_elem in Hq. }
  assert (Hd' : NoDup (bits <$> js_sort sortPeers peers)) by (by rewrite js_sort_perm).
  apply Sorted_StronglySorted; [intros p q r; apply lt_bits_trans|].
  clear Hlen Hd. induction Hs as [|p l Hs IH Hp]; [constructor|].
  apply NoDup_cons in Hd' as [Hn Hd]. constructor; [apply IH; [|done]; intros q Hq; apply Hlen'; by right|].
  destruct Hp as [|q l Hpq]; constructor.
  destruct (compare_lt (bits p) (bits q)) as [E|Hlt]; [|done| |done].
  - rewrite !Hlen'; [done|right; left|left].
  - exfalso. apply Hn. rewrite E. left.
Qed.

Lemma with_ids_bits l : bits <$> with_ids l = bits <$> l.
Proof. apply list_eq. intros i. unfold with_ids. rewrite !list_lookup_fmap, list_lookup_imap. by destruct (l !! i). Qed.

Definition named (p : Peer) : string * list bool := (key p, bits p).

Lemma with_ids_named l : named <$> with_ids l = named <$> l.
Proof. apply list_eq. intros i. unfold with_ids. rewrite !list_lookup_fmap, list_lookup_imap. by destruct (l !! i). Qed.

Lemma with_ids_length l L : (forall q, q ∈ l -> length (bits q) = L) -> forall q, q ∈ with_ids l -> length (bits q) = L.
Proof.
  intros H q Hq. apply (list_elem_of_fmap_2 bits) in Hq. rewrite with_ids_bits in Hq.
  apply list_elem_of_fmap in Hq as (p & -> & Hp). by apply H.
Qed.

Lemma in_order_bits l : StronglySorted in_order l <-> StronglySorted lt_bits (bits <$> l).
Proof.
  induction l as [|p l IH]; [split; constructor|]. cbn. split.
  - intros [H1 H2]%StronglySorted_inv. constructor; [by apply IH|]. apply Forall_fmap. exact H2.
  - intros [H1 H2]%StronglySorted_inv. constructor; [by apply IH|]. rewrite Forall_fmap in H2. exact H2.
Qed.

Lemma origin_lost_bits l l' : bits <$> l = bits <$> l' -> origin_lost l = origin_lost l'.
Proof.
  destruct l as [|p [|q [|r l]]], l' as [|p' [|q' [|r' l']]]; intros [=]; try done. cbn. unfold direction. congruence.
Qed.

(** What the algorithm is given. *)
Lemma new_peers peers L :
  (forall q, q ∈ peers -> length (bits q) = L) -> NoDup (bits <$> peers) ->
  StronglySorted in_order (with_ids (js_sort sortPeers peers)) /\
  forall q, q ∈ with_ids (js_sort sortPeers peers) -> length (bits q) = L.
Proof.
  intros Hlen Hd. split.
  - apply in_order_bits. rewrite with_ids_bits. by apply in_order_bits, (sort_in_order peers L).
  - apply with_ids_length. intros q Hq. apply Hlen. by rewrite js_sort_elem in Hq.
Qed.

(** For peers with different distances of the same length, the graph is
    built without an error and draws every peer exactly once, with one
    exception: when there are two peers and the second one is in the other half
    of the space, the origin is not drawn. *)
Theorem graph_draws_all st peers L :
  peers <> [] -> (forall q, q ∈ peers -> length (bits q) = L) -> NoDup (bits <$> peers) ->
  exists t st', graph_data st peers = mret (Some t, st') /\
  let sorted := with_ids (js_sort sortPeers peers) in
  shown t ≡ₚ (if origin_lost sorted then tail sorted else sorted).
Proof.
  intros Hne Hlen Hd. unfold graph_data. destruct (new_peers peers L Hlen Hd) as [Hs Hlen'].
  pose proof (js_sort_perm sortPeers peers) as Hperm. apply (fmap_Permutation bits) in Hperm.
  rewrite <- with_ids_bits in Hperm.
  destruct (with_ids (js_sort sortPeers peers)) as [|origin l] eqn:E.
  { symmetry in Hperm. apply Permutation_nil_r in Hperm. by destruct peers. }
  edestruct (build_shown (EqualDistance.mkStatics (origin :: l) (EqualDistance.maxDistance st) (EqualDistance.id_ st)) origin l L)
    as (t & id' & Hb & Ht & _); [done|done|done|].
  unfold EqualDistance.createBinaryTree. rewrite Hb. cbn [mbind run_bind mret run_ret].
  set (u := EqualDistance.makeEqualDistances _ None t 0). pose proof (shown_remove u) as Hr.
  assert (Hu : shown u ≡ₚ (if origin_lost (origin :: l) then l else origin :: l))
    by (unfold u; by rewrite shown_equal).
  destruct (EqualDistance.removeEmptyNodes u) as [t'|].
  - eexists _, _. split; [done|]. cbn [from_option] in Hr. by rewrite Hr, Hu.
  - exfalso. cbn in Hr. rewrite <- Hr in Hu.
    destruct (origin_lost (origin :: l)) eqn:El; apply Permutation_nil_l in Hu; [|done].
    by subst.
Qed.

Lemma named_shown peers (shown_peers : list Peer) :
  let sorted := js_sort sortPeers peers in
  shown_peers ≡ₚ (if origin_lost (with_ids sorted) then tail (with_ids sorted) else with_ids sorted) ->
  named <$> shown_peers ≡ₚ named <$> (if origin_lost sorted then tail sorted else peers).
Proof.
  intros sorted Hp. rewrite Hp, (origin_lost_bits _ sorted) by apply with_ids_bits.
  pose proof (with_ids_named sorted) as Hn. destruct (origin_lost sorted).
  - assert (Ht : forall l, named <$> tail l = tail (named <$> l)) by (by intros []). by rewrite !Ht, Hn.
  - rewrite Hn. unfold sorted. by rewrite js_sort_perm.
Qed.

(** The peers that are drawn, each with its distance from the root. *)
Fixpoint shown_at (t : tree) (k : nat) : list (Peer * nat) :=
  let '(Node p cs _ _) := t in
  ((fun q => (q, k)) <$> option_list p) ++ concat ((fun c => shown_at c (S k)) <$> cs).

Fixpoint depth (t : tree) : nat :=
  match t with
  | Node _ [] _ _ => 0
  | Node _ cs _ _ => S (foldr (fun c m => Nat.max (depth c) m) 0 cs)
  end.

Lemma depth_max (cs : list tree) n :
  foldr (fun c m => Nat.max (depth c) m) 0 cs <= n <-> Forall (fun c => depth c <= n) cs.
Proof.
  induction cs as [|c cs IH]; cbn; [split; [constructor|lia]|]. rewrite Forall_cons, <- IH. lia.
Qed.

Lemma findMaxDistance_bound t k m :
  m <= EqualDistance.findMaxDistance t k m /\ k + depth t <= EqualDistance.findMaxDistance t k m.
Proof.
  revert k m. induction t as [p cs i br IH] using tree_ind'. intros k m.
  destruct cs as [|c0 cs0]; [cbn; lia|]. remember (c0 :: cs0) as cs eqn:E.
  assert (Hcs : forall m', m' <= fold_left (fun m c => EqualDistance.findMaxDistance c (S k) m) cs m' /\
    Forall (fun c => S k + depth c <= fold_left (fun m c => EqualDistance.findMaxDistance c (S k) m) cs m') cs).
  { clear E. induction IH as [|c cs Hc _ IHcs]; intros m'; [split; [done|constructor]|].
    cbn [fold_left]. destruct (Hc (S k) m') as [H1 H2].
    destruct (IHcs (EqualDistance.findMaxDistance c (S k) m')) as [H3 H4].
    split; [lia|]. constructor; [lia|done]. }
  destruct (Hcs m) as [H1 H2]. subst cs. split; [done|].
  cbn [EqualDistance.findMaxDistance depth].
  set (r := fold_left _ (c0 :: cs0) m) in *.
  assert (Hr : S k <= r) by (inversion H2; lia).
  assert (foldr (fun c m => Nat.max (depth c) m) 0 (c0 :: cs0) <= r - S k); [|lia].
  apply depth_max. eapply Forall_impl; [exact H2|]. cbn. intros c. lia.
Qed.

Lemma pure_children p c cs i br :
  pure (Node p (c :: cs) i br) -> p = None /\ Forall pure (c :: cs).
Proof.
  intros [Hp Hc]. split; [done|]. revert Hc. generalize (c :: cs) as l. clear.
  induction l as [|c l IH]; cbn; [constructor|]. intros [H1 H2]. constructor; [done|by apply IH].
Qed.

Lemma elem_of_shown_at q n p cs i br k :
  (q, n) ∈ shown_at (Node p cs i br) k <->
  (p = Some q /\ n = k) \/ exists c, c ∈ cs /\ (q, n) ∈ shown_at c (S k).
Proof.
  cbn. rewrite elem_of_app, elem_of_lconcat. split.
  - intros [Hq|(l & (c & -> & Hc)%list_elem_of_fmap & Hq)]; [left|right; by exists c].
    destruct p; cbn in Hq; [|by apply not_elem_of_nil in Hq]. apply list_elem_of_singleton in Hq. by injection Hq as -> ->.
  - intros [[-> ->]|(c & Hc & Hq)]; [left; left|right]. eexists. split; [|done].
    apply list_elem_of_fmap. by exists c.
Qed.

(** Every peer of a tree that is not too deep, and whose distances are long
    enough, moves to the last level. *)
Lemma equal_level left branch t k q n :
  pure t -> depth t <= left -> (forall p, p ∈ shown t -> k + left <= length (bits p)) ->
  (q, n) ∈ shown_at (EqualDistance.makeEqualDistances left branch t k) k -> n = k + left.
Proof.
  revert branch t k. induction left as [|left IH]; intros branch [p cs i br] k Hp Hd Hb Hq.
  - destruct cs as [|c cs]; [|cbn in Hd; lia]. cbn [EqualDistance.makeEqualDistances] in Hq.
    apply elem_of_shown_at in Hq as [[_ ->]|(c & Hc & _)]; [lia|by apply not_elem_of_nil in Hc].
  - cbn [EqualDistance.makeEqualDistances] in Hq. destruct cs as [|c cs].
    + destruct p as [r|]; [|by apply not_elem_of_nil in Hq].
      assert (Hr : k + S left <= length (bits r)) by (apply Hb; left).
      destruct (lookup_lt_is_Some_2 (bits r) k) as [d Hk]; [lia|]. rewrite Hk in Hq.
      apply elem_of_shown_at in Hq as [[? _]|(c & Hc & Hq)]; [done|].
      apply list_elem_of_singleton in Hc as ->. apply IH in Hq; [lia|done|cbn; lia|].
      intros p' [[= <-]|(c & Hc & _)]%elem_of_shown; [lia|by apply not_elem_of_nil in Hc].
    + apply pure_children in Hp as [-> Hp]. cbn [depth] in Hd. apply le_S_n, depth_max in Hd.
      apply elem_of_shown_at in Hq as [[? _]|(c' & Hc' & Hq)]; [done|].
      apply list_elem_of_lookup in Hc' as [j Hj]. rewrite list_lookup_imap in Hj.
      destruct ((c :: cs) !! j) as [c0|] eqn:Hc0; [|done]. injection Hj as <-.
      apply list_elem_of_lookup_2 in Hc0. rewrite Forall_forall in Hp, Hd.
      apply IH in Hq; [lia|by apply Hp|by apply Hd|].
      intros p' Hp'. assert (k + S left <= length (bits p')); [|lia]. apply Hb, elem_of_shown. eauto.
Qed.

Lemma shown_at_remove t k :
  from_option (fun t' => shown_at t' k) [] (EqualDistance.removeEmptyNodes t) = shown_at t k.
Proof.
  revert k. induction t as [p cs i br IH] using tree_ind'. intros k.
  assert (Hcs : concat ((fun c => shown_at c (S k)) <$> omap EqualDistance.removeEmptyNodes cs) =
    concat ((fun c => shown_at c (S k)) <$> cs)).
  { induction IH as [|c cs Hc _ IHcs]; [done|]. cbn. rewrite <- Hc, <- IHcs.
    by destruct (EqualDistance.removeEmptyNodes c). }
  destruct p as [q|], cs as [|c cs]; try done; cbn [EqualDistance.removeEmptyNodes from_option shown_at];
    by rewrite Hcs.
Qed.

(** When the distances are long enough, every peer that is drawn is at the
    same distance [maxDistance] from the root, apart from the root itself. *)
Theorem graph_levels_equal st peers L t st' q n :
  (forall q, q ∈ peers -> length (bits q) = L) -> NoDup (bits <$> peers) ->
  graph_data st peers = mret (Some t, st') -> EqualDistance.maxDistance st' <= L ->
  (q, n) ∈ shown_at t 0 -> n = EqualDistance.maxDistance st' \/ (n = 0 /\ t_peer t = Some q).
Proof.
  intros Hlen Hd Hg Hmax Hq. unfold graph_data in Hg. destruct (new_peers peers L Hlen Hd) as [Hs Hlen'].
  destruct (with_ids (js_sort sortPeers peers)) as [|origin l]; [done|].
  edestruct (build_shown (EqualDistance.mkStatics (origin :: l) (EqualDistance.maxDistance st) (EqualDistance.id_ st)) origin l L)
    as (root & id' & Hb & Ht & Hpeer & Hpure); [done|done|done|].
  unfold EqualDistance.createBinaryTree in Hg. rewrite Hb in Hg. cbn [mbind run_bind mret run_ret] in Hg.
  set (m := EqualDistance.findMaxDistance root 0 _) in *.
  assert (Hdepth : 0 + depth root <= m) by apply findMaxDistance_bound.
  pose proof (shown_at_remove (EqualDistance.makeEqualDistances m None root 0) 0) as Hr.
  destruct (EqualDistance.removeEmptyNodes _) as [t'|] eqn:Et; [|done]. injection Hg as <- <-.
  cbn [from_option EqualDistance.maxDistance] in *. rewrite Hr in Hq.
  assert (Hbits : forall p, p ∈ shown root -> m <= length (bits p)).
  { intros p Hp. rewrite Ht in Hp. rewrite Hlen'; [done|].
    destruct (origin_lost (origin :: l)); [by right|done]. }
  clearbody m. destruct root as [p cs i br], m as [|m]; cbn [t_peer t_children] in *.
  - left. destruct cs as [|c cs]; [|cbn in Hdepth; lia].
    by apply (equal_level 0 None (Node p [] i br) 0 q n).
  - destruct cs as [|c cs].
    + left. by apply (equal_level (S m) None (Node p [] i br) 0 q n).
    + cbn [EqualDistance.makeEqualDistances] in Hq, Et. cbn [EqualDistance.removeEmptyNodes] in Et.
      destruct p as [r|]; [|done]. injection Et as <-. cbn [t_peer].
      apply elem_of_shown_at in Hq as [[[= ->] ->]|(c' & Hc' & Hq)]; [by right|left].
      apply list_elem_of_lookup in Hc' as [j Hj]. rewrite list_lookup_imap in Hj.
      destruct ((c :: cs) !! j) as [c0|] eqn:Hc0; [|done]. injection Hj as <-.
      apply list_elem_of_lookup_2 in Hc0. cbn [depth Nat.add] in Hdepth. apply le_S_n, depth_max in Hdepth.
      rewrite Forall_forall in Hpure, Hdepth. apply equal_level in Hq; [lia|by apply Hpure|by apply Hdepth|].
      intros p' Hp'. apply Hbits, elem_of_shown. eauto.
Qed.

(** ** What is lost *)

(** The static [maxDistance] is never reset: a graph is at least as deep as the
    deepest one drawn before. *)
Lemma levels_never_shrink st peers t st' :
  graph_data st peers = mret (t, st') -> EqualDistance.maxDistance st <= EqualDistance.maxDistance st'.
Proof.
  unfold graph_data, EqualDistance.createBinaryTree. destruct (with_ids (js_sort sortPeers peers)) as [|origin l];
    [by intros [= _ <-]|].
  destruct (EqualDistance.buildTree _ _ _) as [[[root id']|]|]; [|done..]. cbn [mbind run_bind mret run_ret].
  destruct (EqualDistance.removeEmptyNodes _); [|done]. intros [= _ <-]. apply findMaxDistance_bound.
Qed.

Definition peer_at (name : string) (b : list bool) : Peer := mkPeer name b None.
Definition origin_peer : Peer := peer_at "o" [false; false].
Definition no_statics : EqualDistance.Statics := EqualDistance.mkStatics [] 0 0.

(** Two peers at the same distance are both not drawn. *)
Lemma equal_distances_dropped :
  exists t st', graph_data no_statics
    [origin_peer; peer_at "a" [true; false]; peer_at "b" [true; false]] = mret (Some t, st') /\
  named <$> shown t = [named origin_peer].
Proof. eexists _, _. split; vm_compute; reflexivity. Qed.

(** The origin is not drawn beside a single peer of the other half. *)
Lemma origin_not_drawn :
  exists t st', graph_data no_statics [origin_peer; peer_at "a" [true; false]] = mret (Some t, st') /\
  named <$> shown t = [named (peer_at "a" [true; false])].
Proof. eexists _, _. split; vm_compute; reflexivity. Qed.

(** ** Witnesses *)

Definition three_peers : list Peer :=
  [peer_at "b" [true; true]; origin_peer; peer_at "a" [true; false]].

Lemma three_peers_length q : q ∈ three_peers -> length (bits q) = 2.
Proof. unfold three_peers. rewrite !elem_of_cons, elem_of_nil. intros [->|[->|[->|[]]]]; done. Qed.

Lemma three_peers_distinct : NoDup (bits <$> three_peers).
Proof. by apply (bool_decide_eq_true _). Qed.

Lemma createBinaryTree_terminates_witness :
  exists t st', EqualDistance.createBinaryTree (EqualDistance.mkStatics three_peers 0 0) three_peers = mret (t, st').
Proof. exact (createBinaryTree_terminates (EqualDistance.mkStatics three_peers 0 0) three_peers (fun p H => H)). Defined.

Lemma graph_draws_all_witness :
  exists t st', graph_data no_statics three_peers = mret (Some t, st') /\ shown t ≡ₚ with_ids (js_sort sortPeers three_peers).
Proof. exact (graph_draws_all no_statics three_peers 2 ltac:(done) three_peers_length three_peers_distinct). Defined.

Definition three_graph : option (tree * EqualDistance.Statics) :=
  match graph_data no_statics three_peers with
  | Some (Ok (Some t, st')) => Some (t, st')
  | _ => None
  end.

Lemma graph_levels_equal_witness :
  exists t st', graph_data no_statics three_peers = mret (Some t, st') /\
  (2 = EqualDistance.maxDistance st' \/ (2 = 0 /\ t_peer t = Some (mkPeer "a" [true; false] (Some 1)))).
Proof.
  destruct three_graph as [[t st']|] eqn:E; [|by vm_compute in E].
  assert (Hg : graph_data no_statics three_peers = mret (Some t, st')).
  { unfold three_graph in E. destruct (graph_data _ _) as [[[[t0|] st0]|]|]; try done.
    by injection E as -> ->. }
  exists t, st'. split; [exact Hg|].
  refine (graph_levels_equal no_statics three_peers 2 t st' (mkPeer "a" [true; false] (Some 1)) 2 three_peers_length
    three_peers_distinct Hg _ _); vm_compute in E; injection E as <- <-; [cbn; lia|].
  by apply (bool_decide_eq_true _).
Defined.

End DhtGraph.
