(* ===== verification/Leaderboard.v ===== *)
(** * The leaderboard of the web nodes

    [src/frontend/src/app/features/leaderboard]: the scores of the nodes with
    the prizes and the files to download ([leaderboard.service.ts]), the store
    ([leaderboard.reducer.ts]) and its effect ([leaderboard.effects.ts]). The
    documents of the database are inputs. Percentages are hundredths of a
    percent; the limit of a third is compared in ten thousandths. *)

From Stdlib Require Import Ascii Sorting.Sorted.
From stdpp Require Import base list strings.
From S2P Require Import Prelude SharedLib DateHelper.
Open Scope Z_scope.

Module Leaderboard.
Import DateHelper.

(** ** Data *)

Record HeartbeatSummary := mkSummary {
  publicKey : string;
  isWhale : bool;
  uptimePercentage : Z;
  blocksProduced : Z;
  uptimePrize : bool;
  blocksPrize : bool;
  score : Z;
  maxScore : Z
}.

(** A document of the collection of scores. *)
Record Score := mkScore {
  s_publicKey : string; s_blocksProduced : Z; s_score : Z; s_lastUpdated : Z
}.

(** A document of the collection of maxima. *)
Record MaxScore := mkMaxScore { m_id : string; m_value : Z }.

(** ** Service *)

(** [Number(((score / maxScore) * 100).toFixed(2))]: a half is rounded up. *)
Definition getUptimePercentage (score maxScore : Z) : Z :=
  if maxScore =? 0 then 0 else floor_div (2 * (score * 10000) + maxScore) (2 * maxScore).

Definition is_whale (key : string) : bool :=
  string_includes "B62qkiqPXFDayJV8JutYvjerERZ35EKrdmdcXh3j1rDUHRs1bJkFFcX" key ||
  string_includes "B62qpQT46XiGQs7KhcczifvvYcnx7fbTzKj8a83UcT2BhPEs5mYnzdp" key.

(** [score > 0.3333 * max]; [max] is [undefined] until the summaries came. *)
Definition above_third (score : Z) (max : option Z) : bool :=
  match max with Some m => 3333 * m <? 10000 * score | None => false end.

Definition current_max (l : list MaxScore) : Z :=
  match List.find (fun c => bool_decide (m_id c = "current")) l with
  | Some c => m_value c
  | None => 0
  end.

Definition mapScore (max : Z) (s : Score) : HeartbeatSummary :=
  {| publicKey := s_publicKey s; blocksProduced := s_blocksProduced s;
     isWhale := is_whale (s_publicKey s);
     uptimePercentage := getUptimePercentage (s_score s) max;
     uptimePrize := false; blocksPrize := false; score := s_score s; maxScore := max |}.

(** [Math.max(...l)], which is minus infinity for no numbers. *)
Definition math_max (l : list Z) : option Z :=
  match l with [] => None | x :: l' => Some (fold_left Z.max l' x) end.

Definition by_uptime (a b : HeartbeatSummary) : Z := uptimePercentage b - uptimePercentage a.

Definition not_whale (i : HeartbeatSummary) : bool := negb (isWhale i).

(** The percentage of the fifth of those who are not whales. *)
Definition fifthPlace (items : list HeartbeatSummary) : Z :=
  match js_sort by_uptime (List.filter not_whale items) !! 4%nat with
  | Some i => uptimePercentage i
  | None => 0
  end.

Definition highestProducedBlocks (max : Z) (items : list HeartbeatSummary) : option Z :=
  math_max (blocksProduced <$>
    List.filter (fun i => above_third (score i) (Some max)) (List.filter not_whale items)).

Definition award (max : Z) (items : list HeartbeatSummary) (i : HeartbeatSummary) : HeartbeatSummary :=
  {| publicKey := publicKey i; blocksProduced := blocksProduced i; isWhale := isWhale i;
     uptimePercentage := uptimePercentage i; score := score i; maxScore := maxScore i;
     uptimePrize := if isWhale i then false else fifthPlace items <=? uptimePercentage i;
     blocksPrize := if isWhale i then false
                    else bool_decide (Some (blocksProduced i) = highestProducedBlocks max items) |}.

(** The summaries, and the field [maxScoreRightNow]. *)
Definition getHeartbeatsSummaries (scores : list Score) (maxScores : list MaxScore)
    : list HeartbeatSummary * Z :=
  let max := current_max maxScores in
  let items := mapScore max <$> scores in
  (award max items <$> items, max).

(** [replace('\n', '')]: the first newline. *)
Fixpoint drop_newline (s : string) : string :=
  match s with
  | EmptyString => EmptyString
  | String c s' => if (c =? "010")%char then s' else String c (drop_newline s')
  end.

Definition getUptime (key : option string) (scores : list Score) (maxScores : list MaxScore)
    : result (Z * string) :=
  let key := drop_newline <$> key in
  match List.find (fun s => bool_decide (Some (s_publicKey s) = key)) scores with
  | None => Ok (0, "")
  | Some entry =>
    match maxScores with
    | [] => Throw "Cannot read properties of undefined (reading 'value')"
    | m :: _ => Ok (getUptimePercentage (s_score entry) (m_value m),
                    getElapsedTimeInMinsAndHours (s_score entry * 5))
    end
  end.

(** ** Files *)

Definition is_upper (c : ascii) : bool :=
  let n := nat_of_ascii c in (65 <=? n)%nat && (n <=? 90)%nat.

Definition is_lower (c : ascii) : bool :=
  let n := nat_of_ascii c in (97 <=? n)%nat && (n <=? 122)%nat.

Definition ascii_upper (c : ascii) : ascii :=
  if is_lower c then ascii_of_nat (nat_of_ascii c - 32) else c.

(** A space before every capital letter. *)
Fixpoint spaced (s : string) : string :=
  match s with
  | EmptyString => EmptyString
  | String c s' => if is_upper c then String " " (String c (spaced s')) else String c (spaced s')
  end.

Definition camelCaseToTitle (s : string) : string :=
  match spaced s with
  | EmptyString => EmptyString
  | String c s' => String (ascii_upper c) s'
  end.

(** [key.replace(' ', '')]: the first space. *)
Fixpoint drop_space (s : string) : string :=
  match s with
  | EmptyString => EmptyString
  | String c s' => if (c =? " ")%char then s' else String c (drop_space s')
  end.

(** [header.charAt(0).toLowerCase() + header.slice(1)], without the space. *)
Definition header_key (header : string) : string :=
  match header with
  | EmptyString => EmptyString
  | String c s' => drop_space (String (ascii_lower c) s')
  end.

Definition quote : ascii := ascii_of_nat 34.

(** [replace(/"/g, '\\"')]: a backslash before each quotation mark. *)
Fixpoint escape (s : string) : string :=
  match s with
  | EmptyString => EmptyString
  | String c s' =>
    if (c =? quote)%char then String (ascii_of_nat 92) (String c (escape s')) else String c (escape s')
  end.

Definition quoted (s : string) : string := String quote (escape s +:+ String quote EmptyString).

(** A row is the list of its fields. *)
Definition Row := list (string * string).

Definition field (r : Row) (key : string) : string :=
  match List.find (fun f => bool_decide (f.1 = key)) r with
  | Some f => f.2
  | None => "undefined"
  end.

Definition csv_line (headers : list string) (r : Row) : string :=
  String.concat "," ((fun h => quoted (field r (header_key h))) <$> headers).

Definition newline : string := String "010" EmptyString.

Definition csv (columns : list string) (rows : list Row) : string :=
  let headers := camelCaseToTitle <$> columns in
  String.concat newline (String.concat "," headers :: (csv_line headers <$> rows)).

Definition by_score (a b : Score) : Z := s_score b - s_score a.
Definition by_blocks (a b : Score) : Z := s_blocksProduced b - s_blocksProduced a.

Definition score_row (s : Score) : Row :=
  [("publicKey", s_publicKey s); ("score", show (s_score s))].

Definition blocks_row (s : Score) : Row :=
  [("publicKey", s_publicKey s); ("blocksProduced", show (s_blocksProduced s))].

(** Those above a third of the maximum, the best first. *)
Definition eligible (max : option Z) (l : list Score) : list Score :=
  js_sort by_score (List.filter (fun s => above_third (s_score s) max) l).

Definition downloadUptimeLottery (max : option Z) (l : list Score) : string :=
  csv ["publicKey"; "score"] (score_row <$> eligible max l).

Definition best_uptime (max : option Z) (l : list Score) : list Score :=
  let filteredData := eligible max l in
  let fifth := match js_sort by_score filteredData !! 4%nat with Some s => s_score s | None => 0 end in
  List.filter (fun s => fifth <=? s_score s) filteredData.

Definition downloadHighestUptime (max : option Z) (l : list Score) : string :=
  csv ["publicKey"; "score"] (score_row <$> best_uptime max l).

Definition most_blocks (max : option Z) (l : list Score) : list Score :=
  let filteredData := js_sort by_blocks (List.filter (fun s => above_third (s_score s) max) l) in
  let highest := math_max (s_blocksProduced <$> filteredData) in
  List.filter (fun s => bool_decide (Some (s_blocksProduced s) = highest)) filteredData.

Definition downloadMostProducedBlocks (max : option Z) (l : list Score) : string :=
  csv ["publicKey"; "blocksProduced"] (blocks_row <$> most_blocks max l).

(** [percent] writes hundredths of a percent, [readable] is [toReadableDate] of a
    time in seconds. *)
Definition all_row (percent readable : Z -> string) (max : Z) (s : Score) : Row :=
  [("publicKey", s_publicKey s); ("score", show (s_score s) +:+ " / " +:+ show max);
   ("uptime", percent (getUptimePercentage (s_score s) max) +:+ "%");
   ("uptimeTime", show (s_score s)); ("producedBlocks", show (s_blocksProduced s));
   ("lastUpdated", readable (s_lastUpdated s))].

Definition downloadAll (percent readable : Z -> string) (max : Z) (l : list Score) : string :=
  csv ["publicKey"; "score"; "uptime"; "producedBlocks"]
    (all_row percent readable max <$> js_sort by_score l).

(** ** Store *)

Record State := mkState {
  filteredHeartbeatSummaries : list HeartbeatSummary;
  heartbeatSummaries : list HeartbeatSummary;
  search : string;
  sortBy_ : TableSort;
  isLoading : bool
}.

Inductive Action :=
| Init
| Close
| GetHeartbeats
| GetHeartbeatsSuccess (l : list HeartbeatSummary)
| ChangeFilters (search : string)
| Sort (ts : TableSort).

Definition search_match (term : string) (s : HeartbeatSummary) : bool :=
  if (String.length term =? 0)%nat then true
  else string_includes (toLowerCase term) (toLowerCase (publicKey s)).

Definition filterHeartbeats (l : list HeartbeatSummary) (term : string) : list HeartbeatSummary :=
  List.filter (search_match term) l.

Definition initialState : State := mkState [] [] "" (mkTableSort "uptimePercentage" DSC) true.

Section Reducer.
Context `{TableSorter HeartbeatSummary}.

Definition sortHeartbeats (l : list HeartbeatSummary) (ts : TableSort) : list HeartbeatSummary :=
  let data := sort l ts [] false in
  let whales := js_sort by_uptime (List.filter isWhale data) in
  let nonWhales := List.filter not_whale data in
  nonWhales ++ whales.

Definition leaderboardReducer (s : State) (a : Action) : State :=
  match a with
  | GetHeartbeatsSuccess l =>
    mkState (sortHeartbeats (filterHeartbeats l (search s)) (sortBy_ s)) l (search s) (sortBy_ s) false
  | ChangeFilters term =>
    mkState (sortHeartbeats (filterHeartbeats (heartbeatSummaries s) term) (sortBy_ s))
      (heartbeatSummaries s) term (sortBy_ s) (isLoading s)
  | Sort ts =>
    mkState (sortHeartbeats (filteredHeartbeatSummaries s) ts) (heartbeatSummaries s) (search s) ts
      (isLoading s)
  | Init | Close | GetHeartbeats => s
  end.
End Reducer.

(** ** Effect *)

(** [getHeartbeats$]: whether the collections are being listened to; they may
    send more than once. *)
Inductive Event := OnGet | OnData (o : outcome (list Score * list MaxScore)).

Definition getHeartbeats_effect (now : string) (listening : bool) (ev : Event)
    : bool * list (dispatched Action) :=
  match ev with
  | OnGet => (true, [])
  | OnData o =>
    if listening
    then (match o with Next _ => true | Failed _ => false end,
          catchErrorAndRepeat now GENERIC (GetHeartbeatsSuccess [])
            match o with
            | Next (scores, maxScores) => Next (GetHeartbeatsSuccess (getHeartbeatsSummaries scores maxScores).1)
            | Failed e => Failed e
            end)
    else (false, [])
  end.

(** ** Properties *)

Lemma by_uptime_total a b : by_uptime a b <= 0 \/ by_uptime b a <= 0.
Proof. unfold by_uptime. lia. Qed.

Definition above (x : Z) (j : HeartbeatSummary) : bool := x <? uptimePercentage j.

(** In a list with the greatest first, more than [n] entries are above [x]
    exactly when the one at [n] is. *)
Lemma count_above n x (l : list HeartbeatSummary) :
  StronglySorted (cmp_le by_uptime) l ->
  (n < count_if (above x) l)%nat <->
  exists f, l !! n = Some f /\ x < uptimePercentage f.
Proof.
  intros Hs. revert n. induction Hs as [|a l Hs IH Ha]; intros n.
  { split; [cbn; lia|intros (f & Hf & _); by rewrite lookup_nil in Hf]. }
  rewrite count_if_cons. unfold above at 1. destruct (Z.ltb_spec x (uptimePercentage a)) as [Hx|Hx].
  - destruct n as [|n]; cbn.
    + split; [intros _; by exists a|lia].
    + rewrite <- IH. lia.
  - assert (Hall : forall j, j ∈ a :: l -> uptimePercentage j <= x).
    { intros j [->|Hj]%elem_of_cons; [done|]. rewrite Forall_forall in Ha. specialize (Ha j Hj).
      unfold cmp_le, by_uptime in Ha. lia. }
    split.
    + unfold count_if. rewrite lfilter_none; [cbn; lia|]. intros j Hj. apply Z.ltb_ge, Hall. by right.
    + intros (f & Hf & Hlt). apply list_elem_of_lookup_2, Hall in Hf. lia.
Qed.

Lemma fold_max_spec l x :
  (fold_left Z.max l x = x \/ fold_left Z.max l x ∈ l) /\
  x <= fold_left Z.max l x /\ forall y, y ∈ l -> y <= fold_left Z.max l x.
Proof.
  revert x. induction l as [|a l IH]; intros x; cbn.
  - split; [by left|]. split; [lia|]. by intros y ?%not_elem_of_nil.
  - destruct (IH (Z.max x a)) as (H1 & H2 & H3). split; [|split; [lia|]].
    + rewrite elem_of_cons. destruct H1 as [H1|H1]; [|by auto]. lia.
    + intros y [->|Hy]%elem_of_cons; [lia|by apply H3].
Qed.

Lemma math_max_spec l m : math_max l = Some m <-> m ∈ l /\ forall y, y ∈ l -> y <= m.
Proof.
  destruct l as [|x l]; cbn.
  - split; [done|]. by intros [?%not_elem_of_nil _].
  - pose proof (fold_max_spec l x) as (H1 & H2 & H3). split.
    + intros [= <-]. rewrite elem_of_cons. split; [by destruct H1; auto|].
      intros y [->|Hy]%elem_of_cons; [done|by apply H3].
    + intros [Hm Hall]. f_equal. apply Z.le_antisymm.
      * apply Hall. rewrite elem_of_cons. by destruct H1; auto.
      * apply elem_of_cons in Hm as [->|Hm]; [done|by apply H3].
Qed.

Lemma percentage_nonneg score max : 0 <= score -> 0 <= max -> 0 <= getUptimePercentage score max.
Proof.
  intros Hs Hm. unfold getUptimePercentage, floor_div. destruct (Z.eqb_spec max 0); [done|].
  apply Z.div_pos; lia.
Qed.

Lemma fifthPlace_spec items x :
  0 <= x ->
  fifthPlace items <= x <->
  (count_if (above x) (List.filter not_whale items) < 5)%nat.
Proof.
  intros Hx. unfold fifthPlace. set (l := List.filter not_whale items).
  assert (Hs : StronglySorted (cmp_le by_uptime) (js_sort by_uptime l)).
  { apply Sorted_StronglySorted; [intros a b c; unfold cmp_le, by_uptime; lia|].
    apply js_sort_sorted, by_uptime_total. }
  pose proof (count_above 4 x _ Hs) as Hc. rewrite (count_if_perm _ _ _ (js_sort_perm by_uptime l)) in Hc.
  destruct (js_sort by_uptime l !! 4%nat) as [f|] eqn:Hf.
  - split.
    + intros Hle. apply Nat.nle_gt. intros Hgt. apply Hc in Hgt as (f' & [= <-] & Hlt). lia.
    + intros Hlt. apply Z.nlt_ge. intros Hgt. apply Nat.lt_nge in Hlt. apply Hlt. apply Hc. by exists f.
  - split; [intros _|done]. apply Nat.nle_gt. intros Hgt. by apply Hc in Hgt as (f & ? & _).
Qed.

Lemma award_filter max items :
  List.filter not_whale (award max items <$> items) = award max items <$> List.filter not_whale items.
Proof.
  assert (H : forall its, List.filter not_whale (award max items <$> its) = award max items <$> List.filter not_whale its);
    [|apply H].
  induction its as [|i its IH]; [done|]. cbn [fmap list_fmap List.filter] in *.
  change (not_whale (award max items i)) with (not_whale i).
  destruct (not_whale i); cbn [fmap list_fmap]; unfold fmap in IH |- *; by rewrite IH.
Qed.

Lemma count_if_fmap {A B} (g : A -> B) f (l : list A) : count_if f (g <$> l) = count_if (fun x => f (g x)) l.
Proof. induction l as [|a l IH]; [done|]. cbn [fmap list_fmap]. by rewrite !count_if_cons, IH. Qed.

(** C29: whales win nothing; the prize for the uptime goes to everybody whose
    uptime fewer than five others exceed, and the prize for the blocks to
    everybody who has exactly as many as the best of those above a third of the
    greatest score. *)
Theorem prizes_awarded scores maxScores i :
  (forall s, s ∈ scores -> 0 <= s_score s) -> 0 <= current_max maxScores ->
  i ∈ (getHeartbeatsSummaries scores maxScores).1 ->
  let items := List.filter not_whale (getHeartbeatsSummaries scores maxScores).1 in
  (uptimePrize i = true <-> isWhale i = false /\
     (count_if (above (uptimePercentage i)) items < 5)%nat) /\
  (blocksPrize i = true <-> isWhale i = false /\
     let best := List.filter (fun j => above_third (score j) (Some (current_max maxScores))) items in
     (exists j, j ∈ best /\ blocksProduced j = blocksProduced i) /\
     forall j, j ∈ best -> blocksProduced j <= blocksProduced i).
Proof.
  intros Hpos Hmax. cbn [fst getHeartbeatsSummaries]. set (max := current_max maxScores) in *.
  set (items := mapScore max <$> scores). intros (i0 & -> & Hi0)%list_elem_of_fmap. cbn zeta.
  assert (Hnn : 0 <= uptimePercentage i0).
  { apply list_elem_of_fmap in Hi0 as (s & -> & Hs). by apply percentage_nonneg; auto. }
  rewrite award_filter, count_if_fmap. cbn [uptimePrize blocksPrize isWhale award]. split.
  - destruct (isWhale i0); [by split; [|intros []]|]. rewrite Z.leb_le, fifthPlace_spec by done.
    split; [|by intros []]. intros H. split; [done|]. exact H.
  - destruct (isWhale i0); [by split; [|intros []]|]. rewrite bool_decide_eq_true.
    unfold highestProducedBlocks. split.
    + intros [Hm Hall]%symmetry%math_max_spec. split; [done|].
      apply list_elem_of_fmap in Hm as (j & Hj & Hjin). split.
      * exists (award max items j). apply elem_of_lfilter in Hjin as [Hjin Ha]. split; [|done].
        apply elem_of_lfilter. split; [|done]. by apply list_elem_of_fmap_2.
      * intros k [Hk Ha]%elem_of_lfilter. apply list_elem_of_fmap in Hk as (k0 & -> & Hk0). cbn in Ha |- *.
        apply Hall, list_elem_of_fmap. exists k0. split; [done|]. by apply elem_of_lfilter.
    + intros [_ [(j & Hj & Ej) Hall]]. symmetry. apply math_max_spec. cbn in Ej. split.
      * apply elem_of_lfilter in Hj as [Hj Ha]. apply list_elem_of_fmap in Hj as (j0 & -> & Hj0).
        cbn in Ej, Ha. rewrite <- Ej. apply list_elem_of_fmap. exists j0. split; [done|]. by apply elem_of_lfilter.
      * intros y (k & -> & [Hk Ha]%elem_of_lfilter)%list_elem_of_fmap.
        apply (Hall (award max items k)). apply elem_of_lfilter. split; [|done]. by apply list_elem_of_fmap_2.
Qed.

Section Store.
Context `{TableSorter HeartbeatSummary}.

Inductive reachable : State -> Prop :=
| reach_init : reachable initialState
| reach_step s a : reachable s -> reachable (leaderboardReducer s a).

Lemma sortHeartbeats_perm l ts : sortHeartbeats l ts ≡ₚ l.
Proof.
  unfold sortHeartbeats. rewrite js_sort_perm, Permutation_app_comm.
  assert (Hp : forall d, List.filter isWhale d ++ List.filter not_whale d ≡ₚ d).
  { induction d as [|i d IH]; [done|]. cbn. unfold not_whale at 1. destruct (isWhale i); cbn.
    - by rewrite IH.
    - by rewrite <- Permutation_middle, IH. }
  rewrite Hp. apply sort_perm.
Qed.

(** Whales come last. *)
Definition whales_last (l : list HeartbeatSummary) : Prop :=
  exists l1 l2, l = l1 ++ l2 /\ Forall (fun i => isWhale i = false) l1 /\ Forall (fun i => isWhale i = true) l2.

Lemma sortHeartbeats_whales l ts : whales_last (sortHeartbeats l ts).
Proof.
  eexists _, _. split; [done|]. rewrite !Forall_forall. split.
  - intros i [_ Hi]%elem_of_lfilter. by apply negb_true_iff.
  - intros i Hi. rewrite js_sort_elem, elem_of_lfilter in Hi. by destruct Hi.
Qed.

(** In every reachable state the table shows exactly the entries that match
    the search, each as often as it was received, the whales at the end. *)
Lemma leaderboard_rows s :
  reachable s ->
  filteredHeartbeatSummaries s ≡ₚ List.filter (search_match (search s)) (heartbeatSummaries s) /\
  whales_last (filteredHeartbeatSummaries s).
Proof.
  induction 1 as [|s a _ [IHp IHw]]; [split; [done|by exists [], []]|].
  destruct a; try done; cbn; (split; [rewrite sortHeartbeats_perm|apply sortHeartbeats_whales]); done.
Qed.
End Store.

(** ** The columns of the files *)

Fixpoint capitals (s : string) : nat :=
  match s with
  | EmptyString => 0
  | String c s' => (if is_upper c then 1 else 0) + capitals s'
  end.

Fixpoint no_space (s : string) : bool :=
  match s with
  | EmptyString => true
  | String c s' => negb (c =? " ")%char && no_space s'
  end.

Lemma lower_upper c : is_lower c = true -> ascii_lower (ascii_upper c) = c /\ is_upper c = false /\ (c =? " ")%char = false.
Proof. by destruct c as [[] [] [] [] [] [] [] []]. Qed.

Lemma upper_not_space c : is_upper c = true -> (c =? " ")%char = false.
Proof. by destruct c as [[] [] [] [] [] [] [] []]. Qed.

Lemma spaced_none s : capitals s = 0%nat -> spaced s = s.
Proof.
  induction s as [|c s IH]; [done|]. cbn. destruct (is_upper c); [done|]. cbn. intros Hs. by rewrite IH.
Qed.

Lemma drop_space_spaced s : (capitals s <= 1)%nat -> no_space s = true -> drop_space (spaced s) = s.
Proof.
  induction s as [|c s IH]; [done|]. cbn. destruct (is_upper c) eqn:Hc.
  - intros Hs _. rewrite spaced_none by (cbn in Hs; lia). done.
  - rewrite andb_true_iff, negb_true_iff. intros Hs [Hn Hns]. cbn. rewrite Hn. by rewrite IH.
Qed.

(** The title of a column leads back to the name of its field, for every
    name that begins with a small letter and has at most one capital. *)
Theorem header_roundtrip c s :
  is_lower c = true -> (capitals s <= 1)%nat -> no_space s = true ->
  header_key (camelCaseToTitle (String c s)) = String c s.
Proof.
  intros Hc Hs Hn. destruct (lower_upper c Hc) as (Hl & Hu & Hsp).
  unfold camelCaseToTitle. cbn [spaced]. rewrite Hu. unfold header_key. rewrite Hl. cbn [drop_space].
  rewrite Hsp. by rewrite drop_space_spaced.
Qed.

(** ** What modelling shows *)

Definition fast : Score := mkScore "fast" 3 100 0.
Definition slow : Score := mkScore "slow" 3 1 0.
Definition whale : Score :=
  mkScore "B62qkiqPXFDayJV8JutYvjerERZ35EKrdmdcXh3j1rDUHRs1bJkFFcX" 9 100 0.

(** The prize for the blocks also goes to a node below a third of the greatest
    score that has as many blocks; the file leaves it out. *)
Lemma slow_wins_blocks :
  (blocksPrize <$> (getHeartbeatsSummaries [fast; slow] [mkMaxScore "current" 100]).1) = [true; true] /\
  most_blocks (Some 100) [fast; slow] = [fast].
Proof. by vm_compute. Qed.

(** The files do not leave out the whales. *)
Lemma whale_downloaded :
  (blocksPrize <$> (getHeartbeatsSummaries [fast; whale] [mkMaxScore "current" 100]).1) = [true; false] /\
  most_blocks (Some 100) [fast; whale] = [whale].
Proof. by vm_compute. Qed.

(** The uptime of the own node is relative to the first maximum, that of the
    table to the current one. *)
Lemma first_maximum_used :
  getUptime (Some "fast") [fast] [mkMaxScore "a" 400; mkMaxScore "current" 100] = Ok (2500, "8h 20m") /\
  (uptimePercentage <$> (getHeartbeatsSummaries [fast] [mkMaxScore "a" 400; mkMaxScore "current" 100]).1) = [10000].
Proof. by vm_compute. Qed.

(** ** Witnesses *)

Lemma prizes_awarded_witness :
  uptimePrize (award 100 [mapScore 100 fast; mapScore 100 slow] (mapScore 100 slow)) = true.
Proof.
  refine (proj2 (proj1 (prizes_awarded [fast; slow] [mkMaxScore "current" 100]
    (award 100 [mapScore 100 fast; mapScore 100 slow] (mapScore 100 slow)) _ _ _)) _).
  - intros s. rewrite !elem_of_cons, elem_of_nil. by intros [->|[->|[]]].
  - done.
  - right. left.
  - split; [reflexivity|]. by vm_compute; lia.
Defined.

Lemma leaderboard_rows_example :
  filteredHeartbeatSummaries (@leaderboardReducer (unsorted HeartbeatSummary) initialState
    (GetHeartbeatsSuccess [mapScore 100 whale; mapScore 100 fast]))
  ≡ₚ [mapScore 100 whale; mapScore 100 fast].
Proof.
  exact (proj1 (@leaderboard_rows (unsorted HeartbeatSummary) _
    (reach_step _ (GetHeartbeatsSuccess [mapScore 100 whale; mapScore 100 fast])
       (@reach_init (unsorted HeartbeatSummary))))).
Defined.

Lemma header_roundtrip_witness : header_key (camelCaseToTitle "blocksProduced") = "blocksProduced".
Proof. apply (header_roundtrip "b" "locksProduced"); [reflexivity|by vm_compute; lia|reflexivity]. Defined.

End Leaderboard.
