(* ===== verification/NetworkConnections.v ===== *)
(** * The connections of the node

    [src/frontend/src/app/features/network/connections]: the list of connections
    ([network-connections.service.ts]), its store ([network-connections.reducer.ts])
    and the effects that poll it ([network-connections.effects.ts]). Times are
    nanoseconds; the two statistics of a connection are passed on unread. *)

From stdpp Require Import base list strings.
From S2P Require Import Prelude SharedLib NetworkMessages.
Open Scope Z_scope.

Module NetworkConnections.
#[local] Notation Direction := Messages.Direction.
#[local] Notation REVERSE := Messages.REVERSE.
#[local] Existing Instance Messages.Direction_eq_dec.

(** ** Service *)

Record RawConnection := mkRawConnection {
  item_id : Z;
  secs : Z;
  nanos : Z;
  r_incoming : bool;
  r_addr : string;
  r_pid : Z;
  r_fd : Z;
  r_alias : string;
  r_stats_in : string;
  r_stats_out : string
}.

Record Connection := mkConnection {
  connectionId : Z;
  addr : string;
  pid : Z;
  fd : Z;
  incoming : string;
  date : string;
  timestamp : Z;
  alias : string;
  stats_in : string;
  stats_out : string
}.

(** The url of [getConnections]; [debugger] is the address of the configuration. *)
Definition connections_url (debugger : string) (limit : Z) (id : option Z) (direction : Direction) : string :=
  debugger +:+ "/connections?limit=" +:+ show limit +:+
  "&direction=" +:+ Messages.show_direction (Some direction) +:+ Messages.url_param "&id=" id.

(** [readable] is [toReadableDate] of a time in nanoseconds. *)
Definition mapConnection (readable : Z -> string) (c : RawConnection) : Connection :=
  let timestamp := secs c * 1000000000 + nanos c in
  {| connectionId := item_id c; date := readable timestamp; timestamp := timestamp;
     incoming := if r_incoming c then "Incoming" else "Outgoing"; addr := r_addr c; pid := r_pid c;
     fd := r_fd c; alias := r_alias c; stats_in := r_stats_in c; stats_out := r_stats_out c |}.

Definition mapNetworkConnectionsResponse (readable : Z -> string) (l : list RawConnection)
    (dir : Direction) : list Connection :=
  mapConnection readable <$> (if bool_decide (dir = REVERSE) then reverse l else l).

(** ** Store *)

Record State := mkState {
  connections : list Connection;
  activeConnection : option Connection;
  stream : bool;
  limit : Z;
  direction : Direction
}.

Inductive Action :=
| Init
| Close
| GetConnections
| GetConnectionsSuccess (payload : list Connection)
| SelectConnection (payload : option Connection)
| GoLive
| Pause.

Definition initialState : State := mkState [] None false 1000 REVERSE.

Definition networkConnectionsReducer (s : State) (a : Action) : State :=
  match a with
  | GetConnectionsSuccess payload => mkState payload (activeConnection s) (stream s) (limit s) (direction s)
  | SelectConnection payload => mkState (connections s) payload (stream s) (limit s) (direction s)
  | Init | GoLive => mkState (connections s) (activeConnection s) true (limit s) (direction s)
  | Pause => mkState (connections s) (activeConnection s) false (limit s) (direction s)
  | Close => initialState
  | GetConnections => s
  end.

(** ** Effects *)

(** The fields of the class, whether the timer of [init$] runs and whether a
    request is in flight. *)
Record EffectState := mkEffect {
  streamActive : bool; waitingForServer : bool; timerRuns : bool; inFlight : bool
}.

Definition initialEffect : EffectState := mkEffect false false false false.

(** The actions come with the [stream] of the store they were reduced to. *)
Inductive Event :=
| OnInit (st : bool)
| OnTick
| OnGet (st : bool)
| OnGoLive (st : bool)
| OnPause
| OnClose
| OnOutcome (o : outcome (list Connection)).

(** [init$], [getConnections$], [pause$], [goLive$] and [close$]. The action of
    [goLive$] starts a second request that replaces the first. *)
Definition effects (now : string) (e : EffectState) (ev : Event) : EffectState * list (dispatched Action) :=
  match ev with
  | OnInit st => (mkEffect st (waitingForServer e) true (inFlight e), [])
  | OnTick =>
    (e, if timerRuns e && streamActive e && negb (waitingForServer e)
        then [Dispatch GetConnections] else [])
  | OnGet st => (mkEffect st true (timerRuns e) true, [])
  | OnGoLive st => (mkEffect true true (timerRuns e) true, [Dispatch GetConnections])
  | OnPause => (mkEffect false (waitingForServer e) (timerRuns e) (inFlight e), [])
  | OnClose => (mkEffect false (waitingForServer e) false (inFlight e), [])
  | OnOutcome o =>
    if inFlight e
    then (mkEffect (streamActive e) match o with Next _ => false | Failed _ => waitingForServer e end
            (timerRuns e) false,
          catchErrorAndRepeat now DEBUGGER (GetConnectionsSuccess [])
            match o with Next l => Next (GetConnectionsSuccess l) | Failed err => Failed err end)
    else (e, [])
  end.

(** ** Properties *)

(** The polling: events that do not come from a user. *)
Inductive automatic : Event -> Prop :=
| auto_tick : automatic OnTick
| auto_outcome o : automatic (OnOutcome o).

Lemma waiting_forever now e evs :
  waitingForServer e = true -> inFlight e = false -> Forall automatic evs ->
  fold_left (fun e ev => (effects now e ev).1) evs e = e /\ (effects now e OnTick).2 = [].
Proof.
  intros Hw Hi Hevs. split.
  - induction Hevs as [|ev evs Hev _ IH]; [done|]. cbn [fold_left].
    replace (effects now e ev).1 with e; [done|]. destruct Hev; cbn; [done|]. by rewrite Hi.
  - cbn. by rewrite Hw, andb_false_r.
Qed.

(** After a failed load nothing is asked again by itself; going live starts over. *)
Lemma failed_connections_stop now e err evs :
  inFlight e = true -> waitingForServer e = true -> Forall automatic evs ->
  let e1 := (effects now e (OnOutcome (Failed err))).1 in
  let e2 := fold_left (fun e ev => (effects now e ev).1) evs e1 in
  (effects now e2 OnTick).2 = [] /\ inFlight (effects now e2 (OnGoLive true)).1 = true.
Proof.
  intros Hi Hw Hevs. cbn zeta. assert (He : (effects now e (OnOutcome (Failed err))).1 =
    mkEffect (streamActive e) true (timerRuns e) false) by (cbn; by rewrite Hi, Hw).
  rewrite He. destruct (waiting_forever now (mkEffect (streamActive e) true (timerRuns e) false) evs)
    as [-> H]; [done|done|done|]. split; [exact H|done].
Qed.

(** Leaving the page does not cancel the request: its answer is written into the
    store that was reset. *)
Lemma late_connections_written now e l :
  inFlight e = true ->
  (effects now (effects now e OnClose).1 (OnOutcome (Next l))).2 = [Dispatch (GetConnectionsSuccess l)].
Proof. intros Hi. cbn. by rewrite Hi. Qed.

(** The rows are in the order of the request, newest first for the reverse one,
    and have the time and the identifier that was sent. *)
Lemma connections_mapped readable l dir :
  (connectionId <$> mapNetworkConnectionsResponse readable l dir) =
    (if bool_decide (dir = REVERSE) then reverse (item_id <$> l) else item_id <$> l).
Proof.
  unfold mapNetworkConnectionsResponse. rewrite <- list_fmap_compose.
  case_bool_decide; [|by apply list_fmap_ext]. rewrite <- fmap_reverse. by apply list_fmap_ext.
Qed.

End NetworkConnections.
