(* ===== verification/BootstrapStats.v ===== *)
(** * The statistics of the discovery

    [src/frontend/src/app/features/network/bootstrap-stats]: the requests of the
    peer discovery ([network-bootstrap-stats.service.ts]), their store
    ([network-bootstrap-stats.reducer.ts]) and the effects
    ([network-bootstrap-stats.effects.ts]), whose load is the guarded pipeline
    with a flag that an error leaves set. *)

From stdpp Require Import base list strings.
From S2P Require Import Prelude SharedLib GuardedLoad.
Open Scope Z_scope.

Module BootstrapStats.
Import GuardedLoad.

(** ** Service *)

Inductive PeerType := NEW | EXISTING.

#[export] Instance PeerType_eq_dec : EqDecision PeerType.
Proof. solve_decision. Defined.

Record RawRequest := mkRawRequest {
  r_type : string;
  r_address : string;
  r_start : Z;
  r_finish : option Z;
  r_peer_id : string;
  r_error : option string;
  closest_peers : option (list (string * PeerType))
}.

Record StatsRequest := mkStatsRequest {
  type : string;
  address : string;
  start : Z;
  finish : option Z;
  durationInSecs : option Z;
  peerId : string;
  existingPeers : nat;
  newPeers : nat;
  error : option string;
  typeErr : string;
  closestPeers : list (string * PeerType)
}.

Definition count_type (t : PeerType) (l : option (list (string * PeerType))) : nat :=
  match l with Some l => count_if (fun p => bool_decide (p.2 = t)) l | None => 0 end.

Definition mapRequest (r : RawRequest) : StatsRequest :=
  {| type := r_type r; address := r_address r; start := r_start r; finish := r_finish r;
     durationInSecs := match r_finish r with
                       | Some f => if truthyZ f then Some (ceil_div (f - r_start r) 1000000000) else None
                       | None => None
                       end;
     peerId := r_peer_id r;
     error := r_error r;
     typeErr := r_type r +:+ match r_error r with
                             | Some e => if truthy_str e then "- " +:+ e else ""
                             | None => ""
                             end;
     existingPeers := count_type EXISTING (closest_peers r);
     newPeers := count_type NEW (closest_peers r);
     closestPeers := default [] (closest_peers r) |}.

Definition mapBootstrapStats (l : list RawRequest) : list StatsRequest := mapRequest <$> l.

(** ** Store *)

Record State := mkState {
  boostrapStats : list StatsRequest;
  activeBootstrapRequest : option StatsRequest;
  sort_ : TableSort
}.

Inductive Action :=
| Init
| Close
| GetBootstrapStats
| GetBootstrapStatsSuccess (payload : list StatsRequest)
| SetActiveBootstrapRequest (payload : option StatsRequest)
| Sort (payload : TableSort).

Definition initialState : State := mkState [] None (mkTableSort "start" ASC).

Section Reducer.
Context `{TableSorter StatsRequest}.

Definition sortRequests (l : list StatsRequest) (ts : TableSort) : list StatsRequest :=
  sort l ts ["typeErr"; "address"; "peerId"] false.

Definition networkBootstrapStatsReducer (s : State) (a : Action) : State :=
  match a with
  | GetBootstrapStatsSuccess payload =>
    mkState (sortRequests payload (sort_ s)) (activeBootstrapRequest s) (sort_ s)
  | SetActiveBootstrapRequest payload => mkState (boostrapStats s) payload (sort_ s)
  | Sort payload => mkState (sortRequests (boostrapStats s) payload) (activeBootstrapRequest s) payload
  | Close => initialState
  | Init | GetBootstrapStats => s
  end.
End Reducer.

(** ** Effects *)

(** [init$] *)
Definition init_effect (a : Action) : list Action :=
  match a with Init => [GetBootstrapStats] | _ => [] end.

(** [CLOSE] passes the filter and clears the flag; after an error the flag is not
    cleared. *)
Definition policy : Policy :=
  {| close_passes := true; close_clears := true; error_clears := false |}.

(** The filter knows no forced loads. *)
Definition unforced {T} (ev : Event T) : Event T :=
  match ev with OnGet _ => OnGet false | _ => ev end.

(** [getBootstrapStats$] *)
Definition getBootstrapStats_effect (now : string) (e : EffectState) (ev : Event (list RawRequest))
    : EffectState * list (Output Action) :=
  guarded_load policy RUST (GetBootstrapStatsSuccess [])
    (fun l => GetBootstrapStatsSuccess (mapBootstrapStats l)) now e (unforced ev).

(** ** Properties *)

(** The peers a request found are the new and the known ones, and its duration is
    that of the whole seconds begun. *)
Lemma request_counts r :
  (existingPeers (mapRequest r) + newPeers (mapRequest r))%nat = length (closestPeers (mapRequest r)) /\
  forall f, r_finish r = Some f -> f <> 0 ->
    exists d, durationInSecs (mapRequest r) = Some d /\
      f - r_start r <= d * 1000000000 < f - r_start r + 1000000000.
Proof.
  split.
  - cbn. destruct (closest_peers r) as [l|]; [|done]. cbn. induction l as [|[i t] l IH]; [done|].
    cbn [count_type] in *. rewrite !count_if_cons. cbn [length snd].
    destruct t; repeat case_bool_decide; try done; lia.
  - intros f Hf Hn. cbn. rewrite Hf. unfold truthyZ. destruct (Z.eqb_spec f 0); [done|]. cbn.
    eexists. split; [done|]. pose proof (ceil_div_spec (f - r_start r) 1000000000 ltac:(lia)). lia.
Qed.

(** After a failed load no request is made, whatever happens, until the page is
    closed. *)
Lemma failed_stats_block now err evs :
  Forall (fun ev => ev <> OnClose /\ forall f, ev = OnGet f -> f = false) evs ->
  let step e ev := (getBootstrapStats_effect now e ev).1 in
  let e := fold_left step evs (step (step initialEffect (OnGet false)) (OnOutcome (Failed err))) in
  (getBootstrapStats_effect now e (OnGet false)).2 = [] /\
  (getBootstrapStats_effect now (step e OnClose) (OnGet false)).2 = [Request].
Proof.
  intros Hevs. cbn beta zeta.
  assert (He : fold_left (fun e ev => (getBootstrapStats_effect now e ev).1) evs (mkEffect true false) = mkEffect true false).
  { induction Hevs as [|ev evs [Hc Hf] _ IH]; [done|]. cbn [fold_left].
    destruct ev as [force| |o]; [|done|exact IH]. by rewrite (Hf force eq_refl). }
  change ((getBootstrapStats_effect now (getBootstrapStats_effect now initialEffect (OnGet false)).1
    (OnOutcome (Failed err))).1) with (mkEffect true false).
  by rewrite He.
Qed.

End BootstrapStats.
