(* ===== verification/Mempool.v ===== *)
(** * The transaction pool

    [src/frontend/src/app/shared/helpers/transaction.helper.ts]: the memo of a
    transaction, and [src/frontend/src/app/features/mempool]: the rows of the
    pool ([mempool.service.ts]), the filtered table ([mempool.reducer.ts]) and
    the effects ([mempool.effects.ts]).

    The base 58 package is a parameter. Memos are lists of code units as in
    [Ledger]; numbers that come as decimal strings are the numbers they denote,
    and amounts are not divided by a billion. *)

From stdpp Require Import base list strings.
From S2P Require Import Prelude SharedLib Ledger GuardedLoad.
Open Scope Z_scope.

Module Mempool.
Import Ledger.

(** ** Memos *)

(** [s.includes(p)] *)
Fixpoint code_includes (p s : jstr) : bool :=
  bool_decide (p `prefix_of` s) || match s with [] => false | _ :: s' => code_includes p s' end.

(** [s.replace(p, '')]: the first occurrence is removed. *)
Fixpoint remove_first (p s : jstr) : jstr :=
  if bool_decide (p `prefix_of` s) then drop (length p) s
  else match s with [] => [] | c :: s' => c :: remove_first p s' end.

(** [s.split(c)[0]] *)
Fixpoint before (c : Z) (s : jstr) : jstr :=
  match s with [] => [] | d :: s' => if d =? c then [] else d :: before c s' end.

(** [s.slice(-2)] *)
Definition last_two (s : jstr) : jstr := drop (length s - 2) s.

Definition toHexString (byteArray : list Z) : jstr :=
  byteArray ≫= fun b => last_two (lit "0" ++ toString16 (Z.land b 255)).

(** [String.fromCharCode(payload[i])]; a position behind the end is the code 0. *)
Definition code_at (payload : list Z) (i : nat) : Z := default 0 (payload !! i).

Definition is_hex_digit (c : Z) : bool := is_some (nibble c).

(** [cleaned.replace(/\\u[0-9a-fA-F]{4}/g, '')] *)
Fixpoint drop_escapes (s : jstr) : jstr :=
  match s with
  | 92 :: 117 :: a :: b :: c :: d :: s' as s0 =>
    if is_hex_digit a && is_hex_digit b && is_hex_digit c && is_hex_digit d then drop_escapes s'
    else match s0 with [] => [] | x :: s1 => x :: drop_escapes s1 end
  | [] => []
  | x :: s1 => x :: drop_escapes s1
  end.

(** [[a-zA-Z0-9,\.]] *)
Definition allowed (c : Z) : bool :=
  ((97 <=? c) && (c <=? 122)) || ((65 <=? c) && (c <=? 90)) || ((48 <=? c) && (c <=? 57)) ||
  (c =? 44) || (c =? 46).

Definition removeUnicodeEscapes (str : jstr) : jstr := List.filter allowed (drop_escapes str).

(** [readable] is [toReadableDate]. *)
Definition getTimeFromMemo (readable : jstr -> string) (memo : option jstr) : option string :=
  match memo with
  | Some m => if code_includes (lit ",") m
              then Some (readable (remove_first (lit "S.T.") (before 44 m)))
              else None
  | None => None
  end.

(** ** Service *)

Inductive TransactionKind := ZK_APP | PAYMENT | DELEGATION.

(** The body of a signed command, as the node sends it. *)
Inductive Body := PaymentBody (receiver_pk : string) (amount : Z) | DelegationBody (new_delegate : string).

(** The two kinds of [MempoolTransactionResponse]; what the table passes on
    unread is [rest]. *)
Inductive Command :=
| SignedCommand (fee_payer_pk : string) (fee nonce : Z) (memo : string) (body : Body) (rest : string)
| ZkappCommand (public_key : string) (fee nonce : Z) (memo : string) (rest : string).

Record Response := mkResponse { data : Command; hash : string }.

(** The amount of a row; [NotANumber] where the body has no amount. *)
Inductive Amount := Nano (n : Z) | NotANumber | NoAmount.

Record Transaction := mkTransaction {
  kind : TransactionKind;
  txHash : string;
  sender : string;
  fee : Z;
  amount : Amount;
  nonce : Z;
  memo : jstr;
  transactionData : Command;
  sentFromStressingTool : bool;
  sentByMyBrowser : bool
}.

#[export] Instance TransactionKind_eq_dec : EqDecision TransactionKind.
Proof. solve_decision. Defined.

Section Service.
(** [bs58check.decode]: the bytes behind a text with a valid checksum. *)
Context (bs58check_decode : string -> result (list Z)).

(** A missing byte is not the number 0 and no bound of a loop. *)
Definition decodeMemo (memo : string) : result jstr :=
  match bs58check_decode memo with
  | Throw e => Throw e
  | Ok buffer =>
    let payload := drop 1 buffer in
    Ok (if bool_decide (payload !! 0%nat = Some 0) then toHexString payload
        else match payload !! 1%nat with
             | Some len => code_at payload <$> seq 2 (Z.to_nat len)
             | None => []
             end)
  end.

(** The argument of [includes] as a string: the storage may be missing, or have
    no identifier. *)
Definition browser_text (browserId : js jstr) : jstr :=
  match browserId with Val s => s | Null => lit "null" | Undefined => lit "undefined" end.

Definition mapTx (browserId : js jstr) (tx : Response) : result Transaction :=
  match data tx with
  | SignedCommand pk fee nonce m body _ =>
    match decodeMemo m with
    | Throw e => Throw e
    | Ok memo => Ok
      {| kind := PAYMENT; txHash := hash tx; sender := pk; fee := fee;
         amount := match body with PaymentBody _ a => Nano a | DelegationBody _ => NotANumber end;
         nonce := nonce; memo := removeUnicodeEscapes memo; transactionData := data tx;
         sentFromStressingTool := code_includes (lit "S.T.") memo;
         sentByMyBrowser := code_includes (browser_text browserId) memo |}
    end
  | ZkappCommand pk fee nonce m _ =>
    match decodeMemo m with
    | Throw e => Throw e
    | Ok zkMemo => Ok
      {| kind := ZK_APP; txHash := hash tx; sender := pk; fee := fee; amount := NoAmount;
         nonce := nonce; memo := removeUnicodeEscapes zkMemo; transactionData := data tx;
         sentFromStressingTool := code_includes (lit "S.T.") zkMemo;
         sentByMyBrowser := code_includes (browser_text browserId) zkMemo |}
    end
  end.

Fixpoint mapTxPoolResponse (browserId : js jstr) (response : list Response) : result (list Transaction) :=
  match response with
  | [] => Ok []
  | tx :: response' =>
    match mapTx browserId tx with
    | Throw e => Throw e
    | Ok t => match mapTxPoolResponse browserId response' with
              | Throw e => Throw e
              | Ok ts => Ok (t :: ts)
              end
    end
  end.

(** [getTransactionPool]; a memo that does not decode is an error of the stream. *)
Definition getTransactionPool (browserId : js jstr) (o : outcome (list Response)) : outcome (list Transaction) :=
  match o with
  | Next l => match mapTxPoolResponse browserId l with
              | Ok txs => Next txs
              | Throw e => Failed (mkJsError e None "")
              end
  | Failed e => Failed e
  end.
End Service.

(** ** Store *)

Record Filters := mkFilters { zkApp : bool; payment : bool; delegation : bool; search : option string }.

Record State := mkState {
  allTxs : list Transaction;
  txs : list Transaction;
  activeTx : option Transaction;
  filters : Filters;
  emptyInDatabase : bool;
  isLoading : bool
}.

Inductive Action :=
| Init
| Close
| GetTxs
| GetTxsSuccess (txs : list Transaction)
| ChangeFilters (filters : Filters)
| SetActiveTx (tx : option Transaction)
| ToggleSidePanel.

Definition kind_shown (f : Filters) (k : TransactionKind) : bool :=
  match k with ZK_APP => zkApp f | PAYMENT => payment f | DELEGATION => delegation f end.

Definition search_match (f : Filters) (tx : Transaction) : bool :=
  match search f with
  | Some text =>
    if (2 <? String.length text)%nat
    then let searchTerm := toLowerCase text in
         string_includes searchTerm (toLowerCase (txHash tx)) ||
         string_includes searchTerm (toLowerCase (sender tx))
    else true
  | None => true
  end.

Definition filterTxs (l : list Transaction) (f : Filters) : list Transaction :=
  List.filter (fun tx => kind_shown f (kind tx) && search_match f tx) l.

Definition initialState : State :=
  mkState [] [] None (mkFilters true true true (Some "")) false true.

Definition mempoolReducer (s : State) (a : Action) : State :=
  match a with
  | GetTxsSuccess l =>
    mkState l (filterTxs l (filters s)) (activeTx s) (filters s) (bool_decide (l = [])) false
  | ChangeFilters f =>
    mkState (allTxs s) (filterTxs (allTxs s) f) (activeTx s) f (emptyInDatabase s) (isLoading s)
  | SetActiveTx tx => mkState (allTxs s) (txs s) tx (filters s) (emptyInDatabase s) (isLoading s)
  | Close => initialState
  | Init | GetTxs | ToggleSidePanel => s
  end.

(** ** Effects *)

(** [init$] *)
Definition init_effect (a : Action) : list Action := match a with Init => [GetTxs] | _ => [] end.

Inductive Event := OnGetTxs | OnClose | OnResponse (o : outcome (list Response)).

(** [getTxs$] has no guard: every get replaces the request in flight. *)
Definition getTxs_effect (decode : string -> result (list Z)) (browserId : js jstr) (now : string)
    (inFlight : bool) (ev : Event) : bool * list (GuardedLoad.Output Action) :=
  match ev with
  | OnGetTxs => (true, [GuardedLoad.Request])
  | OnClose => (false, [])
  | OnResponse o =>
    if inFlight
    then (false,
          [GuardedLoad.Actions (catchErrorAndRepeat now GENERIC (GetTxsSuccess [])
             match getTransactionPool decode browserId o with
             | Next l => Next (GetTxsSuccess l)
             | Failed e => Failed e
             end)])
    else (inFlight, [])
  end.

(** ** Memos read back *)

Lemma last_two_pad s : (1 <= length s)%nat -> last_two (48 :: s) = pad s 2.
Proof.
  intros H. unfold last_two, pad. cbn [replicate app length].
  destruct (length s) as [|n]; [lia|]. cbn [Nat.sub drop]. by rewrite Nat.sub_0_r.
Qed.

Lemma toHexString_to_hex bs : Forall byte bs -> toHexString bs = to_hex bs.
Proof.
  induction 1 as [|b bs Hb _ IH]; [done|]. unfold byte in Hb.
  change (last_two (48 :: toString16 (Z.land b 255)) ++ toHexString bs = to_hex ([b] ++ bs)).
  rewrite to_hex_app, IH. f_equal. change 255 with (Z.ones 8). rewrite Z.land_ones by lia.
  rewrite Z.mod_small by (cbn; lia). rewrite last_two_pad.
  - rewrite (pad_be 1) by lia. cbn [be app]. by rewrite Z.mod_small.
  - unfold toString16. destruct (Z.ltb_spec b 0); [lia|]. apply hex_of_nat_length. lia.
Qed.

Lemma code_at_seq payload text padding :
  payload = 1 :: Z.of_nat (length text) :: text ++ padding ->
  code_at payload <$> seq 2 (length text) = text.
Proof.
  intros ->. rewrite <- (fmap_S_seq 1), <- (fmap_S_seq 0), <- !list_fmap_compose.
  apply list_eq. intros i. rewrite list_lookup_fmap. destruct (decide (i < length text)%nat) as [Hi|Hi].
  - rewrite lookup_seq_lt by done.
    transitivity (Some (default 0 ((text ++ padding) !! i))); [done|]. rewrite lookup_app_l by done.
    destruct (lookup_lt_is_Some_2 text i Hi) as [c ->]. done.
  - rewrite lookup_seq_ge, lookup_ge_None_2 by lia. done.
Qed.

(** C39: A memo whose bytes are a text with its length in front decodes to that
    text, whatever fills the rest of the memo; a memo with the tag of a hash
    decodes to hexadecimal digits that are the bytes of the whole memo. *)
Theorem memo_roundtrip (decode : string -> result (list Z)) (m : string) (version : Z) (bytes : list Z) :
  decode m = Ok (version :: bytes) -> Forall byte bytes ->
  (forall text padding, bytes = 1 :: Z.of_nat (length text) :: text ++ padding ->
     decodeMemo decode m = Ok text) /\
  (forall rest, bytes = 0 :: rest ->
     exists h, decodeMemo decode m = Ok h /\ length h = (2 * length bytes)%nat /\ from_hex h = bytes).
Proof.
  intros Hd Hb. unfold decodeMemo. rewrite Hd. change (drop 1 (version :: bytes)) with bytes. cbn zeta. split.
  - intros text padding Hbytes. rewrite bool_decide_eq_false_2 by (subst; done).
    assert (Hlen : bytes !! 1%nat = Some (Z.of_nat (length text))) by (subst; done).
    rewrite Hlen, Nat2Z.id. f_equal. by eapply code_at_seq.
  - intros rest ->. rewrite bool_decide_eq_true_2 by done. eexists. split; [done|].
    rewrite toHexString_to_hex by done. split.
    + generalize (0 :: rest). intros l. induction l as [|x l IH]; [done|].
      change (x :: l) with ([x] ++ l). rewrite to_hex_app, !length_app, IH. cbn. lia.
    + rewrite <- (app_nil_r (to_hex _)), from_to_hex by done. cbn [from_hex]. apply app_nil_r.
Qed.

Lemma memo_roundtrip_witness :
  decodeMemo (fun _ => Ok [20; 1; 2; 104; 105; 0; 0]) "E4" = Ok (lit "hi").
Proof.
  apply (memo_roundtrip (fun _ => Ok [20; 1; 2; 104; 105; 0; 0]) "E4" 20 [1; 2; 104; 105; 0; 0]
           eq_refl) with (padding := [0; 0]); [|done].
  repeat constructor; done.
Defined.

Lemma drop_escapes_plain s : Forall (fun c => c <> 92) s -> drop_escapes s = s.
Proof.
  induction 1 as [|c s Hc _ IH]; [done|].
  assert (Hs : drop_escapes (c :: s) = c :: drop_escapes s).
  { cbn [drop_escapes]. repeat (case_match; try done). }
  by rewrite Hs, IH.
Qed.

(** The memo in the table has letters, digits, commas and points only, and cleaning
    it again changes nothing. *)
Lemma cleaned_memo s :
  Forall (fun c => allowed c = true) (removeUnicodeEscapes s) /\
  removeUnicodeEscapes (removeUnicodeEscapes s) = removeUnicodeEscapes s.
Proof.
  unfold removeUnicodeEscapes at 1 3 4. set (t := List.filter allowed (drop_escapes s)).
  assert (Ht : Forall (fun c => allowed c = true) t).
  { apply Forall_forall. intros c Hc. by apply elem_of_lfilter in Hc as [_ Hc]. }
  split; [done|]. unfold removeUnicodeEscapes. fold t. rewrite drop_escapes_plain.
  - clear -Ht. induction Ht as [|c t Hc _ IH]; [done|]. cbn. by rewrite Hc, IH.
  - eapply Forall_impl; [exact Ht|]. intros c Hc ->. done.
Qed.

(** ** The table *)

Definition memo_of (c : Command) : string :=
  match c with SignedCommand _ _ _ m _ _ => m | ZkappCommand _ _ _ m _ => m end.

Lemma mapTx_throws decode browserId tx :
  throws (mapTx decode browserId tx) = throws (decodeMemo decode (memo_of (data tx))).
Proof. unfold mapTx. destruct (data tx); cbn [memo_of]; by destruct (decodeMemo _ _). Qed.

Lemma mapTxPoolResponse_spec decode browserId l :
  match mapTxPoolResponse decode browserId l with
  | Ok ts => Forall2 (fun r t => mapTx decode browserId r = Ok t) l ts
  | Throw _ => exists r, r ∈ l /\ throws (decodeMemo decode (memo_of (data r))) = true
  end.
Proof.
  induction l as [|r l IH]; cbn; [constructor|].
  destruct (mapTx decode browserId r) as [t|e] eqn:Ht.
  - destruct (mapTxPoolResponse decode browserId l) as [ts|e]; [by constructor|].
    destruct IH as (r' & Hr & He). exists r'. split; [by apply list_elem_of_further|done].
  - exists r. split; [apply list_elem_of_here|]. by rewrite <- (mapTx_throws _ browserId), Ht.
Qed.

Definition reduce (s : State) (l : list (dispatched Action)) : result State :=
  reduce_all (fun s a => Ok (mempoolReducer s a)) s l.

(** An answer of the node ends the loading and the table shows exactly the
    transactions that pass the filters, in the order of the pool, one row per
    transaction of the answer; a failed request, or one memo that does not
    decode, is reported and empties the whole table. *)
Theorem pool_loads decode browserId now s o :
  exists actions s',
    getTxs_effect decode browserId now true (OnResponse o) = (false, [GuardedLoad.Actions actions]) /\
    reduce s actions = Ok s' /\
    isLoading s' = false /\ filters s' = filters s /\ activeTx s' = activeTx s /\
    txs s' = filterTxs (allTxs s') (filters s) /\
    (emptyInDatabase s' = true <-> allTxs s' = []) /\
    ((exists l, o = Next l /\ actions = [Dispatch (GetTxsSuccess (allTxs s'))] /\
        Forall2 (fun r t => mapTx decode browserId r = Ok t) l (allTxs s')) \/
     (allTxs s' = [] /\ (exists e, actions = [ErrorAdd e; Dispatch (GetTxsSuccess [])]) /\
      forall l, o = Next l -> exists r, r ∈ l /\ throws (decodeMemo decode (memo_of (data r))) = true)).
Proof.
  cbn [getTxs_effect]. destruct o as [l|e].
  - pose proof (mapTxPoolResponse_spec decode browserId l) as Hspec. cbn [getTransactionPool].
    destruct (mapTxPoolResponse decode browserId l) as [ts|e]; eexists _, _;
      (split; [reflexivity|]); (split; [reflexivity|]); cbn [isLoading filters activeTx txs allTxs emptyInDatabase mempoolReducer];
      rewrite bool_decide_eq_true; do 5 (split; [done|]).
    + left. by exists l.
    + right. split; [done|]. split; [by eexists|]. by intros l' [= <-].
  - eexists _, _. do 2 (split; [reflexivity|]). cbn. do 5 (split; [done|]).
    right. split; [done|]. split; [by eexists|]. done.
Qed.

(** In every state of the page the table is the filtered pool. *)
Lemma table_filtered (actions : list Action) :
  let s := fold_left mempoolReducer actions initialState in
  txs s = filterTxs (allTxs s) (filters s).
Proof.
  cbn zeta. induction actions as [|a actions IH] using rev_ind; [done|].
  rewrite fold_left_app. cbn [fold_left]. by destruct a; cbn.
Qed.

(** ** Delegations *)

(** A delegation is shown as a payment without an amount. *)
Lemma delegation_is_payment decode browserId h pk fee nonce m delegate rest t :
  mapTx decode browserId (mkResponse (SignedCommand pk fee nonce m (DelegationBody delegate) rest) h) = Ok t ->
  kind t = PAYMENT /\ amount t = NotANumber.
Proof. unfold mapTx. cbn. destruct (decodeMemo decode m); [|done]. by intros [= <-]. Qed.

(** So the switch for delegations has no effect on the pool. *)
Lemma delegation_switch_idle decode browserId l ts f b :
  mapTxPoolResponse decode browserId l = Ok ts ->
  filterTxs ts (mkFilters (zkApp f) (payment f) b (search f)) = filterTxs ts f.
Proof.
  intros Hl. pose proof (mapTxPoolResponse_spec decode browserId l) as Hs. rewrite Hl in Hs. clear Hl.
  unfold filterTxs. induction Hs as [|r t l ts Ht _ IH]; [done|]. cbn [List.filter].
  assert (Hk : kind t <> DELEGATION).
  { revert Ht. unfold mapTx. destruct (data r); destruct (decodeMemo _ _); intros [= <-]; done. }
  rewrite IH. by destruct (kind t).
Qed.

(** Without an identifier of the browser every memo that contains the word null
    counts as sent by it. *)
Lemma null_is_mine :
  (fun t => sentByMyBrowser t) <$>
    match mapTxPoolResponse (fun _ => Ok ([20; 1; 6] ++ lit "nullum")) Null
            [mkResponse (ZkappCommand "B62" 1 0 "E4" "") "5J"] with
    | Ok l => l | Throw _ => [] end = [true].
Proof. reflexivity. Qed.

End Mempool.
