(* ===== verification/Fuzzing.v ===== *)
(** * The coverage of the fuzzer

    [src/frontend/src/app/features/fuzzing]: the directories, files and lines of a
    coverage report ([fuzzing.service.ts]), the store ([fuzzing.reducer.ts]), the
    effects ([fuzzing.effects.ts]) and the toolbar ([fuzzing-toolbar.component.ts]).

    [JSON.stringify] is compared by comparing the values. The html of a line is
    its text, and its theorem reads that text back with a reader of tags and
    entities. *)

From Stdlib Require Import Ascii Qcanon Sorted.
From stdpp Require Import base list strings numbers pretty.
From S2P Require Import Prelude SharedLib.
Open Scope Z_scope.

Module Fuzzing.

(** ** Data *)

Record Directory := mkDirectory { fullName : string; name : string; date : string; dateNumber : option Z }.

Record File := mkFile { f_name : string; coverage : Qc; path : string }.

Record LineCounter := mkLineCounter { colStart : Z; colEnd : Z; count : Z }.

Record Line := mkLine {
  line : string;
  lineColor : option string;
  html : string;
  lineHits : option Z;
  counters : list LineCounter
}.

Record FileDetails := mkDetails { filename : string; executedLines : nat; lines : list Line }.

#[export] Instance Directory_eq_dec : EqDecision Directory.
Proof. solve_decision. Defined.
#[export] Instance File_eq_dec : EqDecision File.
Proof. solve_decision. Defined.
#[export] Instance LineCounter_eq_dec : EqDecision LineCounter.
Proof. solve_decision. Defined.
#[export] Instance Line_eq_dec : EqDecision Line.
Proof. solve_decision. Defined.
#[export] Instance FileDetails_eq_dec : EqDecision FileDetails.
Proof. solve_decision. Defined.

(** ** Directories *)

(** [s.split('_')[0]] *)
Fixpoint before_underscore (s : string) : string :=
  match s with
  | EmptyString => EmptyString
  | String c s' => if Ascii.eqb c "_"%char then EmptyString else String c (before_underscore s')
  end.

(** [s.split('_').slice(1).join('_')] *)
Fixpoint after_underscore (s : string) : string :=
  match s with
  | EmptyString => EmptyString
  | String c s' => if Ascii.eqb c "_"%char then s' else after_underscore s'
  end.

Section Directories.
(** [toReadableDate(text, noMillisFormat)], which throws on a text that is no
    date, and [new Date(text).getTime()], which may be no number. *)
Context (readable : string -> result string) (getTime : string -> option Z).

Definition mapDirectory (directory : string) : Directory :=
  let '(date, dateNumber) :=
    match readable (before_underscore directory) with
    | Ok d => (d, getTime d)
    | Throw _ => ("-", Some 0)
    end in
  {| fullName := directory;
     name := if string_includes "_" directory then after_underscore directory else directory;
     date := date; dateNumber := dateNumber |}.

(** [b.dateNumber - a.dateNumber]; not a number compares as equal. *)
Definition by_date (a b : Directory) : Z :=
  match dateNumber a, dateNumber b with
  | Some x, Some y => y - x
  | _, _ => 0
  end.

Definition mapGetDirectoryNamesResponse (dirNames : list string) : list Directory :=
  js_sort by_date (mapDirectory <$> dirNames).
End Directories.

(** ** Lines *)

Record RawLine := mkRawLine { r_line : string; r_counters : list LineCounter }.

Record RawFile := mkRawFile { r_filename : string; r_lines : list RawLine }.

(** The loop of [getLineColor], with its [break]s. *)
Fixpoint line_color_loop (color : string) (l : list LineCounter) : string :=
  match l with
  | [] => color
  | c :: l' =>
    if 0 <? count c
    then if String.eqb color "warn" then "aware" else line_color_loop "success" l'
    else if String.eqb color "success" then "aware" else line_color_loop "warn" l'
  end.

(** Without counters the line itself is returned, which is no colour. *)
Definition getLineColor (l : RawLine) : option string :=
  match r_counters l with [] => None | cs => Some (line_color_loop "aware" cs) end.

Definition quote : string := String (Ascii.ascii_of_nat 34) EmptyString.

(** The tag that opens the span of a counter. *)
Definition open_span (counter : LineCounter) : string :=
  let colorCode := "var(--" +:+ (if count counter =? 0 then "warn" else "success") +:+ "-secondary)" in
  "<span style=" +:+ quote +:+ "color:var(--base-primary);background:" +:+ colorCode +:+ quote +:+
  " h=" +:+ quote +:+ show (count counter) +:+ quote +:+ ">".

Definition escape_char (c : Ascii.ascii) : string :=
  if Ascii.eqb c " "%char then "&nbsp;"
  else if Ascii.eqb c "<"%char then "&lt;"
  else if Ascii.eqb c ">"%char then "&gt;"
  else String c EmptyString.

Definition covers (column : Z) (c : LineCounter) : bool := (colStart c <=? column) && (column <=? colEnd c).

(** What the loop of [colorLineCounters] appends from a column on. *)
Fixpoint line_html (cs : list LineCounter) (column : Z) (s : string) : string :=
  match s with
  | EmptyString => EmptyString
  | String c s' =>
    let counter := List.find (covers column) cs in
    match counter with
    | Some k => if column =? colStart k then open_span k else ""
    | None => ""
    end +:+ escape_char c +:+
    match counter with
    | Some k => if column =? colEnd k then "</span>" else ""
    | None => ""
    end +:+ line_html cs (column + 1) s'
  end.

(** [line.replace(/</g, '&lt;').replace(/>/g, '&gt;')] *)
Fixpoint escape_angles (s : string) : string :=
  match s with
  | EmptyString => EmptyString
  | String c s' =>
    (if Ascii.eqb c "<"%char then "&lt;" else if Ascii.eqb c ">"%char then "&gt;" else String c EmptyString)
      +:+ escape_angles s'
  end.

Definition colorLineCounters (l : string) (cs : list LineCounter) : string :=
  match cs with [] => escape_angles l | _ => line_html cs 0 l end.

(** [Math.max(...)] of counts, which are not negative. *)
Definition max_count (cs : list LineCounter) : Z := foldr (fun c m => Z.max (count c) m) 0 cs.

Definition mapLine (l : RawLine) : Line :=
  let cs := (fun c => mkLineCounter (colStart c) (colEnd c) (Z.abs (count c))) <$> r_counters l in
  {| line := r_line l; lineColor := getLineColor l; html := colorLineCounters (r_line l) cs;
     lineHits := match cs with [] => None | _ => Some (max_count cs) end; counters := cs |}.

Definition getFileDetails (f : RawFile) : FileDetails :=
  {| filename := r_filename f;
     executedLines := count_if (fun l => match r_counters l with [] => false | _ => true end) (r_lines f);
     lines := mapLine <$> r_lines f |}.

(** [getFiles] *)
Definition mapFiles (l : list (string * Qc * string)) : list File :=
  (fun f => mkFile f.1.1 f.1.2 f.2) <$> l.

(** ** Store *)

(** [activeFile] is undefined, the empty object that a spread of undefined makes,
    or a file. *)
Inductive ActiveFile := NoFile | EmptyObject | TheFile (f : File).

Record State := mkState {
  directories : list Directory;
  activeDirectory : option Directory;
  files : list File;
  filteredFiles : list File;
  activeFile : ActiveFile;
  activeFileDetails : option FileDetails;
  sort_ : TableSort;
  filterText : option string
}.

Inductive Action :=
| Init
| Close
| GetDirectories
| GetDirectoriesSuccess (payload : list Directory)
| SetActiveDirectory (payload : Directory)
| GetFiles
| GetFilesSuccess (payload : list File)
| GetFileDetails (payload : option File)
| GetFileDetailsSuccess (payload : FileDetails)
| Sort (payload : TableSort)
| FilterFiles (payload : string).

Definition initialState : State :=
  mkState [] None [] [] NoFile None (mkTableSort "path" ASC) None.

Definition matches (text : option string) (f : File) : bool :=
  match text with
  | Some t => if truthy_str t then string_includes t (toLowerCase (path f)) else true
  | None => true
  end.

Definition filterFiles (l : list File) (text : option string) : list File := List.filter (matches text) l.

Section Store.
Context `{TableSorter File}.

Definition sortFiles (l : list File) (ts : TableSort) : list File := sort l ts ["path"] false.

Definition fuzzingReducer (s : State) (a : Action) : State :=
  match a with
  | GetDirectoriesSuccess payload =>
    if bool_decide (payload = directories s) then s
    else mkState payload (activeDirectory s) (files s) (filteredFiles s) (activeFile s)
           (activeFileDetails s) (sort_ s) (filterText s)
  | SetActiveDirectory payload =>
    if bool_decide (Some (fullName payload) = fullName <$> activeDirectory s) then s
    else mkState (directories s) (Some payload) (files s) (filteredFiles s) NoFile None (sort_ s) (filterText s)
  | GetFilesSuccess payload =>
    let fs := sortFiles payload (sort_ s) in
    let filtered := filterFiles fs (filterText s) in
    if bool_decide (filtered = filteredFiles s) then s
    else mkState (directories s) (activeDirectory s) fs filtered (activeFile s)
           (activeFileDetails s) (sort_ s) (filterText s)
  | GetFileDetails payload =>
    mkState (directories s) (activeDirectory s) (files s) (filteredFiles s)
      match payload with Some f => TheFile f | None => NoFile end
      (activeFileDetails s) (sort_ s) (filterText s)
  | GetFileDetailsSuccess payload =>
    if bool_decide (Some payload = activeFileDetails s) then s
    else mkState (directories s) (activeDirectory s) (files s) (filteredFiles s)
           match activeFile s with NoFile => EmptyObject | f => f end
           (Some payload) (sort_ s) (filterText s)
  | Sort payload =>
    mkState (directories s) (activeDirectory s) (files s) (sortFiles (filteredFiles s) payload)
      (activeFile s) (activeFileDetails s) payload (filterText s)
  | FilterFiles payload =>
    mkState (directories s) (activeDirectory s) (files s)
      (sortFiles (filterFiles (files s) (Some payload)) (sort_ s))
      (activeFile s) (activeFileDetails s) (sort_ s) (Some payload)
  | Close => initialState
  | Init | GetDirectories | GetFiles => s
  end.
End Store.

(** ** Toolbar *)

(** The text the search field dispatches. *)
Definition search_action (value : string) : Action := FilterFiles (toLowerCase (trim value)).

(** The mean coverage; [None] is not a number. *)
Definition overallCoverage (l : list File) : option Qc :=
  match l with
  | [] => None
  | _ => Some (fold_left (fun acc f => acc + coverage f) l 0 / Qc_of_Z (Z.of_nat (length l)))%Qc
  end.

Definition coverageColor (c : option Qc) : string :=
  match c with
  | Some q => if bool_decide (Qc_of_Z 80 < q)%Qc then "success"
              else if bool_decide (Qc_of_Z 50 < q)%Qc then "aware" else "warn"
  | None => "warn"
  end.

(** ** Effects *)

(** Each effect switches to the request of its latest action; the answers of the
    earlier ones are lost. *)
(** An action of [ofType] with the address it leads to, or an outcome. *)
Inductive Event (T : Type) := OnAction (url : result string) | OnOutcome (o : outcome T).
Arguments OnAction {T} _.
Arguments OnOutcome {T} _.

Definition failure (now : string) (fallback : Action) (err : JsError) : list (dispatched Action) :=
  [ErrorAdd (addError now err GENERIC); Dispatch fallback].

Definition emptyDetails : FileDetails := mkDetails "" 0 [].

(** The address of a request; the active directory may be undefined. *)
Definition files_url (dir : option Directory) : result string :=
  match dir with
  | Some d => Ok ("assets/reports/" +:+ fullName d +:+ "/rustindex.json")
  | None => Throw "Cannot read properties of undefined (reading 'fullName')"
  end.

Definition details_url (dir : option Directory) (f : File) : result string :=
  match dir with
  | Some d => Ok ("assets/reports/" +:+ fullName d +:+ "/" +:+ f_name f)
  | None => Throw "Cannot read properties of undefined (reading 'fullName')"
  end.

Definition switched {T} (fallback : Action) (wrap : T -> Action) (now : string) (inFlight : option string)
    (ev : Event T) : option string * list (dispatched Action) :=
  match ev with
  | OnAction (Ok url) => (Some url, [])
  | OnAction (Throw e) => (None, failure now fallback (mkJsError e None ""))
  | OnOutcome o =>
    match inFlight with
    | Some _ => (None, match o with Next t => [Dispatch (wrap t)] | Failed err => failure now fallback err end)
    | None => (None, [])
    end
  end.

(** [getDirectories$] *)
Definition getDirectories_effect (readable : string -> result string) (getTime : string -> option Z)
    : string -> option string -> Event (list string) -> option string * list (dispatched Action) :=
  switched (GetDirectoriesSuccess [])
    (fun l => GetDirectoriesSuccess (mapGetDirectoryNamesResponse readable getTime l)).

(** [getFiles$] *)
Definition getFiles_effect : string -> option string -> Event (list (string * Qc * string)) ->
    option string * list (dispatched Action) :=
  switched (GetFilesSuccess []) (fun l => GetFilesSuccess (mapFiles l)).

(** [getFileDetails$] *)
Definition getFileDetails_effect : string -> option string -> Event RawFile ->
    option string * list (dispatched Action) :=
  switched (GetFileDetailsSuccess emptyDetails) (fun f => GetFileDetailsSuccess (getFileDetails f)).

(** What an action of the page means for the details: a missing file does not
    pass the filter, so it does not cancel the request in flight. *)
Definition details_event (s : State) (payload : option File) : option (Event RawFile) :=
  match payload with Some f => Some (OnAction (details_url (activeDirectory s) f)) | None => None end.
(** ** Lines of code *)

(** A reader of html: a tag is what stands between angle brackets, and the three entities are the characters they stand
    for; [skip] counts the characters of an entity that are left. *)
Inductive Token := Tag (body : string) | Char (c : Ascii.ascii).

Fixpoint read_html (skip : nat) (tag : option string) (s : string) : option (list Token) :=
  match s, skip, tag with
  | EmptyString, O, None => Some []
  | EmptyString, _, _ => None
  | String _ s', S skip', _ => read_html skip' tag s'
  | String c s', O, Some body =>
    if Ascii.eqb c ">"%char then cons (Tag body) <$> read_html 0 None s'
    else read_html 0 (Some (body +:+ String c EmptyString)) s'
  | String c s', O, None =>
    if Ascii.eqb c "<"%char then read_html 0 (Some EmptyString) s'
    else if String.prefix "&nbsp;" s then cons (Char " ") <$> read_html 5 None s'
    else if String.prefix "&lt;" s then cons (Char "<") <$> read_html 3 None s'
    else if String.prefix "&gt;" s then cons (Char ">") <$> read_html 3 None s'
    else cons (Char c) <$> read_html 0 None s'
  end.

(** The characters, each with the tag of the span around it, and whether a span is left open; [None] when a span is opened
    inside another, closed without being open, or when there is another tag. *)
Fixpoint painted (span : option string) (ts : list Token) : option (list (Ascii.ascii * option string) * bool) :=
  match ts with
  | [] => Some ([], match span with Some _ => true | None => false end)
  | Char c :: ts' => (fun r => ((c, span) :: r.1, r.2)) <$> painted span ts'
  | Tag body :: ts' =>
    match span with
    | Some _ => if String.eqb body "/span" then painted None ts' else None
    | None => if String.prefix "span " body then painted (Some body) ts' else None
    end
  end.

Definition display (span : option string) (html : string) : option (list (Ascii.ascii * option string) * bool) :=
  read_html 0 None html ≫= painted span.

(** The span a counter is to have: red when it was never hit, green otherwise, with the number of its hits. *)
Definition wanted (k : LineCounter) : string :=
  let q := quote in
  if count k =? 0 then
    "span style=" +:+ q +:+ "color:var(--base-primary);background:var(--warn-secondary)" +:+ q +:+ " h=" +:+ q +:+ "0" +:+ q
  else
    "span style=" +:+ q +:+ "color:var(--base-primary);background:var(--success-secondary)" +:+ q +:+ " h=" +:+ q +:+
    show (count k) +:+ q.

(** The characters of a line from a column on, each with the span of its first counter. *)
Fixpoint coloured (cs : list LineCounter) (column : Z) (s : string) : list (Ascii.ascii * option string) :=
  match s with
  | EmptyString => []
  | String c s' => (c, wanted <$> List.find (covers column) cs) :: coloured cs (column + 1) s'
  end.

Definition is_letter (c : Ascii.ascii) : bool :=
  let n := Z.of_nat (Ascii.nat_of_ascii c) in
  ((65 <=? n) && (n <=? 90)) || ((97 <=? n) && (n <=? 122)).

Definition begins_letter (s : string) : bool := match s with EmptyString => false | String c _ => is_letter c end.

(** No ampersand begins an entity: none is followed by a letter or a number sign. *)
Fixpoint plain (s : string) : bool :=
  match s with
  | EmptyString => true
  | String c s' =>
    negb (Ascii.eqb c "&"%char && (begins_letter s' || String.prefix "#" s')) && plain s'
  end.

Fixpoint no_bracket (s : string) : bool :=
  match s with EmptyString => true | String c s' => negb (Ascii.eqb c ">"%char) && no_bracket s' end.

Lemma no_bracket_app a b : no_bracket (a +:+ b) = no_bracket a && no_bracket b.
Proof. induction a as [|c a IH]; [done|]. change (negb (Ascii.eqb c ">"%char) && no_bracket (a +:+ b) = negb (Ascii.eqb c ">"%char) && no_bracket a && no_bracket b). by rewrite IH, andb_assoc. Qed.

Lemma no_bracket_pretty_go x s : no_bracket s = true -> no_bracket (pretty_N_go x s) = true.
Proof.
  revert s. induction (N.lt_wf_0 x) as [x _ IH]. intros s Hs.
  destruct (decide (x = 0%N)) as [->|Hx]; [by rewrite pretty_N_go_0|].
  rewrite pretty_N_go_step by lia. apply IH; [apply N.div_lt; lia|]. cbn [no_bracket]. rewrite Hs.
  unfold pretty_N_char. by repeat case_match.
Qed.

Lemma no_bracket_show n : no_bracket (show n) = true.
Proof.
  assert (HN : forall x : N, no_bracket (pretty x) = true).
  { intros x. unfold pretty, pretty_N. destruct (decide _); [done|]. by apply no_bracket_pretty_go. }
  unfold show. destruct n; [done|apply HN|apply HN].
Qed.

Lemma string_app_cons c (a b : string) : String c a +:+ b = String c (a +:+ b).
Proof. done. Qed.

Lemma string_app_empty (a : string) : "" +:+ a = a.
Proof. done. Qed.

Lemma read_tag acc body r :
  no_bracket body = true ->
  read_html 0 (Some acc) (body +:+ String ">"%char r) = cons (Tag (acc +:+ body)) <$> read_html 0 None r.
Proof.
  revert acc. induction body as [|c body IH]; intros acc H.
  - by rewrite string_app_nil_r.
  - cbn [no_bracket] in H. apply andb_true_iff in H as [Hc%negb_true_iff H]. rewrite string_app_cons. cbn [read_html].
    by rewrite Hc, IH, string_app_assoc.
Qed.

Lemma open_wanted k : open_span k = String "<"%char (wanted k +:+ String ">"%char EmptyString).
Proof.
  unfold open_span, wanted. destruct (Z.eqb_spec (count k) 0) as [->|_]; [done|]. by rewrite !string_app_assoc.
Qed.

Lemma wanted_no_bracket k : no_bracket (wanted k) = true.
Proof.
  unfold wanted. destruct (_ =? 0); [done|]. by rewrite !no_bracket_app, no_bracket_show.
Qed.

Lemma wanted_span k : String.prefix "span " (wanted k) = true.
Proof. unfold wanted. by destruct (_ =? 0). Qed.

Lemma display_open k r : display None (open_span k +:+ r) = display (Some (wanted k)) r.
Proof.
  unfold display. rewrite open_wanted, string_app_cons, string_app_assoc, string_app_cons.
  change (read_html 0 None (String "<" ?x)) with (read_html 0 (Some "") x).
  rewrite read_tag by apply wanted_no_bracket. rewrite !string_app_empty. destruct (read_html 0 None r) as [ts|]; [|done].
  cbn [fmap option_fmap option_map mbind option_bind painted].
  by rewrite wanted_span.
Qed.

Lemma display_close x r : display (Some x) ("</span>" +:+ r) = display None r.
Proof.
  change ("</span>" +:+ r) with (String "<" ("/span" +:+ String ">" r)). unfold display.
  change (read_html 0 None (String "<" ?x)) with (read_html 0 (Some "") x). rewrite read_tag by done.
  by destruct (read_html 0 None r).
Qed.

Lemma prefix_letter x p r : is_letter x = true -> begins_letter r = false -> String.prefix (String x p) r = false.
Proof.
  intros Hx Hr. destruct r as [|d r]; [done|]. cbn in Hr |- *. destruct (Ascii.ascii_dec x d) as [->|]; [congruence|done].
Qed.

Lemma read_char c r :
  (c = "&"%char -> begins_letter r = false) -> read_html 0 None (String c r) =
    if Ascii.eqb c "<"%char then read_html 0 (Some EmptyString) r else cons (Char c) <$> read_html 0 None r.
Proof.
  intros Hr. cbn [read_html]. destruct (Ascii.eqb c "<"); [done|].
  assert (Hp : forall x p, is_letter x = true -> String.prefix (String "&" (String x p)) (String c r) = false).
  { intros x p Hx. cbn [String.prefix]. destruct (Ascii.ascii_dec "&" c) as [<-|]; [|done]. by apply prefix_letter, Hr. }
  by rewrite !Hp.
Qed.

Definition on_line (c : Ascii.ascii) (span : option string) (r : list (Ascii.ascii * option string) * bool) :
  list (Ascii.ascii * option string) * bool := ((c, span) :: r.1, r.2).

Lemma display_cons c span r :
  read_html 0 None r ≫= (fun ts => painted span (Char c :: ts)) = on_line c span <$> display span r.
Proof. unfold display. by destruct (read_html 0 None r). Qed.

Lemma display_raw span c r :
  c <> "<"%char -> (c = "&"%char -> begins_letter r = false) ->
  display span (String c r) = on_line c span <$> display span r.
Proof.
  intros Hc Hr. rewrite <- display_cons. unfold display. rewrite read_char by done.
  rewrite (proj2 (Ascii.eqb_neq c "<") Hc). by destruct (read_html 0 None r).
Qed.

Lemma display_char span c r :
  (c = "&"%char -> begins_letter r = false) ->
  display span (escape_char c +:+ r) = on_line c span <$> display span r.
Proof.
  intros Hr. unfold escape_char. destruct (Ascii.eqb_spec c " ") as [->|H1]; [|destruct (Ascii.eqb_spec c "<") as [->|H2];
    [|destruct (Ascii.eqb_spec c ">") as [->|H3]]].
  4: by apply display_raw.
  all: rewrite <- display_cons; unfold display.
  - replace (read_html 0 None ("&nbsp;" +:+ r)) with (cons (Char " ") <$> read_html 0 None r) by (by destruct r). by destruct (read_html 0 None r).
  - replace (read_html 0 None ("&lt;" +:+ r)) with (cons (Char "<") <$> read_html 0 None r) by (by destruct r). by destruct (read_html 0 None r).
  - replace (read_html 0 None ("&gt;" +:+ r)) with (cons (Char ">") <$> read_html 0 None r) by (by destruct r). by destruct (read_html 0 None r).
Qed.

Lemma display_nil span : display span "" = Some ([], match span with Some _ => true | None => false end).
Proof. done. Qed.
(** Counters that share a column have the same columns. *)
Definition disjoint_counters (cs : list LineCounter) : Prop :=
  forall k k' column, k ∈ cs -> k' ∈ cs -> covers column k = true -> covers column k' = true ->
    colStart k = colStart k' /\ colEnd k = colEnd k'.

(** The column is inside a counter that began before it. *)
Definition inside (cs : list LineCounter) (column : Z) : bool :=
  existsb (fun k => (colStart k <? column) && (column <=? colEnd k)) cs.

Lemma inside_spec cs column :
  inside cs column = true <-> exists k, k ∈ cs /\ colStart k < column <= colEnd k.
Proof.
  unfold inside. rewrite existsb_exists. setoid_rewrite andb_true_iff.
  setoid_rewrite Z.ltb_lt. setoid_rewrite Z.leb_le. setoid_rewrite list_elem_of_In. done.
Qed.

Lemma covers_spec column k : covers column k = true <-> colStart k <= column <= colEnd k.
Proof. unfold covers. rewrite andb_true_iff, !Z.leb_le. done. Qed.

Lemma inside_uncovered cs column column' :
  List.find (covers column) cs = None -> column <= column' <= column + 1 -> inside cs column' = false.
Proof.
  intros Hf Hc. apply not_true_iff_false. rewrite inside_spec. intros (k & Hk & Hin).
  apply list_elem_of_In in Hk. apply (find_none _ _ Hf) in Hk.
  apply not_true_iff_false in Hk. apply Hk. apply covers_spec. lia.
Qed.

Lemma inside_covered cs k column column' :
  disjoint_counters cs -> List.find (covers column) cs = Some k -> column <= column' <= column + 1 ->
  inside cs column' = (colStart k <? column') && (column' <=? colEnd k).
Proof.
  intros Hd Hf Hc. apply find_some in Hf as [Hk Hcov]. apply list_elem_of_In in Hk.
  apply Bool.eq_iff_eq_true. rewrite inside_spec, andb_true_iff, Z.ltb_lt, Z.leb_le. split.
  - intros (k' & Hk' & Hin). destruct (Hd k k' column) as [-> ->]; [done..| |done].
    apply covers_spec. lia.
  - intros Hin. exists k. split; [done|lia].
Qed.

(** The counter of a column is that of the next one, up to its end. *)
Lemma find_next cs k column :
  disjoint_counters cs -> List.find (covers column) cs = Some k -> column < colEnd k ->
  List.find (covers (column + 1)) cs = Some k.
Proof.
  intros Hd Hf Hlt. pose proof Hf as Hf'. apply find_some in Hf' as [Hk Hc]. apply list_elem_of_In in Hk.
  rewrite <- Hf. assert (Hs : forall k', k' ∈ cs -> covers (column + 1) k' = covers column k').
  { intros k' Hk'. apply Bool.eq_iff_eq_true. apply covers_spec in Hc. split; intros H'; apply covers_spec.
    - destruct (Hd k k' (column + 1)) as [<- <-]; [done|done|apply covers_spec; lia|done|lia].
    - destruct (Hd k k' column) as [<- <-]; [done|done|apply covers_spec; lia|done|lia]. }
  clear -Hs. induction cs as [|x cs IH]; [done|]. cbn. rewrite (Hs x) by left.
  destruct (covers column x); [done|]. apply IH. intros k' Hk'. apply Hs. by right.
Qed.

(** The span that is open before a column. *)
Definition open_at (cs : list LineCounter) (column : Z) : option string :=
  if inside cs column then wanted <$> List.find (covers column) cs else None.

Lemma html_begins cs column s : begins_letter s = false -> begins_letter (line_html cs column s) = false.
Proof.
  destruct s as [|c s]; [done|]. intros Hc. cbn [line_html]. destruct (match List.find _ cs with Some _ => _ | None => _ end)
    as [|x t] eqn:E.
  - rewrite string_app_empty. unfold escape_char. by repeat destruct (Ascii.eqb c _).
  - destruct (List.find _ cs) as [k|]; [|done]. destruct (column =? colStart k); [|done].
    rewrite open_wanted in E. injection E as <- _. done.
Qed.

Lemma rest_displayed cs k column s r :
  disjoint_counters cs -> List.find (covers column) cs = Some k ->
  display (open_at cs (column + 1)) (line_html cs (column + 1) s) = r ->
  display (Some (wanted k)) ((if column =? colEnd k then "</span>" else "") +:+ line_html cs (column + 1) s) = r.
Proof.
  intros Hd Hf <-. unfold open_at. rewrite (inside_covered cs k column) by (done || lia).
  pose proof Hf as [_ Hcov]%find_some. apply covers_spec in Hcov.
  destruct (Z.eqb_spec column (colEnd k)), (Z.ltb_spec (colStart k) (column + 1)), (Z.leb_spec (column + 1) (colEnd k)); try lia.
  - apply display_close.
  - cbn [andb]. by rewrite (find_next cs k column) by (done || lia).
Qed.

Lemma line_displayed cs s column :
  disjoint_counters cs -> plain s = true ->
  display (open_at cs column) (line_html cs column s) =
    Some (coloured cs column s, inside cs (column + Z.of_nat (String.length s))).
Proof.
  intros Hd. revert column. induction s as [|c s IH]; intros column Hs.
  { cbn [line_html coloured String.length]. rewrite Z.add_0_r, display_nil. unfold open_at.
    destruct (inside cs column) eqn:Hi; [|done]. destruct (List.find (covers column) cs) eqn:Hf; [done|].
    by rewrite (inside_uncovered cs column column Hf) in Hi by lia. }
  cbn [plain] in Hs. apply andb_true_iff in Hs as [Hc Hs].
  assert (Hb : c = "&"%char -> begins_letter s = false).
  { intros ->. cbn in Hc. by apply negb_true_iff, orb_false_iff in Hc as [? _]. }
  specialize (IH (column + 1) Hs).
  replace (column + Z.of_nat (String.length (String c s))) with (column + 1 + Z.of_nat (String.length s))
    by (cbn [String.length]; lia).
  cbn [line_html coloured]. destruct (List.find (covers column) cs) as [k|] eqn:Hf.
  - apply (rest_displayed cs k column s _ Hd Hf) in IH. set (rest := _ +:+ line_html cs (column + 1) s) in *.
    assert (Hr : c = "&"%char -> begins_letter rest = false).
    { intros E. unfold rest. destruct (column =? colEnd k); [done|]. by apply html_begins, Hb. }
    unfold open_at. rewrite Hf, (inside_covered cs k column column Hd Hf) by lia.
    apply find_some in Hf as [_ Hcov]. apply covers_spec in Hcov. replace (column <=? colEnd k) with true by lia.
    destruct (Z.eqb_spec column (colStart k)) as [<-|].
    + rewrite Z.ltb_irrefl. cbn [andb]. by rewrite display_open, display_char, IH.
    + replace (colStart k <? column) with true by lia. cbn [andb fmap option_fmap option_map].
      by rewrite string_app_empty, display_char, IH.
  - rewrite !string_app_empty. unfold open_at in *. rewrite !(inside_uncovered cs column _ Hf) in * by lia.
    rewrite display_char, IH; [done|]. intros E. by apply html_begins, Hb.
Qed.

Lemma escaped_displayed s column : plain s = true -> display None (escape_angles s) = Some (coloured [] column s, false).
Proof.
  revert column. induction s as [|c s IH]; intros column Hs; [done|].
  cbn [plain] in Hs. apply andb_true_iff in Hs as [Hc Hs]. specialize (IH (column + 1) Hs).
  assert (Hb : c = "&"%char -> begins_letter (escape_angles s) = false).
  { intros ->. cbn in Hc. apply negb_true_iff, orb_false_iff in Hc as [Hc _]. destruct s as [|d s]; [done|].
    cbn in Hc |- *. by destruct (Ascii.eqb d "<"), (Ascii.eqb d ">"). }
  cbn [escape_angles coloured List.find fmap option_fmap option_map].
  destruct (Ascii.eqb_spec c " ") as [->|H1]; [|].
  { change (display None (String " " (escape_angles s)) = Some ((" "%char, None) :: coloured [] (column + 1) s, false)).
    by rewrite display_raw, IH. }
  pose proof (display_char None c (escape_angles s) Hb) as E. unfold escape_char in E.
  rewrite (proj2 (Ascii.eqb_neq c " ") H1) in E. by rewrite E, IH.
Qed.

(** C40: Read as html, the coloured line shows exactly the characters of the line, each in a span of its own colour: that of
    its first counter, red when the counter was never hit and green otherwise, with its hits, and no span outside the
    counters; no span is opened inside another or closed twice, and one is left open exactly when a counter runs over the
    end of the line.  The line has no ampersand that begins an entity, the counters begin in the line, and those that share
    a column have the same columns. *)
Theorem line_html_shows (s : string) (cs : list LineCounter) :
  plain s = true -> disjoint_counters cs -> Forall (fun k => 0 <= colStart k) cs ->
  exists opened, display None (colorLineCounters s cs) = Some (coloured cs 0 s, opened) /\
    (opened = true <-> exists k, k ∈ cs /\ colStart k < Z.of_nat (String.length s) <= colEnd k).
Proof.
  intros Hs Hd H0. exists (inside cs (0 + Z.of_nat (String.length s))). split; [|apply inside_spec].
  destruct cs as [|k cs]; [by apply escaped_displayed|].
  assert (Hi : inside (k :: cs) 0 = false).
  { apply not_true_iff_false. rewrite inside_spec. intros (k' & Hk & Hin).
    rewrite Forall_forall in H0. apply H0 in Hk. lia. }
  rewrite <- line_displayed by done. unfold open_at. by rewrite Hi.
Qed.

Lemma line_html_shows_witness :
  exists opened, display None (colorLineCounters "a < b && c" [mkLineCounter 0 4 2; mkLineCounter 6 12 0]) =
      Some (coloured [mkLineCounter 0 4 2; mkLineCounter 6 12 0] 0 "a < b && c", opened) /\
    (opened = true <-> exists k, k ∈ [mkLineCounter 0 4 2; mkLineCounter 6 12 0] /\
       colStart k < Z.of_nat (String.length "a < b && c") <= colEnd k).
Proof.
  apply (line_html_shows "a < b && c" [mkLineCounter 0 4 2; mkLineCounter 6 12 0]); [done| |by repeat constructor].
  intros k k' column Hk Hk' Hc Hc'. apply covers_spec in Hc, Hc'.
  rewrite !elem_of_cons in Hk, Hk'.
  destruct Hk as [->|[->|Hk]]; destruct Hk' as [->|[->|Hk']]; try (cbn in *; lia);
    by apply not_elem_of_nil in Hk || by apply not_elem_of_nil in Hk'.
Defined.

Definition positive (c : LineCounter) : bool := 0 <? count c.

Lemma line_color_success l :
  line_color_loop "success" l = if forallb positive l then "success" else "aware".
Proof. induction l as [|c l IH]; [done|]. cbn. unfold positive at 1. by destruct (0 <? count c). Qed.

Lemma line_color_warn l :
  line_color_loop "warn" l = if existsb positive l then "aware" else "warn".
Proof. induction l as [|c l IH]; [done|]. cbn. unfold positive at 1. by destruct (0 <? count c). Qed.

(** A line is green when all of its counters were hit, red when none was, and
    yellow otherwise; its hits are those of the counter that was hit most. *)
Lemma line_coloured l :
  r_counters l <> [] ->
  lineColor (mapLine l) =
    Some (if forallb positive (r_counters l) then "success"
          else if existsb positive (r_counters l) then "aware" else "warn") /\
  exists hits, lineHits (mapLine l) = Some hits /\
    Forall (fun c => Z.abs (count c) <= hits) (r_counters l).
Proof.
  destruct l as [text cs]. cbn [r_counters]. intros Hne. split.
  - cbn [mapLine lineColor getLineColor r_counters]. unfold getLineColor. cbn [r_counters].
    destruct cs as [|c cs]; [done|]. cbn [line_color_loop forallb existsb]. unfold positive at 1 3.
    destruct (0 <? count c); cbn [String.eqb Ascii.eqb Bool.eqb andb orb].
    + rewrite line_color_success. by destruct (forallb positive cs).
    + by rewrite line_color_warn.
  - cbn [mapLine lineHits r_counters]. exists (max_count ((fun c => mkLineCounter (colStart c) (colEnd c) (Z.abs (count c))) <$> cs)).
    split; [by destruct cs|]. clear Hne. induction cs as [|c cs IH]; constructor; cbn; [lia|].
    eapply List.Forall_impl; [|exact IH]. cbn. intros d Hd. unfold max_count in Hd. lia.
Qed.

(** The escaping is not faithful: an entity in the source is shown as the
    character it stands for. *)
Lemma entity_not_escaped : colorLineCounters "&lt;" [] = colorLineCounters "<" [].
Proof. reflexivity. Qed.

(** ** Directories *)

Lemma underscore_split s :
  string_includes "_" s = true -> before_underscore s +:+ "_" +:+ after_underscore s = s.
Proof.
  induction s as [|c s IH]; [done|]. cbn [string_includes string_prefix before_underscore after_underscore].
  rewrite Ascii.eqb_sym. destruct (Ascii.eqb_spec c "_") as [->|Hc]; [done|].
  cbn [andb orb]. intros Hi.
  change (String c (before_underscore s +:+ "_" +:+ after_underscore s) = String c s). by rewrite IH.
Qed.

(** Every directory is listed once, under its name without the date, and the
    newest is first. *)
Lemma directories_listed readable getTime names :
  Forall (fun n => is_Some (dateNumber (mapDirectory readable getTime n))) names ->
  let ds := mapGetDirectoryNamesResponse readable getTime names in
  fullName <$> ds ≡ₚ names /\
  Sorted (fun a b => exists x y, dateNumber a = Some x /\ dateNumber b = Some y /\ y <= x) ds /\
  Forall (fun d => string_includes "_" (fullName d) = true ->
                   before_underscore (fullName d) +:+ "_" +:+ name d = fullName d) ds.
Proof.
  intros Hn ds. assert (Hperm : ds ≡ₚ mapDirectory readable getTime <$> names) by apply js_sort_perm.
  assert (Hfull : forall n, fullName (mapDirectory readable getTime n) = n).
  { intros n. unfold mapDirectory. by destruct (readable _). }
  assert (Hsome : Forall (fun d => is_Some (dateNumber d)) ds).
  { rewrite Hperm. by apply Forall_fmap. }
  split; [|split].
  - rewrite Hperm, <- list_fmap_compose. apply Permutation_refl'.
    transitivity (id <$> names); [|apply list_fmap_id]. apply list_fmap_ext. intros _ n _. apply Hfull.
  - assert (Hs : Sorted (cmp_le by_date) ds).
    { apply js_sort_sorted. intros x y. unfold by_date. destruct (dateNumber x), (dateNumber y); lia. }
    clearbody ds. clear Hperm. induction Hs as [|d ds _ IH Hd]; [constructor|].
    apply Forall_cons_iff in Hsome as [[x Hx] Hds]. constructor; [by apply IH|].
    destruct Hd as [|e ds Hd]; constructor. apply Forall_cons_iff in Hds as [[y Hy] _].
    exists x, y. unfold cmp_le, by_date in Hd. rewrite Hx, Hy in Hd. by repeat split; [..|lia].
  - rewrite Hperm. apply Forall_fmap, List.Forall_forall. intros n _. cbn. rewrite Hfull. intros Hi.
    unfold mapDirectory. destruct (readable _); cbn [name]; rewrite Hi; by apply underscore_split.
Qed.

(** ** Store *)

Section StoreProperties.
Context `{TableSorter File}.

(** The table is the filtered list of the files the store holds. *)
Definition consistent (s : State) : Prop :=
  filteredFiles s ≡ₚ filterFiles (files s) (filterText s).

Lemma fuzzingReducer_consistent s a : consistent s -> consistent (fuzzingReducer s a).
Proof.
  unfold consistent. intros Hs. destruct a; cbn; try case_bool_decide; try done; unfold sortFiles.
  - by rewrite sort_perm.
  - by rewrite sort_perm.
Qed.

(** In every state of the page the table has exactly the files whose path contains
    the text of the search field. *)
Lemma files_table actions :
  consistent (fold_left fuzzingReducer actions initialState).
Proof.
  induction actions as [|a actions IH] using rev_ind; [apply Permutation_refl|].
  rewrite fold_left_app. cbn [fold_left]. by apply fuzzingReducer_consistent.
Qed.

Lemma search_shows s value f :
  let s' := fuzzingReducer s (search_action value) in
  f ∈ filteredFiles s' <->
    f ∈ files s /\ (toLowerCase (trim value) = "" \/
                    string_includes (toLowerCase (trim value)) (toLowerCase (path f)) = true).
Proof.
  cbn. unfold sortFiles. rewrite sort_elem. unfold filterFiles. rewrite elem_of_lfilter. cbn [matches].
  destruct (toLowerCase (trim value)) as [|c t]; cbn [truthy_str].
  - split; intros [Hf _]; (split; [done|]); [by left|done].
  - split; intros [Hf Ht]; (split; [done|]); [by right|by destruct Ht].
Qed.

(** New files that do not change the filtered list are forgotten: without the
    filter the table still has the files of before. *)
Lemma files_forgotten s payload :
  filterFiles (sortFiles payload (sort_ s)) (filterText s) = filteredFiles s ->
  files (fuzzingReducer s (GetFilesSuccess payload)) = files s.
Proof. intros Hf. cbn. by rewrite bool_decide_eq_true_2. Qed.

(** Closing the side panel does not cancel the request of the details, and its
    answer makes the active file an empty object, which opens the panel again. *)
Lemma panel_reopened now url s raw :
  details_event s None = None /\
  let s1 := fuzzingReducer s (GetFileDetails None) in
  let out := (getFileDetails_effect now (Some url) (OnOutcome (Next raw))).2 in
  activeFile s1 = NoFile /\
  (activeFileDetails s <> Some (getFileDetails raw) ->
   reduce_all (fun s a => Ok (fuzzingReducer s a)) s1 out =
     Ok (mkState (directories s) (activeDirectory s) (files s) (filteredFiles s) EmptyObject
           (Some (getFileDetails raw)) (sort_ s) (filterText s))).
Proof.
  split; [done|]. cbn zeta. split; [done|]. intros Hd. cbn -[getFileDetails].
  by rewrite bool_decide_eq_false_2.
Qed.
End StoreProperties.

(** Two directories: the files of the second one are the only ones shown, even if
    the answer for the first comes late. *)
Lemma latest_directory_wins now d1 d2 inFlight l :
  let e1 := (getFiles_effect now inFlight (OnAction (files_url (Some d1)))).1 in
  let e2 := (getFiles_effect now e1 (OnAction (files_url (Some d2)))).1 in
  e2 = Some ("assets/reports/" +:+ fullName d2 +:+ "/rustindex.json") /\
  getFiles_effect now e2 (OnOutcome (Next l)) = (None, [Dispatch (GetFilesSuccess (mapFiles l))]).
Proof. done. Qed.

(** Asking for files before a directory is chosen is reported as an error. *)
Lemma no_directory_reported now inFlight :
  exists e, getFiles_effect now inFlight (OnAction (files_url None)) =
    (None, [ErrorAdd e; Dispatch (GetFilesSuccess [])]) /\ err_type e = GENERIC.
Proof. by eexists. Qed.

End Fuzzing.
