(* ===== verification/Benchmarks.v ===== *)
(** * The wallet benchmark

    [src/frontend/src/app/features/benchmarks/wallets]: a page that sends batches
    of payments and zkapp commands from a table of test wallets. The store is
    [benchmarks-wallets.reducer.ts], the requests
    [benchmarks-wallets.service.ts] and [benchmarks-wallets-zk.service.ts], the
    effects [benchmarks-wallets.effects.ts].

    The table of test keys, the signer and the browser's random numbers and clock
    are parameters. Fees and amounts are numbers of a billionth of the token; the
    rounding of floating point numbers is not modelled. *)

From stdpp Require Import base list strings.
From S2P Require Import Prelude SharedLib Ledger Mempool.
Open Scope Z_scope.

Module Benchmarks.
Import Ledger.
Import Mempool (code_includes, remove_first, getTimeFromMemo, decodeMemo, removeUnicodeEscapes, browser_text).

(** ** Data *)

(** [BenchmarksWalletTransactionStatus]; a zkapp may leave the name of its error. *)
Inductive TxStatus := SENDING | GENERATED | ERROR | REJECTED | INCLUDED | Named (name : string).

Record Wallet := mkWallet {
  publicKey : string;
  privateKey : option string;
  minaTokens : Z;
  nonce : Z;
  lastTxCount : option jstr;
  lastTxTime : option string;
  lastTxMemo : option jstr;
  lastTxStatus : option TxStatus;
  successTx : Z;
  failedTx : Z;
  errorReason : option string
}.

(** The part of a wallet the node knows. *)
Record Account := mkAccount {
  a_publicKey : string; a_privateKey : option string; a_minaTokens : Z; a_nonce : Z
}.

Record Payment := mkPayment {
  p_from : string;
  p_nonce : Z;
  p_to : string;
  p_fee : Z;
  p_amount : Z;
  p_memo : jstr;
  p_validUntil : Z;
  p_privateKey : option string;
  p_blockSending : bool;
  p_dateTime : option string
}.

Record Zkapp := mkZkapp {
  payerPublicKey : string;
  payerPrivateKey : option string;
  z_fee : Z;
  z_nonce : Z;
  z_memo : jstr;
  accountUpdates : Z
}.

(** What the page reads of the transactions of the pool and of the chain. *)
Record PoolTx := mkPoolTx { sender : string; memo : jstr }.

Record SentStats := mkSent { success : Z; fail : Z }.

(** An [Error]; the name may be overwritten by undefined. *)
Record TxError := mkTxError { err_name : option string; err_message : string }.

Record State := mkState {
  wallets : list Wallet;
  blockSending : bool;
  txSendingBatch : option Z;
  sentTransactions : SentStats;
  sentTxCount : Z;
  txsToSend : list Payment;
  randomWallet : bool;
  activeWallet : option Wallet;
  sendingFee : Z;
  sendingAmount : Z;
  zkAppsSendingBatch : Z;
  zkAppsToSend : list Zkapp;
  sendingFeeZkapps : Z
}.

Inductive Action :=
| Close
| GetWallets (initialRequest : bool)
| GetWalletsSuccess (payload : list Account)
| UpdateWalletsSuccess (payload : list Wallet)
| ChangeTransactionBatch (payload : Z)
| ChangeZkAppsBatch (payload : Z)
| SendTxs
| SendTxSuccess (transactions : list Payment) (error : option TxError)
| SendZkApps
| SendZkAppsSuccess (zkApps : list Zkapp) (error : option TxError)
| ToggleRandomWallet
| SelectWallet (payload : option Wallet)
| ChangeAmount (payload : Z)
| ChangeFee (payload : Z)
| ChangeFeeZkApps (payload : Z)
| GetAllTxs
| GetAllTxsSuccess (mempoolTxs : option (list PoolTx)) (includedTxs : list PoolTx).

Definition initialState : State :=
  {| wallets := []; txsToSend := []; blockSending := false; txSendingBatch := None;
     sentTransactions := mkSent 0 0; sentTxCount := 0; randomWallet := true; activeWallet := None;
     sendingFee := 1000000; sendingAmount := 1000000000; zkAppsToSend := [];
     sendingFeeZkapps := 1000000; zkAppsSendingBatch := 1 |}.

(** What the browser gives: [Date.now()] for the transaction at a position of the
    batch, the random indices drawn for it (as many as the stack has room for
    calls), and the identifier in the storage. *)
Class Browser := mkBrowser {
  now : nat -> Z;
  draws : nat -> list nat;
  browserId : js jstr;
  readable : jstr -> string
}.

(** ** Memos *)

(** [s.split(',')] *)
Fixpoint split_comma (s : jstr) : list jstr :=
  match s with
  | [] => [[]]
  | c :: s' =>
    if c =? 44 then [] :: split_comma s'
    else match split_comma s' with
         | w :: ws => (c :: w) :: ws
         | [] => [[c]]
         end
  end.

Fixpoint leading_digits (acc : option Z) (s : jstr) : option Z :=
  match s with
  | c :: s' =>
    if (48 <=? c) && (c <=? 57) then leading_digits (Some (10 * default 0 acc + (c - 48))) s' else acc
  | [] => acc
  end.

(** [parseInt(memo.split(',')[1], 10)]; memos of the pool have no blanks and no
    signs. [None] is not a number. *)
Definition tx_counter (m : jstr) : option Z :=
  match split_comma m !! 1%nat with Some w => leading_digits None w | None => None end.

(** A comparison with what is not a number is false. *)
Definition greater (a b : option Z) : bool :=
  match a, b with Some x, Some y => y <? x | _, _ => false end.

Section Reducer.
Context `{Browser}.

Definition stress_memo (sent : Z) (i : nat) : jstr :=
  lit "S.T." ++ lit (show (now i)) ++ lit "," ++ lit (show (sent + Z.of_nat i + 1)) ++ lit "," ++
  browser_text browserId.

Definition getNonceForWallet (w : Wallet) : Z := Z.max (nonce w) 0.

(** The recursion ends when the stack does. *)
Fixpoint getRandomReceiver (l : list nat) (current : Wallet) (ws : list Wallet) : result string :=
  match l with
  | [] => Throw "Maximum call stack size exceeded"
  | index :: l' =>
    match ws !! index with
    | Some w => if String.eqb (publicKey w) (publicKey current)
                then getRandomReceiver l' current ws else Ok (publicKey w)
    | None => Throw "Cannot read properties of undefined (reading 'publicKey')"
    end
  end.

(** [a.slice(0, n)], where [n] may be undefined or negative. *)
Definition slice0 {A} (n : option Z) (l : list A) : list A :=
  match n with
  | Some n => if 0 <=? n then take (Z.to_nat n) l else take (length l - Z.to_nat (- n)) l
  | None => l
  end.

(** The length of [Array(n)]. *)
Definition array_length (n : option Z) : result nat :=
  match n with
  | Some n => if 0 <=? n then Ok (Z.to_nat n) else Throw "Invalid array length"
  | None => Ok 1%nat
  end.

(** [l.map((x, i) => f(i, x))] for a callback that may throw. *)
Fixpoint map_from {A B} (f : nat -> A -> result B) (i : nat) (l : list A) : result (list B) :=
  match l with
  | [] => Ok []
  | x :: l' =>
    match f i x with
    | Throw e => Throw e
    | Ok y => match map_from f (S i) l' with Ok ys => Ok (y :: ys) | Throw e => Throw e end
    end
  end.

Definition payment (s : State) (w : Wallet) (i : nat) (n : Z) (to : string) (block : bool) : Payment :=
  {| p_from := publicKey w; p_nonce := n; p_to := to; p_fee := sendingFee s; p_amount := sendingAmount s;
     p_memo := stress_memo (sentTxCount s) i; p_validUntil := 4294967295; p_privateKey := privateKey w;
     p_blockSending := block; p_dateTime := None |}.

Definition random_payment (s : State) (i : nat) (w : Wallet) : result Payment :=
  match getRandomReceiver (draws i) w (wallets s) with
  | Ok to => Ok (payment s w i (getNonceForWallet w) to false)
  | Throw e => Throw e
  end.

Definition active_payment (s : State) (w : Wallet) (i : nat) (_ : unit) : result Payment :=
  match wallets s !! i with
  | Some receiver => Ok (payment s w i (getNonceForWallet w + Z.of_nat i) (publicKey receiver) true)
  | None => Throw "Cannot read properties of undefined (reading 'publicKey')"
  end.

(** The batch of [SEND_TXS]. *)
Definition next_payments (s : State) : result (list Payment) :=
  if randomWallet s then map_from (random_payment s) 0 (slice0 (txSendingBatch s) (wallets s))
  else
    match activeWallet s with
    | None => Throw "Cannot read properties of undefined (reading 'nonce')"
    | Some w =>
      match array_length (txSendingBatch s) with
      | Throw e => Throw e
      | Ok n => map_from (active_payment s w) 0 (replicate n tt)
      end
    end.

Definition zkapp (s : State) (w : Wallet) (i : nat) (n : Z) : Zkapp :=
  {| payerPublicKey := publicKey w; payerPrivateKey := privateKey w; z_fee := sendingFeeZkapps s;
     z_nonce := n; z_memo := stress_memo (sentTxCount s) i; accountUpdates := 2 |}.

(** The batch of [SEND_ZKAPPS]. *)
Definition next_zkapps (s : State) : result (list Zkapp) :=
  if randomWallet s
  then Ok (mapi (fun i w => zkapp s w i (getNonceForWallet w)) (slice0 (Some (zkAppsSendingBatch s)) (wallets s)))
  else
    match activeWallet s with
    | None => Throw "Cannot read properties of undefined (reading 'nonce')"
    | Some w =>
      match array_length (Some (zkAppsSendingBatch s)) with
      | Throw e => Throw e
      | Ok n => Ok (mapi (fun i _ => zkapp s w i (getNonceForWallet w + Z.of_nat i)) (replicate n tt))
      end
    end.

(** ** Reducer *)

(** [{ successTx: 0, failedTx: 0, ...state.wallets[i], ...wallet }] *)
Definition merge_account (old : option Wallet) (a : Account) : Wallet :=
  match old with
  | Some w =>
    mkWallet (a_publicKey a) (a_privateKey a) (a_minaTokens a) (a_nonce a) (lastTxCount w) (lastTxTime w)
      (lastTxMemo w) (lastTxStatus w) (successTx w) (failedTx w) (errorReason w)
  | None =>
    mkWallet (a_publicKey a) (a_privateKey a) (a_minaTokens a) (a_nonce a) None None None None 0 0 None
  end.

Definition mark_sending (m : jstr) (w : Wallet) : Wallet :=
  mkWallet (publicKey w) (privateKey w) (minaTokens w) (nonce w) (lastTxCount w)
    (getTimeFromMemo readable (Some m)) (Some m) (Some SENDING) (successTx w) (failedTx w) (errorReason w).

(** The first transaction of the batch that a wallet sends. *)
Definition memo_of_payment (txs : list Payment) (w : Wallet) : option jstr :=
  p_memo <$> List.find (fun tx => String.eqb (p_from tx) (publicKey w)) txs.

Definition memo_of_zkapp (zs : list Zkapp) (w : Wallet) : option jstr :=
  z_memo <$> List.find (fun z => String.eqb (payerPublicKey z) (publicKey w)) zs.

Definition mark_all (f : Wallet -> option jstr) (ws : list Wallet) : list Wallet :=
  (fun w => match f w with Some m => mark_sending m w | None => w end) <$> ws.

Definition payments_from (w : Wallet) (txs : list Payment) : list Payment :=
  List.filter (fun tx => String.eqb (p_from tx) (publicKey w)) txs.

Definition zkapps_from (w : Wallet) (zs : list Zkapp) : list Zkapp :=
  List.filter (fun z => String.eqb (payerPublicKey z) (publicKey w)) zs.

Definition sent_ok (error : option TxError) (n : nat) : Z := if is_some error then 0 else Z.of_nat n.
Definition sent_failed (error : option TxError) (n : nat) : Z := if is_some error then Z.of_nat n else 0.

Definition after_payments (error : option TxError) (txs : list Payment) (w : Wallet) : Wallet :=
  match last (payments_from w txs) with
  | None => w
  | Some tx =>
    mkWallet (publicKey w) (privateKey w) (minaTokens w) (nonce w)
      (split_comma (p_memo tx) !! 1%nat) (p_dateTime tx) (Some (remove_first (lit "S.T.") (p_memo tx)))
      (Some (if is_some error then ERROR else GENERATED))
      (successTx w + sent_ok error (length (payments_from w txs)))
      (failedTx w + sent_failed error (length (payments_from w txs)))
      (err_message <$> error)
  end.

Definition after_zkapps (error : option TxError) (zs : list Zkapp) (w : Wallet) : Wallet :=
  match last (zkapps_from w zs) with
  | None => w
  | Some z =>
    mkWallet (publicKey w) (privateKey w) (minaTokens w) (nonce w)
      (split_comma (z_memo z) !! 1%nat) (getTimeFromMemo readable (Some (z_memo z))) (Some (z_memo z))
      (Some match error ≫= err_name with Some name => Named name | None => GENERATED end)
      (successTx w + sent_ok error (length (zkapps_from w zs)))
      (failedTx w + sent_failed error (length (zkapps_from w zs)))
      (err_message <$> error)
  end.

(** The transactions of the pool, then those of the chain; the flag is the
    identity test [mempoolTxs.includes(tx)]. *)
Definition all_txs (pool chain : list PoolTx) : list (PoolTx * bool) :=
  ((fun tx => (tx, true)) <$> pool) ++ ((fun tx => (tx, false)) <$> chain).

Definition later (acc tx : PoolTx * bool) : PoolTx * bool :=
  if greater (tx_counter (memo tx.1)) (tx_counter (memo acc.1)) then tx else acc.

Definition from_wallet (w : Wallet) (tx : PoolTx * bool) : bool := String.eqb (sender tx.1) (publicKey w).

Definition is_stress (tx : PoolTx * bool) : bool := code_includes (lit "S.T.") (memo tx.1).

Definition after_all_txs (txs : list (PoolTx * bool)) (w : Wallet) : Wallet :=
  match List.filter (from_wallet w) txs with
  | [] => w
  | tx :: rest =>
    let '(lastTransaction, inPool) := fold_left later rest tx in
    mkWallet (publicKey w) (privateKey w) (minaTokens w) (nonce w)
      (split_comma (memo lastTransaction) !! 1%nat) (getTimeFromMemo readable (Some (memo lastTransaction)))
      (Some (remove_first (lit "S.T.") (memo lastTransaction)))
      (Some (if inPool then GENERATED else INCLUDED))
      (Z.of_nat (count_if (fun tx => from_wallet w tx && is_stress tx) txs)) (failedTx w) (errorReason w)
  end.

Definition with_wallets (s : State) (ws : list Wallet) : State :=
  {| wallets := ws; blockSending := blockSending s; txSendingBatch := txSendingBatch s;
     sentTransactions := sentTransactions s; sentTxCount := sentTxCount s; txsToSend := txsToSend s;
     randomWallet := randomWallet s; activeWallet := activeWallet s; sendingFee := sendingFee s;
     sendingAmount := sendingAmount s; zkAppsSendingBatch := zkAppsSendingBatch s;
     zkAppsToSend := zkAppsToSend s; sendingFeeZkapps := sendingFeeZkapps s |}.

Definition with_sending (s : State) (block : bool) (txs : list Payment) (zs : list Zkapp) (stats : SentStats)
    : State :=
  {| wallets := wallets s; blockSending := block; txSendingBatch := txSendingBatch s;
     sentTransactions := stats; sentTxCount := sentTxCount s; txsToSend := txs;
     randomWallet := randomWallet s; activeWallet := activeWallet s; sendingFee := sendingFee s;
     sendingAmount := sendingAmount s; zkAppsSendingBatch := zkAppsSendingBatch s;
     zkAppsToSend := zs; sendingFeeZkapps := sendingFeeZkapps s |}.

Definition with_settings (s : State) (batch : option Z) (random : bool) (active : option Wallet)
    (fee amount zkBatch zkFee : Z) : State :=
  {| wallets := wallets s; blockSending := blockSending s; txSendingBatch := batch;
     sentTransactions := sentTransactions s; sentTxCount := sentTxCount s; txsToSend := txsToSend s;
     randomWallet := random; activeWallet := active; sendingFee := fee; sendingAmount := amount;
     zkAppsSendingBatch := zkBatch; zkAppsToSend := zkAppsToSend s; sendingFeeZkapps := zkFee |}.

Definition add_sent (s : State) (error : option TxError) (n : nat) : SentStats :=
  mkSent (success (sentTransactions s) + sent_ok error n) (fail (sentTransactions s) + sent_failed error n).

(** [!hasValue(batch) ? length : batch] *)
Definition loaded_batch `{HasValue} (batch : option Z) (n : nat) : option Z :=
  if hasValue batch then batch else Some (Z.of_nat n).

Definition reducer `{HasValue} (s : State) (a : Action) : result State :=
  match a with
  | GetWalletsSuccess payload =>
    let ws := mapi (fun i acc => merge_account (wallets s !! i) acc) payload in
    let s' := with_sending (with_wallets s ws) false (txsToSend s) (zkAppsToSend s) (sentTransactions s) in
    Ok (with_settings s' (loaded_batch (txSendingBatch s) (length payload)) (randomWallet s)
          (match activeWallet s with Some w => Some w | None => head ws end)
          (sendingFee s) (sendingAmount s) (zkAppsSendingBatch s) (sendingFeeZkapps s))
  | UpdateWalletsSuccess payload =>
    Ok (with_wallets s (mapi (fun i w => default w (payload !! i)) (wallets s)))
  | ChangeTransactionBatch n =>
    Ok (with_settings s (Some n) (randomWallet s) (activeWallet s) (sendingFee s) (sendingAmount s)
          (zkAppsSendingBatch s) (sendingFeeZkapps s))
  | ChangeZkAppsBatch n =>
    Ok (with_settings s (txSendingBatch s) (randomWallet s) (activeWallet s) (sendingFee s)
          (sendingAmount s) n (sendingFeeZkapps s))
  | GetWallets _ => Ok (with_sending s true (txsToSend s) (zkAppsToSend s) (sentTransactions s))
  | ToggleRandomWallet =>
    Ok (with_settings s (txSendingBatch s) (negb (randomWallet s)) (activeWallet s) (sendingFee s)
          (sendingAmount s) (zkAppsSendingBatch s) (sendingFeeZkapps s))
  | SendTxs =>
    match next_payments s with
    | Throw e => Throw e
    | Ok txs =>
      Ok (with_wallets (with_sending s (blockSending s) txs (zkAppsToSend s) (sentTransactions s))
            (mark_all (memo_of_payment txs) (wallets s)))
    end
  | SendTxSuccess txs error =>
    Ok (with_wallets (with_sending s (blockSending s) [] (zkAppsToSend s) (add_sent s error (length txs)))
          (after_payments error txs <$> wallets s))
  | SendZkAppsSuccess zs error =>
    Ok (with_wallets (with_sending s (blockSending s) (txsToSend s) [] (add_sent s error (length zs)))
          (after_zkapps error zs <$> wallets s))
  | GetAllTxsSuccess None _ => Throw "action.payload.mempoolTxs is not iterable"
  | GetAllTxsSuccess (Some pool) chain =>
    let txs := all_txs pool chain in
    Ok (with_wallets (with_sending s (blockSending s) (txsToSend s) (zkAppsToSend s)
                        (mkSent (Z.of_nat (count_if is_stress txs)) (fail (sentTransactions s))))
          (after_all_txs txs <$> wallets s))
  | SelectWallet w =>
    Ok (with_settings s (txSendingBatch s) (randomWallet s) w (sendingFee s) (sendingAmount s)
          (zkAppsSendingBatch s) (sendingFeeZkapps s))
  | ChangeFee n =>
    Ok (with_settings s (txSendingBatch s) (randomWallet s) (activeWallet s) n (sendingAmount s)
          (zkAppsSendingBatch s) (sendingFeeZkapps s))
  | ChangeAmount n =>
    Ok (with_settings s (txSendingBatch s) (randomWallet s) (activeWallet s) (sendingFee s) n
          (zkAppsSendingBatch s) (sendingFeeZkapps s))
  | ChangeFeeZkApps n =>
    Ok (with_settings s (txSendingBatch s) (randomWallet s) (activeWallet s) (sendingFee s)
          (sendingAmount s) (zkAppsSendingBatch s) n)
  | Close =>
    Ok {| wallets := []; txsToSend := []; blockSending := false; txSendingBatch := None;
          sentTransactions := mkSent 0 0; sentTxCount := sentTxCount s; randomWallet := true;
          activeWallet := None; sendingFee := 1000000; sendingAmount := 1000000000; zkAppsToSend := [];
          sendingFeeZkapps := 1000000; zkAppsSendingBatch := 1 |}
  | SendZkApps =>
    match next_zkapps s with
    | Throw e => Throw e
    | Ok zs =>
      Ok (with_wallets (with_sending s true (txsToSend s) zs (sentTransactions s))
            (mark_all (memo_of_zkapp zs) (wallets s)))
    end
  | GetAllTxs => Ok s
  end.
End Reducer.

(** [selectBenchmarksBlockSending] *)
Definition sending_blocked (s : State) : bool := blockSending s || negb (bool_decide (txsToSend s = [])).

(** The batch the toolbars dispatch for a whole number in their field: no more than
    the wallets; a number that is zero or missing counts as one. *)
Definition toolbar_batch (value : option Z) (walletsLength : nat) (random : bool) : Z :=
  let payload := match value with Some v => if truthyZ v then v else 1 | None => 1 end in
  if Z.of_nat walletsLength <? payload
  then if random then Z.of_nat walletsLength else Z.of_nat walletsLength - 1
  else payload.

(** ** Services *)

Record AccountsResponse := mkAccountsResponse { public_key : string; r_nonce : Z; balance : Z }.

Section Services.
(** The test keys: public and private. *)
Context (WALLETS : list (string * string)).

Definition private_key (pk : string) : option string :=
  snd <$> List.find (fun w => String.eqb w.1 pk) WALLETS.

Definition getAccounts (l : list AccountsResponse) : list Account :=
  List.filter (fun a => includes (fst <$> WALLETS) (a_publicKey a))
    ((fun w => mkAccount (public_key w) (private_key (public_key w)) (balance w) (r_nonce w)) <$> l).
End Services.

Definition with_dateTime `{Browser} (tx : Payment) : Payment :=
  {| p_from := p_from tx; p_nonce := p_nonce tx; p_to := p_to tx; p_fee := p_fee tx;
     p_amount := p_amount tx; p_memo := p_memo tx; p_validUntil := p_validUntil tx;
     p_privateKey := p_privateKey tx; p_blockSending := p_blockSending tx;
     p_dateTime := getTimeFromMemo readable (Some (p_memo tx)) |}.

(** The transactions with the signatures that are posted; the signer may throw. *)
Fixpoint signed {S} (sign : Payment -> result S) (txs : list Payment) : result (list (Payment * S)) :=
  match txs with
  | [] => Ok []
  | tx :: txs' =>
    match sign tx with
    | Throw e => Throw e
    | Ok sig => match signed sign txs' with Ok l => Ok ((tx, sig) :: l) | Throw e => Throw e end
    end
  end.

(** What [sendTransactions] emits for the outcome of the post: an error comes
    without transactions. *)
Definition sendTransactions `{Browser} (txs : list Payment) (o : outcome unit) : list Payment * option TxError :=
  match o with
  | Next _ => (with_dateTime <$> txs, None)
  | Failed err => ([], Some (mkTxError (Some "Error") (message err)))
  end.

(** The answer of the zkapp library for one command. *)
Record ZkResponse := mkZkResponse { errors : list string; z_status : option string }.

Definition has_error (r : ZkResponse) : bool :=
  match errors r with e :: _ => truthy_str e | [] => false end.

(** What [sendZkApp] emits: all answers, or the error of the first that failed. *)
Definition sendZkApp (zs : list Zkapp) (o : outcome (list ZkResponse)) : list Zkapp * option TxError :=
  match o with
  | Next rs =>
    match List.find has_error rs with
    | Some r => (zs, Some (mkTxError (z_status r) (default "" (head (errors r)))))
    | None => (zs, None)
    end
  | Failed err => (zs, Some (mkTxError (Some "Error") (message err)))
  end.

(** A command of the chain as a transaction. *)
Fixpoint mapTxPoolResponse (decode : string -> result (list Z)) (l : list Mempool.Command)
    : result (list PoolTx) :=
  match l with
  | [] => Ok []
  | c :: l' =>
    let '(pk, m) := match c with
                    | Mempool.SignedCommand pk _ _ m _ _ => (pk, m)
                    | Mempool.ZkappCommand pk _ _ m _ => (pk, m)
                    end in
    match decodeMemo decode m with
    | Throw e => Throw e
    | Ok text =>
      match mapTxPoolResponse decode l' with
      | Ok txs => Ok (mkPoolTx pk (removeUnicodeEscapes text) :: txs)
      | Throw e => Throw e
      end
    end
  end.

(** A row of the pool, as far as the page reads it. *)
Definition of_pool (tx : Mempool.Transaction) : PoolTx := mkPoolTx (Mempool.sender tx) (Mempool.memo tx).

(** ** Effects *)

Inductive WalletsEvent := OnGetWallets (initialRequest : bool) | OnClose | OnAccounts (o : outcome (list AccountsResponse)).

(** [getWallets$]; the request in flight remembers whether it is the first. *)
Definition getWallets_effect (WALLETS : list (string * string)) (time : string) (inFlight : option bool)
    (ev : WalletsEvent) : option bool * list (dispatched Action) :=
  match ev with
  | OnGetWallets initial => (Some initial, [])
  | OnClose => (None, [])
  | OnAccounts o =>
    match inFlight with
    | None => (None, [])
    | Some initial =>
      (None, match o with
             | Next l => (if initial then [Dispatch GetAllTxs] else []) ++
                         [Dispatch (GetWalletsSuccess (getAccounts WALLETS l))]
             | Failed err => catchErrorAndRepeat time GENERIC (GetWalletsSuccess []) (Failed err)
             end)
    end
  end.

Inductive SendEvent (T R : Type) := OnSend (toSend : list T) | OnSent (o : outcome R).
Arguments OnSend {T R} _.
Arguments OnSent {T R} _.

(** [sendTxs$]: an exception of the signer ends the pipeline, which the framework
    subscribes again without an action. *)
Definition sendTxs_effect `{Browser} {S} (sign : Payment -> result S) (inFlight : option (list Payment))
    (ev : SendEvent Payment unit) : option (list Payment) * list Action :=
  match ev with
  | OnSend txs => match signed sign txs with Ok _ => (Some txs, []) | Throw _ => (None, []) end
  | OnSent o =>
    match inFlight with
    | Some txs => let '(sent, error) := sendTransactions txs o in (None, [SendTxSuccess sent error])
    | None => (None, [])
    end
  end.

(** [sendZkApps$] *)
Definition sendZkApps_effect (inFlight : option (list Zkapp)) (ev : SendEvent Zkapp (list ZkResponse))
    : option (list Zkapp) * list Action :=
  match ev with
  | OnSend zs => (Some zs, [])
  | OnSent o =>
    match inFlight with
    | Some zs => let '(sent, error) := sendZkApp zs o in (None, [SendZkAppsSuccess sent error])
    | None => (None, [])
    end
  end.

(** [sendTxSuccess$] *)
Definition sendTxSuccess_effect (a : Action) : list Action :=
  match a with SendTxSuccess _ _ | SendZkAppsSuccess _ _ => [GetWallets false] | _ => [] end.

(** [getAllTxs$]: the fallback has a misspelt field, so [mempoolTxs] is undefined. *)
Definition getAllTxs_effect (time : string) (o : outcome (list Mempool.Transaction * list PoolTx))
    : list (dispatched Action) :=
  catchErrorAndRepeat time GENERIC (GetAllTxsSuccess None [])
    match o with
    | Next (pool, chain) => Next (GetAllTxsSuccess (Some (of_pool <$> pool)) chain)
    | Failed err => Failed err
    end.

(** ** Batches *)

Lemma map_from_Ok {A B} (f : nat -> A -> result B) i l ys :
  map_from f i l = Ok ys ->
  length ys = length l /\
  forall k x, l !! k = Some x -> exists y, ys !! k = Some y /\ f (i + k)%nat x = Ok y.
Proof.
  revert i ys. induction l as [|x l IH]; intros i ys; cbn; [by intros [= <-]|].
  destruct (f i x) as [y|] eqn:Hy; [|done]. destruct (map_from f (S i) l) as [ys'|] eqn:Hl; [|done].
  intros [= <-]. destruct (IH _ _ Hl) as [Hlen Hall]. split; [cbn; by rewrite Hlen|].
  intros [|k] x' Hk; cbn in Hk.
  - injection Hk as <-. exists y. by rewrite Nat.add_0_r.
  - destruct (Hall k x' Hk) as (y' & Hy' & Hf). exists y'. split; [done|].
    by rewrite Nat.add_succ_r.
Qed.

Lemma map_from_total {A B} (f : nat -> A -> result B) i l :
  (forall k x, x ∈ l -> exists y, f k x = Ok y) -> exists ys, map_from f i l = Ok ys.
Proof.
  revert i. induction l as [|x l IH]; intros i Hf; cbn; [by eexists|].
  destruct (Hf i x (list_elem_of_here _ _)) as [y ->].
  destruct (IH (S i)) as [ys ->]; [|by eexists].
  intros k x' Hx'. apply Hf. by apply list_elem_of_further.
Qed.

Section Batches.
Context `{Browser}.

Lemma getRandomReceiver_Ok l w ws to :
  getRandomReceiver l w ws = Ok to ->
  to <> publicKey w /\ exists w', w' ∈ ws /\ publicKey w' = to.
Proof.
  induction l as [|i l IH]; [done|]. cbn. destruct (ws !! i) as [w'|] eqn:Hi; [|done].
  destruct (String.eqb_spec (publicKey w') (publicKey w)) as [|Hne]; [done|]. intros [= <-].
  split; [done|]. exists w'. split; [by eapply list_elem_of_lookup_2|done].
Qed.

(** Every index is one of a wallet, and one of them has another key. *)
Definition useful_draws (l : list nat) (w : Wallet) (ws : list Wallet) : Prop :=
  (forall i, i ∈ l -> (i < length ws)%nat) /\
  exists i w', i ∈ l /\ ws !! i = Some w' /\ publicKey w' <> publicKey w.

Lemma getRandomReceiver_total l w ws :
  useful_draws l w ws -> exists to, getRandomReceiver l w ws = Ok to.
Proof.
  intros [Hlt Hex]. induction l as [|i l IH].
  { destruct Hex as (i & w' & Hi & _). by apply not_elem_of_nil in Hi. }
  cbn. destruct (lookup_lt_is_Some_2 ws i) as [w1 Hw1]; [apply Hlt, list_elem_of_here|].
  rewrite Hw1. destruct (String.eqb_spec (publicKey w1) (publicKey w)) as [He|]; [|by eexists].
  apply IH; [intros j Hj; apply Hlt; by apply list_elem_of_further|].
  destruct Hex as (j & w' & Hj & Hw' & Hne). exists j, w'. split; [|done].
  apply elem_of_cons in Hj as [->|Hj]; [|done]. rewrite Hw1 in Hw'. by injection Hw' as <-.
Qed.

Lemma slice0_elem {A} n (l : list A) x : x ∈ slice0 n l -> x ∈ l.
Proof.
  assert (Htake : forall m, x ∈ take m l -> x ∈ l).
  { intros m Hx. rewrite <- (take_drop m l). apply elem_of_app. by left. }
  unfold slice0. destruct n as [n|]; [|done]. destruct (0 <=? n); apply Htake.
Qed.

(** With random receivers and draws that reach another wallet the batch is
    always made: one payment for each wallet of the slice, in its order, with the
    nonce of that wallet and a receiver that is another wallet of the table. *)
Theorem random_batch s :
  randomWallet s = true -> (forall i w, w ∈ wallets s -> useful_draws (draws i) w (wallets s)) ->
  exists txs, next_payments s = Ok txs /\
    Forall2 (fun w tx =>
      p_from tx = publicKey w /\ p_privateKey tx = privateKey w /\ p_nonce tx = Z.max (nonce w) 0 /\
      p_fee tx = sendingFee s /\ p_amount tx = sendingAmount s /\
      p_to tx <> p_from tx /\ exists w', w' ∈ wallets s /\ publicKey w' = p_to tx)
      (slice0 (txSendingBatch s) (wallets s)) txs.
Proof.
  intros Hr Hd. unfold next_payments. rewrite Hr.
  destruct (map_from_total (random_payment s) 0 (slice0 (txSendingBatch s) (wallets s))) as [txs Htxs].
  { intros k w Hw%slice0_elem. unfold random_payment.
    destruct (getRandomReceiver_total (draws k) w (wallets s) (Hd k w Hw)) as [to ->]. by eexists. }
  exists txs. split; [done|]. apply map_from_Ok in Htxs as [Hlen Hall].
  apply Forall2_same_length_lookup. split; [done|]. intros k w tx Hw Htx.
  destruct (Hall k w Hw) as (tx' & Htx' & Hp). rewrite Htx in Htx'. injection Htx' as <-.
  unfold random_payment in Hp. destruct (getRandomReceiver _ w _) as [to|] eqn:Hto; [|done].
  injection Hp as <-. apply getRandomReceiver_Ok in Hto as [Hne Hin]. cbn. done.
Qed.

(** From one chosen wallet the nonces follow each other. *)
Lemma active_batch s w n :
  randomWallet s = false -> activeWallet s = Some w -> txSendingBatch s = Some (Z.of_nat n) ->
  (n <= length (wallets s))%nat ->
  exists txs, next_payments s = Ok txs /\ length txs = n /\
    forall i tx, txs !! i = Some tx ->
      p_from tx = publicKey w /\ p_nonce tx = Z.max (nonce w) 0 + Z.of_nat i /\
      exists w', wallets s !! i = Some w' /\ p_to tx = publicKey w'.
Proof.
  intros Hr Ha Hb Hn. unfold next_payments. rewrite Hr, Ha, Hb. cbn [array_length].
  destruct (Z.leb_spec 0 (Z.of_nat n)); [|lia]. rewrite Nat2Z.id.
  assert (Hok : exists txs, map_from (active_payment s w) 0 (replicate n tt) = Ok txs).
  { assert (Hgen : forall m i, (i + m <= length (wallets s))%nat ->
      exists txs, map_from (active_payment s w) i (replicate m tt) = Ok txs).
    { induction m as [|m IH]; intros i Hi; cbn; [by eexists|]. unfold active_payment at 1.
      destruct (lookup_lt_is_Some_2 (wallets s) i) as [w' ->]; [lia|].
      destruct (IH (S i)) as [txs ->]; [lia|]. by eexists. }
    apply Hgen. lia. }
  destruct Hok as [txs Htxs]. exists txs. split; [done|]. apply map_from_Ok in Htxs as [Hlen Hall].
  rewrite length_replicate in Hlen. split; [done|]. intros i tx Htx.
  assert (Hi : (i < n)%nat) by (rewrite <- Hlen; by eapply lookup_lt_Some).
  destruct (Hall i tt) as (tx' & Htx' & Hp); [by apply lookup_replicate_2|].
  rewrite Htx in Htx'. injection Htx' as <-. cbn in Hp. unfold active_payment in Hp.
  destruct (wallets s !! i) as [w'|]; [|done]. injection Hp as <-. cbn. split; [done|].
  split; [done|]. by exists w'.
Qed.
End Batches.

Definition test_wallet (pk : string) (n : Z) : Wallet :=
  mkWallet pk (Some "k") 0 n None None None None 0 0 None.
Definition two_wallets : State :=
  {| wallets := [test_wallet "A" 4; test_wallet "B" (-1)]; txsToSend := []; blockSending := false;
     txSendingBatch := Some 2; sentTransactions := mkSent 0 0; sentTxCount := 0; randomWallet := true;
     activeWallet := Some (test_wallet "A" 4); sendingFee := 1000000; sendingAmount := 1000000000;
     zkAppsToSend := []; sendingFeeZkapps := 1000000; zkAppsSendingBatch := 1 |}.
Definition test_browser : Browser := mkBrowser (fun i => Z.of_nat i) (fun _ => [0; 1]%nat) Null (fun _ => "").

Lemma random_batch_witness :
  exists txs, @next_payments test_browser two_wallets = Ok txs /\ (p_nonce <$> txs) = [4; 0].
Proof.
  destruct (@random_batch test_browser two_wallets eq_refl) as (txs & Htxs & _).
  { intros i w Hw. split; [intros j Hj; cbn in *; rewrite !elem_of_cons in Hj; destruct Hj as [->|[->|Hj]];
      [lia|lia|by apply not_elem_of_nil in Hj]|].
    cbn [wallets two_wallets] in Hw. rewrite !elem_of_cons in Hw. destruct Hw as [->|[->|Hw]].
    - exists 1%nat, (test_wallet "B" (-1)). split; [apply list_elem_of_further, list_elem_of_here|done].
    - exists 0%nat, (test_wallet "A" 4). split; [apply list_elem_of_here|done].
    - by apply not_elem_of_nil in Hw. }
  exists txs. split; [done|]. vm_compute in Htxs. by injection Htxs as <-.
Defined.

(** ** Counting *)

Lemma sumZ_add {A} (f g : A -> Z) l : sumZ ((fun x => f x + g x) <$> l) = sumZ (f <$> l) + sumZ (g <$> l).
Proof. induction l as [|x l IH]; [done|]. cbn [fmap list_fmap]. rewrite !sumZ_cons, IH. lia. Qed.

Lemma sumZ_zero {A} (f : A -> Z) l : (forall x, x ∈ l -> f x = 0) -> sumZ (f <$> l) = 0.
Proof.
  induction l as [|x l IH]; intros Hf; [done|]. cbn [fmap list_fmap]. rewrite sumZ_cons, IH, Hf; [done| |].
  - apply list_elem_of_here.
  - intros y Hy. apply Hf. by apply list_elem_of_further.
Qed.

(** A key that belongs to exactly one wallet is counted once. *)
Lemma sumZ_one ws pk :
  NoDup (publicKey <$> ws) -> pk ∈ (publicKey <$> ws) ->
  sumZ ((fun w => if String.eqb pk (publicKey w) then 1 else 0) <$> ws) = 1.
Proof.
  induction ws as [|w ws IH]; intros Hnd Hin; [by apply not_elem_of_nil in Hin|].
  apply NoDup_cons in Hnd as [Hw Hnd]. cbn [fmap list_fmap]. rewrite sumZ_cons.
  destruct (String.eqb_spec pk (publicKey w)) as [->|Hne].
  - rewrite sumZ_zero; [done|]. intros w' Hw'. destruct (String.eqb_spec (publicKey w) (publicKey w')) as [He|]; [|done].
    destruct Hw. rewrite He. by apply list_elem_of_fmap_2.
  - apply elem_of_cons in Hin as [|Hin]; [done|]. by rewrite IH.
Qed.

Lemma payments_partition ws txs :
  NoDup (publicKey <$> ws) -> (forall tx, tx ∈ txs -> p_from tx ∈ (publicKey <$> ws)) ->
  sumZ ((fun w => Z.of_nat (length (payments_from w txs))) <$> ws) = Z.of_nat (length txs).
Proof.
  intros Hnd. induction txs as [|tx txs IH]; intros Hin; [by apply sumZ_zero|].
  transitivity (sumZ ((fun w => (if String.eqb (p_from tx) (publicKey w) then 1 else 0) +
    Z.of_nat (length (payments_from w txs))) <$> ws)).
  { f_equal. apply list_fmap_ext. intros _ w _. unfold payments_from. cbn [List.filter].
    destruct (String.eqb (p_from tx) (publicKey w)); cbn [length]; lia. }
  rewrite sumZ_add, IH, sumZ_one; [cbn [length]; lia|done|apply Hin, list_elem_of_here|].
  intros tx' Htx'. apply Hin. by apply list_elem_of_further.
Qed.

Lemma after_payments_counts error txs w :
  publicKey (after_payments error txs w) = publicKey w /\
  successTx (after_payments error txs w) = successTx w + sent_ok error (length (payments_from w txs)) /\
  failedTx (after_payments error txs w) = failedTx w + sent_failed error (length (payments_from w txs)).
Proof.
  unfold after_payments. destruct (last (payments_from w txs)) as [tx|] eqn:Hl; [done|].
  apply last_None in Hl. rewrite Hl. unfold sent_ok, sent_failed.
  split; [done|]. destruct (is_some error); cbn; lia.
Qed.

Section Counting.
Context `{Browser} `{HasValue}.

(** When the answer of a batch comes, the totals of the page and the sums over
    the wallets grow by the same numbers, the payments that were sent and those
    that failed; no wallet changes its key. *)
Theorem sent_counted s txs error s' :
  NoDup (publicKey <$> wallets s) -> (forall tx, tx ∈ txs -> p_from tx ∈ (publicKey <$> wallets s)) ->
  reducer s (SendTxSuccess txs error) = Ok s' ->
  publicKey <$> wallets s' = publicKey <$> wallets s /\
  sumZ (successTx <$> wallets s') - sumZ (successTx <$> wallets s) =
    success (sentTransactions s') - success (sentTransactions s) /\
  sumZ (failedTx <$> wallets s') - sumZ (failedTx <$> wallets s) =
    fail (sentTransactions s') - fail (sentTransactions s) /\
  (success (sentTransactions s') - success (sentTransactions s)) +
    (fail (sentTransactions s') - fail (sentTransactions s)) = Z.of_nat (length txs).
Proof.
  intros Hnd Hin [= <-]. cbn [wallets sentTransactions with_wallets with_sending add_sent success fail].
  rewrite <- !list_fmap_compose.
  pose proof (payments_partition (wallets s) txs Hnd Hin) as Hp.
  split; [apply list_fmap_ext; intros _ w _; apply after_payments_counts|].
  assert (Hs : successTx ∘ after_payments error txs <$> wallets s =
    (fun w => successTx w + sent_ok error (length (payments_from w txs))) <$> wallets s)
    by (apply list_fmap_ext; intros _ w _; apply after_payments_counts).
  assert (Hf : failedTx ∘ after_payments error txs <$> wallets s =
    (fun w => failedTx w + sent_failed error (length (payments_from w txs))) <$> wallets s)
    by (apply list_fmap_ext; intros _ w _; apply after_payments_counts).
  rewrite Hs, Hf. clear Hs Hf.
  rewrite (sumZ_add successTx), (sumZ_add failedTx). unfold sent_ok, sent_failed.
  destruct (is_some error); rewrite Hp, (sumZ_zero (fun _ => 0)) by done; lia.
Qed.
End Counting.

Lemma sent_counted_witness :
  exists s', @reducer test_browser has_value two_wallets
    (SendTxSuccess [@payment test_browser two_wallets (test_wallet "A" 4) 0 4 "B" false] None) = Ok s' /\
  sumZ (successTx <$> wallets s') = 1 /\ success (sentTransactions s') = 1.
Proof.
  eexists. split; [reflexivity|].
  destruct (@sent_counted test_browser has_value two_wallets
    [@payment test_browser two_wallets (test_wallet "A" 4) 0 4 "B" false] None _
    ltac:(by apply (bool_decide_eq_true _))
    ltac:(intros tx Htx; apply list_elem_of_singleton in Htx as ->; apply list_elem_of_here) eq_refl)
    as (_ & Hs & _ & _).
  split; [vm_compute; reflexivity|vm_compute; reflexivity].
Defined.

(** ** A batch from start to end *)

Lemma signed_total {S} (sign : Payment -> result S) txs :
  (forall tx, tx ∈ txs -> exists sig, sign tx = Ok sig) -> exists l, signed sign txs = Ok l.
Proof.
  induction txs as [|tx txs IH]; intros Hs; cbn; [by eexists|].
  destruct (Hs tx (list_elem_of_here _ _)) as [sig ->]. destruct IH as [l ->]; [|by eexists].
  intros tx' Htx'. apply Hs. by apply list_elem_of_further.
Qed.

Section Cycle.
Context `{Browser} `{HasValue}.

(** In every state of the page a batch of payments that can be signed goes
    through: while payments are out or the wallets are reloaded sending is blocked,
    and after the answers, good or bad, it is open again. *)
Theorem send_cycle_unblocks {S} (sign : Payment -> result S) keys time s1 o o' :
  (forall tx, tx ∈ txsToSend s1 -> exists sig, sign tx = Ok sig) ->
  (txsToSend s1 <> [] -> sending_blocked s1 = true) /\
  exists sent s2 s3 s4 actions,
    (sendTxs_effect sign None (OnSend (txsToSend s1))).1 = Some (txsToSend s1) /\
    sendTxs_effect sign (Some (txsToSend s1)) (OnSent o) = (None, [sent]) /\
    reducer s1 sent = Ok s2 /\ sendTxSuccess_effect sent = [GetWallets false] /\
    reducer s2 (GetWallets false) = Ok s3 /\ sending_blocked s3 = true /\
    getWallets_effect keys time (getWallets_effect keys time None (OnGetWallets false)).1 (OnAccounts o') =
      (None, actions) /\
    reduce_all reducer s3 actions = Ok s4 /\ sending_blocked s4 = false.
Proof.
  intros Hsign. split.
  { intros Hne. unfold sending_blocked. rewrite bool_decide_eq_false_2 by done. by rewrite orb_true_r. }
  destruct (signed_total sign (txsToSend s1) Hsign) as [l Hl].
  destruct (sendTransactions (txsToSend s1) o) as [sent error] eqn:Ho.
  exists (SendTxSuccess sent error). cbn [sendTxs_effect]. rewrite Hl, Ho.
  do 2 eexists. destruct o' as [accounts|err].
  - eexists _, _. do 8 (split; [reflexivity|]). reflexivity.
  - eexists _, _. do 8 (split; [reflexivity|]). reflexivity.
Qed.

(** ** What modelling shows *)

(** A signer that throws leaves the payments in the store and sending blocked. *)
Lemma signer_blocks {S} (sign : Payment -> result S) s1 e inFlight :
  signed sign (txsToSend s1) = Throw e -> txsToSend s1 <> [] ->
  sendTxs_effect sign inFlight (OnSend (txsToSend s1)) = (None, []) /\ sending_blocked s1 = true.
Proof.
  intros Hs Hne. cbn. rewrite Hs. split; [done|]. unfold sending_blocked.
  rewrite bool_decide_eq_false_2 by done. by rewrite orb_true_r.
Qed.

(** Reloading the wallets does not renew the chosen one: its next batch has the
    nonces of the last. *)
Lemma nonces_reused s w accounts s' n txs txs' :
  randomWallet s = false -> activeWallet s = Some w -> txSendingBatch s = Some (Z.of_nat n) ->
  (n <= length (wallets s))%nat -> (n <= length accounts)%nat ->
  reducer s (GetWalletsSuccess accounts) = Ok s' ->
  next_payments s = Ok txs -> next_payments s' = Ok txs' ->
  (p_nonce <$> txs') = (p_nonce <$> txs).
Proof.
  intros Hr Ha Hb Hn Hn' [= <-] Htxs Htxs'.
  destruct (active_batch s w n Hr Ha Hb Hn) as (t & Ht & Hlen & Hall). rewrite Htxs in Ht. injection Ht as <-.
  match type of Htxs' with next_payments ?s' = _ => destruct (active_batch s' w n) as (t' & Ht' & Hlen' & Hall') end.
  { done. }
  { cbn. by rewrite Ha. }
  { cbn. rewrite Hb. unfold loaded_batch. by rewrite hasValue_spec. }
  { cbn. unfold mapi. by rewrite length_imap. }
  rewrite Htxs' in Ht'. injection Ht' as <-. apply list_eq. intros i. rewrite !list_lookup_fmap.
  destruct (txs !! i) as [tx|] eqn:Hi, (txs' !! i) as [tx'|] eqn:Hi'; cbn.
  - destruct (Hall i tx Hi) as (_ & -> & _), (Hall' i tx' Hi') as (_ & -> & _). done.
  - apply lookup_ge_None in Hi'. apply lookup_lt_Some in Hi. lia.
  - apply lookup_ge_None in Hi. apply lookup_lt_Some in Hi'. lia.
  - done.
Qed.

(** A batch that the node refuses is counted nowhere: the wallets keep the status
    of sending and no failure is added. *)
Lemma refused_batch_uncounted s txs err s' :
  let '(sent, error) := sendTransactions txs (Failed err) in
  reducer s (SendTxSuccess sent error) = Ok s' ->
  wallets s' = wallets s /\ sentTransactions s' = sentTransactions s.
Proof.
  cbn [sendTransactions]. intros [= <-]. cbn [wallets sentTransactions with_wallets with_sending]. split.
  - transitivity (id <$> wallets s); [|apply list_fmap_id]. by apply list_fmap_ext.
  - unfold add_sent. cbn. rewrite !Z.add_0_r. by destruct (sentTransactions s).
Qed.

(** The fallback of the transactions makes the reducer throw. *)
Lemma fallback_throws time err s :
  throws (reduce_all reducer s (getAllTxs_effect time (Failed err))) = true.
Proof. done. Qed.

(** A refresh that fails forgets the wallets and their counts. *)
Lemma failed_refresh_forgets keys time initial err s s' :
  reduce_all reducer s (getWallets_effect keys time (Some initial) (OnAccounts (Failed err))).2 = Ok s' ->
  wallets s' = [].
Proof. cbn. by intros [= <-]. Qed.

(** The counts belong to the position: when the node lists the accounts in another
    order they move to other wallets. *)
Lemma counts_move s w1 w2 a1 a2 s' :
  wallets s = [w1; w2] -> reducer s (GetWalletsSuccess [a2; a1]) = Ok s' ->
  (successTx <$> wallets s') = [successTx w1; successTx w2] /\
  (publicKey <$> wallets s') = [a_publicKey a2; a_publicKey a1].
Proof. intros Hw [= <-]. cbn. by rewrite Hw. Qed.

(** A wallet alone has no receiver: whatever is drawn, the batch throws. *)
Lemma lonely_wallet_throws s w :
  randomWallet s = true -> wallets s = [w] -> txSendingBatch s = Some 1 ->
  throws (next_payments s) = true.
Proof.
  intros Hr Hw Hb. unfold next_payments. rewrite Hr, Hb, Hw. cbn. unfold random_payment. rewrite Hw.
  assert (Ht : forall l, throws (getRandomReceiver l w [w]) = true).
  { induction l as [|i l IH]; [done|]. cbn. destruct i as [|i]; cbn; [rewrite String.eqb_refl; exact IH|done]. }
  specialize (Ht (draws 0)). change (take (Z.to_nat 1) [w]) with [w]. cbn [map_from].
  by destruct (getRandomReceiver (draws 0) w [w]).
Qed.
End Cycle.

Lemma send_cycle_unblocks_witness :
  exists s1, @reducer test_browser has_value two_wallets SendTxs = Ok s1 /\ length (txsToSend s1) = 2%nat /\
  exists sent s2, @sendTxs_effect test_browser Z (fun tx => Ok (p_nonce tx)) (Some (txsToSend s1)) (OnSent (Next tt)) =
    (None, [sent]) /\ @reducer test_browser has_value s1 sent = Ok s2.
Proof.
  eexists. do 2 (split; [vm_compute; reflexivity|]).
  edestruct (@send_cycle_unblocks test_browser has_value Z (fun tx => Ok (p_nonce tx)) [] "")
    as (_ & sent & s2 & _ & _ & _ & _ & Hs & H2 & _).
  - intros tx _. by eexists.
  - exists sent, s2. split; [exact Hs|exact H2].
  Unshelve. exact (Next []).
Defined.

End Benchmarks.
