(* ===== verification/MessagesPage.v ===== *)
(** * The page of the messages

    [src/frontend/src/app/features/network/messages]: the filter panel
    ([network-messages-filters.component.ts]), the table that reads the address of
    the page ([network-messages-table.component.ts]) and the footer with the pages
    ([network-messages-table-footer.component.ts]). They dispatch the actions of
    the store of [NetworkMessages].

    The tooltips of the filters are left out, and a number of the address that is
    missing or not a number is [None]. *)

From stdpp Require Import base list strings.
From S2P Require Import Prelude SharedLib NetworkMessages.
Open Scope Z_scope.

Module MessagesPage.
Import Messages.

(** ** The filter panel *)

Record Category := mkCategory { c_name : string; c_filters : list Filter }.

Definition available (t : FilterType) (display value : string) : Filter :=
  mkFilter t display (inr value) None.

(** The kinds of messages of the gossip and of the remote calls. *)
Definition gossip_filters : list (list Category) :=
  [ [ mkCategory "/meshsub/1.1.0"
      [ available MESSAGE_KIND "Subscribe" "subscribe"
      ; available MESSAGE_KIND "Unsubscribe" "unsubscribe"
      ; available MESSAGE_KIND "iWant" "meshsub_iwant"
      ; available MESSAGE_KIND "iHave" "meshsub_ihave"
      ; available MESSAGE_KIND "Prune" "meshsub_prune"
      ; available MESSAGE_KIND "Graft" "meshsub_graft"
      ; available MESSAGE_KIND "Publish New State" "publish_new_state"
      ; available MESSAGE_KIND "Publish Snark Pool Diff" "publish_snark_pool_diff"
      ; available MESSAGE_KIND "Publish Transaction Pool Diff" "publish_transaction_pool_diff" ] ]
    ; [ mkCategory "coda/rpcs/0.0.1"
      [ available MESSAGE_KIND "Get some initial peers" "get_some_initial_peers"
      ; available MESSAGE_KIND "Get staged ledger aux and pending coinbases at hash" "get_staged_ledger_aux_and_pending_coinbases_at_hash"
      ; available MESSAGE_KIND "Answer sync ledger query" "answer_sync_ledger_query"
      ; available MESSAGE_KIND "Get ancestry" "get_ancestry"
      ; available MESSAGE_KIND "Get best tip" "get_best_tip"
      ; available MESSAGE_KIND "Get node status" "get_node_status"
      ; available MESSAGE_KIND "Get transition chain proof" "get_transition_chain_proof"
      ; available MESSAGE_KIND "Get transition chain" "get_transition_chain"
      ; available MESSAGE_KIND "Get transition knowledge" "get_transition_knowledge"
      ; available MESSAGE_KIND "Get epoch ledger" "get_epoch_ledger"
      ; available MESSAGE_KIND "Versioned rpc menu" "__Versioned_rpc.Menu"
      ; available MESSAGE_KIND "Ban notify" "ban_notify" ] ]
    ; [ mkCategory "unknown"
      [ available STREAM_KIND "Unknown" "unknown" ] ] ].

Definition networkAvailableFilters : list (list Category) :=
  [ [ mkCategory "/multistream/1.0.0"
      [ available STREAM_KIND "Multistream" "/multistream/1.0.0" ]
    ; mkCategory "/coda/mplex/1.0.0"
      [ available STREAM_KIND "Coda mplex" "/coda/mplex/1.0.0" ]
    ; mkCategory "/coda/yamux/1.0.0"
      [ available STREAM_KIND "Coda yamux" "/coda/yamux/1.0.0" ] ]
    ; [ mkCategory "/noise"
      [ available MESSAGE_KIND "Handshake" "handshake_payload"
      ; available MESSAGE_KIND "Failed to decrypt" "failed_to_decrypt" ]
    ; mkCategory "/coda/kad/1.0.0"
      [ available MESSAGE_KIND "Put Value" "put_value"
      ; available MESSAGE_KIND "Get Value" "get_value"
      ; available MESSAGE_KIND "Add Provider" "add_provider"
      ; available MESSAGE_KIND "Get Providers" "get_providers"
      ; available MESSAGE_KIND "Find Node" "find_node"
      ; available MESSAGE_KIND "Ping" "ping" ] ]
    ; [ mkCategory "/mina/peer-exchange"
      [ available STREAM_KIND "Peer Exchange" "/mina/peer-exchange" ]
    ; mkCategory "/mina/bitswap-exchange"
      [ available STREAM_KIND "Bitswap Exchange" "/mina/bitswap-exchange" ]
    ; mkCategory "/mina/node-status"
      [ available STREAM_KIND "Node Status" "/mina/node-status" ] ]
    ; [ mkCategory "/ipfs/id/1.0.0"
      [ available STREAM_KIND "Identify" "/ipfs/id/1.0.0" ]
    ; mkCategory "/ipfs/id/push/1.0.0"
      [ available STREAM_KIND "IPFS Push" "/ipfs/id/push/1.0.0" ]
    ; mkCategory "/p2p/id/delta/1.0.0"
      [ available STREAM_KIND "IPFS Delta" "/p2p/id/delta/1.0.0" ] ] ] ++ gossip_filters.

#[export] Instance Filter_eq_dec : EqDecision Filter.
Proof. solve_decision. Defined.

(** [toggleFilter(filter)] *)
Definition toggle_action (active : list Filter) (f : Filter) : Action :=
  ToggleFilter (mkFilterPayload [f] (negb (includes active f)) None None).

(** [filterByCategory(category)] *)
Definition category_action (active : list Filter) (c : Category) : Action :=
  ToggleFilter (mkFilterPayload (c_filters c) (negb (forallb (includes active) (c_filters c))) None None).

(** The query of the address of the page. *)
Record Query := mkQuery {
  q_stream_kind : option string;
  q_message_kind : option string;
  q_addr : option string;
  q_from : option Z;
  q_to : option Z;
  q_node : option string
}.

Definition truthy_value (v : FilterValue) : bool :=
  match v with inl n => truthyZ n | inr s => truthy_str s end.

Definition non_empty (s : string) : option string := if truthy_str s then Some s else None.

Definition values_of (t : FilterType) (fs : list Filter) : list string :=
  (fun f => show_value (f_value f)) <$> List.filter (fun f => bool_decide (f_type f = t)) fs.

(** [addFiltersToRoute()] *)
Definition filters_query (fs : list Filter) (interval : option TimestampInterval) (node : option string) : Query :=
  let has_from := match interval with Some t => truthy_onum (from t) | None => false end in
  {| q_stream_kind := non_empty (join "," (values_of STREAM_KIND fs));
     q_message_kind := non_empty (join "," (values_of MESSAGE_KIND fs));
     q_addr := match List.find (fun f => bool_decide (f_type f = ADDRESS)) fs with
               | Some f => if truthy_value (f_value f) then Some (show_value (f_value f)) else None
               | None => None
               end;
     q_from := if has_from then interval ≫= from else None;
     q_to := if has_from then interval ≫= to else None;
     q_node := node ≫= non_empty |}.

(** ** The table *)

(** [s.split(',')] *)
Fixpoint split_comma (s : string) : list string :=
  match s with
  | EmptyString => [EmptyString]
  | String c s' =>
    if Ascii.eqb c (Ascii.ascii_of_nat 44) then EmptyString :: split_comma s'
    else match split_comma s' with
         | w :: ws => String c w :: ws
         | [] => [String c EmptyString]
         end
  end.

Definition availableFilters : list Filter :=
  fold_left (fun acc current => acc ++ fold_left (fun acc2 curr => acc2 ++ c_filters curr) current [])
    networkAvailableFilters [].

Definition address_filter (address : string) : Filter := mkFilter ADDRESS address (inr address) None.

(** The filters of one kind; a value that is not available is undefined. *)
Definition kind_filters (param : option string) : list (option Filter) :=
  match param with
  | Some s => (fun value => List.find (fun f => bool_decide (f_value f = inr value)) availableFilters)
                <$> split_comma s
  | None => []
  end.

Definition getFiltersFromTheRoute (q : Query) : list (option Filter) :=
  match q_addr q with
  | Some address => if truthy_str address then [Some (address_filter address)] else []
  | None => []
  end ++ kind_filters (q_stream_kind q) ++ kind_filters (q_message_kind q).

(** Some key of the query other than [node] is present. *)
Definition has_query (q : Query) : bool :=
  is_some (q_stream_kind q) || is_some (q_message_kind q) || is_some (q_addr q) ||
  is_some (q_from q) || is_some (q_to q).

(** The undefined entries apart, the action of the first route. *)
Definition route_action (messageId : option Z) (q : Query) (filters : list Filter) : Action :=
  let interval := mkInterval (q_from q) (q_to q) in
  let dir := if truthy_onum (q_from q) then Some FORWARD else None in
  let payload := mkFilterPayload filters true (Some interval) dir in
  if is_some messageId || has_query q then
    match messageId with
    | Some i => GetSpecificMessage i payload
    | None => match filters with
              | [] => SetTimestampInterval interval dir
              | _ => ToggleFilter payload
              end
    end
  else GetMessages.

(** [filterByAddress(message)] *)
Definition address_action (active : list Filter) (m : Message) : Action :=
  ToggleFilter (mkFilterPayload [address_filter (m_address m)]
    (negb (existsb (fun f => bool_decide (f_value f = inr (m_address m))) active)) None None).

(** [clearFilters()] *)
Definition clear_action (active : list Filter) : Action :=
  ToggleFilter (mkFilterPayload active false None None).

(** [onRowClick(row)] *)
Definition row_action (active : option Message) (row : Message) : option Action :=
  if bool_decide (Some (id row) = id <$> active) then None else Some (SetActiveRow (Some row)).

(** ** The footer *)

(** [a === b?.id] *)
Definition same_id (a : js Z) (b : option Z) : bool :=
  match a, b with
  | Val x, Some y => x =? y
  | Undefined, None => true
  | _, _ => false
  end.

Definition isFirstPage (s : State) : bool :=
  let p := activePage s in
  let start_id := id <$> start p in
  bool_decide (start_id = Some 0) ||
  (negb (truthy_num (firstPageIdWithTimestamp p)) && (Z.of_nat (length (messages s)) <? limit s)) ||
  same_id (firstPageIdWithFilters p) start_id ||
  match firstPageIdWithTimestamp p, start_id with
  | Val n, Some i => truthyZ n && (i <=? n)
  | _, _ => false
  end.

(** Reading the last message of a page that has none throws. *)
Definition isLastPage (s : State) : result bool :=
  let p := activePage s in
  if stream s ||
     (negb (truthy_num (firstPageIdWithTimestamp p)) &&
      (bool_decide (pages s = []) || bool_decide (id <$> end_ p = mjoin (last (pages s)))))
  then Ok true
  else match end_ p with
       | Some e => Ok (same_id (lastPageIdWithFilters p) (Some (id e)) ||
                       same_id (lastPageIdWithTimestamp p) (Some (id e)))
       | None => Throw "Cannot read properties of undefined (reading 'id')"
       end.

(** The four buttons; [current] is the interval of the footer. *)
Definition previousPage (s : State) (current : option TimestampInterval) : result Action :=
  match start (activePage s) with
  | None => Throw "Cannot read properties of undefined (reading 'id')"
  | Some first => Ok
    match current with
    | Some t => GetPaginatedMessages (Some (id first - limit s)) (Some FORWARD) (Some (mkInterval None (to t)))
    | None => GetPaginatedMessages (Some (id first - 1)) (Some REVERSE) None
    end
  end.

Definition nextPage (s : State) (current : option TimestampInterval) : result Action :=
  match end_ (activePage s) with
  | None => Throw "Cannot read properties of undefined (reading 'id')"
  | Some e => Ok (GetPaginatedMessages (Some (id e + 1)) (Some FORWARD)
      match current with Some t => Some (mkInterval None (to t)) | None => None end)
  end.

Definition js_option (v : js Z) : option Z := match v with Val n => Some n | _ => None end.

Definition firstPage (s : State) (current : option TimestampInterval) : Action :=
  match current with
  | Some t => GetPaginatedMessages (js_option (firstPageIdWithTimestamp (activePage s))) (Some FORWARD)
                (Some (mkInterval None (to t)))
  | None => GetPaginatedMessages (Some 0) (Some FORWARD) None
  end.

Definition lastPage (s : State) (current : option TimestampInterval) : Action :=
  match current with
  | Some t => GetPaginatedMessages None (Some REVERSE) (Some (mkInterval (to t) (from t)))
  | None => GetPaginatedMessages (mjoin (last (pages s))) (Some REVERSE) None
  end.

(** [currentTimestamp] follows the intervals of the store that have a beginning. *)
Definition footer_interval (current : option TimestampInterval) (t : TimestampInterval)
    : option TimestampInterval :=
  if truthy_onum (from t) then Some t else current.

(** [clearTimestampInterval()] *)
Definition clear_interval_action : Action := SetTimestampInterval (mkInterval None None) (Some REVERSE).

(** ** The address of the page *)

Fixpoint comma_free (s : string) : bool :=
  match s with
  | EmptyString => true
  | String c s' => negb (Ascii.eqb c (Ascii.ascii_of_nat 44)) && comma_free s'
  end.

Lemma split_comma_free s : comma_free s = true -> split_comma s = [s].
Proof.
  induction s as [|c s IH]; [done|]. cbn [comma_free split_comma]. intros [Hc Hs]%andb_prop.
  apply negb_true_iff in Hc. by rewrite Hc, IH.
Qed.

Lemma split_comma_app s t :
  comma_free s = true -> split_comma (s +:+ "," +:+ t) = s :: split_comma t.
Proof.
  induction s as [|c s IH]; [done|]. cbn [comma_free]. intros [Hc Hs]%andb_prop.
  change (String c s +:+ "," +:+ t) with (String c (s +:+ "," +:+ t)). cbn [split_comma].
  apply negb_true_iff in Hc. by rewrite Hc, IH.
Qed.

Lemma split_join l :
  l <> [] -> forallb comma_free l = true -> split_comma (join "," l) = l.
Proof.
  induction l as [|s l IH]; [done|]. intros _ [Hs Hl]%andb_prop. destruct l as [|t l].
  - by apply split_comma_free.
  - change (join "," (s :: t :: l)) with (s +:+ "," +:+ join "," (t :: l)).
    rewrite split_comma_app by done. by rewrite IH.
Qed.

Lemma join_truthy s l : truthy_str s = true -> truthy_str (join "," (s :: l)) = true.
Proof. destruct s; [done|]. by destruct l. Qed.

(** Every available filter has a value of its own that can stand in the address. *)
Definition catalogue_ok : bool :=
  forallb (fun f => match f_value f with
                    | inr v => comma_free v && truthy_str v && negb (bool_decide (f_type f = ADDRESS)) &&
                      bool_decide (List.find (fun g => bool_decide (f_value g = inr v)) availableFilters = Some f)
                    | inl _ => false
                    end) availableFilters.

Lemma catalogue_is_ok : catalogue_ok = true.
Proof. by vm_compute. Qed.

Lemma available_spec f :
  f ∈ availableFilters ->
  exists v, f_value f = inr v /\ comma_free v = true /\ truthy_str v = true /\ f_type f <> ADDRESS /\
    List.find (fun g => bool_decide (f_value g = inr v)) availableFilters = Some f.
Proof.
  intros Hf. pose proof catalogue_is_ok as Hok. unfold catalogue_ok in Hok. rewrite forallb_forall in Hok.
  apply list_elem_of_In, Hok in Hf. destruct (f_value f) as [n|v]; [done|].
  apply andb_prop in Hf as [Hf H4]. apply andb_prop in Hf as [Hf H3]. apply andb_prop in Hf as [H1 H2].
  exists v. apply bool_decide_eq_true in H4. apply negb_true_iff, bool_decide_eq_false in H3. done.
Qed.

Definition of_type (t : FilterType) (fs : list Filter) : list Filter :=
  List.filter (fun f => bool_decide (f_type f = t)) fs.

(** The filters of one kind come back from their part of the address. *)
Lemma kind_roundtrip t fs :
  (forall f, f ∈ of_type t fs -> f ∈ availableFilters) ->
  kind_filters (non_empty (join "," (values_of t fs))) = Some <$> of_type t fs.
Proof.
  unfold values_of. fold (of_type t fs). generalize (of_type t fs). intros l Hl.
  destruct l as [|f l']; [done|]. set (l := f :: l') in *.
  assert (Hne : truthy_str (join "," ((fun f => show_value (f_value f)) <$> l)) = true).
  { apply join_truthy. destruct (available_spec f) as (v & Hv & _ & Ht & _); [apply Hl, list_elem_of_here|].
    by rewrite Hv. }
  unfold non_empty. rewrite Hne. cbn [kind_filters]. rewrite split_join; [|done|].
  - rewrite <- list_fmap_compose. apply list_fmap_ext. intros i g Hg. cbn.
    apply list_elem_of_lookup_2, Hl in Hg. destruct (available_spec g Hg) as (v & Hv & _ & _ & _ & Hf).
    rewrite Hv. exact Hf.
  - apply forallb_forall. intros v Hv. apply list_elem_of_In, list_elem_of_fmap in Hv as (g & -> & Hg).
    destruct (available_spec g (Hl g Hg)) as (v & Hv & Hc & _). by rewrite Hv.
Qed.

Lemma types_perm fs : of_type ADDRESS fs ++ of_type STREAM_KIND fs ++ of_type MESSAGE_KIND fs ≡ₚ fs.
Proof.
  unfold of_type. induction fs as [|f fs IH]; [done|]. cbn [List.filter].
  destruct (f_type f) eqn:E; repeat case_bool_decide; try congruence.
  - etrans; [symmetry; apply (Permutation_middle _ (_ ++ _))|]. by apply perm_skip.
  - rewrite app_assoc. etrans; [symmetry; apply Permutation_middle|]. apply perm_skip.
    by rewrite <- app_assoc.
  - cbn. by rewrite IH.
Qed.

(** The filters a user can choose: those of the panel, and addresses. *)
Definition chosen (fs : list Filter) : Prop :=
  forall f, f ∈ fs -> f ∈ availableFilters \/ exists a, f = address_filter a /\ a <> "".

(** The filters that the address of the page has room for: one address and all of the panel. *)
Definition kept_filters (fs : list Filter) : list Filter :=
  take 1 (of_type ADDRESS fs) ++ of_type STREAM_KIND fs ++ of_type MESSAGE_KIND fs.

Lemma kept_perm fs : (length (of_type ADDRESS fs) <= 1)%nat -> kept_filters fs ≡ₚ fs.
Proof. intros Hl. unfold kept_filters. rewrite take_ge by done. apply types_perm. Qed.

Lemma kept_nonempty fs : fs <> [] -> kept_filters fs <> [].
Proof.
  intros Hne E. pose proof (types_perm fs) as Hp. unfold kept_filters in E.
  apply app_eq_nil in E as [E1 E2]. rewrite E2, app_nil_r in Hp.
  destruct (of_type ADDRESS fs); [|done]. by apply Permutation_nil_l in Hp.
Qed.

Lemma find_filter_head {A} (f : A -> bool) l : List.find f l = head (List.filter f l).
Proof. induction l as [|x l IH]; [done|]. cbn. by destruct (f x). Qed.

(** The route gives back the filters that were put into it. *)
Lemma route_filters fs interval node :
  chosen fs -> getFiltersFromTheRoute (filters_query fs interval node) = Some <$> kept_filters fs.
Proof.
  intros Hc. unfold getFiltersFromTheRoute, kept_filters. cbn [filters_query q_addr q_stream_kind q_message_kind].
  assert (Hkind : forall t f, t <> ADDRESS -> f ∈ of_type t fs -> f ∈ availableFilters).
  { intros t f Ht Hf. apply elem_of_lfilter in Hf as [Hf Htype]. apply bool_decide_eq_true in Htype.
    destruct (Hc f Hf) as [|(a & -> & _)]; [done|]. by destruct Ht. }
  rewrite !kind_roundtrip by (intros f; by apply Hkind). rewrite !fmap_app. f_equal.
  rewrite find_filter_head. fold (of_type ADDRESS fs).
  destruct (of_type ADDRESS fs) as [|f l] eqn:E; [done|].
  assert (Hf : f ∈ of_type ADDRESS fs) by (rewrite E; apply list_elem_of_here).
  apply elem_of_lfilter in Hf as [Hf Ht]. apply bool_decide_eq_true in Ht.
  destruct (Hc f Hf) as [Hav|(a & -> & Ha)].
  - by destruct (available_spec f Hav) as (_ & _ & _ & _ & Hne & _).
  - cbn. destruct a; [done|]. reflexivity.
Qed.

Lemma chosen_query fs interval node : chosen fs -> fs <> [] -> has_query (filters_query fs interval node) = true.
Proof.
  intros Hc Hne. pose proof (route_filters fs interval node Hc) as Hr. pose proof (kept_nonempty fs Hne) as Hk.
  set (q := filters_query fs interval node) in *. apply not_false_iff_true. intros Hq. unfold has_query in Hq.
  rewrite !orb_false_iff in Hq. destruct Hq as [[[[H1 H2] H3] _] _]. unfold getFiltersFromTheRoute in Hr.
  destruct (q_stream_kind q), (q_message_kind q), (q_addr q); try done. symmetry in Hr.
  by apply fmap_nil_inv in Hr.
Qed.

(** C12: When the address of a page with filters is opened again, the store of the new page
    has as its active filters the first address filter and all the filters of the panel that
    were chosen, and no others, so all that were chosen unless there were several addresses;
    and it has the interval that was set, if that has a beginning. *)
Theorem filters_survive_reload fs interval node :
  chosen fs -> fs <> [] ->
  let q := filters_query fs interval node in
  exists filters, getFiltersFromTheRoute q = Some <$> filters /\
    let s := networkMessagesReducer initialState (route_action None q filters) in
    activeFilters s = take 1 (of_type ADDRESS fs) ++ of_type STREAM_KIND fs ++ of_type MESSAGE_KIND fs /\
    ((length (of_type ADDRESS fs) <= 1)%nat -> activeFilters s ≡ₚ fs) /\ stream s = false /\
    timestamp s = match interval with
                  | Some t => if truthy_onum (from t) then t else mkInterval None None
                  | None => mkInterval None None
                  end.
Proof.
  intros Hc Hne q. pose proof (route_filters fs interval node Hc) as Hr. pose proof (kept_nonempty fs Hne) as Hk.
  fold q in Hr. exists (kept_filters fs). split; [exact Hr|].
  unfold route_action. cbn [is_some orb]. rewrite (chosen_query fs interval node Hc Hne : has_query q = true).
  pose proof (kept_perm fs) as Hp. fold (kept_filters fs). destruct (kept_filters fs) as [|f l] eqn:E; [done|].
  rewrite <- E in *. cbn zeta. cbn [networkMessagesReducer toggle_filter activeFilters stream timestamp].
  cbn. rewrite lfilter_all by done. split; [done|]. split; [done|]. split; [done|].
  destruct interval as [[fr t]|]; [|done]. cbn. by destruct (truthy_onum fr).
Qed.

Lemma filters_survive_reload_witness :
  exists filters, getFiltersFromTheRoute (filters_query [address_filter "1.2.3.4"; available MESSAGE_KIND "Ping" "ping"]
    None None) = Some <$> filters /\ length filters = 2%nat.
Proof.
  destruct (filters_survive_reload [address_filter "1.2.3.4"; available MESSAGE_KIND "Ping" "ping"] None None)
    as (filters & Hf & Hp & _); [|done|].
  - intros f Hf. rewrite !elem_of_cons in Hf.
    destruct Hf as [->|[->|Hf]]; [|left; by apply (bool_decide_eq_true _)|by apply not_elem_of_nil in Hf].
    right. by exists "1.2.3.4".
  - exists filters. split; [exact Hf|]. apply (f_equal length) in Hf. by rewrite length_fmap in Hf.
Defined.

(** A value that is not available comes back as undefined. *)
Lemma unknown_filter_undefined :
  getFiltersFromTheRoute (mkQuery (Some "no_such_stream") None None None None None) = [None].
Proof. by vm_compute. Qed.

(** A second address does not stay in the address of the page. *)
Lemma second_address_lost a b interval node :
  a <> "" -> q_addr (filters_query [address_filter a; address_filter b] interval node) = Some a.
Proof. intros Ha. cbn. by destruct a. Qed.

(** ** The panel *)

(** A click on a category that is not complete completes it, and one on a complete
    category removes all of its filters. *)
Lemma category_toggles s c :
  let s' := networkMessagesReducer s (category_action (activeFilters s) c) in
  if forallb (includes (activeFilters s)) (c_filters c)
  then forall f g, f ∈ c_filters c -> g ∈ activeFilters s' -> f_value g <> f_value f
  else forall f, f ∈ c_filters c -> exists g, g ∈ activeFilters s' /\ f_value g = f_value f.
Proof.
  cbn. unfold toggled_filters. cbn [fp_add fp_filters].
  destruct (forallb _ _); cbn [negb].
  - intros f g Hf Hg. apply elem_of_lfilter in Hg as [_ Hg]. apply negb_true_iff in Hg. intros He.
    apply not_true_iff_false in Hg. apply Hg. apply existsb_exists. exists f.
    split; [by apply list_elem_of_In|]. unfold same_value. by apply bool_decide_eq_true.
  - intros f Hf. destruct (existsb (fun fi => same_value fi f) (activeFilters s)) eqn:E.
    + apply existsb_exists in E as (g & Hg & He). exists g. unfold same_value in He.
      apply bool_decide_eq_true in He. split; [|done]. apply elem_of_app. left. by apply list_elem_of_In.
    + exists f. split; [|done]. apply elem_of_app. right. apply elem_of_lfilter. by rewrite E.
Qed.

(** ** The footer *)

(** What the footer relies on: a page without messages is the last one. *)
Definition footer_ok (s : State) : Prop :=
  (end_ (activePage s) = None ->
     truthy_num (firstPageIdWithTimestamp (activePage s)) = false /\
     (pages s = [] \/ last (pages s) = Some None)) /\
  (None ∈ pages s -> last (pages s) = Some None).

Lemma none_is_last (ps : list (option Z)) : None ∈ ps -> last (sort_pages ps) = Some None.
Proof.
  intros Hn. unfold sort_pages. rewrite last_app.
  assert (Hall : forall l : list (option Z), List.filter (fun p => negb (is_some p)) l = [] \/
    last (List.filter (fun p => negb (is_some p)) l) = Some None).
  { induction l as [|[x|] l IH]; [by left|exact IH|]. right. cbn.
    destruct IH as [->| IH]; [done|]. by destruct (List.filter _ l). }
  destruct (Hall ps) as [Hnil| ->]; [|done].
  assert (Hin : None ∈ List.filter (fun p => negb (is_some p)) ps) by by apply elem_of_lfilter.
  rewrite Hnil in Hin. by apply not_elem_of_nil in Hin.
Qed.

Lemma setPages_last page s :
  footer_ok s ->
  (None ∈ setPages page s -> last (setPages page s) = Some None) /\
  (page_id page = None -> last (setPages page s) = Some None).
Proof.
  intros [_ Hs]. unfold setPages. destruct (includes (pages s) (page_id page)) eqn:Hi.
  - split; [done|]. intros Hp. apply Hs. rewrite <- Hp. unfold includes in Hi. by apply bool_decide_eq_true in Hi.
  - destruct (page_gt _ _) eqn:Hg.
    + destruct (page_id page) as [i|]; [|done]. split; [|done]. intros Hn.
      by apply list_elem_of_singleton in Hn.
    + split.
      * intros Hn. apply none_is_last. unfold sort_pages in Hn. apply elem_of_app in Hn as [Hn|Hn].
        -- by apply list_elem_of_fmap in Hn as (x & [=] & _).
        -- by apply elem_of_lfilter in Hn as [Hn _].
      * intros ->. apply none_is_last, elem_of_app. right. apply list_elem_of_here.
Qed.

Lemma footer_step s a : footer_ok s -> footer_ok (networkMessagesReducer s a).
Proof.
  intros Hs. pose proof Hs as [H1 H2]. destruct a; try done;
    try (split; [intros _; split; [done|by left]|intros Hn; by apply not_elem_of_nil in Hn]).
    destruct (setPages_last (setActivePage payload s) s Hs) as [Hn Hl]. split; [|exact Hn].
  cbn. destruct payload as [|m l]; [intros _; split; [done|right; by apply Hl]|].
  unfold setActivePage. cbn [head]. destruct (last (m :: l)) eqn:E; [done|].
  apply last_None in E. done.
Qed.

(** In every state the page can reach, whatever was filtered, paged or
    refused, the footer can tell whether the page is the last one: the message it
    reads exists. *)
Theorem footer_never_throws (actions : list Action) :
  throws (isLastPage (fold_left networkMessagesReducer actions initialState)) = false.
Proof.
  assert (Hs : footer_ok (fold_left networkMessagesReducer actions initialState)).
  { induction actions as [|a actions IH] using rev_ind.
    - split; [|intros Hn; by apply not_elem_of_nil in Hn]. intros _. split; [done|by left].
    - rewrite fold_left_app. cbn [fold_left]. by apply footer_step. }
  revert Hs. generalize (fold_left networkMessagesReducer actions initialState). intros s [Hs _].
  unfold isLastPage. destruct (end_ (activePage s)) as [e|]; [by case_match|].
  destruct (Hs eq_refl) as [-> Hp]. cbn [negb andb].
  destruct Hp as [Hp|Hp].
  - rewrite (bool_decide_eq_true_2 _ Hp). by rewrite orb_true_r.
  - rewrite (bool_decide_eq_true_2 (id <$> None = mjoin (last (pages s)))) by (by rewrite Hp).
    by rewrite !orb_true_r.
Qed.

End MessagesPage.
