(* ===== verification/Treemap.v ===== *)
(** * The treemap of the memory

    [src/frontend/src/app/features/resources/memory/memory-resources-treemap]:
    the chart of the resources of [MemoryResources], with the rectangle of every
    node, the search of a node and the steps into and out of a node. The drawing
    itself is in [TreemapChart].

    The layouts of the package d3 are the methods of a class: a hierarchy that
    represents the resource, and a division of a rectangle among its children. *)

From Stdlib Require Import QArith Qfield Lqa.
From stdpp Require Import base list strings.
From S2P Require Import Prelude SharedLib MemoryResources.

Module Treemap.
Import Memory.
Open Scope Q_scope.

Record Rect := mkRect { x0 : Q; y0 : Q; x1 : Q; y1 : Q }.

(** A node of [hierarchy(resource)], whose children may be in another order. *)
Inductive HNode := mkH (data : Resource) (children : list HNode).

Definition h_data (n : HNode) : Resource := let 'mkH d _ := n in d.
Definition h_children (n : HNode) : list HNode := let 'mkH _ cs := n in cs.

(** The node stands for the resource and its children for the children. *)
Fixpoint represents (n : HNode) (r : Resource) : Prop :=
  match n with
  | mkH d cs => d = r /\ exists rs, rs ≡ₚ r_children r /\
      (fix all (cs : list HNode) (rs : list Resource) : Prop :=
         match cs, rs with
         | [], [] => True
         | c :: cs', r :: rs' => represents c r /\ all cs' rs'
         | _, _ => False
         end) cs rs
  end.

Definition inside (a b : Rect) : Prop :=
  (x0 b <= x0 a /\ x0 a <= x1 a /\ x1 a <= x1 b) /\ (y0 b <= y0 a /\ y0 a <= y1 a /\ y1 a <= y1 b).

(** The interiors do not meet. *)
Definition apart (a b : Rect) : Prop :=
  x1 a <= x0 b \/ x1 b <= x0 a \/ y1 a <= y0 b \/ y1 b <= y0 a.

Definition all_apart (rs : list Rect) : Prop :=
  forall i j a b, i <> j -> rs !! i = Some a -> rs !! j = Some b -> apart a b.

(** [hierarchy(resource).sum(f).sort(..)] and [treemapBinary], [treemapSquarify],
    [treemapSlice] and [treemapDice] on the rectangle from the origin. *)
Class D3 := mkD3 {
  hierarchy : (Resource -> Q) -> Resource -> HNode;
  tiles : TreemapView -> HNode -> Q -> Q -> list Rect;
  hierarchy_represents : forall f r, represents (hierarchy f r) r;
  tiles_length : forall v n w h, length (tiles v n w h) = length (h_children n);
  tiles_inside : forall v n w h, 0 < w -> 0 < h -> Forall (fun t => inside t (mkRect 0 0 w h)) (tiles v n w h);
  tiles_apart : forall v n w h, 0 < w -> 0 < h -> all_apart (tiles v n w h)
}.

(** The value that is summed: a node with children has none of its own, and an
    empty leaf has a small one. *)
Definition leaf_value (d : Resource) : Q :=
  match r_children d with
  | [] => if truthyZ (r_value d) then inject_Z (r_value d) else 1 # 100
  | _ => 0
  end.

(** A node of the chart with its rectangle. *)
Inductive Tile := mkTile (data : Resource) (rect : Rect) (children : list Tile).

Definition t_data (t : Tile) : Resource := let 'mkTile d _ _ := t in d.
Definition t_rect (t : Tile) : Rect := let 'mkTile _ r _ := t in r.
Definition t_children (t : Tile) : list Tile := let 'mkTile _ _ cs := t in cs.

Section Chart.
Context `{D3} (width height : Q) (view : TreemapView).

(** The loop of [tile]: a rectangle of the whole chart is brought into its parent. *)
Definition rescale (parent child : Rect) : Rect :=
  {| x0 := x0 parent + (x0 child / width) * (x1 parent - x0 parent);
     x1 := x0 parent + (x1 child / width) * (x1 parent - x0 parent);
     y0 := y0 parent + (y0 child / height) * (y1 parent - y0 parent);
     y1 := y0 parent + (y1 child / height) * (y1 parent - y0 parent) |}.

Fixpoint layout (n : HNode) (rect : Rect) : Tile :=
  match n with
  | mkH d cs =>
    mkTile d rect
      ((fix go (cs : list HNode) (rs : list Rect) : list Tile :=
          match cs, rs with
          | c :: cs', r :: rs' => layout c (rescale rect r) :: go cs' rs'
          | _, _ => []
          end) cs (tiles view n width height))
  end.

(** [createTreemapValues(resource)]; d3 gives the root the unit square. *)
Definition createTreemapValues (resource : Resource) : Tile :=
  layout (hierarchy leaf_value resource) (mkRect 0 0 1 1).
End Chart.

(** [findNodeByName(node, root)] compares the numbers of the resources. *)
Fixpoint findNodeByName (id : nat) (root : Tile) : option Tile :=
  match root with
  | mkTile d _ cs =>
    if Nat.eqb (r_id d) id then Some root
    else (fix go (found : option Tile) (cs : list Tile) : option Tile :=
            match cs with
            | [] => found
            | c :: cs' => go match found with Some t => Some t | None => findNodeByName id c end cs'
            end) None cs
  end.

(** [d.parent] of the node with a number; the root has none. *)
Fixpoint parent_of (id : nat) (root : Tile) : option Tile :=
  match root with
  | mkTile _ _ cs =>
    if existsb (fun c => Nat.eqb (r_id (t_data c)) id) cs then Some root
    else (fix go (cs : list Tile) : option Tile :=
            match cs with
            | [] => None
            | c :: cs' => match parent_of id c with Some t => Some t | None => go cs' end
            end) cs
  end.

(** [zoomIn(d)], as far as the store sees it. *)
Definition zoomIn (d : Tile) : Action := SetActiveResource (t_data d).

Definition null_error : string := "Cannot read properties of null".

(** [zoomOut(d)] *)
Definition zoomOut (chart : Tile) (d : Tile) : result Action :=
  match parent_of (r_id (t_data d)) chart with
  | Some p => Ok (SetActiveResource (t_data p))
  | None => Throw null_error
  end.

(** [onKeydownHandler()] for the escape key. *)
Definition escape (s : State) (chart : Tile) : result (option Action) :=
  if (1 <? length (breadcrumbs s))%nat then
    match mjoin (last (breadcrumbs s)) with
    | None => Throw "Cannot read properties of undefined (reading 'id')"
    | Some crumb =>
      match findNodeByName (r_id crumb) chart with
      | None => Throw null_error
      | Some node => match zoomOut chart node with Ok a => Ok (Some a) | Throw e => Throw e end
      end
    end
  else Ok None.

(** The part of the class that follows the active resource; the flag says whether
    the chart zooms to it. *)
Record Component := mkComponent { isFirstTime : bool; lastClicked : option nat }.

Definition on_active (c : Component) (resource : Resource) : Component * bool :=
  let zoom := negb (isFirstTime c) && negb (bool_decide (lastClicked c = Some (r_id resource))) in
  (mkComponent false (if zoom then Some (r_id resource) else lastClicked c), zoom).

(** [updateTooltipPosition(event)]: the left edge of the tooltip. *)
Definition tooltip_left (clientX tooltipWidth innerWidth : Q) : Q :=
  let xMargin := 14 in
  let x := clientX - tooltipWidth / 2 + xMargin in
  let maxX := innerWidth - tooltipWidth - xMargin in
  if Qle_bool x maxX then x else maxX.

(** ** Rectangles *)

Fixpoint HNode_nested_ind (P : HNode -> Prop)
    (Hnode : forall d cs, Forall P cs -> P (mkH d cs)) (n : HNode) : P n.
Proof.
  destruct n as [d cs]. apply Hnode. induction cs as [|c cs IH]; constructor; [by apply HNode_nested_ind|done].
Qed.

Definition proper (r : Rect) : Prop := x0 r <= x1 r /\ y0 r <= y1 r.

Lemma between (a b t : Q) : a <= b -> 0 <= t <= 1 -> a <= a + t * (b - a) /\ a + t * (b - a) <= b.
Proof. intros Hab [H0 H1]. split; nra. Qed.

Lemma monotone (a b s t : Q) : a <= b -> s <= t -> a + s * (b - a) <= a + t * (b - a).
Proof. intros Hab Hst. nra. Qed.

Lemma fraction (x w : Q) : 0 < w -> 0 <= x <= w -> 0 <= x / w <= 1.
Proof.
  intros Hw [H0 H1]. split.
  - apply Qle_shift_div_l; [done|]. by rewrite Qmult_0_l.
  - apply Qle_shift_div_r; [done|]. by rewrite Qmult_1_l.
Qed.

Lemma fraction_mono (x y w : Q) : 0 < w -> x <= y -> x / w <= y / w.
Proof. intros Hw Hxy. unfold Qdiv. apply Qmult_le_compat_r; [done|]. apply Qlt_le_weak, Qinv_lt_0_compat, Hw. Qed.

Section Bounds.
Context `{D3} (width height : Q) (view : TreemapView) (Hw : 0 < width) (Hh : 0 < height).

Notation rescale := (rescale width height).

Lemma rescale_inside parent child :
  proper parent -> inside child (mkRect 0 0 width height) -> inside (rescale parent child) parent.
Proof.
  intros [Hx Hy] [(A & B & C) (D & E & F)]. cbn in A, C, D, F. unfold inside, rescale. cbn.
  pose proof (fraction (x0 child) width Hw ltac:(split; lra)).
  pose proof (fraction (x1 child) width Hw ltac:(split; lra)).
  pose proof (fraction (y0 child) height Hh ltac:(split; lra)).
  pose proof (fraction (y1 child) height Hh ltac:(split; lra)).
  split; (split; [by apply between|split; [apply monotone; [done|by apply fraction_mono]|by apply between]]).
Qed.

Lemma rescale_apart parent a b : proper parent -> apart a b -> apart (rescale parent a) (rescale parent b).
Proof.
  intros [Hx Hy] Hab. unfold apart, rescale. cbn.
  destruct Hab as [Hab|[Hab|[Hab|Hab]]]; [left|right; left|right; right; left|right; right; right];
    (apply monotone; [done|by apply fraction_mono]).
Qed.

(** Every rectangle of the chart is inside its parent and apart from its
    siblings. *)
Fixpoint nested (t : Tile) : Prop :=
  match t with
  | mkTile _ r cs =>
    Forall (fun c => inside (t_rect c) r) cs /\ all_apart (t_rect <$> cs) /\
    (fix all (cs : list Tile) : Prop := match cs with [] => True | c :: cs' => nested c /\ all cs' end) cs
  end.

Lemma layout_rect n r : t_rect (layout width height view n r) = r.
Proof. by destruct n. Qed.

(** The children of a node, with the rectangles they are given. *)
Definition go r := fix go (cs : list HNode) (rs : list Rect) : list Tile :=
  match cs, rs with
  | c :: cs', q :: rs' => layout width height view c (rescale r q) :: go cs' rs'
  | _, _ => []
  end.

Lemma go_rects r cs rs : length rs = length cs -> t_rect <$> go r cs rs = rescale r <$> rs.
Proof.
  revert rs. induction cs as [|c cs IH]; intros [|q rs] Hl; try done. cbn.
  rewrite layout_rect. f_equal. apply IH. by injection Hl.
Qed.

Lemma layout_nested n r : proper r -> nested (layout width height view n r).
Proof.
  revert r. induction n as [d cs IH] using HNode_nested_ind. intros r Hr.
  cbn [layout nested]. fold (go r). set (ts := tiles view (mkH d cs) width height).
  pose proof (tiles_length view (mkH d cs) width height : length ts = length cs) as Hlen.
  pose proof (tiles_inside view (mkH d cs) width height Hw Hh : Forall _ ts) as Hin.
  pose proof (tiles_apart view (mkH d cs) width height Hw Hh : all_apart ts) as Hap.
  split; [|split].
  - apply (proj1 (Forall_fmap t_rect (fun q => inside q r) _)). rewrite go_rects by done.
    apply Forall_fmap. eapply List.Forall_impl; [|exact Hin]. intros q Hq. by apply rescale_inside.
  - rewrite go_rects by done. intros i j a b Hij Ha Hb. rewrite list_lookup_fmap in Ha, Hb.
    destruct (ts !! i) as [a'|] eqn:Ei; [|done]. destruct (ts !! j) as [b'|] eqn:Ej; [|done].
    injection Ha as <-. injection Hb as <-. apply rescale_apart; [done|]. by eapply Hap.
  - clear Hap. revert Hlen Hin. generalize ts. clear ts. induction cs as [|c cs IHcs]; intros [|q ts] Hlen Hin; try done.
    apply Forall_cons_iff in IH as [Hc Hcs]. apply Forall_cons_iff in Hin as [Hq Hin]. split.
    + apply Hc. pose proof (rescale_inside r q Hr Hq) as [(_ & Hx & _) (_ & Hy & _)]. by split.
    + apply IHcs; [done|by injection Hlen|done].
Qed.
End Bounds.

(** On a chart of positive size every rectangle of the treemap, in every view,
    lies inside the rectangle of its parent and does not overlap those of its
    siblings. *)
Theorem treemap_nested `{D3} (width height : Q) (view : TreemapView) (resource : Resource) :
  0 < width -> 0 < height -> nested (createTreemapValues width height view resource).
Proof. intros Hw Hh. apply layout_nested; [done|done|]. by split; cbn. Qed.

(** *** A division *)

(** Equal columns, one per child: the class is inhabited. *)
Definition column (w h : Q) (n i : nat) : Rect :=
  let u := w / inject_Z (Z.of_nat n) in
  mkRect (inject_Z (Z.of_nat i) * u) 0 (inject_Z (Z.of_nat (S i)) * u) h.

Definition columns (v : TreemapView) (n : HNode) (w h : Q) : list Rect :=
  column w h (length (h_children n)) <$> seq 0 (length (h_children n)).

Fixpoint to_h (r : Resource) : HNode :=
  match r with mkResource _ _ cs _ => mkH r (map to_h cs) end.

Fixpoint Resource_nested_ind (P : Resource -> Prop)
    (Hnode : forall n v cs i, Forall P cs -> P (mkResource n v cs i)) (r : Resource) : P r.
Proof.
  destruct r as [n v cs i]. apply Hnode.
  induction cs as [|c cs IH]; constructor; [by apply Resource_nested_ind|done].
Qed.

Lemma to_h_represents r : represents (to_h r) r.
Proof.
  induction r as [n v cs i IH] using Resource_nested_ind. cbn. split; [done|]. exists cs. split; [done|].
  induction IH as [|c cs Hc _ IHcs]; [done|]. by split.
Qed.

Lemma inject_le (a b : nat) : (a <= b)%nat -> inject_Z (Z.of_nat a) <= inject_Z (Z.of_nat b).
Proof. intros Hab. rewrite <- Zle_Qle. lia. Qed.

Lemma unit_positive (w : Q) (n : nat) : 0 < w -> (0 < n)%nat -> 0 < w / inject_Z (Z.of_nat n).
Proof. intros Hw Hn. apply Qlt_shift_div_l; [rewrite <- (Zlt_Qlt 0); lia|]. by rewrite Qmult_0_l. Qed.

Lemma unit_times (w : Q) (n : nat) : (0 < n)%nat -> inject_Z (Z.of_nat n) * (w / inject_Z (Z.of_nat n)) == w.
Proof.
  intros Hn. apply Qmult_div_r. intros Hz. apply (Qlt_irrefl 0). rewrite <- Hz at 2.
  rewrite <- (Zlt_Qlt 0). lia.
Qed.

Lemma columns_inside v n w h :
  0 < w -> 0 < h -> Forall (fun t => inside t (mkRect 0 0 w h)) (columns v n w h).
Proof.
  intros Hw Hh. apply Forall_fmap, List.Forall_forall. intros i [_ Hi]%in_seq. cbn in Hi.
  pose proof (unit_positive w (length (h_children n)) Hw ltac:(lia)) as Hu.
  pose proof (unit_times w (length (h_children n)) ltac:(lia)) as Ht.
  pose proof (inject_le 0 i ltac:(lia)) as H0. pose proof (inject_le i (S i) ltac:(lia)) as H1.
  pose proof (inject_le (S i) (length (h_children n)) ltac:(lia)) as H2.
  unfold inside, column. cbn [x0 x1 y0 y1 compose]. change (inject_Z (Z.of_nat 0)) with 0 in H0.
  set (u := w / _) in *. split; [split; [|split]|split; [|split]]; try lra; try nra.
Qed.

Lemma columns_apart v n w h : 0 < w -> 0 < h -> all_apart (columns v n w h).
Proof.
  intros Hw Hh i j a b Hij Ha Hb. unfold columns in *. rewrite list_lookup_fmap in Ha, Hb.
  destruct (seq 0 _ !! i) as [i'|] eqn:Ei; [|done]. destruct (seq 0 _ !! j) as [j'|] eqn:Ej; [|done].
  apply lookup_seq in Ei as [-> Hi]. apply lookup_seq in Ej as [-> Hj].
  injection Ha as <-. injection Hb as <-. unfold apart, column. cbn [x0 x1 y0 y1 Nat.add].
  pose proof (unit_positive w (length (h_children n)) Hw ltac:(lia)) as Hu. set (u := w / _) in *.
  destruct (Nat.lt_ge_cases i j) as [Hlt|Hge].
  - left. apply Qmult_le_compat_r; [apply inject_le; lia|lra].
  - right. left. apply Qmult_le_compat_r; [apply inject_le; lia|lra].
Qed.

Definition column_d3 : D3.
Proof.
  refine (mkD3 (fun _ r => to_h r) columns _ _ columns_inside columns_apart).
  - intros _ r. apply to_h_represents.
  - intros v n w h. unfold columns. by rewrite length_fmap, length_seq.
Defined.

Definition small_tree : Resource :=
  mkResource (mkName "root" None) 9 [mkResource (mkName "b" None) 6 [] 1; mkResource (mkName "a" None) 3 [] 0] 2.

Lemma treemap_nested_witness :
  0 < 100 /\ 0 < 50 /\ nested (@createTreemapValues column_d3 100 50 DICE small_tree).
Proof.
  split; [reflexivity|]. split; [reflexivity|].
  apply (@treemap_nested column_d3 100 50 DICE small_tree); reflexivity.
Defined.

(** ** Searching *)

Inductive below : Resource -> Resource -> Prop :=
| below_refl r : below r r
| below_step x c r : c ∈ r_children r -> below x c -> below x r.

Inductive sub : Tile -> Tile -> Prop :=
| sub_refl t : sub t t
| sub_step u c t : c ∈ t_children t -> sub u c -> sub u t.

Lemma ids_unfold r : ids r = r_id r :: flat_map ids (r_children r).
Proof. by destruct r. Qed.

Lemma below_ids x r : below x r -> r_id x ∈ ids r.
Proof.
  induction 1 as [r|x c r Hc _ IH]; rewrite ids_unfold; [apply list_elem_of_here|].
  apply list_elem_of_further, list_elem_of_In, in_flat_map. exists c. by rewrite <- !list_elem_of_In.
Qed.

Lemma below_child x c r : below x r -> c ∈ r_children x -> below c r.
Proof.
  induction 1 as [r|x d r Hd _ IH]; intros Hc; [eapply below_step; [done|constructor]|].
  eapply below_step; [done|by apply IH].
Qed.

(** Among resources with distinct numbers, a number occurs below one child only. *)
Lemma child_unique cs a b i :
  NoDup (flat_map ids cs) -> a ∈ cs -> b ∈ cs -> i ∈ ids a -> i ∈ ids b -> a = b.
Proof.
  induction cs as [|c cs IH]; intros Hnd Ha Hb Hia Hib; [by apply not_elem_of_nil in Ha|].
  cbn [flat_map] in Hnd. apply NoDup_app in Hnd as (_ & Hd & Hnd).
  assert (Hin : forall d, d ∈ cs -> i ∈ ids d -> i ∈ flat_map ids cs).
  { intros d Hdc Hi. apply list_elem_of_In, in_flat_map. exists d. by rewrite <- !list_elem_of_In. }
  apply elem_of_cons in Ha as [->|Ha], Hb as [->|Hb].
  - done.
  - destruct (Hd i Hia). by eapply Hin.
  - destruct (Hd i Hib). by eapply Hin.
  - by apply IH.
Qed.

Lemma NoDup_child c r : NoDup (ids r) -> c ∈ r_children r -> NoDup (ids c).
Proof.
  rewrite ids_unfold. intros [_ Hnd]%NoDup_cons Hc. induction (r_children r) as [|d cs IH]; [by apply not_elem_of_nil in Hc|].
  cbn [flat_map] in Hnd. apply NoDup_app in Hnd as (H1 & _ & H2).
  apply elem_of_cons in Hc as [->|Hc]; [done|by apply IH].
Qed.

Lemma own_id_fresh c r i : NoDup (ids r) -> c ∈ r_children r -> i ∈ ids c -> i <> r_id r.
Proof.
  rewrite ids_unfold. intros [Hn _]%NoDup_cons Hc Hi ->. apply Hn.
  apply list_elem_of_In, in_flat_map. exists c. by rewrite <- !list_elem_of_In.
Qed.

Lemma NoDup_children r : NoDup (ids r) -> NoDup (flat_map ids (r_children r)).
Proof. rewrite ids_unfold. by intros [_ H]%NoDup_cons. Qed.

Lemma below_unique r x y : NoDup (ids r) -> below x r -> below y r -> r_id x = r_id y -> x = y.
Proof.
  intros Hnd Hx. revert y. induction Hx as [r|x c r Hc Hx IH]; intros y Hy He.
  - inversion Hy as [|? d ? Hd Hy']; subst; [done|].
    destruct (own_id_fresh d r (r_id y) Hnd Hd); [by apply below_ids|done].
  - inversion Hy as [|? d ? Hd Hy']; subst.
    + destruct (own_id_fresh c _ (r_id x) Hnd Hc); [by apply below_ids|done].
    + assert (Hcd : c = d).
      { eapply child_unique; [by apply NoDup_children|done|done|by apply below_ids|].
        rewrite He. by apply below_ids. }
      subst d. apply IH; [by eapply NoDup_child|done|done].
Qed.

Lemma not_below_itself c p : NoDup (ids c) -> below p c -> c ∈ r_children p -> False.
Proof.
  intros Hnd Hp Hc. inversion Hp as [|? d ? Hd Hp']; subst.
  - by apply (own_id_fresh c c (r_id c) Hnd Hc); [apply below_ids; constructor|].
  - apply (own_id_fresh d c (r_id c) Hnd Hd); [|done]. apply below_ids. by eapply below_child.
Qed.

Lemma parent_is_root r q c : NoDup (ids r) -> below q r -> c ∈ r_children r -> c ∈ r_children q -> r = q.
Proof.
  intros Hnd Hq Hr Hcq. inversion Hq as [|? e ? He Hq']; subst; [done|].
  assert (c = e) as <-.
  { eapply child_unique; [by apply NoDup_children|done|done|apply below_ids; constructor|].
    apply below_ids. by eapply below_child. }
  exfalso. eapply not_below_itself; [by eapply NoDup_child|done|done].
Qed.

(** A resource is the child of one resource only. *)
Lemma parent_unique r p q c :
  NoDup (ids r) -> below p r -> below q r -> c ∈ r_children p -> c ∈ r_children q -> p = q.
Proof.
  intros Hnd Hp. revert q. induction Hp as [r|p d r Hd Hp IH]; intros q Hq Hcp Hcq; [by eapply parent_is_root|].
  inversion Hq as [|? e ? He Hq']; subst.
  - symmetry. eapply parent_is_root; [done|eapply below_step; [exact Hd|exact Hp]|done|done].
  - assert (d = e) as <-.
    { eapply child_unique; [by apply NoDup_children|done|done| |]; by apply below_ids; eapply below_child. }
    apply IH; [by eapply NoDup_child|done|done|done].
Qed.

Fixpoint first_some {A B} (f : A -> option B) (l : list A) : option B :=
  match l with
  | [] => None
  | x :: l' => match f x with Some y => Some y | None => first_some f l' end
  end.

Lemma first_some_Some {A B} (f : A -> option B) l y :
  first_some f l = Some y -> exists x, x ∈ l /\ f x = Some y.
Proof.
  induction l as [|x l IH]; [done|]. cbn. destruct (f x) as [z|] eqn:E.
  - intros [= <-]. exists x. split; [apply list_elem_of_here|done].
  - intros H. destruct (IH H) as (x' & Hx & Hf). exists x'. split; [by apply list_elem_of_further|done].
Qed.

Lemma first_some_is_Some {A B} (f : A -> option B) l x :
  x ∈ l -> is_Some (f x) -> is_Some (first_some f l).
Proof.
  induction l as [|z l IH]; intros Hx [y Hy]; [by apply not_elem_of_nil in Hx|]. cbn.
  destruct (f z) as [w|] eqn:E; [by eexists|]. apply elem_of_cons in Hx as [->|Hx]; [congruence|].
  by apply IH; [|eexists].
Qed.

Lemma find_unfold id t :
  findNodeByName id t =
    if Nat.eqb (r_id (t_data t)) id then Some t else first_some (findNodeByName id) (t_children t).
Proof.
  destruct t as [d r cs]. cbn [findNodeByName t_data t_children]. destruct (Nat.eqb _ _); [done|].
  induction cs as [|c cs IH]; [done|]. cbn [first_some]. destruct (findNodeByName id c) as [t|]; [|exact IH].
  clear. by induction cs.
Qed.

Lemma parent_unfold id t :
  parent_of id t =
    if existsb (fun c => Nat.eqb (r_id (t_data c)) id) (t_children t) then Some t
    else first_some (parent_of id) (t_children t).
Proof.
  destruct t as [d r cs]. cbn [parent_of t_children]. destruct (existsb _ _); [done|].
  induction cs as [|c cs IH]; [done|]. cbn [first_some]. by destruct (parent_of id c).
Qed.

Fixpoint Tile_nested_ind (P : Tile -> Prop)
    (Hnode : forall d r cs, (forall c, c ∈ cs -> P c) -> P (mkTile d r cs)) (t : Tile) : P t.
Proof.
  destruct t as [d r cs]. apply Hnode. induction cs as [|c cs IH]; intros c' Hc'.
  - by apply not_elem_of_nil in Hc'.
  - apply elem_of_cons in Hc' as [->|Hc']; [by apply Tile_nested_ind|by apply IH].
Qed.

Lemma find_sound id t u : findNodeByName id t = Some u -> sub u t /\ r_id (t_data u) = id.
Proof.
  induction t as [d r cs IH] using Tile_nested_ind. rewrite find_unfold. cbn [t_data t_children].
  destruct (Nat.eqb_spec (r_id d) id) as [He|_].
  - intros [= <-]. split; [constructor|done].
  - intros (c & Hc & Hf)%first_some_Some. destruct (IH c Hc Hf) as [Hs He]. split; [|done].
    by eapply sub_step.
Qed.

Lemma find_complete u t : sub u t -> is_Some (findNodeByName (r_id (t_data u)) t).
Proof.
  induction 1 as [t|u c t Hc _ IH]; rewrite find_unfold.
  - rewrite Nat.eqb_refl. by eexists.
  - destruct (Nat.eqb _ _); [by eexists|]. by eapply first_some_is_Some.
Qed.

Lemma parent_sound id t p :
  parent_of id t = Some p -> sub p t /\ exists c, c ∈ t_children p /\ r_id (t_data c) = id.
Proof.
  induction t as [d r cs IH] using Tile_nested_ind. rewrite parent_unfold. cbn [t_children].
  destruct (existsb _ cs) eqn:E.
  - intros [= <-]. split; [constructor|]. apply existsb_exists in E as (c & Hc & He).
    exists c. split; [by apply list_elem_of_In|by apply Nat.eqb_eq].
  - intros (c & Hc & Hf)%first_some_Some. destruct (IH c Hc Hf) as [Hs He]. split; [by eapply sub_step|done].
Qed.

Lemma parent_complete p t c : sub p t -> c ∈ t_children p -> is_Some (parent_of (r_id (t_data c)) t).
Proof.
  induction 1 as [t|p d t Hd _ IH]; intros Hc; rewrite parent_unfold; (destruct (existsb _ _) eqn:E; [by eexists|]).
  - apply not_true_iff_false in E. destruct E. apply existsb_exists. exists c.
    by rewrite <- list_elem_of_In, Nat.eqb_refl.
  - eapply first_some_is_Some; [done|by apply IH].
Qed.

Lemma represents_unfold d cs r :
  represents (mkH d cs) r <-> d = r /\ exists rs, rs ≡ₚ r_children r /\ Forall2 represents cs rs.
Proof.
  cbn [represents]. set (all := fix all (cs : list HNode) (rs : list Resource) : Prop := _).
  assert (Hall : forall cs rs, all cs rs <-> Forall2 represents cs rs).
  { clear. induction cs as [|c cs IH]; intros [|r rs]; cbn.
    - split; [constructor|done].
    - split; [done|]. intros H. by inversion H.
    - split; [done|]. intros H. by inversion H.
    - rewrite IH. split; [intros [H1 H2]; by constructor|]. intros H. by inversion H. }
  by setoid_rewrite Hall.
Qed.

Section Correspondence.
Context `{D3} (width height : Q) (view : TreemapView).

Notation layout := (layout width height view).

Lemma go_elem r cs rs t :
  length rs = length cs -> t ∈ go width height view r cs rs ->
  exists c q, c ∈ cs /\ t = layout c q.
Proof.
  revert rs. induction cs as [|c cs IH]; intros [|q rs] Hl Ht; cbn in Ht; try by apply not_elem_of_nil in Ht.
  apply elem_of_cons in Ht as [->|Ht].
  - eexists c, _. split; [apply list_elem_of_here|done].
  - destruct (IH rs) as (c' & q' & Hc & ->); [by injection Hl|done|].
    exists c', q'. split; [by apply list_elem_of_further|done].
Qed.

Lemma go_elem_2 r cs rs c :
  length rs = length cs -> c ∈ cs -> exists q, layout c q ∈ go width height view r cs rs.
Proof.
  revert rs. induction cs as [|d cs IH]; intros [|q rs] Hl Hc; try done; try by apply not_elem_of_nil in Hc.
  apply elem_of_cons in Hc as [->|Hc].
  - eexists. apply list_elem_of_here.
  - destruct (IH rs) as [q' Hq]; [by injection Hl|done|]. exists q'. by apply list_elem_of_further.
Qed.

Lemma layout_data n q : t_data (layout n q) = h_data n.
Proof. by destruct n. Qed.

(** The tiles of the chart are the resources below the root, with the same
    children. *)
Lemma layout_tiles n r q :
  represents n r ->
  (forall u, sub u (layout n q) -> below (t_data u) r /\
     forall x, x ∈ r_children (t_data u) <-> exists c, c ∈ t_children u /\ t_data c = x) /\
  (forall x, below x r -> exists u, sub u (layout n q) /\ t_data u = x).
Proof.
  revert r q. induction n as [d cs IH] using HNode_nested_ind. intros r q Hr.
  apply represents_unfold in Hr as (-> & rs & Hperm & Hall).
  assert (Hlen : length (tiles view (mkH r cs) width height) = length cs) by apply tiles_length.
  assert (Hch : t_children (layout (mkH r cs) q) = go width height view q cs (tiles view (mkH r cs) width height)) by done.
  set (ts := tiles view _ _ _) in *.
  assert (Hc : forall c, c ∈ t_children (layout (mkH r cs) q) ->
    exists n p q', n ∈ cs /\ c = layout n q' /\ p ∈ r_children r /\ represents n p).
  { intros c Hc. rewrite Hch in Hc. apply go_elem in Hc as (n & q' & Hn & ->); [|done].
    apply list_elem_of_lookup_1 in Hn as [i Hi]. destruct (Forall2_lookup_l _ _ _ _ _ Hall Hi) as (p & Hp & Hnp).
    exists n, p, q'. split; [by eapply list_elem_of_lookup_2|]. split; [done|]. split; [|done].
    rewrite <- Hperm. by eapply list_elem_of_lookup_2. }
  assert (Hc2 : forall p, p ∈ r_children r -> exists n q', n ∈ cs /\ represents n p /\
    layout n q' ∈ t_children (layout (mkH r cs) q)).
  { intros p Hp. rewrite <- Hperm in Hp. apply list_elem_of_lookup_1 in Hp as [i Hi].
    destruct (Forall2_lookup_r _ _ _ _ _ Hall Hi) as (n & Hn & Hnp). apply list_elem_of_lookup_2 in Hn.
    destruct (go_elem_2 q cs ts n Hlen Hn) as [q' Hq]. exists n, q'. by rewrite Hch. }
  rewrite List.Forall_forall in IH. split.
  - intros u Hu. inversion Hu as [|? c ? Hin Hu']; subst.
    + split; [constructor|]. intros x. cbn [t_data]. split.
      * intros Hx. destruct (Hc2 x Hx) as (n & q' & _ & Hn & Hin). eexists. split; [exact Hin|].
        rewrite layout_data. destruct n as [d cs']. by apply represents_unfold in Hn as [-> _].
      * intros (c & Hin & <-). destruct (Hc c Hin) as ([d cs'] & p & q' & _ & -> & Hp & Hn).
        apply represents_unfold in Hn as [-> _]. done.
    + destruct (Hc c Hin) as (n & p & q' & Hn & -> & Hp & Hnp). apply list_elem_of_In in Hn.
      destruct (IH n Hn p q' Hnp) as [IH1 _]. destruct (IH1 u Hu') as [Hb Hx]. split; [|exact Hx].
      by eapply below_step.
  - intros x Hx. inversion Hx as [|? p ? Hp Hx']; subst.
    + eexists. split; [constructor|]. done.
    + destruct (Hc2 p Hp) as (n & q' & Hn & Hnp & Hin). apply list_elem_of_In in Hn.
      destruct (IH n Hn p q' Hnp) as [_ IH2]. destruct (IH2 x Hx') as (u & Hu & He).
      exists u. split; [by eapply sub_step|done].
Qed.

(** Every resource of a tree with distinct numbers is found in its chart. *)
Lemma chart_finds r x :
  NoDup (ids r) -> below x r ->
  exists u, findNodeByName (r_id x) (createTreemapValues width height view r) = Some u /\ t_data u = x.
Proof.
  intros Hnd Hx. destruct (layout_tiles _ r (mkRect 0 0 1 1) (hierarchy_represents leaf_value r)) as [H1 H2].
  destruct (H2 x Hx) as (u & Hu & <-). destruct (find_complete u _ Hu) as [v Hv].
  exists v. split; [exact Hv|]. apply find_sound in Hv as [Hs He]. destruct (H1 v Hs) as [Hb _].
  by eapply below_unique.
Qed.

(** The node above a resource is the one of the resource it is a child of. *)
Lemma chart_parent r p c :
  NoDup (ids r) -> below p r -> c ∈ r_children p ->
  exists u, parent_of (r_id c) (createTreemapValues width height view r) = Some u /\ t_data u = p.
Proof.
  intros Hnd Hp Hc. destruct (layout_tiles _ r (mkRect 0 0 1 1) (hierarchy_represents leaf_value r)) as [H1 H2].
  destruct (H2 p Hp) as (u & Hu & <-). destruct (H1 u Hu) as [_ Hch]. apply Hch in Hc as (t & Ht & <-).
  destruct (parent_complete u _ t Hu Ht) as [v Hv]. exists v. split; [exact Hv|].
  apply parent_sound in Hv as (Hs & d & Hd & He). destruct (H1 v Hs) as [Hb Hch'].
  assert (Hdv : t_data d ∈ r_children (t_data v)) by (apply Hch'; by exists d).
  assert (Htu : t_data t ∈ r_children (t_data u)) by (apply Hch; by exists t).
  assert (t_data d = t_data t) as Hdt.
  { apply (below_unique r); [done|by apply (below_child (t_data v))|by apply (below_child (t_data u))|done]. }
  rewrite Hdt in Hdv. by eapply parent_unique.
Qed.

(** Going back to a crumb drops the crumbs behind it. *)
Lemma return_to_crumb s1 r p c rs :
  resource s1 = Some r -> breadcrumbs s1 = (Some <$> rs ++ [p]) ++ [Some c] ->
  NoDup (r_id <$> rs ++ [p]) -> head (rs ++ [p]) = Some r ->
  (executableName (r_name p) = "root" <-> p = r) ->
  new_breadcrumbs s1 p = Ok (Some <$> rs ++ [p]).
Proof.
  intros Hres Hcr Hnd Hhd Hroot. unfold new_breadcrumbs.
  assert (Hrs : forall x, x ∈ rs -> r_id x <> r_id p).
  { intros x Hx He. rewrite fmap_app in Hnd. apply NoDup_app in Hnd as (_ & Hd & _).
    apply (Hd (r_id x)); [by apply list_elem_of_fmap_2|]. rewrite He. apply list_elem_of_here. }
  destruct (String.eqb_spec (executableName (r_name p)) "root") as [He|_].
  - apply Hroot in He as ->. destruct rs as [|x rs]; [by rewrite Hres|]. injection Hhd as ->.
    by destruct (Hrs r (list_elem_of_here _ _)).
  - rewrite Hcr. change [Some c] with (Some <$> [c]). rewrite <- fmap_app, crumb_index_spec.
    assert (Hi : findIndex (fun b => Nat.eqb (r_id b) (r_id p)) ((rs ++ [p]) ++ [c]) = Some (length rs)).
    { clear -Hrs. induction rs as [|x rs IH]; cbn [app findIndex length]; [by rewrite Nat.eqb_refl|].
      destruct (Nat.eqb_spec (r_id x) (r_id p)) as [He|_]; [by destruct (Hrs x (list_elem_of_here _ _))|].
      rewrite IH; [done|]. intros y Hy. apply Hrs. by apply list_elem_of_further. }
    rewrite Hi. rewrite <- fmap_take, take_app_le by (rewrite length_app; cbn; lia).
    rewrite take_ge by (rewrite length_app; cbn; lia). done.
Qed.

(** The escape key undoes a click: after the chart went from a node into one
    of its children, escape makes the node active again and the breadcrumbs are
    those of before. *)
Theorem escape_undoes_click init s r p c u rs :
  let chart := createTreemapValues width height view r in
  NoDup (ids r) -> resource s = Some r -> activeResource s = Some p -> below p r ->
  breadcrumbs s = Some <$> (rs ++ [p]) -> NoDup (r_id <$> rs ++ [p]) ->
  head (rs ++ [p]) = Some r ->
  (forall x, below x r -> executableName (r_name x) = "root" <-> x = r) ->
  c ∈ r_children p -> r_id c ∉ (r_id <$> rs ++ [p]) ->
  findNodeByName (r_id c) chart = Some u ->
  exists s1 a s2, memoryResourcesReducer init s (zoomIn u) = Ok s1 /\ activeResource s1 = Some c /\
    escape s1 chart = Ok (Some a) /\ memoryResourcesReducer init s1 a = Ok s2 /\
    activeResource s2 = Some p /\ breadcrumbs s2 = breadcrumbs s.
Proof.
  intros chart Hnd Hres Hact Hp Hcr Hcrnd Hhd Hroot Hc Hfresh Hu.
  assert (Hcb : below c r) by (by apply (below_child p)).
  assert (t_data u = c) as Hdata.
  { destruct (chart_finds r c Hnd Hcb) as (v & Hv & Hd). unfold chart in Hu. rewrite Hu in Hv. by injection Hv as <-. }
  assert (Hcp : r_id c <> r_id p).
  { intros He. apply Hfresh. rewrite He. apply list_elem_of_fmap_2, elem_of_app. right. apply list_elem_of_here. }
  assert (Hcr0 : executableName (r_name c) <> "root").
  { intros Hn. apply (Hroot c Hcb) in Hn as ->. apply Hfresh.
    destruct (rs ++ [p]) as [|x l]; [done|]. injection Hhd as ->. apply list_elem_of_here. }
  unfold zoomIn. rewrite Hdata. cbn [memoryResourcesReducer]. unfold is_active at 1. rewrite Hact.
  destruct (Nat.eqb_spec (r_id p) (r_id c)) as [He|_]; [by destruct Hcp|].
  unfold new_breadcrumbs at 1. destruct (String.eqb_spec (executableName (r_name c)) "root"); [done|].
  rewrite Hcr, crumb_index_spec.
  assert (findIndex (fun b => Nat.eqb (r_id b) (r_id c)) (rs ++ [p]) = None) as ->.
  { apply findIndex_None. intros b Hb. apply Nat.eqb_neq. intros He. apply Hfresh. rewrite <- He.
    by apply list_elem_of_fmap_2. }
  eexists _, (SetActiveResource p), _. split; [reflexivity|]. split; [done|]. split.
  { unfold escape. cbn [breadcrumbs]. rewrite length_app, length_fmap, length_app. cbn [length].
    destruct (Nat.ltb_spec 1 (length rs + 1 + 1)); [|lia]. rewrite last_snoc. cbn [mjoin option_join].
    destruct (chart_finds r c Hnd Hcb) as (v & Hv & Hd). fold chart in Hv. rewrite Hv.
    unfold zoomOut. rewrite Hd. destruct (chart_parent r p c Hnd Hp Hc) as (w & Hw & Hwp).
    fold chart in Hw. by rewrite Hw, Hwp. }
  cbn [memoryResourcesReducer is_active activeResource].
  destruct (Nat.eqb_spec (r_id c) (r_id p)) as [He|_]; [by destruct Hcp|].
  rewrite (return_to_crumb _ r p c rs); [|done|done|done|done|by apply Hroot].
  split; [reflexivity|]. by split.
Qed.
End Correspondence.

Lemma escape_undoes_click_witness :
  let s := mkState (Some small_tree) (Some small_tree) [Some small_tree] 512 DICE in
  let chart := @createTreemapValues column_d3 100 50 DICE small_tree in
  exists s1 a s2, memoryResourcesReducer s s (SetActiveResource (mkResource (mkName "b" None) 6 [] 1)) = Ok s1 /\
    escape s1 chart = Ok (Some a) /\ memoryResourcesReducer s s1 a = Ok s2 /\
    activeResource s2 = Some small_tree /\ breadcrumbs s2 = [Some small_tree].
Proof.
  intros s chart. set (b := mkResource (mkName "b" None) 6 [] 1).
  destruct (@escape_undoes_click column_d3 100 50 DICE s s small_tree small_tree b
    (mkTile b (t_rect (default chart (findNodeByName 1 chart))) []) [])
    as (s1 & a & s2 & H1 & _ & H2 & H3 & H4 & H5).
  - by apply (bool_decide_eq_true _).
  - reflexivity.
  - reflexivity.
  - constructor.
  - reflexivity.
  - apply NoDup_singleton.
  - reflexivity.
  - intros x Hx. inversion Hx as [|? c ? Hc Hx']; subst; [done|].
    cbn in Hc. rewrite !elem_of_cons in Hc. destruct Hc as [->|[->|Hc]]; [| |by apply not_elem_of_nil in Hc];
      (inversion Hx' as [|? c ? Hc Hx'']; subst; [by split|by apply not_elem_of_nil in Hc]).
  - apply list_elem_of_here.
  - by apply (bool_decide_eq_true _).
  - reflexivity.
  - exists s1, a, s2. split; [exact H1|]. split; [exact H2|]. split; [exact H3|]. split; [exact H4|exact H5].
Defined.

End Treemap.
