(* ===== verification/SplitsGraph.v ===== *)
(** * The graph of the network splits page

    Models [features/network/splits/dashboard-splits-graph]: the Laplacian
    matrix of the peers and links, the lines and shapes [renderGraph] draws,
    the grid the sets are spread over, the force that keeps the nodes on the
    page, and the colours of the lines as peers are hovered and selected.

    d3 and the eigenvalue routine are third party: nothing here depends on
    what they compute.  Coordinates are rationals, and a d3 selection of lines
    is the list of the indices it holds. *)

From Stdlib Require Import ZArith Lia QArith Lqa Qminmax.
From stdpp Require Import base gmap strings list relations.
From S2P Require Import Prelude SharedLib NetworkSplits.

Module SplitsGraph.
Import Splits.
Local Open Scope Z_scope.

(** ** The Laplacian matrix *)

Notation matrix := (list (list Z)).

(** [m[i][j]] *)
Definition cell (m : matrix) (i j : nat) : Z := default 0 (m !! i ≫= (.!! j)).

(** [m[i][j] = v] *)
Definition set_cell (m : matrix) (i j : nat) (v : Z) : matrix := alter <[j:=v]> i m.

Definition zero_matrix (n : nat) : matrix := replicate n (replicate n 0).

Definition indexOf (a : string) (l : list string) : option nat :=
  findIndex (String.eqb a) l.

Definition addresses (ps : list Peer) (ls : list Link) : list string :=
  unique (flat_map (fun l => [source l; target l]) ls ++ (address <$> ps)) [].

Definition populate (addrs : list string) (m : matrix) (l : Link) : matrix :=
  match indexOf (source l) addrs, indexOf (target l) addrs with
  | Some s, Some t => set_cell (set_cell m s t 1) t s 1
  | _, _ => m
  end.

Definition adjacencyMatrix (ps : list Peer) (ls : list Link) : matrix :=
  let addrs := addresses ps ls in
  fold_left (populate addrs) ls (zero_matrix (length addrs)).

Definition degreeMatrix (adjacency : matrix) : matrix :=
  fold_left (fun m '(i, row) => set_cell m i i (sumZ row))
    (mapi pair adjacency) (zero_matrix (length adjacency)).

(** The entries of [degreeMatrix] are not read: only its shape is. *)
Definition laplacianMatrix (ps : list Peer) (ls : list Link) : matrix :=
  let adjacency := adjacencyMatrix ps ls in
  mapi (fun i row =>
    mapi (fun j _ =>
      if Nat.eqb i j then sumZ (mapi (fun k _ => cell adjacency i k) row)
      else if cell adjacency i j =? 0 then 0 else - cell adjacency i j) row)
    (degreeMatrix adjacency).

(** ** When the graph is drawn *)

(** One emission of the store: the graph is drawn when a load has finished
    since it was last drawn, and found something.  The state is
    [this.fetching]. *)
Definition listen (fetching : bool) (ps : list Peer) (ls : list Link) (still : bool)
    : bool * bool :=
  let fetching' := fetching || still in
  if negb (Nat.eqb (length ps) 0) && negb (Nat.eqb (length ls) 0) && (fetching' && negb still)
  then (still, true) else (fetching', false).

(** ** The lines *)

(** A line's ends are what [nodes.find] returns. *)
Notation line := (option Peer * option Peer)%type.

Definition end_address (p : option Peer) : result string :=
  match p with Some p => Ok (address p) | None => Throw type_error end.

(** [a.address === b.address && c.address === d.address] *)
Definition same_ends (a b c d : option Peer) : result bool :=
  match end_address a, end_address b with
  | Ok x, Ok y =>
    if String.eqb x y then
      match end_address c, end_address d with
      | Ok z, Ok w => Ok (String.eqb z w)
      | _, _ => Throw type_error
      end
    else Ok false
  | _, _ => Throw type_error
  end.

(** [Array.prototype.some] with a test that may throw. *)
Fixpoint some_r {A} (f : A -> result bool) (l : list A) : result bool :=
  match l with
  | [] => Ok false
  | x :: l' =>
    match f x with
    | Throw e => Throw e
    | Ok true => Ok true
    | Ok false => some_r f l'
    end
  end.

Definition add_line (nodes : list Peer) (acc : result (list line)) (l : Link)
    : result (list line) :=
  match acc with
  | Throw e => Throw e
  | Ok ls =>
    let s := List.find (has_address (source l)) nodes in
    let t := List.find (has_address (target l)) nodes in
    match some_r (fun k => same_ends k.1 t k.2 s) ls with
    | Throw e => Throw e
    | Ok mutualConnection =>
      match some_r (fun k => same_ends k.1 s k.2 t) ls with
      | Throw e => Throw e
      | Ok sameConnection =>
        Ok (if negb mutualConnection && negb sameConnection then ls ++ [(s, t)] else ls)
      end
    end
  end.

Definition lines (ps : list Peer) (ls : list Link) : result (list line) :=
  fold_left (add_line ps) ls (Ok []).

(** ** The shapes *)

Inductive Shape := Circle | Triangle | Square | Diamond.

(** [peer.node] is falsy when absent or empty. *)
Definition node_name (p : Peer) : option string :=
  match node p with Some n => if truthy_str n then Some n else None | None => None end.

Definition names (word : string) (p : Peer) : bool :=
  match node_name p with Some n => string_includes word (toLowerCase n) | None => false end.

Definition in_shape (s : Shape) (p : Peer) : bool :=
  match s with
  | Circle => negb (is_some (node_name p)) || existsb (fun w => names w p) ["node"; "generator"]
  | Triangle => names "snark" p
  | Square => names "prod" p
  | Diamond => names "seed" p
  end.

Definition shape_nodes (s : Shape) (ps : list Peer) : list Peer :=
  List.filter (in_shape s) ps.

(** ** The grid and the bounds *)

(** [Math.ceil(Math.sqrt(n))] *)
Definition matrixSize (n : nat) : nat :=
  let s := Nat.sqrt n in if Nat.eqb (s * s) n then s else S s.

(** The first set that holds the peer. *)
Definition set_index (sets : list PeerSet) (p : Peer) : option nat :=
  findIndex (fun s => existsb (has_address (address p)) (set_peers s)) sets.

Definition forceX (width : Z) (sets : list PeerSet) (p : Peer) : Q :=
  let m := matrixSize (length sets) in
  match set_index sets p with
  | Some i => (inject_Z (Z.of_nat (i mod m) * width) / inject_Z (Z.of_nat m))%Q
  | None => inject_Z width
  end.

Definition forceY (height : Z) (sets : list PeerSet) (p : Peer) : Q :=
  let m := matrixSize (length sets) in
  match set_index sets p with
  | Some i => (inject_Z (Z.of_nat (i / m) * height) / inject_Z (Z.of_nat m))%Q
  | None => inject_Z height
  end.

(** One coordinate in the [bounds] force. *)
Definition bounded (size x : Q) : Q :=
  let minAllowed := if Qlt_le_dec x 0 then (- x)%Q else x in
  let maxAllowed := if Qlt_le_dec size x then (size - (x - size))%Q else x in
  Qmin maxAllowed minAllowed.

(** ** The colours *)

Inductive Stroke := Divider | Selected | Success.
Inductive Fill := SpecialNode | SelectedPrimary | SpecialNodeSelected.
Inductive Border := SuccessBorder | SelectedBorder | WarnBorder.

(** The last drawing: its lines by the addresses of their ends, with their
    colours; its shapes by the addresses of their peers, with theirs; the
    links the component keeps; and the selected peer's address. *)
Record Highlight := mkHighlight {
  connections : list (string * string);
  strokes : list Stroke;
  elements : list string;
  fills : list Fill;
  borders : list Border;
  graph_links : list Link;
  active : option string;
  clickedConnectedLinks : option (list nat);
  hoveredConnectedLinks : option (list nat)
}.

(** Copies of the state with the named fields replaced. *)
Definition with_lines (st : list Stroke) (h : Highlight) : Highlight :=
  mkHighlight (connections h) st (elements h) (fills h) (borders h) (graph_links h)
    (active h) (clickedConnectedLinks h) (hoveredConnectedLinks h).
Definition with_shapes (fs : list Fill) (bs : list Border) (h : Highlight) : Highlight :=
  mkHighlight (connections h) (strokes h) (elements h) fs bs (graph_links h)
    (active h) (clickedConnectedLinks h) (hoveredConnectedLinks h).
Definition with_active (a : option string) (h : Highlight) : Highlight :=
  mkHighlight (connections h) (strokes h) (elements h) (fills h) (borders h) (graph_links h)
    a (clickedConnectedLinks h) (hoveredConnectedLinks h).
Definition with_clicked (sel : list nat) (h : Highlight) : Highlight :=
  mkHighlight (connections h) (strokes h) (elements h) (fills h) (borders h) (graph_links h)
    (active h) (Some sel) (hoveredConnectedLinks h).
Definition with_hovered (sel : list nat) (h : Highlight) : Highlight :=
  mkHighlight (connections h) (strokes h) (elements h) (fills h) (borders h) (graph_links h)
    (active h) (clickedConnectedLinks h) (Some sel).

Definition touches (a : string) (l : string * string) : bool :=
  String.eqb (fst l) a || String.eqb (snd l) a.

(** [selection.filter(f)] *)
Definition select {A} (f : A -> bool) (l : list A) : list nat :=
  omap (fun '(i, x) => if f x then Some i else None) (mapi pair l).

(** [selection.attr(name, c)] *)
Fixpoint paint {C} (c : C) (sel : list nat) (st : list C) : list C :=
  match sel with [] => st | i :: sel' => <[i:=c]> (paint c sel' st) end.

Definition undefined_attr : string := "Cannot read properties of undefined (reading 'attr')".

Definition paint_opt {C} (c : C) (sel : option (list nat)) (st : list C) : result (list C) :=
  match sel with Some l => Ok (paint c l st) | None => Throw undefined_attr end.

(** [renderGraph] as far as the colours go: the lines, then the shapes. *)
Definition line_ends (k : line) : result (string * string) :=
  match end_address (fst k), end_address (snd k) with
  | Ok s, Ok t => Ok (s, t)
  | _, _ => Throw type_error
  end.

Fixpoint all_ends (ks : list line) : result (list (string * string)) :=
  match ks with
  | [] => Ok []
  | k :: ks' =>
    match line_ends k with
    | Throw e => Throw e
    | Ok x => match all_ends ks' with Throw e => Throw e | Ok xs => Ok (x :: xs) end
    end
  end.

Definition first_border (ls : list (string * string)) (a : string) : Border :=
  if existsb (touches a) ls then SuccessBorder else WarnBorder.

Definition renderGraph (ps : list Peer) (ls : list Link) : result Highlight :=
  match lines ps ls with
  | Throw e => Throw e
  | Ok ks =>
    match all_ends ks with
    | Throw e => Throw e
    | Ok cs =>
      let shapes := address <$>
        (shape_nodes Circle ps ++ shape_nodes Triangle ps ++
         shape_nodes Square ps ++ shape_nodes Diamond ps) in
      Ok (mkHighlight cs (replicate (length cs) Divider)
            shapes (replicate (length shapes) SpecialNode) (first_border cs <$> shapes)
            ls None None None)
    end
  end.

(** [this.links.some(link => link.source === a || link.target === a)] *)
Definition in_links (a : string) (h : Highlight) : bool :=
  existsb (fun l => String.eqb (source l) a || String.eqb (target l) a) (graph_links h).

(** [addNewColors] and [addInitialColors], over the four kinds of shapes. *)
Definition addColors (a : string) (f : Fill) (b : Border) (h : Highlight) : Highlight :=
  let sel := select (fun e => String.eqb e a) (elements h) in
  with_shapes (paint f sel (fills h))
    (paint (if in_links a h then b else WarnBorder) sel (borders h)) h.

Definition removeHighlight (h : Highlight) : result Highlight :=
  match active h with
  | None => Ok h
  | Some a =>
    let h := addColors a SpecialNode SuccessBorder h in
    match paint_opt Divider (clickedConnectedLinks h) (strokes h) with
    | Throw e => Throw e
    | Ok st => Ok (with_lines st h)
    end
  end.

Definition highlightPeer (a : string) (h : Highlight) : result Highlight :=
  match removeHighlight h with
  | Throw e => Throw e
  | Ok h =>
    let h := addColors a SelectedPrimary SelectedBorder h in
    let clicked := select (touches a) (connections h) in
    Ok (with_lines (paint Selected clicked (strokes h)) (with_clicked clicked h))
  end.

Definition activate (p : option string) (h : Highlight) : result Highlight :=
  match (match p with Some a => highlightPeer a h | None => removeHighlight h end) with
  | Throw e => Throw e
  | Ok h => Ok (with_active p h)
  end.

Definition is_active (a : string) (h : Highlight) : bool :=
  bool_decide (active h = Some a).

(** The mouse enters or leaves the shape at index [e], which is that of the
    peer with address [a]. *)
Definition mouseOver (e : nat) (a : string) (h : Highlight) : result Highlight :=
  if is_active a h then Ok h
  else
    let direct l := touches a l &&
      match active h with Some b => negb (touches b l) | None => true end in
    let hovered := select direct (connections h) in
    Ok (with_lines (paint Success hovered (strokes h))
         (with_hovered hovered
           (with_shapes (paint SpecialNodeSelected [e] (fills h)) (borders h) h))).

Definition mouseOut (e : nat) (a : string) (h : Highlight) : result Highlight :=
  if is_active a h then Ok h
  else
    let h := with_shapes (paint SpecialNode [e] (fills h)) (borders h) h in
    match paint_opt Divider (hoveredConnectedLinks h) (strokes h) with
    | Throw err => Throw err
    | Ok st => Ok (with_lines st h)
    end.

(** A click selects the peer, or unselects it; the store answers with the
    new active peer. *)
Definition click (a : string) (h : Highlight) : result Highlight :=
  activate (if is_active a h then None else Some a) h.

(** What a user does: a selection in the table beside the graph, or a visit
    of the mouse to a shape with some clicks on it. *)
Inductive Gesture := Choose (p : option string) | Visit (e : nat) (clicks : nat).

Fixpoint click_times (n : nat) (a : string) (h : Highlight) : result Highlight :=
  match n with
  | O => Ok h
  | S n' => match click a h with Throw e => Throw e | Ok h => click_times n' a h end
  end.

Definition gesture (g : Gesture) (h : Highlight) : result Highlight :=
  match g with
  | Choose p => activate p h
  | Visit e n =>
    match elements h !! e with
    | None => Ok h
    | Some a =>
      match mouseOver e a h with
      | Throw err => Throw err
      | Ok h1 =>
        match click_times n a h1 with Throw err => Throw err | Ok h2 => mouseOut e a h2 end
      end
    end
  end.

Fixpoint gestures (gs : list Gesture) (h : Highlight) : result Highlight :=
  match gs with
  | [] => Ok h
  | g :: gs' => match gesture g h with Throw e => Throw e | Ok h => gestures gs' h end
  end.

(** ** Finite sums *)

Fixpoint sum (n : nat) (f : nat -> Z) : Z :=
  match n with O => 0 | S n' => sum n' f + f n' end.

Lemma sum_ext n f g : (forall i, (i < n)%nat -> f i = g i) -> sum n f = sum n g.
Proof.
  induction n as [|n IH]; intros H; [done|]. cbn [sum].
  rewrite IH, H by auto with lia. done.
Qed.

Lemma sum_add n f g : sum n (fun i => f i + g i) = sum n f + sum n g.
Proof. induction n as [|n IH]; cbn [sum]; lia. Qed.

Lemma sum_scale n c f : sum n (fun i => c * f i) = c * sum n f.
Proof. induction n as [|n IH]; cbn [sum]; lia. Qed.

Lemma sum_zero n : sum n (fun _ => 0) = 0.
Proof. induction n as [|n IH]; cbn [sum]; lia. Qed.

Lemma sum_swap n m f : sum n (fun i => sum m (f i)) = sum m (fun j => sum n (fun i => f i j)).
Proof.
  induction n as [|n IH]; cbn [sum]; [by rewrite sum_zero|]. by rewrite IH, sum_add.
Qed.

Lemma sum_delta n k c : (k < n)%nat -> sum n (fun i => if Nat.eqb k i then c i else 0) = c k.
Proof.
  induction n as [|n IH]; intros Hk; [lia|]. cbn [sum].
  destruct (decide (k = n)) as [->|Hne].
  - rewrite Nat.eqb_refl, (sum_ext _ _ (fun _ => 0)), sum_zero; [lia|].
    intros i Hi. destruct (Nat.eqb_spec n i); [lia|done].
  - rewrite IH by lia. destruct (Nat.eqb_spec k n); [done|lia].
Qed.

Lemma sum_nonneg n f : (forall i, (i < n)%nat -> 0 <= f i) -> 0 <= sum n f.
Proof.
  induction n as [|n IH]; intros H; cbn [sum]; [lia|].
  pose proof (H n ltac:(lia)). enough (0 <= sum n f) by lia. auto with lia.
Qed.

Lemma sum_nonneg_zero n f :
  (forall i, (i < n)%nat -> 0 <= f i) -> sum n f = 0 -> forall i, (i < n)%nat -> f i = 0.
Proof.
  induction n as [|n IH]; intros H Hz i Hi; [lia|]. cbn [sum] in Hz.
  assert (0 <= sum n f) by (apply sum_nonneg; auto with lia).
  pose proof (H n ltac:(lia)).
  destruct (decide (i = n)) as [->|]; [lia|]. apply IH; auto with lia.
Qed.

Lemma sumZ_sum (l : list Z) : sumZ l = sum (length l) (fun j => default 0 (l !! j)).
Proof.
  induction l as [|x l IH] using rev_ind; [done|].
  rewrite sumZ_app, length_app, Nat.add_1_r. cbn [sum].
  rewrite list_lookup_middle by done. rewrite IH. unfold sumZ at 1. cbn [fold_left default].
  rewrite (sum_ext _ (fun j => default 0 ((l ++ [x]) !! j)) (fun j => default 0 (l !! j))); [done|].
  intros i Hi. by rewrite lookup_app_l.
Qed.

(** ** Square matrices *)

Definition square (n : nat) (m : matrix) : Prop :=
  length m = n /\ Forall (fun row => length row = n) m.

Lemma square_zero n : square n (zero_matrix n).
Proof.
  split; [apply length_replicate|]. apply Forall_replicate, length_replicate.
Qed.

Lemma cell_zero n i j : cell (zero_matrix n) i j = 0.
Proof.
  unfold cell, zero_matrix. destruct (replicate n (replicate n 0) !! i) as [row|] eqn:E; [|done].
  apply lookup_replicate in E as [-> _]. simpl.
  destruct (replicate n 0 !! j) as [v|] eqn:E; [|done]. by apply lookup_replicate in E as [-> _].
Qed.

Lemma square_row n m i : square n m -> (i < n)%nat ->
  exists row, m !! i = Some row /\ length row = n.
Proof.
  intros [Hl Hr] Hi. destruct (lookup_lt_is_Some_2 m i) as [row Hrow]; [lia|].
  exists row. split; [done|]. by eapply (Forall_lookup_1 _ _ _ _ Hr).
Qed.

Lemma square_set n m i j v : square n m -> square n (set_cell m i j v).
Proof.
  intros [Hl Hr]. split; [by unfold set_cell; rewrite length_alter|].
  apply Forall_alter; [done|]. intros row Hi Hlen. by rewrite length_insert.
Qed.

Lemma cell_set n m i j v i' j' : square n m -> (i < n)%nat -> (j < n)%nat ->
  cell (set_cell m i j v) i' j' = if Nat.eqb i i' && Nat.eqb j j' then v else cell m i' j'.
Proof.
  intros Hm Hi Hj. unfold cell, set_cell.
  destruct (Nat.eqb_spec i i') as [<-|Hne]; cbn [andb].
  - rewrite list_lookup_alter_eq. destruct (square_row _ _ _ Hm Hi) as (row & -> & Hrow). simpl.
    destruct (Nat.eqb_spec j j') as [<-|Hne].
    + by rewrite list_lookup_insert_eq by lia.
    + by rewrite list_lookup_insert_ne.
  - by rewrite list_lookup_alter_ne.
Qed.

(** ** The adjacency matrix *)

Definition joinsb (a b : string) (l : Link) : bool :=
  (String.eqb (source l) a && String.eqb (target l) b) ||
  (String.eqb (source l) b && String.eqb (target l) a).

Lemma joinsb_sym a b l : joinsb a b l = joinsb b a l.
Proof. unfold joinsb. by rewrite orb_comm. Qed.

Lemma joinsb_true a b l : joinsb a b l = true <->
  (source l = a /\ target l = b) \/ (source l = b /\ target l = a).
Proof. unfold joinsb. by rewrite orb_true_iff, !andb_true_iff, !String.eqb_eq. Qed.

Lemma existsb_joinsb a b ls : existsb (joinsb a b) ls = true <->
  exists l, l ∈ ls /\ ((source l = a /\ target l = b) \/ (source l = b /\ target l = a)).
Proof.
  rewrite existsb_exists. setoid_rewrite joinsb_true. by setoid_rewrite list_elem_of_In.
Qed.

Lemma existsb_joinsb_sym a b ls : existsb (joinsb a b) ls = existsb (joinsb b a) ls.
Proof. induction ls as [|l ls IH]; [done|]. cbn [existsb]. by rewrite joinsb_sym, IH. Qed.

Lemma indexOf_lookup addrs a i :
  NoDup addrs -> indexOf a addrs = Some i <-> addrs !! i = Some a.
Proof.
  intros Hnd. unfold indexOf. split.
  - intros (x & Hx & ->%String.eqb_eq & _)%findIndex_Some. done.
  - intros Hi. destruct (findIndex_complete (String.eqb a) addrs i a Hi) as (k & Hk & _);
      [apply String.eqb_refl|].
    destruct (findIndex_Some _ _ _ Hk) as (x & Hx & ->%String.eqb_eq & _).
    rewrite Hk. f_equal. by eapply NoDup_lookup.
Qed.

Lemma indexOf_eqb addrs a b i j : NoDup addrs ->
  indexOf a addrs = Some i -> addrs !! j = Some b -> Nat.eqb i j = String.eqb a b.
Proof.
  intros Hnd Hi%indexOf_lookup Hj; [|done].
  destruct (Nat.eqb_spec i j) as [->|Hne]; symmetry.
  - apply String.eqb_eq. congruence.
  - apply String.eqb_neq. intros ->. apply Hne. by eapply NoDup_lookup.
Qed.

Lemma indexOf_None addrs a j b :
  indexOf a addrs = None -> addrs !! j = Some b -> String.eqb a b = false.
Proof.
  unfold indexOf. rewrite findIndex_None. intros H Hj. apply H. by eapply list_elem_of_lookup_2.
Qed.

Lemma populate_cells addrs ls : NoDup addrs ->
  let m := fold_left (populate addrs) ls (zero_matrix (length addrs)) in
  square (length addrs) m /\
  forall i j a b, addrs !! i = Some a -> addrs !! j = Some b ->
    cell m i j = if existsb (joinsb a b) ls then 1 else 0.
Proof.
  intros Hnd. induction ls as [|l ls [Hsq Hcell]] using rev_ind; cbn zeta.
  { split; [apply square_zero|]. intros. apply cell_zero. }
  rewrite fold_left_app. cbn [fold_left]. unfold populate at 1 3.
  destruct (indexOf (source l) addrs) as [s|] eqn:Hs, (indexOf (target l) addrs) as [t|] eqn:Ht.
  { pose proof (findIndex_lt _ _ _ Hs). pose proof (findIndex_lt _ _ _ Ht).
    split; [by repeat apply square_set|]. intros i j a b Hi Hj.
    rewrite !(cell_set (length addrs)), (Hcell i j a b Hi Hj), existsb_app
      by (try apply square_set; done).
    cbn [existsb]. unfold joinsb at 3.
    rewrite !(indexOf_eqb _ _ _ _ _ Hnd Hs Hi), !(indexOf_eqb _ _ _ _ _ Hnd Hs Hj),
      !(indexOf_eqb _ _ _ _ _ Hnd Ht Hi), !(indexOf_eqb _ _ _ _ _ Hnd Ht Hj).
    by destruct (existsb _ ls), (String.eqb (source l) a), (String.eqb (target l) a),
      (String.eqb (source l) b), (String.eqb (target l) b). }
  all: split; [done|]; intros i j a b Hi Hj;
    rewrite (Hcell i j a b Hi Hj), existsb_app; cbn [existsb]; unfold joinsb at 3.
  all: try rewrite (indexOf_None _ _ _ _ Hs Hi), (indexOf_None _ _ _ _ Hs Hj).
  all: try rewrite (indexOf_None _ _ _ _ Ht Hi), (indexOf_None _ _ _ _ Ht Hj).
  all: by rewrite ?andb_false_r, !orb_false_r.
Qed.

(** ** The Laplacian as an operator *)

Definition mat_vec (m : matrix) (v : list Z) : list Z :=
  (fun row => sumZ (zip_with Z.mul row v)) <$> m.

Lemma mat_vec_lookup n m v i : square n m -> length v = n -> (i < n)%nat ->
  mat_vec m v !! i = Some (sum n (fun j => cell m i j * default 0 (v !! j))).
Proof.
  intros Hm Hv Hi. destruct (square_row _ _ _ Hm Hi) as (row & Hrow & Hlen).
  unfold mat_vec, cell. rewrite list_lookup_fmap, Hrow. simpl. f_equal.
  rewrite sumZ_sum, length_zip_with, Hlen, Hv, Nat.min_id. apply sum_ext. intros j Hj.
  rewrite lookup_zip_with.
  destruct (lookup_lt_is_Some_2 row j) as [x ->]; [lia|].
  by destruct (lookup_lt_is_Some_2 v j) as [y ->]; [lia|].
Qed.

Lemma degree_square n adjacency : length adjacency = n -> square n (degreeMatrix adjacency).
Proof.
  intros Hn. unfold degreeMatrix. rewrite Hn.
  generalize (square_zero n). generalize (zero_matrix n). generalize (mapi pair adjacency).
  intros l. induction l as [|[i row] l IH]; intros m Hm; [done|]. cbn [fold_left].
  by apply IH, square_set.
Qed.

Section Laplacian.
Context (ps : list Peer) (ls : list Link).

Let addrs := addresses ps ls.
Let n := length addrs.
Let A := cell (adjacencyMatrix ps ls).

Lemma addresses_NoDup : NoDup addrs.
Proof. apply NoDup_unique. Qed.

Lemma elem_of_addresses a :
  a ∈ addrs <-> (exists l, l ∈ ls /\ (a = source l \/ a = target l)) \/ known ps a.
Proof.
  unfold addrs, addresses, known. rewrite elem_of_unique, elem_of_app, list_elem_of_fmap.
  rewrite !list_elem_of_In, in_flat_map. setoid_rewrite list_elem_of_In. simpl.
  split.
  - intros [[(l & Hl & H)|(p & -> & Hp)] _]; [left|right; eauto].
    exists l. split; [done|]. naive_solver.
  - intros H. split; [|tauto]. destruct H as [(l & Hl & H)|(p & Hp & <-)]; [left|right; eauto].
    exists l. split; [done|]. naive_solver.
Qed.

Lemma adjacency_cells i j a b : addrs !! i = Some a -> addrs !! j = Some b ->
  A i j = if existsb (joinsb a b) ls then 1 else 0.
Proof. apply (proj2 (populate_cells addrs ls addresses_NoDup)). Qed.

Lemma adjacency_square : square n (adjacencyMatrix ps ls).
Proof. apply (proj1 (populate_cells addrs ls addresses_NoDup)). Qed.

Lemma vertex i : (i < n)%nat -> exists a, addrs !! i = Some a.
Proof. intros Hi. by destruct (lookup_lt_is_Some_2 addrs i Hi) as [a Ha]; eauto. Qed.

Lemma adjacency_sym i j : (i < n)%nat -> (j < n)%nat -> A i j = A j i.
Proof.
  intros [a Ha]%vertex [b Hb]%vertex.
  rewrite (adjacency_cells i j a b), (adjacency_cells j i b a) by done.
  by rewrite existsb_joinsb_sym.
Qed.

Lemma adjacency_nonneg i j : (i < n)%nat -> (j < n)%nat -> 0 <= A i j.
Proof.
  intros [a Ha]%vertex [b Hb]%vertex. rewrite (adjacency_cells i j a b) by done.
  by case_match.
Qed.

Lemma laplacian_square : square n (laplacianMatrix ps ls).
Proof.
  destruct (degree_square n (adjacencyMatrix ps ls)) as [Hl Hr]; [apply adjacency_square|].
  unfold laplacianMatrix, mapi. split; [by rewrite length_imap|].
  apply Forall_lookup. intros i row Hi. rewrite list_lookup_imap in Hi.
  destruct (degreeMatrix _ !! i) as [r|] eqn:E; [|done]. simpl in Hi. injection Hi as <-.
  rewrite length_imap. by eapply (Forall_lookup_1 _ _ _ _ Hr).
Qed.

Lemma laplacian_cells i j : (i < n)%nat -> (j < n)%nat ->
  cell (laplacianMatrix ps ls) i j = if Nat.eqb i j then sum n (A i) else - A i j.
Proof.
  intros Hi Hj. unfold laplacianMatrix, mapi.
  destruct (square_row n (degreeMatrix (adjacencyMatrix ps ls)) i) as (row & Hrow & Hlen);
    [by apply degree_square, adjacency_square|done|].
  unfold cell at 1. rewrite list_lookup_imap, Hrow. simpl. rewrite list_lookup_imap.
  destruct (lookup_lt_is_Some_2 row j) as [x ->]; [lia|]. simpl.
  destruct (Nat.eqb_spec i j) as [<-|_].
  - rewrite sumZ_sum, length_imap, Hlen. apply sum_ext. intros k Hk.
    rewrite list_lookup_imap. by destruct (lookup_lt_is_Some_2 row k) as [y ->]; [lia|].
  - fold A. unfold A. destruct (Z.eqb_spec (cell (adjacencyMatrix ps ls) i j) 0); lia.
Qed.

(** Row [i] of the Laplacian applied to [x]; the last term is a self link. *)
Lemma laplacian_row x i : (i < n)%nat ->
  sum n (fun j => cell (laplacianMatrix ps ls) i j * x j) =
  sum n (fun j => A i j * (x i - x j)) + A i i * x i.
Proof.
  intros Hi.
  rewrite (sum_ext _ _ (fun j => (if Nat.eqb i j then (sum n (A i) + A i j) * x j else 0)
                                 + -1 * (A i j * x j))).
  2: { intros j Hj. rewrite laplacian_cells by done. destruct (Nat.eqb i j); lia. }
  rewrite sum_add, sum_scale.
  rewrite (sum_delta n i (fun j => (sum n (A i) + A i j) * x j)) by done.
  rewrite (sum_ext n (fun j => A i j * (x i - x j)) (fun j => x i * A i j + -1 * (A i j * x j)))
    by (intros; lia).
  rewrite sum_add, !sum_scale. lia.
Qed.

(** Twice the quadratic form of the Laplacian is a sum of squares. *)
Lemma laplacian_quadratic x :
  2 * sum n (fun i => x i * sum n (fun j => cell (laplacianMatrix ps ls) i j * x j)) =
  sum n (fun i => sum n (fun j => A i j * (x i - x j) ^ 2)) + 2 * sum n (fun i => A i i * x i ^ 2).
Proof.
  set (S := sum n (fun i => sum n (fun j => A i j * (x i * (x i - x j))))).
  assert (Hl : sum n (fun i => x i * sum n (fun j => cell (laplacianMatrix ps ls) i j * x j)) =
               S + sum n (fun i => A i i * x i ^ 2)).
  { unfold S. rewrite <- sum_add. apply sum_ext. intros i Hi. rewrite laplacian_row by done.
    rewrite Z.mul_add_distr_l, <- sum_scale. f_equal; [apply sum_ext; intros; lia|lia]. }
  assert (Hs : S = sum n (fun i => sum n (fun j => A i j * (x j * (x j - x i))))).
  { unfold S. rewrite sum_swap. apply sum_ext. intros i Hi. apply sum_ext. intros j Hj.
    by rewrite adjacency_sym. }
  rewrite Hl. enough (2 * S = sum n (fun i => sum n (fun j => A i j * (x i - x j) ^ 2))) by lia.
  transitivity (S + S); [lia|]. rewrite Hs at 2. unfold S. rewrite <- sum_add.
  apply sum_ext. intros i Hi. rewrite <- sum_add. apply sum_ext. intros; nia.
Qed.

Lemma laplacian_zero_squares x :
  (forall i, (i < n)%nat -> sum n (fun j => cell (laplacianMatrix ps ls) i j * x j) = 0) ->
  forall i j, (i < n)%nat -> (j < n)%nat -> A i j * (x i - x j) ^ 2 = 0 /\ A i i * x i ^ 2 = 0.
Proof.
  intros Hz i j Hi Hj. pose proof (laplacian_quadratic x) as Hq.
  rewrite (sum_ext n (fun i => x i * _) (fun _ => 0)), sum_zero in Hq
    by (intros k Hk; by rewrite Hz, Z.mul_0_r).
  assert (Hsq : forall i j, (i < n)%nat -> (j < n)%nat -> 0 <= A i j * (x i - x j) ^ 2).
  { intros. apply Z.mul_nonneg_nonneg; [by apply adjacency_nonneg|nia]. }
  assert (Hd : forall i, (i < n)%nat -> 0 <= A i i * x i ^ 2).
  { intros. apply Z.mul_nonneg_nonneg; [by apply adjacency_nonneg|nia]. }
  assert (Hr : forall i, (i < n)%nat -> 0 <= sum n (fun j => A i j * (x i - x j) ^ 2)).
  { intros. apply sum_nonneg. auto. }
  pose proof (sum_nonneg _ _ Hr). pose proof (sum_nonneg _ _ Hd). split.
  - apply (sum_nonneg_zero n (fun j => A i j * (x i - x j) ^ 2)); auto.
    apply (sum_nonneg_zero n (fun i => sum n (fun j => A i j * (x i - x j) ^ 2))); auto. lia.
  - apply (sum_nonneg_zero n (fun i => A i i * x i ^ 2)); auto. lia.
Qed.

Lemma laplacian_rows_zero x :
  Forall (.= 0) (mat_vec (laplacianMatrix ps ls) (x <$> addrs)) <->
  forall i, (i < n)%nat ->
    sum n (fun j => cell (laplacianMatrix ps ls) i j * default 0 ((x <$> addrs) !! j)) = 0.
Proof.
  assert (Hlen : length (x <$> addrs) = n) by apply length_fmap.
  assert (Hrows : length (mat_vec (laplacianMatrix ps ls) (x <$> addrs)) = n)
    by (unfold mat_vec; rewrite length_fmap; apply laplacian_square).
  rewrite Forall_lookup. split.
  - intros H i Hi. eapply H. by apply mat_vec_lookup; [apply laplacian_square|..].
  - intros H i v Hv. assert (Hi : (i < n)%nat)
      by (rewrite <- Hrows; by eapply lookup_lt_Some).
    rewrite (mat_vec_lookup n) in Hv by (try apply laplacian_square; done).
    injection Hv as <-. auto.
Qed.

Lemma vertex_of a : a ∈ addrs -> exists i, (i < n)%nat /\ addrs !! i = Some a.
Proof.
  intros [i Hi]%list_elem_of_lookup. exists i. split; [by eapply lookup_lt_Some|done].
Qed.

Section Kernel.
Variable x : string -> Z.
Let v := fun j => default 0 ((x <$> addrs) !! j).

#[local] Lemma v_vertex i a : addrs !! i = Some a -> v i = x a.
Proof. intros Ha. unfold v. by rewrite list_lookup_fmap, Ha. Qed.

#[local] Lemma kernel_joined a b :
  (forall i, (i < n)%nat -> sum n (fun j => cell (laplacianMatrix ps ls) i j * v j) = 0) ->
  a ∈ addrs -> b ∈ addrs -> existsb (joinsb a b) ls = true -> x a = x b /\ (a = b -> x a = 0).
Proof.
  intros Hz (i & Hi & Ha)%vertex_of (j & Hj & Hb)%vertex_of E.
  destruct (laplacian_zero_squares v Hz i j Hi Hj) as [Hij Hii].
  rewrite (adjacency_cells _ _ _ _ Ha Hb), E, (v_vertex i _ Ha), (v_vertex j _ Hb) in Hij.
  rewrite (adjacency_cells _ _ _ _ Ha Ha), (v_vertex i _ Ha) in Hii.
  split; [nia|]. intros <-. rewrite E in Hii. nia.
Qed.

#[local] Lemma joined_kernel i :
  (forall a b, existsb (joinsb a b) ls = true -> x a = x b /\ (a = b -> x a = 0)) ->
  (i < n)%nat -> sum n (fun j => cell (laplacianMatrix ps ls) i j * v j) = 0.
Proof.
  intros Hzero Hi. rewrite laplacian_row by done. destruct (vertex i Hi) as [a Ha].
  rewrite (sum_ext n (fun j => A i j * (v i - v j)) (fun _ => 0)), sum_zero.
  - rewrite (adjacency_cells _ _ _ _ Ha Ha), (v_vertex i a Ha).
    destruct (existsb _ ls) eqn:E; [|lia]. by rewrite (proj2 (Hzero a a E)).
  - intros j [b Hb]%vertex.
    rewrite (adjacency_cells _ _ _ _ Ha Hb), (v_vertex i a Ha), (v_vertex j b Hb).
    destruct (existsb _ ls) eqn:E; [|lia]. destruct (Hzero a b E) as [-> _]. lia.
Qed.

(** A vector is sent to zero when it takes one value along each link, and
    zero where a peer is linked to itself. *)
Lemma laplacian_kernel_links :
  Forall (.= 0) (mat_vec (laplacianMatrix ps ls) (x <$> addrs)) <->
  forall l, l ∈ ls -> x (source l) = x (target l) /\ (source l = target l -> x (source l) = 0).
Proof.
  rewrite laplacian_rows_zero. split.
  - intros Hz l Hl. apply kernel_joined; [done|apply elem_of_addresses; eauto..|].
    apply existsb_joinsb. eauto.
  - intros H i. apply joined_kernel.
    intros a b (l & Hl & [[<- <-]|[<- <-]])%existsb_joinsb; destruct (H l Hl) as [He Hs];
      [done|]. split; [done|]. intros E. rewrite E. by apply Hs.
Qed.
End Kernel.
End Laplacian.

(** A peer linked to itself is counted in its own degree, and nothing on the
    diagonal takes it back: the rows of the Laplacian no longer sum to zero. *)
Lemma laplacian_row_sum ps ls i : (i < length (addresses ps ls))%nat ->
  sum (length (addresses ps ls)) (cell (laplacianMatrix ps ls) i) =
  cell (adjacencyMatrix ps ls) i i.
Proof.
  intros Hi. pose proof (laplacian_row ps ls (fun _ => 1) i Hi) as H.
  rewrite (sum_ext _ (fun j => _ * (1 - 1)) (fun _ => 0)), sum_zero in H by (intros; lia).
  rewrite (sum_ext _ _ (fun j => cell (laplacianMatrix ps ls) i j * 1)) by (intros; lia).
  rewrite H. lia.
Qed.

(** ** The lines joining known peers *)

Definition between (a b : string) (k : Peer * Peer) : bool :=
  (String.eqb (address (fst k)) b && String.eqb (address (snd k)) a) ||
  (String.eqb (address (fst k)) a && String.eqb (address (snd k)) b).

Definition some_ends (k : Peer * Peer) : line := (Some (fst k), Some (snd k)).

Lemma between_true a b k : between a b k = true <->
  (address (fst k) = b /\ address (snd k) = a) \/ (address (fst k) = a /\ address (snd k) = b).
Proof. unfold between. by rewrite orb_true_iff, !andb_true_iff, !String.eqb_eq. Qed.

Lemma some_r_ends (s t : Peer) L :
  some_r (fun k => same_ends k.1 (Some s) k.2 (Some t)) (some_ends <$> L) =
  Ok (existsb (fun k => String.eqb (address (fst k)) (address s) &&
                        String.eqb (address (snd k)) (address t)) L).
Proof.
  induction L as [|[p q] L IH]; [done|]. cbn [fmap list_fmap some_r existsb fst snd some_ends].
  unfold same_ends at 1, end_address.
  destruct (String.eqb (address p) (address s)), (String.eqb (address q) (address t)); done.
Qed.

Lemma existsb_between (s t : Peer) L :
  existsb (fun k => String.eqb (address (fst k)) (address t) &&
                    String.eqb (address (snd k)) (address s)) L ||
  existsb (fun k => String.eqb (address (fst k)) (address s) &&
                    String.eqb (address (snd k)) (address t)) L =
  existsb (between (address s) (address t)) L.
Proof.
  induction L as [|k L IH]; [done|]. cbn [existsb]. rewrite <- IH. unfold between.
  by destruct (String.eqb _ (address t) && _), (String.eqb _ (address s) && _),
    (existsb _ L), (existsb _ L).
Qed.

Lemma add_line_known ps L l s t :
  List.find (has_address (source l)) ps = Some s ->
  List.find (has_address (target l)) ps = Some t ->
  add_line ps (Ok (some_ends <$> L)) l =
  Ok (some_ends <$> (if existsb (between (address s) (address t)) L then L else L ++ [(s, t)])).
Proof.
  intros Hs Ht. unfold add_line. rewrite Hs, Ht, !some_r_ends, <- negb_orb, existsb_between.
  destruct (existsb _ L); [done|]. by rewrite fmap_app.
Qed.

Lemma find_known ps a : known ps a ->
  exists p, List.find (has_address a) ps = Some p /\ p ∈ ps /\ address p = a.
Proof.
  intros (q & Hq & <-).
  destruct (find_is_Some (has_address (address q)) ps q Hq) as [p Hp]; [apply String.eqb_refl|].
  exists p. split; [done|]. apply find_Some_elem in Hp as [? ?%String.eqb_eq]. auto.
Qed.

(** The lines found for a list of links: each stands for a link, each link
    has one, and no two join the same peers. *)
Record drawing (ps : list Peer) (ls : list Link) (L : list (Peer * Peer)) : Prop := {
  dr_link : forall k, k ∈ L -> fst k ∈ ps /\ snd k ∈ ps /\
    exists l, l ∈ ls /\ source l = address (fst k) /\ target l = address (snd k);
  dr_line : forall l, l ∈ ls -> existsb (between (source l) (target l)) L = true;
  dr_once : forall i j k k', L !! i = Some k -> L !! j = Some k' ->
    between (address (fst k)) (address (snd k)) k' = true -> i = j
}.

Lemma drawing_add ps ls L l s t :
  drawing ps ls L -> s ∈ ps -> t ∈ ps -> address s = source l -> address t = target l ->
  drawing ps (ls ++ [l])
    (if existsb (between (address s) (address t)) L then L else L ++ [(s, t)]).
Proof.
  intros [Hlink Hline Honce] Hs Ht Es Et. destruct (existsb _ L) eqn:E; split.
  - intros k (Hp & Hq & l' & Hl & ?)%Hlink. repeat split; auto. exists l'. set_solver.
  - intros l' [Hl| ->%list_elem_of_singleton]%elem_of_app; [auto|]. by rewrite <- Es, <- Et.
  - done.
  - intros k [(Hp & Hq & l' & Hl & ?)%Hlink| ->%list_elem_of_singleton]%elem_of_app.
    + repeat split; auto. exists l'. set_solver.
    + repeat split; auto. exists l. set_solver.
  - intros l' [Hl| ->%list_elem_of_singleton]%elem_of_app; rewrite existsb_app.
    + by rewrite Hline.
    + apply orb_true_iff. right. cbn [existsb]. apply orb_true_iff. left.
      apply between_true. auto.
  - assert (Hnew : forall k i, L !! i = Some k -> between (address s) (address t) k <> true).
    { intros k i Hk Hb. apply not_true_iff_false in E. apply E, existsb_exists.
      exists k. split; [by eapply list_elem_of_In, list_elem_of_lookup_2|done]. }
    intros i j k k' [[_ Hi]|[-> <-]]%lookup_snoc_Some [[_ Hj]|[-> <-]]%lookup_snoc_Some Hb.
    + by eapply Honce.
    + destruct (Hnew k i Hi). apply between_true in Hb. apply between_true. naive_solver.
    + by destruct (Hnew k' j Hj).
    + done.
Qed.

(** ** Painting *)

Section Painting.
Context {A C : Type}.
Implicit Types (c : C) (st : list C).

Lemma elem_of_select (f : A -> bool) l i :
  i ∈ select f l <-> exists x, l !! i = Some x /\ f x = true.
Proof.
  unfold select, mapi. rewrite list_elem_of_omap. split.
  - intros ([j x] & Hin & Hf). apply list_elem_of_lookup in Hin as [k Hk].
    rewrite list_lookup_imap in Hk. destruct (l !! k) eqn:E; [|done]. simplify_eq/=.
    destruct (f x) eqn:Hx; [|done]. simplify_eq. eauto.
  - intros (x & Hx & Hf). exists (i, x). rewrite Hf. split; [|done].
    apply list_elem_of_lookup. exists i. by rewrite list_lookup_imap, Hx.
Qed.

Lemma length_paint c sel st : length (paint c sel st) = length st.
Proof. induction sel as [|i sel IH]; [done|]. cbn [paint]. by rewrite length_insert. Qed.

Lemma lookup_paint_in c sel st i :
  i ∈ sel -> (i < length st)%nat -> paint c sel st !! i = Some c.
Proof.
  induction sel as [|j sel IH]; intros Hi Hlt; [inv Hi|]. cbn [paint].
  destruct (decide (j = i)) as [->|Hne].
  - apply list_lookup_insert_eq. by rewrite length_paint.
  - rewrite list_lookup_insert_ne by done. apply IH; [set_solver|done].
Qed.

Lemma lookup_paint_out c sel st i : i ∉ sel -> paint c sel st !! i = st !! i.
Proof.
  induction sel as [|j sel IH]; intros Hi; [done|]. cbn [paint].
  rewrite list_lookup_insert_ne by set_solver. apply IH. set_solver.
Qed.

Lemma lookup_paint_select c (f : A -> bool) l st i x :
  length st = length l -> l !! i = Some x ->
  paint c (select f l) st !! i = if f x then Some c else st !! i.
Proof.
  intros Hlen Hx. destruct (f x) eqn:Hf.
  - apply lookup_paint_in; [apply elem_of_select; eauto|]. rewrite Hlen. by eapply lookup_lt_Some.
  - apply lookup_paint_out. intros (y & Hy & Hfy)%elem_of_select. congruence.
Qed.
End Painting.

(** ** The colours show the active peer *)

Definition is_peer (act : option string) (a : string) : bool :=
  match act with Some b => String.eqb a b | None => false end.

(** The line ends at the active peer. *)
Definition lit (act : option string) (l : string * string) : bool :=
  match act with Some a => touches a l | None => false end.

Definition stroke_of (act : option string) (l : string * string) : Stroke :=
  if lit act l then Selected else Divider.
Definition fill_of (act : option string) (a : string) : Fill :=
  if is_peer act a then SelectedPrimary else SpecialNode.
Definition border_of (act : option string) (h : Highlight) (a : string) : Border :=
  if in_links a h then if is_peer act a then SelectedBorder else SuccessBorder else WarnBorder.

(** The colours are those of the active peer [act], except perhaps for the
    lines [H] and the shapes [E] that do not concern it. *)
Record colours (act : option string) (H E : list nat) (h : Highlight) : Prop := {
  co_lines : length (strokes h) = length (connections h);
  co_fills : length (fills h) = length (elements h);
  co_borders : length (borders h) = length (elements h);
  co_stroke : forall i l, connections h !! i = Some l -> i ∉ H \/ lit act l = true ->
    strokes h !! i = Some (stroke_of act l);
  co_fill : forall e a, elements h !! e = Some a -> e ∉ E \/ is_peer act a = true ->
    fills h !! e = Some (fill_of act a);
  co_border : forall e a, elements h !! e = Some a -> borders h !! e = Some (border_of act h a)
}.

Record shown (H E : list nat) (h : Highlight) : Prop := {
  sh_colours : colours (active h) H E h;
  sh_clicked : forall a, active h = Some a ->
    clickedConnectedLinks h = Some (select (touches a) (connections h))
}.

(** The parts of the drawing no gesture changes. *)
Definition graph (h : Highlight) : list (string * string) * list string * list Link :=
  (connections h, elements h, graph_links h).

Lemma colours_remove a H E h sel : colours (Some a) H E h ->
  sel = select (touches a) (connections h) ->
  colours None H E (with_lines (paint Divider sel (strokes h))
                     (addColors a SpecialNode SuccessBorder h)).
Proof.
  intros [Hl Hf Hb Hst Hfi Hbo] ->. split; cbn; rewrite ?length_paint; auto.
  - intros i l Hi Hor. rewrite (lookup_paint_select _ _ _ _ _ l) by done.
    destruct (touches a l) eqn:Ht; [done|]. destruct Hor as [Hor|]; [|done].
    rewrite (Hst i l Hi) by auto. unfold stroke_of. cbn. by rewrite Ht.
  - intros e b He Hor. rewrite (lookup_paint_select _ _ _ _ _ b) by done.
    destruct (String.eqb b a) eqn:Ht; [done|]. destruct Hor as [Hor|]; [|done].
    rewrite (Hfi e b He) by auto. unfold fill_of. cbn. by rewrite Ht.
  - intros e b He. rewrite (lookup_paint_select _ _ _ _ _ b) by done.
    unfold border_of, in_links in *. cbn in *. destruct (String.eqb_spec b a) as [->|Hne].
    + by destruct (existsb _ _).
    + rewrite (Hbo e b He). cbn. apply String.eqb_neq in Hne. by rewrite Hne.
Qed.

Lemma colours_add a H E h sel : colours None H E h ->
  sel = select (touches a) (connections h) ->
  colours (Some a) H E (with_lines (paint Selected sel (strokes h))
    (with_clicked sel (addColors a SelectedPrimary SelectedBorder h))).
Proof.
  intros [Hl Hf Hb Hst Hfi Hbo] ->. split; cbn; rewrite ?length_paint; auto.
  - intros i l Hi Hor. rewrite (lookup_paint_select _ _ _ _ _ l) by done.
    unfold stroke_of. cbn. destruct (touches a l) eqn:Ht; [done|].
    destruct Hor as [Hor|]; [|done]. by rewrite (Hst i l Hi) by auto.
  - intros e b He Hor. rewrite (lookup_paint_select _ _ _ _ _ b) by done.
    unfold fill_of. cbn. destruct (String.eqb b a) eqn:Ht; [done|].
    destruct Hor as [Hor|]; [|done]. by rewrite (Hfi e b He) by auto.
  - intros e b He. rewrite (lookup_paint_select _ _ _ _ _ b) by done.
    unfold border_of, in_links in *. cbn in *. destruct (String.eqb_spec b a) as [->|Hne].
    + by destruct (existsb _ _).
    + by rewrite (Hbo e b He).
Qed.

Lemma colours_active act H E h p : colours act H E h -> colours act H E (with_active p h).
Proof. by intros []; split. Qed.

Lemma removeHighlight_colours H E h : shown H E h -> exists h', removeHighlight h = Ok h' /\
  colours None H E h' /\ graph h' = graph h /\
  hoveredConnectedLinks h' = hoveredConnectedLinks h.
Proof.
  intros [Hco Hc]. unfold removeHighlight. destruct (active h) as [a|] eqn:Ha; [|by eauto].
  cbn. rewrite (Hc a) by done. eexists; split; [done|]. split; [|done].
  by apply colours_remove.
Qed.

Lemma activate_shown H E p h : shown H E h -> exists h', activate p h = Ok h' /\ shown H E h' /\
  graph h' = graph h /\ active h' = p /\ hoveredConnectedLinks h' = hoveredConnectedLinks h.
Proof.
  intros Hs. destruct (removeHighlight_colours H E h Hs) as (h' & Hr & Hco & Hg & Hh).
  unfold activate. destruct p as [a|]; [unfold highlightPeer|]; rewrite Hr.
  - eexists; split; [done|]. split; [|by cbn]. split; [|by intros b [= <-]].
    cbn [active with_active]. apply colours_active.
    exact (colours_add a H E h' _ Hco eq_refl).
  - eexists; split; [done|]. split; [|by cbn]. split; [|done]. by apply colours_active.
Qed.

Lemma click_times_shown H E n a h : shown H E h -> exists h', click_times n a h = Ok h' /\
  shown H E h' /\ graph h' = graph h /\ hoveredConnectedLinks h' = hoveredConnectedLinks h /\
  (active h' = active h \/ active h' = None \/ active h' = Some a).
Proof.
  revert h. induction n as [|n IH]; intros h Hs; cbn [click_times]; [by eauto 10|].
  unfold click.
  destruct (activate_shown H E (if is_active a h then None else Some a) h Hs)
    as (h1 & -> & Hs1 & Hc1 & Ha1 & Hh1).
  destruct (IH h1 Hs1) as (h2 & -> & Hs2 & Hc2 & Hh2 & Ha2).
  exists h2. do 2 (split; [done|]). do 2 (split; [congruence|]). rewrite Ha1 in Ha2.
  destruct (is_active a h); naive_solver.
Qed.
Lemma is_peer_active act a : is_peer act a = true <-> act = Some a.
Proof.
  destruct act as [b|]; cbn; [|by split].
  rewrite String.eqb_eq. split; [by intros ->|by intros [= ->]].
Qed.

Lemma mouseOver_shown e a h : shown [] [] h -> elements h !! e = Some a -> active h <> Some a ->
  exists h' hov, mouseOver e a h = Ok h' /\ shown hov [e] h' /\ graph h' = graph h /\
    active h' = active h /\ hoveredConnectedLinks h' = Some hov /\
    forall i, i ∈ hov ->
      exists l, connections h !! i = Some l /\ touches a l = true /\ lit (active h) l = false.
Proof.
  intros [[Hl Hf Hb Hst Hfi Hbo] Hc] He Ha. unfold mouseOver, is_active.
  rewrite bool_decide_false by done. set (hov := select _ _). eexists _, hov. split; [done|].
  assert (Hhov : forall i, i ∈ hov ->
    exists l, connections h !! i = Some l /\ touches a l = true /\ lit (active h) l = false).
  { intros i (l & Hi & [Ht Hn]%andb_true_iff)%elem_of_select. exists l.
    unfold lit. destruct (active h); [apply negb_true_iff in Hn|]; done. }
  split; [|by cbn]. split; [|done]. split; cbn; rewrite ?length_insert, ?length_paint; auto.
  - intros i l Hi Hor. rewrite lookup_paint_out; [apply (Hst i l Hi); left; apply not_elem_of_nil|].
    destruct Hor as [|Hor]; [done|]. intros (l' & Hi' & _ & Hf')%Hhov. congruence.
  - intros x b Hx Hor. rewrite list_lookup_insert_ne.
    + apply (Hfi x b Hx); left; apply not_elem_of_nil.
    + intros <-. destruct Hor as [Hor|Hor%is_peer_active]; [set_solver|congruence].
Qed.

(** Leaving a shape: the colours its visit gave are taken back. *)
Lemma mouseOut_shown H E e a h hov : shown H E h -> hoveredConnectedLinks h = Some hov ->
  elements h !! e = Some a -> E ⊆ [e] ->
  (forall i, i ∈ H -> exists l, connections h !! i = Some l /\ touches a l = true) ->
  (active h <> Some a -> forall i l, connections h !! i = Some l ->
     (i ∈ H -> i ∈ hov) /\ (i ∈ hov -> lit (active h) l = false)) ->
  exists h', mouseOut e a h = Ok h' /\ shown [] [] h' /\ graph h' = graph h /\
    hoveredConnectedLinks h' = Some hov.
Proof.
  intros [[Hl Hf Hb Hst Hfi Hbo] Hc] Hhov He HE HH Hin. unfold mouseOut, is_active.
  case_bool_decide as Ha.
  - exists h. split; [done|]. split; [|done]. split; [|done]. split; auto.
    + intros i l Hi _. apply (Hst i l Hi). destruct (decide (i ∈ H)) as [HiH|]; [right|by left].
      destruct (HH i HiH) as (l' & Hl' & Ht). rewrite Ha. cbn. congruence.
    + intros x b Hx _. apply (Hfi x b Hx). destruct (decide (x ∈ E)) as [HxE|]; [right|by left].
      assert (x = e) as -> by set_solver. apply is_peer_active. congruence.
  - cbn. rewrite Hhov. eexists; split; [done|]. split; [|by cbn]. split; [|done].
    split; cbn; rewrite ?length_insert, ?length_paint; auto.
    + intros i l Hi _. destruct (Hin Ha i l Hi) as [HiH Hlit].
      destruct (decide (i ∈ hov)) as [Hh|Hh].
      * rewrite lookup_paint_in by (try done; rewrite Hl; by eapply lookup_lt_Some).
        unfold stroke_of. by rewrite Hlit.
      * rewrite lookup_paint_out by done. apply (Hst i l Hi). left. auto.
    + intros x b Hx _. destruct (decide (x = e)) as [->|Hne].
      * rewrite list_lookup_insert_eq by (rewrite Hf; by eapply lookup_lt_Some).
        unfold fill_of. destruct (is_peer (active h) b) eqn:Ep; [|done].
        apply is_peer_active in Ep. congruence.
      * rewrite list_lookup_insert_ne by done. apply (Hfi x b Hx). left. set_solver.
Qed.

Lemma graph_eq h h' : graph h' = graph h ->
  connections h' = connections h /\ elements h' = elements h /\ graph_links h' = graph_links h.
Proof. unfold graph. by intros [= -> -> ->]. Qed.

Lemma visit_shown e n a h : shown [] [] h -> elements h !! e = Some a ->
  is_Some (hoveredConnectedLinks h) \/ active h <> Some a ->
  exists h', gesture (Visit e n) h = Ok h' /\ shown [] [] h' /\ graph h' = graph h /\
    is_Some (hoveredConnectedLinks h').
Proof.
  intros Hs He Hor. cbn [gesture]. rewrite He. destruct (decide (active h = Some a)) as [Ha|Ha].
  - destruct Hor as [[hov Hhov]|]; [|done].
    unfold mouseOver at 1, is_active at 1. rewrite bool_decide_true by done.
    destruct (click_times_shown [] [] n a h Hs) as (h2 & -> & Hs2 & Hg2 & Hh2 & Ha2).
    destruct (graph_eq _ _ Hg2) as (Hc2 & He2 & _).
    destruct (mouseOut_shown [] [] e a h2 hov Hs2) as (h3 & -> & Hs3 & Hg3 & Hh3);
      [congruence|congruence|set_solver|set_solver| |].
    + intros Hne i l Hl. split; [intros Hi; inv Hi|]. intros _.
      destruct Ha2 as [E|[->|E]]; [congruence|done|congruence].
    + exists h3. split; [done|]. split; [done|]. split; [congruence|eauto].
  - destruct (mouseOver_shown e a h Hs He Ha) as (h1 & hov & -> & Hs1 & Hg1 & Ha1 & Hh1 & Hin).
    destruct (click_times_shown hov [e] n a h1 Hs1) as (h2 & -> & Hs2 & Hg2 & Hh2 & Ha2).
    destruct (graph_eq h h2) as (Hc2 & He2 & _); [congruence|].
    destruct (mouseOut_shown hov [e] e a h2 hov Hs2) as (h3 & -> & Hs3 & Hg3 & Hh3);
      [congruence|congruence|done| | |].
    + intros i (l & Hl & Ht & _)%Hin. exists l. rewrite Hc2. auto.
    + intros Hne i l Hl. split; [done|]. intros (l' & Hl' & _ & Hf)%Hin.
      rewrite Hc2 in Hl. simplify_eq.
      destruct Ha2 as [E|[->|E]]; [by rewrite E, Ha1|done|congruence].
    + exists h3. split; [done|]. split; [done|]. split; [congruence|eauto].
Qed.

Lemma gestures_shown gs h : shown [] [] h -> is_Some (hoveredConnectedLinks h) ->
  exists h', gestures gs h = Ok h' /\ shown [] [] h' /\ graph h' = graph h.
Proof.
  revert h. induction gs as [|g gs IH]; intros h Hs Hh; cbn [gestures]; [eauto|].
  assert (exists h1, gesture g h = Ok h1 /\ shown [] [] h1 /\ graph h1 = graph h /\
            is_Some (hoveredConnectedLinks h1)) as (h1 & -> & Hs1 & Hg1 & Hh1).
  { destruct g as [p|e n].
    - destruct (activate_shown [] [] p h Hs) as (h1 & Ho & Hs1 & Hg1 & _ & Hh1).
      exists h1. rewrite Hh1. auto.
    - destruct (elements h !! e) as [a|] eqn:He; [by eapply visit_shown; eauto|].
      exists h. cbn [gesture]. by rewrite He. }
  destruct (IH h1 Hs1 Hh1) as (h2 & -> & Hs2 & Hg2).
  exists h2. split; [done|]. split; [done|congruence].
Qed.

Lemma fmap_by_lookup {A B} (f : A -> B) (l : list A) (k : list B) :
  length k = length l -> (forall i x, l !! i = Some x -> k !! i = Some (f x)) -> k = f <$> l.
Proof.
  intros Hlen H. apply list_eq. intros i. rewrite list_lookup_fmap.
  destruct (l !! i) as [x|] eqn:Hx; [by apply H|]. cbn. apply lookup_ge_None.
  rewrite Hlen. by apply lookup_ge_None.
Qed.

Lemma shown_colours h : shown [] [] h ->
  strokes h = stroke_of (active h) <$> connections h /\
  fills h = fill_of (active h) <$> elements h /\
  borders h = border_of (active h) h <$> elements h.
Proof.
  intros [[Hl Hf Hb Hst Hfi Hbo] _]. split; [|split]; apply fmap_by_lookup; auto.
  - intros i l Hi. apply (Hst i l Hi). left. apply not_elem_of_nil.
  - intros i l Hi. apply (Hfi i l Hi). left. apply not_elem_of_nil.
Qed.

(** ** A fresh drawing *)

Lemma all_ends_some L :
  all_ends (some_ends <$> L) = Ok ((fun k => (address (fst k), address (snd k))) <$> L).
Proof. induction L as [|[p q] L IH]; [done|]. cbn. by rewrite IH. Qed.

Lemma drawing_touches ps ls L a : drawing ps ls L ->
  existsb (touches a) ((fun k => (address (fst k), address (snd k))) <$> L) =
  existsb (fun l => String.eqb (source l) a || String.eqb (target l) a) ls.
Proof.
  intros [Hlink Hline _]. apply eq_true_iff_eq. rewrite !existsb_exists.
  setoid_rewrite <- list_elem_of_In. split.
  - intros (x & (k & -> & Hk)%list_elem_of_fmap & Ht).
    destruct (Hlink k Hk) as (_ & _ & l & Hl & Hs & Ht'). exists l. split; [done|].
    by rewrite Hs, Ht'.
  - intros (l & Hl & Ht). specialize (Hline l Hl).
    apply existsb_exists in Hline as (k & Hk & Hb). apply list_elem_of_In in Hk.
    eexists; split; [by apply list_elem_of_fmap_2|]. unfold touches. cbn [fst snd].
    apply between_true in Hb as [[-> ->]|[-> ->]]; [by rewrite orb_comm|done].
Qed.

Lemma renderGraph_shown ps ls :
  (exists L, lines ps ls = Ok (some_ends <$> L) /\ drawing ps ls L) ->
  exists h, renderGraph ps ls = Ok h /\ shown [] [] h /\ active h = None.
Proof.
  intros (L & HL & Hd). unfold renderGraph. rewrite HL, all_ends_some.
  eexists; split; [done|]. split; [|done]. split; [|done].
  split; cbn; rewrite ?length_replicate, ?length_fmap; auto.
  - intros i l Hl _. apply lookup_replicate. split; [done|].
    rewrite <- (length_fmap (fun k : Peer * Peer => (address k.1, address k.2))).
    by eapply lookup_lt_Some.
  - intros e a He _. apply lookup_replicate. split; [done|].
    rewrite <- (length_fmap address). by eapply lookup_lt_Some.
  - intros e a He. rewrite list_lookup_fmap, He. cbn. f_equal.
    unfold first_border, border_of, in_links. cbn [is_peer graph_links].
    by rewrite (drawing_touches ps ls).
Qed.

Lemma lines_drawing ps ls :
  (forall l, l ∈ ls -> known ps (source l) /\ known ps (target l)) ->
  exists L, lines ps ls = Ok (some_ends <$> L) /\ drawing ps ls L.
Proof.
  induction ls as [|l ls IH] using rev_ind; intros Hk.
  { exists []. split; [done|]. split; [intros k Hin|intros l Hin|done]; inv Hin. }
  destruct IH as (L & HL & Hd); [set_solver|].
  destruct (Hk l) as [(s & Hs & Hsp & Hsa)%find_known (t & Ht & Htp & Hta)%find_known]; [set_solver|].
  unfold lines in *. rewrite fold_left_app, HL. cbn [fold_left].
  rewrite (add_line_known ps L l s t Hs Ht). eexists; split; [done|]. by apply drawing_add.
Qed.

(** The first shape the mouse meets is that of the selected peer: the hover is
    skipped, a click unselects it, and leaving it reads a selection that was
    never made. *)
Lemma first_visit_throws h e a : shown [] [] h -> hoveredConnectedLinks h = None ->
  active h = Some a -> elements h !! e = Some a ->
  gesture (Visit e 1) h = Throw undefined_attr.
Proof.
  intros Hs Hh Ha He. cbn [gesture]. rewrite He. unfold mouseOver, click_times, click.
  assert (is_active a h = true) as -> by by apply bool_decide_eq_true.
  cbn beta iota. assert (is_active a h = true) as -> by by apply bool_decide_eq_true.
  cbn iota. destruct (activate_shown [] [] None h Hs) as (h' & -> & _ & _ & Ha' & Hh').
  unfold mouseOut, is_active. rewrite bool_decide_false by congruence.
  cbn. by rewrite Hh', Hh.
Qed.

(** ** The grid *)

Lemma matrixSize_spec n : (n <= matrixSize n * matrixSize n)%nat.
Proof.
  unfold matrixSize. pose proof (Nat.sqrt_spec n ltac:(lia)) as [H1 H2].
  destruct (Nat.eqb_spec (Nat.sqrt n * Nat.sqrt n) n); lia.
Qed.

Lemma grid_bounds (c m : nat) (size : Z) : (c < m)%nat -> 0 < size ->
  (0 <= inject_Z (Z.of_nat c * size) / inject_Z (Z.of_nat m) < inject_Z size)%Q.
Proof.
  intros Hc Hs. assert (Hm : (0 < inject_Z (Z.of_nat m))%Q) by (rewrite <- (Zlt_Qlt 0); lia).
  split.
  - apply Qle_shift_div_l; [done|]. rewrite Qmult_0_l, <- (Zle_Qle 0). lia.
  - apply Qlt_shift_div_r; [done|]. rewrite <- inject_Z_mult, <- Zlt_Qlt. nia.
Qed.

Lemma grid_inj (c d m : nat) (size : Z) : (0 < m)%nat -> 0 < size ->
  (inject_Z (Z.of_nat c * size) / inject_Z (Z.of_nat m) ==
   inject_Z (Z.of_nat d * size) / inject_Z (Z.of_nat m))%Q -> c = d.
Proof.
  intros Hm Hs H.
  assert (Hpos : (0 < inject_Z (Z.of_nat m))%Q) by (rewrite <- (Zlt_Qlt 0); lia).
  apply Qinv_lt_0_compat in Hpos. unfold Qdiv in H.
  rewrite Qmult_inj_r, inject_Z_injective in H by lra. nia.
Qed.

(** Peers of different sets are pulled to different cells of the grid, all of
    them on the page. *)
Lemma sets_apart width height sets p q i j :
  0 < width -> 0 < height ->
  set_index sets p = Some i -> set_index sets q = Some j -> i <> j ->
  (0 <= forceX width sets p < inject_Z width)%Q /\
  (0 <= forceY height sets p < inject_Z height)%Q /\
  ~ ((forceX width sets p == forceX width sets q)%Q /\
     (forceY height sets p == forceY height sets q)%Q).
Proof.
  intros Hw Hh Hi Hj Hne. unfold forceX, forceY. rewrite Hi, Hj.
  pose proof (matrixSize_spec (length sets)) as Hm. set (m := matrixSize (length sets)) in *.
  assert (Hin : (i < length sets)%nat) by by eapply findIndex_lt.
  assert (Hpos : (0 < m)%nat) by nia.
  split; [by apply grid_bounds; [apply Nat.mod_upper_bound; lia|]|].
  split; [apply grid_bounds; [apply Nat.Div0.div_lt_upper_bound; lia|done]|].
  intros [Hx%grid_inj Hy%grid_inj]; [|done..]. apply Hne.
  rewrite (Nat.div_mod_eq i m), (Nat.div_mod_eq j m). congruence.
Qed.

(** The [bounds] force mirrors a coordinate past the right or lower edge and
    leaves one past the left or upper edge where it is: the smaller of the
    two candidates is then the coordinate itself. *)
Lemma bounds_one_sided (size x : Q) : (0 <= size)%Q ->
  (bounded size x == if Qlt_le_dec size x then size - (x - size) else x)%Q /\
  (bounded size x <= size)%Q /\ ((x < 0)%Q -> (bounded size x == x)%Q).
Proof.
  intros Hs. unfold bounded.
  destruct (Qlt_le_dec size x), (Qlt_le_dec x 0); cbn zeta;
    [lra|destruct (Q.min_spec (size - (x - size)) x) as [[? ->]|[? ->]]
        |destruct (Q.min_spec x (- x)) as [[? ->]|[? ->]]
        |destruct (Q.min_spec x x) as [[? ->]|[? ->]]];
    repeat split; intros; lra.
Qed.

(** ** The shapes *)

(** A peer may be drawn twice, or not at all. *)
Lemma shapes_overlap :
  let p n := mkPeer "10.0.0.1" None (Some n) None None None in
  (fun s => in_shape s (p "Seed node 1")) <$> [Circle; Triangle; Square; Diamond] =
    [true; false; false; true] /\
  (fun s => in_shape s (p "Whale 1")) <$> [Circle; Triangle; Square; Diamond] =
    [false; false; false; false].
Proof. by vm_compute. Qed.

(** ** Drawing once per load *)

(** Once drawn, the graph is not drawn again before another load begins, and
    a load that finds peers and links is drawn. *)
Lemma drawn_once ps ls ps' ls' fetching :
  (forall f, listen fetching ps ls false = (f, true) -> listen f ps' ls' false = (f, false)) /\
  (ps <> [] -> ls <> [] ->
   listen (fst (listen fetching ps' ls' true)) ps ls false = (false, true)).
Proof.
  unfold listen. split.
  - intros f. destruct (negb _ && negb _ && _); intros [= <-]. cbn. by rewrite andb_false_r.
  - destruct ps, ls; try done. intros _ _. cbn [negb]. rewrite !andb_false_r. cbn. by rewrite !orb_true_r.
Qed.

(** ** The sets are the kernel *)

Lemma constant_on_links ps ls (x : string -> Z) p q :
  (forall l, l ∈ ls -> x (source l) = x (target l)) ->
  linked ps ls p q -> x (address p) = x (address q).
Proof.
  intros H. induction 1 as [|p r q (_ & _ & l & Hl & Hends) _ IH]; [done|].
  rewrite <- IH. specialize (H l Hl). by destruct Hends as [[<- <-]|[<- <-]].
Qed.

(** The graph draws the network's links and nothing else.  When every link
    joins two known peers, [renderGraph] throws no exception, every line it
    draws joins the ends of a link, every link has a line in one direction or
    the other, and no two lines join the same two peers. *)
Theorem lines_drawn (ps : list Peer) (ls : list Link) :
  (forall l, l ∈ ls -> known ps (source l) /\ known ps (target l)) ->
  exists L, lines ps ls = Ok (some_ends <$> L) /\
    (forall k, k ∈ L -> fst k ∈ ps /\ snd k ∈ ps /\
       exists l, l ∈ ls /\ source l = address (fst k) /\ target l = address (snd k)) /\
    (forall l, l ∈ ls -> existsb (between (source l) (target l)) L = true) /\
    (forall i j k k', L !! i = Some k -> L !! j = Some k' ->
       between (address (fst k)) (address (snd k)) k' = true -> i = j).
Proof.
  intros (L & HL & [Hlink Hline Honce])%lines_drawing. by exists L.
Qed.

(** The colours of the graph are those of the selected peer.  When every
    link joins two known peers the graph is drawn, and once the mouse has
    visited one of its shapes, any sequence of selections in the table, visits
    of the mouse and clicks runs without an exception.  After it exactly the
    lines that end at the active peer are in the selection colour, exactly the
    shapes of the active peer are filled, and the border of every shape tells
    whether its peer has links. *)
Theorem colours_exact (ps : list Peer) (ls : list Link) (e n : nat) (gs : list Gesture) :
  (forall l, l ∈ ls -> known ps (source l) /\ known ps (target l)) ->
  exists h0, renderGraph ps ls = Ok h0 /\
    ((e < length (elements h0))%nat ->
     exists h, gestures (Visit e n :: gs) h0 = Ok h /\ graph h = graph h0 /\
       strokes h = stroke_of (active h) <$> connections h /\
       fills h = fill_of (active h) <$> elements h /\
       borders h = border_of (active h) h <$> elements h).
Proof.
  intros (h0 & Hr & Hs & Ha)%lines_drawing%renderGraph_shown. exists h0. split; [done|].
  intros [a He]%lookup_lt_is_Some_2. cbn [gestures].
  destruct (visit_shown e n a h0 Hs He) as (h1 & -> & Hs1 & Hg1 & Hh1); [right; congruence|].
  destruct (gestures_shown gs h1 Hs1 Hh1) as (h2 & -> & Hs2 & Hg2).
  exists h2. split; [done|]. split; [congruence|]. by apply shown_colours.
Qed.

Section Theorems.
Context `{TableSorter Peer}.

(** C2: The Laplacian the graph computes and the sets the reducer computes
    agree on the network.  When the peers have distinct addresses, every link
    joins two known peers and no peer is linked to itself, the search cuts
    the peers into sets, and the Laplacian sends a vector to zero exactly when
    the vector is constant on each of the sets: the eigenvalue zero, whose gap
    the component reports, counts the splits. *)
Theorem laplacian_kernel (ps : list Peer) (ls : list Link) :
  NoDup (address <$> ps) ->
  (forall l, l ∈ ls -> known ps (source l) /\ known ps (target l)) ->
  (forall l, l ∈ ls -> source l <> target l) ->
  exists sets, splitThePeers ps ls = Ok sets /\
    forall x : string -> Z,
      Forall (.= 0) (mat_vec (laplacianMatrix ps ls) (x <$> addresses ps ls)) <->
      forall s p q, s ∈ sets -> p ∈ set_peers s -> q ∈ set_peers s ->
        x (address p) = x (address q).
Proof.
  intros Hnd Hk Hself.
  destruct (splitThePeers_Ok ps ls Hnd) as (sets & -> & Hperm & Hcomp).
  { intros l Hl. destruct (Hk l Hl). tauto. }
  exists sets. split; [done|]. intros x. rewrite laplacian_kernel_links.
  assert (Hin : forall s p, s ∈ sets -> p ∈ set_peers s -> p ∈ ps).
  { intros s p Hs Hp. rewrite <- Hperm. apply elem_of_lconcat.
    exists (set_peers s). split; [by apply list_elem_of_fmap_2|done]. }
  split.
  - intros Hl s p q Hs Hp Hq. apply (constant_on_links ps ls); [by intros; apply Hl|].
    apply (Hcomp s); eauto.
  - intros Hc l Hl. split; [|by intros E; destruct (Hself l Hl)].
    destruct (Hk l Hl) as [(p & Hp & Hps) (q & Hq & Hqt)]. rewrite <- Hps, <- Hqt.
    assert (Hs : p ∈ concat (set_peers <$> sets)) by by rewrite Hperm.
    apply elem_of_lconcat in Hs as (c & (s & -> & Hs)%list_elem_of_fmap & Hps').
    apply (Hc s); [done..|]. apply (Hcomp s p); [done..|]. apply rtc_once.
    split; [done|]. split; [done|]. exists l. auto.
Qed.
End Theorems.

(** ** Witnesses *)

(** Two linked peers, linked both ways, and one apart. *)
Definition example_peers : list Peer :=
  (fun a => mkPeer a None None None None None) <$> ["a"; "b"; "c"].
Definition example_links : list Link := [mkLink "a" "b"; mkLink "b" "a"].

Lemma example_known l : l ∈ example_links ->
  known example_peers (source l) /\ known example_peers (target l).
Proof.
  set (p a := mkPeer a None None None None None).
  intros Hl. rewrite list_elem_of_In in Hl. cbn in Hl. destruct Hl as [<-|[<-|[]]].
  - split; [exists (p "a")|exists (p "b")]; split; try done; set_solver.
  - split; [exists (p "b")|exists (p "a")]; split; try done; set_solver.
Qed.

Lemma laplacian_kernel_witness :
  laplacianMatrix example_peers example_links = [[1; -1; 0]; [-1; 1; 0]; [0; 0; 0]] /\
  exists sets, @splitThePeers (unsorted Peer) example_peers example_links = Ok sets.
Proof.
  split; [by vm_compute|].
  destruct (@laplacian_kernel (unsorted Peer) example_peers example_links) as (sets & Hs & _).
  - by apply (bool_decide_eq_true _).
  - exact example_known.
  - intros l Hl. rewrite list_elem_of_In in Hl. cbn in Hl.
    destruct Hl as [<-|[<-|[]]]; discriminate.
  - exact (ex_intro _ sets Hs).
Defined.

Lemma lines_drawn_witness : exists L, lines example_peers example_links = Ok (some_ends <$> L).
Proof.
  destruct (lines_drawn example_peers example_links) as (L & HL & _); [exact example_known|].
  exact (ex_intro _ L HL).
Defined.

Lemma colours_exact_witness :
  exists h0 h, renderGraph example_peers example_links = Ok h0 /\
    gestures [Visit 0 1; Choose (Some "c")] h0 = Ok h.
Proof.
  destruct (colours_exact example_peers example_links 0 1 [Choose (Some "c")])
    as (h0 & Hr & Hrun); [exact example_known|].
  destruct Hrun as (h & Hh & _).
  - vm_compute in Hr. injection Hr as <-. cbn. lia.
  - exact (ex_intro _ h0 (ex_intro _ h (conj Hr Hh))).
Defined.
End SplitsGraph.
