(* ===== verification/WebNode.v ===== *)
(** * Starting the web node

    Models the start of the node that runs in the browser: the choice of keys
    and addresses of [core/services/web-node.service.ts], the download monitor
    of [core/helpers/file-progress.helper.ts], the upload of keys of
    [features/web-node/web-node-file-upload] and the page that follows the
    start, [features/web-node/web-node-initialization].

    The page is a machine: its state holds the fields of the component and the
    timers it has set, each under the identifier [setInterval] or [setTimeout]
    gave it, and an event is a state of the node, a step of the download, an
    error or the firing of one timer.  Percentages are rationals.  The
    JavaScript values [null] and [undefined] a caller cannot tell apart are
    [None]. *)

From Stdlib Require Import ZArith Lia QArith Qround Lqa.
From stdpp Require Import base gmap strings list.
From S2P Require Import Prelude SharedLib.

Module WebNode.
Local Open Scope Z_scope.

(** ** Keys and addresses *)

(** [args['network']]: a string, or the number of a cluster. *)
Inductive Network := Named (name : string) | Cluster (number : Z).

Record KeyPair := mkKeyPair { kp_public : option string; kp_private : option string }.

(** The arguments of [localStorage], [args['block_producer']] being optional. *)
Record Args := mkArgs { arg_network : option Network; arg_producer : option KeyPair }.

Definition DEFAULT_NETWORK : Network := Named "devnet".

(** [args['network'] || DEFAULT_NETWORK] *)
Definition network_or_default (n : option Network) : Network :=
  match n with
  | Some (Named s) => if truthy_str s then Named s else DEFAULT_NETWORK
  | Some (Cluster c) => if truthyZ c then Cluster c else DEFAULT_NETWORK
  | None => DEFAULT_NETWORK
  end.

(** [secrets] is the answer to the request for [web-node-secrets.json]. *)
Definition loadWasm (args : option Args) (secrets : KeyPair) : KeyPair * Network :=
  match args with
  | None => (secrets, DEFAULT_NETWORK)
  | Some a =>
    (match arg_producer a with Some kp => kp | None => mkKeyPair None None end,
     network_or_default (arg_network a))
  end.

(** The JSON value of the stake is whatever [JSON.parse] returned. *)
Record PrivateStake (J : Type) := mkStake {
  publicKey : string; password : option string; stake : J
}.
Arguments mkStake {J} _ _ _.
Arguments publicKey {J} _.
Arguments password {J} _.
Arguments stake {J} _.

Inductive RunKey (J : Type) := StakeKey (s : J) (pwd : option string) | PlainKey (k : string).
Arguments StakeKey {J} _ _.
Arguments PlainKey {J} _.

Record RunArgs (J : Type) := mkRun {
  run_key : option (RunKey J); run_seeds : string; run_genesis : option string
}.
Arguments mkRun {J} _ _ _.
Arguments run_key {J} _.
Arguments run_seeds {J} _.
Arguments run_genesis {J} _.

Definition urls (origin : string) (n : Network) : string * option string :=
  match n with
  | Cluster c =>
    let url := origin +:+ "/clusters/" +:+ show c +:+ "/" in
    (url +:+ "seeds", Some (url +:+ "genesis/config"))
  | Named _ => ("https://bootnodes.minaprotocol.com/networks/devnet-webrtc.txt", None)
  end.

(** The arguments [startWasm$] gives to [wasm.run]. *)
Definition startWasm {J} (origin : string) (privateStake : option (PrivateStake J))
    (noBlockProduction : bool) (loaded : KeyPair * Network) : RunArgs J :=
  let privateKey :=
    match privateStake with
    | Some s => Some (StakeKey (stake s) (password s))
    | None => PlainKey <$> kp_private (fst loaded)
    end in
  let privateKey := if noBlockProduction then None else privateKey in
  mkRun privateKey (fst (urls origin (snd loaded))) (snd (urls origin (snd loaded))).

(** ** The upload of keys *)

Record ZipFile := mkFile { file_name : string; file_content : string }.

Fixpoint endsWith (suffix s : string) : bool :=
  String.eqb suffix s ||
  match s with EmptyString => false | String _ s' => endsWith suffix s' end.

Definition newline : Ascii.ascii := Ascii.ascii_of_nat 10.
Definition carriage : Ascii.ascii := Ascii.ascii_of_nat 13.

(** [replace(/\r?\n|\r/g, '')] *)
Fixpoint strip_newlines (s : string) : string :=
  match s with
  | EmptyString => EmptyString
  | String c s' =>
    if Ascii.eqb c newline || Ascii.eqb c carriage then strip_newlines s'
    else String c (strip_newlines s')
  end.

Record Upload (J : Type) := mkUpload {
  validFiles : bool; error : bool; uploadedFileName : option string;
  privateStake : option (PrivateStake J); noBlockProduction : bool
}.
Arguments mkUpload {J} _ _ _ _ _.
Arguments validFiles {J} _.
Arguments error {J} _.
Arguments uploadedFileName {J} _.
Arguments privateStake {J} _.
Arguments noBlockProduction {J} _.

Section Upload.
(** [JSON.parse], which may throw. *)
Context {J : Type} (parse : string -> result J).

(** What [processZipFile] made of the archive: the files it read, and whether
    reading failed somewhere. *)
Definition onFileSelected (name : string) (files : list ZipFile) (failed : bool)
    (u : Upload J) : result (Upload J) :=
  let err := error u || failed in
  let publicKey := file_content <$> List.find (fun f => endsWith ".pub" (file_name f)) files in
  let password := strip_newlines ∘ file_content <$>
    List.find (fun f => string_includes "password" (file_name f)) files in
  let stake := file_content <$>
    List.find (fun f => negb (string_includes "password" (file_name f)) &&
                        negb (endsWith ".pub" (file_name f))) files in
  match publicKey, stake with
  | Some pk, Some st =>
    if err || negb (truthy_str pk) || negb (truthy_str st)
    then Ok (mkUpload (validFiles u) true (Some name) (privateStake u) (noBlockProduction u))
    else match parse st with
         | Throw e => Throw e
         | Ok j =>
           Ok (mkUpload true err (Some name) (Some (mkStake pk password j)) (noBlockProduction u))
         end
  | _, _ => Ok (mkUpload (validFiles u) true (Some name) (privateStake u) (noBlockProduction u))
  end.

Definition clearFiles (u : Upload J) : Upload J :=
  mkUpload false false None None (noBlockProduction u).

Definition onStartDevelopWebnodeNonBP (u : Upload J) : Upload J :=
  mkUpload (validFiles u) (error u) (uploadedFileName u) None true.

Definition onStartDevelopWebnode (u : Upload J) : Upload J :=
  mkUpload (validFiles u) (error u) (uploadedFileName u) None (noBlockProduction u).
End Upload.

(** ** The download monitor *)

Definition WASM_FILE_SIZE : Z := 31556926.

Inductive Status := StatusPending | StatusComplete | StatusError.

(** What [emitProgress] publishes, the times apart: [progress] is the number
    [toFixed(2)] shows, and [downloaded] the bytes. *)
Record Emission := mkEmission { em_progress : Q; em_status : Status; em_downloaded : Q }.

(** [x.toFixed(2)]: the nearest multiple of a hundredth, ties up. *)
Definition toFixed2 (x : Q) : Q := (inject_Z (Qfloor (x * 100 + (1 # 2))) / 100)%Q.

Definition emitProgress (progress : Q) (st : Status) : Emission :=
  mkEmission (toFixed2 progress) st (progress * inject_Z WASM_FILE_SIZE / 100)%Q.

Definition percent (received : Z) : Q :=
  (inject_Z received / inject_Z WASM_FILE_SIZE * 100)%Q.

(** One read of the body: a chunk of some length, the end, or a failure. *)
Inductive Read := Chunk (length : Z) | Done | Failed.

(** The reading loop; a failure is published by the inner handler and again
    by the outer one.  The result tells whether the caller gets a response. *)
Fixpoint read_loop (reads : list Read) (received : Z) (progress : Q) : list Emission * bool :=
  match reads with
  | [] => ([], false)
  | Chunk n :: reads' =>
    let received' := received + n in
    let '(out, ok) := read_loop reads' received' (percent received') in
    (emitProgress (percent received') StatusPending :: out, ok)
  | Done :: _ => ([emitProgress progress StatusComplete], true)
  | Failed :: _ =>
    ([emitProgress progress StatusError; emitProgress progress StatusError], false)
  end.

Definition isAsset (url : string) : bool := endsWith ".wasm" (toLowerCase url).

(** [answered] is false when the request itself fails. *)
Definition monitored_fetch (answered : bool) (reads : list Read) : list Emission * bool :=
  let first := emitProgress 0 StatusPending in
  if answered then
    let '(out, ok) := read_loop reads 0 0 in (first :: out, ok)
  else ([first; emitProgress 0 StatusError], false).
(** ** The first connected peer *)

(** The states [webnodeProgress$] goes through. *)
Inductive NodeState := Empty | Loaded | Started | Connected.

(** One answer of [peers$]: whether each peer is connected.  The state is
    [sentryEvents.firstPeerConnected]; the answer is published at most once. *)
Definition on_peers (first : bool) (connected : list bool) : bool * list NodeState :=
  if negb first && existsb id connected then (true, [Connected]) else (first, []).

Fixpoint poll_peers (first : bool) (answers : list (list bool)) : bool * list NodeState :=
  match answers with
  | [] => (first, [])
  | a :: answers' =>
    let '(first', out) := on_peers first a in
    let '(final, out') := poll_peers first' answers' in (final, out ++ out')
  end.

(** ** The initialization page *)

Inductive StepStatus := DONE | LOADING | PENDING.

#[export] Instance StepStatus_eq_dec : EqDecision StepStatus.
Proof. solve_decision. Defined.

Record Step := mkStep { step_name : string; loaded : bool; status : StepStatus }.

(** A timer that has been set, with the variables its callback closes over:
    the intervals of the second and third step, the short waits in between,
    the run to the end, and the warnings of a step that takes long. *)
Inductive Timer :=
| Second (p : Q)
| Fast (current : Q) (i : nat)
| Third (p : Q)
| End (p : Q)
| Warn (step : nat).

Record Page := mkPage {
  steps : list Step;
  loadingMessage : string;
  ready : bool;
  hasError : bool;
  hasWarn : bool;
  errors : list string;
  stepsPercentages : Z * Z * Z;
  secondStepInterval : option nat;
  thirdStepInterval : option nat;
  progress : Q;
  timers : gmap nat Timer;
  next_id : nat
}.

Definition with_steps (l : list Step) (p : Page) : Page :=
  mkPage l (loadingMessage p) (ready p) (hasError p) (hasWarn p) (errors p)
    (stepsPercentages p) (secondStepInterval p) (thirdStepInterval p) (progress p)
    (timers p) (next_id p).
Definition with_message (m : string) (p : Page) : Page :=
  mkPage (steps p) m (ready p) (hasError p) (hasWarn p) (errors p)
    (stepsPercentages p) (secondStepInterval p) (thirdStepInterval p) (progress p)
    (timers p) (next_id p).
Definition with_warn (p : Page) : Page :=
  mkPage (steps p) (loadingMessage p) (ready p) (hasError p) true (errors p)
    (stepsPercentages p) (secondStepInterval p) (thirdStepInterval p) (progress p)
    (timers p) (next_id p).
Definition with_error (e : string) (p : Page) : Page :=
  mkPage (steps p) e (ready p) true (hasWarn p) (errors p ++ [e])
    (stepsPercentages p) (secondStepInterval p) (thirdStepInterval p) (progress p)
    (timers p) (next_id p).
Definition with_bar (q : Q) (r : bool) (p : Page) : Page :=
  mkPage (steps p) (loadingMessage p) r (hasError p) (hasWarn p) (errors p)
    (stepsPercentages p) (secondStepInterval p) (thirdStepInterval p) q
    (timers p) (next_id p).
Definition with_timers (t : gmap nat Timer) (p : Page) : Page :=
  mkPage (steps p) (loadingMessage p) (ready p) (hasError p) (hasWarn p) (errors p)
    (stepsPercentages p) (secondStepInterval p) (thirdStepInterval p) (progress p)
    t (next_id p).
Definition with_intervals (s t : option nat) (p : Page) : Page :=
  mkPage (steps p) (loadingMessage p) (ready p) (hasError p) (hasWarn p) (errors p)
    (stepsPercentages p) s t (progress p) (timers p) (next_id p).

(** [setInterval] or [setTimeout]: the new timer's identifier is [next_id]. *)
Definition set_timer (t : Timer) (p : Page) : Page :=
  mkPage (steps p) (loadingMessage p) (ready p) (hasError p) (hasWarn p) (errors p)
    (stepsPercentages p) (secondStepInterval p) (thirdStepInterval p) (progress p)
    (<[next_id p := t]> (timers p)) (S (next_id p)).

(** [clearInterval]; an identifier that is not set is ignored. *)
Definition clearInterval (i : option nat) (p : Page) : Page :=
  match i with Some i => with_timers (delete i (timers p)) p | None => p end.

(** [r1] and [r2] are [Math.floor(Math.random() * 15)] and
    [Math.floor(Math.random() * 2)]. *)
Definition getStepPercentages (r1 r2 : Z) : Z * Z * Z :=
  let first := r1 + 65 in
  let second := r2 + 15 in
  (first, second, 100 - first - second).

Definition pct1 (p : Page) : Z := (stepsPercentages p).1.1.
Definition pct2 (p : Page) : Z := (stepsPercentages p).1.2.
Definition pct3 (p : Page) : Z := (stepsPercentages p).2.

Definition initial_steps : list Step :=
  [mkStep "Setting up browser for Web Node" false LOADING;
   mkStep "Getting ready to produce blocks" false PENDING;
   mkStep "Connecting directly to Mina network" false PENDING].

(** [ngOnInit] when the configuration has a web node. *)
Definition ngOnInit (noBlockProduction isWebNodeLoaded : bool) (r1 r2 : Z) : Page :=
  let named := match initial_steps with
    | [a; b; c] => if noBlockProduction
                   then [a; mkStep "Starting the Web Node" (loaded b) (status b); c]
                   else [a; b; c]
    | l => l
    end in
  let all_done := (fun s => mkStep (step_name s) true DONE) <$> named in
  mkPage (if isWebNodeLoaded then all_done else named) "" isWebNodeLoaded false false []
    (getStepPercentages r1 r2) None None 0 ∅ 0.

Definition updateProgressBar (newProgress : Q) (p : Page) : Page :=
  if Qle_bool 100 newProgress then with_bar 100 true p else with_bar newProgress (ready p) p.

Definition updateLoadingMessage (message : string) (p : Page) : Page :=
  if hasError p || hasWarn p then p else with_message message p.

(** [this.loading[i].loaded = true] and [this.loading[i].status = s] *)
Definition mark_loaded (i : nat) (p : Page) : Page :=
  with_steps (alter (fun s => mkStep (step_name s) true (status s)) i (steps p)) p.
Definition mark_status (i : nat) (st : StepStatus) (p : Page) : Page :=
  with_steps (alter (fun s => mkStep (step_name s) (loaded s) st) i (steps p)) p.

Definition status_at (i : nat) (p : Page) : option StepStatus := status <$> steps p !! i.

Definition advanceProgressFor2ndStep (p : Page) : Page :=
  let p' := set_timer (Second 0) p in
  with_intervals (Some (next_id p)) (thirdStepInterval p') p'.

(** The loop of [advanceProgressFor3rdStep] from its [i]-th turn: a wait, or
    the interval of the third step. *)
Definition third_loop (current : Q) (i : nat) (p : Page) : Page :=
  let target := inject_Z (pct1 p + pct2 p - 1) in
  if Qle_bool (target - current) (inject_Z (Z.of_nat i))
  then let p' := set_timer (Third 0) p in
       with_intervals (secondStepInterval p') (Some (next_id p)) p'
  else set_timer (Fast current i) p.

Definition advanceProgressFor3rdStep (p : Page) : Page := third_loop (progress p) 0 p.

Definition goToEndProgress (p : Page) : Page := set_timer (End (progress p)) p.

Definition checkWebNodeProgress (st : NodeState) (p : Page) : Page :=
  match st with
  | Empty => p
  | Loaded =>
    let p := updateLoadingMessage "~5 seconds left" p in
    let p := set_timer (Warn 1) p in
    let p := mark_status 1 LOADING (mark_status 0 DONE (mark_loaded 0 p)) in
    advanceProgressFor2ndStep p
  | Started =>
    let p := updateLoadingMessage "~3 seconds left" p in
    let p := set_timer (Warn 2) p in
    let p := clearInterval (secondStepInterval p) p in
    let p := mark_loaded 1 (mark_loaded 0 p) in
    let p := mark_status 2 LOADING (mark_status 1 DONE (mark_status 0 DONE p)) in
    advanceProgressFor3rdStep p
  | Connected =>
    let p := updateLoadingMessage "Web Node is ready" p in
    let p := clearInterval (thirdStepInterval p) p in
    let p := mark_status 2 DONE (mark_status 1 DONE (mark_status 0 DONE p)) in
    let p := with_steps ((fun s => mkStep (step_name s) true (status s)) <$> steps p) p in
    goToEndProgress p
  end.

(** The callback of the timer [i], if it is still set. *)
Definition fire (i : nat) (p : Page) : Page :=
  match timers p !! i with
  | None => p
  | Some (Second q) =>
    if Qle_bool (inject_Z (pct2 p - 1)) q then p
    else let q := (q + (1 # 8))%Q in
         updateProgressBar (inject_Z (pct1 p) + q)
           (with_timers (<[i := Second q]> (timers p)) p)
  | Some (Fast current k) =>
    let p := with_timers (delete i (timers p)) p in
    third_loop current (S k) (updateProgressBar (current + inject_Z (Z.of_nat k)) p)
  | Some (Third q) =>
    if Qle_bool (inject_Z (pct3 p - 1)) q then p
    else let q := (q + (1 # 8))%Q in
         updateProgressBar (inject_Z (pct1 p + pct2 p) + q)
           (with_timers (<[i := Third q]> (timers p)) p)
  | Some (End q) =>
    if Qle_bool q 100
    then let q := (q + 1)%Q in
         updateProgressBar q (with_timers (<[i := End q]> (timers p)) p)
    else clearInterval (Some i) p
  | Some (Warn k) =>
    let p := with_timers (delete i (timers p)) p in
    if negb (hasError p) && negb (bool_decide (status_at k p = Some DONE))
    then with_warn (updateLoadingMessage "Slower than usual" p) else p
  end.

(** [listenToErrorIssuing] *)
Definition onError (e : string) (p : Page) : Page :=
  if truthy_str e then with_error e p else p.

(** [fetchProgress], the bar being built. *)
Definition fetchProgress (e : Emission) (p : Page) : Page :=
  updateProgressBar (em_progress e * inject_Z (pct1 p) / 100) p.

Inductive Event :=
| OnState (st : NodeState)
| OnTimer (i : nat)
| OnDownload (e : Emission)
| OnError (e : string).

Definition page_step (p : Page) (e : Event) : Page :=
  match e with
  | OnState st => checkWebNodeProgress st p
  | OnTimer i => fire i p
  | OnDownload em => fetchProgress em p
  | OnError msg => onError msg p
  end.

Definition run_page (p : Page) (es : list Event) : Page := fold_left page_step es p.

(** A visit of the page.  When the node has been loaded before, [ngOnInit] returns
    before it subscribes to anything. *)
Definition visit (noBlockProduction isWebNodeLoaded : bool) (r1 r2 : Z) (es : list Event) : Page :=
  let p := ngOnInit noBlockProduction isWebNodeLoaded r1 r2 in
  if isWebNodeLoaded then p else run_page p es.

(** [goToDashboard] navigates only when the node is ready. *)
Definition goToDashboard (firstFeature : string) (p : Page) : option string :=
  if ready p then Some firstFeature else None.


(** ** What holds in every state of the page *)

Definition fractions (p : Page) : Prop :=
  65 <= pct1 p <= 79 /\ 15 <= pct2 p <= 16 /\ pct3 p = 100 - pct1 p - pct2 p.

(** The variables of a timer; the run to the end exists once [conn]. *)
Definition timer_ok (conn : bool) (fs : Z * Z * Z) (t : Timer) : Prop :=
  match t with
  | Second q => (0 <= q <= inject_Z (fs.1.2 - 1) + (1 # 8))%Q
  | Fast c k => (0 <= c)%Q /\ (c + inject_Z (Z.of_nat k) < inject_Z (fs.1.1 + fs.1.2 - 1))%Q
  | Third q => (0 <= q <= inject_Z (fs.2 - 1) + (1 # 8))%Q
  | End q => conn = true /\ (0 <= q)%Q
  | Warn _ => True
  end.

(** The identifiers the component remembers belong to timers of the past. *)
Definition ids_past (p : Page) : Prop :=
  forall i, secondStepInterval p = Some i \/ thirdStepInterval p = Some i -> (i < next_id p)%nat.

Record page_inv (conn : bool) (p : Page) : Prop := {
  pi_fractions : fractions p;
  pi_timers : map_Forall (fun _ => timer_ok conn (stepsPercentages p)) (timers p);
  pi_bar : (0 <= progress p <= 100)%Q;
  pi_full : (100 <= progress p)%Q -> ready p = true;
  pi_ready : ready p = true -> conn = true;
  pi_ids : ids_past p
}.

Lemma page_inv_weaken c p : page_inv c p -> page_inv true p.
Proof.
  intros []. split; try done. intros i t Hi. specialize (pi_timers0 i t Hi). destruct t; cbn in *; tauto.
Qed.

(** The fields the invariant reads. *)
Lemma page_inv_same c p p' : page_inv c p ->
  stepsPercentages p' = stepsPercentages p -> timers p' ⊆ timers p ->
  progress p' = progress p -> ready p' = ready p -> (ids_past p -> ids_past p') -> page_inv c p'.
Proof.
  intros [] Hs Ht Hp Hr Hi. split; rewrite ?Hp, ?Hr, ?Hs; auto.
  - unfold fractions, pct1, pct2, pct3 in *. by rewrite Hs.
  - intros j t Hj. apply (pi_timers0 j t). by eapply lookup_weaken.
Qed.

Lemma update_inv c q p : page_inv c p -> (0 <= q)%Q -> (c = false -> (q < 100)%Q) ->
  page_inv c (updateProgressBar q p).
Proof.
  intros [] Hq Hlt. unfold updateProgressBar. destruct (Qle_bool 100 q) eqn:E.
  - apply Qle_bool_iff in E. split; cbn; try done. intros _. destruct c; [done|].
    specialize (Hlt eq_refl). exfalso. lra.
  - assert (~ (100 <= q)%Q) by (rewrite <- Qle_bool_iff; congruence).
    split; cbn; try done. lra.
Qed.

Lemma set_timer_inv c t p : page_inv c p -> timer_ok c (stepsPercentages p) t ->
  page_inv c (set_timer t p).
Proof.
  intros [] Ht. split; cbn; try done; [by apply map_Forall_insert_2|].
  intros i Hi. specialize (pi_ids0 i Hi). cbn. lia.
Qed.

Lemma set_interval_inv c t p s th : page_inv c p -> timer_ok c (stepsPercentages p) t ->
  (s = secondStepInterval p \/ s = Some (next_id p)) ->
  (th = thirdStepInterval p \/ th = Some (next_id p)) ->
  page_inv c (with_intervals s th (set_timer t p)).
Proof.
  intros H Ht Hs Hth. apply (page_inv_same c (set_timer t p)); try done; [by apply set_timer_inv|].
  intros _ i Hi. cbn in *. pose proof (pi_ids c p H i). naive_solver lia.
Qed.

Lemma replace_timer_inv c i t p : page_inv c p -> timer_ok c (stepsPercentages p) t ->
  page_inv c (with_timers (<[i:=t]> (timers p)) p).
Proof. intros [] Ht. split; cbn; try done. by apply map_Forall_insert_2. Qed.

Lemma clear_inv c i p : page_inv c p -> page_inv c (clearInterval i p).
Proof.
  intros H. destruct i as [i|]; [|done].
  apply (page_inv_same c p); try done. apply delete_subseteq.
Qed.

Lemma message_inv c m p : page_inv c p -> page_inv c (updateLoadingMessage m p).
Proof.
  intros H. unfold updateLoadingMessage. destruct (_ || _); [done|].
  by apply (page_inv_same c p).
Qed.

Lemma third_loop_inv c current i p : page_inv c p -> (0 <= current)%Q ->
  page_inv c (third_loop current i p).
Proof.
  intros H Hc. unfold third_loop. destruct (Qle_bool _ _) eqn:E.
  - apply set_interval_inv; [done| |by left|by right].
    destruct H as [(H1 & H2 & H3) _ _ _ _ _]. unfold pct1, pct2, pct3 in *.
    unfold timer_ok. assert (0 <= (stepsPercentages p).2 - 1) as H0 by lia.
    rewrite Zle_Qle in H0. change (inject_Z 0) with 0%Q in H0. lra.
  - assert (Hlt : ~ (inject_Z (pct1 p + pct2 p - 1) - current <= inject_Z (Z.of_nat i))%Q)
      by (rewrite <- Qle_bool_iff; congruence).
    apply set_timer_inv; [done|]. split; [done|]. unfold pct1, pct2 in Hlt. lra.
Qed.

Ltac same_page p := apply (page_inv_same _ p); [|done..].

Lemma state_inv c st p : page_inv c p ->
  page_inv (c || match st with Connected => true | _ => false end) (checkWebNodeProgress st p).
Proof.
  intros H. destruct st; cbn [checkWebNodeProgress]; rewrite ?orb_false_r, ?orb_true_r; [done|..].
  - set (q := set_timer _ _). assert (Hq : page_inv c q) by (apply set_timer_inv; [by apply message_inv|exact I]).
    unfold advanceProgressFor2ndStep. cbn zeta.
    apply set_interval_inv; [by same_page q| |by right|by left]. destruct H as [(H1 & H2 & H3) _ _ _ _ _].
    unfold pct2 in H2. unfold timer_ok. assert (0 <= (stepsPercentages p).1.2 - 1) as H0 by lia.
    rewrite Zle_Qle in H0. change (inject_Z 0) with 0%Q in H0. unfold q, updateLoadingMessage.
    destruct (_ || _); cbn [stepsPercentages mark_status mark_loaded with_steps set_timer with_message]; lra.
  - set (q := set_timer _ _). assert (Hq : page_inv c q) by (apply set_timer_inv; [by apply message_inv|exact I]).
    set (r := clearInterval _ _). assert (Hr : page_inv c r) by by apply clear_inv.
    apply third_loop_inv; [by same_page r|]. apply (pi_bar c r Hr).
  - set (q := updateLoadingMessage _ _). assert (Hq : page_inv true q)
      by (eapply page_inv_weaken; by apply message_inv).
    set (r := clearInterval _ _). assert (Hr : page_inv true r) by by apply clear_inv.
    apply set_timer_inv; [by same_page r|]. split; [done|]. apply (pi_bar true r Hr).
Qed.

Lemma Qle_bool_false x y : Qle_bool x y = false -> (y < x)%Q.
Proof.
  intros H. apply Qnot_le_lt. rewrite <- Qle_bool_iff. congruence.
Qed.

(** One more eighth stays below a bound that had not been reached. *)
Lemma eighth_ok (q b : Q) : (0 <= q)%Q -> Qle_bool b q = false ->
  (0 <= q + (1 # 8) <= b + (1 # 8))%Q.
Proof. intros Hq H%Qle_bool_false. lra. Qed.

Lemma fire_inv c i p : page_inv c p -> page_inv c (fire i p).
Proof.
  intros H. unfold fire. destruct (timers p !! i) as [t|] eqn:Hi; [|done].
  pose proof (pi_timers c p H i t Hi) as Ht.
  destruct (pi_fractions c p H) as (H1 & H2 & H3). unfold pct1, pct2, pct3 in *.
  destruct t as [q|cur k|q|q|k]; cbn [timer_ok] in Ht.
  - destruct (Qle_bool _ q) eqn:E; [done|]. apply eighth_ok in E; [|apply Ht].
    assert (H4 : (stepsPercentages p).1.1 + ((stepsPercentages p).1.2 - 1) <= 94) by lia.
    rewrite Zle_Qle, inject_Z_plus in H4. change (inject_Z 94) with 94%Q in H4.
    assert (H5 : 0 <= (stepsPercentages p).1.1) by lia. rewrite Zle_Qle in H5.
    change (inject_Z 0) with 0%Q in H5.
    apply update_inv; [by apply replace_timer_inv|lra|intros _; lra].
  - destruct Ht as [Hc Hk]. apply third_loop_inv; [|done].
    assert (0 <= Z.of_nat k) as Hk0 by lia. rewrite Zle_Qle in Hk0.
    change (inject_Z 0) with 0%Q in Hk0.
    assert (H4 : (stepsPercentages p).1.1 + (stepsPercentages p).1.2 - 1 <= 94) by lia.
    rewrite Zle_Qle in H4. change (inject_Z 94) with 94%Q in H4.
    apply update_inv; [by apply (clear_inv c (Some i))|lra|intros _; lra].
  - destruct (Qle_bool _ q) eqn:E; [done|]. apply eighth_ok in E; [|apply Ht].
    assert (H4 : (stepsPercentages p).1.1 + (stepsPercentages p).1.2 +
                 ((stepsPercentages p).2 - 1) <= 99) by lia.
    rewrite Zle_Qle, inject_Z_plus in H4. change (inject_Z 99) with 99%Q in H4.
    assert (H5 : 0 <= (stepsPercentages p).1.1 + (stepsPercentages p).1.2) by lia.
    rewrite Zle_Qle in H5. change (inject_Z 0) with 0%Q in H5.
    apply update_inv; [by apply replace_timer_inv|lra|intros _; lra].
  - destruct (Qle_bool q 100); [|by apply clear_inv]. destruct Ht as [-> Hq].
    apply update_inv; [apply replace_timer_inv; [done|split; [done|lra]]|lra|done].
  - assert (Hd : page_inv c (with_timers (delete i (timers p)) p)) by by apply (clear_inv c (Some i)).
    destruct (_ && _); [|done]. same_page (updateLoadingMessage "Slower than usual"
      (with_timers (delete i (timers p)) p)). by apply message_inv.
Qed.

Definition event_ok (e : Event) : Prop :=
  match e with OnDownload em => (0 <= em_progress em <= 100)%Q | _ => True end.

Definition connects (e : Event) : bool :=
  match e with OnState Connected => true | _ => false end.

(** What may fill the bar: a connected peer, or a download that is much longer
    than announced. *)
Definition fills (e : Event) : bool :=
  match e with
  | OnState Connected => true
  | OnDownload em => negb (Qle_bool (em_progress em) 126)
  | _ => false
  end.

Definition counted (e : Event) : Prop :=
  match e with OnDownload em => (0 <= em_progress em)%Q | _ => True end.

Lemma step_inv c p e : page_inv c p -> counted e -> page_inv (c || fills e) (page_step p e).
Proof.
  intros H He. destruct e as [st|i|em|msg]; cbn [page_step fills]; rewrite ?orb_false_r.
  - apply (state_inv c st) in H. by destruct st.
  - by apply fire_inv.
  - destruct (pi_fractions c p H) as (H1 & _ & _). cbn in He.
    destruct H1 as [H1 H2]. rewrite Zle_Qle in H1, H2.
    change (inject_Z 65) with 65%Q in H1. change (inject_Z 79) with 79%Q in H2.
    assert (Hb : (0 <= em_progress em * inject_Z (pct1 p) / 100)%Q).
    { unfold Qdiv. change (/ 100)%Q with (1 # 100)%Q. nra. }
    destruct (Qle_bool (em_progress em) 126) eqn:E; cbn [negb].
    + rewrite orb_false_r. apply update_inv; [done|done|]. intros _. apply Qle_bool_iff in E.
      unfold Qdiv. change (/ 100)%Q with (1 # 100)%Q. nra.
    + rewrite orb_true_r. apply update_inv; [by eapply page_inv_weaken|done|done].
  - unfold onError. destruct (truthy_str msg); [|done]. by same_page p.
Qed.

Lemma run_counted c p es : page_inv c p -> Forall counted es ->
  page_inv (c || existsb fills es) (run_page p es).
Proof.
  revert c p. induction es as [|e es IH]; intros c p H Hok; cbn [run_page fold_left existsb].
  { by rewrite orb_false_r. }
  apply Forall_cons in Hok as [He Hok]. rewrite orb_assoc. apply IH; [|done]. by apply step_inv.
Qed.

Lemma ok_fills es : Forall event_ok es -> Forall counted es /\ existsb fills es = existsb connects es.
Proof.
  induction 1 as [|e es He _ [IH1 IH2]]; [done|]. cbn [existsb]. rewrite IH2.
  destruct e as [[]|i|em|m]; try (by split; [constructor|]). cbn in He.
  split; [constructor; [apply He|done]|]. cbn [fills connects].
  replace (Qle_bool (em_progress em) 126) with true; [done|]. symmetry. apply Qle_bool_iff. lra.
Qed.

Lemma run_inv c p es : page_inv c p -> Forall event_ok es ->
  page_inv (c || existsb connects es) (run_page p es).
Proof. intros H [Hc <-]%ok_fills. by apply run_counted. Qed.

Lemma init_inv nbp r1 r2 : 0 <= r1 < 15 -> 0 <= r2 < 2 -> page_inv false (ngOnInit nbp false r1 r2).
Proof.
  intros H1 H2. split; cbn; [|by apply map_Forall_empty|lra|intros; exfalso; lra|done|by intros i [|]].
  unfold fractions, pct1, pct2, pct3. cbn. lia.
Qed.

(** ** The run to the end *)

(** The timer [i] is no longer, or not yet, one the component may clear. *)
Definition safe (i : nat) (p : Page) : Prop :=
  (i < next_id p)%nat /\ secondStepInterval p <> Some i /\ thirdStepInterval p <> Some i.

(** A change of the page that leaves the timer [i] alone. *)
Definition keeps (i : nat) (p p' : Page) : Prop :=
  safe i p -> safe i p' /\ timers p' !! i = timers p !! i /\ (ready p = true -> ready p' = true).

Lemma keeps_refl i p : keeps i p p.
Proof. by intros. Qed.

Lemma keeps_trans i p q r : keeps i p q -> keeps i q r -> keeps i p r.
Proof.
  intros H1 H2 Hs. destruct (H1 Hs) as (Hs1 & Ht1 & Hr1).
  destruct (H2 Hs1) as (Hs2 & Ht2 & Hr2). split; [done|]. split; [congruence|auto].
Qed.

Lemma keeps_message i m p : keeps i p (updateLoadingMessage m p).
Proof. unfold updateLoadingMessage. by destruct (_ || _). Qed.

Lemma keeps_steps i l p : keeps i p (with_steps l p).
Proof. done. Qed.

Lemma keeps_warn i p : keeps i p (with_warn p).
Proof. done. Qed.

Lemma keeps_update i q p : keeps i p (updateProgressBar q p).
Proof. unfold updateProgressBar. by destruct (Qle_bool _ _). Qed.

Lemma keeps_set i t p : keeps i p (set_timer t p).
Proof.
  intros (Hi & H2 & H3). split; [split; cbn; [lia|done]|]. split; [|done].
  cbn. apply lookup_insert_ne. lia.
Qed.

Lemma keeps_intervals i p t (s : option nat) (th : option nat) :
  (s = secondStepInterval p \/ s = Some (next_id p)) ->
  (th = thirdStepInterval p \/ th = Some (next_id p)) ->
  keeps i p (with_intervals s th (set_timer t p)).
Proof.
  intros Hs Ht Hsafe. destruct (keeps_set i t p Hsafe) as ((H1 & H2 & H3) & H4 & H5).
  destruct Hsafe as (Hi & Hn2 & Hn3). split; [split; [done|split; cbn]|done].
  - destruct Hs as [->| ->]; [done|]. intros [= <-]. lia.
  - destruct Ht as [->| ->]; [done|]. intros [= <-]. lia.
Qed.

Lemma keeps_clear i j p : j <> Some i -> keeps i p (clearInterval j p).
Proof.
  intros Hj. destruct j as [j|]; [|done]. intros Hs. split; [done|]. split; [|done].
  cbn. apply lookup_delete_ne. congruence.
Qed.

Lemma keeps_clear_second i p : keeps i p (clearInterval (secondStepInterval p) p).
Proof. intros Hs. by apply keeps_clear; [apply Hs|]. Qed.

Lemma keeps_clear_third i p : keeps i p (clearInterval (thirdStepInterval p) p).
Proof. intros Hs. by apply keeps_clear; [apply Hs|]. Qed.

Lemma keeps_replace i j t p : i <> j -> keeps i p (with_timers (<[j:=t]> (timers p)) p).
Proof. intros Hj Hs. split; [done|]. split; [|done]. cbn. by apply lookup_insert_ne. Qed.

Lemma keeps_third_loop i c k p : keeps i p (third_loop c k p).
Proof.
  unfold third_loop. destruct (Qle_bool _ _); [|apply keeps_set].
  apply keeps_intervals; [by left|by right].
Qed.

Lemma keeps_second i p : keeps i p (advanceProgressFor2ndStep p).
Proof. apply keeps_intervals; [by right|by left]. Qed.

(** Peel the outermost change. *)
Ltac keeps_peel :=
  repeat first
    [ exact (keeps_refl _ _)
    | refine (keeps_trans _ _ _ _ _ (keeps_second _ _))
    | refine (keeps_trans _ _ _ _ _ (keeps_third_loop _ _ _ _))
    | refine (keeps_trans _ _ _ _ _ (keeps_clear_second _ _))
    | refine (keeps_trans _ _ _ _ _ (keeps_clear_third _ _))
    | refine (keeps_trans _ _ _ _ _ (keeps_message _ _ _))
    | refine (keeps_trans _ _ _ _ _ (keeps_set _ _ _))
    | refine (keeps_trans _ _ _ _ _ (keeps_steps _ _ _)) ].

Lemma keeps_state i st p : keeps i p (checkWebNodeProgress st p).
Proof.
  destruct st; cbn [checkWebNodeProgress]; cbn zeta;
    unfold mark_status, mark_loaded, advanceProgressFor3rdStep, goToEndProgress; keeps_peel.
Qed.

Lemma keeps_fire i j p : i <> j -> keeps i p (fire j p).
Proof.
  intros Hj. assert (Hd : keeps i p (with_timers (delete j (timers p)) p))
    by (apply (keeps_clear i (Some j)); congruence).
  unfold fire. destruct (timers p !! j) as [[q|c k|q|q|k]|]; [..|apply keeps_refl].
  - destruct (Qle_bool _ _); [apply keeps_refl|].
    eapply keeps_trans; [|apply keeps_update]. by apply keeps_replace.
  - cbn zeta. eapply keeps_trans; [|apply keeps_third_loop].
    eapply keeps_trans; [|apply keeps_update]. done.
  - destruct (Qle_bool _ _); [apply keeps_refl|].
    eapply keeps_trans; [|apply keeps_update]. by apply keeps_replace.
  - destruct (Qle_bool _ _); [|done].
    eapply keeps_trans; [|apply keeps_update]. by apply keeps_replace.
  - cbn zeta. destruct (_ && _); [|done].
    eapply keeps_trans; [|apply keeps_warn]. eapply keeps_trans; [|apply keeps_message]. done.
Qed.

Definition fires (i : nat) (e : Event) : bool :=
  match e with OnTimer j => Nat.eqb i j | _ => false end.

Lemma keeps_event i e p : fires i e = false -> keeps i p (page_step p e).
Proof.
  intros Hf. destruct e as [st|j|em|msg]; cbn [page_step].
  - apply keeps_state.
  - apply keeps_fire. by apply Nat.eqb_neq.
  - apply keeps_update.
  - unfold onError. by destruct (truthy_str msg).
Qed.

(** After [k] firings of the run to the end the bar has been filled, or the
    run has come [k] percent further. *)
Definition running (i : nat) (k : nat) (p : Page) : Prop :=
  safe i p /\ (ready p = true \/
    exists q, timers p !! i = Some (End q) /\ (inject_Z (Z.of_nat k) <= q < 100)%Q).

Lemma running_fire i k p : running i k p -> running i (S k) (fire i p).
Proof.
  intros [Hs Hor]. unfold fire. destruct Hor as [Hr|(q & Hq & Hk & Hlt)].
  - split; [|left]; destruct (timers p !! i) as [[q|c j|q|q|j]|]; try done.
    all: unfold updateLoadingMessage, updateProgressBar, third_loop, clearInterval in *.
    all: repeat case_match; try done.
    all: destruct Hs as (? & ? & ?); repeat split; cbn in *; try done; try lia; intros [=]; lia.
  - rewrite Hq. assert (Qle_bool q 100 = true) as -> by (apply Qle_bool_iff; lra).
    destruct (keeps_update i (q + 1) (with_timers (<[i:=End (q + 1)]> (timers p)) p) Hs)
      as (Hs' & Ht & _). split; [done|].
    unfold updateProgressBar in *. destruct (Qle_bool 100 (q + 1)) eqn:E; [by left|right].
    apply Qle_bool_false in E. exists (q + 1)%Q. cbn. rewrite lookup_insert_eq.
    split; [done|]. rewrite Nat2Z.inj_succ, <- Z.add_1_r, inject_Z_plus.
    change (inject_Z 1) with 1%Q. lra.
Qed.

Lemma running_other i k p e : fires i e = false -> running i k p -> running i k (page_step p e).
Proof.
  intros Hf [Hs Hor]. destruct (keeps_event i e p Hf Hs) as (Hs' & Ht & Hr).
  split; [done|]. rewrite Ht. tauto.
Qed.

Lemma running_run i k p es : running i k p ->
  running i (k + count_if (fires i) es) (run_page p es).
Proof.
  revert k p. induction es as [|e es IH]; intros k p H; cbn [run_page fold_left].
  { by rewrite Nat.add_0_r. }
  rewrite count_if_cons. destruct (fires i e) eqn:E.
  - replace (k + _)%nat with (S k + count_if (fires i) es)%nat by lia.
    apply IH. destruct e as [|j| |]; try done. apply Nat.eqb_eq in E as <-. by apply running_fire.
  - replace (k + _)%nat with (k + count_if (fires i) es)%nat by lia. by apply IH, running_other.
Qed.

Lemma connected_running c p : page_inv c p ->
  running (next_id p) 0 (page_step p (OnState Connected)).
Proof.
  intros H. cbn [page_step checkWebNodeProgress]. cbn zeta. unfold goToEndProgress.
  set (q := clearInterval _ _).
  assert (Hq : next_id q = next_id p /\ secondStepInterval q = secondStepInterval p /\
               thirdStepInterval q = thirdStepInterval p /\ progress q = progress p /\
               ready q = ready p).
  { unfold q, updateLoadingMessage. destruct (_ || _), (thirdStepInterval p) eqn:E;
      cbn; rewrite ?E; done. }
  destruct Hq as (Hn & H2 & H3 & Hp & Hr). pose proof (pi_ids c p H (next_id p)) as Hids.
  split.
  - split; [cbn; lia|]. split; cbn; rewrite ?H2, ?H3; intros E; rewrite E in Hids;
      specialize (Hids ltac:(auto)); lia.
  - cbn. rewrite Hr. destruct (ready p) eqn:Er; [by left|right]. exists (progress q).
    rewrite Hn, lookup_insert_eq. split; [done|]. rewrite Hp. split; [apply (pi_bar c p H)|].
    apply Qnot_le_lt. intros Hf. by rewrite (pi_full c p H Hf) in Er.
Qed.

(** ** The download *)

Fixpoint bytes (reads : list Read) : Z :=
  match reads with
  | Chunk n :: reads' => n + bytes reads'
  | _ => 0
  end.

Definition read_ok (r : Read) : Prop := match r with Chunk n => 0 <= n | _ => True end.

Lemma bytes_nonneg reads : Forall read_ok reads -> 0 <= bytes reads.
Proof. induction 1 as [|[n| |] l H _ IH]; cbn in *; lia. Qed.

Lemma percent_range n : 0 <= n <= WASM_FILE_SIZE -> (0 <= percent n <= 100)%Q.
Proof.
  intros [H1 H2]. unfold percent, Qdiv. rewrite Zle_Qle in H1, H2.
  change (inject_Z 0) with 0%Q in H1.
  change (inject_Z WASM_FILE_SIZE) with 31556926%Q in *.
  change (/ 31556926)%Q with (1 # 31556926)%Q. lra.
Qed.

Lemma percent_downloaded n : (percent n * inject_Z WASM_FILE_SIZE / 100 == inject_Z n)%Q.
Proof.
  unfold percent, Qdiv. change (inject_Z WASM_FILE_SIZE) with 31556926%Q.
  change (/ 31556926)%Q with (1 # 31556926)%Q. change (/ 100)%Q with (1 # 100)%Q. ring.
Qed.

Lemma toFixed2_range x : (0 <= x <= 100)%Q -> (0 <= toFixed2 x <= 100)%Q.
Proof.
  intros [H1 H2]. unfold toFixed2.
  assert (Hlo : 0 <= Qfloor (x * 100 + (1 # 2))).
  { change 0 with (Qfloor 0). apply Qfloor_resp_le. lra. }
  assert (Hhi : Qfloor (x * 100 + (1 # 2)) <= 10000).
  { change 10000 with (Qfloor (10000 + (1 # 2))). apply Qfloor_resp_le. lra. }
  rewrite Zle_Qle in Hlo, Hhi. change (inject_Z 0) with 0%Q in Hlo.
  change (inject_Z 10000) with 10000%Q in Hhi.
  unfold Qdiv. change (/ 100)%Q with (1 # 100)%Q. lra.
Qed.

Lemma read_loop_range reads received progress : Forall read_ok reads -> 0 <= received ->
  received + bytes reads <= WASM_FILE_SIZE -> (0 <= progress <= 100)%Q ->
  Forall (fun e => (0 <= em_progress e <= 100)%Q) (fst (read_loop reads received progress)).
Proof.
  intros Hok. revert received progress.
  induction Hok as [|r reads Hr Hok IH]; intros received progress H0 Hle Hp; [constructor|].
  pose proof (bytes_nonneg reads Hok). destruct r as [n| |]; cbn [read_loop bytes read_ok] in *.
  - assert (Hn : (0 <= percent (received + n) <= 100)%Q) by (apply percent_range; lia).
    specialize (IH (received + n) (percent (received + n)) ltac:(lia) ltac:(lia) Hn).
    destruct (read_loop reads _ _) as [out ok]. constructor; [|done]. by apply toFixed2_range.
  - repeat constructor; by apply toFixed2_range.
  - repeat constructor; by apply toFixed2_range.
Qed.

(** What the monitor publishes for a file that is not longer than announced. *)
Definition monitored (e : Emission) : Prop :=
  exists answered reads, Forall read_ok reads /\ bytes reads <= WASM_FILE_SIZE /\
    e ∈ fst (monitored_fetch answered reads).

Lemma monitored_range e : monitored e -> (0 <= em_progress e <= 100)%Q.
Proof.
  intros (answered & reads & Hok & Hb & He). unfold monitored_fetch in He.
  assert (Hf : (0 <= em_progress (emitProgress 0 StatusPending) <= 100)%Q)
    by (apply toFixed2_range; lra).
  destruct answered.
  - pose proof (read_loop_range reads 0 0 Hok ltac:(lia) ltac:(lia) ltac:(lra)) as Hr.
    destruct (read_loop reads 0 0) as [out ok]. cbn in *.
    apply elem_of_cons in He as [->|He]; [done|]. by apply (proj1 (Forall_forall _ _) Hr).
  - cbn in He. apply elem_of_cons in He as [->|He]; [done|].
    apply list_elem_of_singleton in He as ->. done.
Qed.

(** What the monitor publishes for any file: a percentage of the announced size. *)
Definition published (e : Emission) : Prop :=
  exists answered reads, Forall read_ok reads /\ e ∈ fst (monitored_fetch answered reads).

Lemma percent_nonneg n : 0 <= n -> (0 <= percent n)%Q.
Proof.
  intros H. unfold percent, Qdiv. rewrite Zle_Qle in H. change (inject_Z 0) with 0%Q in H.
  change (inject_Z WASM_FILE_SIZE) with 31556926%Q. change (/ 31556926)%Q with (1 # 31556926)%Q. lra.
Qed.

Definition emitted (e : Emission) : Prop := exists x st, (0 <= x)%Q /\ e = emitProgress x st.

Lemma read_loop_emitted reads received progress : Forall read_ok reads -> 0 <= received ->
  (0 <= progress)%Q -> Forall emitted (fst (read_loop reads received progress)).
Proof.
  intros Hok. revert received progress.
  induction Hok as [|r reads Hr Hok IH]; intros received progress H0 Hp; [constructor|].
  destruct r as [n| |]; cbn [read_loop read_ok] in *.
  - assert (Hn : (0 <= percent (received + n))%Q) by (apply percent_nonneg; lia).
    specialize (IH (received + n) (percent (received + n)) ltac:(lia) Hn).
    destruct (read_loop reads _ _) as [out ok]. constructor; [|done]. by eexists _, _.
  - repeat constructor; by eexists _, _.
  - repeat constructor; by eexists _, _.
Qed.

Lemma published_emitted e : published e -> emitted e.
Proof.
  intros (answered & reads & Hok & He). unfold monitored_fetch in He.
  assert (Hf : forall st, emitted (emitProgress 0 st)) by (intros st; eexists _, _; split; [|done]; lra).
  destruct answered.
  - pose proof (read_loop_emitted reads 0 0 Hok ltac:(lia) ltac:(lra)) as Hr.
    destruct (read_loop reads 0 0) as [out ok]. cbn in *.
    apply elem_of_cons in He as [->|He]; [done|]. by apply (proj1 (Forall_forall _ _) Hr).
  - cbn in He. apply elem_of_cons in He as [->|He]; [done|].
    apply list_elem_of_singleton in He as ->. done.
Qed.

(** Rounding to hundredths keeps the sign and adds at most half of one. *)
Lemma toFixed2_near x : (0 <= x)%Q -> (0 <= toFixed2 x <= x + (1 # 200))%Q.
Proof.
  intros H. unfold toFixed2. pose proof (Qfloor_le (x * 100 + (1 # 2))) as Hf.
  assert (Hlo : 0 <= Qfloor (x * 100 + (1 # 2))).
  { change 0 with (Qfloor 0). apply Qfloor_resp_le. lra. }
  rewrite Zle_Qle in Hlo. change (inject_Z 0) with 0%Q in Hlo.
  unfold Qdiv. change (/ 100)%Q with (1 # 100)%Q. lra.
Qed.

Lemma emitted_counted e : emitted e ->
  (0 <= em_progress e)%Q /\
  ((126 < em_progress e)%Q -> ((5 # 4) * inject_Z WASM_FILE_SIZE < em_downloaded e)%Q).
Proof.
  intros (x & st & H & ->). cbn [em_progress em_downloaded emitProgress].
  pose proof (toFixed2_near x H) as [H1 H2]. split; [done|]. intros H3.
  change (inject_Z WASM_FILE_SIZE) with 31556926%Q. unfold Qdiv. change (/ 100)%Q with (1 # 100)%Q. lra.
Qed.

Lemma read_loop_done ls received progress :
  exists out, read_loop ((Chunk <$> ls) ++ [Done]) received progress =
    (out ++ [emitProgress (if decide (ls = []) then progress else percent (received + sumZ ls))
               StatusComplete], true) /\
    length out = length ls /\ Forall (fun e => em_status e = StatusPending) out.
Proof.
  revert received progress. induction ls as [|n ls IH]; intros received progress.
  { exists []. by cbn. }
  cbn [fmap list_fmap app read_loop].
  destruct (IH (received + n) (percent (received + n))) as (out & -> & Hlen & Hf).
  exists (emitProgress (percent (received + n)) StatusPending :: out).
  split; [|split; [cbn; lia|by constructor]]. rewrite sumZ_cons, Z.add_assoc.
  destruct (decide (n :: ls = [])) as [|_]; [done|].
  destruct (decide (ls = [])) as [->|]; [|done].
  change (sumZ []) with 0. by rewrite Z.add_0_r.
Qed.

(** A download that succeeds is announced, followed chunk by chunk and
    declared complete with the number of bytes received. *)
Lemma download_completes ls : ls <> [] ->
  exists out e, monitored_fetch true ((Chunk <$> ls) ++ [Done]) = (out ++ [e], true) /\
    length out = S (length ls) /\ Forall (fun e => em_status e = StatusPending) out /\
    em_status e = StatusComplete /\ (em_downloaded e == inject_Z (sumZ ls))%Q.
Proof.
  intros Hne. unfold monitored_fetch.
  destruct (read_loop_done ls 0 0) as (out & -> & Hlen & Hf). rewrite decide_False by done.
  exists (emitProgress 0 StatusPending :: out). eexists. split; [done|].
  split; [cbn; lia|]. split; [by constructor|]. split; [done|]. apply percent_downloaded.
Qed.

(** A read that fails is published as an error twice. *)
Lemma failed_read_published_twice ls : exists out e,
  monitored_fetch true ((Chunk <$> ls) ++ [Failed]) = (out ++ [e; e], false) /\
  em_status e = StatusError.
Proof.
  unfold monitored_fetch.
  assert (H : forall received progress, exists out e,
    read_loop ((Chunk <$> ls) ++ [Failed]) received progress = (out ++ [e; e], false) /\
    em_status e = StatusError).
  { induction ls as [|n ls IH]; intros received progress.
    - by exists [], (emitProgress progress StatusError).
    - cbn [fmap list_fmap app read_loop].
      destruct (IH (received + n) (percent (received + n))) as (out & e & -> & He).
      by exists (emitProgress (percent (received + n)) StatusPending :: out), e. }
  destruct (H 0 0%Q) as (out & e & -> & He). by exists (emitProgress 0 StatusPending :: out), e.
Qed.

(** ** Connected is published once *)

Lemma connected_published_once first answers :
  snd (poll_peers first answers) =
  if negb first && existsb (existsb id) answers then [Connected] else [].
Proof.
  revert first. induction answers as [|a answers IH]; intros first; cbn [poll_peers existsb].
  { by rewrite andb_false_r. }
  unfold on_peers. destruct first; cbn [negb andb].
  - specialize (IH true). by destruct (poll_peers true answers).
  - destruct (existsb id a); cbn [orb].
    + specialize (IH true). destruct (poll_peers true answers) as [f out]. cbn in *. by rewrite IH.
    + specialize (IH false). by destruct (poll_peers false answers) as [f out].
Qed.

(** ** Keys and addresses *)

(** The keys of an uploaded archive are those the node is run with. *)
Lemma uploaded_key_used {J} (parse : string -> result J) u name files pk pw st j origin kp :
  error u = false -> noBlockProduction u = false ->
  List.find (fun f => endsWith ".pub" (file_name f)) files = Some pk ->
  List.find (fun f => string_includes "password" (file_name f)) files = Some pw ->
  List.find (fun f => negb (string_includes "password" (file_name f)) &&
                      negb (endsWith ".pub" (file_name f))) files = Some st ->
  truthy_str (file_content pk) = true -> truthy_str (file_content st) = true ->
  parse (file_content st) = Ok j ->
  exists u', onFileSelected parse name files false u = Ok u' /\ validFiles u' = true /\
    run_key (startWasm origin (privateStake u') (noBlockProduction u') kp) =
    Some (StakeKey j (Some (strip_newlines (file_content pw)))).
Proof.
  intros He Hn Hpk Hpw Hst Hp Hs Hj. unfold onFileSelected. rewrite Hpk, Hpw, Hst, He.
  cbn [fmap option_fmap option_map orb]. rewrite Hp, Hs. cbn [negb]. rewrite Hj.
  eexists; split; [done|]. split; [done|]. cbn. unfold startWasm. by rewrite Hn.
Qed.

(** An archive that failed leaves an error that fails the next one too, until
    the files are cleared. *)
Lemma upload_error_sticks {J} (parse : string -> result J) u name files failed u' :
  error u = true -> onFileSelected parse name files failed u = Ok u' ->
  error u' = true /\ privateStake u' = privateStake u.
Proof.
  intros He. unfold onFileSelected. rewrite He. cbn [orb]. intros H.
  by repeat case_match; simplify_eq/=.
Qed.

(** Every network with a name runs on the seeds of the development network. *)
Lemma network_name_ignored origin a b : urls origin (Named a) = urls origin (Named b).
Proof. done. Qed.

(** ** The page misled *)

(** The node connects while the short waits between the second and the third
    step are running: the last of them sets the interval of the third step,
    which nothing clears, and the full bar moves back. *)
Lemma bar_goes_back :
  let es := [OnState Loaded; OnDownload (mkEmission 100 StatusComplete 0);
             OnState Started; OnState Connected; OnTimer 3] ++
            (OnTimer <$> seq 5 13) ++ replicate 40 (OnTimer 4) ++ replicate 5 (OnTimer 18) in
  let p := run_page (ngOnInit false false 0 0) es in
  ready p = true /\ Qle_bool (progress p) 81 = true.
Proof. by vm_compute. Qed.


(** A step that took long leaves its message when the node is ready. *)
Lemma warning_stays :
  let es := [OnState Loaded; OnTimer 0; OnState Started; OnState Connected] in
  let p := run_page (ngOnInit false false 0 0) es in
  loadingMessage p = "Slower than usual" /\ status_at 2 p = Some DONE.
Proof. by vm_compute. Qed.

(** ** The page tells the truth *)

(** A file that is longer than announced by more than a quarter opens the way to the dashboard
    before any peer is connected. *)
Lemma long_file_opens :
  let out := (monitored_fetch true [Chunk 31556926; Chunk 20000000]).1 in
  goToDashboard "dashboard" (visit false false 0 0 (OnDownload <$> take 2 out)) = None /\
  goToDashboard "dashboard" (visit false false 0 0 (OnDownload <$> out)) = Some "dashboard".
Proof. by vm_compute. Qed.

(** C36: The page offers a node only when it can be there.  On a first visit, whatever the order in
    which the states of the node, the firings of the timers, the steps of downloads of any length
    and the errors arrive, the bar stays between 0 and 100 percent, a full bar opens the way to the
    dashboard, and the way is open only after the node has reported a connected peer or a download
    was longer than the announced size by more than a quarter.  On a visit after the node has been
    loaded the way is open at once, with an empty bar. *)
Theorem bar_honest (nbp isWebNodeLoaded : bool) (r1 r2 : Z) (es : list Event) (feature : string) :
  0 <= r1 < 15 -> 0 <= r2 < 2 ->
  (forall e, OnDownload e ∈ es -> published e) ->
  let p := visit nbp isWebNodeLoaded r1 r2 es in
  (0 <= progress p <= 100)%Q /\
  ((100 <= progress p)%Q -> goToDashboard feature p = Some feature) /\
  (if isWebNodeLoaded
   then goToDashboard feature p = Some feature /\ (progress p == 0)%Q
   else goToDashboard feature p <> None ->
     OnState Connected ∈ es \/
     exists e, OnDownload e ∈ es /\ ((5 # 4) * inject_Z WASM_FILE_SIZE < em_downloaded e)%Q).
Proof.
  intros H1 H2 Hd. unfold visit. destruct isWebNodeLoaded; cbn zeta.
  { cbn. split; [lra|]. split; [done|]. split; [done|lra]. }
  destruct (run_counted false (ngOnInit nbp false r1 r2) es) as [_ _ Hb Hf Hr _].
  - by apply init_inv.
  - apply Forall_forall. intros [st|i|e|m] He; cbn; try done. by apply emitted_counted, published_emitted, Hd.
  - split; [done|]. unfold goToDashboard. split; [by intros ->%Hf|].
    destruct (ready _) eqn:E; [intros _|done]. specialize (Hr eq_refl).
    apply existsb_exists in Hr as (e & He%list_elem_of_In & Hc).
    destruct e as [[]|i|e|m]; try done; [by left|right]. exists e. split; [done|].
    apply emitted_counted; [by apply published_emitted, Hd|]. by apply negb_true_iff, Qle_bool_false in Hc.
Qed.

(** C37: A connected node is eventually offered.  Once the node has reported a
    connected peer, a hundred firings of the interval [goToEndProgress] sets
    make the page ready, however they are interleaved with other timers,
    states, downloads and errors: nothing clears that interval before. *)
Theorem connected_gets_ready (nbp : bool) (r1 r2 : Z) (before after : list Event)
    (feature : string) :
  0 <= r1 < 15 -> 0 <= r2 < 2 ->
  (forall e, OnDownload e ∈ before -> monitored e) ->
  let p := run_page (ngOnInit nbp false r1 r2) before in
  (100 <= count_if (fires (next_id p)) after)%nat ->
  goToDashboard feature (run_page (page_step p (OnState Connected)) after) = Some feature.
Proof.
  intros H1 H2 Hd p Hn.
  assert (Hinv : page_inv (false || existsb connects before) p).
  { apply run_inv; [by apply init_inv|].
    apply Forall_forall. intros [st|i|e|m] He; cbn; try done. by apply monitored_range, Hd. }
  assert (Hrun : running (next_id p) 0 (page_step p (OnState Connected))).
  { by apply connected_running with (false || existsb connects before). }
  apply (running_run _ _ _ after) in Hrun as [_ [Hr|(q & _ & Hk & Hlt)]].
  - unfold goToDashboard. by rewrite Hr.
  - assert (H100 : 100 <= Z.of_nat (0 + count_if (fires (next_id p)) after)) by lia.
    rewrite Zle_Qle in H100. change (inject_Z 100) with 100%Q in H100. exfalso. lra.
Qed.

(** ** Witnesses *)

Lemma bar_honest_witness :
  let p := visit false false 0 0 [OnState Loaded; OnTimer 1; OnDownload (emitProgress (percent 40000000) StatusPending)] in
  (0 <= progress p <= 100)%Q.
Proof.
  apply (bar_honest false false 0 0 [OnState Loaded; OnTimer 1; OnDownload (emitProgress (percent 40000000) StatusPending)] "dashboard"); [lia|lia|].
  intros e He. rewrite list_elem_of_In in He. cbn [In] in He.
  destruct He as [He|[He|[[= <-]|[]]]]; [discriminate|discriminate|].
  exists true, [Chunk 40000000]. split; [by repeat constructor|].
  change (fst (monitored_fetch true [Chunk 40000000])) with
    [emitProgress 0 StatusPending; emitProgress (percent 40000000) StatusPending].
  right. left.
Defined.

Lemma connected_gets_ready_witness :
  goToDashboard "dashboard"
    (run_page (page_step (run_page (ngOnInit false false 0 0) []) (OnState Connected))
       (replicate 100 (OnTimer 0))) = Some "dashboard".
Proof.
  apply (connected_gets_ready false 0 0 [] (replicate 100 (OnTimer 0)) "dashboard"); [lia|lia| |].
  - intros e He. rewrite list_elem_of_In in He. destruct He.
  - vm_compute. lia.
Defined.

End WebNode.
