(* ===== verification/Layout.v ===== *)
(** * The frame around the pages

    Models the components of [src/frontend/src/app/layout] that decide
    something: the form that adds a node ([new-node]), the node picker
    ([node-picker]), the menu and its tabs ([menu], [menu-tabs],
    [submenu-tabs]), the list of errors ([error-preview]) and the online mark
    ([server-status]).  They read the configuration and the store of
    [AppStore.v].

    The overlays, animations and templates are browser code; what a component
    dispatches is an action of the application store. *)

From Stdlib Require Import ZArith Lia Ascii.
From stdpp Require Import base gmap strings list.
From S2P Require Import Prelude SharedLib AppStore.

Module Layout.

(** ** The form that adds a node *)

Record SubFeature := mkSub { sf_name : string; sf_checked : bool }.

Record Feature := mkFeature {
  f_name : string; f_checked : bool; subFeatures : list SubFeature
}.

Definition form_features : list Feature :=
  let checked := fun n => mkSub n true in
  [mkFeature "Dashboard" true [];
   mkFeature "Nodes" true (checked <$> ["overview"; "live"; "bootstrap"]);
   mkFeature "State" true (checked <$> ["actions"]);
   mkFeature "Network" true
     (checked <$> ["messages"; "connections"; "blocks"; "topology"; "node DHT";
                   "graph overview"; "bootstrap stats"]);
   mkFeature "Snarks" true (checked <$> ["scan state"; "work pool"]);
   mkFeature "Resources" true (checked <$> ["memory"]);
   mkFeature "Mempool" true [];
   mkFeature "Benchmarks" true []].

Definition onFeatureCheck (f : Feature) : Feature :=
  let checked := negb (f_checked f) in
  mkFeature (f_name f) checked ((fun s => mkSub (sf_name s) checked) <$> subFeatures f).

(** [j] is the index of the sub-feature in its feature. *)
Definition onSubFeatureCheck (j : nat) (f : Feature) : Feature :=
  let subs := alter (fun s => mkSub (sf_name s) (negb (sf_checked s))) j (subFeatures f) in
  mkFeature (f_name f) (existsb sf_checked subs) subs.

(** A click on the box of a feature or of one of its sub-features. *)
Inductive Click := OnFeature (i : nat) | OnSubFeature (i j : nat).

Definition click (form : list Feature) (c : Click) : list Feature :=
  match c with
  | OnFeature i => alter onFeatureCheck i form
  | OnSubFeature i j =>
    match form !! i ≫= (fun f => subFeatures f !! j) with
    | Some _ => alter (onSubFeatureCheck j) i form
    | None => form
    end
  end.

Definition clicks (cs : list Click) : list Feature := fold_left click cs form_features.

(** [s.replace(' ', '-')]: the first space. *)
Fixpoint hyphen_first (s : string) : string :=
  match s with
  | EmptyString => EmptyString
  | String c s' => if Ascii.eqb c " " then String "-" s' else String c (hyphen_first s')
  end.

Definition feature_key (f : Feature) : string := hyphen_first (toLowerCase (f_name f)).
Definition sub_key (s : SubFeature) : string := hyphen_first (toLowerCase (sf_name s)).

(** [object[k] = v] *)
Fixpoint assign {V} (k : string) (v : V) (o : list (string * V)) : list (string * V) :=
  match o with
  | [] => [(k, v)]
  | (k', v') :: o' => if String.eqb k' k then (k, v) :: o' else (k', v') :: assign k v o'
  end.

Definition checked_subs (f : Feature) : list string :=
  sub_key <$> List.filter sf_checked (subFeatures f).

Definition featuresConfig (form : list Feature) : list (string * list string) :=
  fold_left (fun o f => assign (feature_key f) (checked_subs f) o)
    (List.filter f_checked form) [].

Record NodeForm := mkForm {
  form_name : string; form_url : string; form_memProfiler : string; form_debugger : string
}.

(** [Validators.required] on the name and the address. *)
Definition form_invalid (fg : NodeForm) : bool :=
  negb (truthy_str (form_name fg)) || negb (truthy_str (form_url fg)).

(** The node that is dispatched, if the form is valid. *)
Definition addNode (fg : NodeForm) (form : list Feature) : option MinaNode :=
  if form_invalid fg then None
  else Some {| node_name := form_name fg; node_url := Some (form_url fg);
               memoryProfiler := Some (form_memProfiler fg);
               debugger := Some (form_debugger fg);
               features := Some (FObject (featuresConfig form));
               isCustom := true; isWebNode := false |}.

(** ** The menu *)

Record MenuItem := mkItem { mi_name : string; mi_icon : string }.

#[export] Instance MenuItem_eq_dec : EqDecision MenuItem.
Proof. solve_decision. Defined.

Definition MENU_ITEMS : list MenuItem :=
  [mkItem "Dashboard" "dashboard"; mkItem "Block Production" "library_add";
   mkItem "Nodes" "margin"; mkItem "Resources" "analytics";
   mkItem "Mempool" "blur_circular"; mkItem "Network" "account_tree";
   mkItem "State" "code_blocks"; mkItem "SNARKs" "assignment_turned_in";
   mkItem "Benchmarks" "dynamic_form"; mkItem "Fuzzing" "shuffle"].

(** [s.split(a).join(b)] for single characters. *)
Fixpoint replace_all (a b : Ascii.ascii) (s : string) : string :=
  match s with
  | EmptyString => EmptyString
  | String c s' => String (if Ascii.eqb c a then b else c) (replace_all a b s')
  end.

Definition menu_key (it : MenuItem) : string := replace_all " " "-" (toLowerCase (mi_name it)).

(** [{ features: {} }] *)
Definition no_features : MinaNode := mkMinaNode "" None None None (Some (FObject [])) false false.

Definition allowedMenuItems (env : Config.Env) (activeNode : option MinaNode)
    : result (list MenuItem) :=
  match Config.getAvailableFeatures env (Some (default no_features activeNode)) with
  | Throw e => Throw e
  | Ok fs => Ok (List.filter (fun it => includes fs (menu_key it)) MENU_ITEMS)
  end.

Definition showHideMenu (m : App.Menu) : option App.Action :=
  if App.isMobile m then Some App.ToggleMenuOpening else None.

Definition collapseMenu (m : App.Menu) : option App.Action :=
  Some (App.ChangeMenuCollapsing (negb (App.collapsed m))).

Definition toggleMenu (m : App.Menu) : option App.Action :=
  if App.isMobile m then showHideMenu m else collapseMenu m.

Record SubMenu := mkSubMenu { sm_name : string; sm_route : string }.

Definition getSubMenusMap (fs : option (list string)) : option (list SubMenu) :=
  (fun l : list string => (fun f => mkSubMenu (replace_all "-" " " f) f) <$> l) <$> fs.

(** [features[feature]] where [feature] may be [undefined]. *)
Definition features_at (f : FeaturesConfig) (feature : option string) : option (list string) :=
  feature ≫= Config.sub_features f.

Definition setSubMenusOfActiveNodeForNewPage (env : Config.Env) (node : option MinaNode)
    (baseRoute : string) : result (list SubMenu) :=
  let asked := default (mkMinaNode "" None None None None false false) node in
  match Config.getAvailableFeatures env (Some asked) with
  | Throw e => Throw e
  | Ok fs =>
    let feature := List.find (fun f => String.eqb f baseRoute) fs in
    match node ≫= features with
    | Some nf => Ok (default [] (getSubMenusMap (features_at nf feature)))
    | None =>
      match Config.globalFeatures env with
      | Some gf => Ok (default [] (getSubMenusMap (features_at gf feature)))
      | None => Throw "Cannot read properties of undefined"
      end
    end
  end.

(** ** The node picker *)

Record Picker := mkPicker {
  pk_nodes : list MinaNode; filteredNodes : list MinaNode; pk_active : option MinaNode
}.

(** [openNodePicker] of the server status. *)
Definition openNodePicker (nodes : list MinaNode) (active : option MinaNode) : Picker :=
  mkPicker nodes nodes active.

Definition matches (value : string) (n : MinaNode) : bool :=
  string_includes value (toLowerCase (node_name n)) ||
  match node_url n with Some u => string_includes value (toLowerCase u) | None => false end.

(** A key in the search box, whose text is now [value]. *)
Definition search (value : string) (p : Picker) : Picker :=
  if Nat.leb (String.length value) 1 then mkPicker (pk_nodes p) (pk_nodes p) (pk_active p)
  else mkPicker (pk_nodes p) (List.filter (matches (toLowerCase value)) (pk_nodes p)) (pk_active p).

Definition selectNode (n : MinaNode) (p : Picker) : option App.Action :=
  if bool_decide (Some n = pk_active p) then None else Some (App.ChangeActiveNode n).

Definition deleteCustomNode (n : MinaNode) (p : Picker) : Picker * App.Action :=
  (mkPicker (pk_nodes p)
     (List.filter (fun m => negb (bool_decide (m = n))) (filteredNodes p)) (pk_active p),
   App.DeleteNode n).

(** ** The errors *)

(** [newMessages] is an array of nothing: its length. *)
Record Preview := mkPreview {
  pv_errors : list MinaError; newMessages : nat; newError : option MinaError; unreadErrors : bool
}.

Definition announced (errors : list MinaError) : bool :=
  match errors with
  | e :: f :: _ => err_seen f && negb (String.eqb (err_message e) (err_message f))
  | _ => true
  end.

(** An emission of the store; a timer that removes one message is set with
    each message added. *)
Definition listenToNewErrors (errors : list MinaError) (p : Preview) : Preview :=
  match errors with
  | [] => p
  | _ =>
    let fresh := negb (Nat.eqb (length errors) (length (pv_errors p))) in
    mkPreview errors
      (if fresh && announced errors then S (newMessages p) else newMessages p)
      (if fresh then head errors else newError p)
      (existsb (fun e => negb (err_seen e)) errors)
  end.

Definition removeMessage (p : Preview) : Preview :=
  mkPreview (pv_errors p) (pred (newMessages p)) (newError p) (unreadErrors p).

(** [onConfirm] of the open list: the action it dispatches. *)
Definition confirm (p : Preview) : option ErrorPreview.Action :=
  if unreadErrors p then Some ErrorPreview.MarkErrorsAsSeen else None.

(** ** The online mark *)

Definition isOnline (details : option App.NodeDetails) : bool :=
  match App.status <$> details with
  | Some App.PENDING | Some App.OFFLINE => false
  | _ => true
  end.

(** ** Clicks keep the form consistent *)

Definition shape (f : Feature) : string * list string :=
  (f_name f, sf_name <$> subFeatures f).

(** A feature with sub-features is checked when one of them is. *)
Definition consistent (f : Feature) : Prop :=
  subFeatures f <> [] -> f_checked f = existsb sf_checked (subFeatures f).

Definition form_ok (form : list Feature) : Prop :=
  (shape <$> form) = (shape <$> form_features) /\ Forall consistent form.

Lemma alter_shape g (i : nat) (form : list Feature) : (forall f, shape (g f) = shape f) ->
  shape <$> alter g i form = shape <$> form.
Proof.
  intros H. revert i. induction form as [|f form IH]; intros [|i]; try done.
  - cbn. by rewrite H.
  - change (alter g (S i) (f :: form)) with (f :: alter g i form).
    rewrite !fmap_cons. f_equal. apply IH.
Qed.

Lemma feature_check_shape f : shape (onFeatureCheck f) = shape f.
Proof. unfold shape, onFeatureCheck. cbn. by rewrite <- list_fmap_compose. Qed.

Lemma sub_check_shape j f : shape (onSubFeatureCheck j f) = shape f.
Proof.
  unfold shape, onSubFeatureCheck. cbn [f_name subFeatures]. f_equal.
  generalize (subFeatures f) as l. intros l. revert j.
  induction l as [|s l IH]; intros [|j]; try done.
  match goal with |- context [alter ?g (S j) (s :: l)] =>
    change (alter g (S j) (s :: l)) with (s :: alter g j l) end.
  rewrite !fmap_cons. f_equal. apply IH.
Qed.

Lemma feature_check_consistent f : consistent (onFeatureCheck f).
Proof.
  unfold consistent, onFeatureCheck. cbn [f_checked subFeatures]. intros Hne.
  destruct (subFeatures f) as [|s l]; [done|]. cbn. destruct (negb (f_checked f)); [done|].
  clear Hne. by induction l.
Qed.

Lemma click_ok form c : form_ok form -> form_ok (click form c).
Proof.
  intros [Hs Hc]. destruct c as [i|i j]; cbn [click].
  - split; [by rewrite alter_shape by apply feature_check_shape|].
    apply Forall_alter; [done|]. intros f _ _. apply feature_check_consistent.
  - destruct (form !! i ≫= _); [|done].
    split; [by rewrite alter_shape by apply sub_check_shape|].
    apply Forall_alter; [done|]. by intros f _ _ _.
Qed.

Lemma clicks_ok cs : form_ok (clicks cs).
Proof.
  unfold clicks. assert (H : form_ok form_features).
  { split; [done|]. repeat constructor; by intros ?. }
  revert H. generalize form_features. induction cs as [|c cs IH]; intros form H; [done|].
  cbn [fold_left]. apply IH. by apply click_ok.
Qed.

(** ** The keys are distinct *)

Definition shape_key (s : string * list string) : string := hyphen_first (toLowerCase (fst s)).
Definition shape_subs (s : string * list string) : list string :=
  (fun n => hyphen_first (toLowerCase n)) <$> snd s.

Lemma form_keys form : form_ok form -> NoDup (feature_key <$> form).
Proof.
  intros [Hs _]. assert (H : feature_key <$> form = shape_key <$> (shape <$> form))
    by by rewrite <- list_fmap_compose.
  rewrite H, Hs. by apply (bool_decide_eq_true _).
Qed.

Lemma form_sub_keys form f : form_ok form -> f ∈ form -> NoDup (sub_key <$> subFeatures f).
Proof.
  intros [Hs _] Hf. assert (H : sub_key <$> subFeatures f = shape_subs (shape f))
    by by unfold shape_subs; cbn; rewrite <- list_fmap_compose.
  rewrite H. apply (list_elem_of_fmap_2 shape) in Hf. rewrite Hs in Hf.
  assert (Hall : Forall (fun s => NoDup (shape_subs s)) (shape <$> form_features))
    by by apply (bool_decide_eq_true _).
  by apply (proj1 (Forall_forall _ _) Hall).
Qed.

Definition entry (f : Feature) : string * list string := (feature_key f, checked_subs f).

Lemma assign_fresh {V} k (v : V) o : k ∉ o.*1 -> assign k v o = o ++ [(k, v)].
Proof.
  induction o as [|[k' v'] o IH]; intros Hk; [done|]. rewrite fmap_cons in Hk. cbn [assign].
  destruct (String.eqb_spec k' k) as [->|]; [set_solver|]. rewrite IH by set_solver. done.
Qed.

Lemma fold_assign form o : NoDup (o.*1 ++ (feature_key <$> form)) ->
  fold_left (fun o f => assign (feature_key f) (checked_subs f) o) form o = o ++ (entry <$> form).
Proof.
  revert o. induction form as [|f form IH]; intros o Hnd; cbn [fold_left]; [by rewrite app_nil_r|].
  rewrite fmap_cons in *. assert (Hk : feature_key f ∉ o.*1).
  { apply NoDup_app in Hnd as (_ & Hd & _). intros Hin. by apply (Hd _ Hin); left. }
  rewrite assign_fresh by done. rewrite IH.
  - by rewrite <- app_assoc.
  - rewrite fmap_app. cbn. by rewrite <- app_assoc.
Qed.

Lemma featuresConfig_entries form : form_ok form ->
  featuresConfig form = entry <$> List.filter f_checked form.
Proof.
  intros H. unfold featuresConfig. apply fold_assign. cbn.
  by apply NoDup_fmap_lfilter, form_keys.
Qed.

Lemma find_entry form f : NoDup (feature_key <$> form) -> f ∈ form ->
  snd <$> List.find (fun kv => String.eqb kv.1 (feature_key f)) (entry <$> List.filter f_checked form) =
  if f_checked f then Some (checked_subs f) else None.
Proof.
  induction form as [|g form IH]; intros Hnd Hf; [inv Hf|].
  rewrite fmap_cons in Hnd. apply NoDup_cons in Hnd as [Hg Hnd].
  apply elem_of_cons in Hf as [->|Hf]; cbn [List.filter].
  - destruct (f_checked g) eqn:E; [by cbn; rewrite String.eqb_refl|].
    destruct (List.find _ _) as [[k v]|] eqn:Ef; [|done]. exfalso.
    apply find_Some_elem in Ef as [(h & Hh & Hin)%list_elem_of_fmap Hk%String.eqb_eq].
    unfold entry in Hh. injection Hh as -> ->. cbn in Hk. apply Hg. rewrite <- Hk.
    apply list_elem_of_fmap_2. by apply elem_of_lfilter in Hin as [? _].
  - assert (Hne : String.eqb (feature_key g) (feature_key f) = false).
    { apply String.eqb_neq. intros E. apply Hg. rewrite E. by apply list_elem_of_fmap_2. }
    destruct (f_checked g); [|by apply IH]. cbn. rewrite Hne. by apply IH.
Qed.

Lemma key_listed form f : NoDup (feature_key <$> form) -> f ∈ form ->
  feature_key f ∈ (entry <$> List.filter f_checked form).*1 <-> f_checked f = true.
Proof.
  intros Hnd Hf. rewrite <- list_fmap_compose. split.
  - intros (g & Hk & [Hg Hc]%elem_of_lfilter)%list_elem_of_fmap. cbn in Hk.
    enough (f = g) as -> by done. apply list_elem_of_lookup in Hf as [i Hi].
    apply list_elem_of_lookup in Hg as [j Hj].
    assert (i = j) as ->; [|congruence]. apply (NoDup_lookup _ _ _ (feature_key f) Hnd);
      rewrite list_lookup_fmap; [by rewrite Hi|rewrite Hj; cbn; congruence].
  - intros Hc. apply (list_elem_of_fmap_2 (fst ∘ entry)). by apply elem_of_lfilter.
Qed.

Lemma find_key (l : list string) k :
  List.find (fun x => String.eqb x k) l = if includes l k then Some k else None.
Proof.
  unfold includes. induction l as [|x l IH]; [done|]. cbn [List.find].
  destruct (String.eqb_spec x k) as [->|Hne].
  - by rewrite bool_decide_true by by left.
  - rewrite IH. rewrite (bool_decide_ext (k ∈ x :: l) (k ∈ l)); [done|].
    rewrite elem_of_cons. naive_solver.
Qed.

Lemma checked_sub form f s : form_ok form -> f ∈ form -> s ∈ subFeatures f ->
  sub_key s ∈ checked_subs f <-> sf_checked s = true.
Proof.
  intros Hok Hf Hs. unfold checked_subs. split.
  - intros (t & Hk & [Ht Hc]%elem_of_lfilter)%list_elem_of_fmap.
    pose proof (form_sub_keys form f Hok Hf) as Hnd.
    apply list_elem_of_lookup in Hs as [i Hi]. apply list_elem_of_lookup in Ht as [j Hj].
    assert (i = j) as ->; [|congruence]. apply (NoDup_lookup _ _ _ (sub_key s) Hnd);
      rewrite list_lookup_fmap; [by rewrite Hi|rewrite Hj; cbn; congruence].
  - intros Hc. apply list_elem_of_fmap_2. by apply elem_of_lfilter.
Qed.

(** A checked sub-feature has a checked feature. *)
Lemma checked_sub_feature form f s : form_ok form -> f ∈ form -> s ∈ subFeatures f ->
  sf_checked s = true -> f_checked f = true.
Proof.
  intros [_ Hc] Hf Hs Hch. rewrite (proj1 (Forall_forall _ _) Hc f Hf).
  - apply existsb_exists. exists s. split; [by apply list_elem_of_In|done].
  - intros E. rewrite E in Hs. inv Hs.
Qed.

Section Form.
Context `{HasValue} (env : Config.Env) (Henv : Config.configs env <> []).

Lemma form_config form n fg : addNode fg form = Some n -> form_ok form ->
  features n = Some (FObject (entry <$> List.filter f_checked form)) /\
  Config.getFeaturesConfig env (Some n) =
    Some (FObject (entry <$> List.filter f_checked form)).
Proof.
  intros Hn Hok. unfold addNode in Hn. destruct (form_invalid fg); [done|]. injection Hn as <-.
  unfold Config.getFeaturesConfig. cbn. rewrite featuresConfig_entries by done.
  split; [done|]. by destruct (Config.configs env).
Qed.

Lemma form_feature form n fg f : addNode fg form = Some n -> form_ok form -> f ∈ form ->
  Config.isFeatureEnabled env n (feature_key f) = Ok (f_checked f).
Proof.
  intros Hn Hok Hf. destruct (form_config form n fg Hn Hok) as [H1 H2].
  unfold Config.isFeatureEnabled. rewrite H1, H2. cbn [Config.sub_features].
  rewrite find_entry by (try apply form_keys; done). rewrite hasValue_spec.
  by destruct (f_checked f).
Qed.

Lemma form_sub_feature form n fg f s : addNode fg form = Some n -> form_ok form ->
  f ∈ form -> s ∈ subFeatures f ->
  Config.isSubFeatureEnabled env n (feature_key f) (sub_key s) = Ok (sf_checked s).
Proof.
  intros Hn Hok Hf Hs. destruct (form_config form n fg Hn Hok) as [_ H2].
  unfold Config.isSubFeatureEnabled. rewrite H2. cbn [Config.sub_features].
  rewrite find_entry by (try apply form_keys; done). rewrite hasValue_spec. f_equal.
  destruct (f_checked f) eqn:E; cbn [is_some andb].
  - unfold includes. apply eq_true_iff_eq. rewrite bool_decide_eq_true. by eapply checked_sub.
  - destruct (sf_checked s) eqn:Es; [|done].
    by rewrite (checked_sub_feature form f s) in E.
Qed.

Lemma form_menu form n fg f it : addNode fg form = Some n -> form_ok form -> f ∈ form ->
  it ∈ MENU_ITEMS -> menu_key it = feature_key f ->
  exists items, allowedMenuItems env (Some n) = Ok items /\ (it ∈ items <-> f_checked f = true).
Proof.
  intros Hn Hok Hf Hit Hk. destruct (form_config form n fg Hn Hok) as [_ H2].
  unfold allowedMenuItems, Config.getAvailableFeatures.
  change (default no_features (Some n)) with n. rewrite H2.
  eexists; split; [done|]. rewrite elem_of_lfilter, Hk. unfold includes.
  rewrite bool_decide_eq_true. cbn [Config.keys].
  rewrite key_listed by (try apply form_keys; done). tauto.
Qed.

Lemma form_submenus form n fg f : addNode fg form = Some n -> form_ok form -> f ∈ form ->
  setSubMenusOfActiveNodeForNewPage env (Some n) (feature_key f) =
  Ok (if f_checked f
      then (fun k => mkSubMenu (replace_all "-" " " k) k) <$> checked_subs f else []).
Proof.
  intros Hn Hok Hf. destruct (form_config form n fg Hn Hok) as [H1 H2].
  unfold setSubMenusOfActiveNodeForNewPage, Config.getAvailableFeatures.
  change (default _ (Some n)) with n. rewrite H2, find_key. cbn. rewrite H1. unfold includes.
  rewrite (bool_decide_ext _ _ (key_listed form f (form_keys form Hok) Hf)).
  destruct (f_checked f) eqn:E; [|done]. rewrite bool_decide_true by done.
  cbn. rewrite find_entry by (try apply form_keys; done). by rewrite E.
Qed.

(** C34: A node added with the form has the features that were checked, and
    the frame shows exactly those.  Whatever boxes are clicked, in whatever
    order, the node the form dispatches has a feature enabled exactly when its
    box is checked and a sub-feature exactly when its own box is, the menu
    lists the item of a feature exactly when the feature is checked, and the
    tabs of the feature's page are its checked sub-features. *)
Theorem node_form_faithful (cs : list Click) (fg : NodeForm) (n : MinaNode) (f : Feature) :
  addNode fg (clicks cs) = Some n -> f ∈ clicks cs ->
  Config.isFeatureEnabled env n (feature_key f) = Ok (f_checked f) /\
  (forall s, s ∈ subFeatures f ->
     Config.isSubFeatureEnabled env n (feature_key f) (sub_key s) = Ok (sf_checked s)) /\
  (forall it, it ∈ MENU_ITEMS -> menu_key it = feature_key f ->
     exists items, allowedMenuItems env (Some n) = Ok items /\
       (it ∈ items <-> f_checked f = true)) /\
  setSubMenusOfActiveNodeForNewPage env (Some n) (feature_key f) =
    Ok (if f_checked f
        then (fun k => mkSubMenu (replace_all "-" " " k) k) <$> checked_subs f else []).
Proof.
  intros Hn Hf. pose proof (clicks_ok cs) as Hok.
  split; [by eapply form_feature|]. split; [by intros; eapply form_sub_feature|].
  split; [by intros; eapply form_menu|]. by eapply form_submenus.
Qed.
End Form.


(** ** The rest of the frame *)

(** Every feature of the form has an item in the menu; block production and
    fuzzing are items the form does not offer. *)
Lemma menu_covers_form :
  Forall (fun f => feature_key f ∈ menu_key <$> MENU_ITEMS) form_features /\
  mi_name <$> List.filter (fun it => negb (includes (feature_key <$> form_features) (menu_key it)))
    MENU_ITEMS = ["Block Production"; "Fuzzing"].
Proof. split; [by apply (bool_decide_eq_true _)|by vm_compute]. Qed.

(** Without configured nodes the features of an added node are not read. *)
Lemma custom_features_ignored env n : Config.configs env = [] ->
  allowedMenuItems env (Some n) = allowedMenuItems env None.
Proof.
  intros He. unfold allowedMenuItems, Config.getAvailableFeatures, Config.getFeaturesConfig.
  by rewrite He.
Qed.

(** A node that was added is a node of the application, and of the next visit. *)
Lemma added_node_kept state st n configs :
  let '(state', storage') := App.appReducer (state, Some st) (App.AddNode n) in
  n ∈ App.nodes state' /\ n ∈ App.getNodes configs storage'.
Proof.
  cbn. split; [by left|]. unfold App.getNodes. apply elem_of_app. right. by left.
Qed.

(** A search lists the nodes whose name or address contains the text. *)
Lemma search_lists value p n : (1 < String.length value)%nat ->
  n ∈ filteredNodes (search value p) <-> n ∈ pk_nodes p /\ matches (toLowerCase value) n = true.
Proof.
  intros Hl. unfold search. destruct (Nat.leb_spec (String.length value) 1); [lia|].
  apply elem_of_lfilter.
Qed.

(** A node deleted in the picker leaves the list, and is back with the next
    key in the search box: the picker keeps the nodes it was opened with. *)
Lemma deleted_node_reappears n nodes active value : n ∈ nodes ->
  (String.length value <= 1)%nat ->
  let p := fst (deleteCustomNode n (openNodePicker nodes active)) in
  n ∉ filteredNodes p /\ n ∈ filteredNodes (search value p).
Proof.
  intros Hn Hv p. split.
  - cbn. rewrite elem_of_lfilter. intros [_ H]. by rewrite bool_decide_true in H.
  - unfold search. by rewrite (proj2 (Nat.leb_le _ _) Hv).
Qed.

(** Confirming the list leaves no error unread. *)
Lemma confirm_reads errors p : errors <> [] ->
  unreadErrors (listenToNewErrors
    (ErrorPreview.errorReducer errors ErrorPreview.MarkErrorsAsSeen) p) = false.
Proof.
  intros Hne. destruct errors as [|e errors]; [done|]. cbn. clear Hne.
  by induction errors as [|f errors IH].
Qed.

(** An error that arrives while another is unread is not announced. *)
Lemma unread_silences e f errors p : err_seen f = false ->
  newMessages (listenToNewErrors (e :: f :: errors) p) = newMessages p.
Proof. intros Hf. cbn. rewrite Hf. cbn. by rewrite andb_false_r. Qed.

(** ** Witnesses *)

Definition example_env : Config.Env := Config.mkEnv [no_features] None.
Definition example_form : NodeForm := mkForm "node 1" "http://localhost:3000" "" "".

(** The box of the network feature is cleared. *)
Lemma node_form_faithful_witness :
  exists n f, addNode example_form (clicks [OnFeature 3]) = Some n /\
    f_checked f = false /\
    @Config.isFeatureEnabled has_value example_env n "network" = Ok false.
Proof.
  destruct (addNode example_form (clicks [OnFeature 3])) as [n|] eqn:Hn; [|discriminate Hn].
  set (f := onFeatureCheck (default (mkFeature "" true []) (form_features !! 3%nat))).
  assert (Hf : f ∈ clicks [OnFeature 3]) by by do 3 right; left.
  assert (He : Config.configs example_env <> []) by discriminate.
  exists n, f. split; [reflexivity|]. split; [reflexivity|].
  exact (proj1 (@node_form_faithful has_value example_env He [OnFeature 3] example_form n f Hn Hf)).
Defined.

End Layout.
