(* ===== verification/Tables.v ===== *)
(** * The table of the pages

    [src/frontend/src/app/shared/components/mina-table]: the shared table, and
    the behaviour the pages' tables have in common. A page remembers the id its
    address names while there are no rows; the first rows scroll to the row of
    that id and select it; a click on a row selects it and puts its id into the
    address. The pages differ in a few points, which are the fields of [Page];
    [TablePages] has their instances.

    The scrolling viewport is a library component: its height is an argument and
    the index it is told to scroll to is an output. An address that is not a
    decimal number of digits is [NotANumber] where the code converts it. *)

From stdpp Require Import base list strings pretty sets.
From S2P Require Import Prelude SharedLib NetworkBlocks.
Open Scope Z_scope.

Module Tables.

(** ** The shared component *)

Record Head := mkHead { h_name : string; h_sort : option string }.

(** [th.sort ?? th.name] *)
Definition sort_key (th : Head) : string := default (h_name th) (h_sort th).

(** An entry of [gridTemplateColumns]. *)
Inductive Width := Px (n : Z) | Auto | Fr.

(** [Number(curr)]; [None] is [NaN]. *)
Definition width_number (w : Width) : option Z :=
  match w with Px n => Some n | Auto | Fr => None end.

Definition add_number (acc n : option Z) : option Z :=
  match acc, n with Some a, Some b => Some (a + b) | _, _ => None end.

Record Layout := mkLayout {
  tableHeads : list Head;
  gridTemplateColumns : list Width;
  givenWidth : option Z;
  sorted_by : option TableSort       (* the first value of [sortSelector], if there is one *)
}.

(** The field [minWidth] after [init]. *)
Definition minWidth (l : Layout) : option Z :=
  match givenWidth l with
  | Some w => if truthyZ w then Some w
              else fold_left add_number (width_number <$> gridTemplateColumns l) (Some 0)
  | None => fold_left add_number (width_number <$> gridTemplateColumns l) (Some 0)
  end.

Definition css_width (w : Width) : string :=
  match w with Px n => show n +:+ "px " | Auto => "auto " | Fr => "1fr " end.

Definition addGridTemplateColumnsInCssFile (tableLevel : Z) (cols : list Width) : string :=
  fold_left (fun value v => value +:+ css_width v) cols
    ("mina-table #table" +:+ show tableLevel +:+ ".mina-table .row{grid-template-columns:") +:+ "}".

Definition sortTable (currentSort : TableSort) (key : string) : TableSort :=
  mkTableSort key
    (if negb (String.eqb key (sortBy currentSort)) then sortDirection currentSort
     else match sortDirection currentSort with ASC => DSC | DSC => ASC end).

Definition DESKTOP_ROW_HEIGHT : Z := 36.

(** [Math.round(offsetHeight / 2 / rowSize) - 3] *)
Definition topElements (offsetHeight : Z) : Z :=
  floor_div (offsetHeight + DESKTOP_ROW_HEIGHT) (2 * DESKTOP_ROW_HEIGHT) - 3.

Definition index_number (o : option nat) : Z :=
  match o with Some i => Z.of_nat i | None => -1 end.

(** The index the viewport is told to scroll to. *)
Definition scrollToElement {A} (offsetHeight : Z) (rows : list A) (rowFinder : A -> bool) : Z :=
  index_number (findIndex rowFinder rows) - topElements offsetHeight.

(** The button to the top: hidden, and the time the next change of the index
    waits for. *)
Definition on_scrolled (index : Z) : bool := index =? 0.
Definition scroll_delay (hiddenToTop : bool) : Z := if hiddenToTop then 200 else 0.

(** An element of the page, as the click handler sees it. *)
Record Element := mkElement { idx_attr : option string; is_viewport : bool }.

(** [onVsClick]: [path] has the target of the click and its ancestors that have
    attributes, from the inside out. The result is the index of the row. *)
Fixpoint onVsClick (path : list Element) : option Z :=
  match path with
  | [] => None
  | e :: path' =>
    match idx_attr e with
    | Some v => if truthy_str v then Some (Blocks.BigInt v)
                else if is_viewport e then None else onVsClick path'
    | None => if is_viewport e then None else onVsClick path'
    end
  end.

(** ** Tables that follow the address *)

(** What an address says of a row. *)
Inductive FromRoute (K : Type) := Absent | NotANumber | Key (k : K).
Arguments Absent {K}.
Arguments NotANumber {K}.
Arguments Key {K} _.

(** Ids that are written into an address and read back. *)
Class RouteKey (K : Type) `{EqDecision K} := {
  segment : K -> string;
  from_segment : string -> FromRoute K;
  key_ok : K -> Prop;
  from_segment_segment : forall k, key_ok k -> from_segment (segment k) = Key k;
  segment_truthy : forall k, key_ok k -> truthy_str (segment k) = true
}.

(** What the page does with the row of its address. *)
Inductive OnFound := OnlyScroll | SelectRow | ClickRow.

(** Whether a change of the active row while none is active becomes the id to
    scroll to: never, when there is a row, or in any case. *)
Inductive Adopt := Never | IfAny | Always.

Section RouteTable.
Context {Row K : Type} `{RouteKey K}.

Record Page := mkPage {
  rowId : Row -> K;
  truthy : FromRoute K -> bool;      (* the test of the remembered id *)
  skips_empty : bool;                (* [filter(rows => rows.length > 0)] *)
  on_found : OnFound;
  ignores_missing : bool;            (* [onRowClick] returns without a row *)
  reselects : bool;                  (* a real click on the active row counts *)
  navigates_first : bool;            (* the address is changed before the store *)
  adopt : Adopt
}.

Record Table := mkTable {
  rows : list Row;
  activeRow : option Row;
  fromRoute : FromRoute K
}.

Definition initialTable : Table := mkTable [] None Absent.

Inductive Output :=
| ScrollTo (index : Z)
| SetActive (row : option Row)       (* the dispatched action *)
| Navigate (id : string)
| Raise (msg : string).

Definition listenToRouteChange (param : option string) (t : Table) : Table :=
  match param with
  | Some id =>
    if truthy_str id && bool_decide (rows t = [])
    then mkTable (rows t) (activeRow t) (from_segment id) else t
  | None => t
  end.

Section Page.
Context (p : Page) (offsetHeight : Z).

Definition same_row (a : option Row) (r : Row) : bool :=
  match a with Some a => bool_decide (rowId p a = rowId p r) | None => false end.

Definition onRowClick (t : Table) (row : option Row) (isRealClick : bool) : list Output :=
  match row with
  | Some r =>
    if negb (same_row (activeRow t) r) || (reselects p && isRealClick)
    then if navigates_first p then [Navigate (segment (rowId p r)); SetActive (Some r)]
         else [SetActive (Some r); Navigate (segment (rowId p r))]
    else []
  | None =>
    if ignores_missing p then []
    else if navigates_first p then [Raise "Cannot read properties of undefined"]
    else match activeRow t with
         | Some _ => [SetActive None; Raise "Cannot read properties of undefined"]
         | None => []
         end
  end.

Definition row_finder (id : FromRoute K) (r : Row) : bool :=
  match id with Key k => bool_decide (rowId p r = k) | _ => false end.

Definition scroll_to_route (t : Table) : Table * list Output :=
  let finder := row_finder (fromRoute t) in
  let t' := mkTable (rows t) (activeRow t) Absent in
  (t', ScrollTo (scrollToElement offsetHeight (rows t) finder) ::
       match on_found p with
       | OnlyScroll => []
       | SelectRow => [SetActive (List.find finder (rows t))]
       | ClickRow => onRowClick t' (findIndex finder (rows t) ≫= fun i => rows t !! i) false
       end).

Definition listenToRows (l : list Row) (t : Table) : Table * list Output :=
  if skips_empty p && bool_decide (l = []) then (t, [])
  else
    let t' := mkTable l (activeRow t) (fromRoute t) in
    if truthy p (fromRoute t) && bool_decide (l ≠ []) then scroll_to_route t' else (t', []).

Definition listenToActiveRow (a : option Row) (t : Table) : Table * list Output :=
  match activeRow t, adopt p, a with
  | None, Always, None => (t, [Raise "Cannot read properties of undefined"])
  | None, (Always | IfAny), Some r => (mkTable (rows t) a (Key (rowId p r)), [])
  | None, IfAny, None => (mkTable (rows t) None Absent, [])
  | _, _, _ => (mkTable (rows t) a (fromRoute t), [])
  end.

(** The store answers [SetActive] with a change of the active row. *)
Definition answer_one (y : Table * list Output) (o : Output) : Table * list Output :=
  match o with
  | SetActive r => let '(t', e) := listenToActiveRow r y.1 in (t', y.2 ++ o :: e)
  | _ => (y.1, y.2 ++ [o])
  end.

Definition answers (x : Table * list Output) : Table * list Output :=
  fold_left answer_one x.2 (x.1, []).

(** The page is opened at an address; [ngOnInit] subscribes to the address first. *)
Definition open (param : option string) : Table := listenToRouteChange param initialTable.

Inductive Event :=
| EvRows (l : list Row)              (* the store has new rows *)
| EvClick (i : nat)                  (* a click on a row that is shown *)
| EvActive (r : option Row).         (* the store changes the active row by itself *)

Definition step (t : Table) (ev : Event) : Table * list Output :=
  answers match ev with
          | EvRows l => listenToRows l t
          | EvClick i => (t, match rows t !! i with Some r => onRowClick t (Some r) true | None => [] end)
          | EvActive a => listenToActiveRow a t
          end.

Fixpoint steps (t : Table) (evs : list Event) : Table * list Output :=
  match evs with
  | [] => (t, [])
  | ev :: evs' =>
    let '(t', out) := step t ev in
    let '(t'', out') := steps t' evs' in (t'', out ++ out')
  end.

(** ** Lemmas on the pages *)

Lemma row_finder_key k l r :
  NoDup (rowId p <$> l) -> r ∈ l -> rowId p r = k ->
  List.find (row_finder (Key k)) l = Some r /\
  exists i, findIndex (row_finder (Key k)) l = Some i /\ l !! i = Some r.
Proof.
  intros Hd Hr Hk.
  assert (Huniq : forall x, x ∈ l -> row_finder (Key k) x = true -> x = r).
  { intros x Hx Hf. cbn in Hf. breflect. by apply (key_unique (rowId p) l); subst. }
  assert (Hf : row_finder (Key k) r = true) by by apply bool_decide_eq_true_2.
  split.
  - destruct (find_is_Some _ _ _ Hr Hf) as [x Hx]. rewrite Hx.
    apply find_Some_elem in Hx as [? ?]. f_equal. by apply Huniq.
  - apply list_elem_of_lookup in Hr as [j Hj].
    destruct (findIndex_complete _ _ _ _ Hj Hf) as (i & Hi & _). exists i. split; [done|].
    apply findIndex_Some in Hi as (x & Hx & Hfx & _).
    rewrite Hx. f_equal. apply Huniq; [by eapply list_elem_of_lookup_2|done].
Qed.

Definition raises (out : list Output) : Prop := exists msg, Raise msg ∈ out.

Definition only_scrolls (out : list Output) : Prop := forall o, o ∈ out -> exists i, o = ScrollTo i.

(** What the store's answers add to the output of a handler. *)
Lemma answers_scroll t out : only_scrolls out -> answers (t, out) = (t, out).
Proof.
  unfold answers. cbn [fst snd]. intros Ho.
  assert (forall acc, fold_left answer_one out (t, acc) = (t, acc ++ out)) as ->; [|done].
  induction out as [|o out IH]; intros acc; cbn [fold_left]; [by rewrite app_nil_r|].
  destruct (Ho o) as [i ->]; [left|].
  change (answer_one (t, acc) (ScrollTo i)) with (t, acc ++ [ScrollTo i]). rewrite IH.
  - by rewrite <- app_assoc.
  - intros x Hx. apply Ho. by right.
Qed.

(** A page whose missing row is handled: it has not to adopt the id of an
    active row, or it ignores a row that is not there; and a click without a row
    is not read before the test. *)
Definition careful : Prop :=
  truthy p Absent = false /\
  (adopt p = Never \/ on_found p = ClickRow /\ ignores_missing p = true) /\
  (on_found p = ClickRow -> ignores_missing p = true \/ navigates_first p = false).

(** *** Restoring a row *)

(** The id that is remembered while [r] is active is that of [r], and only a
    page that then clicks a row it has found has one. *)
Definition settled (r : Row) (t : Table) : Prop :=
  activeRow t = Some r /\
  (truthy p (fromRoute t) = true ->
   fromRoute t = Key (rowId p r) /\ on_found p = ClickRow /\ ignores_missing p = true).

Lemma settled_rows r t l :
  careful -> settled r t ->
  settled r (step t (EvRows l)).1 /\ only_scrolls (step t (EvRows l)).2.
Proof.
  intros (Ht & _ & _) [Ha Hs]. unfold step, listenToRows, scroll_to_route. cbn [rows activeRow fromRoute].
  destruct (skips_empty p && _); [by rewrite answers_scroll by (intros ? []%not_elem_of_nil); split; [|intros ? []%not_elem_of_nil]|].
  destruct (truthy p (fromRoute t) && _) eqn:E; cycle 1.
  { rewrite answers_scroll by (intros ? []%not_elem_of_nil).
    split; [split; cbn; [done|]|intros ? []%not_elem_of_nil]. done. }
  apply andb_true_iff in E as [E _]. destruct (Hs E) as (Hf & -> & Hm). rewrite Hf.
  assert (Hnone : onRowClick (mkTable l (activeRow t) Absent)
      (findIndex (row_finder (Key (rowId p r))) l ≫= fun i => l !! i) false = []).
  { destruct (findIndex (row_finder (Key (rowId p r))) l) as [i|] eqn:Ei; cbn.
    - destruct (findIndex_Some _ _ _ Ei) as (x & Hx & Hfx & _). rewrite Hx. cbn. rewrite Ha. cbn.
      cbn in Hfx. breflect. rewrite bool_decide_eq_true_2 by done. cbn. by rewrite andb_false_r.
    - by rewrite Hm. }
  rewrite Hnone, answers_scroll by (intros o ->%list_elem_of_singleton; eauto). cbn.
  split; [split; cbn; [done|congruence]|]. intros o ->%list_elem_of_singleton. eauto.
Qed.

Lemma settled_steps r t ls :
  careful -> settled r t ->
  activeRow (steps t (EvRows <$> ls)).1 = Some r /\ only_scrolls (steps t (EvRows <$> ls)).2.
Proof.
  intros Hc. revert t. induction ls as [|l ls IH]; intros t Ht.
  { split; [by destruct Ht|intros ? []%not_elem_of_nil]. }
  rewrite fmap_cons. cbn [steps].
  destruct (settled_rows r t l Hc Ht) as [Ht' Ho]. destruct (step t (EvRows l)) as [t' out].
  specialize (IH t' Ht') as [Ha Ho']. destruct (steps t' (EvRows <$> ls)) as [t'' out'].
  split; [done|]. intros o [Hx|Hx]%elem_of_app; auto.
Qed.

(** The first rows of a page opened at the address of [r]. *)
Lemma first_rows l r :
  careful -> on_found p ≠ OnlyScroll -> NoDup (rowId p <$> l) -> r ∈ l ->
  key_ok (rowId p r) -> truthy p (Key (rowId p r)) = true ->
  let x := step (open (Some (segment (rowId p r)))) (EvRows l) in
  settled r x.1 /\
  exists i, l !! i = Some r /\ x.2 !! 0%nat = Some (ScrollTo (Z.of_nat i - topElements offsetHeight)).
Proof.
  intros (Habs & Had & Hnav) Hof Hd Hr Hok Htr.
  assert (Hne : l ≠ []) by (intros ->; by apply elem_of_nil in Hr).
  unfold open, listenToRouteChange, step, listenToRows. rewrite segment_truthy by done.
  change (rows initialTable) with (@nil Row). rewrite (bool_decide_eq_true_2 ([] = [])) by done.
  cbn [andb]. rewrite from_segment_segment by done. cbn [fromRoute activeRow].
  rewrite (bool_decide_eq_false_2 (l = [])), andb_false_r, Htr by done.
  rewrite (bool_decide_eq_true_2 (l ≠ [])) by done. cbn [andb].
  unfold scroll_to_route, scrollToElement. cbn [rows fromRoute activeRow].
  destruct (row_finder_key (rowId p r) l r Hd Hr eq_refl) as [Hfind (i & Hi & Hli)].
  rewrite Hfind, Hi. cbn [mbind option_bind index_number]. rewrite Hli.
  unfold onRowClick, same_row. cbn [activeRow negb orb]. unfold answers, answer_one, listenToActiveRow, settled.
  destruct (on_found p), (adopt p), (navigates_first p); try done;
    destruct Had as [?|[? ?]]; try done; cbn; rewrite ?Habs;
    (split; [split; [done|by repeat split]|eauto]).
Qed.

(** *** Errors *)

Lemma click_raises t row real :
  raises (onRowClick t row real) <->
  row = None /\ ignores_missing p = false /\ (navigates_first p = true \/ is_Some (activeRow t)).
Proof.
  unfold raises, onRowClick. split.
  - intros [msg Hm]. destruct row as [r|].
    { destruct (negb _ || _), (navigates_first p); set_solver. }
    destruct (ignores_missing p), (navigates_first p), (activeRow t) eqn:Ha; try set_solver.
    all: by repeat split; eauto.
  - intros (-> & -> & [->|[a ->]]); [eexists; left|].
    destruct (navigates_first p); eexists; [left|right; left].
Qed.

(** New rows make a page raise exactly when it clicks the row of its address,
    there is no such row, and the click reads it. *)
Lemma rows_raise t l :
  raises (listenToRows l t).2 <->
  l ≠ [] /\ truthy p (fromRoute t) = true /\ on_found p = ClickRow /\
  findIndex (row_finder (fromRoute t)) l = None /\
  ignores_missing p = false /\ (navigates_first p = true \/ is_Some (activeRow t)).
Proof.
  unfold listenToRows, scroll_to_route. cbn [rows activeRow fromRoute].
  assert (Hnil : ~ raises []) by (intros [? []%not_elem_of_nil]).
  destruct (decide (l = [])) as [->|Hl].
  { rewrite bool_decide_eq_true_2, (bool_decide_eq_false_2 ([] ≠ [])) by auto.
    rewrite andb_false_r. destruct (skips_empty p); cbn; naive_solver. }
  rewrite bool_decide_eq_false_2, andb_false_r, (bool_decide_eq_true_2 (l ≠ [])), andb_true_r by done.
  destruct (truthy p (fromRoute t)); [|cbn; naive_solver].
  assert (Hcons : forall i out, raises (ScrollTo i :: out) <-> raises out).
  { intros i out. unfold raises. set_solver. }
  cbn [snd]. rewrite Hcons. destruct (on_found p).
  - naive_solver.
  - unfold raises. set_solver.
  - rewrite click_raises. cbn [activeRow].
    destruct (findIndex (row_finder (fromRoute t)) l) as [i|] eqn:Ei; cbn; [|naive_solver].
    apply findIndex_Some in Ei as (x & Hx & _). rewrite Hx. naive_solver.
Qed.

(** While the page waits for the row of its address nothing is shown and no row
    is active. *)
Definition waiting_idle (t : Table) : Prop :=
  truthy p (fromRoute t) = true -> adopt p = Never -> rows t = [] /\ activeRow t = None.

(** The store makes only a row active that is shown. *)
Definition allowed (t : Table) (ev : Event) : Prop :=
  match ev with EvActive (Some r) => r ∈ rows t | _ => True end.

Inductive reachable (param : option string) : Table -> Prop :=
| reach_open : reachable param (open param)
| reach_step t ev : reachable param t -> allowed t ev -> reachable param (step t ev).1.

Lemma active_rows a t : rows (listenToActiveRow a t).1 = rows t.
Proof. unfold listenToActiveRow. by repeat case_match. Qed.

Lemma active_quiet a t : adopt p ≠ Always -> (listenToActiveRow a t).2 = [].
Proof. intros Ha. unfold listenToActiveRow. by repeat case_match. Qed.

Lemma active_never a t :
  adopt p = Never -> (listenToActiveRow a t).1 = mkTable (rows t) a (fromRoute t).
Proof. intros Ha. unfold listenToActiveRow. rewrite Ha. by repeat case_match. Qed.

Lemma answers_spec x :
  rows (answers x).1 = rows x.1 /\
  (adopt p = Never -> fromRoute (answers x).1 = fromRoute x.1) /\
  (adopt p ≠ Always -> (answers x).2 = x.2).
Proof.
  destruct x as [t out]. unfold answers. cbn [fst snd].
  cut (forall acc, let y := fold_left answer_one out (t, acc) in
    rows y.1 = rows t /\ (adopt p = Never -> fromRoute y.1 = fromRoute t) /\
    (adopt p ≠ Always -> y.2 = acc ++ out)); [intros Hx; apply (Hx [])|].
  cbn zeta. revert t. induction out as [|o out IH]; intros t acc; cbn [fold_left].
  { by rewrite app_nil_r. }
  assert (Hplain : forall o, acc ++ o :: out = (acc ++ [o]) ++ out) by (intros; by rewrite <- app_assoc).
  destruct o as [i|r|id|msg]; [rewrite Hplain; apply IH| |rewrite Hplain; apply IH..].
  change (answer_one (t, acc) (SetActive r)) with
    (let '(t', e) := listenToActiveRow r t in (t', acc ++ SetActive r :: e)).
  pose proof (active_rows r t) as Hr. pose proof (active_quiet r t) as Hq.
  pose proof (active_never r t) as Hn. destruct (listenToActiveRow r t) as [t' e]. cbn [fst snd] in *.
  destruct (IH t' (acc ++ SetActive r :: e)) as (Hr' & Hf' & Ho'). repeat split.
  - by rewrite Hr'.
  - intros Ha. rewrite Hf' by done. by rewrite Hn.
  - intros Ha. rewrite Ho', Hq by done. by rewrite <- app_assoc.
Qed.

Lemma handler_quiet t ev :
  careful -> adopt p ≠ Always -> waiting_idle t -> allowed t ev -> ~ raises (step t ev).2.
Proof.
  intros (_ & Had & Hnav) Hal Hi Hev. unfold step.
  rewrite (proj2 (proj2 (answers_spec _)) Hal). destruct ev as [l|i|a].
  - rewrite rows_raise. intros (_ & Htr & Hc & _ & Hm & Hx).
    destruct Had as [Had|[_ Had]]; [|congruence]. destruct (Hi Htr Had) as [_ Hact].
    rewrite Hact in Hx. destruct (Hnav Hc), Hx as [|[? ?]]; congruence.
  - cbn [snd]. destruct (rows t !! i); [rewrite click_raises; naive_solver|].
    intros [? []%not_elem_of_nil].
  - rewrite active_quiet by done. intros [? []%not_elem_of_nil].
Qed.

Lemma step_idle t ev :
  careful -> waiting_idle t -> allowed t ev -> waiting_idle (step t ev).1.
Proof.
  intros (Habs & _) Hi Hev Htr Hn. revert Htr. unfold step.
  match goal with |- context [answers ?x] => destruct (answers_spec x) as (Hr & Hf & _) end.
  rewrite Hr, (Hf Hn). destruct ev as [l|i|a].
  - unfold listenToRows, scroll_to_route. destruct (skips_empty p && _); [intros Htr; exact (Hi Htr Hn)|].
    destruct (truthy p (fromRoute t)) eqn:Htr; cbn [andb fst fromRoute]; [|by rewrite Htr].
    case_bool_decide as Hl; cbn; [by rewrite Habs|]. intros _. destruct (Hi Htr Hn) as [_ Ha].
    split; [|done]. destruct l; [done|by destruct Hl].
  - cbn [fst]. intros Htr. destruct (Hi Htr Hn) as [Hrows Ha].
    split; [done|]. rewrite Hrows. by rewrite lookup_nil.
  - rewrite (surjective_pairing (listenToActiveRow a t)), active_never, active_quiet by congruence.
    cbn. intros Htr. destruct (Hi Htr Hn) as [Hrows _]. split; [done|].
    cbn in Hev. destruct a; [|done]. rewrite Hrows in Hev. by apply elem_of_nil in Hev.
Qed.

Lemma reachable_idle param t : careful -> reachable param t -> waiting_idle t.
Proof.
  intros Hc. induction 1 as [|t ev _ IH Hev]; [|by apply step_idle].
  intros _ _. unfold open, listenToRouteChange. by repeat case_match.
Qed.
End Page.
End RouteTable.

Arguments Page Row K : clear implicits.
Arguments Table Row K : clear implicits.
Arguments Output Row : clear implicits.
Arguments Event Row : clear implicits.

(** ** The shared component *)

(** The elements between the target of a click and its row. *)
Definition inside (path : list Element) : Prop :=
  forall e, e ∈ path -> idx_attr e = None /\ is_viewport e = false.

Lemma onVsClick_inside path rest : inside path -> onVsClick (path ++ rest) = onVsClick rest.
Proof.
  induction path as [|e path IH]; intros Hp; [done|]. cbn [app onVsClick].
  destruct (Hp e) as [-> ->]; [left|]. apply IH. intros x Hx. apply Hp. by right.
Qed.

Lemma show_truthy n : truthy_str (show n) = true.
Proof.
  destruct n as [|q|q]; [done| |done]. rewrite Blocks.show_N by lia.
  pose proof (Blocks.parse_pretty_go (Z.to_N (Z.pos q)) "") as Hp.
  destruct (pretty_N_go _ _); [|done]. cbn in Hp. lia.
Qed.

(** A click anywhere in a row is a click on the row with the index the template
    gave it; a click outside the rows is none. *)
Theorem click_finds_row (inner above : list Element) (i : nat) (v : bool) :
  inside inner ->
  onVsClick (inner ++ mkElement (Some (show (Z.of_nat i))) v :: above) = Some (Z.of_nat i) /\
  onVsClick (inner ++ mkElement None true :: above) = None.
Proof.
  intros Hi. rewrite !onVsClick_inside by done. cbn. split; [|done].
  rewrite show_truthy. f_equal. apply Blocks.BigInt_show. lia.
Qed.

(** Clicking a heading sorts by it; clicking the heading of the current order
    reverses it, and a second click restores it. *)
Lemma sortTable_involutive ts :
  sortTable (sortTable ts (sortBy ts)) (sortBy ts) = ts /\ sortTable ts (sortBy ts) ≠ ts.
Proof.
  destruct ts as [key dir]. unfold sortTable. cbn [sortBy sortDirection].
  rewrite !String.eqb_refl. by destruct dir.
Qed.

Lemma minWidth_number (l : Layout) :
  minWidth l = None <->
  (givenWidth l = None \/ givenWidth l = Some 0) /\ exists w, w ∈ gridTemplateColumns l /\ width_number w = None.
Proof.
  assert (Hnone : forall ws, fold_left add_number ws None = None) by by induction ws.
  assert (Hsum : forall ws a, fold_left add_number (width_number <$> ws) (Some a) = None <->
                 exists w, w ∈ ws /\ width_number w = None).
  { induction ws as [|w ws IH]; intros a; [cbn; set_solver|]. rewrite fmap_cons. cbn [fold_left].
    destruct (width_number w) eqn:Hw; cbn [add_number]; [rewrite IH|rewrite Hnone]; set_solver. }
  unfold minWidth, truthyZ. destruct (givenWidth l) as [w|]; [|rewrite Hsum; naive_solver].
  destruct (Z.eqb_spec w 0) as [->|Hw]; cbn [negb]; [rewrite Hsum; naive_solver|].
  split; [done|]. intros [[?|[= ?]] _]; done.
Qed.

(** A page raises on new rows exactly when it clicks the row of its address, the
    address names no row, the click reads it, and the address is changed first or a row is
    active already. *)
Lemma unknown_row_raises {Row K} `{RouteKey K} (p : Page Row K) (h : Z) (t : Table Row K) (l : list Row) :
  raises (listenToRows p h l t).2 <->
  l ≠ [] /\ truthy p (fromRoute t) = true /\ on_found p = ClickRow /\
  (forall r, r ∈ l -> fromRoute t ≠ Key (rowId p r)) /\
  ignores_missing p = false /\ (navigates_first p = true \/ is_Some (activeRow t)).
Proof.
  rewrite rows_raise, findIndex_None.
  assert (Hq : (forall x, x ∈ l -> row_finder p (fromRoute t) x = false) <->
               (forall r, r ∈ l -> fromRoute t ≠ Key (rowId p r))); [|by rewrite Hq].
  split; intros Hx r Hr; specialize (Hx r Hr).
  - intros E. rewrite E in Hx. cbn in Hx. by rewrite bool_decide_eq_true_2 in Hx.
  - destruct (fromRoute t); cbn; [done..|]. apply bool_decide_eq_false_2. congruence.
Qed.

End Tables.
