(* ===== verification/TablePages.v ===== *)
(** * The tables of the pages

    The tables of [src/frontend/src/app/features]: their headings and columns
    ([tableHeads], [setupTable]), the pages that follow the address as instances
    of [Tables.Page], and the tables of the fuzzing, memory and splits pages,
    which have rules of their own.

    The identity of objects in the fuzzing and splits tables is the equality of
    their records. *)

From stdpp Require Import base list strings pretty sets.
From S2P Require Import Prelude SharedLib NetworkSplits NetworkBlocks StateActions MemoryResources.
From S2P Require Import WorkPool NodeDht WonSlots NodesOverview NodesBootstrap NetworkConnections.
From S2P Require Import NetworkMessages MessagesPage NodesLive Dashboard BootstrapStats Mempool Fuzzing Tables.
Open Scope Z_scope.

Module TablePages.
Import Tables.
#[local] Existing Instances Fuzzing.Directory_eq_dec Splits.Peer_eq_dec.

(** ** Headings and columns *)

Definition th (name : string) : Head := mkHead name None.
Definition th_by (name key : string) : Head := mkHead name (Some key).

Definition won_slots_layout (isDesktop : bool) : Layout := {|
  tableHeads := [th_by "status" "message"; th_by "age" "slotTime"; th "height";
    th_by "global slot" "globalSlot"; th_by "epoch slot" "slotInEpoch";
    th_by "transactions" "transactionsTotal"; th_by "SNARKs" "completedWorksCount";
    th_by "SNARK fees" "snarkFees"; th_by "coinbase reward" "coinbaseRewards";
    th_by "tx fees reward" "txFeesRewards"];
  gridTemplateColumns := Px <$> (if isDesktop then [210; 140; 90; 142; 120; 120; 120; 124; 159; 150]
                                 else [150; 100; 90; 130; 100; 105; 100; 114; 139; 130]);
  givenWidth := None;
  sorted_by := Some (WonSlots.sort_ (WonSlots.initialState true)) |}.

Definition directories_layout : Layout := {|
  tableHeads := [th "datetime"; th "directory name"];
  gridTemplateColumns := Px <$> [165; 165]; givenWidth := None; sorted_by := None |}.

Definition files_layout : Layout := {|
  tableHeads := [th_by "coverage" "coverage"; th_by "path" "path"];
  gridTemplateColumns := Px <$> [150; 430]; givenWidth := None;
  sorted_by := Some (Fuzzing.sort_ Fuzzing.initialState) |}.

Definition nodes_overview_layout : Layout := {|
  tableHeads := [th_by "status" "kind"; th "name"; th "snarks"; th "transactions"; th "height";
    th_by "best tip" "bestTip"; th_by "datetime" "bestTipReceivedTimestamp";
    th_by "applied" "appliedBlocks"; th_by "fetching" "fetchingBlocks";
    th_by "fetched" "fetchedBlocks"; th_by "missing blocks" "missingBlocks"];
  gridTemplateColumns := Px <$> [100; 180; 100; 100; 95; 130; 165; 120; 120; 120; 150];
  givenWidth := Some 1380; sorted_by := Some (NodesOverview.sort_ (NodesOverview.initialState [])) |}.

Definition nodes_live_layout : Layout := {|
  tableHeads := [th_by "datetime" "timestamp"; th "height"; th "message"; th "status"; th "elapsed"];
  gridTemplateColumns := Px <$> [165; 80; 160; 100; 80]; givenWidth := None;
  sorted_by := Some (NodesLive.sort_ (NodesLive.initialState true)) |}.

Definition nodes_bootstrap_layout : Layout := {|
  tableHeads := [th_by "#" "index"; th_by "global slot" "globalSlot"; th "height";
    th_by "best tip" "bestTip"; th_by "amount" "fetchedBlocks"; th_by "min" "fetchedBlocksMin";
    th_by "max" "fetchedBlocksMax"; th_by "avg" "fetchedBlocksAvg"; th_by "amount" "appliedBlocks";
    th_by "min" "appliedBlocksMin"; th_by "max" "appliedBlocksMax"; th_by "avg" "appliedBlocksAvg"];
  gridTemplateColumns := Px <$> [50; 100; 80; 140; 80; 65; 65; 80; 80; 65; 65; 80];
  givenWidth := None; sorted_by := Some (NodesBootstrap.sort_ (NodesBootstrap.initialState true)) |}.

Definition node_dht_layout : Layout := {|
  tableHeads := th <$> ["connection"; "peerId"; "addr. count"; "HEX distance"; "binary distance";
    "Zero prefixes"; "bucket"];
  gridTemplateColumns := Px <$> [140; 140; 110; 130; 160; 120; 110];
  givenWidth := None; sorted_by := None |}.

Definition connections_layout : Layout := {|
  tableHeads := th <$> ["ID"; "datetime"; "remote address"; "PID"; "FD"; "incoming"; "alias";
    "decrypted in"; "decrypted out"];
  gridTemplateColumns := Px <$> [80; 170; 190; 90; 60; 100; 120; 110; 110];
  givenWidth := None; sorted_by := None |}.

Definition bootstrap_stats_layout : Layout := {|
  tableHeads := [th_by "datetime" "finish"; th_by "result" "typeErr"; th_by "duration" "durationInSecs";
    th "peerId"; th "address"; th_by "existing peers" "existingPeers"; th_by "new peers" "newPeers"];
  gridTemplateColumns := Px <$> [165; 200; 100; 150; 250; 120; 100];
  givenWidth := Some 1085; sorted_by := Some (BootstrapStats.sort_ BootstrapStats.initialState) |}.

Definition blocks_layout : Layout := {|
  tableHeads := [th_by "ID" "messageId"; th_by "datetime" "date"; th_by "message hash" "hash"; th "height";
    th_by "from" "sender"; th_by "to" "receiver"; th_by "recv. time" "receivedLatency";
    th_by "sent time" "sentLatency"; th_by "message kind" "messageKind"];
  gridTemplateColumns := Px <$> [90; 165; 125; 80; 150; 150; 110; 110; 160; 40];
  givenWidth := None; sorted_by := Some (Blocks.sort_ Blocks.initialState) |}.

Definition messages_layout : Layout := {|
  tableHeads := th <$> ["ID"; "datetime"; "remote address"; "direction"; "size"; "stream kind";
    "message kind"];
  gridTemplateColumns := Px <$> [80; 170; 190; 100; 80; 140; 400];
  givenWidth := None; sorted_by := None |}.

Definition splits_layout : Layout := {|
  tableHeads := [th "address"; th_by "name" "node"; th_by "peer ID" "peerId";
    th_by "Conn. In / Out" "outgoingConnections"];
  gridTemplateColumns := [Px 115; Px 85; Px 80; Fr];
  givenWidth := Some 400; sorted_by := Some Splits.default_sort |}.

Definition work_pool_layout : Layout := {|
  tableHeads := [th_by "datetime" "timestamp"; th "id"; th_by "status" "commitment";
    th_by "created latency" "commitmentCreatedLatency"; th_by "received latency" "commitmentRecLatency";
    th_by "origin" "commitmentOrigin"; th_by "status" "snark";
    th_by "received latency" "snarkRecLatency"; th_by "origin" "snarkOrigin"];
  gridTemplateColumns := Px <$> [165; 140; 110; 150; 150; 100; 110; 150; 100];
  givenWidth := None; sorted_by := Some (WorkPool.sort_ (WorkPool.initialState true)) |}.

Definition mempool_layout : Layout := {|
  tableHeads := th <$> ["kind"; "tx hash"; "sender"; "fee (MINA)"; "amount (MINA)"; "nonce"; "memo"; ""];
  gridTemplateColumns := Px <$> [140; 130; 130; 100; 120; 90; 180; 80];
  givenWidth := Some 980; sorted_by := None |}.

Definition memory_layout : Layout := {|
  tableHeads := th <$> ["children"; "share"; "executable"; "size"; "function"];
  gridTemplateColumns := [Px 70; Px 170; Px 140; Px 100; Auto];
  givenWidth := Some 980; sorted_by := None |}.

Definition state_actions_layout : Layout := {|
  tableHeads := [th "category"; th_by "calls" "count"; th_by "mean" "meanTime"; th_by "total" "totalTime"];
  gridTemplateColumns := [Auto; Px 60; Px 80; Px 105];
  givenWidth := Some 350; sorted_by := None |}.

Definition wallets_layout : Layout := {|
  tableHeads := th <$> ["public key"; "balance"; "nonce"; "last tx. time"; "last tx. memo";
    "last tx. status"; "txs. ratio"];
  gridTemplateColumns := Px <$> [220; 100; 100; 170; 140; 125; 160];
  givenWidth := None; sorted_by := None |}.

Definition dashboard_peers_layout : Layout := {|
  tableHeads := [th_by "peer" "status"; th_by "datetime" "timestamp"; th_by "best tip" "height"];
  gridTemplateColumns := Px <$> [130; 165; 89];
  givenWidth := Some 384; sorted_by := Some (Dashboard.peersSort Dashboard.initialState) |}.

Definition layouts : list Layout :=
  [won_slots_layout true; won_slots_layout false; directories_layout; files_layout;
   nodes_overview_layout; nodes_live_layout; nodes_bootstrap_layout; node_dht_layout;
   connections_layout; bootstrap_stats_layout; blocks_layout; messages_layout; splits_layout;
   work_pool_layout; mempool_layout; memory_layout; state_actions_layout; wallets_layout;
   dashboard_peers_layout].

(** The headings of a sorted table that are marked as the current order. *)
Definition marked (l : Layout) (ts : TableSort) : list Head :=
  List.filter (fun h => String.eqb (sort_key h) (sortBy ts)) (tableHeads l).

(** [listenToSort] of the state actions: the heading that gets its class;
    [item(-1)] has no class list. *)
Definition listenToSort (sort : TableSort) : result nat :=
  match findIndex (fun h => bool_decide (h_sort h = Some (sortBy sort))) (tableHeads state_actions_layout) with
  | Some i => Ok i
  | None => Throw "Cannot read properties of null (reading 'classList')"
  end.

Definition state_actions_rows (groups : list StateActions.Group) : list StateActions.Group :=
  List.filter StateActions.display groups.

(** ** Ids in addresses *)

Fixpoint all_digits (s : string) : bool :=
  match s with
  | EmptyString => true
  | String c s' => (0 <=? Blocks.digit c) && (Blocks.digit c <=? 9) && all_digits s'
  end.

Lemma digits_pretty_go x s : all_digits s = true -> all_digits (pretty_N_go x s) = true.
Proof.
  revert s. induction (N.lt_wf_0 x) as [x _ IH]. intros s Hs.
  destruct (decide (x = 0%N)) as [->|Hx]; [by rewrite pretty_N_go_0|].
  rewrite pretty_N_go_step by lia. apply IH; [apply N.div_lt; lia|].
  cbn [all_digits]. pose proof (N.mod_lt x 10 ltac:(lia)).
  rewrite Blocks.digit_char, Hs, andb_true_r by done. rewrite andb_true_iff, !Z.leb_le. generalize dependent (x `mod` 10)%N. intros d Hd. lia.
Qed.

Lemma all_digits_show n : 0 <= n -> all_digits (show n) = true.
Proof.
  intros Hn. destruct (decide (n = 0)) as [->|]; [done|].
  rewrite Blocks.show_N by lia. by apply digits_pretty_go.
Qed.

#[export] Instance string_key : RouteKey string.
Proof.
  refine {| segment := fun k => k; from_segment := Key; key_ok := fun k => truthy_str k = true |}; done.
Defined.

(** [Number(route.params['id'])] *)
#[export] Instance number_key : RouteKey Z.
Proof.
  refine {| segment := show;
            from_segment := fun s => if all_digits s then Key (Blocks.BigInt s) else NotANumber;
            key_ok := fun k => 0 <= k |}.
  - intros k Hk. by rewrite all_digits_show, Blocks.BigInt_show.
  - intros k _. apply show_truthy.
Defined.

(** [if (this.idFromRoute)] of a string and of a number, and [hasValue]. *)
Definition truthy_id (id : FromRoute string) : bool :=
  match id with Key s => truthy_str s | _ => false end.

Definition truthy_number (id : FromRoute Z) : bool :=
  match id with Key n => truthyZ n | _ => false end.

Definition has_id `{HasValue} (id : FromRoute Z) : bool :=
  hasValue match id with Absent => None | _ => Some id end.

(** ** The pages *)

Definition node_dht_page : Page NodeDht.Peer string :=
  mkPage NodeDht.peerId truthy_id true SelectRow false false false Never.

Definition bootstrap_stats_page : Page BootstrapStats.StatsRequest string :=
  mkPage BootstrapStats.peerId truthy_id true SelectRow false false false Never.

Definition connections_page : Page NetworkConnections.Connection Z :=
  mkPage NetworkConnections.connectionId truthy_number true OnlyScroll false false true Never.

Definition work_pool_page : Page WorkPool.Pool string :=
  mkPage WorkPool.id truthy_id false ClickRow true false false Never.

(** The first value of the active transaction is skipped: the events of the
    model are those after it. *)
Definition mempool_page : Page Mempool.Transaction string :=
  mkPage Mempool.txHash truthy_id false ClickRow true false false IfAny.

(** The address has the decimal digits of the slot. *)
Definition won_slots_page : Page WonSlots.Slot string :=
  mkPage (fun s => show (WonSlots.globalSlot s)) truthy_id true ClickRow true true false Always.

Definition nodes_bootstrap_page `{HasValue} : Page NodesBootstrap.BootstrapNode Z :=
  mkPage (fun n => Z.of_nat (NodesBootstrap.index n)) has_id true ClickRow false false false Never.

Definition nodes_overview_page : Page NodesOverview.Node string :=
  mkPage NodesOverview.name truthy_id true ClickRow false false false Never.

(** The components: what [setupTable] gives the shared table, and how the page
    follows the address. *)
Record Component (Row K : Type) := mkComponent { layout : Layout; page : Page Row K }.
Arguments mkComponent {Row K} _ _.

Definition NetworkNodeDhtTable := mkComponent node_dht_layout node_dht_page.
Definition NetworkBootstrapStatsTable := mkComponent bootstrap_stats_layout bootstrap_stats_page.
Definition NetworkConnectionsTable := mkComponent connections_layout connections_page.
Definition SnarksWorkPoolTable := mkComponent work_pool_layout work_pool_page.
Definition MempoolTable := mkComponent mempool_layout mempool_page.
Definition WonSlotsTable (isDesktop : bool) := mkComponent (won_slots_layout isDesktop) won_slots_page.
Definition NodesBootstrapTable `{HasValue} := mkComponent nodes_bootstrap_layout nodes_bootstrap_page.
Definition NodesOverviewTable := mkComponent nodes_overview_layout nodes_overview_page.

(** A page that keeps its promises to the table. *)
Class CarefulPage {Row K} `{RouteKey K} (p : Page Row K) : Prop := page_careful : careful p.

#[export] Instance node_dht_careful : CarefulPage node_dht_page.
Proof. by repeat split; auto. Qed.
#[export] Instance bootstrap_stats_careful : CarefulPage bootstrap_stats_page.
Proof. by repeat split; auto. Qed.
#[export] Instance connections_careful : CarefulPage connections_page.
Proof. by repeat split; auto. Qed.
#[export] Instance work_pool_careful : CarefulPage work_pool_page.
Proof. by repeat split; auto. Qed.
#[export] Instance mempool_careful : CarefulPage mempool_page.
Proof. by repeat split; auto. Qed.
#[export] Instance won_slots_careful : CarefulPage won_slots_page.
Proof. by repeat split; auto. Qed.
#[export] Instance nodes_bootstrap_careful `{HasValue} : CarefulPage nodes_bootstrap_page.
Proof. split; [apply (hasValue_spec (@None (FromRoute Z)))|by repeat split; auto]. Qed.
#[export] Instance nodes_overview_careful : CarefulPage nodes_overview_page.
Proof. by repeat split; auto. Qed.

(** ** Tables with rules of their own *)

(** *** Fuzzing *)

Inductive FuzzOutput :=
| SetDirectory (d : Fuzzing.Directory)
| GetFileDetails (f : Fuzzing.File)
| Go (path : list string)
| ScrollIndex (i : Z)
| Failure (msg : string).

Record DirTable := mkDirTable {
  directories : list Fuzzing.Directory;
  activeDirectory : option Fuzzing.Directory;
  dirFromRoute : option string
}.

Definition go_directory (active : option Fuzzing.Directory) (rest : list string) : FuzzOutput :=
  match active with
  | Some d => Go (Fuzzing.fullName d :: rest)
  | None => Failure "Cannot read properties of undefined (reading 'fullName')"
  end.

(** [answered]: the store has changed the active directory of the component
    when [dispatch] returns. *)
Definition dir_onRowClick (answered : bool) (t : DirTable) (dir : Fuzzing.Directory)
    : DirTable * list FuzzOutput :=
  if bool_decide (activeDirectory t = Some dir) then (t, [go_directory (activeDirectory t) []])
  else
    let active := if answered then Some dir else activeDirectory t in
    (mkDirTable (directories t) active (dirFromRoute t), [SetDirectory dir; go_directory active []]).

Definition listenToDirectories (answered : bool) (t : DirTable) (l : list Fuzzing.Directory)
    : DirTable * list FuzzOutput :=
  match l with
  | [] => (t, [])
  | first :: _ =>
    let t' := mkDirTable l (activeDirectory t) (dirFromRoute t) in
    match dirFromRoute t with
    | Some path =>
      (mkDirTable l (activeDirectory t) None,
       match List.find (fun d => String.eqb (Fuzzing.fullName d) path) l with
       | Some d => [SetDirectory d]
       | None => []
       end)
    | None => match activeDirectory t with
              | None => dir_onRowClick answered t' first
              | Some _ => (t', [])
              end
    end
  end.

Record FileTable := mkFileTable {
  files : list Fuzzing.File;
  activeFile : option Fuzzing.File;
  fileDirectory : option Fuzzing.Directory;
  pathFromRoute : option string
}.

(** [Math.floor(offsetHeight / 2 / rowSize)] rows above the file. *)
Definition file_scroll (offsetHeight : Z) (l : list Fuzzing.File) (path : string) : Z :=
  index_number (findIndex (fun f => String.eqb (Fuzzing.path f) path) l) -
  floor_div offsetHeight (2 * DESKTOP_ROW_HEIGHT).

Definition listenToFiles (offsetHeight : Z) (t : FileTable) (l : list Fuzzing.File)
    : FileTable * list FuzzOutput :=
  let t' := mkFileTable l (activeFile t) (fileDirectory t) (pathFromRoute t) in
  match pathFromRoute t with
  | Some path =>
    match List.find (fun f => String.eqb (Fuzzing.path f) path) l with
    | Some f => (mkFileTable l (activeFile t) (fileDirectory t) None,
                 [GetFileDetails f; ScrollIndex (file_scroll offsetHeight l path)])
    | None => (t', [])
    end
  | None => (t', [])
  end.

Definition file_onRowClick (t : FileTable) (f : Fuzzing.File) : list FuzzOutput :=
  (if bool_decide (Fuzzing.path <$> activeFile t = Some (Fuzzing.path f)) then [] else [GetFileDetails f])
  ++ [go_directory (fileDirectory t) [Fuzzing.path f]].

(** The timer of five seconds. *)
Definition file_timer (t : FileTable) : list FuzzOutput :=
  match activeFile t with Some f => [GetFileDetails f] | None => [] end.

(** *** The side panel of the splits *)

Inductive SplitsOutput := Topology (address : option string) | SetActivePeer (p : option Splits.Peer).

Definition splits_height (isDesktop : bool) (peers : nat) : Z :=
  if isDesktop then (Z.of_nat peers + 1) * 36 + 1 else Z.of_nat peers * 104 + 90.

Definition splits_onRowClick (activePeer row : option Splits.Peer) : list SplitsOutput :=
  match row with Some r => [Topology (Some (Splits.address r))] | None => [] end ++
  (if bool_decide (activePeer = row) then [Topology None; SetActivePeer None] else [SetActivePeer row]).

Definition splits_answer (activePeer : option Splits.Peer) (out : list SplitsOutput) : option Splits.Peer :=
  fold_left (fun a o => match o with SetActivePeer p => p | Topology _ => a end) out activePeer.

(** *** Memory *)

Definition memory_rows (active : option Memory.Resource) : list Memory.Resource :=
  match active with Some r => Memory.r_children r | None => [] end.

Definition memory_onRowClick (row : Memory.Resource) : option Memory.Resource :=
  match Memory.r_children row with [] => None | _ => Some row end.

(** The indices whose rows can be opened, and the others. *)
Definition with_children (l : list Memory.Resource) : list nat :=
  imap (fun i r => (i, r)) l ≫= fun x => match Memory.r_children x.2 with [] => [] | _ => [x.1] end.
Definition without_children (l : list Memory.Resource) : list nat :=
  imap (fun i r => (i, r)) l ≫= fun x => match Memory.r_children x.2 with [] => [x.1] | _ => [] end.

(** *** Links to the messages *)

(** [goToNetworkMessages(addr)] and [seeMessagesForAddress(addr)]: the query is
    merged with the current one. *)
Definition go_to_address (q : MessagesPage.Query) (addr : string) : MessagesPage.Query :=
  MessagesPage.mkQuery (MessagesPage.q_stream_kind q) (MessagesPage.q_message_kind q) (Some addr)
    (MessagesPage.q_from q) (MessagesPage.q_to q) (MessagesPage.q_node q).

(** [scrollToElement()] of the messages: to the message of the address, or to the
    last one. *)
Definition messages_scroll (offsetHeight : Z) (idFromRoute : option Z) (l : list Messages.Message) : Z :=
  let id := match idFromRoute with
            | Some i => if truthyZ i then Some i else Messages.id <$> last_item l
            | None => Messages.id <$> last_item l
            end in
  scrollToElement offsetHeight l (fun m => bool_decide (Some (Messages.id m) = id)).

(** ** Properties *)



(** A page raises nothing in any sequence of rows, clicks and changes of the active row
    from its opening on, at whatever address, as long as the store makes only rows active
    that are shown. *)
Definition never_raises {Row K} `{RouteKey K} (p : Page Row K) : Prop :=
  forall (h : Z) (param : option string) (t : Table Row K) (ev : Event Row),
    reachable p h param t -> allowed t ev -> ~ raises (step p h t ev).2.

Lemma careful_never_raises {Row K} `{RouteKey K} (p : Page Row K) `{!CarefulPage p} :
  adopt p ≠ Always -> never_raises p.
Proof.
  intros Ha h param t ev Ht Hev. apply handler_quiet; [apply page_careful|done| |done].
  by eapply reachable_idle; [apply page_careful|].
Qed.

Lemma won_slots_raises : ~ never_raises won_slots_page.
Proof. intros Hn. apply (Hn 0 None (open None) (EvActive None)); [apply reach_open|exact I|eexists; left]. Qed.

(** C16: The tables of the routing table, the bootstrap statistics, the connections, the
    work pool, the mempool and the nodes (bootstrap and overview) raise nothing in any
    sequence of rows, clicks and changes of the active row from their opening on, at
    whatever address, as long as the store makes only rows active that are shown; the
    table of the won slots does not have this property. *)
Theorem pages_never_raise `{HasValue} :
  never_raises node_dht_page /\ never_raises bootstrap_stats_page /\ never_raises connections_page /\
  never_raises work_pool_page /\ never_raises mempool_page /\ never_raises nodes_bootstrap_page /\
  never_raises nodes_overview_page /\ ~ never_raises won_slots_page.
Proof.
  split_and!; [by eapply careful_never_raises; try apply _..|apply won_slots_raises].
Qed.

(** The page of the won slots reads the active slot before it looks whether
    there is one. *)
Lemma won_slots_without_active h :
  raises (step won_slots_page h initialTable (EvActive None)).2.
Proof. eexists. left. Qed.


(** The rows of a filter that hides every slot are dropped: the table still shows
    the slots of the filter before. *)
Lemma won_slots_filter_stale `{TableSorter WonSlots.Slot} h s f t st st' :
  rows t = WonSlots.filteredSlots s -> rows t = [st] -> WonSlots.slots s = [st] ->
  WonSlots.show_slot f st = false ->
  WonSlots.reducer true false s (WonSlots.ChangeFilters f) = Ok st' ->
  WonSlots.filteredSlots st' = [] /\
  rows (step won_slots_page h t (EvRows (WonSlots.filteredSlots st'))).1 = [st].
Proof.
  intros _ Ht Hs Hf [= <-]. cbn [WonSlots.filteredSlots]. rewrite Hs.
  assert (WonSlots.sortSlots [st] (WonSlots.sort_ s) = [st]) as ->.
  { apply Permutation_singleton_r, sort_perm. }
  unfold WonSlots.filterSlots. cbn [List.filter]. rewrite Hf. split; [done|]. cbn. done.
Qed.

(** A connection with the id zero is not scrolled to. *)
Lemma connection_zero h l :
  l ≠ [] -> (step connections_page h (open (Some "0")) (EvRows l)).2 = [].
Proof. intros Hl. unfold step, listenToRows. by destruct l. Qed.

(** Two requests to one peer: the second cannot be selected while the first is. *)
Lemma second_request_unselectable (r1 r2 : BootstrapStats.StatsRequest) l k :
  BootstrapStats.peerId r1 = BootstrapStats.peerId r2 ->
  onRowClick bootstrap_stats_page (mkTable l (Some r1) k) (Some r2) true = [].
Proof. intros E. unfold onRowClick, same_row. cbn. by rewrite E, bool_decide_eq_true_2. Qed.

(** *** Headings *)

Definition layout_ok (l : Layout) : bool :=
  match minWidth l with Some w => 0 <? w | None => false end &&
  (length (tableHeads l) <=? length (gridTemplateColumns l))%nat &&
  bool_decide (NoDup (sort_key <$> tableHeads l)).

Lemma layouts_checked : forallb layout_ok layouts = true.
Proof. vm_compute. reflexivity. Qed.

Lemma marked_once heads ts :
  NoDup (sort_key <$> heads) ->
  (length (List.filter (fun h => String.eqb (sort_key h) (sortBy ts)) heads) <= 1)%nat.
Proof.
  induction heads as [|hd hs IH]; [cbn; lia|]. rewrite fmap_cons. intros [Hnot Hnd]%NoDup_cons.
  cbn [List.filter]. destruct (String.eqb_spec (sort_key hd) (sortBy ts)) as [E|_]; [|by apply IH].
  rewrite lfilter_none; [done|]. intros x Hx. apply String.eqb_neq. intros Ex. apply Hnot.
  rewrite E, <- Ex. by apply list_elem_of_fmap_2.
Qed.

(** Every table has a column for each heading and a width that is a number,
    although some columns have no width in pixels, and whatever the order its
    store can be in, at most one heading is marked as the current one. *)
Theorem layouts_well_formed (l : Layout) (ts : TableSort) :
  l ∈ layouts ->
  (exists w, minWidth l = Some w /\ 0 < w) /\
  (length (tableHeads l) <= length (gridTemplateColumns l))%nat /\
  (length (marked l ts) <= 1)%nat.
Proof.
  intros Hl. pose proof layouts_checked as Hok. rewrite forallb_forall in Hok.
  specialize (Hok l (proj1 (list_elem_of_In _ _) Hl)). unfold layout_ok in Hok. breflect.
  destruct (minWidth l) as [w|]; [|done]. breflect. split; [by exists w|].
  split; [by apply Nat.leb_le|]. by apply marked_once.
Qed.

Lemma layouts_well_formed_witness :
  splits_layout ∈ layouts /\ (exists w, minWidth splits_layout = Some w /\ 0 < w) /\
  (length (tableHeads splits_layout) <= length (gridTemplateColumns splits_layout))%nat /\
  (length (marked splits_layout Splits.default_sort) <= 1)%nat.
Proof.
  assert (Hin : splits_layout ∈ layouts) by (unfold layouts; set_solver).
  split; [exact Hin|]. exact (layouts_well_formed splits_layout Splits.default_sort Hin).
Defined.

(** The order the requests of the bootstrap statistics come in is none of the
    columns: no heading is marked. *)
Lemma bootstrap_stats_unmarked :
  sorted_by bootstrap_stats_layout ≫= (fun ts => Some (marked bootstrap_stats_layout ts)) = Some [].
Proof. reflexivity. Qed.

(** A table without a given width that has a flexible column has none. *)
Lemma flexible_needs_width l w :
  w ∈ gridTemplateColumns l -> width_number w = None -> givenWidth l = None -> minWidth l = None.
Proof. intros. apply minWidth_number. eauto. Qed.

(** The heading of the categories has no key of its own: in its order the panel
    of the state actions raises. *)
Lemma listenToSort_raises sort :
  throws (listenToSort sort) = true <->
  sortBy sort ≠ "count" /\ sortBy sort ≠ "meanTime" /\ sortBy sort ≠ "totalTime".
Proof.
  unfold listenToSort. cbn [state_actions_layout tableHeads findIndex th th_by h_sort].
  repeat case_bool_decide; simplify_eq/=; intuition congruence.
Qed.

(** *** Fuzzing *)

(** A click on a directory leads to the address of that directory only when the
    store has answered by then; otherwise it leads to the one that was active
    before, and fails when there was none. *)
Lemma dir_click_address t dir :
  activeDirectory t ≠ Some dir ->
  (dir_onRowClick true t dir).2 = [SetDirectory dir; Go [Fuzzing.fullName dir]] /\
  (dir_onRowClick false t dir).2 =
    [SetDirectory dir;
     match activeDirectory t with
     | Some old => Go [Fuzzing.fullName old]
     | None => Failure "Cannot read properties of undefined (reading 'fullName')"
     end].
Proof. intros Ha. unfold dir_onRowClick. rewrite bool_decide_eq_false_2 by done. done. Qed.

(** The file of the address is waited for: answers without it change nothing,
    and the first answer with it loads it and scrolls to it. *)
Lemma file_waits h t l path :
  pathFromRoute t = Some path -> (forall f, f ∈ l -> Fuzzing.path f ≠ path) ->
  listenToFiles h t l = (mkFileTable l (activeFile t) (fileDirectory t) (Some path), []).
Proof.
  intros Hp Hl. unfold listenToFiles. rewrite Hp.
  destruct (List.find _ l) as [f|] eqn:E; [|done].
  apply find_Some_elem in E as [Hf E]. breflect. by destruct (Hl f).
Qed.

Lemma file_found h t l path f :
  pathFromRoute t = Some path -> f ∈ l -> Fuzzing.path f = path -> NoDup (Fuzzing.path <$> l) ->
  exists i, l !! i = Some f /\
  listenToFiles h t l = (mkFileTable l (activeFile t) (fileDirectory t) None,
    [GetFileDetails f; ScrollIndex (Z.of_nat i - floor_div h 72)]).
Proof.
  intros Hp Hf Hpath Hd. apply list_elem_of_lookup in Hf as [i Hi]. exists i. split; [done|].
  assert (Huniq : forall j x, l !! j = Some x -> Fuzzing.path x = path -> j = i).
  { intros j x Hj Hx. apply (NoDup_lookup _ j i path Hd).
    - rewrite list_lookup_fmap, Hj. cbn. by rewrite Hx.
    - rewrite list_lookup_fmap, Hi. cbn. by rewrite Hpath. }
  unfold listenToFiles, file_scroll. rewrite Hp.
  assert (Hfi : String.eqb (Fuzzing.path f) path = true) by by apply String.eqb_eq.
  destruct (findIndex_complete (fun f => String.eqb (Fuzzing.path f) path) _ _ _ Hi Hfi) as (j & Hj & _). rewrite Hj.
  destruct (findIndex_Some _ _ _ Hj) as (y & Hy & Hfy & _). breflect.
  rewrite (Huniq j y Hy) by done. cbn [index_number].
  destruct (List.find (fun f => String.eqb (Fuzzing.path f) path) l) as [g|] eqn:E.
  - apply find_Some_elem in E as [Hg Eg]. breflect. apply list_elem_of_lookup in Hg as [k Hk].
    rewrite (Huniq k g Hk) in Hk by done. by assert (g = f) as -> by congruence.
  - pose proof (find_None_elem _ _ _ E (list_elem_of_lookup_2 _ _ _ Hi)) as Hno.
    cbn beta in Hno. by rewrite Hpath, String.eqb_refl in Hno.
Qed.

(** *** Splits, memory and links *)

(** A second click on the active peer takes the selection back, in the store and
    in the address. *)
Lemma splits_click_toggles active r :
  active ≠ Some r ->
  splits_answer active (splits_onRowClick active (Some r)) = Some r /\
  splits_answer (Some r) (splits_onRowClick (Some r) (Some r)) = None /\
  last (splits_onRowClick active (Some r)) = Some (SetActivePeer (Some r)).
Proof.
  intros Ha. unfold splits_onRowClick. rewrite bool_decide_eq_false_2, bool_decide_eq_true_2 by done. done.
Qed.

(** The rows that can be opened are those with an index in the first style, and a
    click opens exactly them. *)
Lemma memory_click_styled active i r :
  memory_rows active !! i = Some r ->
  (is_Some (memory_onRowClick r) <-> i ∈ with_children (memory_rows active)) /\
  (memory_onRowClick r = None <-> i ∈ without_children (memory_rows active)).
Proof.
  intros Hr. unfold memory_onRowClick, with_children, without_children.
  assert (Hx : forall x, (i, x) ∈ imap (fun i r => (i, r)) (memory_rows active) -> x = r).
  { intros x Hx. apply list_elem_of_lookup in Hx as [k Hk].
    rewrite list_lookup_imap in Hk. destruct (memory_rows active !! k) eqn:E; cbn in Hk; [|done].
    simplify_eq. congruence. }
  assert (Hin : (i, r) ∈ imap (fun i r => (i, r)) (memory_rows active)).
  { apply (list_elem_of_lookup_2 _ i). by rewrite list_lookup_imap, Hr. }
  rewrite !list_elem_of_bind. split; split.
  - intros [y Hy]. exists (i, r). split; [|done]. cbn. destruct (Memory.r_children r); [done|]. left.
  - intros ([j x] & Hj & Hm). cbn in Hj. destruct (Memory.r_children x) eqn:E; [by apply elem_of_nil in Hj|].
    apply list_elem_of_singleton in Hj as ->. rewrite <- (Hx x Hm), E. eauto.
  - intros Hn. exists (i, r). split; [|done]. cbn. destruct (Memory.r_children r); [left|done].
  - intros ([j x] & Hj & Hm). cbn in Hj. destruct (Memory.r_children x) eqn:E; [|by apply elem_of_nil in Hj].
    apply list_elem_of_singleton in Hj as ->. by rewrite <- (Hx x Hm), E.
Qed.

(** The link of a connection or a block opens the messages of its address. *)
Lemma address_link q addr :
  truthy_str addr = true ->
  MessagesPage.q_stream_kind q = None -> MessagesPage.q_message_kind q = None ->
  MessagesPage.getFiltersFromTheRoute (go_to_address q addr) = [Some (MessagesPage.address_filter addr)] /\
  MessagesPage.route_action None (go_to_address q addr) [MessagesPage.address_filter addr] =
    Messages.ToggleFilter (Messages.mkFilterPayload [MessagesPage.address_filter addr] true
      (Some (Messages.mkInterval (MessagesPage.q_from q) (MessagesPage.q_to q)))
      (if truthy_onum (MessagesPage.q_from q) then Some Messages.FORWARD else None)).
Proof.
  intros Ha Hs Hm. unfold MessagesPage.getFiltersFromTheRoute, MessagesPage.route_action, MessagesPage.has_query.
  cbn. rewrite Ha, Hs, Hm. cbn. done.
Qed.
End TablePages.
