(* ===== verification/Routing.v ===== *)
(** * Routes and guards

    [src/frontend/src/app/app.routing.ts], the routing modules of the features,
    [shared/guards/landing-page.guard.ts], [features/network/network.guard.ts]
    and [features/block-production/block-production.guard.ts].

    The router of Angular is a library. Of its matching the model has what its
    documentation says of one level: the routes are tried in order, a route with a
    plain path matches a segment that is equal to it, a path with a colon matches
    any segment, [**] matches everything, and [''] matches when nothing is left. A
    guard that refuses navigates elsewhere, which is the next step of
    [settle]. *)

From stdpp Require Import base list strings sets.
From S2P Require Import Prelude SharedLib AppStore Layout.

Module Routing.
Import Layout.

(** ** Route tables *)

Inductive Path := Seg (s : string) | Param (name : string) | Empty | Wild.

Inductive Guard := LandingPage | Network | BlockProduction.

Inductive Route :=
| Load (path : Path) (module : string) (title : option string) (canActivate : list Guard)
| Page (path : Path) (component : string) (children : list Route)
| Redirect (path : Path) (redirectTo : option string).

Definition route_path (r : Route) : Path :=
  match r with Load p _ _ _ | Page p _ _ | Redirect p _ => p end.

Definition APP_TITLE : string := "Open Mina".
Definition app_title (s : string) : option string := Some (APP_TITLE +:+ " - " +:+ s).

(** The part of [CONFIG] the routes depend on. *)
Record Flags := mkFlags { showLeaderboard : bool; showWebNodeLandingPage : bool }.

Definition generateRoutes (flags : Flags) (firstFeature : option string) : list Route :=
  [Load (Seg "dashboard") "DashboardModule" (app_title "Dashboard") [LandingPage];
   Load (Seg "nodes") "NodesModule" (app_title "Nodes") [];
   Load (Seg "resources") "ResourcesModule" (app_title "Resources") [];
   Load (Seg "network") "NetworkModule" (app_title "Network") [];
   Load (Seg "state") "StateModule" (app_title "State") [LandingPage];
   Load (Seg "snarks") "SnarksModule" (app_title "Snarks") [];
   Load (Seg "block-production") "BlockProductionModule" (app_title "Block Production") [LandingPage];
   Load (Seg "mempool") "MempoolModule" (app_title "Mempool") [LandingPage];
   Load (Seg "benchmarks") "BenchmarksModule" (app_title "Benchmarks") [LandingPage];
   Load (Seg "fuzzing") "FuzzingModule" (app_title "Fuzzing") [];
   Load (Seg "loading-web-node") "WebNodeModule" (app_title "Web Node") [LandingPage]] ++
  (if showLeaderboard flags then [Load Empty "LeaderboardModule" None []]
   else if showWebNodeLandingPage flags then [Page Empty "WebNodeLandingPageComponent" []]
   else []) ++
  [Redirect Wild (if showWebNodeLandingPage flags then Some "" else firstFeature)].

(** The tables of the features: the children of the feature's component, then the
    routes beside it that can still match. *)
Definition network_routes : list Route :=
  let load path module := Load (Seg path) module (app_title "Network") [Network] in
  [load "messages" "NetworkMessagesModule"; load "connections" "NetworkConnectionsModule";
   load "blocks" "NetworkBlocksModule"; load "topology" "DashboardSplitsModule";
   load "node-dht" "NetworkNodeDhtModule"; load "graph-overview" "DhtGraphModule";
   load "bootstrap-stats" "NetworkBootstrapStatsModule"; Redirect Wild (Some "messages")].

Definition block_production_routes : list Route :=
  let load path module := Load (Seg path) module None [BlockProduction] in
  [load "overview" "BlockProductionOverviewModule"; load "won-slots" "BlockProductionWonSlotsModule";
   Redirect Empty (Some "overview"); Redirect Wild (Some "")].

Definition nodes_routes : list Route :=
  let load path module := Load (Seg path) module (app_title "Nodes") [] in
  [load "overview" "NodesOverviewModule"; load "bootstrap" "NodesBootstrapModule";
   load "live" "NodesLiveModule"; Redirect Wild (Some "overview")].

(** The redirection reads the configuration while the module loads. *)
Definition snarks_routes (globalFeatures : option FeaturesConfig) : result (list Route) :=
  let load path module := Load (Seg path) module (app_title "Snarks") [] in
  match globalFeatures ≫= fun f => Config.sub_features f "snarks" with
  | Some subs => Ok [load "scan-state" "ScanStateModule"; load "work-pool" "SnarksWorkPoolModule";
                     Redirect Wild (head subs)]
  | None => Throw "Cannot read properties of undefined (reading '0')"
  end.

Definition state_routes : list Route :=
  [Load (Seg "actions") "StateActionsModule" (app_title "State") []; Redirect Wild (Some "actions")].

Definition resources_routes : list Route :=
  [Load (Seg "memory") "MemoryResourcesModule" None []; Redirect Wild (Some "memory")].

Definition benchmarks_routes : list Route :=
  [Load (Seg "wallets") "BenchmarksWalletsModule" (app_title "Benchmarks") [];
   Redirect Wild (Some "wallets")].

(** A page that is shown without and with a segment, with one component. *)
Definition page_with (component param : string) : list Route :=
  [Page Empty component [Page (Param param) component []]; Redirect Wild (Some "")].

Definition overview_routes : list Route :=
  [Page Empty "BlockProductionOverviewComponent"
     [Page (Param "epoch") "BlockProductionOverviewComponent"
        [Page (Param "slot") "BlockProductionOverviewComponent" []]];
   Redirect Wild (Some "")].

Definition fuzzing_routes : list Route :=
  [Page Empty "FuzzingComponent"
     [Page (Param "dir") "FuzzingComponent" [Page (Param "file") "FuzzingComponent" []]];
   Redirect Wild (Some "")].

(** ** Matching *)

Definition matches_segment (seg : string) (r : Route) : bool :=
  match route_path r with
  | Seg s => String.eqb s seg
  | Param _ => truthy_str seg
  | Empty => negb (truthy_str seg)
  | Wild => true
  end.

Definition first_match (table : list Route) (seg : string) : option Route :=
  List.find (matches_segment seg) table.

(** ** Guards *)

(** What a guard answers: it lets the navigation pass, or refuses it and
    navigates to other segments. *)
Inductive Verdict := Pass | Goto (segments : list string) | NavigationError.

(** [router.navigate([feature, subs[0]])]: an undefined segment is an error. *)
Definition goto (segments : list (option string)) : Verdict :=
  match mapM (fun s => s) segments with Some l => Goto l | None => NavigationError end.

Section Guards.
Context (env : Config.Env) (isBrowser : bool).

(** [networkGuard] and [blockProductionGuard] for the key [feature]. *)
Definition feature_guard (feature : string) (node : MinaNode) (currentRoute : string) : result Verdict :=
  match Config.getFeaturesConfig env (Some node) with
  | None => Throw "Cannot read properties of undefined"
  | Some features =>
    match Config.sub_features features feature with
    | Some subs =>
      if includes subs currentRoute then Ok Pass else Ok (goto [Some feature; head subs])
    | None =>
      match Config.getFirstFeature env isBrowser (Some node) with
      | Ok first => Ok (goto [first])
      | Throw e => Throw e
      end
    end
  end.

(** Where the navigation to [/feature/seg] leads: the routes of the feature are
    [table], each with the guard of the feature. *)
Inductive Landing := Shown (module : string) (segment : string) | Left_ (segments : list string)
                   | Failed_ | Again (segment : string).

Definition navigate_once (feature : string) (table : list Route) (node : MinaNode) (seg : string) : Landing :=
  match first_match table seg with
  | Some (Load (Seg path) module _ _) =>
    match feature_guard feature node path with
    | Ok Pass => Shown module path
    | Ok (Goto [f; s]) => if String.eqb f feature then Again s else Left_ [f; s]
    | Ok (Goto [f]) => if String.eqb f feature then Again "" else Left_ [f]
    | Ok (Goto l) => Left_ l
    | Ok NavigationError | Throw _ => Failed_
    end
  | Some (Redirect _ (Some to)) => Again to
  | _ => Failed_
  end.

(** The navigation goes on until a page is shown or the feature is left. *)
Fixpoint settle (fuel : nat) (feature : string) (table : list Route) (node : MinaNode) (seg : string)
    : option Landing :=
  match fuel with
  | O => None
  | S fuel' =>
    match navigate_once feature table node seg with
    | Again seg' => settle fuel' feature table node seg'
    | landing => Some landing
    end
  end.
End Guards.

(** *** The guard of the landing page *)

(** [isFirstLoad] is a variable of the module. [url] is the address of the store,
    which may not be known yet. *)
Definition landingPageGuard (showLanding : bool) (isFirstLoad : bool) (url : option string)
    : bool * Verdict :=
  if negb isFirstLoad || negb showLanding then (isFirstLoad, Pass)
  else
    (false,
     match url with
     | None => Pass
     | Some url =>
       let startsWith p := string_prefix p url in
       if startsWith "/dashboard" || startsWith "/block-production" || startsWith "/state" ||
          startsWith "/mempool" || startsWith "/loading-web-node"
       then Goto ["loading-web-node"]
       else if negb (startsWith "/") && negb (startsWith "/?") && negb (startsWith "/leaderboard")
       then Goto [""]
       else Pass
     end).

(** ** Properties *)

(** The plain paths of a table. *)
Definition paths (table : list Route) : list string :=
  table ≫= fun r => match route_path r with Seg s => [s] | _ => [] end.

Section Settle.
Context (env : Config.Env) (isBrowser : bool) (node : MinaNode).
Context (feature : string) (features : FeaturesConfig) (subs : list string).
Context (Hfeatures : Config.getFeaturesConfig env (Some node) = Some features).
Context (Hsubs : Config.sub_features features feature = Some subs).

Lemma guard_pass p : p ∈ subs -> feature_guard env isBrowser feature node p = Ok Pass.
Proof.
  intros Hp. unfold feature_guard, includes. rewrite Hfeatures, Hsubs.
  by rewrite bool_decide_eq_true_2.
Qed.

Lemma guard_refuse p h :
  p ∉ subs -> head subs = Some h -> feature_guard env isBrowser feature node p = Ok (Goto [feature; h]).
Proof.
  intros Hp Hh. unfold feature_guard, includes. rewrite Hfeatures, Hsubs, Hh.
  by rewrite bool_decide_eq_false_2.
Qed.

(** A route of the table is shown, or leads to the first sub-feature. *)
Lemma navigate_path table p m title gs h :
  first_match table p = Some (Load (Seg p) m title gs) -> head subs = Some h ->
  navigate_once env isBrowser feature table node p = if bool_decide (p ∈ subs) then Shown m p else Again h.
Proof.
  intros Hm Hh. unfold navigate_once. rewrite Hm.
  destruct (decide (p ∈ subs)) as [Hp|Hp].
  - by rewrite guard_pass, bool_decide_eq_true_2.
  - rewrite (guard_refuse p h), bool_decide_eq_false_2 by done. by rewrite String.eqb_refl.
Qed.

(** The table of a feature whose redirections lead to [p0] after [k] steps. *)
Lemma settle_redirects table seg k p0 :
  (forall fuel, settle env isBrowser (k + fuel) feature table node seg =
                settle env isBrowser fuel feature table node p0) ->
  forall m title gs mh th gh h,
  first_match table p0 = Some (Load (Seg p0) m title gs) ->
  first_match table h = Some (Load (Seg h) mh th gh) -> head subs = Some h ->
  exists md p, settle env isBrowser (k + 2) feature table node seg = Some (Shown md p) /\
               p ∈ subs /\ (p = p0 \/ p = h).
Proof.
  intros Hk m title gs mh th gh h Hm Hmh Hh. rewrite Hk.
  assert (Hin : h ∈ subs) by (destruct subs; [done|]; cbn in Hh; simplify_eq; left).
  cbn [settle]. rewrite (navigate_path table p0 m title gs h Hm Hh).
  case_bool_decide as Hp; [exists m, p0; auto|].
  rewrite (navigate_path table h mh th gh h Hmh Hh), bool_decide_eq_true_2 by done.
  exists mh, h. auto.
Qed.
End Settle.

Lemma network_match p : p ∈ paths network_routes ->
  exists m, first_match network_routes p = Some (Load (Seg p) m (app_title "Network") [Network]).
Proof.
  intros Hp. cbn in Hp. repeat (apply elem_of_cons in Hp as [->|Hp]; [by eexists|]).
  by apply elem_of_nil in Hp.
Qed.

Lemma block_production_match p : p ∈ paths block_production_routes ->
  exists m, first_match block_production_routes p = Some (Load (Seg p) m None [BlockProduction]).
Proof.
  intros Hp. cbn in Hp. repeat (apply elem_of_cons in Hp as [->|Hp]; [by eexists|]).
  by apply elem_of_nil in Hp.
Qed.

Lemma settle_mono env isBrowser n feature table node seg l :
  settle env isBrowser n feature table node seg = Some l ->
  settle env isBrowser (S n) feature table node seg = Some l.
Proof.
  revert seg. induction n as [|n IH]; intros seg; [done|]. intros Hs. cbn [settle] in Hs.
  change (settle env isBrowser (S (S n)) feature table node seg) with
    (match navigate_once env isBrowser feature table node seg with
     | Again seg' => settle env isBrowser (S n) feature table node seg'
     | landing => Some landing
     end).
  destruct (navigate_once env isBrowser feature table node seg); auto.
Qed.

Lemma network_unknown env isBrowser node seg :
  seg ∉ paths network_routes ->
  forall fuel, settle env isBrowser (1 + fuel) "network" network_routes node seg =
               settle env isBrowser fuel "network" network_routes node "messages".
Proof.
  intros Hseg fuel. cbn [settle Nat.add]. unfold navigate_once.
  assert (first_match network_routes seg = Some (Redirect Wild (Some "messages"))) as ->; [|done].
  unfold first_match, network_routes. cbn in Hseg. cbn [List.find matches_segment route_path].
  repeat match goal with
  | |- context [String.eqb ?a seg] => destruct (String.eqb_spec a seg) as [<-|_]; [set_solver|]
  end. done.
Qed.

(** C17: Every navigation below [/network] ends at a page of the node's features.
    Whatever follows the slash, after at most two redirections a page is shown
    that the configuration lists, as long as the first page it lists exists. *)
Theorem network_navigation_settles env isBrowser node features subs h seg :
  Config.getFeaturesConfig env (Some node) = Some features ->
  Config.sub_features features "network" = Some subs ->
  head subs = Some h -> h ∈ paths network_routes ->
  exists module p,
    settle env isBrowser 3 "network" network_routes node seg = Some (Shown module p) /\
    p ∈ subs /\ p ∈ paths network_routes.
Proof.
  intros Hf Hs Hh Hin. destruct (network_match h Hin) as [mh Hmh].
  destruct (decide (seg ∈ paths network_routes)) as [Hseg|Hseg].
  - destruct (network_match seg Hseg) as [m Hm].
    destruct (settle_redirects env isBrowser node "network" features subs Hf Hs network_routes seg 0 seg
                (fun _ => eq_refl) _ _ _ _ _ _ h Hm Hmh Hh) as (md & p & Hset & Hp & Hor).
    exists md, p. split; [by apply settle_mono|]. split; [done|]. by destruct Hor as [-> | ->].
  - assert (Hm : first_match network_routes "messages" = Some (Load (Seg "messages") "NetworkMessagesModule"
        (app_title "Network") [Network])) by done.
    destruct (settle_redirects env isBrowser node "network" features subs Hf Hs network_routes seg 1 "messages"
                (network_unknown env isBrowser node seg Hseg) _ _ _ _ _ _ h Hm Hmh Hh)
      as (md & p & Hset & Hp & Hor).
    exists md, p. split; [done|]. split; [done|]. destruct Hor as [-> | ->]; [left|done].
Qed.

Definition witness_node : MinaNode :=
  mkMinaNode "node" None None None (Some (FObject [("network", ["topology"; "node-dht"])])) false false.

Lemma network_navigation_settles_witness :
  exists module p,
    settle (Config.mkEnv [witness_node] None) true 3 "network" network_routes witness_node "no-page"
      = Some (Shown module p) /\
    p ∈ ["topology"; "node-dht"] /\ p ∈ paths network_routes.
Proof.
  refine (network_navigation_settles (Config.mkEnv [witness_node] None) true witness_node
            (FObject [("network", ["topology"; "node-dht"])]) ["topology"; "node-dht"] "topology" "no-page"
            _ _ _ _); [reflexivity..|]. cbn. set_solver.
Defined.

Lemma block_production_unknown env isBrowser node seg :
  seg ∉ paths block_production_routes ->
  forall fuel, settle env isBrowser (2 + fuel) "block-production" block_production_routes node seg =
               settle env isBrowser (if truthy_str seg then fuel else S fuel) "block-production"
                 block_production_routes node "overview".
Proof.
  intros Hseg fuel. destruct seg as [|c seg]; [done|].
  assert (Hm : first_match block_production_routes (String c seg) = Some (Redirect Wild (Some ""))).
  { unfold first_match, block_production_routes. cbn in Hseg.
    cbn [List.find matches_segment route_path].
    destruct (String.eqb_spec "overview" (String c seg)) as [E|_]; [rewrite E in Hseg; set_solver|].
    destruct (String.eqb_spec "won-slots" (String c seg)) as [E|_]; [rewrite E in Hseg; set_solver|].
    done. }
  cbn [settle Nat.add]. unfold navigate_once at 1. rewrite Hm. done.
Qed.

(** A configuration whose pages do not exist sends the navigation in a circle:
    no number of steps shows a page. *)
Lemma network_circle env isBrowser node features subs h fuel seg :
  Config.getFeaturesConfig env (Some node) = Some features ->
  Config.sub_features features "network" = Some subs -> head subs = Some h ->
  (forall p, p ∈ subs -> p ∉ paths network_routes) ->
  settle env isBrowser fuel "network" network_routes node seg = None.
Proof.
  intros Hf Hs Hh Hno. revert seg. induction fuel as [|fuel IH]; intros seg; [done|].
  destruct (decide (seg ∈ paths network_routes)) as [Hseg|Hseg].
  - destruct (network_match seg Hseg) as [m Hm]. cbn [settle].
    rewrite (navigate_path env isBrowser node "network" features subs Hf Hs _ seg m _ _ h Hm Hh).
    rewrite bool_decide_eq_false_2 by (intros Hin; by apply (Hno seg)). apply IH.
  - by rewrite (network_unknown env isBrowser node seg Hseg).
Qed.

(** Features given as an array have no pages: with the network first, the
    navigation goes in a circle as well. *)
Lemma array_circle env node l fuel seg :
  Config.configs env ≠ [] -> features node = Some (FArray ("network" :: l)) ->
  settle env true fuel "network" network_routes node seg = None.
Proof.
  intros Hc Hn. revert seg. induction fuel as [|fuel IH]; intros seg; [done|].
  destruct (decide (seg ∈ paths network_routes)) as [Hseg|Hseg].
  - destruct (network_match seg Hseg) as [m Hm]. cbn [settle]. unfold navigate_once, feature_guard.
    rewrite Hm. unfold Config.getFeaturesConfig, Config.getFirstFeature.
    destruct (Config.configs env); [done|]. cbn. rewrite Hn. cbn. apply IH.
  - by rewrite (network_unknown env true node seg Hseg).
Qed.

(** A list of sub-features that is empty makes the navigation itself fail. *)
Lemma empty_network_fails env isBrowser node features p :
  Config.getFeaturesConfig env (Some node) = Some features ->
  Config.sub_features features "network" = Some [] ->
  feature_guard env isBrowser "network" node p = Ok NavigationError.
Proof.
  intros Hf Hs. unfold feature_guard, includes. rewrite Hf, Hs.
  rewrite bool_decide_eq_false_2 by apply not_elem_of_nil. done.
Qed.

(** Every item of the menu and every page of the form for a new node has a
    route. *)
Definition feature_table (feature : string) : option (list Route) :=
  if String.eqb feature "network" then Some network_routes
  else if String.eqb feature "block-production" then Some block_production_routes
  else if String.eqb feature "nodes" then Some nodes_routes
  else if String.eqb feature "state" then Some state_routes
  else if String.eqb feature "resources" then Some resources_routes
  else if String.eqb feature "benchmarks" then Some benchmarks_routes
  else None.

Lemma menu_has_routes flags first (it : MenuItem) :
  it ∈ MENU_ITEMS -> menu_key it ∈ paths (generateRoutes flags first).
Proof.
  intros Hit. unfold paths, generateRoutes. rewrite bind_app. apply elem_of_app. left.
  unfold MENU_ITEMS in Hit. cbn.
  repeat (apply elem_of_cons in Hit as [->|Hit]; [apply (bool_decide_eq_true _); vm_compute; reflexivity|]).
  by apply elem_of_nil in Hit.
Qed.

Lemma form_has_routes :
  forallb (fun f => match feature_table (feature_key f) with
                    | Some table => forallb (fun s => includes (paths table) (sub_key s)) (subFeatures f)
                    | None => true
                    end) form_features = true.
Proof. vm_compute. reflexivity. Qed.

(** Without the feature the module of the snarks does not load. *)
Lemma snarks_need_configuration gf :
  (forall subs, gf ≫= (fun f => Config.sub_features f "snarks") ≠ Some subs) ->
  throws (snarks_routes gf) = true.
Proof. intros Hn. unfold snarks_routes. destruct (gf ≫= _) eqn:E; [by destruct (Hn l)|done]. Qed.

(** The landing page is asked for once, and the second redirection of its guard
    is never taken: every address begins with a slash. *)
Lemma landing_once show first url :
  (landingPageGuard show first url).1 = (first && negb show) /\
  (first = false -> (landingPageGuard show first url).2 = Pass).
Proof. unfold landingPageGuard. by destruct show, first. Qed.

Lemma landing_root_dead show first rest l :
  (landingPageGuard show first (Some ("/" +:+ rest))).2 = Goto l -> l = ["loading-web-node"].
Proof.
  unfold landingPageGuard. destruct (negb first || negb show); [done|]. cbn [snd].
  destruct (_ || string_prefix "/loading-web-node" _); [by intros [= <-]|]. cbn. done.
Qed.
End Routing.
