(* ===== verification/Shell.v ===== *)
(** * The application shell

    [src/frontend/src/app/app.component.ts] and the components of [layout] that
    keep something between events: the server status with its overlays
    ([server-status]), the menus ([menu], [menu-tabs], [submenu-tabs]), the
    toolbar ([toolbar]), the list of errors ([error-preview]) and the two pills
    ([block-production-pill], [uptime-pill]).

    Each component is a machine: its fields are a record, a subscription that
    fires or a click is an event, and a step gives the actions and navigations.
    An overlay is a value of the library; of it the model has what the code asks
    it: whether something is attached. *)

From Stdlib Require Import ZArith Lia Ascii.
From stdpp Require Import base list strings sets.
From S2P Require Import Prelude SharedLib AppStore Layout WonSlots Tables TablePages Routing.
Open Scope nat_scope.

Module Shell.
Import Layout.
#[local] Existing Instance TablePages.string_key.

(** ** Addresses *)

(** [s.split('/')] *)
Fixpoint split_slash (s : string) : list string :=
  match s with
  | EmptyString => [EmptyString]
  | String c s' =>
    if Ascii.eqb c "/" then EmptyString :: split_slash s'
    else match split_slash s' with
         | w :: ws => String c w :: ws
         | [] => [String c EmptyString]
         end
  end.

Fixpoint has_char (c : ascii) (s : string) : bool :=
  match s with EmptyString => false | String d s' => Ascii.eqb d c || has_char c s' end.

(** [removeParamsFromURL] of [@openmina/shared] gives the part of an address
    before its query. *)
Class UrlParams := {
  removeParamsFromURL : string -> string;
  removeParams_plain : forall p, has_char "?" p = false -> removeParamsFromURL p = p;
  removeParams_query : forall p q, has_char "?" p = false -> removeParamsFromURL (p +:+ String "?" q) = p
}.

Fixpoint before_query (s : string) : string :=
  match s with
  | EmptyString => EmptyString
  | String c s' => if Ascii.eqb c "?" then EmptyString else String c (before_query s')
  end.

Definition url_params : UrlParams.
Proof.
  refine {| removeParamsFromURL := before_query |}.
  - induction p as [|c p IH]; [done|]. cbn [has_char before_query].
    intros [E Hp]%orb_false_iff. by rewrite E, IH.
  - induction p as [|c p IH]; intros q; [done|].
    change (String c p +:+ String "?" q) with (String c (p +:+ String "?" q)). cbn [has_char before_query].
    intros [E Hp]%orb_false_iff. by rewrite E, IH.
Defined.

(** ** The application *)

Inductive Output :=
| Act (a : App.Action)
| LoadingWebNode                     (* the navigation to its page *)
| ObserveWidth                       (* a subscription to the width of the window *)
| StoreArgs (args : string).

Record AppConfig := mkAppConfig {
  flags : Routing.Flags; hideToolbar : bool; hideNodeStats : bool
}.

Record Application := mkApplication {
  loaded : bool;
  updating : bool;                   (* the timer of the node's details runs *)
  waiting : bool                     (* for the page of the web node *)
}.

Inductive AppEvent :=
| OnRoute (url : string)
| OnTimer
| OnWidth (narrow : bool)
| GoToWebNode
| ClearNodeUpdates
| ToggleMenu.

Section Application.
Context (config : AppConfig) (hasWebNodeConfig isWebNodeLoaded : bool).

(** [href] is the address of the window. *)
Definition initAppFunctionalities (href : string) (a : Application) : Application * list Output :=
  let schedule := negb (hideToolbar config) && negb (hideNodeStats config) in
  (mkApplication (loaded a) (updating a || schedule) (waiting a),
   (if hasWebNodeConfig && negb isWebNodeLoaded && negb (string_includes "/loading-web-node" href)
    then [LoadingWebNode] else []) ++ [Act App.Init; ObserveWidth]).

(** [args] is the parameter [a] of the address. *)
Definition app_ngOnInit (args : option string) (href : string) : Application * list Output :=
  let stored := match args with Some s => if truthy_str s then [StoreArgs s] else [] | None => [] end in
  let leader := Routing.showLeaderboard (flags config) in
  let landing := Routing.showWebNodeLandingPage (flags config) in
  if leader && landing then (mkApplication false false true, stored)
  else if negb leader && negb landing then
    let '(a, out) := initAppFunctionalities href (mkApplication false false false) in (a, stored ++ out)
  else (mkApplication false false false, stored).

Definition app_step (href : string) (a : Application) (ev : AppEvent) : Application * list Output :=
  match ev with
  | OnRoute url =>
    let a' := mkApplication true (updating a) (waiting a) in
    if waiting a && string_prefix "/loading-web-node" url
    then initAppFunctionalities href (mkApplication true (updating a) false) else (a', [])
  | OnTimer => (a, if updating a then [Act App.GetNodeDetails] else [])
  | OnWidth narrow => (a, [Act (App.ToggleMobile narrow)])
  | GoToWebNode => initAppFunctionalities href a
  | ClearNodeUpdates => (mkApplication (loaded a) false (waiting a), [])
  | ToggleMenu => (a, [Act App.ToggleMenuOpening])
  end.
End Application.

(** What the application shows for an address. *)
Inductive Screen := Landing (leaderboard : bool) | LoadingPage | LeaderboardPage | Pages.

Definition screen (leaderboard : bool) (url : string) : Screen :=
  if String.eqb url "/" || string_prefix "/?" url then Landing leaderboard
  else if string_prefix "/loading-web-node" url then LoadingPage
  else if string_prefix "/leaderboard" url then LeaderboardPage
  else Pages.

(** ** The server status *)

Inductive Attached := Nothing | PickerOpen (p : Picker) | NewNodeOpen.

Record ServerStatus := mkStatus {
  st_mobile : option bool;
  st_nodes : list MinaNode;
  st_active : option MinaNode;
  st_details : option App.NodeDetails;
  st_online : bool;
  switchForbidden : bool;
  tooltip : bool;                    (* what [tooltipOverlayRef] refers to is attached *)
  lost_tooltips : nat;               (* attached overlays nothing refers to *)
  overlay : Attached
}.

Inductive StatusEvent :=
| OnMenu (m : App.Menu)
| OnNodes (l : list MinaNode)
| OnActiveNode (n : MinaNode)
| OnDetails (d : option App.NodeDetails)
| OnNavigationEnd (pathname : string)
| OpenTooltip
| DetachTooltip
| OpenNodePicker
| PickerClosed (addNewNode : bool)
| NewNodeClosed
| OnScroll.                          (* the scroll strategy closes the picker *)

Definition initialStatus : ServerStatus := mkStatus None [] None None false false false 0 Nothing.

Definition with_overlay (s : ServerStatus) (o : Attached) : ServerStatus :=
  mkStatus (st_mobile s) (st_nodes s) (st_active s) (st_details s) (st_online s) (switchForbidden s)
    (tooltip s) (lost_tooltips s) o.

Definition with_tooltip (s : ServerStatus) (t : bool) (lost : nat) : ServerStatus :=
  mkStatus (st_mobile s) (st_nodes s) (st_active s) (st_details s) (st_online s) (switchForbidden s)
    t lost (overlay s).

Definition pending (s : ServerStatus) : bool :=
  match App.status <$> st_details s with Some App.PENDING => true | _ => false end.

Definition status_step (s : ServerStatus) (ev : StatusEvent) : ServerStatus :=
  match ev with
  | OnMenu m => mkStatus (Some (App.isMobile m)) (st_nodes s) (st_active s) (st_details s) (st_online s)
                  (switchForbidden s) (tooltip s) (lost_tooltips s) (overlay s)
  | OnNodes [] => s
  | OnNodes l => mkStatus (st_mobile s) l (st_active s) (st_details s) (st_online s) (switchForbidden s)
                   (tooltip s) (lost_tooltips s) (if tooltip s then Nothing else overlay s)
  | OnActiveNode n => mkStatus (st_mobile s) (st_nodes s) (Some n) (st_details s) (st_online s)
                        (switchForbidden s) (tooltip s) (lost_tooltips s) (overlay s)
  | OnDetails d => mkStatus (st_mobile s) (st_nodes s) (st_active s) d (isOnline d) (switchForbidden s)
                     (tooltip s) (lost_tooltips s) (overlay s)
  | OnNavigationEnd pathname =>
    mkStatus (st_mobile s) (st_nodes s) (st_active s) (st_details s) (st_online s)
      (string_includes "nodes/overview" pathname) (tooltip s) (lost_tooltips s) (overlay s)
  | OpenTooltip =>
    if pending s then s
    else with_tooltip s true (if tooltip s then S (lost_tooltips s) else lost_tooltips s)
  | DetachTooltip => with_tooltip s false (lost_tooltips s)
  | OpenNodePicker =>
    with_overlay s match overlay s with
                   | Nothing => PickerOpen (openNodePicker (st_nodes s) (st_active s))
                   | _ => Nothing
                   end
  | PickerClosed addNewNode =>
    with_overlay s match overlay s with
                   | PickerOpen _ => if addNewNode then NewNodeOpen else Nothing
                   | o => o
                   end
  | NewNodeClosed => with_overlay s match overlay s with NewNodeOpen => Nothing | o => o end
  | OnScroll => with_overlay s match overlay s with PickerOpen _ => Nothing | o => o end
  end.

(** ** Menus and toolbar *)

(** [activeRoute] of both menus. *)
Definition activeRoute `{UrlParams} (url : string) : option string := split_slash (removeParamsFromURL url) !! 1.

(** [baseRoute] and [activeSubMenu] of the tabs; a missing part stays
    undefined. *)
Definition tab_route `{UrlParams} (url : string) : option string * option string :=
  (removeParamsFromURL <$> split_slash url !! 1, removeParamsFromURL <$> split_slash url !! 2).

(** The title of the toolbar. *)
Definition title `{UrlParams} (url : string) : option string := replace_all "-" " " <$> activeRoute url.

Record Toolbar := mkToolbar {
  tb_title : option string; tb_mobile : option bool; tb_errors : list MinaError;
  haveNextBP : bool; isAllNodesPage : bool; loading_hidden : bool
}.

Inductive ToolbarEvent :=
| TbLoading (length : nat)
| TbDetails (d : App.NodeDetails)
| TbErrors (l : list MinaError)
| TbMenu (m : App.Menu)
| TbRoute (url : string).

Definition toolbar_init (pathname : string) : Toolbar :=
  mkToolbar (Some "Loading") None [] false (string_includes "nodes/overview" pathname) true.

Definition toolbar_step `{HasValue} `{UrlParams} (t : Toolbar) (ev : ToolbarEvent) : Toolbar :=
  match ev with
  | TbLoading n => mkToolbar (tb_title t) (tb_mobile t) (tb_errors t) (haveNextBP t) (isAllNodesPage t)
                     (Nat.eqb n 0)
  | TbDetails d => mkToolbar (tb_title t) (tb_mobile t) (tb_errors t)
                     (hasValue (App.producingBlockGlobalSlot d)) (isAllNodesPage t) (loading_hidden t)
  | TbErrors [] => t
  | TbErrors l => mkToolbar (tb_title t) (tb_mobile t) l (haveNextBP t) (isAllNodesPage t) (loading_hidden t)
  | TbMenu m => mkToolbar (tb_title t) (Some (App.isMobile m)) (tb_errors t) (haveNextBP t)
                  (isAllNodesPage t) (loading_hidden t)
  | TbRoute url => mkToolbar (title url) (tb_mobile t) (tb_errors t) (haveNextBP t) (isAllNodesPage t)
                     (loading_hidden t)
  end.

(** The menu of the small screens: the list behind "more" and the window of the
    build share one overlay. *)
Inductive MenuOverlay := MNone | MMore | MBuild.

Record MenuTabs := mkMenuTabs { isOpenMore : bool; m_overlay : MenuOverlay; m_dark : bool }.

Inductive MenuTabsEvent := OpenMore | CloseOverlay | OpenEnvBuild | BuildClosed | ChangeTheme (dark : bool).

Definition menu_tabs_step (m : MenuTabs) (ev : MenuTabsEvent) : MenuTabs :=
  match ev with
  | OpenMore => match m_overlay m with
                | MNone => mkMenuTabs true MMore (m_dark m)
                | _ => mkMenuTabs false MNone (m_dark m)
                end
  | CloseOverlay => mkMenuTabs false MNone (m_dark m)
  | OpenEnvBuild => mkMenuTabs false MBuild (m_dark m)
  | BuildClosed => mkMenuTabs (isOpenMore m) match m_overlay m with MBuild => MNone | o => o end (m_dark m)
  | ChangeTheme dark => mkMenuTabs false MNone dark
  end.

(** ** The list of errors *)

Record ErrorPanel := mkPanel { preview : Preview; openedOverlay : bool; list_attached : bool }.

Inductive PanelEvent := PErrors (l : list MinaError) | PTimeout | PClick | PConfirm.

Definition panel_step (p : ErrorPanel) (ev : PanelEvent) : ErrorPanel * list ErrorPreview.Action :=
  match ev with
  | PErrors l => (mkPanel (listenToNewErrors l (preview p)) (openedOverlay p) (list_attached p), [])
  | PTimeout => (mkPanel (removeMessage (preview p)) (openedOverlay p) (list_attached p), [])
  | PClick =>
    if list_attached p then (mkPanel (preview p) false false, [ErrorPreview.MarkErrorsAsSeen])
    else (mkPanel (preview p) true true, [])
  | PConfirm =>
    if list_attached p
    then (mkPanel (preview p) false false, match confirm (preview p) with Some a => [a] | None => [] end)
    else (p, [])
  end.

(** ** The pills *)

Record BlockPill := mkPill {
  pill_text : option string; pill_slot : option Z; producingValue : option Z; pill_menu : option string
}.

Inductive PillOutput := SetActiveSlotNumber (slot : Z) | GoToWonSlots (slot : Z).

Definition pill_details (d : App.NodeDetails) (p : BlockPill) : BlockPill :=
  mkPill match App.producingBlockStatus d with
         | Some Committed => Some "active"
         | Some Produced => Some "done"
         | _ => None
         end (App.producingBlockGlobalSlot d) (App.producingBlockAt d) (pill_menu p).

Definition pill_route `{UrlParams} (url : string) (p : BlockPill) : BlockPill :=
  mkPill (pill_text p) (pill_slot p) (producingValue p)
    match split_slash url !! 2 with
    | Some s => if truthy_str s then Some (removeParamsFromURL s) else None
    | None => None
    end.

Definition goToWonSlots (p : BlockPill) : option PillOutput :=
  match pill_slot p with
  | Some slot =>
    if truthyZ slot then
      if bool_decide (pill_menu p = Some "won-slots") then Some (SetActiveSlotNumber slot)
      else Some (GoToWonSlots slot)
    else None
  | None => None
  end.

(** The uptime: [merged] is the number of streams [mergeMap] has subscribed to,
    which stay open, and [polls] is false once [catchError] has replaced the
    timer. *)
Record Uptime := mkUptime { uptime : Z * string; merged : nat; polls : bool }.

Inductive UptimeEvent := UTick | UValue (u : Z * string) | UError.

Definition uptime_step (p : Uptime) (ev : UptimeEvent) : Uptime :=
  match ev with
  | UTick => if polls p then mkUptime (uptime p) (S (merged p)) true else p
  | UValue u => if polls p && Nat.ltb 0 (merged p) then mkUptime u (merged p) true else p
  | UError => if polls p && Nat.ltb 0 (merged p) then mkUptime (0%Z, "") 0 false else p
  end.

(** ** Addresses *)

Lemma split_slash_word w : has_char "/" w = false -> split_slash w = [w].
Proof.
  induction w as [|c w IH]; [done|]. cbn [has_char split_slash]. intros [E Hw]%orb_false_iff.
  by rewrite E, IH.
Qed.

Lemma split_slash_app w rest :
  has_char "/" w = false -> split_slash (w +:+ String "/" rest) = w :: split_slash rest.
Proof.
  induction w as [|c w IH]; [done|].
  change (String c w +:+ String "/" rest) with (String c (w +:+ String "/" rest)).
  cbn [has_char split_slash]. intros [E Hw]%orb_false_iff. by rewrite E, IH.
Qed.

(** The address of a page: its feature, more segments, and a query. *)
Lemma activeRoute_page `{UrlParams} f rest q :
  has_char "/" f = false -> has_char "?" (String "/" (f +:+ rest)) = false ->
  (rest = "" \/ exists r, rest = String "/" r) -> (q = "" \/ exists r, q = String "?" r) ->
  activeRoute (String "/" (f +:+ rest) +:+ q) = Some f.
Proof.
  intros Hf Hq Hrest Hquery. unfold activeRoute.
  assert (removeParamsFromURL (String "/" (f +:+ rest) +:+ q) = String "/" (f +:+ rest)) as ->.
  { destruct Hquery as [->|[r ->]]; [|by apply removeParams_query].
    assert (forall s, s +:+ "" = s) as -> by (induction s as [|c s IH]; [done|];
      change (String c s +:+ "") with (String c (s +:+ "")); by rewrite IH).
    by apply removeParams_plain. }
  cbn [split_slash]. rewrite Ascii.eqb_refl. cbn [lookup list_lookup].
  destruct Hrest as [->|[r ->]].
  - assert (f +:+ "" = f) as ->.
    { clear. induction f as [|c s IH]; [done|].
      change (String c s +:+ "") with (String c (s +:+ "")). by rewrite IH. }
    by rewrite split_slash_word.
  - by rewrite split_slash_app.
Qed.

(** ** The application *)

Section Application.
Context (config : AppConfig) (hasWebNodeConfig isWebNodeLoaded : bool).

Fixpoint app_run (a : Application) (evs : list (string * AppEvent)) : Application * list Output :=
  match evs with
  | [] => (a, [])
  | (href, ev) :: evs' =>
    let '(a', out) := app_step config hasWebNodeConfig isWebNodeLoaded href a ev in
    let '(a'', out') := app_run a' evs' in (a'', out ++ out')
  end.

(** With exactly one of the two landing pages the application starts only when
    the landing page of the web node asks for it. *)
Lemma app_waits_for_click a evs :
  waiting a = false -> updating a = false -> (forall href, (href, GoToWebNode) ∉ evs) ->
  Act App.Init ∉ (app_run a evs).2 /\ Act App.GetNodeDetails ∉ (app_run a evs).2.
Proof.
  revert a. induction evs as [|[href ev] evs IH]; intros a Hw Hu Hno; [split; apply not_elem_of_nil|].
  cbn [app_run]. specialize (IH (app_step config hasWebNodeConfig isWebNodeLoaded href a ev).1).
  assert (Hno' : forall href, (href, GoToWebNode) ∉ evs).
  { intros x Hx. apply (Hno x). by right. }
  destruct ev; cbn [app_step] in *; rewrite ?Hw, ?Hu in *; cbn [andb fst] in *;
    try (destruct (Hno href); left); specialize (IH Hw Hu Hno') || specialize (IH eq_refl eq_refl Hno')
    || specialize (IH eq_refl Hu Hno') || specialize (IH Hw eq_refl Hno');
    destruct (app_run _ evs) as [a'' out']; cbn [snd app] in *; set_solver.
Qed.
End Application.

Lemma app_starts_late config w l args href :
  Routing.showLeaderboard (flags config) = negb (Routing.showWebNodeLandingPage (flags config)) ->
  app_ngOnInit config w l args href =
    (mkApplication false false false,
     match args with Some s => if truthy_str s then [StoreArgs s] else [] | None => [] end).
Proof. intros Hf. unfold app_ngOnInit. rewrite Hf. by destruct (Routing.showWebNodeLandingPage _). Qed.

(** ** The server status *)

Fixpoint status_run (s : ServerStatus) (evs : list StatusEvent) : ServerStatus :=
  match evs with [] => s | ev :: evs' => status_run (status_step s ev) evs' end.

(** The mouse leaves one chip before it enters another. *)
Fixpoint leaves_first (inside : bool) (evs : list StatusEvent) : Prop :=
  match evs with
  | [] => True
  | OpenTooltip :: evs' => inside = false /\ leaves_first true evs'
  | DetachTooltip :: evs' => leaves_first false evs'
  | _ :: evs' => leaves_first inside evs'
  end.

(** Then no tooltip is left behind. *)
Lemma no_lost_tooltip s inside evs :
  leaves_first inside evs -> (tooltip s = true -> inside = true) ->
  lost_tooltips (status_run s evs) = lost_tooltips s.
Proof.
  revert s inside. induction evs as [|ev evs IH]; intros s inside Hl Ht; [done|]. cbn [status_run].
  destruct ev as [m|[|n l]|n|d|p| | | |b| |]; cbn [leaves_first] in Hl; try (by rewrite (IH _ inside)).
  - destruct Hl as [-> Hl]. rewrite (IH _ true) by done. cbn.
    destruct (pending s); [done|]. destruct (tooltip s) eqn:E; [by specialize (Ht eq_refl)|done].
  - by rewrite (IH _ false).
Qed.

(** Otherwise it stays: no event detaches it. *)
Lemma lost_tooltip_stays s evs : (lost_tooltips s <= lost_tooltips (status_run s evs))%nat.
Proof.
  revert s. induction evs as [|ev evs IH]; intros s; [done|]. cbn [status_run]. etrans; [|apply IH].
  destruct ev as [m|[|n l]|n|d|p| | | |b| |]; cbn; try done.
  destruct (pending s), (tooltip s); cbn; lia.
Qed.

(** New nodes do not reach an open picker. *)
Lemma stale_picker s l p :
  l ≠ [] -> tooltip s = false -> overlay s = PickerOpen p ->
  st_nodes (status_step s (OnNodes l)) = l /\ overlay (status_step s (OnNodes l)) = PickerOpen p.
Proof. intros Hl Ht Ho. destruct l; [done|]. cbn. by rewrite Ht. Qed.

(** ** Errors and pills *)

(** The mark of the button follows the list, and closing the list with the button
    leaves no unseen error in the store. *)
Lemma panel_in_step p ev :
  openedOverlay p = list_attached p ->
  openedOverlay (panel_step p ev).1 = list_attached (panel_step p ev).1.
Proof. intros Hp. destruct ev; cbn; repeat case_match; cbn; congruence. Qed.

Lemma panel_close_sees p errors :
  list_attached p = true ->
  Forall (fun e => err_seen e = true) (fold_left ErrorPreview.errorReducer (panel_step p PClick).2 errors).
Proof.
  intros Hp. cbn. rewrite Hp. cbn. apply Forall_forall. intros e He.
  by apply list_elem_of_fmap in He as (x & -> & _).
Qed.

(** After one failed request the uptime stays at nothing for good. *)
Lemma uptime_ends p evs :
  polls p = true -> (0 < merged p)%nat ->
  fold_left uptime_step evs (uptime_step p UError) = mkUptime (0%Z, "") 0 false.
Proof.
  intros Hp Hm. assert (uptime_step p UError = mkUptime (0%Z, "") 0 false) as ->.
  { cbn [uptime_step]. by rewrite Hp, (proj2 (Nat.ltb_lt _ _) Hm). }
  induction evs as [|ev evs IH]; [done|]. cbn [fold_left]. by destruct ev.
Qed.

(** Every minute one more stream of the database is open. *)
Lemma uptime_streams n :
  merged (fold_left uptime_step (repeat UTick n) (mkUptime (0%Z, "") 0 true)) = n.
Proof.
  assert (forall k, fold_left uptime_step (repeat UTick n) (mkUptime (0%Z, "") k true) =
                    mkUptime (0%Z, "") (n + k) true) as ->; [|cbn; lia].
  induction n as [|n IH]; intros k; [done|]. cbn [repeat fold_left uptime_step polls uptime merged].
  rewrite IH. f_equal. lia.
Qed.

(** The pill of the next block leads to its slot: on another page it navigates to
    the address at which the page of the won slots, as soon as it has its rows,
    selects the slot with that number and keeps it. *)
Theorem pill_opens_slot (p : BlockPill) (h : Z) (n : Z) (l : list WonSlots.Slot) (s : WonSlots.Slot) :
  pill_slot p = Some n -> n ≠ 0%Z -> pill_menu p ≠ Some "won-slots" ->
  NoDup ((fun s => show (WonSlots.globalSlot s)) <$> l) -> s ∈ l -> WonSlots.globalSlot s = n ->
  goToWonSlots p = Some (GoToWonSlots n) /\
  let t := Tables.step TablePages.won_slots_page h (Tables.open (Some (show n))) (Tables.EvRows l) in
  Tables.activeRow t.1 = Some s /\
  forall ls, Tables.activeRow (Tables.steps TablePages.won_slots_page h t.1 (Tables.EvRows <$> ls)).1 = Some s.
Proof.
  intros Hs Hn Hm Hd Hin <-. split.
  { unfold goToWonSlots. rewrite Hs. unfold truthyZ. destruct (Z.eqb_spec (WonSlots.globalSlot s) 0); [done|].
    cbn [negb]. by rewrite bool_decide_eq_false_2. }
  destruct (Tables.first_rows TablePages.won_slots_page h l s TablePages.won_slots_careful) as [Hset _];
    [done..|apply Tables.show_truthy|apply Tables.show_truthy|].
  split; [apply Hset|]. intros ls.
  apply (Tables.settled_steps _ _ _ _ _ TablePages.won_slots_careful Hset).
Qed.

Lemma pill_opens_slot_witness :
  let s := WonSlots.sample_slot Scheduled in
  let p := mkPill None (Some (WonSlots.globalSlot s)) None (Some "overview") in
  goToWonSlots p = Some (GoToWonSlots (WonSlots.globalSlot s)) /\
  let t := Tables.step TablePages.won_slots_page 720 (Tables.open (Some (show (WonSlots.globalSlot s))))
             (Tables.EvRows [s]) in
  Tables.activeRow t.1 = Some s /\
  forall ls, Tables.activeRow (Tables.steps TablePages.won_slots_page 720 t.1 (Tables.EvRows <$> ls)).1 = Some s.
Proof.
  intros s p. apply (pill_opens_slot p 720 (WonSlots.globalSlot s) [s] s);
    [reflexivity|discriminate|discriminate|apply NoDup_singleton|left|reflexivity].
Defined.
End Shell.
