(* ===== verification/ScanStateChart.v ===== *)
(** * The chart of the scan state

    [features/snarks/scan-state/scan-state-tree-chart] of
    [src/frontend/src/app]: the places of the cells, lines, job marks, the
    highlight and the tooltip of a tree of [ScanState].

    The layout [d3.partition] is a parameter: it gives a rectangle and a depth to
    every node, in the order of [descendants()], which is row by row. Its law is
    what the chart relies on: in a complete tree whose childless nodes have one
    size, every row divides the width evenly and the rows have one height.
    Coordinates are rationals; [Math.sqrt(3)] is a positive number. *)

From Stdlib Require Import ZArith Lia QArith Qminmax Lqa.
From stdpp Require Import base list strings.
From S2P Require Import Prelude SharedLib ScanState.

Module ScanStateChart.
Import ScanState.
Open Scope Q_scope.

Record Cell := mkCell { depth : nat; x0 : Q; x1 : Q; y0 : Q; y1 : Q }.

(** [numOfRows] *)
Definition numOfRows : nat := 8.

(** The cell [k] of the row [d] in a complete tree on [w] times [h]. *)
Definition even_cell (w h : Q) (d : nat) (k : Z) : Cell :=
  let columns := inject_Z (2 ^ Z.of_nat d) in
  let rows := inject_Z (Z.of_nat numOfRows) in
  mkCell d (w * inject_Z k / columns) (w * inject_Z (k + 1) / columns)
    (h * inject_Z (Z.of_nat d) / rows) (h * inject_Z (Z.of_nat (S d)) / rows).

(** The row and the column of the node at the position [i] of a complete tree. *)
Definition row_of (i : nat) : nat := Nat.log2 (S i).
Definition column_of (i : nat) : Z := Z.of_nat (S i) - 2 ^ Z.of_nat (row_of i).

Definition complete : nat := 2 ^ numOfRows - 1.

Class Partition := {
  partition : list Leaf -> Q -> Q -> list Cell;
  partition_length : forall ls w h, length (partition ls w h) = Nat.max 1 (length ls);
  partition_even : forall ls w h i, length ls = complete -> (i < complete)%nat ->
    partition ls w h !! i = Some (even_cell w h (row_of i) (column_of i))
}.

(** ** Cells *)

(** [this.leafWidth]: the width of the first cell of the seventh row. *)
Definition leaf_width (cells : list Cell) : result Q :=
  match List.find (fun c => Nat.eqb (depth c) (numOfRows - 2)) cells with
  | Some c => Ok (x1 c - x0 c)
  | None => Throw "Cannot read properties of undefined (reading 'x1')"
  end.

Definition pow2 (n : nat) : Q := inject_Z (2 ^ Z.of_nat n).

(** The transform of a cell: [d.transform] in the tree view. *)
Definition cell_x (treeView : bool) (leafWidth : Q) (c : Cell) : Q :=
  if negb treeView then x0 c
  else
    let rowWidth := if (depth c <? numOfRows - 2)%nat then leafWidth / pow2 (numOfRows - depth c)
                    else x1 c - x0 c in
    if (depth c <? numOfRows - 2)%nat then (x0 c + x1 c) / 2 - rowWidth / 2 - leafWidth / 2 else x0 c.

Definition cell_width (treeView : bool) (leafWidth : Q) (c : Cell) : Q :=
  if treeView && (depth c <? numOfRows - 1)%nat then leafWidth else x1 c - x0 c.

Record Rect := mkRect { left : Q; top : Q; width : Q; height : Q }.

(** [updateLeafs] *)
Definition cell_rect (treeView : bool) (leafWidth : Q) (c : Cell) : Rect :=
  mkRect (cell_x treeView leafWidth c) (y0 c) (cell_width treeView leafWidth c) (y1 c - y0 c).

(** [drawTree]: the rectangles with their colours and the leaf that pulses. *)
Record Drawn := mkDrawn { rect : Rect; fill : string; pulse : bool }.

Definition drawTree `{Partition} (treeView highlightSnarks : bool) (ls : list Leaf) (w h : Q)
    : result (list Drawn) :=
  let cells := partition ls w (h - 10) in
  match leaf_width cells with
  | Throw e => Throw e
  | Ok leafWidth =>
    Ok (zip_with (fun c l => mkDrawn (cell_rect treeView leafWidth c) (rectsFill (Some l) highlightSnarks)
                               (hasPulseEffect highlightSnarks l)) cells ls)
  end.

(** [updateHighlightRect]: the rectangle of the active leaf, if it is shown. *)
Definition padding : Q := 1.

Definition updateHighlightRect (treeView : bool) (leafWidth : Q) (cells : list Cell)
    (active : option Leaf) : option Rect :=
  match active ≫= jobIndex with
  | Some i =>
    (fun c => mkRect (cell_x treeView leafWidth c) (y0 c)
                (if treeView && (depth c <? numOfRows - 1)%nat then leafWidth
                 else x1 c - x0 c - padding)
                (y1 c - y0 c - padding)) <$> cells !! i
  | None => None
  end.

(** ** Lines of the tree view *)

Record Line := mkLine { lx1 : Q; ly1 : Q; lx2 : Q; ly2 : Q; stroke : string; stroke_width : string }.

Definition q_lt (a b : Q) : bool := negb (Qle_bool b a).

Definition is_empty_leaf (l : Leaf) : bool := bool_decide (status l = Some Empty).

Definition goes_left (leafWidth : Q) (s t : Cell) : bool :=
  q_lt (x0 t + cell_x true leafWidth t) (x0 s + cell_x true leafWidth s).

(** The line of a link; [source] and [target] with their leafs. *)
Definition link_line (leafWidth : Q) (source target : Cell * Leaf) : Line :=
  let '(s, sl) := source in
  let '(t, tl) := target in
  let offset := leafWidth / 2 * (if goes_left leafWidth s t then -1 else 1) in
  let pale := is_empty_leaf sl || is_empty_leaf tl in
  mkLine ((x0 s + x1 s) / 2 + offset) ((y0 s + y1 s) / 2) ((x0 t + x1 t) / 2) (y0 t + (1 # 2))
    (if pale then "var(--base-divider)" else "var(--base-tertiary)") (if pale then "1px" else "0.7px").

(** [updateLines]: [links] are pairs of positions in the tree. *)
Definition updateLines (treeView : bool) (leafWidth : Q) (nodes : list (Cell * Leaf))
    (links : list (nat * nat)) : list Line :=
  if negb treeView then []
  else omap (fun l => match nodes !! l.1, nodes !! l.2 with
                      | Some s, Some t =>
                        if (depth s.1 <=? numOfRows - 3)%nat && (depth t.1 <=? numOfRows - 3)%nat
                        then Some (link_line leafWidth s t) else None
                      | _, _ => None
                      end) links.

(** ** Marks of the base jobs *)

Inductive Mark :=
| Circle (cx y radius : Q)
| Star (tx ty : Q)
| Square (x y size : Q)
| Triangle (x base y h : Q)
| Bar (x y w h : Q).

Section Marks.
Context (root3 : Q).                  (* [Math.sqrt(3)] *)

Definition getCirclePath (i : nat) (lineWidth : Q) : Mark :=
  let circleRadius := 31 # 10 in
  Circle (inject_Z (Z.of_nat i) * lineWidth + lineWidth / 2) (7 + 10 / 2 - circleRadius) circleRadius.

Definition getSquarePath (i : nat) (lineWidth : Q) : Mark :=
  let squareSize := 6 in
  Square (inject_Z (Z.of_nat i) * lineWidth + lineWidth / 2 - squareSize / 2) (18 / 2 - squareSize / 2) squareSize.

Definition getTrianglePath (i : nat) (lineWidth : Q) : Mark :=
  let maxLineWidth := 7 / (root3 / 2) in
  let effectiveLineWidth := Qmin maxLineWidth lineWidth in
  let h := root3 * effectiveLineWidth / 2 in
  let xOffset := (lineWidth - effectiveLineWidth) / 2 in
  Triangle (inject_Z (Z.of_nat i) * lineWidth + xOffset) effectiveLineWidth ((85 # 10) - h / 2) h.

Definition getLinePath (i : nat) (lineWidth : Q) : Mark :=
  Bar (inject_Z (Z.of_nat i) * lineWidth + (1 # 2)) 10 (lineWidth - 1) 2.

(** The mark and the colour of the base job [i]. *)
Definition base_mark (i : nat) (lineWidth : Q) (l : Leaf) : Mark * string :=
  match job l with
  | Some kind =>
    if String.eqb kind "Payment" then (getCirclePath i lineWidth, "var(--base-primary)")
    else if String.eqb kind "Zkapp"
    then (Star (inject_Z (Z.of_nat i) * lineWidth + lineWidth / 2) 9, "var(--code-magenta)")
    else if String.eqb kind "Coinbase" then (getSquarePath i lineWidth, "var(--code-teal)")
    else if String.eqb kind "FeeTransfer" then (getTrianglePath i lineWidth, "var(--code-purple)")
    else (getLinePath i lineWidth, "var(--base-container)")
  | None => (getLinePath i lineWidth, "var(--base-tertiary)")
  end%string.

Definition base_jobs (ls : list Leaf) : list Leaf := drop (length ls - 128) ls.

Definition updateBaseJobs (w : Q) (ls : list Leaf) : list (Mark * string) :=
  let jobs := base_jobs ls in
  let lineWidth := w / inject_Z (Z.of_nat (length jobs)) in
  imap (fun i l => base_mark i lineWidth l) jobs.

(** The columns a mark covers. *)
Definition mark_span (m : Mark) : Q * Q :=
  match m with
  | Circle cx _ r => (cx - r, cx + r)
  | Star tx _ => (tx, tx)
  | Square x _ s => (x, x + s)
  | Triangle x b _ _ => (x, x + b)
  | Bar x _ w _ => (x, x + w)
  end.
End Marks.

(** ** The tooltip *)

Record Tooltip := mkTooltip {
  tt_status : string; tt_colour : string; tt_kind : string; tt_class : string;
  tt_seq : string; tt_commitment : bool; tt_snark : bool
}.

Definition show_status (s : option LeafStatus) : string :=
  match s with
  | Some Empty => "Empty" | Some Pending => "Pending" | Some Done => "Done" | Some Todo => "Todo"
  | None => "undefined"
  end.

Definition mouseOverHandle (highlightSnarks : bool) (l : Leaf) : Tooltip :=
  mkTooltip
    (if has_status Pending l && is_some (commitment l) && negb (is_some (snark l)) then "Ongoing"
     else show_status (status l))
    (getColorByStatus (status l) highlightSnarks)
    match job l with Some k => if truthy_str k then k else "-" | None => "-" end
    (getClassByKind (job l))
    match seq_no l with Some n => if truthyZ n then show n else "-" | None => "-" end
    (is_some (commitment l)) (is_some (snark l)).

(** [desiredLeft] *)
Definition tooltip_left (nodeLeft nodeWidth tooltipWidth chartLeft w : Q) : Q :=
  Qmax (Qmin (nodeLeft + nodeWidth / 2 - tooltipWidth / 2) (chartLeft + w - tooltipWidth)) chartLeft.

(** A click on a cell: the action, and the query of the address. *)
Definition click_cell (blockHeight : option Z) (l : Leaf) : Action * (option Z * option string) :=
  (SetActiveLeaf (Some l), (blockHeight, bundle_job_id l)).

(** ** The layout of a complete tree *)

Definition cell_of (w h : Q) (i : nat) : Cell := even_cell w h (row_of i) (column_of i).

Definition even_partition : Partition.
Proof.
  refine {| partition := fun ls w h => cell_of w h <$> seq 0 (Nat.max 1 (length ls)) |}.
  - intros ls w h. by rewrite length_fmap, length_seq.
  - intros ls w h i Hl Hi. rewrite Hl, list_lookup_fmap, lookup_seq_lt; [done|].
    change (Nat.max 1 complete) with complete. lia.
Defined.

Lemma complete_cells `{Partition} ls w h :
  length ls = complete -> partition ls w h = cell_of w h <$> seq 0 complete.
Proof.
  intros Hl. apply list_eq. intros i. destruct (decide (i < complete)%nat) as [Hi|Hi].
  - rewrite partition_even by done. by rewrite list_lookup_fmap, lookup_seq_lt by done.
  - rewrite !lookup_ge_None_2; [done| |]; rewrite ?length_fmap, ?length_seq, ?partition_length, ?Hl; [lia|].
    change (Nat.max 1 complete) with complete. lia.
Qed.

Lemma leaf_width_complete w h :
  exists lw, leaf_width (cell_of w h <$> seq 0 complete) = Ok lw /\ lw == w / 64.
Proof.
  assert (Hfind : forall l, List.find (fun c => Nat.eqb (depth c) (numOfRows - 2)) (cell_of w h <$> l) =
                  cell_of w h <$> List.find (fun i => Nat.eqb (row_of i) 6) l).
  { induction l as [|i l IH]; [done|]. rewrite fmap_cons. cbn [List.find].
    change (depth (cell_of w h i)) with (row_of i). change (numOfRows - 2)%nat with 6%nat.
    destruct (Nat.eqb (row_of i) 6); [done|apply IH]. }
  unfold leaf_width. rewrite Hfind.
  assert (List.find (fun i => Nat.eqb (row_of i) 6) (seq 0 complete) = Some 63%nat) as ->
    by (vm_compute; reflexivity).
  eexists. split; [reflexivity|]. unfold cell_of.
  change (row_of 63) with 6%nat. change (column_of 63) with 0%Z. unfold even_cell. cbn [x0 x1].
  change (inject_Z (2 ^ Z.of_nat 6)) with 64. change (inject_Z (0 + 1)) with 1.
  change (inject_Z 0) with 0. field.
Qed.

Lemma row_bound i : (i < complete)%nat -> (row_of i < 8)%nat.
Proof.
  intros Hi. unfold row_of. apply Nat.log2_lt_pow2; [lia|]. unfold complete, numOfRows in Hi.
  change (2 ^ 8)%nat with 256%nat in *. lia.
Qed.

Lemma column_bound i : (0 <= column_of i < 2 ^ Z.of_nat (row_of i))%Z.
Proof.
  unfold column_of, row_of. pose proof (Nat.log2_spec (S i) ltac:(lia)) as [H1 H2].
  apply inj_le in H1. apply inj_lt in H2. rewrite Nat2Z.inj_pow in H1, H2.
  rewrite (Nat2Z.inj_succ (Nat.log2 _)), Z.pow_succ_r in H2 by lia. change (Z.of_nat 2) with 2%Z in *. lia.
Qed.

Lemma row_column_inj i j : row_of i = row_of j -> column_of i = column_of j -> i = j.
Proof. unfold column_of. intros Hr. rewrite Hr. lia. Qed.

(** Evaluate the reciprocals of the numbers of columns. *)
Ltac halves :=
  repeat match goal with
  | |- context [/ inject_Z (2 ^ Z.of_nat ?n)] =>
    let v := eval vm_compute in (/ inject_Z (2 ^ Z.of_nat n)) in
    change (/ inject_Z (2 ^ Z.of_nat n)) with v
  end.

(** Every cell is drawn inside its own part of the row, in both views. *)
Lemma cell_in_slot tv w h d k lw :
  0 < w -> lw == w / 64 -> (d < 8)%nat ->
  let c := even_cell w h d k in
  x0 c <= cell_x tv lw c /\ cell_x tv lw c + cell_width tv lw c <= x1 c /\ 0 < cell_width tv lw c.
Proof.
  intros Hw Hlw Hd. cbn zeta.
  assert (Hk : w * inject_Z (k + 1) == w * (inject_Z k + 1)).
  { apply Qmult_comp; [reflexivity|]. rewrite inject_Z_plus. reflexivity. }
  unfold Qdiv in Hlw. change (/ 64) with (1 # 64) in Hlw.
  unfold cell_x, cell_width, even_cell, pow2, numOfRows, Qdiv.
  do 8 (destruct d as [|d]; [destruct tv; cbn -[Qmult Qplus Qminus Qle Qlt]; halves; repeat split; lra|]).
  lia.
Qed.

Definition apart (a b : Rect) : Prop :=
  left a + width a <= left b \/ left b + width b <= left a \/
  top a + height a <= top b \/ top b + height b <= top a.

Definition in_chart (w h : Q) (r : Rect) : Prop :=
  0 <= left r /\ left r + width r <= w /\ 0 <= top r /\ top r + height r <= h.

Lemma slot_order w h d k k' : 0 < w -> (k < k')%Z -> x1 (even_cell w h d k) <= x0 (even_cell w h d k').
Proof.
  intros Hw Hk. unfold even_cell, Qdiv. cbn [x0 x1].
  assert (Hc : 0 < / inject_Z (2 ^ Z.of_nat d)).
  { apply Qinv_lt_0_compat. change 0 with (inject_Z 0). rewrite <- Zlt_Qlt. lia. }
  apply Qmult_le_compat_r; [|by apply Qlt_le_weak].
  apply Qmult_le_l; [done|]. rewrite <- Zle_Qle. lia.
Qed.

Lemma slot_bounds w h d k :
  0 < w -> (0 <= k < 2 ^ Z.of_nat d)%Z ->
  0 <= x0 (even_cell w h d k) /\ x1 (even_cell w h d k) <= w.
Proof.
  intros Hw Hk. unfold even_cell. cbn [x0 x1].
  assert (Hc : 0 < inject_Z (2 ^ Z.of_nat d)) by (change 0 with (inject_Z 0); rewrite <- Zlt_Qlt; lia).
  split.
  - apply Qle_shift_div_l; [done|]. rewrite Qmult_0_l.
    apply Qmult_le_0_compat; [by apply Qlt_le_weak|]. change 0 with (inject_Z 0). rewrite <- Zle_Qle. lia.
  - apply Qle_shift_div_r; [done|]. apply Qmult_le_l; [done|]. rewrite <- Zle_Qle. lia.
Qed.

Lemma row_order w h d d' k k' : 0 < h -> (d < d')%nat -> y1 (even_cell w h d k) <= y0 (even_cell w h d' k').
Proof.
  intros Hh Hd. unfold even_cell, Qdiv. cbn [y0 y1]. apply Qmult_le_compat_r; [|done].
  apply Qmult_le_l; [done|]. rewrite <- Zle_Qle. lia.
Qed.

Lemma row_bounds w h d k :
  0 < h -> (d < 8)%nat ->
  0 <= y0 (even_cell w h d k) /\ y0 (even_cell w h d k) <= y1 (even_cell w h d k) /\ y1 (even_cell w h d k) <= h.
Proof.
  intros Hh Hd. unfold even_cell, Qdiv, numOfRows. cbn [y0 y1].
  change (/ inject_Z (Z.of_nat 8)) with (1 # 8).
  assert (H0 : 0 <= inject_Z (Z.of_nat d)) by (change 0 with (inject_Z 0); rewrite <- Zle_Qle; lia).
  assert (H1 : inject_Z (Z.of_nat d) + 1 <= inject_Z (Z.of_nat (S d))).
  { change 1 with (inject_Z 1). rewrite <- inject_Z_plus, <- Zle_Qle. lia. }
  assert (H2 : inject_Z (Z.of_nat (S d)) <= 8) by (change 8 with (inject_Z 8); rewrite <- Zle_Qle; lia).
  repeat split; nra.
Qed.

Lemma rects_apart tv w h lw i j :
  0 < w -> 0 < h -> lw == w / 64 -> (i < complete)%nat -> (j < complete)%nat -> i ≠ j ->
  apart (cell_rect tv lw (cell_of w h i)) (cell_rect tv lw (cell_of w h j)).
Proof.
  intros Hw Hh Hlw Hi Hj Hij. unfold apart, cell_rect. cbn [left width top height]. unfold cell_of.
  pose proof (row_bound i Hi) as Hri. pose proof (row_bound j Hj) as Hrj.
  destruct (lt_eq_lt_dec (row_of i) (row_of j)) as [[Hr|Hr]|Hr].
  - right. right. left. pose proof (row_order w h _ _ (column_of i) (column_of j) Hh Hr). lra.
  - destruct (cell_in_slot tv w h (row_of i) (column_of i) lw Hw Hlw Hri) as (A1 & A2 & _).
    destruct (cell_in_slot tv w h (row_of j) (column_of j) lw Hw Hlw Hrj) as (B1 & B2 & _).
    destruct (Z.lt_trichotomy (column_of i) (column_of j)) as [Hc|[Hc|Hc]].
    + left. pose proof (slot_order w h (row_of i) _ _ Hw Hc) as Ho. rewrite <- Hr in B1 |- *. lra.
    + destruct Hij. by apply row_column_inj.
    + right. left. pose proof (slot_order w h (row_of i) _ _ Hw Hc) as Ho. rewrite Hr in Ho, A1 |- *. lra.
  - right. right. right. pose proof (row_order w h _ _ (column_of j) (column_of i) Hh Hr). lra.
Qed.

Lemma rect_in_chart tv w h lw i :
  0 < w -> 0 < h -> lw == w / 64 -> (i < complete)%nat ->
  in_chart w h (cell_rect tv lw (cell_of w h i)).
Proof.
  intros Hw Hh Hlw Hi. unfold in_chart, cell_rect, cell_of. cbn [left width top height].
  pose proof (row_bound i Hi) as Hri.
  destruct (cell_in_slot tv w h (row_of i) (column_of i) lw Hw Hlw Hri) as (A1 & A2 & _).
  destruct (slot_bounds w h (row_of i) (column_of i) Hw (column_bound i)) as [B1 B2].
  destruct (row_bounds w h (row_of i) (column_of i) Hh Hri) as (C1 & C2 & C3). repeat split; lra.
Qed.

(** A complete tree is drawn without an error, in the wide and in the tree view:
    one rectangle per leaf, inside the chart, no two of them overlapping, with the
    colour of the leaf. *)
Theorem chart_drawn `{Partition} (tv highlight : bool) (ls : list Leaf) (w h : Q) :
  length ls = complete -> 0 < w -> 10 < h ->
  exists drawn, drawTree tv highlight ls w h = Ok drawn /\ length drawn = length ls /\
    (forall i d, drawn !! i = Some d -> in_chart w (h - 10) (rect d) /\
       exists l, ls !! i = Some l /\ fill d = rectsFill (Some l) highlight /\
                 pulse d = hasPulseEffect highlight l) /\
    (forall i j d e, i ≠ j -> drawn !! i = Some d -> drawn !! j = Some e -> apart (rect d) (rect e)).
Proof.
  intros Hl Hw Hh. unfold drawTree. rewrite complete_cells by done.
  destruct (leaf_width_complete w (h - 10)) as (lw & -> & Hlw). eexists. split; [reflexivity|].
  assert (Hh' : 0 < h - 10) by lra.
  assert (Hdrawn : forall i d, zip_with (fun c l => mkDrawn (cell_rect tv lw c) (rectsFill (Some l) highlight)
      (hasPulseEffect highlight l)) (cell_of w (h - 10) <$> seq 0 complete) ls !! i = Some d ->
      (i < complete)%nat /\ rect d = cell_rect tv lw (cell_of w (h - 10) i) /\
      exists l, ls !! i = Some l /\ fill d = rectsFill (Some l) highlight /\ pulse d = hasPulseEffect highlight l).
  { intros i d. rewrite lookup_zip_with_Some. intros (c & l & -> & Hc & Hls).
    rewrite list_lookup_fmap in Hc. destruct (seq 0 complete !! i) as [k|] eqn:E; [|done].
    apply lookup_seq in E as [-> Hi]. injection Hc as <-.
    split; [done|]. split; [done|]. by exists l. }
  split; [rewrite length_zip_with, length_fmap, length_seq; lia|]. split.
  - intros i d Hd. destruct (Hdrawn i d Hd) as (Hi & -> & Hx). split; [by apply rect_in_chart|done].
  - intros i j d e Hij Hd He. destruct (Hdrawn i d Hd) as (Hi & -> & _).
    destruct (Hdrawn j e He) as (Hj & -> & _). by apply rects_apart.
Qed.

Lemma chart_drawn_witness :
  let ls := repeat (with_scrolling None false) complete in
  exists drawn, drawTree (H := even_partition) true true ls 1280 300 = Ok drawn /\ length drawn = length ls /\
    (forall i d, drawn !! i = Some d -> in_chart 1280 (300 - 10) (rect d) /\
       exists l, ls !! i = Some l /\ fill d = rectsFill (Some l) true /\ pulse d = hasPulseEffect true l) /\
    (forall i j d e, i ≠ j -> drawn !! i = Some d -> drawn !! j = Some e -> apart (rect d) (rect e)).
Proof.
  intros ls. apply (chart_drawn (H := even_partition)); [apply repeat_length|reflexivity|reflexivity].
Defined.

(** ** Highlight, lines, marks and tooltip *)

(** The highlight of a leaf of the tree lies on the rectangle of that leaf. *)
Lemma highlight_on_leaf tv lw (cells : list Cell) ti tree i l :
  leafs (mapTree ti tree) !! i = Some l -> length cells = length tree ->
  exists c r, cells !! i = Some c /\ updateHighlightRect tv lw cells (Some l) = Some r /\
    left r = left (cell_rect tv lw c) /\ top r = top (cell_rect tv lw c) /\
    width r <= width (cell_rect tv lw c) /\ height r <= height (cell_rect tv lw c).
Proof.
  intros Hl Hlen. cbn [leafs mapTree] in Hl. rewrite list_lookup_imap in Hl.
  destruct (tree !! i) as [l0|] eqn:E; [|done]. injection Hl as <-.
  assert (is_Some (cells !! i)) as [c Hc].
  { apply lookup_lt_is_Some. rewrite Hlen. by eapply lookup_lt_Some. }
  unfold updateHighlightRect. cbn [mbind option_bind jobIndex with_indices]. rewrite Hc.
  eexists c, _. split; [done|]. split; [reflexivity|]. cbn. unfold cell_width, padding.
  repeat split; try destruct (tv && _); lra.
Qed.

(** The line of a link leaves its node on the side of the child. *)
Lemma line_towards_child w h lw d k (right_child : bool) :
  0 < w -> lw == w / 64 -> (d < 5)%nat ->
  goes_left lw (even_cell w h d k)
    (even_cell w h (S d) (2 * k + (if right_child then 1 else 0))) = negb right_child.
Proof.
  intros Hw Hlw Hd. unfold goes_left, q_lt. f_equal.
  assert (Hk : w * inject_Z (k + 1) == w * (inject_Z k + 1)).
  { apply Qmult_comp; [reflexivity|]. rewrite inject_Z_plus. reflexivity. }
  set (r := (2 * k + (if right_child then 1 else 0))%Z).
  assert (Hr : w * inject_Z r == w * (2 * inject_Z k + (if right_child then 1 else 0))).
  { apply Qmult_comp; [reflexivity|]. unfold r. rewrite inject_Z_plus, inject_Z_mult.
    by destruct right_child. }
  assert (Hr1 : w * inject_Z (r + 1) == w * (inject_Z r + 1)).
  { apply Qmult_comp; [reflexivity|]. rewrite inject_Z_plus. reflexivity. }
  clearbody r. unfold Qdiv in Hlw. change (/ 64) with (1 # 64) in Hlw.
  unfold cell_x, even_cell, pow2, numOfRows, Qdiv.
  destruct right_child; [apply Qle_bool_iff|apply not_true_is_false; rewrite Qle_bool_iff; apply Qlt_not_le];
    do 5 (destruct d as [|d]; [cbn -[Qmult Qplus Qminus Qle Qlt]; halves; lra|]); lia.
Qed.

(** Every mark of a base job stays in its own column, when a column is at least as
    wide as a circle. *)
Lemma mark_in_column root3 i lineWidth l :
  0 < root3 -> 31 # 5 <= lineWidth ->
  let '(a, b) := mark_span (base_mark root3 i lineWidth l).1 in
  inject_Z (Z.of_nat i) * lineWidth <= a /\ b <= inject_Z (Z.of_nat i) * lineWidth + lineWidth.
Proof.
  intros Hr Hw. unfold base_mark, getCirclePath, getSquarePath, getTrianglePath, getLinePath, Qdiv.
  generalize (inject_Z (Z.of_nat i) * lineWidth). intros x.
  repeat case_match; simplify_eq; cbn in *; simplify_eq; change (/ 2) with (1 # 2);
    try (split; lra).
  pose proof (Q.le_min_r (7 * / (root3 * (1 # 2))) lineWidth).
  generalize dependent (Qmin (7 * / (root3 * (1 # 2))) lineWidth). intros m Hm. split; lra.
Qed.

(** The last row of a complete tree has one mark per leaf. *)
Lemma base_jobs_complete ls : length ls = complete -> length (base_jobs ls) = 128%nat.
Proof. intros Hl. unfold base_jobs. rewrite length_drop, Hl. done. Qed.

(** The tooltip stays on the chart when it is not wider than it. *)
Lemma tooltip_on_chart nl nw tw cl w :
  tw <= w -> cl <= tooltip_left nl nw tw cl w /\ tooltip_left nl nw tw cl w + tw <= cl + w.
Proof.
  intros Htw. unfold tooltip_left. set (m := Qmin _ _).
  assert (Hm : m <= cl + w - tw) by apply Q.le_min_r. clearbody m.
  pose proof (Q.le_max_r m cl). pose proof (Q.max_lub m cl (cl + w - tw) Hm ltac:(lra)).
  split; lra.
Qed.

(** A tree with fewer rows cannot be drawn. *)
Lemma small_tree_throws `{Partition} tv hl ls w h :
  (forall c, c ∈ partition ls w (h - 10) -> (depth c < 6)%nat) -> throws (drawTree tv hl ls w h) = true.
Proof.
  intros Hd. unfold drawTree, leaf_width. destruct (List.find _ _) as [c|] eqn:E; [|done].
  apply find_Some_elem in E as [Hc Hn]. specialize (Hd c Hc). apply Nat.eqb_eq in Hn.
  unfold numOfRows in Hn. lia.
Qed.
End ScanStateChart.
