(* ===== verification/ScanStatePage.v ===== *)
(** * The page of the scan state

    [features/snarks/scan-state] of [src/frontend/src/app]: the page
    ([scan-state.component.ts]), its toolbar ([scan-state-toolbar]), side panel
    ([scan-state-side-panel]) and list of trees ([scan-state-tree-list]), around
    the store of [ScanState].

    A component is a machine; the emissions of the store, the router, the timers
    and the keys are its events, and its outputs are the dispatched actions and the
    navigations. *)

From stdpp Require Import base list strings.
From S2P Require Import Prelude SharedLib AppStore ScanState.

Module ScanStatePage.
Import ScanState.

Inductive Output :=
| Do (a : Action)
| GoJob (height : option Z) (jobId : option string)
| OpenTab (url : string).

(** ** The page *)

Record Page := mkPage {
  heightOrHash : option string;
  pageJobId : option string;
  lastStream : option bool;          (* the memory of [distinctUntilChanged] *)
  timers : nat;                      (* the timers that run *)
  current_timer : bool;              (* [this.timer] is one of them *)
  nodeChanged : bool;
  first_route : bool;                (* the second subscription waits for its route *)
  panel_open : bool
}.

Inductive PageEvent :=
| OnRoute (height jobId : option string)
| OnStream (stream : bool)
| OnActiveNode
| OnActiveJobId (id : option string)
| OnPanel (open : bool)
| OnTick
| OnResized
| OnDestroy.

Definition page_init : Page * list Output :=
  (mkPage None None None 0 false false true false, [Do Init]).

Definition set_timers (p : Page) (stream : bool) (n : nat) (cur : bool) : Page :=
  mkPage (heightOrHash p) (pageJobId p) (Some stream) n cur (nodeChanged p) (first_route p) (panel_open p).

Definition truthy_ostr (o : option string) : bool :=
  match o with Some s => truthy_str s | None => false end.

Definition page_step (p : Page) (ev : PageEvent) : Page * list Output :=
  match ev with
  | OnRoute height jobId =>
    (mkPage height (pageJobId p) (lastStream p) (timers p) (current_timer p) (nodeChanged p) false
       (panel_open p),
     (if truthy_ostr jobId && negb (bool_decide (pageJobId p = jobId)) then [Do (SetActiveJobId jobId)] else []) ++
     (if first_route p && truthy_ostr height then [Do (SetActiveJobId jobId)] else []))
  | OnStream stream =>
    if bool_decide (lastStream p = Some stream) then (p, [])
    else if stream then (set_timers p true (S (timers p)) true, [])
    else (set_timers p false (if current_timer p then pred (timers p) else timers p) false, [])
  | OnActiveNode =>
    (mkPage (heightOrHash p) (pageJobId p) (lastStream p) (timers p) (current_timer p) true (first_route p)
       (panel_open p),
     [Do (GetBlock (if nodeChanged p then None else inr <$> heightOrHash p))])
  | OnActiveJobId id =>
    (mkPage (heightOrHash p) id (lastStream p) (timers p) (current_timer p) (nodeChanged p) (first_route p)
       (panel_open p), [])
  | OnPanel open =>
    (mkPage (heightOrHash p) (pageJobId p) (lastStream p) (timers p) (current_timer p) (nodeChanged p)
       (first_route p) open, [])
  | OnTick => (p, if Nat.ltb 0 (timers p) then [Do (GetBlock None)] else [])
  | OnResized => (p, [Do SidebarResized])
  | OnDestroy => (set_timers p false 0 false, [Do Close])
  end.

(** ** The toolbar *)

Record Toolbar := mkToolbar {
  search : option string;            (* the text of the form *)
  gotHeightFromForm : bool;
  lastValue : option (option string);(* the memory of [distinctUntilChanged] *)
  t_stream : bool;
  t_treeView : bool;
  shown : bool;                      (* [openSidePanel] *)
  closing : nat                      (* delayed emissions that close it *)
}.

Inductive ToolbarEvent :=
| TType (text : string)
| TFocusOut                          (* 400 milliseconds after the input is left *)
| TBlock (b : option Block)
| TStream (stream : bool)
| TTreeView (tree : bool)
| TPanel (open : bool)
| TDelayed                           (* 250 milliseconds after a closing *)
| TToggleTreeView (tree : bool)
| TGoLive | TPause | TToggleSidePanel | THighlight.

(** [getHeight(height)] *)
Definition getHeight (stream : bool) (height : string) : list Output :=
  Do (GetBlock (Some (inr height))) ::
  (if stream && truthy_str height then [Do Pause]
   else if negb stream && negb (truthy_str height) then [Do Start] else []).

(** The texts that name the block. *)
Definition block_names (b : option Block) : list string :=
  match b ≫= info with
  | Some bi => [bi_hash bi; show (bi_height bi)]
  | None => []
  end.

Definition names_block (b : option Block) (text : option string) : bool :=
  match text with Some s => includes (block_names b) s | None => false end.

Definition set_form (t : Toolbar) (s : option string) (got : bool) (l : option (option string)) : Toolbar :=
  mkToolbar s got l (t_stream t) (t_treeView t) (shown t) (closing t).

Definition set_panel (t : Toolbar) (s : bool) (c : nat) : Toolbar :=
  mkToolbar (search t) (gotHeightFromForm t) (lastValue t) (t_stream t) (t_treeView t) s c.

Definition toolbar_step (t : Toolbar) (ev : ToolbarEvent) : Toolbar * list Output :=
  match ev with
  | TType text => (set_form t (Some text) (gotHeightFromForm t) (lastValue t), [])
  | TFocusOut =>
    if bool_decide (lastValue t = Some (search t)) then (t, [])
    else match search t with
         | Some value =>
           if truthy_str value
           then (set_form t (search t) true (Some (search t)), getHeight (t_stream t) (trim value))
           else (set_form t (search t) (gotHeightFromForm t) (Some (search t)), [])
         | None => (set_form t None (gotHeightFromForm t) (Some None), [])
         end
  | TBlock b =>
    if negb (names_block b (search t)) && gotHeightFromForm t
    then (set_form t None false (lastValue t), []) else (t, [])
  | TStream stream =>
    (mkToolbar (search t) (gotHeightFromForm t) (lastValue t) stream (t_treeView t) (shown t) (closing t), [])
  | TTreeView tree =>
    (mkToolbar (search t) (gotHeightFromForm t) (lastValue t) (t_stream t) tree (shown t) (closing t), [])
  | TPanel true => (set_panel t true (closing t), [])
  | TPanel false => (set_panel t (shown t) (S (closing t)), [])
  | TDelayed => (match closing t with 0 => t | S n => set_panel t false n end, [])
  | TToggleTreeView tree => (t, if Bool.eqb tree (t_treeView t) then [] else [Do ToggleTreeView])
  | TGoLive => (t, [Do Start])
  | TPause => (t, [Do Pause])
  | TToggleSidePanel => (t, [Do ToggleSidePanel])
  | THighlight => (t, [Do HighlightSnarkPool])
  end.

(** ** The side panel *)

Record SidePanel := mkSidePanel {
  activeStep : nat;
  sp_block : option Block;
  workingSnarkersLength : nat;
  hasError : bool;
  sp_leaf : option Leaf;
  workingPoolEnabled : bool;
  dropdown : bool
}.

Inductive SidePanelEvent :=
| SBlock (b : Block)
| SLeaf (l : option Leaf)
| SNode (snarks : option (list string))     (* the configured pages of the snarks *)
| SToggle
| SOpenSnarker (l : Leaf)
| SRemoveJob
| SDropdown
| SDetach
| SGoToWorkPool (origin : string) (node : option string).

Definition panel_height (s : SidePanel) : option Z := bi_height <$> (sp_block s ≫= info).

Definition set_step (s : SidePanel) (n : nat) (d : bool) : SidePanel :=
  mkSidePanel n (sp_block s) (workingSnarkersLength s) (hasError s) (sp_leaf s) (workingPoolEnabled s) d.

Definition side_panel_step (s : SidePanel) (ev : SidePanelEvent) : SidePanel * list Output :=
  match ev with
  | SBlock b =>
    let n := count_if (fun w => match ws_leafs w with [] => false | _ => true end) (workingSnarkers b) in
    (mkSidePanel (activeStep s) (Some b) n (negb (Nat.eqb (length (workingSnarkers b)) n)) (sp_leaf s)
       (workingPoolEnabled s) (dropdown s), [])
  | SLeaf l =>
    (mkSidePanel (if is_some l then 1 else activeStep s) (sp_block s) (workingSnarkersLength s) (hasError s) l
       (workingPoolEnabled s) (dropdown s), [])
  | SNode snarks =>
    (mkSidePanel (activeStep s) (sp_block s) (workingSnarkersLength s) (hasError s) (sp_leaf s)
       match snarks with Some l => includes l "work-pool" | None => false end (dropdown s), [])
  | SToggle =>
    (set_step s 0 (dropdown s),
     [Do ToggleSidePanel; Do (SetActiveLeaf None); GoJob (panel_height s) None])
  | SOpenSnarker l =>
    (s, [Do (SetActiveLeaf (Some (with_scrolling (Some l) true))); GoJob (panel_height s) (bundle_job_id l)])
  | SRemoveJob => (set_step s 0 (dropdown s), [Do (SetActiveLeaf None); GoJob (panel_height s) None])
  | SDropdown => (set_step s (activeStep s) (negb (dropdown s)), [])
  | SDetach => (set_step s (activeStep s) false, [])
  | SGoToWorkPool origin node =>
    (s, match sp_leaf s with
        | Some l => [OpenTab (origin +:+ "/snarks/work-pool/" +:+ default "undefined" (bundle_job_id l) +:+
                              "?node=" +:+ default "undefined" node)]
        | None => []
        end)
  end.

(** ** The list of trees *)

Record TreeList := mkTreeList {
  tl_trees : list Tree; tl_height : option Z; tl_error : bool; tl_leaf : option Leaf
}.

Definition listenToTreesChanges (b : Block) (t : TreeList) : TreeList :=
  mkTreeList (trees b) (bi_height <$> info b)
    match trees b with [] => true | _ => false end (tl_leaf t).

(** The tree that is scrolled to, after 50 milliseconds. *)
Definition listenToActiveJobID (l : option Leaf) (t : TreeList) : TreeList * option nat :=
  (mkTreeList (tl_trees t) (tl_height t) (tl_error t) l,
   match l with
   | Some leaf => match scrolling leaf with Some true => treeIndex leaf | _ => None end
   | None => None
   end).

Definition checkLatestHeight : list Output := [Do (GetBlock None); Do Start].

(** The key a tree is tracked by. *)
Definition trackTree (t : Tree) : string :=
  let num n := show (Z.of_nat n) in
  num (ongoing t) +:+ num (availableJobs t) +:+ num (completedSnarks t) +:+ num (empty t) +:+
  num (coinbase t) +:+ num (payment t) +:+ num (zkApp t) +:+ num (feeTransfer t) +:+ num (merge t).

(** ** The timer of the page *)

Inductive page_reachable : Page -> Prop :=
| page_start : page_reachable page_init.1
| page_next p ev : page_reachable p -> page_reachable (page_step p ev).1.

(** One timer runs while the store says that the blocks are streamed, and none
    otherwise. *)
Definition timer_matches (p : Page) : Prop :=
  (lastStream p = Some true /\ timers p = 1 /\ current_timer p = true) \/
  (lastStream p ≠ Some true /\ timers p = 0 /\ current_timer p = false).

Lemma timer_step p ev : timer_matches p -> timer_matches (page_step p ev).1.
Proof.
  unfold timer_matches. destruct p as [hh j ls n c nc fr po]. cbn [lastStream timers current_timer].
  intros Hp. destruct ev as [h jo|[]| |i|o| | |]; cbn; try done; try case_bool_decide; cbn;
    naive_solver.
Qed.

Lemma timer_reachable p : page_reachable p -> timer_matches p.
Proof. induction 1; [right; by repeat split|by apply timer_step]. Qed.

(** *** A block that is asked for in the address *)

(** The page and the store: the actions of the page are reduced, and a change of
    the flag reaches the page. *)
Definition page_store (desktop stored : bool) (ps : Page * State) (ev : PageEvent) : Page * State :=
  let '(p, s) := ps in
  let '(p', out) := page_step p ev in
  let s' := fold_left (fun s o => match o with Do a => reducer desktop stored s a | _ => s end) out s in
  ((page_step p' (OnStream (stream s'))).1, s').

(** Nothing but the buttons starts the stream. *)
Definition page_only (ev : PageEvent) : Prop :=
  match ev with OnStream _ | OnDestroy => False | _ => True end.

Definition pinned (ps : Page * State) : Prop :=
  timer_matches ps.1 /\ stream ps.2 = false /\ lastStream ps.1 = Some false.

Lemma pinned_stays desktop stored ps ev :
  page_only ev -> pinned ps -> pinned (page_store desktop stored ps ev).
Proof.
  destruct ps as [p s]. unfold pinned, page_store. cbn [fst snd]. intros Hev (Ht & Hs & Hl).
  destruct (page_step p ev) as [p' out] eqn:E.
  assert (Ht' : timer_matches p') by (pose proof (timer_step p ev Ht) as Hx; by rewrite E in Hx).
  assert (Hl' : lastStream p' = Some false /\
    stream (fold_left (fun s o => match o with Do a => reducer desktop stored s a | _ => s end) out s) = false).
  { destruct ev; cbn in E; simplify_eq; try done; cbn; repeat case_match; cbn; auto. }
  destruct Hl' as [Hl' Hs']. cbn zeta. cbn [fst snd]. rewrite Hs'.
  split; [by apply timer_step|]. split; [done|].
  cbn [page_step]. by rewrite bool_decide_eq_true_2.
Qed.

(** A page that is opened at the height or the hash of a block does not poll:
    whatever happens on the page afterwards, the block on screen is replaced
    neither by the timer nor because the timer was started, until the user goes
    live. *)
Theorem opened_block_stays desktop stored h job evs :
  truthy_str h = true -> Forall page_only evs ->
  let start := page_store desktop stored
                 ((page_step page_init.1 (OnStream true)).1, initialState desktop stored)
                 (OnRoute (Some h) job) in
  let '(p, s) := fold_left (page_store desktop stored) evs start in
  stream s = false /\ timers p = 0 /\ (page_step p OnTick).2 = [].
Proof.
  intros Hh Hevs. cbn zeta.
  assert (Hp : pinned (page_store desktop stored
    ((page_step page_init.1 (OnStream true)).1, initialState desktop stored) (OnRoute (Some h) job))).
  { unfold pinned, page_store. cbn. rewrite Hh. cbn.
    destruct job as [j|]; cbn; [destruct (truthy_str j); cbn|];
      (split; [right; by repeat split|done]). }
  revert Hp. generalize (page_store desktop stored
    ((page_step page_init.1 (OnStream true)).1, initialState desktop stored) (OnRoute (Some h) job)).
  induction Hevs as [|ev evs Hev _ IH]; intros ps Hp; [|apply IH; by apply pinned_stays].
  cbn [fold_left]. destruct ps as [p s], Hp as (Ht & Hs & Hl). cbn in *.
  destruct Ht as [[Hx _]|[_ [Hn _]]]; [congruence|]. by rewrite Hn.
Qed.

Lemma opened_block_stays_witness :
  let start := page_store true false
                 ((page_step page_init.1 (OnStream true)).1, initialState true false)
                 (OnRoute (Some "305") (Some "job")) in
  let '(p, s) := fold_left (page_store true false) [OnActiveNode; OnTick; OnPanel true] start in
  stream s = false /\ timers p = 0 /\ (page_step p OnTick).2 = [].
Proof.
  apply (opened_block_stays true false "305" (Some "job") [OnActiveNode; OnTick; OnPanel true]);
    [reflexivity|repeat constructor].
Defined.

(** ** The toolbar *)

(** The text of a search stays while the block it names is shown, and goes when
    another one is. *)
Lemma search_follows_block t b :
  gotHeightFromForm t = true ->
  search (toolbar_step t (TBlock b)).1 = if names_block b (search t) then search t else None.
Proof. intros Hg. cbn. rewrite Hg, andb_true_r. by destruct (names_block b (search t)) eqn:E. Qed.

(** The same text cannot be searched for again after the form was cleared. *)
Lemma search_again_ignored t text b :
  truthy_str text = true -> lastValue t = None -> names_block b (Some text) = false ->
  let t1 := (toolbar_step (toolbar_step t (TType text)).1 TFocusOut).1 in
  let t2 := (toolbar_step t1 (TBlock b)).1 in
  (toolbar_step (toolbar_step t (TType text)).1 TFocusOut).2 = getHeight (t_stream t) (trim text) /\
  search t2 = None /\
  (toolbar_step (toolbar_step t2 (TType text)).1 TFocusOut).2 = [].
Proof.
  intros Ht Hl Hb. cbn zeta.
  assert (toolbar_step (toolbar_step t (TType text)).1 TFocusOut =
          (set_form t (Some text) true (Some (Some text)), getHeight (t_stream t) (trim text))) as ->.
  { cbn -[getHeight bool_decide]. rewrite Hl, bool_decide_eq_false_2 by done. by rewrite Ht. }
  cbn [fst snd]. split; [done|].
  assert (toolbar_step (set_form t (Some text) true (Some (Some text))) (TBlock b) =
          (set_form t None false (Some (Some text)), [])) as ->.
  { cbn [toolbar_step search gotHeightFromForm set_form]. by rewrite Hb. }
  split; [done|]. cbn -[bool_decide]. by rewrite bool_decide_eq_true_2.
Qed.

(** A panel that is opened again before the delayed closing arrives is shown as
    closed. *)
Lemma reopened_panel_hidden t :
  closing t = 0 ->
  let t' := (toolbar_step (toolbar_step (toolbar_step t (TPanel false)).1 (TPanel true)).1 TDelayed).1 in
  shown t' = false /\ closing t' = 0.
Proof. intros Hc. cbn. by rewrite Hc. Qed.

(** ** Side panel and list *)

(** Closing the panel leaves no job behind, in the store and in the address. *)
Lemma close_panel_clears desktop stored s st :
  let out := (side_panel_step s SToggle).2 in
  let st' := fold_left (fun st o => match o with Do a => reducer desktop stored st a | _ => st end) out st in
  activeJobId st' = None /\ activeLeaf st' = None /\ openSidePanel st' = negb (openSidePanel st) /\
  GoJob (panel_height s) None ∈ out.
Proof. cbn. repeat split. right. right. left. Qed.

(** The job of a snarker is found: a click on it in the panel scrolls to the tree
    that holds it. *)
Lemma snarker_job_scrolls desktop stored url snarkers r b ss w l s st t :
  mapScanState url snarkers (Some r) = Ok (b, ss) ->
  w ∈ workingSnarkers b -> length (workingSnarkers b) = length snarkers -> l ∈ ws_leafs w ->
  let out := (side_panel_step s (SOpenSnarker l)).2 in
  let st' := fold_left (fun st o => match o with Do a => reducer desktop stored st a | _ => st end) out st in
  exists i tree, (listenToActiveJobID (activeLeaf st') t).2 = Some i /\ trees b !! i = Some tree /\ l ∈ leafs tree.
Proof.
  intros Hm Hw Hlen Hl. destruct (mapScanState_consistent _ _ _ _ _ Hm) as (Hidx & _ & Hws).
  apply list_elem_of_lookup in Hw as [k Hk].
  assert (is_Some (snarkers !! k)) as [sn Hsn].
  { apply lookup_lt_is_Some. rewrite <- Hlen. by eapply lookup_lt_Some. }
  destruct (Hws k sn Hsn) as (w' & Hw' & _ & Hleafs). rewrite Hk in Hw'. injection Hw' as <-.
  rewrite Hleafs in Hl. apply elem_of_lfilter in Hl as [Hl _].
  unfold workingLeafs in Hl. rewrite list_elem_of_In, in_flat_map in Hl.
  destruct Hl as (tree & Htree & Hin). rewrite <- !list_elem_of_In in *.
  apply elem_of_lfilter in Hin as [Hin _]. apply list_elem_of_lookup in Htree as [i Hi].
  apply list_elem_of_lookup in Hin as Hj. destruct Hj as [j Hj].
  destruct (Hidx i tree j l Hi Hj) as [Hti _]. exists i, tree. cbn. by rewrite Hti.
Qed.
End ScanStatePage.
