(* ===== verification/WonSlotsPage.v ===== *)
(** * The page of the won slots

    [features/block-production/won-slots] of [src/frontend/src/app]: the page
    ([block-production-won-slots.component.ts]), its side panel with the
    countdown of the active slot ([side-panel]), the cards ([cards]), the filters
    ([filters]) and the line of the epoch ([block-production-won-slots-epoch]),
    around the store of [WonSlots].

    Times are whole milliseconds. A time of an attempt that is missing is the
    [null] the node writes for it ([Option] of
    [node/src/stats/stats_block_producer.rs]); in a comparison of JavaScript it
    counts as zero. *)

From stdpp Require Import base list strings pretty.
From S2P Require Import Prelude SharedLib DateHelper AppStore WonSlots.
Open Scope Z_scope.

Module WonSlotsPage.
Import DateHelper.
Import WonSlots.
#[local] Existing Instance App.NodeStatus_eq_dec.

Inductive Output :=
| Do (a : Action)
| GoWonSlots                         (* navigates to [/block-production/won-slots] *)
| OpenTab (url : string).

(** [o] in a template literal. *)
Definition text_of (o : option string) : string := default "undefined" o.

(** ** The side panel *)

(** The places of the notice that the block was discarded. *)
Inductive Place := BeforeLedger | AtLedger | AtProduced | AtProof | AtApply.

#[export] Instance Place_eq_dec : EqDecision Place.
Proof. solve_decision. Defined.

Record Panel := mkPanel {
  slot : option Slot;
  title : string;
  p_percentage : Z;
  remainingTime : option string;
  p_scheduled : string;
  slotStartedAlready : bool;
  stopTimer : bool;
  stateWhenReachedZero : option (Z * option WonSlotsStatus);
  vrfText : string;
  vrf : list Z;
  view : bool;                       (* the containers of the template exist *)
  notice : option Place;
  p_network : option string
}.

Definition initialPanel : Panel :=
  mkPanel None "" 0 None "" false false None "" [0; 0] false None None.

Definition set_time (p : Panel) (r : option string) (stop : bool)
    (reached : option (Z * option WonSlotsStatus)) : Panel :=
  mkPanel (slot p) (title p) (p_percentage p) r (p_scheduled p) (slotStartedAlready p) stop reached
    (vrfText p) (vrf p) (view p) (notice p) (p_network p).

Definition addMinutesToTimestamp (timestamp minutes : Z) : Z := timestamp + minutes * 1000 * 60.

(** [parse()] *)
Definition parse (now : Z) (p : Panel) : Panel :=
  match slot p with
  | Some s =>
    if stopTimer p then set_time p (Some "-") true (stateWhenReachedZero p)
    else
      let d := getTimeDiff now (Some (addMinutesToTimestamp (slotTime s) 3)) (mkDiffConfig true false None) in
      if bool_decide (diff d = Some "0s")
      then set_time p (Some "-") true (Some (globalSlot s, status s))
      else set_time p (diff d) false (stateWhenReachedZero p)
  | None => set_time p (Some "-") (stopTimer p) (stateWhenReachedZero p)
  end.

(** A time in a comparison. *)
Definition num (t : option Z) : Z := default 0 t.

(** The choice of [createDiscardedView()]. *)
Definition place (t : Times) : Place :=
  let d := num (discarded t) in
  let l := if d <? num (stagedLedgerDiffCreateEnd t) then BeforeLedger else AtLedger in
  let l := if num (producedEnd t) <=? d then AtProduced else l in
  let l := if num (proofCreateEnd t) <=? d then AtProof else l in
  if num (blockApplyEnd t) <=? d then AtApply else l.

Definition createDiscardedView (ready : bool) (s : Slot) : result (option Place) :=
  match discardReason s with
  | Some r =>
    if truthy_str r
    then match times s with
         | Some t => Ok (if ready then Some (place t) else None)
         | None => Throw "Cannot read properties of undefined (reading 'discarded')"
         end
    else Ok None
  | None => Ok None
  end.

Section SidePanel.
Context `{HasValue} (readable : Z -> string).

(** The steps of the attempt that are done, at twenty per cent each. *)
Definition steps_done (s : Slot) : Z :=
  match times s with Some t => progress t | None => 0 end.

(** [!this.stateWhenReachedZero], or the status of that slot has changed since. *)
Definition starts_over (p : Panel) (s : Slot) : bool :=
  match stateWhenReachedZero p with
  | Some (g, st) => (g =? globalSlot s) && negb (bool_decide (st = status s))
  | None => true
  end.

Definition listenToActiveSlot (now : Z) (p : Panel) (s : Slot) : result Panel :=
  let again := starts_over p s in
  let p1 :=
    mkPanel (Some s) (message s) (steps_done s) (remainingTime p) (readable (slotTime s)) (slotTime s <? now)
      (if again then negb (active s) else stopTimer p) (if again then None else stateWhenReachedZero p)
      (vrfText p) (vrf p) (view p) (notice p) (p_network p) in
  let p2 := parse now p1 in
  match createDiscardedView (view p) s with
  | Throw e => Throw e
  | Ok n =>
    Ok (mkPanel (slot p2) (title p2) (p_percentage p2) (remainingTime p2) (p_scheduled p2)
          (slotStartedAlready p2) (stopTimer p2) (stateWhenReachedZero p2)
          (if active s then "Won Slot Requirement" else "Block Produce Right") (vrfValueWithThreshold s)
          (view p2) n (p_network p2))
  end.

Inductive PanelEvent :=
| PSlot (now : Z) (s : option Slot)
| PTick (now : Z)                    (* every second *)
| PNode (network : option string)
| PView
| PMinascan
| PClose.

Definition panel_step (p : Panel) (ev : PanelEvent) : result (Panel * list Output) :=
  match ev with
  | PSlot now (Some s) =>
    match listenToActiveSlot now p s with Ok p' => Ok (p', []) | Throw e => Throw e end
  | PSlot _ None => Ok (p, [])
  | PTick now => Ok (parse now p, [])
  | PNode network =>
    Ok (mkPanel (slot p) (title p) (p_percentage p) (remainingTime p) (p_scheduled p) (slotStartedAlready p)
          (stopTimer p) (stateWhenReachedZero p) (vrfText p) (vrf p) (view p) (notice p) (toLowerCase <$> network),
        [])
  | PView =>
    Ok (mkPanel (slot p) (title p) (p_percentage p) (remainingTime p) (p_scheduled p) (slotStartedAlready p)
          (stopTimer p) (stateWhenReachedZero p) (vrfText p) (vrf p) true (notice p) (p_network p), [])
  | PMinascan =>
    match slot p with
    | Some s => Ok (p, [OpenTab ("https://minascan.io/" +:+ text_of (p_network p) +:+ "/block/" +:+
                                 text_of (hash s))])
    | None => Throw "Cannot read properties of undefined (reading 'hash')"
    end
  | PClose => Ok (p, [GoWonSlots; Do ToggleSidePanel])
  end.
End SidePanel.

(** ** The cards *)

Record Cards := mkCards {
  nextWonSlot : option string;
  nextSlot : option Z;
  wonSlots : option nat;
  slotsUsed : option nat;
  acceptedBlocks : option nat;
  lastBlockTime : option string;
  epochProgress : string;
  endIn : option string;
  c_publicKey : option string;
  totalRewards : option string;
  c_network : option string
}.

Definition initialCards : Cards :=
  mkCards (Some "-") None None None None None "-" None None None None.

Definition relative (now : Z) (t : option Z) : option string :=
  diff (getTimeDiff now t (mkDiffConfig false false None)).

(** The sum of the rewards, [None] where one of them is not a number. *)
Fixpoint sum_rewards (l : list Slot) : option Z :=
  match l with
  | [] => Some 0
  | s :: l' =>
    match coinbaseRewards s, txFeesRewards s, sum_rewards l' with
    | Some c, Some f, Some r => Some (c + f + r)
    | _, _, _ => None
    end
  end.

(** [toFixed(0)] of an amount in billionths; a half is rounded up. *)
Definition whole (n : Z) : string := show (floor_div (2 * n + 1000000000) 2000000000).

Definition canonical (l : list Slot) : list Slot := List.filter (fun s => has_status s Canonical) l.

Definition is_used (s : Slot) : bool := has_status s Canonical || has_status s Orphaned || has_status s Discarded.

Definition is_next (s : Slot) : bool := has_status s Scheduled || negb (is_some (status s)).

Definition cards_slots (now : Z) (c : Cards) (l : list Slot) : Cards :=
  match l with
  | [] => c
  | _ =>
    let next := List.find is_next l in
    mkCards
      match next with Some s => relative now (Some (slotTime s)) | None => Some "Now" end
      match next with Some s => Some (globalSlot s) | None => globalSlot <$> List.find active l end
      (Some (length l)) (Some (count_if is_used l)) (Some (length (canonical l)))
      (relative now (slotTime <$> last_item (canonical l)))
      (epochProgress c) (endIn c) (c_publicKey c)
      (Some match sum_rewards (canonical l) with Some n => whole n | None => "0" end)
      (c_network c)
  end.

(** [Math.floor(part / all * 100) + '%'] *)
Definition percent_text (part all : Z) : string :=
  (if all =? 0 then if part =? 0 then "NaN" else if 0 <? part then "Infinity" else "-Infinity"
   else show (floor_div (part * 100) all)) +:+ "%".

Definition cards_epoch (now : Z) (c : Cards) (e : Epoch) : Cards :=
  let epochEnd := floor_div (currentTime e) 1000000 + (end_ e - currentGlobalSlot e) * 3 * 60 * 1000 in
  mkCards (nextWonSlot c) (nextSlot c) (wonSlots c) (slotsUsed c) (acceptedBlocks c) (lastBlockTime c)
    (percent_text (currentGlobalSlot e - start e) (end_ e - start e)) (relative now (Some epochEnd))
    (Some (publicKey e)) (totalRewards c) (c_network c).

Inductive CardsEvent :=
| CSlots (now : Z) (l : list Slot)
| CEpoch (now : Z) (e : option Epoch)
| CNode (network : option string)
| CToggle
| CMinascan.

Definition cards_step (c : Cards) (ev : CardsEvent) : Cards * list Output :=
  match ev with
  | CSlots now l => (cards_slots now c l, [])
  | CEpoch now (Some e) => (cards_epoch now c e, [])
  | CEpoch _ None => (c, [])
  | CNode network =>
    (mkCards (nextWonSlot c) (nextSlot c) (wonSlots c) (slotsUsed c) (acceptedBlocks c) (lastBlockTime c)
       (epochProgress c) (endIn c) (c_publicKey c) (totalRewards c) (toLowerCase <$> network), [])
  | CToggle => (c, [Do ToggleSidePanel])
  | CMinascan =>
    (c, [OpenTab ("https://minascan.io/" +:+ text_of (c_network c) +:+ "/account/" +:+
                  default "null" (c_publicKey c))])
  end.

(** ** The filters *)

Inductive FilterKey := KAccepted | KOrphaned | KUpcoming | KDiscarded.

Record FilterBar := mkBar {
  bar_filters : Filters;              (* the store emits them on the subscription *)
  totalWonSlots : nat; totalCanonical : nat; totalOrphaned : nat; totalFuture : nat; totalDiscarded : nat
}.

Definition set_filter (f : Filters) (k : FilterKey) (v : bool) : Filters :=
  match k with
  | KAccepted => mkFilters v (orphaned f) (upcoming f) (f_discarded f)
  | KOrphaned => mkFilters (accepted f) v (upcoming f) (f_discarded f)
  | KUpcoming => mkFilters (accepted f) (orphaned f) v (f_discarded f)
  | KDiscarded => mkFilters (accepted f) (orphaned f) (upcoming f) v
  end.

Inductive BarEvent :=
| BFilters (f : Filters)
| BSlots (l : list Slot)
| BChange (k : FilterKey) (v : bool).

Definition bar_step (b : FilterBar) (ev : BarEvent) : FilterBar * list Output :=
  match ev with
  | BFilters f =>
    (mkBar f (totalWonSlots b) (totalCanonical b) (totalOrphaned b) (totalFuture b) (totalDiscarded b), [])
  | BSlots l =>
    (mkBar (bar_filters b) (length l) (count_if (fun s => has_status s Canonical) l)
       (count_if (fun s => has_status s Orphaned) l) (count_if is_next l)
       (count_if (fun s => has_status s Discarded) l), [])
  | BChange k v =>
    (b, [Do (ChangeFilters (set_filter (bar_filters b) k v))])
  end.

(** ** The line of the epoch *)

Record EpochLine := mkLine { line_epoch : option string; line_key : option string; startedAgo : option string }.

Definition line_slots (x : EpochLine) (l : list Slot) : EpochLine :=
  match l with
  | [] => x
  | s :: _ =>
    mkLine (Some ("Epoch " +:+ match epoch s with Some e => show e | None => "undefined" end)) (line_key x)
      (startedAgo x)
  end.

Definition line_step (now : Z) (x : EpochLine) (e : option Epoch) : EpochLine :=
  match e with
  | None => x
  | Some e =>
    let epochStart := floor_div (currentTime e) 1000000000 + - (currentGlobalSlot e - start e) * 3 * 60 in
    mkLine (line_epoch x) (Some (publicKey e)) (relative now (Some (epochStart * 1000)))
  end.

(** ** The page *)

Record Page := mkPage {
  showSidePanel : bool;
  nodeIsBootstrapping : bool;
  isPending : bool;
  isCalculatingVRF : bool;
  vrfStats : option (option Z * option Z);
  page_epoch : option Z;
  emptySlots : bool;
  isLoading : bool
}.

Definition initialPage (isDesktop : bool) : Page := mkPage isDesktop false true false None None true true.

Inductive PageEvent :=
| OnNode (route : option string)     (* a node becomes active, with the id of the route *)
| OnDetails (d : option App.NodeStatus)
| OnTick                             (* every ten seconds *)
| OnPanel (open : bool)
| OnEpoch (e : option Epoch)
| OnSlots (l : list Slot)
| OnResponded (responded : bool)
| OnDestroy.

Definition lt_opt (a b : option Z) : bool :=
  match a, b with Some x, Some y => x <? y | _, _ => false end.

Definition page_step (p : Page) (ev : PageEvent) : Page * list Output :=
  match ev with
  | OnNode route =>
    (mkPage (showSidePanel p) (nodeIsBootstrapping p) (isPending p) (isCalculatingVRF p) (vrfStats p)
       (page_epoch p) (emptySlots p) true, [Do (Init route)])
  | OnDetails d =>
    (mkPage (showSidePanel p) (bool_decide (d = Some App.BOOTSTRAP)) (bool_decide (d = Some App.PENDING))
       (isCalculatingVRF p) (vrfStats p) (page_epoch p) (emptySlots p) (isLoading p), [])
  | OnTick => (p, [Do GetSlots])
  | OnPanel open =>
    (mkPage open (nodeIsBootstrapping p) (isPending p) (isCalculatingVRF p) (vrfStats p)
       (page_epoch p) (emptySlots p) (isLoading p), [])
  | OnEpoch e =>
    (mkPage (showSidePanel p) (nodeIsBootstrapping p) (isPending p)
       (lt_opt (e ≫= evaluated) (e ≫= total)) ((fun x => (evaluated x, total x)) <$> e) (epochNumber <$> e)
       (emptySlots p) (isLoading p), [])
  | OnSlots l =>
    (mkPage (showSidePanel p) (nodeIsBootstrapping p) (isPending p) (isCalculatingVRF p) (vrfStats p)
       (page_epoch p) match l with [] => true | _ => false end (isLoading p), [])
  | OnResponded responded =>
    (mkPage (showSidePanel p) (nodeIsBootstrapping p) (isPending p) (isCalculatingVRF p) (vrfStats p)
       (page_epoch p) (emptySlots p) (negb responded), [])
  | OnDestroy => (p, [Do Close])
  end.

(** What the template shows. *)
Inductive Screen := LoadingScreen | WaitingForSync | Calculating | SlotsScreen.

Definition screen (p : Page) : Screen :=
  if (isPending p || nodeIsBootstrapping p || isCalculatingVRF p || isLoading p) && emptySlots p
  then if isPending p || isLoading p then LoadingScreen
       else if nodeIsBootstrapping p then WaitingForSync else Calculating
  else SlotsScreen.

(** ** The countdown *)

(** The texts of the first three minutes. *)
Lemma countdown_texts :
  forallb (fun n => let k := Z.of_nat n in
    String.eqb (trim (all_units true (mkParts 0 0 (k / 60) (k mod 60)))) (getElapsedTime k)) (seq 0 181) = true.
Proof. vm_compute. reflexivity. Qed.

Lemma countdown_text k : 0 <= k <= 180 ->
  trim (all_units true (mkParts 0 0 (k / 60) (k mod 60))) = getElapsedTime k.
Proof.
  intros Hk. pose proof countdown_texts as Hc. rewrite forallb_forall in Hc.
  specialize (Hc (Z.to_nat k)). rewrite Z2Nat.id in Hc by lia.
  apply String.eqb_eq, Hc, in_seq. lia.
Qed.

Lemma zero_second k : 0 <= k <= 180 -> (getElapsedTime k = "0s" <-> k = 0).
Proof.
  intros Hk. split; [|by intros ->].
  assert (Hall : forallb (fun n => negb (String.eqb (getElapsedTime (Z.of_nat n)) "0s")) (seq 1 180) = true)
    by (vm_compute; reflexivity).
  intros He. destruct (decide (k = 0)) as [|Hn]; [done|exfalso].
  rewrite forallb_forall in Hall. specialize (Hall (Z.to_nat k) ltac:(apply in_seq; lia)).
  rewrite Z2Nat.id, He in Hall by lia. done.
Qed.

Lemma split_short t : 0 <= t < 3600000 ->
  split_time t = mkParts 0 0 (t / 1000 / 60) ((t / 1000) mod 60).
Proof.
  intros Ht. unfold split_time, floor_div. cbn zeta.
  rewrite (Z.div_small t (1000 * 60 * 60 * 24)) by lia. rewrite Z.mul_0_l, !Z.sub_0_r.
  rewrite (Z.div_small t (1000 * 60 * 60)) by lia. rewrite Z.mul_0_l, !Z.sub_0_r.
  rewrite Z.div_div by lia. f_equal.
  pose proof (Z.div_mod t 60000 ltac:(lia)). pose proof (Z.mod_pos_bound t 60000 ltac:(lia)).
  pose proof (Z.div_mod t 1000 ltac:(lia)). pose proof (Z.mod_pos_bound t 1000 ltac:(lia)).
  pose proof (Z.div_mod (t / 1000) 60 ltac:(lia)). pose proof (Z.mod_pos_bound (t / 1000) 60 ltac:(lia)).
  assert (t / 1000 / 60 = t / 60000) by (rewrite Z.div_div by lia; reflexivity).
  change (1000 * 60) with 60000.
  symmetry. apply Z.div_unique with (r := t mod 1000); lia.
Qed.

(** Ticks that follow each other within less than two seconds. *)
Fixpoint paced (from : Z) (ts : list Z) : Prop :=
  match ts with
  | [] => True
  | t :: ts' => from <= t < from + 2000 /\ paced t ts'
  end.

(** What the panel shows after each of the ticks. *)
Fixpoint shown_at (p : Panel) (ts : list Z) : list (Z * option string) :=
  match ts with
  | [] => []
  | t :: ts' => let p' := parse t p in (t, remainingTime p') :: shown_at p' ts'
  end.

(** The end of the slot. *)
Definition slot_end (s : Slot) : Z := slotTime s + 180000.

Lemma pretty_go_grows x s : (String.length s <= String.length (pretty_N_go x s))%nat.
Proof.
  revert s. induction x as [x IH] using (well_founded_induction N.lt_wf_0). intros s.
  destruct (decide (x = 0%N)) as [->|Hx]; [by rewrite pretty_N_go_0|].
  rewrite pretty_N_go_step by lia. etrans; [|apply IH, N.div_lt; lia]. simpl. lia.
Qed.

Lemma pretty_go_length k x s :
  (10 ^ N.of_nat k <= x)%N -> (S k + String.length s <= String.length (pretty_N_go x s))%nat.
Proof.
  revert x s. induction k as [|k IH]; intros x s Hx.
  - rewrite pretty_N_go_step by (simpl in Hx; lia). etrans; [|apply pretty_go_grows]. simpl. lia.
  - rewrite Nat2N.inj_succ, N.pow_succ_r' in Hx.
    rewrite pretty_N_go_step by (pose proof (N.pow_nonzero 10 (N.of_nat k)); lia).
    etrans; [|apply IH]; [simpl; lia|]. apply N.div_le_lower_bound; lia.
Qed.

(** A time after April 1970 has more than ten digits. *)
Lemma to_millis_late t : 10 ^ 10 <= t -> to_millis t = t.
Proof.
  intros Ht. unfold to_millis. destruct (Nat.eqb_spec (String.length (show t)) 10) as [He|]; [exfalso|done].
  destruct t as [|q|q]; try lia.
  change (show (Z.pos q)) with (pretty_N_go (N.pos q) "") in He.
  pose proof (pretty_go_length 10 (N.pos q) "" ltac:(change (N.of_nat 10) with 10%N; lia)). simpl in *. lia.
Qed.

Lemma seconds_range d : 0 <= d <= 180999 -> 0 <= d / 1000 <= 180.
Proof. intros Hd. pose proof (Z.div_mod d 1000). pose proof (Z.mod_pos_bound d 1000). lia. Qed.

(** The text of a time left. *)
Lemma time_left now t :
  10 ^ 10 <= t -> Z.abs (t - now) <= 180999 ->
  diff (getTimeDiff now (Some t) (mkDiffConfig true false None)) =
  Some (getElapsedTime (Z.abs (t - now) / 1000)).
Proof.
  intros Ht Hd. unfold getTimeDiff.
  assert (truthyZ t = true) as -> by (unfold truthyZ; by rewrite (proj2 (Z.eqb_neq t 0) ltac:(lia))).
  cbn [negb only1unit withSecs fromTime diff]. rewrite to_millis_late, split_short by lia.
  by rewrite countdown_text by (apply seconds_range; lia).
Qed.

(** One tick of a panel whose timer runs. *)
Lemma parse_running now p s :
  slot p = Some s -> stopTimer p = false -> 10 ^ 10 <= slot_end s -> Z.abs (slot_end s - now) <= 180999 ->
  parse now p =
  if Z.abs (slot_end s - now) <? 1000 then set_time p (Some "-") true (Some (globalSlot s, status s))
  else set_time p (Some (getElapsedTime (Z.abs (slot_end s - now) / 1000))) false (stateWhenReachedZero p).
Proof.
  intros Hs Hr He Hd. unfold parse. rewrite Hs, Hr.
  replace (addMinutesToTimestamp (slotTime s) 3) with (slot_end s)
    by (unfold addMinutesToTimestamp, slot_end; lia).
  rewrite time_left by done. set (d := Z.abs _) in *.
  destruct (zero_second (d / 1000) (seconds_range d ltac:(lia))) as [Hz1 Hz2]. destruct (Z.ltb_spec d 1000).
  - rewrite bool_decide_eq_true_2; [done|]. f_equal. apply Hz2, Z.div_small. lia.
  - rewrite bool_decide_eq_false_2; [done|]. intros [= E].
    apply Hz1 in E. pose proof (Z.div_mod d 1000). pose proof (Z.mod_pos_bound d 1000). lia.
Qed.

Lemma parse_stopped now p : stopTimer p = true -> parse now p = set_time p (Some "-") true (stateWhenReachedZero p).
Proof. intros Hr. unfold parse. destruct (slot p); by rewrite Hr. Qed.

Lemma shown_stopped ts p : stopTimer p = true -> shown_at p ts = (fun t => (t, Some "-")) <$> ts.
Proof.
  revert p. induction ts as [|t ts IH]; intros p Hr; [done|].
  cbn [shown_at]. rewrite fmap_cons, parse_stopped by done. f_equal. by apply IH.
Qed.

(** The ticks never step back. *)
Lemma paced_after from ts : paced from ts -> Forall (fun t => from <= t) ts.
Proof.
  revert from. induction ts as [|t ts IH]; intros from H; constructor; destruct H as [Ht H]; [lia|].
  eapply Forall_impl; [exact (IH _ H)|]. cbn. lia.
Qed.

(** What is to be shown of a slot at a time. *)
Definition countdown (s : Slot) (t : Z) : option string :=
  if t <=? slot_end s - 1000 then Some (getElapsedTime ((slot_end s - t) / 1000)) else Some "-".

(** While the active slot runs, the side panel shows at every tick the
    whole seconds that are left of it; from the last second on it shows a dash and
    never counts up, for ticks less than two seconds apart. *)
Theorem remaining_time_counts_down s p from ts :
  slot p = Some s -> stopTimer p = false -> 10 ^ 10 <= slotTime s ->
  slotTime s <= from <= slot_end s - 1000 -> paced from ts ->
  shown_at p ts = (fun t => (t, countdown s t)) <$> ts.
Proof.
  revert p from. induction ts as [|t ts IH]; intros p from Hs Hr H10 Hf Hp; [done|].
  destruct Hp as [Ht Hp]. cbn [shown_at]. rewrite fmap_cons.
  rewrite (parse_running t p s) by (unfold slot_end in *; lia || done).
  unfold countdown at 1. destruct (Z.leb_spec t (slot_end s - 1000)) as [Hle|Hgt].
  - destruct (Z.ltb_spec (Z.abs (slot_end s - t)) 1000); [lia|]. rewrite Z.abs_eq by lia. f_equal.
    apply (IH _ t); [done..| |done]. lia.
  - destruct (Z.ltb_spec (Z.abs (slot_end s - t)) 1000) as [Hlt|]; [|lia]. f_equal.
    rewrite shown_stopped by done. apply list_fmap_ext. intros i x Hx.
    pose proof (Forall_lookup_1 _ _ _ _ (paced_after _ _ Hp) Hx) as Ha. unfold countdown.
    by rewrite (proj2 (Z.leb_gt x _)) by (cbn in Ha; lia).
Qed.

(** ** The panel and the chosen slot *)

Section Choice.
Context `{HasValue} (readable : Z -> string).

(** The panel of an active slot counts from the moment it is chosen. *)
Lemma chosen_slot_counts now p s p' :
  stateWhenReachedZero p = None -> active s = true -> 10 ^ 10 <= slotTime s ->
  slotTime s <= now <= slot_end s - 1000 -> listenToActiveSlot readable now p s = Ok p' ->
  slot p' = Some s /\ stopTimer p' = false /\ remainingTime p' = countdown s now.
Proof.
  intros Hz Ha H10 Hn Hl. unfold listenToActiveSlot in Hl.
  unfold starts_over in Hl. rewrite Hz, Ha in Hl. cbn iota zeta in Hl.
  rewrite (parse_running now _ s) in Hl by (cbn; unfold slot_end in *; lia || done).
  destruct (createDiscardedView _ _) as [n|e]; [|done]. unfold countdown.
  destruct (Z.ltb_spec (Z.abs (slot_end s - now)) 1000); [lia|].
  rewrite Z.abs_eq in Hl by lia. rewrite (proj2 (Z.leb_le _ _)) by lia. by simplify_eq.
Qed.

(** Once a slot has run out in the panel, another slot chosen later is not
    counted, although it is active. *)
Lemma timer_stays_stopped now p s g st p' :
  stateWhenReachedZero p = Some (g, st) -> stopTimer p = true -> g <> globalSlot s ->
  listenToActiveSlot readable now p s = Ok p' ->
  remainingTime p' = Some "-" /\ stopTimer p' = true /\ stateWhenReachedZero p' = Some (g, st).
Proof.
  intros Hz Hr Hg Hl. unfold listenToActiveSlot in Hl. unfold starts_over in Hl.
  rewrite Hz, (proj2 (Z.eqb_neq _ _) Hg) in Hl. cbn in Hl. rewrite Hr in Hl. cbn in Hl.
  destruct (createDiscardedView _ _) as [n|e]; [|done]. by simplify_eq.
Qed.

(** The notice of a discarded block is at the step that ended last before the
    block was discarded, when the node reports the end of every step. *)
Lemma notice_after_last_step t l pr pf ap d :
  stagedLedgerDiffCreateEnd t = Some l -> producedEnd t = Some pr -> proofCreateEnd t = Some pf ->
  blockApplyEnd t = Some ap -> discarded t = Some d -> l <= pr <= pf -> pf <= ap ->
  place t = if d <? l then BeforeLedger else if d <? pr then AtLedger else if d <? pf then AtProduced
            else if d <? ap then AtProof else AtApply.
Proof.
  intros Hl Hpr Hpf Hap Hd H1 H2. unfold place. rewrite Hl, Hpr, Hpf, Hap, Hd. cbn.
  repeat match goal with
  | |- context [?a <? ?b] => destruct (Z.ltb_spec a b)
  | |- context [?a <=? ?b] => destruct (Z.leb_spec a b)
  end; done || lia.
Qed.

(** A block that was discarded before it was applied has no such time, and the
    notice is put under the last step, which has not begun. *)
Lemma notice_under_last_step t d :
  discarded t = Some d -> 0 <= d -> blockApplyEnd t = None -> place t = AtApply.
Proof.
  intros Hd H0 Ha. unfold place. rewrite Hd, Ha. cbn.
  by rewrite (proj2 (Z.leb_le 0 d)) by lia.
Qed.

(** The first slot arrives before the template is built, and its notice is lost. *)
Lemma notice_lost_at_open now p s p' :
  view p = false -> listenToActiveSlot readable now p s = Ok p' -> notice p' = None.
Proof.
  intros Hv Hl. unfold listenToActiveSlot in Hl. rewrite Hv in Hl.
  unfold createDiscardedView in Hl. repeat case_match; by simplify_eq.
Qed.
End Choice.

(** ** Filters, epoch and page *)

Lemma one_total s :
  ((if has_status s Canonical then 1 else 0) + (if has_status s Orphaned then 1 else 0) +
   (if is_next s then 1 else 0) + (if has_status s Discarded then 1 else 0) +
   (if negb (is_used s || is_next s) then 1 else 0) = 1)%nat.
Proof. unfold is_used, is_next, has_status. destruct (status s) as [[]|]; reflexivity. Qed.

(** The totals of the filters leave out only the attempts that are under way. *)
Lemma totals_partition b l :
  let b' := fst (bar_step b (BSlots l)) in
  (totalCanonical b' + totalOrphaned b' + totalFuture b' + totalDiscarded b' +
   count_if (fun s => negb (is_used s || is_next s)) l = totalWonSlots b')%nat.
Proof.
  cbn. induction l as [|s l IH]; [done|]. rewrite !count_if_cons. cbn [length]. rewrite <- IH.
  pose proof (one_total s). lia.
Qed.

(** The changed filters are those of the store with one of them replaced, and the
    store takes them over. *)
Lemma filter_change_taken `{TableSorter Slot} d m s b k v :
  bar_filters b = filters s ->
  exists a s', snd (bar_step b (BChange k v)) = [Do a] /\ reducer d m s a = Ok s' /\
    filters s' = set_filter (filters s) k v /\ slots s' = slots s /\
    filteredSlots s' ≡ₚ List.filter (show_slot (set_filter (filters s) k v)) (slots s).
Proof.
  intros Hb. eexists _, _. split_and!; [done|done| | |]; cbn; rewrite ?Hb; [done..|].
  apply filterSlots_perm.
Qed.

(** The list of a node without attempts begins with a future slot, which has no
    epoch. *)
Lemma epoch_undefined `{HasValue} `{NanOrElse} d now x r w ws :
  attempts r = [] -> future_won_slots r = w :: ws ->
  line_epoch (line_slots x (fst (getSlots d now (Some r)))) = Some "Epoch undefined".
Proof. intros Ha Hw. unfold getSlots. by rewrite Ha, Hw. Qed.

(** Slots that have been received stay on the screen, whatever the node does. *)
Lemma slots_shown p : emptySlots p = false -> screen p = SlotsScreen.
Proof. intros He. unfold screen. by rewrite He, andb_false_r. Qed.

(** A node that has answered is never shown as loading, unless it is pending. *)
Lemma answered_not_loading p :
  isPending p = false -> screen (fst (page_step p (OnResponded true))) <> LoadingScreen.
Proof. intros Hp. unfold screen. cbn. rewrite Hp. cbn. repeat case_match; congruence. Qed.

(** ** A slot that is produced *)

Definition sample_slot : Slot :=
  {| epoch := Some 1; message := "Producing"; age := "Now"; slotTime := 1700000000000; globalSlot := 7141;
     slotInEpoch := Some 1; vrfValueWithThreshold := [1; 2]; active := true; percentage := Some 0;
     height := None; hash := None; transactionsTotal := Some 0; payments := Some 0; delegations := Some 0;
     zkapps := Some 0; snarkFees := None; coinbaseRewards := None; txFeesRewards := None;
     completedWorksCount := Some 0; times := None; status := Some Scheduled; discardReason := None;
     lastObservedConfirmations := None; orphanedBy := None |}.

Definition sample_panel : Panel :=
  mkPanel (Some sample_slot) "Producing" 0 None "" true false None "" [] true None None.

Definition sample_ticks : list Z := [1700000001000; 1700000002000; 1700000003500].

Lemma remaining_time_counts_down_witness :
  shown_at sample_panel sample_ticks = (fun t => (t, countdown sample_slot t)) <$> sample_ticks.
Proof.
  apply (remaining_time_counts_down sample_slot sample_panel 1700000000000);
    cbn; unfold slot_end; cbn; try reflexivity; lia.
Defined.

End WonSlotsPage.
