(* ===== verification/DhtLine.v ===== *)
(** * The page of the node's routing table

    [features/network/node-dht] of [src/frontend/src/app]: the line on which the
    peers are drawn by their distances ([network-node-dht-line.component.ts]), the
    side panel ([network-node-dht-side-panel.component.ts]) and the page
    ([network-node-dht.component.ts]), around the store of [NodeDht].

    Positions are rational numbers: a percentage of the key space, [None] where the
    quotient of the code is not finite, or pixels. *)

From Stdlib Require Import Ascii QArith Lqa.
From stdpp Require Import base list strings sets.
From S2P Require Import Prelude SharedLib AppStore NodeDht.
Open Scope Z_scope.

Module DhtLine.
Import NodeDht.

(** ** The line *)

Record Point := mkPoint {
  left : option Q;
  pt_connection : string;
  originalLeft : option Q;
  isOrigin : bool;
  pt_peerId : string
}.

Record Line := mkLine {
  l_activePeer : option Peer;
  points : list Point;
  bucketPoints : list (option Q);
  openSidePanel : bool;
  l_buckets : list BucketInfo;
  l_thisKey : string;
  l_peers : list Peer;
  lastKnownWidth : Z
}.

Definition initialLine (width : Z) : Line := mkLine None [] [] false [] "" [] width.

(** [Number(a) / Number(b) * 100] *)
Definition percent (a b : Z) : option Q :=
  if b =? 0 then None else Some (inject_Z a / inject_Z b * 100)%Q.

(** The strings are compared, not the numbers they denote. *)
Definition getMaxOfHex (bs : list BucketInfo) : string :=
  fold_left (fun m b => if String.ltb (b_maxHex b) m then m else b_maxHex b) bs "0".

(** [(point.originalLeft / 100) * max] *)
Definition pixels (width : Z) (o : option Q) : option Q :=
  (fun q => (q / 100 * inject_Z (width - 16))%Q) <$> o.

Definition calculateLeftBasedOnParentContainer (width : Z) (pts : list Point) : list Point :=
  (fun p => mkPoint (pixels width (originalLeft p)) (pt_connection p) (originalLeft p) (isOrigin p)
              (pt_peerId p)) <$> pts.

Definition bucket_point (max : Z) (b : BucketInfo) : result (option Q) :=
  match BigInt_hex (b_maxHex b) with
  | Ok v => Ok (percent v max)
  | Throw e => Throw e
  end.

Definition peer_point (thisKey : string) (max : Z) (p : Peer) : result Point :=
  match BigInt_hex (hexDistance p) with
  | Ok v => Ok (mkPoint None (connection p) (percent v max) (String.eqb (key p) thisKey) (peerId p))
  | Throw e => Throw e
  end.

(** [calculate()] *)
Definition calculate (width : Z) (l : Line) : result Line :=
  match BigInt_hex (getMaxOfHex (l_buckets l)) with
  | Throw e => Throw e
  | Ok max =>
    match map_result (bucket_point max) (rev (l_buckets l)),
          map_result (peer_point (l_thisKey l) max) (l_peers l) with
    | Ok bps, Ok pts =>
      Ok (mkLine (l_activePeer l) (calculateLeftBasedOnParentContainer width pts) bps (openSidePanel l)
            (l_buckets l) (l_thisKey l) (l_peers l) (lastKnownWidth l))
    | Throw e, _ => Throw e
    | _, Throw e => Throw e
    end
  end.

(** [this.peers.some((p, i) => p.hexDistance !== peers[i].hexDistance)] *)
Fixpoint some_moved (old new : list Peer) : result bool :=
  match old, new with
  | [], _ => Ok false
  | p :: old', q :: new' =>
    if String.eqb (hexDistance p) (hexDistance q) then some_moved old' new' else Ok true
  | _ :: _, [] => Throw "Cannot read properties of undefined (reading 'hexDistance')"
  end.

Inductive LineEvent :=
| LPeers (s : State)                 (* the selection of the store changes *)
| LWidth
| LActive (p : option Peer)
| LSelect (pt : Point).

(** [width] is the width of the element when the event is handled. *)
Definition line_step (width : Z) (l : Line) (ev : LineEvent) : result (Line * list Action) :=
  match ev with
  | LPeers s =>
    if truthy_str (thisKey s)
    then
      match (match l_peers l with [] => Ok true | _ => some_moved (l_peers l) (peers s) end) with
      | Throw e => Throw e
      | Ok true =>
        match calculate width (mkLine (l_activePeer l) (points l) (bucketPoints l) (is_some (activePeer s))
                                 (buckets s) (thisKey s) (peers s) (lastKnownWidth l)) with
        | Ok l' => Ok (l', [])
        | Throw e => Throw e
        end
      | Ok false =>
        Ok (mkLine (l_activePeer l) (points l) (bucketPoints l) (is_some (activePeer s)) (l_buckets l)
              (thisKey s) (l_peers l) (lastKnownWidth l), [])
      end
    else Ok (l, [])
  | LWidth =>
    if truthy_str (l_thisKey l) && negb (lastKnownWidth l =? width)
    then Ok (mkLine (l_activePeer l) (calculateLeftBasedOnParentContainer width (points l)) (bucketPoints l)
               (openSidePanel l) (l_buckets l) (l_thisKey l) (l_peers l) width, [])
    else Ok (l, [])
  | LActive p =>
    Ok (mkLine p (points l) (bucketPoints l) (openSidePanel l) (l_buckets l) (l_thisKey l) (l_peers l)
          (lastKnownWidth l), [])
  | LSelect pt =>
    Ok (l, [SetActivePeer (List.find (fun p => String.eqb (peerId p) (pt_peerId pt)) (l_peers l))])
  end.

(** The label of the bucket drawn at an index: its number and its peers. *)
Definition bucket_label (l : Line) (i : nat) : option (nat * nat) :=
  match l_buckets l !! i with Some b => Some (i, b_peers b) | None => None end.

(** ** The side panel and the page *)

Inductive Output :=
| Do (a : Action)
| GoNodeDht
| GoBootstrapStats (peer : string)
| Download (text : option string) (file : string).

Record SidePanel := mkSidePanel {
  sp_peer : option Peer;
  jsonString : option string;
  hasBootstrapStatsEnabled : bool;
  expanded : option bool             (* all of the viewer opened or closed *)
}.

Inductive PanelEvent :=
| PPeer (p : option Peer)
| PNode (n : MinaNode)
| PDownload | PExpand | PCollapse | PClose | PBootstrapStats.

(** [stringify] is [JSON.stringify]. *)
Definition panel_step `{HasValue} (stringify : Peer -> string) (env : Config.Env) (s : SidePanel)
    (ev : PanelEvent) : result (SidePanel * list Output) :=
  match ev with
  | PPeer p => Ok (mkSidePanel p (stringify <$> p) (hasBootstrapStatsEnabled s) (expanded s), [])
  | PNode n =>
    match Config.isSubFeatureEnabled env n "network" "bootstrap-stats" with
    | Ok b => Ok (mkSidePanel (sp_peer s) (jsonString s) b (expanded s), [])
    | Throw e => Throw e
    end
  | PDownload => Ok (s, [Download (jsonString s) "dht-peer.json"])
  | PExpand => Ok (mkSidePanel (sp_peer s) (jsonString s) (hasBootstrapStatsEnabled s) (Some true), [])
  | PCollapse => Ok (mkSidePanel (sp_peer s) (jsonString s) (hasBootstrapStatsEnabled s) (Some false), [])
  | PClose => Ok (s, [Do (SetActivePeer None); GoNodeDht])
  | PBootstrapStats =>
    match sp_peer s with
    | Some p => Ok (s, [GoBootstrapStats (peerId p)])
    | None => Throw "Cannot read properties of undefined (reading 'peerId')"
    end
  end.

Inductive PageEvent := OnTick | OnActivePeer (p : option Peer) | OnDestroy.

(** The state of the page is whether its panel is open. *)
Definition page_step (open : bool) (ev : PageEvent) : bool * list Output :=
  match ev with
  | OnTick => (open, [Do GetPeers])
  | OnActivePeer p => (is_some p, [])
  | OnDestroy => (open, [Do Close])
  end.

(** ** Comparing hexadecimal numbers as strings *)

Definition lower_digits : list ascii :=
  String.list_ascii_of_string "0123456789abcdef".

(** A number of [n] lower case digits. *)
Definition hex_word (n : nat) (s : string) : Prop :=
  String.length s = n /\ Forall (fun c => c ∈ lower_digits) (String.list_ascii_of_string s).

Definition value (s : string) : Z := default 0 (hex_digits 0 s).

Lemma digit_value c : c ∈ lower_digits -> exists d, hex_digit c = Some d /\ 0 <= d < 16 /\ is_blank c = false.
Proof.
  intros Hc. apply list_elem_of_In in Hc. revert c Hc. apply List.Forall_forall. unfold lower_digits. cbn [String.list_ascii_of_string].
  repeat (apply List.Forall_cons; [eexists; split; [vm_compute; reflexivity|split; [lia|reflexivity]]|]). apply List.Forall_nil.
Qed.

Lemma digits_compare :
  forallb (fun c1 => forallb (fun c2 =>
    match hex_digit c1, hex_digit c2 with
    | Some d1, Some d2 => bool_decide (Ascii.compare c1 c2 = (d1 ?= d2))
    | _, _ => false
    end) lower_digits) lower_digits = true.
Proof. vm_compute. reflexivity. Qed.

Lemma digit_compare c1 c2 d1 d2 :
  c1 ∈ lower_digits -> c2 ∈ lower_digits -> hex_digit c1 = Some d1 -> hex_digit c2 = Some d2 ->
  Ascii.compare c1 c2 = (d1 ?= d2).
Proof.
  intros H1 H2 E1 E2. pose proof digits_compare as H. rewrite forallb_forall in H.
  specialize (H c1 (proj1 (list_elem_of_In _ _) H1)). rewrite forallb_forall in H.
  specialize (H c2 (proj1 (list_elem_of_In _ _) H2)). rewrite E1, E2 in H. by apply bool_decide_eq_true in H.
Qed.

(** A word after [a] digits denotes a number of the range that begins with them. *)
Lemma word_range n s a :
  hex_word n s -> exists v, hex_digits a s = Some v /\ a * 16 ^ Z.of_nat n <= v < (a + 1) * 16 ^ Z.of_nat n.
Proof.
  intros [<- Hs]. revert a Hs. induction s as [|c s IH]; intros a Hs.
  - exists a. split; [done|]. cbn. lia.
  - inversion Hs as [|? ? Hc Hs']; subst. destruct (digit_value c Hc) as (d & Hd & Hr & _).
    destruct (IH (16 * a + d) Hs') as (v & Hv & Hb). exists v. cbn [hex_digits]. rewrite Hd. split; [done|].
    cbn [String.length]. rewrite Nat2Z.inj_succ, Z.pow_succ_r by lia.
    assert (0 < 16 ^ Z.of_nat (String.length s)) by (apply Z.pow_pos_nonneg; lia). nia.
Qed.

Lemma compare_words s1 s2 a v1 v2 :
  hex_word (String.length s2) s1 -> hex_word (String.length s2) s2 ->
  hex_digits a s1 = Some v1 -> hex_digits a s2 = Some v2 -> String.compare s1 s2 = (v1 ?= v2).
Proof.
  intros [Hl1 H1] [_ H2]. revert s2 a Hl1 H1 H2. induction s1 as [|c1 s1 IH]; intros [|c2 s2] a Hl H1 H2 E1 E2;
    try done; cbn in *.
  - simplify_eq. by rewrite Z.compare_refl.
  - inversion H1 as [|? ? Hc1 Hs1]; inversion H2 as [|? ? Hc2 Hs2]; subst. injection Hl as Hl.
    destruct (digit_value c1 Hc1) as (d1 & Hd1 & _). destruct (digit_value c2 Hc2) as (d2 & Hd2 & _).
    rewrite Hd1 in E1. rewrite Hd2 in E2. rewrite (digit_compare c1 c2 d1 d2) by done.
    destruct (word_range _ s1 (16 * a + d1) (conj eq_refl Hs1)) as (w1 & Hw1 & Hr1).
    destruct (word_range _ s2 (16 * a + d2) (conj eq_refl Hs2)) as (w2 & Hw2 & Hr2).
    rewrite Hl in Hr1. simplify_eq.
    assert (0 < 16 ^ Z.of_nat (String.length s2)) by (apply Z.pow_pos_nonneg; lia).
    destruct (Z.compare_spec d1 d2) as [->|Hd|Hd].
    + by apply (IH _ (16 * a + d2)).
    + symmetry. apply Z.compare_lt_iff. nia.
    + symmetry. apply Z.compare_gt_iff. nia.
Qed.

Lemma trim_right_word n s : hex_word n s -> trim_right s = s.
Proof.
  intros [_ Hs]. induction s as [|c s IH]; [done|]. inversion Hs as [|? ? Hc Hs']; subst.
  destruct (digit_value c Hc) as (d & _ & _ & Hb). cbn [trim_right]. rewrite IH by done.
  destruct s; [|done]. by rewrite Hb.
Qed.

Lemma BigInt_word n s : hex_word (S n) s -> BigInt_hex s = Ok (value s) /\ 0 <= value s.
Proof.
  intros Hw. unfold BigInt_hex, value. rewrite (trim_right_word _ _ Hw).
  destruct (word_range _ s 0 Hw) as (v & Hv & Hr). destruct Hw as [Hl _].
  destruct s; [done|]. rewrite Hv. split; [done|]. change (0 <= v). lia.
Qed.

Lemma ltb_words n s1 s2 : hex_word n s1 -> hex_word n s2 -> String.ltb s1 s2 = (value s1 <? value s2).
Proof.
  intros H1 H2. destruct (word_range _ s1 0 H1) as (v1 & E1 & _). destruct (word_range _ s2 0 H2) as (v2 & E2 & _).
  destruct H2 as [Hl H2]. unfold String.ltb, value. rewrite E1, E2.
  rewrite (compare_words s1 s2 0 v1 v2) by (rewrite ?Hl; done). cbn. unfold Z.ltb. by destruct (v1 ?= v2).
Qed.

Definition words (n : nat) (bs : list BucketInfo) : Prop := Forall (fun b => hex_word (S n) (b_maxHex b)) bs.

(** The larger of the greatest string so far and that of a bucket. *)
Definition max_hex (m : string) (b : BucketInfo) : string :=
  if String.ltb (b_maxHex b) m then m else b_maxHex b.

Lemma max_from n bs m :
  hex_word (S n) m -> words n bs ->
  let r := fold_left max_hex bs m in
  hex_word (S n) r /\ value m <= value r /\ Forall (fun b => value (b_maxHex b) <= value r) bs.
Proof.
  revert m. induction bs as [|b bs IH]; intros m Hm Hb; cbn [fold_left].
  - split_and!; [done|lia|constructor].
  - inversion Hb as [|? ? Hw Hb']; subst.
    replace (max_hex m b) with (if value (b_maxHex b) <? value m then m else b_maxHex b)
      by (unfold max_hex; by rewrite (ltb_words (S n))).
    destruct (Z.ltb_spec (value (b_maxHex b)) (value m)) as [Hlt|Hge].
    + destruct (IH m Hm Hb') as (H1 & H2 & H3). split_and!; [done..|]. constructor; [lia|done].
    + destruct (IH (b_maxHex b) Hw Hb') as (H1 & H2 & H3). split_and!; [done|lia|]. by constructor.
Qed.

(** No word comes before the string the search begins with. *)
Lemma word_after_zero n s : hex_word (S n) s -> String.ltb s "0" = false.
Proof.
  intros [Hl Hs]. destruct s as [|c s]; [done|]. inversion Hs as [|? ? Hc _]; subst.
  assert (Hz : forallb (fun c => match Ascii.compare c "0" with Lt => false | _ => true end) lower_digits = true)
    by (vm_compute; reflexivity).
  rewrite forallb_forall in Hz. specialize (Hz c (proj1 (list_elem_of_In _ _) Hc)).
  unfold String.ltb. cbn [String.compare]. destruct (Ascii.compare c "0"); [by destruct s|done|done].
Qed.

(** The greatest of words of the same length is the greatest number. *)
Lemma max_of_words n bs :
  bs <> [] -> words n bs ->
  hex_word (S n) (getMaxOfHex bs) /\ Forall (fun b => value (b_maxHex b) <= value (getMaxOfHex bs)) bs.
Proof.
  intros Hne Hb. destruct bs as [|b bs]; [done|]. inversion Hb as [|? ? Hw Hb']; subst.
  change (getMaxOfHex (b :: bs)) with (fold_left max_hex bs (max_hex "0" b)).
  replace (max_hex "0" b) with (b_maxHex b) by (unfold max_hex; by rewrite (word_after_zero n)).
  destruct (max_from n bs (b_maxHex b) Hw Hb') as (H1 & H2 & H3). split; [done|]. by constructor.
Qed.

(** ** Positions *)

Lemma share_range a b :
  0 <= a <= b -> 0 < b ->
  exists q, percent a b = Some q /\ (q == inject_Z a / inject_Z b * 100)%Q /\ (0 <= q <= 100)%Q.
Proof.
  intros Ha Hb. unfold percent. rewrite (proj2 (Z.eqb_neq b 0)) by lia.
  eexists. split; [done|]. split; [reflexivity|].
  assert (0 < inject_Z b)%Q by (rewrite <- (Zlt_Qlt 0); lia).
  assert (0 <= inject_Z a / inject_Z b <= 1)%Q as [H1 H2]; [|lra]. split.
  - apply Qle_shift_div_l; [done|]. rewrite Qmult_0_l. rewrite <- (Zle_Qle 0). lia.
  - apply Qle_shift_div_r; [done|]. rewrite Qmult_1_l. rewrite <- Zle_Qle. lia.
Qed.

Lemma pixels_range width q :
  16 <= width -> (0 <= q <= 100)%Q ->
  exists x, pixels width (Some q) = Some x /\ (0 <= x <= inject_Z (width - 16))%Q.
Proof.
  intros Hw Hq. eexists. split; [done|].
  assert (0 <= inject_Z (width - 16))%Q by (rewrite <- (Zle_Qle 0); lia).
  assert (0 <= q / 100 <= 1)%Q by (unfold Qdiv; change (/ 100)%Q with (1 # 100)%Q; lra). nra.
Qed.

(** A point that shows a peer at its distance from the node. *)
Definition placed (width max : Z) (thisKey : string) (p : Peer) (pt : Point) : Prop :=
  pt_peerId pt = peerId p /\ pt_connection pt = connection p /\
  isOrigin pt = String.eqb (key p) thisKey /\
  exists q x, originalLeft pt = Some q /\ left pt = Some x /\
    (q == inject_Z (value (hexDistance p)) / inject_Z max * 100)%Q /\
    (0 <= q <= 100)%Q /\ (0 <= x <= inject_Z (width - 16))%Q.

(** Distances that lie in one of the buckets. *)
Definition in_buckets (n : nat) (bs : list BucketInfo) (p : Peer) : Prop :=
  hex_word (S n) (hexDistance p) /\ exists b, b ∈ bs /\ value (hexDistance p) <= value (b_maxHex b).

Lemma map_result_total {A B} (f : A -> result B) (R : A -> B -> Prop) l :
  Forall (fun a => exists b, f a = Ok b /\ R a b) l -> exists bs, map_result f l = Ok bs /\ Forall2 R l bs.
Proof.
  intros H. induction H as [|a l (b & Hb & HR) _ (bs & Hbs & HF)]; [by exists []|].
  exists (b :: bs). split; [|by constructor]. apply map_result_Ok. constructor; [done|]. by apply map_result_Ok.
Qed.

(** Every peer and every bucket is drawn on the line, at the fraction of the
    key space its distance is of the farthest bucket, for distances of the same
    number of digits: the comparison of the strings is that of the numbers. *)
Theorem peers_on_line n width l :
  l_buckets l <> [] -> words n (l_buckets l) -> Forall (in_buckets n (l_buckets l)) (l_peers l) ->
  let max := value (getMaxOfHex (l_buckets l)) in
  0 < max -> 16 <= width ->
  exists l', calculate width l = Ok l' /\
    Forall2 (placed width max (l_thisKey l)) (l_peers l) (points l') /\
    Forall2 (fun b o => exists q, o = Some q /\ (q == inject_Z (value (b_maxHex b)) / inject_Z max * 100)%Q /\
                                  (0 <= q <= 100)%Q) (rev (l_buckets l)) (bucketPoints l').
Proof.
  intros Hne Hw Hp max Hmax Hwidth. destruct (max_of_words n _ Hne Hw) as [Hm Hall].
  unfold calculate. rewrite (proj1 (BigInt_word _ _ Hm)). fold max.
  destruct (map_result_total (bucket_point max)
    (fun b o => exists q, o = Some q /\ (q == inject_Z (value (b_maxHex b)) / inject_Z max * 100)%Q /\
                          (0 <= q <= 100)%Q) (rev (l_buckets l))) as (bps & -> & Hb).
  { apply Forall_rev, Forall_forall. intros b Hin. rewrite Forall_forall in Hall.
    destruct (BigInt_word n (b_maxHex b)) as [Hv H0]; [by apply (proj1 (Forall_forall _ _) Hw)|].
    destruct (share_range (value (b_maxHex b)) max) as (q & Hq & He & Hr); [split; [done|by apply Hall]|done|].
    exists (Some q). split; [|by exists q]. unfold bucket_point. by rewrite Hv, Hq. }
  destruct (map_result_total (peer_point (l_thisKey l) max)
    (fun p pt => forall w, 16 <= w -> placed w max (l_thisKey l) p
       (mkPoint (pixels w (originalLeft pt)) (pt_connection pt) (originalLeft pt) (isOrigin pt) (pt_peerId pt)))
    (l_peers l)) as (pts & -> & Hpts).
  { eapply Forall_impl; [exact Hp|]. intros p (Hword & b & Hin & Hle). rewrite Forall_forall in Hall.
    destruct (BigInt_word n _ Hword) as [Hv H0].
    destruct (share_range (value (hexDistance p)) max) as (q & Hq & He & Hr); [specialize (Hall b Hin); lia|done|].
    eexists. unfold peer_point. rewrite Hv, Hq. split; [done|]. intros w Hw'.
    destruct (pixels_range w q Hw' Hr) as (x & Hx & Hxr). split_and!; [done..|]. by exists q, x. }
  eexists. split; [done|]. split; [|done]. unfold calculateLeftBasedOnParentContainer.
  cbn [points]. apply Forall2_fmap_r. eapply Forall2_impl; [exact Hpts|]. cbn. auto.
Qed.

(** ** Changes of the peers *)

Lemma some_moved_same ps qs : some_moved ps (ps ++ qs) = Ok false.
Proof. induction ps as [|p ps IH]; [done|]. cbn. by rewrite String.eqb_refl. Qed.

Lemma some_moved_short ps p : some_moved (ps ++ [p]) ps =
  Throw "Cannot read properties of undefined (reading 'hexDistance')".
Proof. induction ps as [|q ps IH]; [done|]. cbn. by rewrite String.eqb_refl. Qed.

(** Peers that are added at the end of the list are not drawn. *)
Lemma added_peers_not_drawn width l s ps :
  truthy_str (thisKey s) = true -> l_peers l <> [] -> peers s = l_peers l ++ ps ->
  exists l', line_step width l (LPeers s) = Ok (l', []) /\ points l' = points l /\ l_peers l' = l_peers l.
Proof.
  intros Hk Hne Hp. cbn. rewrite Hk, Hp. destruct (l_peers l) as [|p old] eqn:E; [done|].
  rewrite some_moved_same. by eexists.
Qed.

(** A list that has lost its last peer fails. *)
Lemma removed_peer_throws width l s p :
  truthy_str (thisKey s) = true -> l_peers l = peers s ++ [p] ->
  exists e, line_step width l (LPeers s) = Throw e.
Proof.
  intros Hk Hp. cbn. rewrite Hk, Hp. destruct (peers s ++ [p]) eqn:E; [by destruct (peers s)|].
  rewrite <- E, some_moved_short. by eexists.
Qed.

(** The buckets are drawn in the reversed order, but each is labelled with the
    peers of the bucket at its index. *)
Lemma bucket_label_mirrored width l l' i b :
  calculate width l = Ok l' -> l_buckets l !! i = Some b ->
  length (bucketPoints l') = length (l_buckets l) /\ bucket_label l' i = Some (i, b_peers b) /\
  rev (l_buckets l) !! (length (l_buckets l) - S i)%nat = Some b.
Proof.
  unfold calculate. intros Hc Hi. destruct (BigInt_hex _) as [max|]; [|done].
  destruct (map_result (bucket_point max) _) as [bps|] eqn:Eb; [|done].
  destruct (map_result (peer_point _ _) _) as [pts|]; [|done]. simplify_eq. cbn. split_and!.
  - apply map_result_Ok, Forall2_length in Eb. by rewrite <- Eb, List.length_rev.
  - unfold bucket_label. cbn. by rewrite Hi.
  - pose proof (lookup_lt_Some _ _ _ Hi). rewrite rev_alt.
    change (rev_append (l_buckets l) []) with (reverse (l_buckets l)).
    rewrite reverse_lookup by lia. by replace (length _ - S (length _ - S i))%nat with i by lia.
Qed.

(** A click on a point makes its peer the active one of the store. *)
Lemma click_selects_peer width l s p pt :
  l_peers l = peers s -> NoDup (peerId <$> peers s) -> p ∈ peers s -> pt_peerId pt = peerId p ->
  exists a, line_step width l (LSelect pt) = Ok (l, [a]) /\ activePeer (networkDhtReducer s a) = Some p.
Proof.
  intros Hl Hnd Hp Hid. eexists. split; [done|]. cbn. rewrite Hl, Hid.
  apply (find_by_key peerId); [done..|by apply String.eqb_eq|]. intros q Hq. by apply String.eqb_eq.
Qed.

(** ** Two buckets *)

Definition sample_peer (k d : string) : Peer := mkPeer k k 0 [] "" "Connected" d "" (Zeros 0) "ff" 0.

Definition sample_line : Line :=
  mkLine None [] [] false [mkBucketInfo 1 20 "ff"; mkBucketInfo 1 20 "0f"] "a" [sample_peer "a" "00"; sample_peer "b" "80"] 216.

Lemma peers_on_line_witness :
  exists l', calculate 216 sample_line = Ok l' /\
    Forall2 (placed 216 (value "ff") "a") (l_peers sample_line) (points l') /\
    Forall2 (fun b o => exists q, o = Some q /\
      (q == inject_Z (value (b_maxHex b)) / inject_Z (value "ff") * 100)%Q /\ (0 <= q <= 100)%Q)
      (rev (l_buckets sample_line)) (bucketPoints l').
Proof.
  apply (peers_on_line 1 216 sample_line); [done| | |reflexivity|lia].
  - repeat (constructor; [split; [done|]; repeat (constructor; [set_solver|]); constructor|]). constructor.
  - repeat (constructor; [split; [split; [done|]; repeat (constructor; [set_solver|]); constructor|
      exists (mkBucketInfo 1 20 "ff"); split; [set_solver|vm_compute; discriminate]]|]). constructor.
Defined.

End DhtLine.
