(* ===== verification/Sentry.v ===== *)
(** * Reports of the web node

    [src/frontend/src/app/core/services/sentry.service.ts]: what is reported of the
    synchronisation of the web node and of the blocks it produces. The service
    remembers what it has reported; a report is a value, and the one that is sent
    by [setTimeout] is kept until it is due. The fingerprint of a report is random
    and left out.

    Times of the node are in nanoseconds. *)

From Stdlib Require Import Ascii QArith.
From stdpp Require Import base list strings gmap.
From S2P Require Import Prelude SharedLib DateHelper NodesOverview WonSlots.
Open Scope Z_scope.

Module Sentry.
Import DateHelper.
Import NodesOverview.

(** ** Objects *)

(** An object with its keys in the order of [Object.keys]; everything else,
    arrays and [null] included, is an atom. *)
Inductive Json (A : Type) :=
| Atom (a : A)
| Obj (l : list (string * Json A)).
Arguments Atom {A} a.
Arguments Obj {A} l.

Definition prefixed (prefix key : string) : string :=
  if truthy_str prefix then prefix +:+ "." +:+ key else key.

(** [flattenObject(obj, prefix)] *)
Fixpoint flatten {A} (v : Json A) (prefix : string) : gmap string A :=
  match v with
  | Atom _ => ∅
  | Obj l =>
    (fix go (acc : gmap string A) (l : list (string * Json A)) : gmap string A :=
       match l with
       | [] => acc
       | (key, v) :: l' =>
         go match v with
            | Obj _ => flatten v (prefixed prefix key) ∪ acc
            | Atom a => <[prefixed prefix key := a]> acc
            end l'
       end) ∅ l
  end.

Definition flattenObject {A} (obj : list (string * Json A)) : gmap string A := flatten (Obj obj) "".

(** ** The service *)

Section Service.
Context {A : Type}.

(** The durations of the steps, [None] where the node has none. *)
Inductive Context :=
| NoContext
| LedgerContext (fetch : list (option Z * option Z))
| BlocksContext (bestTip root : Z)
| AttemptContext (fields : gmap string A)
| HeartbeatContext (payload field scalar : string).

Record Report := mkReport {
  text : string;
  subType : string;
  r_publicKey : string;
  duration : option Q;               (* [None] where it is not a number or absent *)
  context : Context
}.

Record Service := mkService {
  ledgerIsSynced : bool;
  blockIsSynced : bool;
  ledgerSyncedTime : option Z;
  blockSyncedTime : option Z;
  scheduled : list Report            (* the reports that wait for [setTimeout] *)
}.

Definition initialService : Service := mkService false false None None [].

(** [Math.round(a / b)] for a positive [b]. *)
Definition round_div (a b : Z) : Z := floor_div (2 * a + b) (2 * b).

(** [getElapsedTime] of a number that may not be one. *)
Definition elapsed_text (t : option Z) : string :=
  match t with Some n => getElapsedTime n | None => "NaNm NaNs" end.

Definition pair_of (s : SnarkedStep) : option Z * option Z :=
  (fetchHashesDuration s, fetchAccountsDuration s).

(** A time that is [null] counts as zero. *)
Definition num (t : option Z) : Z := default 0 t.

Definition updateLedgerSyncStatus (s : Service) (l : Ledgers) (key : string) : Service * list Report :=
  if ledgerIsSynced s then (s, [])
  else if bool_decide (st_state (rootStaged l) = SUCCESS)
  then
    let st := staged (rootStaged l) in
    let syncedIn := round_div (num (reconstructEnd st) - num (fetchHashesStart (snarked (stakingEpoch l))))
                      1000000000 in
    (mkService true (blockIsSynced s) (Some syncedIn) (blockSyncedTime s) (scheduled s),
     [mkReport ("Ledger synced in " +:+ getElapsedTime syncedIn) "sync.ledger" key (Some (inject_Z syncedIn))
        (LedgerContext [pair_of (snarked (stakingEpoch l)); pair_of (snarked (nextEpoch l));
                        pair_of (snarked (rootSnarked l)); (fetchPartsDuration st, reconstructDuration st)])])
  else (s, []).

(** The service after the call, and the reports or the exception of the call. *)
Definition updateBlockSyncStatus (now : Z) (s : Service) (blocks : list Block) (startTime : Z) (key : string)
    : Service * result (list Report) :=
  if blockIsSynced s then (s, Ok [])
  else
    match blocks with
    | [] => (s, Ok [])
    | _ :: rest =>
      if forallb (fun b => bool_decide (status b = APPLIED)) blocks
      then
        match rest, last rest with
        | best :: _, Some root =>
          let synced := round_div (now - startTime) 1000 in
          let total := (fun t => t + synced) <$> ledgerSyncedTime s in
          (mkService (ledgerIsSynced s) true (ledgerSyncedTime s) (Some synced)
             (scheduled s ++ [mkReport ("Web Node Synced in " +:+ elapsed_text total) "sync.total" key
                                (inject_Z <$> total) NoContext]),
           Ok [mkReport ("Last 290 blocks synced in " +:+ getElapsedTime synced) "sync.block" key
                 (Some (inject_Z synced)) (BlocksContext (b_height best) (b_height root))])
        | _, _ =>
          (mkService (ledgerIsSynced s) true (ledgerSyncedTime s) (blockSyncedTime s) (scheduled s),
           Throw "Cannot read properties of undefined (reading 'height')")
        end
      else (s, Ok [])
    end.

(** [x.toFixed(1)] for a number of milliseconds shown in seconds. *)
Definition toFixed1 (ms : Z) : string :=
  let t := floor_div (ms + 50) 100 in show (floor_div t 10) +:+ "." +:+ show (t mod 10).

Definition updatePeersConnected (ms : Z) (key : string) : Report :=
  mkReport ("Web Node connected in " +:+ toFixed1 ms +:+ "s") "sync.peers" key
    (Some (inject_Z ms / 1000)%Q) NoContext.

Definition updateProducedBlock (st : string) (height : option Z) (t : WonSlots.RawTimes)
    (attempt : list (string * Json A)) (key : string) : Report :=
  let total := num (WonSlots.elapsed (WonSlots.staged_ledger_diff_create_start t)
                      (WonSlots.staged_ledger_diff_create_end t)) +
               num (WonSlots.elapsed (WonSlots.staged_ledger_diff_create_end t) (WonSlots.r_produced t)) +
               num (WonSlots.elapsed (WonSlots.proof_create_start t) (WonSlots.proof_create_end t)) in
  mkReport ("Block Production Finished (" +:+ st +:+ ") - " +:+
            match height with Some h => show h | None => "undefined" end)
    "block.production" key (Some (inject_Z total / 1000000000)%Q) (AttemptContext (flattenObject attempt)).

Definition updateHeartbeat (payload field scalar key : string) : Report :=
  mkReport "Heartbeat" "heartbeat" key None (HeartbeatContext payload field scalar).

Inductive Call :=
| Ledger_ (l : Ledgers)
| Blocks_ (now : Z) (blocks : list Block) (startTime : Z)
| Due.                               (* a scheduled report is sent *)

Definition call (key : string) (s : Service) (c : Call) : Service * list Report :=
  match c with
  | Ledger_ l => updateLedgerSyncStatus s l key
  | Blocks_ now blocks startTime =>
    let '(s', r) := updateBlockSyncStatus now s blocks startTime key in
    (s', match r with Ok out => out | Throw _ => [] end)
  | Due =>
    match scheduled s with
    | r :: later =>
      (mkService (ledgerIsSynced s) (blockIsSynced s) (ledgerSyncedTime s) (blockSyncedTime s) later, [r])
    | [] => (s, [])
    end
  end.

Fixpoint calls (key : string) (s : Service) (cs : list Call) : Service * list Report :=
  match cs with
  | [] => (s, [])
  | c :: cs' =>
    let '(s', out) := call key s c in
    let '(s'', out') := calls key s' cs' in (s'', out ++ out')
  end.
End Service.
Arguments Context : clear implicits.
Arguments Report : clear implicits.
Arguments Service : clear implicits.

(** ** What the flattened object holds *)

Section Flatten.
Context {A : Type}.
Implicit Types (v : Json A) (path : list string).

(** The value [a] is found in [v] under the keys of [path]. *)
Inductive leaf : Json A -> list string -> A -> Prop :=
| leaf_atom a : leaf (Atom a) [] a
| leaf_obj l k v path a : (k, v) ∈ l -> leaf v path a -> leaf (Obj l) (k :: path) a.

Fixpoint dotless (s : string) : bool :=
  match s with
  | EmptyString => true
  | String c s' => negb (Ascii.eqb c "."%char) && dotless s'
  end.

Definition good_key (k : string) : Prop := truthy_str k = true /\ dotless k = true.

(** Keys that are distinct, not empty and without a dot. *)
Inductive well_formed : Json A -> Prop :=
| wf_atom a : well_formed (Atom a)
| wf_obj l : NoDup l.*1 -> Forall good_key l.*1 -> Forall (fun kv => well_formed kv.2) l -> well_formed (Obj l).

(** The key under which a path is stored. *)
Definition join (prefix : string) (path : list string) : string := fold_left prefixed path prefix.

Section Induction.
Context (P : Json A -> Prop) (Hatom : forall a, P (Atom a))
        (Hobj : forall l, Forall (fun kv => P kv.2) l -> P (Obj l)).

Fixpoint json_ind v : P v :=
  match v with
  | Atom a => Hatom a
  | Obj l =>
    Hobj l ((fix go (l : list (string * Json A)) : Forall (fun kv => P kv.2) l :=
               match l with
               | [] => Forall_nil_2 _
               | (k, w) :: l' => Forall_cons_2 _ (k, w) l' (json_ind w) (go l')
               end) l)
  end.
End Induction.

Fixpoint leaves v : list (list string * A) :=
  match v with
  | Atom a => [([], a)]
  | Obj l =>
    (fix go (l : list (string * Json A)) : list (list string * A) :=
       match l with
       | [] => []
       | (k, w) :: l' => ((fun x => (k :: x.1, x.2)) <$> leaves w) ++ go l'
       end) l
  end.

Lemma leaves_cons k w l :
  leaves (Obj ((k, w) :: l)) = ((fun x => (k :: x.1, x.2)) <$> leaves w) ++ leaves (Obj l).
Proof. done. Qed.

Lemma elem_of_leaves v path a : (path, a) ∈ leaves v <-> leaf v path a.
Proof.
  revert path a. induction v as [b|l IH] using json_ind; intros path a.
  - cbn. rewrite list_elem_of_singleton. split; [intros [= -> ->]; constructor|by inversion 1].
  - split.
    + induction IH as [|[k w] l Hw IHl IH]; [by intros ?%elem_of_nil|]. rewrite leaves_cons, elem_of_app.
      intros [(x & [= -> ->] & Hx)%list_elem_of_fmap|Hl].
      * econstructor; [by left|]. apply Hw. by destruct x.
      * apply IH in Hl. inversion Hl; subst. econstructor; [by right|done].
    + inversion 1 as [|? k w path' ? Hin Hl]; subst.
      induction IH as [|[k' w'] l Hw IHl IH]; [by apply elem_of_nil in Hin|]. rewrite leaves_cons, elem_of_app.
      apply elem_of_cons in Hin as [[= -> ->]|Hin].
      * left. apply list_elem_of_fmap. exists (path', a). split; [done|]. by apply Hw.
      * right. apply IH; [|done]. by econstructor.
Qed.

(** Later values replace earlier ones. *)
Definition assign (m : gmap string A) (l : list (string * A)) : gmap string A :=
  fold_left (fun m kv => <[kv.1 := kv.2]> m) l m.

Lemma assign_union l m : assign ∅ l ∪ m = assign m l.
Proof.
  induction l as [|[k a] l IH] using rev_ind; [apply map_empty_union|].
  unfold assign in *. rewrite !fold_left_app. cbn. by rewrite <- insert_union_l, IH.
Qed.

Lemma assign_lookup l m k a :
  NoDup l.*1 -> (forall x, x ∈ l.*1 -> m !! x = None) ->
  assign m l !! k = Some a <-> (k, a) ∈ l \/ m !! k = Some a.
Proof.
  revert m. induction l as [|[x b] l IH]; intros m Hd Hm; cbn.
  - rewrite elem_of_nil. naive_solver.
  - inversion Hd as [|? ? Hx Hd']; subst. unfold assign in IH. rewrite IH; [|done|].
    + rewrite elem_of_cons, lookup_insert_Some. split.
      * intros [H|[[-> ->]|[_ H]]]; auto.
      * intros [[[= -> ->]|H]|H]; auto. right. right. split; [|done]. intros ->.
        rewrite Hm in H by (by left). done.
    + intros y Hy. rewrite lookup_insert_None. split; [apply Hm; by right|]. by intros ->.
Qed.

Definition keyed (p : string) (l : list (list string * A)) : list (string * A) :=
  (fun x => (join p x.1, x.2)) <$> l.

(** One value of an object, put under its key. *)
Definition put v (p : string) (acc : gmap string A) : gmap string A :=
  match v with Obj _ => flatten v p ∪ acc | Atom a => <[p := a]> acc end.

Lemma put_assign v p acc : put v p acc = assign acc (keyed p (leaves v)).
Proof.
  revert p acc. induction v as [a|l IH] using json_ind; intros p acc; [done|]. cbn [put].
  rewrite <- assign_union. f_equal. cbn [flatten].
  generalize (∅ : gmap string A) as m. induction IH as [|[k w] l Hw _ IH]; intros m; [done|].
  rewrite leaves_cons. unfold keyed. rewrite fmap_app, <- list_fmap_compose.
  unfold assign. rewrite fold_left_app. etrans; [apply IH|].
  unfold assign. f_equal. exact (Hw (prefixed p k) m).
Qed.

Lemma flatten_assign l p : flatten (Obj l) p = assign ∅ (keyed p (leaves (Obj l))).
Proof. rewrite <- put_assign. cbn [put]. by rewrite map_union_empty. Qed.

(** ** Distinct paths have distinct keys *)

Definition dots (path : list string) : string := fold_right (fun k s => "." +:+ k +:+ s) "" path.

Lemma join_cons p k path : join p (k :: path) = join (prefixed p k) path.
Proof. done. Qed.

Lemma join_dots p path :
  truthy_str p = true -> Forall good_key path -> join p path = p +:+ dots path.
Proof.
  intros Hp Hg. revert p Hp. induction Hg as [|k path [Hk _] _ IH]; intros p Hp.
  - symmetry. apply string_app_nil_r.
  - rewrite join_cons. unfold prefixed. rewrite Hp, IH by (by destruct p). cbn. by rewrite !string_app_assoc.
Qed.

Lemma dotless_prefix k1 k2 r1 r2 :
  dotless k1 = true -> dotless k2 = true -> (r1 = "" \/ exists t, r1 = "." +:+ t) ->
  (r2 = "" \/ exists t, r2 = "." +:+ t) -> k1 +:+ r1 = k2 +:+ r2 -> k1 = k2 /\ r1 = r2.
Proof.
  revert k2. induction k1 as [|c1 k1 IH]; intros [|c2 k2] H1 H2 Hr1 Hr2 E; cbn in *.
  - done.
  - destruct Hr1 as [->|[t ->]]; [done|]. injection E as <- _. done.
  - destruct Hr2 as [->|[t ->]]; [done|]. injection E as -> _. done.
  - apply andb_true_iff in H1 as [_ H1], H2 as [_ H2]. injection E as -> E.
    by destruct (IH k2 H1 H2 Hr1 Hr2 E) as [-> ->].
Qed.

Lemma dots_shape path : dots path = "" \/ exists t, dots path = "." +:+ t.
Proof. destruct path; [by left|]. right. by eexists. Qed.

Lemma dots_inj p q : Forall good_key p -> Forall good_key q -> dots p = dots q -> p = q.
Proof.
  intros Hp. revert q. induction Hp as [|k p [_ Hk] _ IH]; intros [|k' q] Hq E; try done.
  inversion Hq as [|? ? [_ Hk'] Hq']; subst. injection E as E.
  destruct (dotless_prefix _ _ _ _ Hk Hk' (dots_shape p) (dots_shape q) E) as [-> Ed].
  f_equal. by apply IH.
Qed.

Lemma join_inj p q : Forall good_key p -> Forall good_key q -> join "" p = join "" q -> p = q.
Proof.
  intros Hp Hq. destruct Hp as [|k p [Hk Hk'] Hp], Hq as [|l q [Hl Hl'] Hq]; [done|..];
    rewrite ?join_cons; cbn [prefixed truthy_str].
  - rewrite (join_dots l) by done. destruct l; [done|]. by intros [=].
  - rewrite (join_dots k) by done. destruct k; [done|]. by intros [=].
  - rewrite !join_dots by done. intros E. destruct (dotless_prefix _ _ _ _ Hk' Hl' (dots_shape p) (dots_shape q) E) as [-> Ed].
    f_equal. by apply dots_inj.
Qed.

Lemma leaf_keys v path a : well_formed v -> leaf v path a -> Forall good_key path.
Proof.
  intros Hw Hl. induction Hl as [|l k v path a Hin Hl IH]; [constructor|].
  inversion Hw as [|? _ Hk Hv]; subst. constructor.
  - rewrite Forall_forall in Hk. apply Hk, list_elem_of_fmap. by exists (k, v).
  - rewrite Forall_forall in Hv. by apply IH, (Hv (k, v)).
Qed.

Lemma leaves_distinct v : well_formed v -> NoDup (leaves v).*1.
Proof.
  induction v as [a|l IH] using json_ind; intros Hw; [apply NoDup_singleton|].
  inversion Hw as [|? Hd Hk Hv]; subst. clear Hw Hk.
  induction IH as [|[k w] l Hl _ IH]; [apply NoDup_nil_2|].
  inversion Hd as [|? ? Hnin Hd']; inversion Hv as [|? ? Hw Hv']; subst.
  rewrite leaves_cons, fmap_app, <- list_fmap_compose. apply NoDup_app. split_and!.
  - change (NoDup ((cons k ∘ fst) <$> leaves w)). rewrite list_fmap_compose.
    apply NoDup_fmap_2; [intros x y E; by injection E|]. by apply Hl.
  - intros path ([x b] & -> & _)%list_elem_of_fmap ([y c] & Hy & Hin)%list_elem_of_fmap. cbn in Hy. subst y.
    apply elem_of_leaves in Hin. inversion Hin; subst. apply Hnin, list_elem_of_fmap.
    by eexists (k, _).
  - by apply IH.
Qed.

(** C27: The context of a report holds every value of the object, nested ones
    under the path of their keys, and nothing else; no value is lost or replaced when
    the keys are distinct and contain no dot. *)
Theorem flatten_exact (obj : list (string * Json A)) key a :
  well_formed (Obj obj) ->
  flattenObject obj !! key = Some a <-> exists path, leaf (Obj obj) path a /\ key = join "" path.
Proof.
  intros Hw. unfold flattenObject. rewrite flatten_assign, assign_lookup.
  - rewrite lookup_empty. unfold keyed. rewrite list_elem_of_fmap. split.
    + intros [([path b] & [= -> ->] & Hin)|?]; [|done]. exists path. split; [|done]. by apply elem_of_leaves.
    + intros (path & Hl & ->). left. exists (path, a). split; [done|]. by apply elem_of_leaves.
  - unfold keyed. rewrite <- list_fmap_compose.
    change (NoDup ((join "" ∘ fst) <$> leaves (Obj obj))). rewrite list_fmap_compose.
    apply NoDup_fmap_2_strong; [|by apply leaves_distinct].
    intros p q ([p' b] & -> & Hp)%list_elem_of_fmap ([q' c] & -> & Hq)%list_elem_of_fmap.
    apply elem_of_leaves in Hp, Hq. apply join_inj; by eapply leaf_keys.
  - intros x _. apply lookup_empty.
Qed.
End Flatten.

(** ** Every report once *)

Section Once.
Context {A : Type} (key : string).
Implicit Types (s : Service A) (r : Report A).

Definition of_type (t : string) r : bool := String.eqb (subType r) t.

Definition only_totals s : Prop := Forall (fun r => subType r = "sync.total") (scheduled s).

Definition allowed (t : string) s : nat :=
  if String.eqb t "sync.ledger" then if ledgerIsSynced s then 0 else 1
  else if String.eqb t "sync.block" then if blockIsSynced s then 0 else 1
  else length (scheduled s) + if blockIsSynced s then 0 else 1.

Definition sync_types : list string := ["sync.ledger"; "sync.block"; "sync.total"].

Lemma call_allowed c s s' out t :
  t ∈ sync_types -> only_totals s -> call key s c = (s', out) ->
  only_totals s' /\ (count_if (of_type t) out + allowed t s' <= allowed t s)%nat.
Proof.
  intros Ht Hs Hc. unfold sync_types in Ht. rewrite !elem_of_cons, elem_of_nil in Ht.
  destruct c as [l|now bs st|]; cbn in Hc.
  - unfold updateLedgerSyncStatus in Hc. repeat case_match; simplify_eq; (split; [done|]);
      destruct Ht as [->|[->|[->|[]]]]; cbn; rewrite ?H; lia.
  - unfold updateBlockSyncStatus in Hc. repeat case_match; simplify_eq; cbn in *; simplify_eq;
      (split; [try done; unfold only_totals; cbn; apply Forall_app; by repeat constructor|]);
      destruct Ht as [->|[->|[->|[]]]]; cbn; rewrite ?length_app; cbn; repeat case_match; simplify_eq; lia.
  - unfold only_totals in *. destruct (scheduled s) as [|r later] eqn:E; simplify_eq;
      [rewrite E; split; [done|cbn; lia]|].
    inversion Hs as [|? ? Hr Hl]; subst. split; [done|]. rewrite count_if_cons. unfold of_type, allowed. rewrite E.
    destruct Ht as [->|[->|[->|[]]]]; rewrite Hr; cbn; lia.
Qed.

(** The synchronisation of the ledger, that of the blocks and their sum are each
    reported at most once, however often the service is called. *)
Lemma synced_reported_once cs t :
  t ∈ sync_types -> (count_if (of_type t) (snd (calls key initialService cs)) <= 1)%nat.
Proof.
  intros Ht. enough (forall s, only_totals s -> (count_if (of_type t) (snd (calls key s cs)) <= allowed t s)%nat) as H.
  { etrans; [apply H; constructor|]. unfold allowed. cbn. repeat case_match; lia. }
  induction cs as [|c cs IH]; intros s Hs; cbn [calls]; [cbn; lia|]. destruct (call key s c) as [s' out] eqn:Hc.
  destruct (call_allowed c s s' out t Ht Hs Hc) as [Hs' Hle]. specialize (IH s' Hs').
  destruct (calls key s' cs) as [s'' out']. cbn [snd] in *. rewrite count_if_app. lia.
Qed.

(** A chain of one block is taken as synced, the call fails on it and nothing is
    ever reported of the blocks. *)
Lemma single_block_lost now s b startTime bs now' startTime' :
  blockIsSynced s = false -> status b = APPLIED ->
  let '(s', r) := updateBlockSyncStatus now s [b] startTime key in
  r = Throw "Cannot read properties of undefined (reading 'height')" /\
  updateBlockSyncStatus now' s' bs startTime' key = (s', Ok []).
Proof. intros Hs Hb. unfold updateBlockSyncStatus. rewrite Hs. cbn. by rewrite Hb. Qed.

(** Blocks that are synced before the ledger is reported give a total that is not
    a number. *)
Lemma total_not_a_number now s blocks startTime s' out :
  ledgerSyncedTime s = None -> scheduled s = [] ->
  updateBlockSyncStatus now s blocks startTime key = (s', Ok out) -> out <> [] ->
  exists r, scheduled s' = [r] /\ text r = "Web Node Synced in NaNm NaNs" /\ duration r = None.
Proof.
  intros Hl Hs. unfold updateBlockSyncStatus. rewrite Hl, Hs. intros Hu Ho.
  repeat case_match; simplify_eq; try done. by eexists.
Qed.
End Once.

(** ** A report of an attempt *)

Definition sample_attempt : list (string * Json string) :=
  [("status", Atom "Canonical"); ("won_slot", Obj [("global_slot", Atom "7"); ("epoch", Atom "1")])].

Lemma sample_well_formed : well_formed (Obj sample_attempt).
Proof.
  constructor; [by apply (bool_decide_unpack _)|by repeat constructor|].
  repeat constructor; cbn; try by apply (bool_decide_unpack _).
Qed.

Lemma flatten_exact_witness :
  flattenObject sample_attempt !! "won_slot.epoch" = Some "1" <->
  exists path, leaf (Obj sample_attempt) path "1" /\ "won_slot.epoch" = join "" path.
Proof. apply (flatten_exact sample_attempt). exact sample_well_formed. Defined.

End Sentry.
