(* ===== verification/DashboardPage.v ===== *)
(** * The page of the dashboard

    [src/frontend/src/app/features/dashboard/dashboard.component.ts]: the progress
    bar of a node that starts, in three parts (peers, ledgers, blocks), the line
    that says what it does, and the timer that polls it. *)

From Stdlib Require Import QArith Lqa.
From stdpp Require Import base list strings.
From S2P Require Import Prelude SharedLib AppStore NodesOverview Dashboard DashboardLedger DashboardBlocks.
Open Scope Z_scope.

Module DashboardPage.
Import NodesOverview Dashboard DashboardLedger.
Import DashboardBlocks(is_fetched, is_applied).
#[local] Existing Instance App.NodeStatus_eq_dec.

Record Page := mkPage {
  updateAction : string;
  connectedProgress : Z;
  ledgerProgress : Percent;
  blockSyncProgress : Q;
  pg_connected : bool;
  timer : option Z;                  (* the interval of the timer that runs *)
  lastStatus : option App.NodeStatus;
  node_seen : bool;                  (* the first emissions are skipped *)
  stats_seen : bool
}.

Definition set_bar (p : Page) (text : string) (c : Z) (l : Percent) (b : Q) : Page :=
  mkPage text c l b (pg_connected p) (timer p) (lastStatus p) (node_seen p) (stats_seen p).

(** [resetTimer()] *)
Definition interval (st : option App.NodeStatus) : Z :=
  if bool_decide (st = Some App.SYNCED) || bool_decide (st = Some App.OFFLINE) then 5000 else 1000.

Definition resetTimer (p : Page) : Page :=
  mkPage (updateAction p) (connectedProgress p) (ledgerProgress p) (blockSyncProgress p) (pg_connected p)
    (Some (interval (lastStatus p))) (lastStatus p) (node_seen p) (stats_seen p).

Definition connecting_text (n : nat) : string :=
  "Connecting to " +:+ show (Z.of_nat n) +:+ " peer" +:+ (if (n =? 1)%nat then "" else "s").

Definition listenToPeersChanges (p : Page) (stats : PeersStats) : Page :=
  let p1 :=
    if (pg_connected p && (connected stats =? 0)%nat) || negb (pg_connected p)
    then
      let text := if (0 <? connected stats)%nat then "Downloading Staking Epoch Ledger"
                  else if (0 <? connecting stats)%nat then connecting_text (connecting stats)
                  else "Looking for peers" in
      if (connected stats =? 0)%nat then set_bar p text 0 (Finite 0) 0
      else set_bar p text 33 (ledgerProgress p) (blockSyncProgress p)
    else p in
  mkPage (updateAction p1) (connectedProgress p1) (ledgerProgress p1) (blockSyncProgress p1)
    (0 <? connected stats)%nat (timer p1) (lastStatus p1) (node_seen p1) (stats_seen p1).

(** The line after the ledgers, in the order in which they are fetched. *)
Definition ledger_text (l : Ledgers) (before : string) : string :=
  let t := if bool_decide (state (stakingEpoch l) = SUCCESS) then "Downloading Next Epoch Ledger" else before in
  let t := if bool_decide (state (nextEpoch l) = SUCCESS) then "Downloading Root Snarked Ledger" else t in
  let t := if bool_decide (state (rootSnarked l) = SUCCESS) then "Downloading Root Staged Ledger" else t in
  if bool_decide (st_state (rootStaged l) = SUCCESS) then "Fetching Blocks" else t.

Definition ledgers_total (l : Ledgers) (rpc : RpcStats) : Percent :=
  total (done_or (state (stakingEpoch l)) (percentage (stakingLedger rpc)))
        (done_or (state (nextEpoch l)) (percentage (nextLedger rpc)))
        (done_or (state (rootSnarked l)) (percentage (snarkedRootLedger rpc)))
        (done_or (st_state (rootStaged l)) (percentage (stagedRootLedger rpc))).

(** [Math.round(n * 100 / 291)] *)
Definition of_291 (n : nat) : Z := floor_div (2 * (Z.of_nat n * 100) + 291) (2 * 291).

Definition scale (f : Q) (p : Percent) : Percent :=
  match p with Finite q => Finite (q * f) | Infinite => Infinite end.

Definition is_100 (p : Percent) : bool :=
  match p with Finite q => Qeq_bool q 100 | Infinite => false end.

Definition listenToNodesChanges (p : Page) (ns : list Node) (rpc : RpcStats) : result Page :=
  match ns with
  | [] => Ok (set_bar p (updateAction p) (connectedProgress p) (Finite 0) 0)
  | n :: _ =>
    match ledgers n with
    | None => Throw "Cannot read properties of undefined (reading 'stakingEpoch')"
    | Some l =>
      let text := ledger_text l (updateAction p) in
      let all := ledgers_total l rpc in
      if is_100 all
      then
        let bs := tail (blocks n) in
        let fetched := of_291 (count_if is_fetched bs) in
        let applied := of_291 (count_if is_applied bs) in
        Ok (set_bar p
              (if fetched <? 100 then "Fetching Blocks (" +:+ show fetched +:+ "%)"
               else if applied <? 100 then "Applying Blocks (" +:+ show applied +:+ "%)" else "")
              (connectedProgress p) (scale (33 # 100) all) (inject_Z applied * (34 # 100)))
      else Ok (set_bar p text (connectedProgress p) (scale (33 # 100) all) 0)
    end
  end.

Inductive Event :=
| DNode                              (* another node becomes active *)
| DDetails (st : App.NodeStatus)
| DTick
| DPeers (stats : PeersStats)
| DNodes (ns : list Node) (rpc : RpcStats)
| DDestroy.

Definition step (p : Page) (ev : Event) : result (Page * list Action) :=
  match ev with
  | DNode =>
    Ok (mkPage (updateAction p) (connectedProgress p) (ledgerProgress p) (blockSyncProgress p) (pg_connected p)
          (timer p) (lastStatus p) true (stats_seen p),
        if node_seen p then [GetData true] else [])
  | DDetails st =>
    if bool_decide (lastStatus p = Some st) then Ok (p, [])
    else Ok (resetTimer (mkPage (updateAction p) (connectedProgress p) (ledgerProgress p) (blockSyncProgress p)
                           (pg_connected p) (timer p) (Some st) (node_seen p) (stats_seen p)), [])
  | DTick => Ok (p, match timer p with Some _ => [GetData false] | None => [] end)
  | DPeers stats =>
    if stats_seen p then Ok (listenToPeersChanges p stats, [])
    else Ok (mkPage (updateAction p) (connectedProgress p) (ledgerProgress p) (blockSyncProgress p)
               (pg_connected p) (timer p) (lastStatus p) (node_seen p) true, [])
  | DNodes ns rpc =>
    match listenToNodesChanges p ns rpc with Ok p' => Ok (p', []) | Throw e => Throw e end
  | DDestroy =>
    Ok (mkPage (updateAction p) (connectedProgress p) (ledgerProgress p) (blockSyncProgress p) (pg_connected p)
          None (lastStatus p) (node_seen p) (stats_seen p), [])
  end.

(** The page after [ngOnInit], for the status the store holds. *)
Definition init (st : App.NodeStatus) : Page * list Action :=
  (mkPage "Connecting to peers" 0 (Finite 0) 0 false (Some (interval (Some st))) (Some st) false false, [Init]).

Fixpoint steps (p : Page) (evs : list Event) : result Page :=
  match evs with
  | [] => Ok p
  | ev :: evs' => match step p ev with Ok (p', _) => steps p' evs' | Throw e => Throw e end
  end.

(** ** The bar *)

(** What a node sends: no more than there is of a ledger, and at most the best tip
    with the 291 blocks of the chain. *)
Definition sound (ev : Event) : Prop :=
  match ev with
  | DNodes ns rpc => bounded_stats rpc /\ Forall (fun n => (length (blocks n) <= 292)%nat) ns
  | _ => True
  end.

(** Three parts of 33, 33 and 34 per cent, the last of which begins when the
    second is full. *)
Definition bar_ok (p : Page) : Prop :=
  (connectedProgress p = 0 \/ connectedProgress p = 33) /\
  (0 <= blockSyncProgress p <= 34)%Q /\
  exists q, ledgerProgress p = Finite q /\ (0 <= q <= 33)%Q /\ (blockSyncProgress p == 0 \/ q == 33)%Q.

Lemma of_291_range n : (n <= 291)%nat -> 0 <= of_291 n <= 100.
Proof.
  intros Hn. unfold of_291, floor_div. split; [apply Z.div_pos; lia|].
  apply Z.lt_succ_r, Z.div_lt_upper_bound; lia.
Qed.

Lemma ledgers_total_range l rpc : bounded_stats rpc -> in_range (ledgers_total l rpc).
Proof. intros (H1 & H2 & H3 & H4). apply total_range; apply done_or_range, percentage_range; done. Qed.

Lemma applied_at_most bs : (length bs <= 292)%nat -> (count_if is_applied (tail bs) <= 291)%nat.
Proof. intros H. etrans; [apply count_if_le|]. destruct bs; cbn in *; lia. Qed.

Lemma bar_empty p text c :
  (c = 0 \/ c = 33) -> bar_ok (set_bar p text c (Finite 0) 0).
Proof.
  intros Hc. split; [done|]. split; [cbn; lra|]. exists 0%Q. split_and!; [done|lra|lra|]. left. reflexivity.
Qed.

Lemma nodes_bar p ns rpc p' :
  bar_ok p -> sound (DNodes ns rpc) -> listenToNodesChanges p ns rpc = Ok p' -> bar_ok p'.
Proof.
  intros (Hc & _) [Hb Hn] H. unfold listenToNodesChanges in H. destruct ns as [|n ns]; [simplify_eq; by apply bar_empty|].
  inversion Hn as [|? ? Hlen _]; subst. destruct (ledgers n) as [l|]; [|done].
  destruct (ledgers_total_range l rpc Hb) as (q & Hq & Hr). rewrite Hq in H. cbn [is_100 scale] in H.
  destruct (Qeq_bool q 100) eqn:E; simplify_eq; (split; [done|]); cbn [set_bar blockSyncProgress ledgerProgress].
  - apply Qeq_bool_eq in E. destruct (of_291_range _ (applied_at_most _ Hlen)) as [H0 H1].
    rewrite Zle_Qle in H0, H1. split; [change (inject_Z 0) with 0%Q in *; change (inject_Z 100) with 100%Q in *; lra|].
    exists (q * (33 # 100))%Q. split_and!; [done|lra|lra|]. right. lra.
  - split; [lra|]. exists (q * (33 # 100))%Q. split_and!; [done|lra|lra|]. left. reflexivity.
Qed.

Lemma peers_bar p stats : bar_ok p -> bar_ok (listenToPeersChanges p stats).
Proof.
  intros (Hc & Hb & q & Hq & Hr & Ho). unfold listenToPeersChanges.
  destruct ((pg_connected p && _) || _); [|by split; [|split; [|exists q]]].
  destruct (connected stats =? 0)%nat; cbn zeta.
  - split; [by left|]. split; [cbn; lra|]. exists 0%Q. split_and!; [done|lra|lra|]. left. reflexivity.
  - split; [by right|]. split; [done|]. by exists q.
Qed.

Lemma step_bar p ev p' out : bar_ok p -> sound ev -> step p ev = Ok (p', out) -> bar_ok p'.
Proof.
  intros Hp Hs H. destruct ev; cbn in H.
  - by simplify_eq.
  - case_bool_decide; by simplify_eq.
  - by simplify_eq.
  - case_match; simplify_eq; [by apply peers_bar|done].
  - destruct (listenToNodesChanges _ _ _) as [p1|] eqn:E; simplify_eq. by eapply nodes_bar.
  - by simplify_eq.
Qed.

(** Whatever peers, ledgers and blocks the node reports, the three parts of
    the progress bar stay within their shares, so the bar between 0 and 100, and the
    part of the blocks begins only when the ledgers are complete. *)
Theorem progress_in_range st evs p :
  Forall sound evs -> steps (fst (init st)) evs = Ok p ->
  bar_ok p /\ exists q, ledgerProgress p = Finite q /\
    (0 <= inject_Z (connectedProgress p) + q + blockSyncProgress p <= 100)%Q.
Proof.
  intros Hs Hp. assert (bar_ok p) as Hok.
  { assert (bar_ok (fst (init st))) as H0 by (apply (bar_empty (fst (init st)) "Connecting to peers" 0); by left).
    revert H0 Hs Hp. generalize (fst (init st)) as p0. induction evs as [|ev evs IH]; intros p0 H0 Hs Hp; cbn in Hp.
    - by simplify_eq.
    - inversion Hs; subst. destruct (step p0 ev) as [[p1 out]|] eqn:E; [|done].
      eapply IH; [|done..]. by eapply step_bar. }
  split; [done|]. destruct Hok as (Hc & Hb & q & Hq & Hr & _). exists q. split; [done|].
  destruct Hc as [->| ->]; cbn; unfold inject_Z; lra.
Qed.

(** ** The timer *)

(** One timer runs until the page is left, at the pace of the last status. *)
Lemma timer_follows_status st evs p :
  Forall (fun ev => ev <> DDestroy) evs -> steps (fst (init st)) evs = Ok p ->
  timer p = Some (interval (lastStatus p)).
Proof.
  intros Hd. assert (timer (fst (init st)) = Some (interval (lastStatus (fst (init st))))) as H0 by done.
  revert H0. generalize (fst (init st)) as p0. induction Hd as [|ev evs Hev _ IH]; intros p0 H0 Hp; cbn in Hp.
  - by simplify_eq.
  - destruct (step p0 ev) as [[p1 out]|] eqn:E; [|done]. apply (IH p1); [|done].
    destruct ev; cbn in E; unfold listenToPeersChanges, listenToNodesChanges in E;
      repeat case_match; simplify_eq; done.
Qed.

(** With one block of the chain still to be applied the percentage is already 100
    and the line is empty. *)
Lemma last_block_rounded : of_291 290 = 100 /\ of_291 289 = 99.
Proof. done. Qed.

(** ** A node that downloads and applies *)

Definition peers_event : Event := DPeers (mkPeersStats 2 0 0).

Definition sample_events : list Event :=
  [peers_event; peers_event; DNodes [done_node] half_done].

Lemma progress_in_range_witness :
  exists p, steps (fst (init App.BOOTSTRAP)) sample_events = Ok p /\ bar_ok p /\
    exists q, ledgerProgress p = Finite q /\
      (0 <= inject_Z (connectedProgress p) + q + blockSyncProgress p <= 100)%Q.
Proof.
  destruct (steps (fst (init App.BOOTSTRAP)) sample_events) as [p|e] eqn:E; [|by vm_compute in E].
  exists p. split; [done|]. apply (progress_in_range App.BOOTSTRAP sample_events); [|done].
  repeat constructor; intros f e; cbn; intros [= <-] [= <-]; lia.
Defined.
End DashboardPage.
