(* ===== verification/OverviewPage.v ===== *)
(** * The page of the block production overview

    [features/block-production/overview] of [src/frontend/src/app]: the chart of
    the slots of an epoch ([slots]), the toolbar ([toolbar]), the side panel
    ([side-panel]), the details of a slot ([slot-details]) and the page
    ([block-production-overview.component.ts]), around the store and the colours of
    [BlockOverview].

    The rectangles of the chart are the elements d3 has bound to slots: they are
    addressed by their index, keep the slot they were last bound to, and binding
    another list to them changes those the two have in common. *)

From Stdlib Require Import QArith.
From stdpp Require Import base list strings.
From S2P Require Import Prelude SharedLib AppStore BlockOverview ScanStateChart.
Open Scope Z_scope.

Module OverviewPage.
Import BlockOverview.

Inductive Out :=
| Do (a : Action)
| GoSlot (epoch : option Z) (slot : Z)
| GoEpoch (epoch : option Z)
| OpenTab (url : string).

(** ** The chart *)

Record Rect := mkRect { datum : Slot; fill : string; outlined : bool }.

Record Chart := mkChart {
  rects : list Rect;
  c_slots : option (list Slot);
  c_epoch : option Epoch;
  c_active : option Slot;
  c_filters : Filters;
  width : Z;
  tooltip : option (Z * string);     (* the slot and the text that are shown *)
  hiding : nat;                      (* the timeouts that will hide it *)
  hide_known : bool                  (* the last of them is remembered *)
}.

Definition set_rects (c : Chart) (rs : list Rect) : Chart :=
  mkChart rs (c_slots c) (c_epoch c) (c_active c) (c_filters c) (width c) (tooltip c) (hiding c) (hide_known c).

(** [changeSlotsColors()] *)
Fixpoint bind_colors (fs : Filters) (rs : list Rect) (l : list Slot) : list Rect :=
  match rs, l with
  | r :: rs', s :: l' => mkRect s (getSlotColor s (Some fs)) (outlined r) :: bind_colors fs rs' l'
  | _, _ => rs
  end.

(** [initSlots()] *)
Definition initSlots (fs : Filters) (l : list Slot) : list Rect :=
  (fun s => mkRect s (getSlotColor s (Some fs)) false) <$> l.

(** The rectangles after [listenToEpochs] has got a list of slots. *)
Definition draw (fs : Filters) (rs : list Rect) (l : list Slot) : list Rect :=
  match rs, l with
  | [], _ => initSlots fs l
  | _, [] => []
  | _, _ => bind_colors fs rs l
  end.

Definition outline_if (f : Slot -> bool) (b : bool) (rs : list Rect) : list Rect :=
  (fun r => if f (datum r) then mkRect (datum r) (fill r) b else r) <$> rs.

(** [d.slot === this.activeSlot?.slot] *)
Definition is_active (a : option Slot) (s : Slot) : bool := bool_decide (Some (slot s) = slot <$> a).

Inductive ChartEvent :=
| SEpoch (e : option Epoch)
| SActive (s : option Slot)
| SFilters (f : Filters)
| SResize (w : Z)
| SClick (i : nat)
| SOver (i : nat)
| SOut (i : nat)
| SHide.

Definition outline_at (i : nat) (b : bool) (rs : list Rect) : list Rect :=
  match rs !! i with Some r => <[i := mkRect (datum r) (fill r) b]> rs | None => rs end.

Definition chart_step (c : Chart) (ev : ChartEvent) : Chart * list Out :=
  match ev with
  | SEpoch e =>
    (match e ≫= slots with
     | Some l =>
       mkChart (draw (c_filters c) (rects c) l) (Some l) e (c_active c) (c_filters c) (width c) (tooltip c)
         (hiding c) (hide_known c)
     | None =>
       mkChart (rects c) (c_slots c) e (c_active c) (c_filters c) (width c) (tooltip c) (hiding c) (hide_known c)
     end, [])
  | SActive s =>
    (mkChart (outline_if (is_active s) true (rects c)) (c_slots c) (c_epoch c) s (c_filters c) (width c)
       (tooltip c) (hiding c) (hide_known c), [])
  | SFilters f =>
    (mkChart match c_slots c with
             | Some (x :: l) => bind_colors f (rects c) (x :: l)
             | _ => rects c
             end (c_slots c) (c_epoch c) (c_active c) f (width c) (tooltip c) (hiding c) (hide_known c), [])
  | SResize w =>
    (mkChart (rects c) (c_slots c) (c_epoch c) (c_active c) (c_filters c) w (tooltip c) (hiding c)
       (hide_known c), [])
  | SClick i =>
    match rects c !! i with
    | Some r =>
      (set_rects c (outline_if (is_active (c_active c)) false (rects c)),
       [Do (SetActiveSlot (Some (slot (datum r)))); GoSlot (c_epoch c ≫= epochNumber) (slot (datum r))])
    | None => (c, [])
    end
  | SOver i =>
    match rects c !! i with
    | Some r =>
      (mkChart (outline_at i true (rects c)) (c_slots c) (c_epoch c) (c_active c) (c_filters c) (width c)
         (Some (globalSlot (datum r), getSlotText (datum r)))
         (if hide_known c then pred (hiding c) else hiding c) false, [])
    | None => (c, [])
    end
  | SOut i =>
    match rects c !! i with
    | Some r =>
      (mkChart (if is_active (c_active c) (datum r) then rects c else outline_at i false (rects c)) (c_slots c)
         (c_epoch c) (c_active c) (c_filters c) (width c) (tooltip c) (S (hiding c)) true, [])
    | None => (c, [])
    end
  | SHide =>
    (match hiding c with
     | 0%nat => c
     | S n => mkChart (rects c) (c_slots c) (c_epoch c) (c_active c) (c_filters c) (width c) None n
                (hide_known c && negb (n =? 0)%nat)
     end, [])
  end.

(** The corner of a rectangle. *)
Definition corner (c : Chart) (i : nat) : Z * Z :=
  (setX (slotsPerRow (width c)) (Z.of_nat i), setY (slotsPerRow (width c)) (Z.of_nat i)).

(** A box of the window, and the place of the tooltip of a slot. *)
Record Box := mkBox { b_left : Q; b_top : Q; b_width : Q; b_bottom : Q }.

Definition tooltip_place (node chart : Box) (tipWidth tipHeight chartWidth scrollY : Q) : Q * Q :=
  let below := (b_bottom node + scrollY + 12)%Q in
  (ScanStateChart.tooltip_left (b_left node) (b_width node) tipWidth (b_left chart) chartWidth,
   if Qle_bool (below + tipHeight) (b_bottom chart) then below else (b_top node - tipHeight - 12)%Q).

(** ** The toolbar *)

Record Toolbar := mkToolbar {
  t_filters : Filters; t_epoch : option Epoch; totals : option Totals; t_scale : Scale; dropdown : bool
}.

Inductive ToolbarEvent :=
| TFilters (f : Filters)
| TEpoch (e : option Epoch)
| TScale (sc : Scale)
| TChangeFilter (k : FilterKey) (v : bool)
| TChangeEpoch (n : option Z)
| TChangeScale (sc : Scale)
| TDropdown
| TDetach.

Definition toolbar_step (t : Toolbar) (ev : ToolbarEvent) : Toolbar * list Out :=
  match ev with
  | TFilters f => (mkToolbar f (t_epoch t) (totals t) (t_scale t) (dropdown t), [])
  | TEpoch e =>
    (if is_some (e ≫= slots)
     then mkToolbar (t_filters t) e (Some (toolbar_totals e)) (t_scale t) (dropdown t) else t, [])
  | TScale sc => (mkToolbar (t_filters t) (t_epoch t) (totals t) sc (dropdown t), [])
  | TChangeFilter k v => (t, [Do (changeFilter (t_filters t) k v)])
  | TChangeEpoch n => (t, [Do (GetEpochDetails n)])
  | TChangeScale sc => (mkToolbar (t_filters t) (t_epoch t) (totals t) (t_scale t) false, [Do (ChangeScale sc)])
  | TDropdown => (mkToolbar (t_filters t) (t_epoch t) (totals t) (t_scale t) (negb (dropdown t)), [])
  | TDetach => (mkToolbar (t_filters t) (t_epoch t) (totals t) (t_scale t) false, [])
  end.

(** ** The side panel and the details of a slot *)

Record Panel := mkPanel {
  activeScreen : nat;
  activeTab : nat;
  p_epoch : option Epoch;
  p_slot : option Slot;
  slot_status : option string;
  slot_color : option string;
  shown_stats : option (AllStats * Extras);
  all_time : option AllStats
}.

Definition initialPanel : Panel := mkPanel 0 1 None None None None None None.

Definition all_filters : Filters := mkFilters true true true true.

Inductive PanelEvent :=
| PEpoch (e : option Epoch)
| PAllTime (s : option AllStats)
| PSlot (s : option Slot)
| PTab (n : nat)
| PRemove.

Definition panel_step (readable : Z -> string) (p : Panel) (ev : PanelEvent) : result (Panel * list Out) :=
  match ev with
  | PEpoch e =>
    Ok (match listen_active_epoch readable e with
        | Some x => mkPanel (activeScreen p) (activeTab p) e (p_slot p) (slot_status p) (slot_color p) (Some x)
                      (all_time p)
        | None => p
        end, [])
  | PAllTime (Some s) =>
    Ok (mkPanel (activeScreen p) (activeTab p) (p_epoch p) (p_slot p) (slot_status p) (slot_color p)
          (shown_stats p) (Some s), [])
  | PAllTime None => Ok (p, [])
  | PSlot (Some s) =>
    Ok (mkPanel 1 (activeTab p) (p_epoch p) (Some s) (Some (getSlotText s))
          (Some (getSlotColor s (Some all_filters))) (shown_stats p) (all_time p), [])
  | PSlot None =>
    Ok (mkPanel 0 (activeTab p) (p_epoch p) None (slot_status p) (slot_color p) (shown_stats p) (all_time p), [])
  | PTab n =>
    Ok (mkPanel (activeScreen p) n (p_epoch p) (p_slot p) (slot_status p) (slot_color p) (shown_stats p)
          (all_time p), [])
  | PRemove =>
    match p_epoch p with
    | Some e => Ok (p, [Do (SetActiveSlot None); GoEpoch (epochNumber e)])
    | None => Throw "Cannot read properties of undefined (reading 'epochNumber')"
    end
  end.

(** [viewInMinaScan()] of the details; the network is that of the active node. *)
Definition viewInMinaScan (network : option string) (s : Slot) : Out :=
  OpenTab ("https://minascan.io/" +:+ default "undefined" (toLowerCase <$> network) +:+ "/block/" +:+
           default "undefined" (hash s)).

(** ** The page *)

Record Page := mkPage {
  showSidePanel : bool; pg_loading : bool; pg_calculating : bool; pg_epoch : option Epoch
}.

Inductive PageEvent :=
| OnNode (epoch slot : option Z)     (* the numbers of the route, [None] for [NaN] *)
| OnStore (s : State)
| OnWindow (isDesktop : bool)        (* 100 milliseconds after the last resizing *)
| OnDestroy.

Definition page_step (p : Page) (ev : PageEvent) : Page * list Out :=
  match ev with
  | OnNode epoch slot => (p, [Do GetRewardsStats; Do (SetActiveSlot slot); Do (GetEpochDetails epoch)])
  | OnStore s => (mkPage (showSidePanel p) (isLoading s) (isCalculatingVRF s) (activeEpoch s), [])
  | OnWindow isDesktop => (mkPage isDesktop (pg_loading p) (pg_calculating p) (pg_epoch p), [])
  | OnDestroy => (p, [Do Close])
  end.

(** The chart is part of the page only then. *)
Definition chart_visible (p : Page) : bool := negb (pg_loading p || pg_calculating p).

(** ** The chart shows the epoch *)

Fixpoint chart_steps (c : Chart) (evs : list ChartEvent) : Chart :=
  match evs with
  | [] => c
  | ev :: evs' => chart_steps (fst (chart_step c ev)) evs'
  end.

Definition initialChart (fs : Filters) (w : Z) : Chart := mkChart [] None None None fs w None 0 false.

(** Lists of slots that are empty or complete. *)
Definition fits (n : nat) (ev : ChartEvent) : Prop :=
  match ev with
  | SEpoch e => forall l, e ≫= slots = Some l -> l = [] \/ length l = n
  | _ => True
  end.

(** The store gives the chart only such lists, since it is shown only then. *)
Lemma visible_lists s l s' p :
  reducer s (GetSlotsSuccess l) = Ok s' -> chart_visible (fst (page_step p (OnStore s'))) = true ->
  l = [] \/ length l = SLOTS_PER_EPOCH.
Proof.
  cbn [reducer]. intros [= <-]. unfold chart_visible. cbn [page_step fst pg_loading pg_calculating isLoading isCalculatingVRF].
  cbn [orb]. rewrite negb_true_iff, andb_false_iff, !negb_false_iff, !Nat.eqb_eq.
  intros [H|H]; [left; by apply nil_length_inv|by right].
Qed.

Definition colored (fs : Filters) (r : Rect) : Prop := fill r = getSlotColor (datum r) (Some fs).

Definition chart_ok (c : Chart) : Prop :=
  datum <$> rects c = default [] (c_slots c) /\ Forall (colored (c_filters c)) (rects c).

Lemma bind_colors_ok fs rs l :
  length rs = length l -> datum <$> bind_colors fs rs l = l /\ Forall (colored fs) (bind_colors fs rs l).
Proof.
  revert l. induction rs as [|r rs IH]; intros [|s l] Hl; try done. cbn.
  destruct (IH l) as [H1 H2]; [by injection Hl|]. split; [by rewrite H1|by constructor].
Qed.

Lemma initSlots_ok fs l : datum <$> initSlots fs l = l /\ Forall (colored fs) (initSlots fs l).
Proof.
  unfold initSlots. rewrite <- list_fmap_compose. split; [apply list_fmap_id|].
  apply Forall_fmap, Forall_true. done.
Qed.

Lemma draw_ok n fs rs l :
  rs = [] \/ length rs = n -> l = [] \/ length l = n ->
  datum <$> draw fs rs l = l /\ Forall (colored fs) (draw fs rs l).
Proof.
  intros Hr Hl. destruct rs as [|r rs]; [apply initSlots_ok|]. destruct l as [|s l]; [by split|].
  destruct Hr as [|Hr], Hl as [|Hl]; try done. apply bind_colors_ok. by rewrite Hr.
Qed.

Definition same_but_outline (r r' : Rect) : Prop := datum r = datum r' /\ fill r = fill r'.

Lemma outline_keeps fs rs rs' :
  Forall2 same_but_outline rs rs' ->
  datum <$> rs' = datum <$> rs /\ (Forall (colored fs) rs -> Forall (colored fs) rs').
Proof.
  induction 1 as [|r r' rs rs' [Hd Hf] _ [IH1 IH2]]; [done|]. split; [by rewrite !fmap_cons, IH1, Hd|].
  inversion 1 as [|? ? Hr Hrs]; subst. constructor; [|by apply IH2]. unfold colored in *. congruence.
Qed.

Lemma same_refl rs : Forall2 same_but_outline rs rs.
Proof. induction rs; by constructor. Qed.

Lemma outline_if_same f b rs : Forall2 same_but_outline rs (outline_if f b rs).
Proof. induction rs as [|r rs IH]; constructor; [|done]. by destruct (f (datum r)). Qed.

Lemma outline_at_same i b rs : Forall2 same_but_outline rs (outline_at i b rs).
Proof.
  unfold outline_at. destruct (rs !! i) as [r|] eqn:E; [|apply same_refl].
  revert i E. induction rs as [|x rs IH]; intros [|i] E; [done|done| |].
  - injection E as ->. constructor; [done|apply same_refl].
  - constructor; [done|]. by apply IH.
Qed.

Lemma outline_ok c c' :
  chart_ok c -> Forall2 same_but_outline (rects c) (rects c') -> c_slots c' = c_slots c ->
  c_filters c' = c_filters c -> chart_ok c'.
Proof.
  intros [H1 H2] Hs Hl Hf. destruct (outline_keeps (c_filters c) _ _ Hs) as [E1 E2].
  split; [by rewrite E1, Hl|]. rewrite Hf. auto.
Qed.

Lemma chart_step_ok n c ev :
  chart_ok c -> rects c = [] \/ length (rects c) = n -> fits n ev ->
  let c' := fst (chart_step c ev) in chart_ok c' /\ (rects c' = [] \/ length (rects c') = n).
Proof.
  intros Hok Hn Hf.
  assert (Hkeep : forall c', Forall2 same_but_outline (rects c) (rects c') -> c_slots c' = c_slots c ->
    c_filters c' = c_filters c -> chart_ok c' /\ (rects c' = [] \/ length (rects c') = n)).
  { intros c' H2 Hl Hfs. split; [by eapply outline_ok|]. rewrite <- (Forall2_length _ _ _ H2).
    destruct Hn as [E|E]; [left|by right]. rewrite E in H2. by inversion H2. }
  destruct ev as [e|s|f|w|i|i|i|]; cbn [chart_step fst].
  - destruct (e ≫= slots) as [l|] eqn:El; [|apply Hkeep; [apply same_refl|done..]].
    specialize (Hf l El). destruct (draw_ok n (c_filters c) _ l Hn Hf) as [H1 H2]. cbn. split; [by split|].
    rewrite <- (length_fmap datum), H1. destruct Hf as [->|Hf]; [|by right]. left. by apply fmap_nil_inv in H1.
  - apply Hkeep; [apply outline_if_same|done..].
  - destruct Hok as [Hd Hc]. destruct (c_slots c) as [[|x l]|] eqn:El; cbn in *.
    + apply fmap_nil_inv in Hd. unfold chart_ok. cbn. rewrite Hd. split; [by split|by left].
    + destruct (bind_colors_ok f (rects c) (x :: l)) as [H1 H2]; [by rewrite <- Hd, length_fmap|].
      split; [by split|]. rewrite <- (length_fmap datum), H1, <- Hd, length_fmap.
      destruct Hn as [E|E]; [by rewrite E in Hd|by right].
    + apply fmap_nil_inv in Hd. unfold chart_ok. cbn. rewrite Hd. split; [by split|by left].
  - apply Hkeep; [apply same_refl|done..].
  - destruct (rects c !! i); apply Hkeep; try done; [apply outline_if_same|apply same_refl].
  - destruct (rects c !! i); apply Hkeep; try done; [apply outline_at_same|apply same_refl].
  - destruct (rects c !! i); apply Hkeep; try done; [|apply same_refl].
    cbn. destruct (is_active _ _); [apply same_refl|apply outline_at_same].
  - destruct (hiding c); apply Hkeep; try done; apply same_refl.
Qed.

(** C26: Whatever the user and the store do, the rectangles of the chart are the
    slots of the epoch it was last given, in their order, each with the colour of
    its slot under the current filters; the page shows the chart only for lists that
    are empty or complete. *)
Theorem chart_shows_epoch n fs w evs :
  Forall (fits n) evs ->
  let c := chart_steps (initialChart fs w) evs in
  datum <$> rects c = default [] (c_slots c) /\
  Forall (fun r => fill r = getSlotColor (datum r) (Some (c_filters c))) (rects c).
Proof.
  intros Hf. assert (chart_ok (initialChart fs w)) as Hok by (by split).
  assert (rects (initialChart fs w) = [] \/ length (rects (initialChart fs w)) = n) as Hn by by left.
  revert Hok Hn. generalize (initialChart fs w) as c. induction Hf as [|ev evs Hev _ IH]; intros c Hok Hn; [done|].
  destruct (chart_step_ok n c ev Hok Hn Hev) as [Hok' Hn']. exact (IH _ Hok' Hn').
Qed.

(** ** The outline of the active slot *)

(** Exactly the rectangles of the active slot are outlined. *)
Definition outline_right (c : Chart) : Prop :=
  Forall (fun r => outlined r = is_active (c_active c) (datum r)) (rects c).

(** A click on a slot, with the answer of the store, moves the outline to it. *)
Lemma click_moves_outline c i r :
  outline_right c -> rects c !! i = Some r ->
  outline_right (chart_steps c [SClick i; SActive (Some (datum r))]).
Proof.
  intros Ho Hr. cbn [chart_steps chart_step]. rewrite Hr. cbn [fst]. unfold outline_right in *. cbn.
  unfold outline_if. rewrite !Forall_fmap. eapply Forall_impl; [exact Ho|]. intros x Hx. cbn in *.
  destruct (is_active (c_active c) (datum x)) eqn:E; cbn; destruct (is_active (Some (datum r)) (datum x)) eqn:E';
    cbn; congruence.
Qed.

Lemma hover_rects c i r :
  rects c !! i = Some r ->
  let c' := chart_steps c [SOver i; SOut i] in
  c_active c' = c_active c /\
  rects c' = <[i := mkRect (datum r) (fill r) (is_active (c_active c) (datum r))]> (rects c).
Proof.
  intros Hr. pose proof (lookup_lt_Some _ _ _ Hr) as Hlt. cbn [chart_steps chart_step]. rewrite Hr.
  assert (Ho : outline_at i true (rects c) = <[i := mkRect (datum r) (fill r) true]> (rects c))
    by (unfold outline_at; by rewrite Hr).
  rewrite Ho. cbn [fst rects c_active]. rewrite list_lookup_insert_eq by done. cbn [fst rects c_active datum].
  split; [done|]. destruct (is_active _ _); [done|].
  unfold outline_at. rewrite list_lookup_insert_eq by done. by rewrite list_insert_insert_eq.
Qed.

(** The mouse that passes over a slot leaves the outlines as they were. *)
Lemma hover_restores c i r :
  outline_right c -> rects c !! i = Some r -> outline_right (chart_steps c [SOver i; SOut i]).
Proof.
  intros Ho Hr. destruct (hover_rects c i r Hr) as [Ha Hrs]. unfold outline_right in *. rewrite Ha, Hrs.
  by apply Forall_insert.
Qed.

(** When the slot is removed in the side panel its outline stays. *)
Lemma removed_slot_outlined c r i :
  outline_right c -> rects c !! i = Some r -> is_active (c_active c) (datum r) = true ->
  exists r', rects (fst (chart_step c (SActive None))) !! i = Some r' /\ datum r' = datum r /\
    outlined r' = true /\ is_active (c_active (fst (chart_step c (SActive None)))) (datum r') = false.
Proof.
  intros Ho Hr Ha. cbn. unfold outline_if. rewrite list_lookup_fmap, Hr. cbn.
  pose proof (Forall_lookup_1 _ _ _ _ Ho Hr) as Hi. cbn in Hi. rewrite Ha in Hi. by exists r.
Qed.

(** A list of another length binds only the slots the two have in common. *)
Lemma longer_epoch_cut fs r s l : length (draw fs [r] (s :: l)) = 1%nat.
Proof. done. Qed.

(** ** Two slots *)

Definition sample_slot (n : Z) (c : bool) : Slot :=
  mkSlot n n None 0 Empty true c false false false None false.

Definition sample_epoch : Epoch :=
  mkEpoch (Some 1) None None None (Some [sample_slot 0 true; sample_slot 1 false]) None.

Definition sample_events : list ChartEvent :=
  [SEpoch (Some sample_epoch); SClick 1; SActive (Some (sample_slot 1 false)); SOver 0;
   SFilters (mkFilters false true true true); SOut 0; SHide].

Lemma chart_shows_epoch_witness :
  let c := chart_steps (initialChart all_filters 100) sample_events in
  datum <$> rects c = [sample_slot 0 true; sample_slot 1 false] /\
  Forall (fun r => fill r = getSlotColor (datum r) (Some (mkFilters false true true true))) (rects c).
Proof.
  apply (chart_shows_epoch 2 all_filters 100 sample_events).
  constructor; [intros l [= <-]; by right|repeat constructor].
Defined.

End OverviewPage.
