(* ===== verification/MessagesView.v ===== *)
(** * The components of the messages page

    [features/network/messages] of [src/frontend/src/app], around the store of
    [NetworkMessages] and the actions of [MessagesPage]: the filter panel
    ([network-messages-filters]), the table ([network-messages-table]), the footer
    ([network-messages-table-footer]), the side panel
    ([network-messages-side-panel]) and the page ([network-messages.component.ts]).

    Each component is a machine whose events are the emissions of the store and of
    the router and what the user does. The events that pass [throttleTime] are
    those that reach it. *)

From stdpp Require Import base list strings.
From S2P Require Import Prelude SharedLib NetworkMessages MessagesPage Tables TablePages.
Open Scope Z_scope.

Module MessagesView.
Import Messages MessagesPage.

Inductive Out :=
| Do (a : Action)
| SetQuery (q : Query)               (* replaces the query of the address *)
| GoMessage (id : option string)     (* to a message, the query is merged *)
| MergeInterval (id : option string) (from to : option Z)
| Scroll (index : Z)
| SizeChange
| ScrollTop
| DownloadUrl (url file : string)
| DownloadText (text : option string) (file : string) (* the text of the object *)
| Copy (text : string).

(** ** The filter panel *)

Record FilterPanel := mkFilterPanel {
  p_filters : list Filter;
  filtersOpen : bool;
  elementHeight : option Z;
  p_timestamp : option TimestampInterval;
  activeNodeName : option string;
  filters_seen : bool                (* the first emission is skipped *)
}.

Inductive FilterEvent :=
| FPanel
| FNodeName (node : option string)
| FFilters (fs : list Filter)
| FTimestamp (t : TimestampInterval)
| FToggle (f : Filter) (height : Z)
| FResize (height : Z)
| FCategory (c : Category).

(** [onResize()] *)
Definition onResize (p : FilterPanel) (height : Z) : FilterPanel * list Out :=
  if bool_decide (elementHeight p = Some height) then (p, [])
  else (mkFilterPanel (p_filters p) (filtersOpen p) (Some height) (p_timestamp p) (activeNodeName p)
          (filters_seen p), [SizeChange]).

Definition filter_panel_step (p : FilterPanel) (ev : FilterEvent) : FilterPanel * list Out :=
  match ev with
  | FPanel =>
    (mkFilterPanel (p_filters p) (negb (filtersOpen p)) (elementHeight p) (p_timestamp p) (activeNodeName p)
       (filters_seen p), [])
  | FNodeName node =>
    (mkFilterPanel (p_filters p) (filtersOpen p) (elementHeight p) (p_timestamp p) node (filters_seen p), [])
  | FFilters fs =>
    if filters_seen p
    then (mkFilterPanel fs (filtersOpen p) (elementHeight p) (p_timestamp p) (activeNodeName p) true,
          [SetQuery (filters_query fs (p_timestamp p) (activeNodeName p))])
    else (mkFilterPanel (p_filters p) (filtersOpen p) (elementHeight p) (p_timestamp p) (activeNodeName p) true, [])
  | FTimestamp t =>
    (mkFilterPanel (p_filters p) (filtersOpen p) (elementHeight p) (Some t) (activeNodeName p) (filters_seen p), [])
  | FToggle f height =>
    let '(p', out) := onResize p height in (p', Do (toggle_action (p_filters p) f) :: out)
  | FResize height => onResize p height
  | FCategory c => (p, [Do (category_action (p_filters p) c)])
  end.

(** ** The table *)

Record Table := mkTable {
  t_messages : list Message;
  t_filters : list Filter;
  attempt : bool;                    (* the address has not been read *)
  idFromRoute : option Z;
  t_active : option Message;
  t_stream : bool
}.

Inductive TableEvent :=
| TRoute (messageId : option Z) (q : Query)
| TMessages (offsetHeight : Z) (l : list Message)
| TActive (m : option Message)
| TFilters (fs : list Filter)
| TStream (stream : bool)
| TWheel (up : bool)
| TTouch
| TClick (m : Message)
| TAddress (m : Message)
| TClear.

(** The filters of the address that are available. *)
Definition known_filters (q : Query) : list Filter := omap (fun f => f) (getFiltersFromTheRoute q).

Definition table_step (t : Table) (ev : TableEvent) : Table * list Out :=
  match ev with
  | TRoute messageId q =>
    if attempt t
    then (mkTable (t_messages t) (t_filters t) false
            match messageId with Some i => Some i | None => idFromRoute t end (t_active t) (t_stream t),
          [Do (route_action messageId q (known_filters q))])
    else (t, [])
  | TMessages h l =>
    (mkTable l (t_filters t) (attempt t) None (t_active t) (t_stream t),
     [Scroll (TablePages.messages_scroll h (idFromRoute t) l)])
  | TActive m => (mkTable (t_messages t) (t_filters t) (attempt t) (idFromRoute t) m (t_stream t), [])
  | TFilters fs => (mkTable (t_messages t) fs (attempt t) (idFromRoute t) (t_active t) (t_stream t), [])
  | TStream stream => (mkTable (t_messages t) (t_filters t) (attempt t) (idFromRoute t) (t_active t) stream, [])
  | TWheel up => (t, if t_stream t && up then [Do Pause] else [])
  | TTouch => (t, if t_stream t then [Do Pause] else [])
  | TClick m =>
    (t, match row_action (t_active t) m with
        | Some a => [GoMessage (Some (show (id m))); Do a]
        | None => []
        end)
  | TAddress m => (t, [Do (address_action (t_filters t) m)])
  | TClear => (t, [Do (clear_action (t_filters t))])
  end.

(** ** The footer *)

Record Footer := mkFooter {
  f_state : State;
  first_page : bool;
  last_page : bool;
  activeInterval : option string;
  currentTimestamp : option TimestampInterval;
  urlMessageId : option string;
  picker : bool;                     (* the choice of an interval is open *)
  closing : nat                      (* the timeouts that will close it *)
}.

Definition set_interval (f : Footer) (text : option string) (t : option TimestampInterval) : Footer :=
  mkFooter (f_state f) (first_page f) (last_page f) text t (urlMessageId f) (picker f) (closing f).

Definition set_picker (f : Footer) (open : bool) (n : nat) : Footer :=
  mkFooter (f_state f) (first_page f) (last_page f) (activeInterval f) (currentTimestamp f) (urlMessageId f) open n.

Inductive FooterEvent :=
| FoState (s : State)
| FoInterval (t : TimestampInterval)
| FoRoute (messageId : option string)
| FoLive | FoPause
| FoPrevious | FoNext | FoFirst | FoLast
| FoPicker
| FoConfirm (answer : option (Z * Z)) (* in milliseconds, of whole seconds *)
| FoClosed                           (* 250 milliseconds after the answer *)
| FoDetach
| FoScrollTop
| FoClear.

Section Footer.
(** The date pipe on milliseconds, with the day and without; it gives [null] for
    what is not a number. *)
Context (day_time time : Z -> string).

(** [timestamp.to * ONE_THOUSAND] formatted. *)
Definition format_with (fmt : Z -> string) (t : option Z) : option string := (fun n => fmt (n * 1000)) <$> t.

Definition listenToTimestampIntervalChange (f : Footer) (t : TimestampInterval) : result Footer :=
  if truthy_onum (from t)
  then
    match format_with day_time (from t), format_with day_time (to t) with
    | Some a, Some b =>
      let b := if bool_decide (head (split_comma a) = head (split_comma b))
               then default "null" (format_with time (to t)) else b in
      Ok (set_interval f (Some (a +:+ " - " +:+ b)) (Some t))
    | _, _ => Throw "Cannot read properties of null (reading 'split')"
    end
  else Ok f.

(** The dispatched action of a button. *)
Definition press (f : Footer) (r : result Action) : result (Footer * list Out) :=
  match r with Ok a => Ok (f, [Do a]) | Throw e => Throw e end.

Definition footer_step (f : Footer) (ev : FooterEvent) : result (Footer * list Out) :=
  match ev with
  | FoState s =>
    match isLastPage s with
    | Ok l => Ok (mkFooter s (isFirstPage s) l (activeInterval f) (currentTimestamp f) (urlMessageId f) (picker f)
                    (closing f), [])
    | Throw e => Throw e
    end
  | FoInterval t =>
    match listenToTimestampIntervalChange f t with Ok f' => Ok (f', []) | Throw e => Throw e end
  | FoRoute i =>
    Ok (mkFooter (f_state f) (first_page f) (last_page f) (activeInterval f) (currentTimestamp f) i (picker f)
          (closing f), [])
  | FoLive => Ok (f, [Do GoLive])
  | FoPause => Ok (f, [Do Pause])
  | FoPrevious => press f (previousPage (f_state f) (currentTimestamp f))
  | FoNext => press f (nextPage (f_state f) (currentTimestamp f))
  | FoFirst => Ok (f, [Do (firstPage (f_state f) (currentTimestamp f))])
  | FoLast => Ok (f, [Do (lastPage (f_state f) (currentTimestamp f))])
  | FoPicker => Ok (set_picker f (negb (picker f)) (closing f), [])
  | FoConfirm answer =>
    Ok (set_picker f (picker f) (S (closing f)),
        match answer with
        | Some (a, b) =>
          [MergeInterval (urlMessageId f) (Some (floor_div a 1000)) (Some (floor_div b 1000));
           Do (SetTimestampInterval (mkInterval (Some (floor_div a 1000)) (Some (floor_div b 1000))) (Some FORWARD))]
        | None => []
        end)
  | FoClosed => Ok (match closing f with 0%nat => f | S n => set_picker f false n end, [])
  | FoDetach => Ok (set_picker f false (closing f), [])
  | FoScrollTop => Ok (f, [Do Pause; ScrollTop])
  | FoClear =>
    Ok (set_interval f None None, [MergeInterval (urlMessageId f) None None; Do clear_interval_action])
  end.
End Footer.

(** ** The side panel *)

Record SidePanel := mkSidePanel {
  sp_row : option Message;
  sp_connection : option (Connection + string);
  fullMessage : option string;
  hexDisplayed : option string;
  selectedTab : Z;
  jsonTooBig : bool;
  toCopy : option string;
  expanded : option bool;            (* all of the viewer opened or closed *)
  sp_hex : option string;
  cancelDownload : bool;
  currentKind : option MessageKind;
  debuggerURL : option string
}.

Definition initialPanel : SidePanel :=
  mkSidePanel None None None None 1 false None None None false None None.

Inductive PanelEvent :=
| PNode (url : option string)
| PRow (m : option Message)
| PFull (text : option string)
| PHex (hex : option string)
| PConnection (c : option (Connection + string))
| PDownload | PDownloadBinary
| PClose | PExpand | PCollapse
| PTab (n : Z)
| PCopyLink (href : string).

(** [getActiveRowHexDisplayedValue(hex)] *)
Definition getActiveRowHexDisplayedValue (hex : string) : string :=
  let n := String.length hex in
  if (n <? 600)%nat then hex else string_take 500 hex +:+ "..." +:+ string_drop (n - 9) hex.

Section SidePanel.
(** [JSON.stringify], and [Number] of a text, [None] when it is not a number. *)
Context (stringify : string -> string) (stringify_connection : Connection + string -> string)
        (number : string -> option Z).

(** [setToCopy()] *)
Definition copy_of (p : SidePanel) : option string :=
  if selectedTab p =? 1 then stringify <$> fullMessage p
  else if selectedTab p =? 2 then sp_hex p
  else stringify_connection <$> sp_connection p.

Definition setToCopy (p : SidePanel) : SidePanel :=
  mkSidePanel (sp_row p) (sp_connection p) (fullMessage p) (hexDisplayed p) (selectedTab p) (jsonTooBig p)
    (copy_of p) (expanded p) (sp_hex p) (cancelDownload p) (currentKind p) (debuggerURL p).

Definition url_of (p : SidePanel) (path : string) (m : Message) : string :=
  default "undefined" (debuggerURL p) +:+ path +:+ show (id m).

(** [downloadJson()] *)
Definition downloadJson (p : SidePanel) : result (SidePanel * list Out) :=
  let file := if selectedTab p =? 2 then "message_hex.txt" else "network_data.json" in
  if jsonTooBig p && (selectedTab p =? 1)
  then match sp_row p with
       | Some m =>
         Ok (mkSidePanel (sp_row p) (sp_connection p) (fullMessage p) (hexDisplayed p) (selectedTab p)
               (jsonTooBig p) (toCopy p) (expanded p) (sp_hex p) false (currentKind p) (debuggerURL p),
             [DownloadUrl (url_of p "/message/" m) file])
       | None => Throw "Cannot read properties of undefined (reading 'id')"
       end
  else Ok (p, [DownloadText (if selectedTab p =? 1 then fullMessage p
                             else if selectedTab p =? 2 then sp_hex p
                             else stringify_connection <$> sp_connection p) file]).

Definition panel_step (p : SidePanel) (ev : PanelEvent) : result (SidePanel * list Out) :=
  match ev with
  | PNode url =>
    Ok (mkSidePanel (sp_row p) (sp_connection p) (fullMessage p) (hexDisplayed p) (selectedTab p) (jsonTooBig p)
          (toCopy p) (expanded p) (sp_hex p) (cancelDownload p) (currentKind p) url, [])
  | PRow (Some m) =>
    Ok (mkSidePanel (Some m) (sp_connection p) (fullMessage p) (hexDisplayed p) (selectedTab p) (jsonTooBig p)
          (toCopy p) (if bool_decide (currentKind p = Some (messageKind m)) then expanded p else None) (sp_hex p)
          (cancelDownload p) (Some (messageKind m)) (debuggerURL p), [])
  | PRow None =>
    Ok (mkSidePanel None None None None (selectedTab p) (jsonTooBig p) (toCopy p) (expanded p) None true
          (currentKind p) (debuggerURL p), [])
  | PFull (Some text) =>
    Ok (setToCopy (mkSidePanel (sp_row p) (sp_connection p) (Some text) (hexDisplayed p) (selectedTab p)
          match number text with Some n => 10485760 <? n | None => false end (toCopy p) (expanded p) (sp_hex p)
          (cancelDownload p) (currentKind p) (debuggerURL p)), [])
  | PHex (Some hex) =>
    Ok (setToCopy (mkSidePanel (sp_row p) (sp_connection p) (fullMessage p)
          (Some (getActiveRowHexDisplayedValue hex)) (selectedTab p) (jsonTooBig p) (toCopy p) (expanded p)
          (Some hex) (cancelDownload p) (currentKind p) (debuggerURL p)), [])
  | PConnection (Some c) =>
    Ok (setToCopy (mkSidePanel (sp_row p) (Some c) (fullMessage p) (hexDisplayed p) (selectedTab p) (jsonTooBig p)
          (toCopy p) (expanded p) (sp_hex p) (cancelDownload p) (currentKind p) (debuggerURL p)), [])
  | PFull None | PHex None | PConnection None => Ok (p, [])
  | PDownload => downloadJson p
  | PDownloadBinary =>
    match sp_row p with
    | Some m =>
      Ok (mkSidePanel (sp_row p) (sp_connection p) (fullMessage p) (hexDisplayed p) (selectedTab p) (jsonTooBig p)
            (toCopy p) (expanded p) (sp_hex p) false (currentKind p) (debuggerURL p),
          [DownloadUrl (url_of p "/message_bin/" m) (show (id m) +:+ "_binary.bin")])
    | None => Throw "Cannot read properties of undefined (reading 'id')"
    end
  | PClose => Ok (p, [GoMessage None; Do (SetActiveRow None)])
  | PExpand | PCollapse =>
    Ok (mkSidePanel (sp_row p) (sp_connection p) (fullMessage p) (hexDisplayed p) (selectedTab p) (jsonTooBig p)
          (toCopy p) (Some match ev with PExpand => true | _ => false end) (sp_hex p) (cancelDownload p)
          (currentKind p) (debuggerURL p), [])
  | PTab n =>
    Ok (setToCopy (mkSidePanel (sp_row p) (sp_connection p) (fullMessage p) (hexDisplayed p) n (jsonTooBig p)
          (toCopy p) (expanded p) (sp_hex p) true (currentKind p) (debuggerURL p)), [Do (ChangeTab n)])
  | PCopyLink href => Ok (p, [Copy href])
  end.
End SidePanel.

(** ** The page *)

Inductive PageEvent := OnNode | OnRow (m : option Message) | OnScrollTop | OnDestroy.

(** The state of the page is whether a row is active. *)
Definition page_step (isActiveRow : bool) (ev : PageEvent) : bool * list Out :=
  match ev with
  | OnNode => (isActiveRow, [Do Init])
  | OnRow m => (is_some m, [])
  | OnScrollTop => (isActiveRow, [Scroll 0])
  | OnDestroy => (isActiveRow, [Do Close])
  end.

(** ** What is copied *)

Section Copying.
Context (stringify : string -> string) (stringify_connection : Connection + string -> string)
        (number : string -> option Z).
Notation pstep := (panel_step stringify stringify_connection number).
Notation copied := (copy_of stringify stringify_connection).

(** While a row is active, the text that is copied is that of the chosen tab. *)
Lemma copies_chosen_tab p ev p' out :
  toCopy p = copied p -> ev <> PRow None -> pstep p ev = Ok (p', out) -> toCopy p' = copied p'.
Proof.
  intros Hp Hev H. destruct ev as [|[]|[]|[]|[]| | | | | | |]; cbn in H; try done;
    unfold downloadJson in H; repeat case_match; by simplify_eq.
Qed.

(** A panel that is closed still copies the message it has shown. *)
Lemma closed_copies_old p text :
  selectedTab p = 1 -> toCopy p = Some (stringify text) ->
  exists p', pstep p (PRow None) = Ok (p', []) /\ fullMessage p' = None /\ toCopy p' = Some (stringify text).
Proof. intros Ht Hc. eexists. split; [done|]. by split. Qed.

(** Another row keeps the message of the row before until its own arrives. *)
Lemma row_keeps_message p m :
  exists p', pstep p (PRow (Some m)) = Ok (p', []) /\ fullMessage p' = fullMessage p.
Proof. by eexists. Qed.
End Copying.

(** The hexadecimal text that is shown is the whole one or, of a long one, the
    first 500 and the last nine characters. *)
Lemma take_length n s : String.length (string_take n s) = Nat.min n (String.length s).
Proof. revert n. induction s as [|c s IH]; intros [|n]; cbn; [done..|]. by rewrite IH. Qed.

Lemma drop_length n s : String.length (string_drop n s) = (String.length s - n)%nat.
Proof. revert n. induction s as [|c s IH]; intros [|n]; cbn; [done..|]. by rewrite IH. Qed.

Lemma hex_shortened hex :
  (String.length (getActiveRowHexDisplayedValue hex) <= 599)%nat /\
  ((600 <= String.length hex)%nat -> String.length (getActiveRowHexDisplayedValue hex) = 512%nat).
Proof.
  unfold getActiveRowHexDisplayedValue. destruct (Nat.ltb_spec (String.length hex) 600); [split; lia|].
  rewrite !string_length_app, take_length, drop_length. cbn [String.length]. split; lia.
Qed.

(** ** The address and the store *)

Definition freshTable : Table := mkTable [] [] true None None false.

Lemma omap_id_somes {A} (l : list A) : omap (fun f => f) (Some <$> l) = l.
Proof. induction l as [|x l IH]; [done|]. cbn. by f_equal. Qed.

(** The address the filter panel writes leads the table of a new page to the
    same filters in the store, when at most one of them is an address. *)
Lemma panel_address_restores p fs p' out t t' out' :
  filters_seen p = true -> chosen fs -> (length (of_type ADDRESS fs) <= 1)%nat -> fs <> [] -> attempt t = true ->
  filter_panel_step p (FFilters fs) = (p', out) ->
  table_step t (TRoute None (filters_query fs (p_timestamp p) (activeNodeName p))) = (t', out') ->
  exists a, out = [SetQuery (filters_query fs (p_timestamp p) (activeNodeName p))] /\ out' = [Do a] /\
    activeFilters (networkMessagesReducer initialState a) ≡ₚ fs.
Proof.
  intros Hs Hc Hone Hne Ha Hp Ht. unfold filter_panel_step in Hp. rewrite Hs in Hp.
  unfold table_step in Ht. rewrite Ha in Ht. simplify_eq.
  eexists. split; [done|]. split; [done|]. unfold known_filters. rewrite route_filters by done.
  rewrite omap_id_somes. pose proof (kept_perm fs Hone) as Hp. pose proof (kept_nonempty fs Hne) as Hk.
  unfold route_action. cbn [is_some orb]. rewrite chosen_query by done.
  destruct (kept_filters fs) as [|f l'] eqn:E; [done|].
  cbn. rewrite lfilter_all by done. exact Hp.
Qed.

(** An address with a beginning and no end of the interval fails in the footer. *)
Lemma open_interval_throws dt tm f n :
  truthyZ n = true -> throws (footer_step dt tm f (FoInterval (mkInterval (Some n) None))) = true.
Proof. intros Hn. cbn. unfold listenToTimestampIntervalChange. cbn. by rewrite Hn. Qed.

(** Going back to the whole list clears the interval of the footer and of the
    store. *)
Lemma clear_interval dt tm f s :
  exists f', footer_step dt tm f FoClear = Ok (f', [MergeInterval (urlMessageId f) None None; Do clear_interval_action]) /\
    currentTimestamp f' = None /\
    timestamp (networkMessagesReducer s clear_interval_action) = mkInterval None None.
Proof. by eexists. Qed.

End MessagesView.
