(* ===== verification/NodesPages.v ===== *)
(** * The pages of the nodes

    [src/frontend/src/app/features/nodes]: the side panel of the overview with the
    age of the best tip, the toolbar and the map of blocks of the live view, the
    side panels of the bootstrap view, and the three pages that poll their stores
    ([NodesOverview], [NodesLive] and [NodesBootstrap]).

    The toolbar is composed with the store of the live view: a dispatched action is
    reduced and what it changes is handed to the toolbar, the active node first. *)

From Stdlib Require Import QArith Qround Lqa.
From stdpp Require Import base list strings sets.
From S2P Require Import Prelude SharedLib NodesOverview NodesLive NodesBootstrap.
Open Scope Z_scope.

Module NodesPages.
Import NodesOverview.

Definition no_element : string := "Cannot read properties of undefined (reading 'nativeElement')".

(** ** The side panel of the overview *)

Definition twoDigit (val : Z) : string := if val <? 10 then "0" +:+ show val else show val.

(** [a % m] of a number that need not be whole. *)
Definition trunc (a : Q) : Z := if Qle_bool 0 a then Qfloor a else - Qfloor (- a).
Definition js_rem (a : Q) (m : Z) : Q := (a - inject_Z m * inject_Z (trunc (a / inject_Z m)))%Q.

Definition getFormattedTimeToDisplay (next : Q) : string :=
  let time :=
    if Qle_bool next 3599
    then
      let min := Qfloor (next / 60) in
      let sec := Qfloor (js_rem next 60) in
      twoDigit min +:+ "m " +:+ twoDigit sec +:+ "s"
    else if Qle_bool next 86399
    then
      let hour := Qfloor (next / 3600) in
      let min := Qfloor (js_rem (next / 60) 60) in
      twoDigit hour +:+ "h " +:+ twoDigit min +:+ "m"
    else
      let day := Qfloor (next / 86400) in
      let hour := Qfloor (js_rem (next / 3600) 24) in
      twoDigit day +:+ "d " +:+ twoDigit hour +:+ "h" in
  time +:+ " ago".

(** The element of the age exists once the view is there. *)
Record AgePanel := mkAge {
  a_node : option Node;
  ticking : bool;
  secondsPassed : Q;
  timeReference : Z;
  timerRemoved : bool;
  view : bool;
  innerText : string
}.

Definition createTimer (p : AgePanel) : AgePanel :=
  mkAge (a_node p) true (secondsPassed p) (timeReference p) (timerRemoved p) (view p) (innerText p).
Definition clearTimer (p : AgePanel) : AgePanel :=
  mkAge (a_node p) false (secondsPassed p) (timeReference p) (timerRemoved p) (view p) (innerText p).

(** What is written into the element; the rest of the handler is done before. *)
Definition write (p : AgePanel) (text : string) : AgePanel * option string :=
  if view p
  then (mkAge (a_node p) (ticking p) (secondsPassed p) (timeReference p) (timerRemoved p) true text, None)
  else (p, Some no_element).

Definition updateTimeInView (p : AgePanel) : AgePanel * option string :=
  let next := (secondsPassed p + 1)%Q in
  write (mkAge (a_node p) (ticking p) next (timeReference p) (timerRemoved p) (view p) (innerText p))
    (getFormattedTimeToDisplay next).

Definition listenToActiveNodesOverviewNode (now : Z) (p : AgePanel) (n : Node) : AgePanel * option string :=
  if truthy_onum (bestTipReceivedTimestamp n)
  then
    let p1 := if timerRemoved p then createTimer p else p in
    let t := default 0 (bestTipReceivedTimestamp n) in
    updateTimeInView
      (mkAge (Some n) (ticking p1) (inject_Z (now - t) / 1000)%Q t false (view p) (innerText p))
  else
    let p1 := clearTimer p in
    write (mkAge (Some n) (ticking p1) (secondsPassed p) (timeReference p) true (view p) (innerText p)) "-".

(** [Destroyed] runs nothing: the component does not clear its timer. *)
Inductive AgeEvent := ANode (now : Z) (n : option Node) | AView | ATick | ADestroyed.

Definition age_step (p : AgePanel) (ev : AgeEvent) : AgePanel * option string :=
  match ev with
  | ANode now (Some n) => listenToActiveNodesOverviewNode now p n
  | ANode _ None | ADestroyed => (p, None)
  | AView => (mkAge (a_node p) (ticking p) (secondsPassed p) (timeReference p) (timerRemoved p) true (innerText p), None)
  | ATick => if ticking p then updateTimeInView p else (p, None)
  end.

Definition age_run (p : AgePanel) (evs : list AgeEvent) : AgePanel :=
  fold_left (fun p ev => fst (age_step p ev)) evs p.

(** [ngOnInit()], before the node of the store is handed over. *)
Definition age_open : AgePanel := createTimer (mkAge None false 0 0 false false "").

(** [closeSidePanel()] *)
Inductive Out := DoOverview (a : NodesOverview.Action) | DoLive (a : NodesLive.Action)
               | DoBootstrap (a : NodesBootstrap.Action) | GoOverview | GoTip (hash : option string) | GoBootstrap.

Definition closeSidePanel : list Out := [DoOverview (NodesOverview.SetActiveNode None); GoOverview].

(** ** The pages *)

(** The overview asks at once and every five seconds. *)
Inductive OverviewEvent := OTimer | OActive (n : option Node) | ODestroy.

Definition overview_step (isActiveRow : bool) (ev : OverviewEvent) : bool * list Out :=
  match ev with
  | OTimer => (isActiveRow, [DoOverview NodesOverview.GetNodes])
  | OActive n =>
    (if is_some n && negb isActiveRow then true
     else if negb (is_some n) && isActiveRow then false else isActiveRow, [])
  | ODestroy => (isActiveRow, [DoOverview NodesOverview.Close])
  end.

(** The live view asks every two seconds, the bootstrap view every ten; the first
    active node is the one the page was opened with and is skipped. *)
Record PolledPage := mkPolled { openSidePanel : bool; node_seen : bool }.

Inductive PolledEvent := PNode | PTimer | POpen (open : bool) | PDestroy.

Section Polled.
Context (init load close : Out) (forced : Out).

Definition polled_step (p : PolledPage) (ev : PolledEvent) : PolledPage * list Out :=
  match ev with
  | PNode => (mkPolled (openSidePanel p) true, if node_seen p then [init; forced] else [])
  | PTimer => (p, [load])
  | POpen open => (mkPolled open (node_seen p), [])
  | PDestroy => (p, [close])
  end.
End Polled.

Definition live_page_step : PolledPage -> PolledEvent -> PolledPage * list Out :=
  polled_step (DoLive NodesLive.Init) (DoLive (NodesLive.GetNodes false)) (DoLive NodesLive.Close)
    (DoLive (NodesLive.GetNodes true)).

Definition bootstrap_page_step : PolledPage -> PolledEvent -> PolledPage * list Out :=
  polled_step (DoBootstrap NodesBootstrap.Init) (DoBootstrap (NodesBootstrap.GetNodes false))
    (DoBootstrap NodesBootstrap.Close) (DoBootstrap (NodesBootstrap.GetNodes true)).

(** ** The live view *)

Definition tip (n : NodesLive.LiveNode) : option string := bestTip (NodesLive.overview n).

(** The toolbar; before it has a node it has an empty object, which has no tip. *)
Record LiveBar := mkBar {
  t_node : option NodesLive.LiveNode;
  t_nodes : list NodesLive.LiveNode;
  tipFromRoute : option string
}.

Definition listenToRoute (b : LiveBar) (param : option string) : LiveBar :=
  match param with
  | Some t => if truthy_str t then mkBar (t_node b) (t_nodes b) (Some t) else b
  | None => b
  end.

Definition listenToBestTip (b : LiveBar) (n : option NodesLive.LiveNode) : LiveBar :=
  match n with Some n => mkBar (Some n) (t_nodes b) (tipFromRoute b) | None => b end.

Definition selectNode (hash : option string) : list Out :=
  [DoLive (NodesLive.SetActiveNode hash); GoTip hash].

Definition select_found (n : option NodesLive.LiveNode) : list Out :=
  match n with Some n => selectNode (tip n) | None => [] end.

Definition tip_index (b : LiveBar) : option nat :=
  findIndex (NodesLive.has_tip (t_node b ≫= tip)) (t_nodes b).

(** A tip that is not in the list has the index -1. *)
Definition selectPreviousNode (b : LiveBar) : list Out :=
  match tip_index b with
  | Some (S i) => select_found (t_nodes b !! i)
  | _ => []
  end.

Definition selectNextNode (b : LiveBar) : list Out :=
  select_found (t_nodes b !! match tip_index b with Some i => S i | None => 0%nat end).

Definition no_tip : string := "Cannot read properties of undefined (reading 'bestTip')".

Definition selectLastTip (b : LiveBar) : result (list Out) :=
  match last_item (t_nodes b) with Some n => Ok (selectNode (tip n)) | None => Throw no_tip end.

Definition selectFirstTip (b : LiveBar) : result (list Out) :=
  match head (t_nodes b) with Some n => Ok (selectNode (tip n)) | None => Throw no_tip end.

Definition listenToNodes (b : LiveBar) (nodes : list NodesLive.LiveNode) : LiveBar * list Out :=
  match tipFromRoute b with
  | Some t => (mkBar (t_node b) nodes None, selectNode (Some t))
  | None => (mkBar (t_node b) nodes None, [])
  end.

(** The map shows the blocks from the root to the best tip; the root is set apart
    when all 291 blocks of the frontier are there. *)
Record BlocksMap := mkMap { rootBlock : option Block; map_blocks : list Block; bestTipBlock : option Block }.

Definition blocks_map (n : option NodesLive.LiveNode) : BlocksMap :=
  let l := reverse (default [] ((fun n => blocks (NodesLive.overview n)) <$> n)) in
  let '(root, l1) := if (length l =? 291)%nat then (head l, tail l) else (None, l) in
  if (0 <? length l1)%nat
  then mkMap root (take (length l1 - 1) l1) (last_item l1)
  else mkMap root l1 None.

(** The counts of the status line, in its order. *)
Definition status_counts (n : option NodesLive.LiveNode) : list (option nat) :=
  (fun f => n ≫= (fun n => f (NodesLive.overview n)))
    <$> [missingBlocks; fetchingBlocks; fetchedBlocks; applyingBlocks; appliedBlocks].

(** [allFilters] and [toggleFilter()] *)
Definition allFilters : list string :=
  "best tip" :: (NodesLive.status_name <$> [FETCHING; FETCHED; APPLYING; APPLIED]).
Definition toggleFilter (f : string) : list Out := [DoLive (NodesLive.ToggleFilter f)].

(** The toolbar with its store and the tip that the address names. *)
Record Live := mkLive { store : NodesLive.State; bar : LiveBar; address : option string }.

Section Live.
Context `{TableSorter NodesLive.BlockEvent} `{!ItemToggler string} (isDesktop : bool).

Definition reduce_live (a : NodesLive.Action) (l : Live) : result Live :=
  match NodesLive.reducer isDesktop (store l) a with
  | Ok s => Ok (mkLive s (listenToBestTip (bar l) (NodesLive.activeNode s)) (address l))
  | Throw e => Throw e
  end.

Definition apply_out (l : result Live) (o : Out) : result Live :=
  match l, o with
  | Ok l, DoLive a => reduce_live a l
  | Ok l, GoTip t => Ok (mkLive (store l) (bar l) t)
  | _, _ => l
  end.

Definition apply_outs (l : Live) (os : list Out) : result Live := fold_left apply_out os (Ok l).

Inductive LiveEvent :=
| LLoaded (payload : list NodesLive.LiveNode)
| LFirst | LPrevious | LNext | LLast
| LToggleSidePanel.

Definition live_step (l : Live) (ev : LiveEvent) : result Live :=
  match ev with
  | LLoaded payload =>
    match reduce_live (NodesLive.GetNodesSuccess payload) l with
    | Ok l' =>
      let '(b, os) := listenToNodes (bar l') (NodesLive.nodes (store l')) in
      apply_outs (mkLive (store l') b (address l')) os
    | Throw e => Throw e
    end
  | LFirst => match selectFirstTip (bar l) with Ok os => apply_outs l os | Throw e => Throw e end
  | LPrevious => apply_outs l (selectPreviousNode (bar l))
  | LNext => apply_outs l (selectNextNode (bar l))
  | LLast => match selectLastTip (bar l) with Ok os => apply_outs l os | Throw e => Throw e end
  | LToggleSidePanel => reduce_live NodesLive.ToggleSidePanel l
  end.

Fixpoint live_run (l : Live) (evs : list LiveEvent) : result Live :=
  match evs with
  | [] => Ok l
  | ev :: evs' => match live_step l ev with Ok l' => live_run l' evs' | Throw e => Throw e end
  end.

(** [ngOnInit()] on the empty store: the nodes are listened to before the route. *)
Definition live_open (param : option string) : Live :=
  let s := NodesLive.initialState isDesktop in
  let b := listenToBestTip (mkBar None [] None) (NodesLive.activeNode s) in
  mkLive s (listenToRoute (fst (listenToNodes b (NodesLive.nodes s))) param) param.
End Live.

(** ** The bootstrap view *)

(** A node of the bootstrap store is an object: nodes of different answers differ
    even when their contents agree. *)
Record Ref := mkRef { answer : nat; target : NodesBootstrap.BootstrapNode }.

Definition same_ref (r r' : Ref) : bool :=
  (answer r =? answer r')%nat && (NodesBootstrap.index (target r) =? NodesBootstrap.index (target r'))%nat.

(** The panel shows the overview of all attempts ([activeScreen] 0) or the blocks of
    the active one; [indexOf] without a result is -1. *)
Record BootstrapPanel := mkBPanel {
  activeNode : option Ref;
  activeScreen : Z;
  activeNodeIndex : Z;
  p_nodes : list Ref
}.

Definition getActiveNodeIndex (nodes : list Ref) (active : option Ref) : Z :=
  match active ≫= (fun r => findIndex (same_ref r) nodes) with
  | Some i => Z.of_nat i
  | None => -1
  end.

Inductive BPanelEvent := BActive (n : option Ref) | BNodes (nodes : list Ref) | BToggle | BRemove.

Definition bpanel_step (p : BootstrapPanel) (ev : BPanelEvent) : BootstrapPanel * list Out :=
  match ev with
  | BActive n =>
    (if is_some n then mkBPanel n 1 (getActiveNodeIndex (p_nodes p) n) (p_nodes p)
     else mkBPanel n 0 (activeNodeIndex p) (p_nodes p), [])
  | BNodes nodes =>
    (mkBPanel (activeNode p) (activeScreen p) (getActiveNodeIndex nodes (activeNode p)) nodes, [])
  | BToggle => (p, [GoBootstrap; DoBootstrap NodesBootstrap.ToggleSidePanel])
  | BRemove => (p, [DoBootstrap (NodesBootstrap.SetActiveBlock None); GoBootstrap])
  end.

(** The heading of the second screen, [activeNodeIndex + 1 || 0], and the first
    column of the table, [row.index + 1]. *)
Definition attempt_heading (p : BootstrapPanel) : Z := activeNodeIndex p + 1.
Definition attempt_row (r : Ref) : Z := Z.of_nat (NodesBootstrap.index (target r)) + 1.

(** The overview of all attempts, computed when there is one. *)
Record Overview := mkOverview {
  fetchedBlocksTotal : nat;
  o_fetchedBlocksAvg : Q;
  o_fetchedBlocksMax : Z;
  o_fetchedBlocksMin : Z;
  appliedBlocksTotal : nat;
  o_appliedBlocksAvg : Q;
  o_appliedBlocksMax : Z;
  o_appliedBlocksMin : Z;
  values1 : list Q;
  values2 : list Q
}.

Section Sums.
Context {A : Type}.
Implicit Types l : list A.

Definition total (f : A -> nat) l : nat := fold_left (fun acc n => (acc + f n)%nat) l 0%nat.
Definition mean (f : A -> Q) l : Q :=
  (fold_left (fun acc n => acc + f n) l 0 / inject_Z (Z.of_nat (length l)))%Q.
Definition largest (f : A -> Z) l : Z := fold_left (fun acc n => if f n <? acc then acc else f n) l 0.
Definition smallest (f : A -> Z) l : Z := fold_left (fun acc n => if acc <? f n then acc else f n) l 0.
Definition non_zero (f : A -> Q) l : list Q := List.filter (fun q => negb (Qeq_bool q 0)) (f <$> l).
End Sums.

Definition bootstrap_overview (o : option Overview) (nodes : list NodesBootstrap.BootstrapNode)
    : option Overview :=
  if (0 <? length nodes)%nat
  then Some {|
    fetchedBlocksTotal := total NodesBootstrap.n_fetchedBlocks nodes;
    o_fetchedBlocksAvg := mean NodesBootstrap.fetchedBlocksAvg nodes;
    o_fetchedBlocksMax := largest NodesBootstrap.fetchedBlocksMax nodes;
    o_fetchedBlocksMin := smallest NodesBootstrap.fetchedBlocksMin nodes;
    appliedBlocksTotal := total NodesBootstrap.n_appliedBlocks nodes;
    o_appliedBlocksAvg := mean NodesBootstrap.appliedBlocksAvg nodes;
    o_appliedBlocksMax := largest NodesBootstrap.appliedBlocksMax nodes;
    o_appliedBlocksMin := smallest NodesBootstrap.appliedBlocksMin nodes;
    values1 := non_zero NodesBootstrap.fetchedBlocksAvg nodes;
    values2 := non_zero NodesBootstrap.appliedBlocksAvg nodes |}
  else o.

(** The lists of blocks of the active attempt; [null > 0] does not hold. *)
Record BlockLists := mkLists { l_fetched : list Block; l_applied : list Block; activeTab : Z }.

Section Lists.
Context `{TableSorter Block}.

Definition sortBlocks (bs : list Block) (ts : TableSort) : list Block := sort bs ts ["hash"] false.

Definition in_fetched (b : Block) : bool :=
  bool_decide (status b = FETCHED) || (0 <? default 0 (fetchDuration b)).
Definition in_applied (b : Block) : bool := bool_decide (status b = APPLIED).

Inductive ListsEvent := BLActive (n : option NodesBootstrap.BootstrapNode) | BLTab (tab : Z).

Definition lists_step (ls : BlockLists) (ev : ListsEvent) : BlockLists :=
  match ev with
  | BLActive n =>
    let bs := default [] ((fun n => blocks (NodesBootstrap.overview n)) <$> n) in
    mkLists (sortBlocks (List.filter in_fetched bs) (mkTableSort "fetchDuration" DSC))
      (sortBlocks (List.filter in_applied bs) (mkTableSort "applyDuration" DSC)) (activeTab ls)
  | BLTab tab => mkLists (l_fetched ls) (l_applied ls) tab
  end.

(** The rows of the open tab. *)
Definition shown_blocks (ls : BlockLists) : list Block :=
  if activeTab ls =? 0 then l_fetched ls else l_applied ls.
End Lists.

(** ** The age of the best tip *)

Lemma Qfloor_bounds x : (inject_Z (Qfloor x) <= x < inject_Z (Qfloor x) + 1)%Q.
Proof.
  split; [apply Qfloor_le|]. pose proof (Qlt_floor x) as H. rewrite inject_Z_plus in H. exact H.
Qed.

Lemma Qfloor_nonneg x : (0 <= x)%Q -> 0 <= Qfloor x.
Proof. intros H. change 0 with (Qfloor 0). by apply Qfloor_resp_le. Qed.

Lemma trunc_floor x : (0 <= x)%Q -> trunc x = Qfloor x.
Proof. intros H. unfold trunc. by rewrite (proj2 (Qle_bool_iff 0 x) H). Qed.

Lemma inject_pos m : 0 < m -> (0 < inject_Z m)%Q.
Proof. intros H. change 0%Q with (inject_Z 0). by rewrite <- Zlt_Qlt. Qed.

Lemma rest_range q k M x :
  (k <= q)%Q -> (q < k + 1)%Q -> (0 < M)%Q -> (x == q * M)%Q -> (0 <= x - M * k)%Q /\ (x - M * k < M)%Q.
Proof.
  intros H1 H2 HM Hx. pose proof (Qmult_le_compat_r k q M H1 (Qlt_le_weak _ _ HM)).
  pose proof (proj2 (Qmult_lt_r q (k + 1) M HM) H2). split; lra.
Qed.

(** [x] in units, [m] of which make a larger one: the larger units and the rest. *)
Lemma units_split x m hi :
  (0 <= x)%Q -> 0 < m -> hi = Qfloor (x / inject_Z m) ->
  let lo := Qfloor (js_rem x m) in
  0 <= hi /\ 0 <= lo < m /\ (inject_Z (hi * m + lo) <= x < inject_Z (hi * m + lo + 1))%Q.
Proof.
  intros Hx Hm ->. set (M := inject_Z m).
  pose proof (inject_pos m Hm : (0 < M)%Q) as HM.
  assert (Hd : (0 <= x / M)%Q) by (apply Qle_shift_div_l; [done|lra]).
  assert (Hxd : (x == x / M * M)%Q) by (field; lra).
  destruct (Qfloor_bounds (x / M)) as [Hk1 Hk2].
  unfold js_rem. fold M. rewrite (trunc_floor _ Hd).
  destruct (rest_range _ _ M x Hk1 Hk2 HM Hxd) as [Hr1 Hr2].
  pose proof (Qfloor_nonneg _ Hd) as Hk0. pose proof (Qfloor_nonneg _ Hr1) as Hl0.
  destruct (Qfloor_bounds (x - M * inject_Z (Qfloor (x / M)))) as [Hl1 Hl2].
  revert Hk0 Hl0 Hl1 Hl2 Hr2. generalize (Qfloor (x - M * inject_Z (Qfloor (x / M)))) as lo.
  generalize (Qfloor (x / M)) as k. intros k lo Hk0 Hl0 Hl1 Hl2 Hr2. cbn zeta. split_and!; try done.
  - rewrite Zlt_Qlt. fold M. lra.
  - rewrite inject_Z_plus, inject_Z_mult. fold M. lra.
  - rewrite !inject_Z_plus, inject_Z_mult. fold M. change (inject_Z 1) with 1%Q. lra.
Qed.

(** The units of the age: how many seconds the two shown units have, and their names. *)
Definition age_units : list (Z * Z * string * string) :=
  [(60, 1, "m ", "s"); (3600, 60, "h ", "m"); (86400, 3600, "d ", "h")].

(** [text] names the whole units of [age], and the error is below the smaller one. *)
Definition tells_age (text : string) (age : Q) : Prop :=
  exists big small ub us hi lo,
    (big, small, ub, us) ∈ age_units /\
    text = (twoDigit hi +:+ ub +:+ twoDigit lo +:+ us) +:+ " ago" /\
    0 <= hi /\ 0 <= lo /\ lo * small < big /\
    (inject_Z (hi * big + lo * small) <= age < inject_Z (hi * big + (lo + 1) * small))%Q.

Lemma Qfloor_div_div x a b c :
  0 < a -> 0 < b -> c = a * b -> Qfloor (x / inject_Z c) = Qfloor (x / inject_Z a / inject_Z b).
Proof.
  intros Ha%inject_pos Hb%inject_pos ->. apply Qfloor_comp. rewrite inject_Z_mult. field. split; lra.
Qed.

Lemma tells_age_unit next small m big ub us :
  (0 <= next)%Q -> 0 < small -> 0 < m -> big = small * m -> (big, small, ub, us) ∈ age_units ->
  let hi := Qfloor (next / inject_Z big) in
  let lo := Qfloor (js_rem (next / inject_Z small) m) in
  tells_age ((twoDigit hi +:+ ub +:+ twoDigit lo +:+ us) +:+ " ago") next.
Proof.
  intros Hn Hs Hm -> Hin hi lo. pose proof (inject_pos _ Hs) as HS.
  assert (Hx : (0 <= next / inject_Z small)%Q) by (apply Qle_shift_div_l; [done|lra]).
  destruct (units_split (next / inject_Z small) m hi Hx Hm) as (H1 & H2 & H3 & H4).
  { unfold hi. by apply Qfloor_div_div. }
  exists (small * m), small, ub, us, hi, lo. fold lo in H2, H3, H4.
  assert (Hd : (next == next / inject_Z small * inject_Z small)%Q) by (field; lra).
  split_and!; try done; [nia|nia|..].
  - replace (hi * (small * m) + lo * small) with ((hi * m + lo) * small) by lia.
    rewrite inject_Z_mult, Hd. by apply Qmult_le_compat_r; [|lra].
  - replace (hi * (small * m) + (lo + 1) * small) with ((hi * m + lo + 1) * small) by lia.
    rewrite inject_Z_mult, Hd. by apply Qmult_lt_r.
Qed.

Lemma js_rem_one x m : (0 <= x)%Q -> 0 < m -> Qfloor (js_rem x m) = Qfloor (js_rem (x / inject_Z 1) m).
Proof.
  intros Hx Hm%inject_pos. assert (Hd : (x / inject_Z 1 == x)%Q) by (field; lra).
  assert (Hp : (0 <= x / inject_Z m)%Q) by (apply Qle_shift_div_l; [done|lra]).
  assert (He : (x / inject_Z 1 / inject_Z m == x / inject_Z m)%Q) by (field; lra).
  unfold js_rem. rewrite !trunc_floor, (Qfloor_comp _ _ He) by (try rewrite He; done).
  apply Qfloor_comp. lra.
Qed.

Lemma formatted_tells_age next : (0 <= next)%Q -> tells_age (getFormattedTimeToDisplay next) next.
Proof.
  intros Hn. unfold getFormattedTimeToDisplay.
  destruct (Qle_bool next 3599); [|destruct (Qle_bool next 86399)].
  - pose proof (tells_age_unit next 1 60 60 "m " "s" Hn) as H. cbn zeta in H.
    rewrite js_rem_one by done. apply H; try done. by left.
  - apply (tells_age_unit next 60 60 3600 "h " "m" Hn); try done. do 1 right. by left.
  - apply (tells_age_unit next 3600 24 86400 "d " "h" Hn); try done. do 2 right. by left.
Qed.

(** The timer runs unless the last node had no time. *)
Lemma timer_tracked evs p :
  ticking p = negb (timerRemoved p) ->
  ticking (age_run p evs) = negb (timerRemoved (age_run p evs)).
Proof.
  revert p. induction evs as [|ev evs IH]; intros p Hp; [done|]. cbn. apply IH.
  destruct ev as [now [n|]| | |]; cbn; try done.
  - unfold listenToActiveNodesOverviewNode, updateTimeInView, write.
    destruct (truthy_onum _); cbn; destruct (view p); cbn; try done;
      destruct (timerRemoved p); cbn; by rewrite ?Hp.
  - unfold updateTimeInView, write. destruct (ticking p) eqn:E; cbn; [|congruence].
    destruct (view p); cbn; congruence.
Qed.

Lemma ticks_add p k :
  ticking p = true -> view p = true ->
  let p' := age_run p (replicate k ATick) in
  (secondsPassed p' == secondsPassed p + inject_Z (Z.of_nat k))%Q /\
  (innerText p = getFormattedTimeToDisplay (secondsPassed p) ->
   innerText p' = getFormattedTimeToDisplay (secondsPassed p')).
Proof.
  revert p. induction k as [|k IH]; intros p Ht Hv; cbn zeta; [split; [symmetry; apply Qplus_0_r|done]|].
  unfold age_run. cbn [replicate fold_left age_step].
  rewrite Ht. unfold updateTimeInView, write. cbn [view]. rewrite Hv. cbn [fst].
  destruct (IH (mkAge (a_node p) (ticking p) (secondsPassed p + 1) (timeReference p) (timerRemoved p) true
    (getFormattedTimeToDisplay (secondsPassed p + 1)))) as [H1 H2]; [done|done|].
  split; [|intros _; by apply H2].
  unfold age_run in H1. rewrite H1. cbn [secondsPassed]. rewrite Nat2Z.inj_succ, <- Z.add_1_r, inject_Z_plus.
  change (inject_Z 1) with 1%Q. lra.
Qed.

Lemma tells_age_comp text a b : (a == b)%Q -> tells_age text a -> tells_age text b.
Proof.
  intros E (big & small & ub & us & hi & lo & ? & ? & ? & ? & ? & H1 & H2).
  exists big, small, ub, us, hi, lo. rewrite E in H1, H2. done.
Qed.

(** A node with a time starts the count anew, and the timer runs. *)
Lemma node_starts_count p n t now :
  bestTipReceivedTimestamp n = Some t -> t <> 0 -> view p = true -> ticking p = negb (timerRemoved p) ->
  let p' := fst (age_step p (ANode now (Some n))) in
  ticking p' = true /\ view p' = true /\ secondsPassed p' = (inject_Z (now - t) / 1000 + 1)%Q /\
  innerText p' = getFormattedTimeToDisplay (secondsPassed p').
Proof.
  intros Hn Ht Hv Hk. cbn. unfold listenToActiveNodesOverviewNode. rewrite Hn. cbn [truthy_onum default].
  assert (truthyZ t = true) as -> by (unfold truthyZ; by apply negb_true_iff, Z.eqb_neq).
  unfold updateTimeInView, write. cbn. rewrite Hv. cbn. split; [|done].
  destruct (timerRemoved p); [done|]. by rewrite Hk.
Qed.

(** Whatever the side panel has gone through, once its view is there and a node
    comes whose best tip was received at [t], the text after [k] seconds of its timer
    tells the age of the tip, counted one second ahead, in the two units that fit it. *)
Theorem age_follows_clock evs n t now k :
  bestTipReceivedTimestamp n = Some t -> t <> 0 -> t <= now ->
  view (age_run age_open evs) = true ->
  tells_age (innerText (age_run age_open (evs ++ ANode now (Some n) :: replicate k ATick)))
    (inject_Z (now - t) / 1000 + inject_Z (Z.of_nat k + 1))%Q.
Proof.
  intros Hn Ht Hle Hv.
  destruct (node_starts_count _ n t now Hn Ht Hv (timer_tracked evs age_open eq_refl)) as (H1 & H2 & H3 & H4).
  replace (age_run age_open _) with
    (age_run (fst (age_step (age_run age_open evs) (ANode now (Some n)))) (replicate k ATick))
    by (unfold age_run; by rewrite fold_left_app).
  destruct (ticks_add _ k H1 H2) as [H5 H6]. rewrite (H6 H4).
  rewrite H3 in H5. assert (Hd : (0 <= inject_Z (now - t) / 1000)%Q).
  { apply Qle_shift_div_l; [lra|]. rewrite Qmult_0_l. change 0%Q with (inject_Z 0). rewrite <- Zle_Qle. lia. }
  assert (Hz : (0 <= inject_Z (Z.of_nat k))%Q) by (change 0%Q with (inject_Z 0); rewrite <- Zle_Qle; lia).
  eapply tells_age_comp, formatted_tells_age; rewrite H5; [|lra].
  rewrite inject_Z_plus. change (inject_Z 1) with 1%Q. lra.
Qed.

(** ** The tips of the live view *)

Section LiveProperties.
Context `{TableSorter NodesLive.BlockEvent} `{!ItemToggler string} (isDesktop : bool).
Implicit Types (l : Live) (n : NodesLive.LiveNode).

#[local] Notation step := (live_step isDesktop).
#[local] Notation run := (live_run isDesktop).

Lemma live_run_app l evs evs' :
  run l (evs ++ evs') = match run l evs with Ok l' => run l' evs' | Throw e => Throw e end.
Proof.
  revert l. induction evs as [|ev evs IH]; intros l; [done|]. cbn. by destruct (step l ev).
Qed.

(** The toolbar has the nodes of the store. *)
Definition synced l : Prop := t_nodes (bar l) = NodesLive.nodes (store l).

(** The [i]-th node is active, shown in the toolbar and named by the address. *)
Definition at_tip l (i : nat) : Prop :=
  exists n, NodesLive.nodes (store l) !! i = Some n /\
    NodesLive.activeNode (store l) = Some n /\ t_node (bar l) = Some n /\ address l = tip n.

Lemma listenToBestTip_nodes b o : t_nodes (listenToBestTip b o) = t_nodes b.
Proof. by destruct o. Qed.

Lemma listenToBestTip_route b o : tipFromRoute (listenToBestTip b o) = tipFromRoute b.
Proof. by destruct o. Qed.

Lemma select_tip l h :
  exists l', apply_outs isDesktop l (selectNode h) = Ok l' /\ address l' = h /\
    NodesLive.nodes (store l') = NodesLive.nodes (store l) /\ t_nodes (bar l') = t_nodes (bar l) /\
    tipFromRoute (bar l') = tipFromRoute (bar l) /\
    (forall n, List.find (NodesLive.has_tip h) (NodesLive.nodes (store l)) = Some n ->
       NodesLive.activeNode (store l') = Some n /\ t_node (bar l') = Some n) /\
    (List.find (NodesLive.has_tip h) (NodesLive.nodes (store l)) = None -> store l' = store l).
Proof.
  unfold apply_outs, selectNode. cbn [fold_left apply_out]. unfold reduce_live. cbn [NodesLive.reducer].
  destruct (List.find _ _) as [m|] eqn:E; eexists; cbn;
    (split; [reflexivity|]); cbn; rewrite ?listenToBestTip_nodes, ?listenToBestTip_route; split_and!; naive_solver.
Qed.

Lemma synced_select l h l' : synced l -> apply_outs isDesktop l (selectNode h) = Ok l' -> synced l'.
Proof.
  intros Hs Hl. destruct (select_tip l h) as (l2 & H1 & _ & H3 & H4 & _).
  rewrite H1 in Hl. inv Hl. unfold synced in *. congruence.
Qed.

Lemma synced_found l o l' : synced l -> apply_outs isDesktop l (select_found o) = Ok l' -> synced l'.
Proof.
  destruct o as [n|]; cbn [select_found]; [apply synced_select|]. cbn. by intros Hs [= <-].
Qed.

Lemma step_synced l ev l' : synced l -> step l ev = Ok l' -> synced l'.
Proof.
  intros Hs. destruct ev as [payload| | | | |]; cbn [live_step].
  - unfold reduce_live. cbn [NodesLive.reducer]. unfold listenToNodes.
    destruct (tipFromRoute _); cbn [bar store].
    + by apply synced_select.
    + cbn. by intros [= <-].
  - unfold selectFirstTip. destruct (head _); [|done]. by apply synced_select.
  - unfold selectPreviousNode. destruct (tip_index _) as [[|i]|]; [|by apply synced_found|];
      cbn; by intros [= <-].
  - by apply synced_found.
  - unfold selectLastTip. destruct (last_item _); [|done]. by apply synced_select.
  - unfold reduce_live. cbn [NodesLive.reducer]. intros [= <-]. unfold synced. cbn.
    by rewrite listenToBestTip_nodes.
Qed.

Lemma run_synced l evs l' : synced l -> run l evs = Ok l' -> synced l'.
Proof.
  revert l. induction evs as [|ev evs IH]; intros l Hs; cbn; [by intros [= <-]|].
  destruct (step l ev) as [l1|] eqn:E; [|done]. apply IH. by eapply step_synced.
Qed.

Lemma open_synced param : synced (live_open isDesktop param).
Proof. unfold synced. cbn. destruct param as [t|]; [|done]. cbn. by destruct (truthy_str t). Qed.

(** Choosing the tip of the [i]-th node moves there when the tips differ. *)
Lemma select_moves l i n :
  synced l -> NoDup (tip <$> NodesLive.nodes (store l)) -> NodesLive.nodes (store l) !! i = Some n ->
  exists l', apply_outs isDesktop l (selectNode (tip n)) = Ok l' /\ at_tip l' i /\ synced l' /\
    NodesLive.nodes (store l') = NodesLive.nodes (store l).
Proof.
  intros Hs Hd Hi. destruct (select_tip l (tip n)) as (l' & H1 & H2 & H3 & H4 & _ & H5 & _).
  destruct (H5 n) as [H6 H7].
  { apply (find_by_key tip); [done|by eapply list_elem_of_lookup_2|by apply bool_decide_eq_true|].
    intros y. by rewrite <- (bool_decide_eq_true (tip y = tip n)). }
  exists l'. split; [done|]. split; [|split; [unfold synced in *; congruence|done]].
  exists n. rewrite H3. done.
Qed.

Lemma tip_index_at l i :
  synced l -> NoDup (tip <$> NodesLive.nodes (store l)) -> at_tip l i -> tip_index (bar l) = Some i.
Proof.
  intros Hs Hd (n & Hi & _ & Hn & _). unfold tip_index. rewrite Hs, Hn. cbn.
  destruct (findIndex_complete (NodesLive.has_tip (tip n)) _ i n Hi) as (j & Hj & _).
  { by apply bool_decide_eq_true. }
  rewrite Hj. f_equal. destruct (findIndex_Some _ _ _ Hj) as (m & Hm & Ht%bool_decide_eq_true & _).
  apply (NoDup_lookup _ j i (tip n) Hd); rewrite list_lookup_fmap.
  - rewrite Hm. cbn. by f_equal.
  - by rewrite Hi.
Qed.

Lemma first_moves l :
  synced l -> NoDup (tip <$> NodesLive.nodes (store l)) -> NodesLive.nodes (store l) <> [] ->
  exists l', step l LFirst = Ok l' /\ at_tip l' 0 /\ synced l' /\
    NodesLive.nodes (store l') = NodesLive.nodes (store l).
Proof.
  intros Hs Hd Hne. cbn [live_step]. unfold selectFirstTip. rewrite Hs.
  destruct (NodesLive.nodes (store l)) as [|m ns] eqn:E; [done|].
  cbn. rewrite <- E in *. apply select_moves; [done|done|by rewrite E].
Qed.

(** One press: the neighbour, or nothing at an end of the list. *)
Definition neighbour (len : nat) (i : nat) (ev : LiveEvent) : nat :=
  match ev with
  | LFirst => 0
  | LPrevious => pred i
  | LNext => if (S i <? len)%nat then S i else i
  | LLast => pred len
  | _ => i
  end.

Definition is_press (ev : LiveEvent) : bool :=
  match ev with LLoaded _ | LToggleSidePanel => false | _ => true end.

Lemma press_moves l i ev :
  synced l -> NoDup (tip <$> NodesLive.nodes (store l)) -> at_tip l i -> is_press ev = true ->
  exists l', step l ev = Ok l' /\ at_tip l' (neighbour (length (NodesLive.nodes (store l))) i ev) /\ synced l' /\
    NodesLive.nodes (store l') = NodesLive.nodes (store l).
Proof.
  intros Hs Hd Ha Hev. pose proof (tip_index_at l i Hs Hd Ha) as Hi. pose proof Ha as (n & Hn & _).
  pose proof (lookup_lt_Some _ _ _ Hn) as Hlen.
  destruct ev; try done; [|cbn [live_step neighbour]..].
  - apply first_moves; [done|done|]. intros E. by rewrite E in Hlen; apply Nat.nlt_0_r in Hlen.
  - unfold selectPreviousNode. rewrite Hi, Hs. destruct i as [|i]; [by exists l|].
    destruct (lookup_lt_is_Some_2 (NodesLive.nodes (store l)) i) as [m Hm]; [lia|].
    rewrite Hm. by apply select_moves.
  - unfold selectNextNode. rewrite Hi, Hs. destruct (Nat.ltb_spec (S i) (length (NodesLive.nodes (store l)))) as [Hlt|Hge].
    + destruct (lookup_lt_is_Some_2 _ _ Hlt) as [m Hm]. rewrite Hm. by apply select_moves.
    + rewrite lookup_ge_None_2 by lia. by exists l.
  - unfold selectLastTip, last_item. rewrite Hs, last_lookup.
    destruct (lookup_lt_is_Some_2 (NodesLive.nodes (store l)) (pred (length (NodesLive.nodes (store l))))) as [m Hm]; [lia|].
    rewrite Hm. by apply select_moves.
Qed.

(** The buttons of the live toolbar walk along the list of best tips. On a page
    with a tip, whose tips differ, any sequence of presses after the first one of
    First raises nothing and ends at the tip that the sequence says, never leaving the
    list; that tip is the active node of the store, the one the toolbar shows and the
    one the address names. *)
Theorem tips_walk param evs l presses :
  run (live_open isDesktop param) evs = Ok l ->
  NodesLive.nodes (store l) <> [] -> NoDup (tip <$> NodesLive.nodes (store l)) ->
  forallb is_press presses = true ->
  exists l', run l (LFirst :: presses) = Ok l' /\ NodesLive.nodes (store l') = NodesLive.nodes (store l) /\
    at_tip l' (fold_left (neighbour (length (NodesLive.nodes (store l)))) presses 0%nat).
Proof.
  intros Hl Hne Hd Hp. pose proof (run_synced _ _ _ (open_synced param) Hl) as Hs.
  destruct (first_moves l Hs Hd Hne) as (l1 & H1 & H2 & H3 & H4).
  cbn [live_run]. rewrite H1. clear H1 Hl. rewrite <- H4 in Hd |- *. clear Hne Hs H4 l.
  revert l1 Hd H2 H3. generalize 0%nat as i. induction presses as [|ev presses IH]; intros i l1 Hd H2 H3; cbn.
  { by exists l1. }
  cbn in Hp. apply andb_prop in Hp as [Hev Hp].
  destruct (press_moves l1 i ev H3 Hd H2 Hev) as (l2 & E2 & Ha2 & Hs2 & Hn2). rewrite E2, <- Hn2.
  apply IH; [done|by rewrite Hn2|by rewrite Hn2|done].
Qed.

(** The address names the tip of the active node, and none is left to be opened. *)
Definition opened (t : string) l : Prop :=
  address l = Some t /\ tipFromRoute (bar l) = None /\
  exists n, NodesLive.activeNode (store l) = Some n /\ tip n = Some t.

Definition has_the_tip (t : string) (payload : list NodesLive.LiveNode) : Prop := Some t ∈ tip <$> payload.

Lemma find_tip t payload :
  has_the_tip t payload ->
  exists n, List.find (NodesLive.has_tip (Some t)) payload = Some n /\ tip n = Some t.
Proof.
  intros (n & Ht & Hn)%list_elem_of_fmap.
  destruct (find_is_Some (NodesLive.has_tip (Some t)) payload n Hn) as [m Hm]; [by apply bool_decide_eq_true|].
  exists m. split; [done|]. by apply find_Some_elem in Hm as [_ Hm%bool_decide_eq_true].
Qed.

Lemma load_keeps_opened t l payload :
  opened t l -> has_the_tip t payload -> exists l', step l (LLoaded payload) = Ok l' /\ opened t l'.
Proof.
  intros (Ha & Hr & n & Hn & Ht) Hp. destruct (find_tip t payload Hp) as (m & Hm & Hmt).
  eexists. cbn [live_step]. unfold reduce_live. cbn [NodesLive.reducer]. rewrite Hn.
  unfold tip in Ht. rewrite Ht, Hm. cbn. unfold listenToNodes. cbn. rewrite Hr. cbn.
  split; [done|]. split; [done|]. split; [done|]. by exists m.
Qed.

Lemma first_load_opens t payload :
  truthy_str t = true -> has_the_tip t payload ->
  exists l, step (live_open isDesktop (Some t)) (LLoaded payload) = Ok l /\ opened t l.
Proof.
  intros Ht Hp. destruct (find_tip t payload Hp) as (m & Hm & Hmt).
  unfold live_open. cbn [listenToRoute]. rewrite Ht. cbn [live_step]. unfold reduce_live.
  cbn [store NodesLive.reducer bar fst]. unfold listenToNodes.
  rewrite listenToBestTip_route. cbn [tipFromRoute store bar address NodesLive.nodes NodesLive.initialState].
  match goal with |- context [apply_outs _ ?l _] => destruct (select_tip l (Some t)) as (l' & H1 & H2 & _ & _ & H5 & H6 & _) end.
  destruct (H6 m Hm) as [H7 _]. exists l'. split; [exact H1|]. split; [done|]. split; [by rewrite H5|]. by exists m.
Qed.

(** A link to a best tip opens that tip: when the first answer has it, and as long
    as every later answer has it, the active node of the store is one with that tip and
    the address goes on naming it. *)
Theorem link_opens_tip t payload payloads :
  truthy_str t = true -> has_the_tip t payload -> Forall (has_the_tip t) payloads ->
  exists l, run (live_open isDesktop (Some t)) (LLoaded payload :: (LLoaded <$> payloads)) = Ok l /\ opened t l.
Proof.
  intros Ht Hp Hps. cbn [live_run].
  assert (exists l1, step (live_open isDesktop (Some t)) (LLoaded payload) = Ok l1 /\ opened t l1) as (l1 & -> & H1).
  { by apply first_load_opens. }
  revert l1 H1. induction Hps as [|p ps Hp1 _ IH]; intros l1 H1; rewrite ?fmap_cons; cbn [live_run]; [by exists l1|].
  destruct (load_keeps_opened t l1 p H1 Hp1) as (l2 & -> & H2). by apply IH.
Qed.

(** Closing the side panel clears the active node: the next answer shows the last tip,
    while the address goes on naming the one that was open. *)
Lemma closing_moves_tip t l payload l' :
  opened t l -> NodesLive.openSidePanel (store l) = true ->
  run l [LToggleSidePanel; LLoaded payload] = Ok l' ->
  NodesLive.activeNode (store l') = last_item payload /\ address l' = Some t.
Proof.
  intros (Ha & Hr & n & Hn & Ht) Ho. cbn. unfold reduce_live. cbn. rewrite Ho. cbn.
  unfold reduce_live. cbn. destruct (last_item payload); cbn; unfold listenToNodes; cbn; rewrite Hr; cbn;
    by intros [= <-].
Qed.

(** A first answer without nodes uses the tip of the address up: an answer that has it
    afterwards shows the last tip. *)
Lemma late_tip_not_opened t payload l :
  truthy_str t = true -> run (live_open isDesktop (Some t)) [LLoaded []; LLoaded payload] = Ok l ->
  NodesLive.activeNode (store l) = last_item payload /\ address l = Some t.
Proof.
  intros Ht. unfold live_open. cbn. rewrite Ht. cbn. unfold reduce_live. cbn.
  unfold reduce_live. cbn. destruct (last_item payload); cbn; by intros [= <-].
Qed.

(** Without nodes the buttons of the first and the last tip raise an error. *)
Lemma no_tips_throw param : throws (step (live_open isDesktop param) LFirst) = true /\
  throws (step (live_open isDesktop param) LLast) = true.
Proof.
  destruct param as [t|]; [|done]. unfold live_open. cbn. by destruct (truthy_str t).
Qed.
End LiveProperties.

(** The map shows every block once, from the root to the best tip. *)
Lemma map_shows_all n :
  let m := blocks_map (Some n) in
  option_list (rootBlock m) ++ map_blocks m ++ option_list (bestTipBlock m) =
  reverse (blocks (NodesLive.overview n)).
Proof.
  cbn zeta. unfold blocks_map. cbn [fmap option_fmap option_map default].
  set (l := reverse _). destruct (length l =? 291)%nat; [destruct l as [|b l]|]; cbn [head tail]; [done|..].
  all: destruct l as [|c l _] using rev_ind; [done|].
  all: rewrite length_app; cbn [length]; rewrite Nat.add_1_r, Nat.sub_succ, Nat.sub_0_r, take_app_length.
  all: unfold last_item; by rewrite last_snoc.
Qed.

(** ** The overview of the attempts *)

Section SumLemmas.
Context {A : Type}.
Implicit Types (f : A -> Z) (l : list A).

Lemma largest_acc f l acc :
  let r := fold_left (fun acc n => if f n <? acc then acc else f n) l acc in
  acc <= r /\ (forall n, n ∈ l -> f n <= r) /\ (r = acc \/ r ∈ f <$> l).
Proof.
  revert acc. induction l as [|a l IH]; intros acc; cbn zeta; cbn [fold_left].
  { split_and!; [lia| |by left]. by intros n ?%not_elem_of_nil. }
  destruct (IH (if f a <? acc then acc else f a)) as (H1 & H2 & H3). rewrite fmap_cons.
  destruct (Z.ltb_spec (f a) acc); split_and!; try lia;
    try (intros n [->|Hn]%elem_of_cons; [lia|by apply H2]); destruct H3 as [->|H3]; set_solver.
Qed.

(** The largest value is the maximum of the attempts, zero included. *)
Lemma largest_max f l :
  (forall n, n ∈ l -> f n <= largest f l) /\ (largest f l = 0 \/ largest f l ∈ f <$> l).
Proof. destruct (largest_acc f l 0) as (_ & H2 & H3). done. Qed.

Lemma smallest_zero f l : (forall n, n ∈ l -> 0 <= f n) -> smallest f l = 0.
Proof.
  unfold smallest. induction l as [|a l IH]; intros Hl; [done|]. cbn.
  replace (if 0 <? f a then 0 else f a) with 0; [apply IH; set_solver|].
  assert (0 <= f a) by set_solver. destruct (Z.ltb_spec 0 (f a)); lia.
Qed.
End SumLemmas.

(** The reduction for the shortest times starts from zero, so zero is shown whatever
    the attempts took. *)
Lemma shortest_always_zero o nodes r :
  bootstrap_overview o nodes = Some r -> nodes <> [] ->
  (forall n, n ∈ nodes -> 0 <= NodesBootstrap.fetchedBlocksMin n /\ 0 <= NodesBootstrap.appliedBlocksMin n) ->
  o_fetchedBlocksMin r = 0 /\ o_appliedBlocksMin r = 0.
Proof.
  intros Hr Hne Hn. unfold bootstrap_overview in Hr. destruct nodes as [|a l]; [done|].
  cbn [length Nat.ltb Nat.leb] in Hr. inv Hr. cbn [o_fetchedBlocksMin o_appliedBlocksMin].
  split; apply smallest_zero; intros n ?; by apply Hn.
Qed.

(** The longest times are those of an attempt, and no attempt took longer. *)
Lemma longest_exact o nodes r n :
  bootstrap_overview o nodes = Some r -> n ∈ nodes ->
  NodesBootstrap.fetchedBlocksMax n <= o_fetchedBlocksMax r /\
  NodesBootstrap.appliedBlocksMax n <= o_appliedBlocksMax r.
Proof.
  intros Hr Hn. unfold bootstrap_overview in Hr. destruct nodes as [|a l]; [by apply not_elem_of_nil in Hn|].
  cbn [length Nat.ltb Nat.leb] in Hr. inv Hr. cbn [o_fetchedBlocksMax o_appliedBlocksMax].
  split; by apply largest_max.
Qed.

(** A concrete attempt with one block. *)
Definition sample_node (name : string) (t : option Z) (bs : list Block) : Node :=
  mkNode name (Some SYNCED) None None None t (Some name) None None None None None None None None bs.

(** The second screen numbers an attempt by its place in the sorted table, the table
    by its own number: with the latest attempt first they differ. *)
Lemma attempt_misnumbered `{HasValue} :
  let ref i := mkRef 0 (NodesBootstrap.mapBootstrapNode i (sample_node "a" None [])) in
  let p := fst (bpanel_step (fst (bpanel_step (mkBPanel None 0 0 []) (BNodes [ref 1%nat; ref 0%nat])))
             (BActive (Some (ref 1%nat)))) in
  activeScreen p = 1 /\ attempt_heading p = 1 /\ attempt_row (ref 1%nat) = 2.
Proof. done. Qed.

(** A block that was fetched and then applied is listed among the fetched ones and not
    counted among them. *)
Lemma fetched_list_longer `{HasValue} `{TableSorter Block} ls :
  let b := mkBlock 3 7 "a" "b" APPLIED (Some 10) (Some 20) (Some 30) (Some 40) (Some 10) (Some 10) true in
  let n := NodesBootstrap.mapBootstrapNode 0 (sample_node "a" None [b]) in
  NodesBootstrap.n_fetchedBlocks n = 0%nat /\ l_fetched (lists_step ls (BLActive (Some n))) = [b].
Proof.
  cbn zeta. split; [done|]. cbn. unfold sortBlocks.
  apply Permutation_singleton_r, sort_perm.
Qed.

(** The first node comes while the panel is built, before the element of the age. *)
Lemma age_missing_at_open now n :
  snd (age_step age_open (ANode now (Some n))) = Some no_element.
Proof.
  cbn. unfold listenToActiveNodesOverviewNode, updateTimeInView, write.
  by destruct (truthy_onum _).
Qed.

(** A tip of this moment is shown as one second old, and one of 59 minutes, 58 seconds
    and a half as no hour and 59 minutes. *)
Lemma age_one_ahead :
  innerText (age_run age_open [AView; ANode 1700000000000 (Some (sample_node "a" (Some 1700000000000) []))])
    = "00m 01s ago" /\
  innerText (age_run age_open [AView; ANode 1700003598500 (Some (sample_node "a" (Some 1700000000000) []))])
    = "00h 59m ago".
Proof. by vm_compute. Qed.

(** The timer goes on after the panel is destroyed. *)
Lemma timer_survives_panel evs :
  ticking (age_run age_open (evs ++ [ADestroyed])) = ticking (age_run age_open evs).
Proof. unfold age_run. by rewrite fold_left_app. Qed.

(** ** Witnesses *)

Lemma age_follows_clock_witness :
  tells_age (innerText (age_run age_open
    ([AView] ++ ANode 1700000065000 (Some (sample_node "a" (Some 1700000000000) [])) :: replicate 3 ATick)))
    (inject_Z (1700000065000 - 1700000000000) / 1000 + inject_Z (Z.of_nat 3 + 1))%Q.
Proof. apply age_follows_clock; [reflexivity|lia|lia|reflexivity]. Defined.

Definition live_tips : list NodesLive.LiveNode :=
  (fun s => NodesLive.mkLiveNode (sample_node s None []) 0 []) <$> ["a"; "b"; "c"].

Definition loaded_tips : Live :=
  match @live_run (unsorted _) item_toggler true (live_open true None) [LLoaded live_tips] with
  | Ok l => l
  | Throw _ => live_open true None
  end.

Lemma tips_walk_witness :
  exists l', @live_run (unsorted _) item_toggler true loaded_tips [LFirst; LNext; LNext; LNext; LPrevious] = Ok l' /\
    NodesLive.nodes (store l') = live_tips /\ at_tip l' 1.
Proof.
  apply (@tips_walk (unsorted _) item_toggler true None [LLoaded live_tips] loaded_tips
    [LNext; LNext; LNext; LPrevious]); [reflexivity|done| |reflexivity].
  apply (bool_decide_unpack _). reflexivity.
Defined.

Lemma link_opens_tip_witness :
  exists l, @live_run (unsorted _) item_toggler true (live_open true (Some "b"))
              [LLoaded live_tips; LLoaded live_tips] = Ok l /\ opened "b" l.
Proof.
  apply (@link_opens_tip (unsorted _) item_toggler true "b" live_tips [live_tips]); [reflexivity| |].
  - apply (bool_decide_unpack (Some "b" ∈ tip <$> live_tips)). reflexivity.
  - constructor; [|constructor]. apply (bool_decide_unpack (Some "b" ∈ tip <$> live_tips)). reflexivity.
Defined.

End NodesPages.
