(* ===== verification/WorkPoolPage.v ===== *)
(** * The page of the work pool

    [features/snarks/work-pool] of [src/frontend/src/app]: the toolbar, the
    statistics, the side panel, the details of a job with the accounts of its ledger
    witnesses, and the page, around the store of [WorkPool].

    The details of a job are whatever JSON the node sends; reading a field of [null]
    or of [undefined] raises, and so does iterating over what is not a list. *)

From Stdlib Require Import Ascii.
From stdpp Require Import base list strings sets.
From S2P Require Import Prelude SharedLib WorkPool Shell.
Open Scope Z_scope.

Module WorkPoolPage.
Import WorkPool.

Inductive Out :=
| Do (a : Action)
| GoPage
| SetTab (tab : Z)
| SetAccount (account : option Z)
| OpenWindow (url : string).

(** ** JSON *)

(** The fields of an object are in the order of [Object.keys]. *)
Inductive Json :=
| JNull
| JBool (b : bool)
| JNum (n : Z)
| JStr (s : string)
| JArr (l : list Json)
| JObj (fields : list (string * Json)).

Definition truthy (v : Json) : bool :=
  match v with
  | JNull => false
  | JBool b => b
  | JNum n => truthyZ n
  | JStr s => truthy_str s
  | JArr _ | JObj _ => true
  end.

Fixpoint lookup_field (key : string) (fields : list (string * Json)) : option Json :=
  match fields with
  | [] => None
  | (k, v) :: fields' => if String.eqb k key then Some v else lookup_field key fields'
  end.

(** [v.key]; [None] is [undefined]. *)
Definition read (v : option Json) (key : string) : result (option Json) :=
  match v with
  | None | Some JNull => Throw ("Cannot read properties of undefined (reading '" +:+ key +:+ "')")
  | Some (JObj fields) => Ok (lookup_field key fields)
  | Some _ => Ok None
  end.

(** ** The accounts of a job *)

(** [getAccountsRecursively(nodes)]: the accounts found, and whether the iteration
    came to its end. Text can be iterated, its characters have no fields. *)
Fixpoint getAccountsRecursively (nodes : Json) : list Json * bool :=
  match nodes with
  | JArr l =>
    (fix go (l : list Json) : list Json * bool :=
       match l with
       | [] => ([], true)
       | node :: l' =>
         let '(found, ended) :=
           match node with
           | JNull => ([], false)
           | JObj fields =>
             let own := match lookup_field "Account" fields with
                        | Some a => if truthy a then [a] else []
                        | None => []
                        end in
             let '(below, ended) :=
               (fix sub (fields : list (string * Json)) : list Json * bool :=
                  match fields with
                  | [] => ([], true)
                  | (k, v) :: fields' =>
                    if String.eqb k "Node"
                    then match v with JArr _ => getAccountsRecursively v | _ => ([], true) end
                    else sub fields'
                  end) fields in
             (own ++ below, ended)
           | _ => ([], true)
           end in
         if ended then let '(more, ended') := go l' in (found ++ more, ended') else (found, false)
       end) l
  | JStr _ => ([], true)
  | _ => ([], false)
  end.

Record Account := mkAccount { job : nat; first : bool; data : Json }.

(** One of the two passes; what was found before an error is kept. *)
Definition pass (name : string) (j : Json) : list Json :=
  match read (Some j) "Base" with
  | Throw _ => []
  | Ok base =>
    match read base name with
    | Throw _ => []
    | Ok witness =>
      match read witness "tree" with
      | Throw _ => []
      | Ok tree =>
        match read tree "Node" with
        | Ok (Some nodes) => fst (getAccountsRecursively nodes)
        | _ => []
        end
      end
    end
  end.

Definition job_accounts (idx : nat) (j : Json) : list Account :=
  (mkAccount idx true <$> pass "first_pass_ledger_witness" j) ++
  (mkAccount idx false <$> pass "second_pass_ledger_witness" j).

(** [detail.job[Object.keys(detail.job)[0]]]; the keys of a list are its indices and
    those of text its places. *)
Definition first_value (v : Json) : option Json :=
  match v with
  | JObj ((_, v) :: _) => Some v
  | JArr (v :: _) => Some v
  | _ => None
  end.

Definition getAccounts (detail : option Json) : list Account :=
  match read detail "job" with
  | Ok (Some v) =>
    match first_value v with
    | Some (JArr jobs) => concat (mapi job_accounts jobs)
    | _ => []
    end
  | _ => []
  end.

(** ** The list of accounts *)

Section Accounts.
Context `{ItemToggler Z}.

(** The open accounts, and the one of the address. *)
Record AccountsList := mkAccounts { opened : list Z; inAddress : option Z }.

Definition toggleOpening (l : AccountsList) (index : Z) : AccountsList :=
  let opened' := toggleItem (opened l) index in
  mkAccounts opened'
    (if includes opened' index then Some index
     else if (length opened' =? 0)%nat then None else inAddress l).

(** A change of the address; the parameter is text, which only the empty one is not
    true. *)
Definition accounts_route (l : AccountsList) : AccountsList :=
  match inAddress l with
  | Some account => if includes (opened l) account then l else toggleOpening l account
  | None => l
  end.

Inductive AccountsEvent := AClick (index : Z) | ARoute.

Definition accounts_step (l : AccountsList) (ev : AccountsEvent) : AccountsList :=
  match ev with AClick i => toggleOpening l i | ARoute => accounts_route l end.
End Accounts.

(** ** The details *)

Record Details := mkDetails { accounts : list Account; selectedTabIndex : option Z }.

Inductive DetailsEvent :=
| DDetail (detail : option Json)
| DSelectTab (num : Z)
| DRoute (tab : option Z).           (* the first address; its parameter as a number *)

Definition details_step (d : Details) (ev : DetailsEvent) : Details * list Out :=
  match ev with
  | DDetail detail => (mkDetails (getAccounts detail) (selectedTabIndex d), [])
  | DSelectTab num | DRoute (Some num) =>
    (mkDetails (accounts d) (Some num), match ev with DSelectTab _ => [SetTab num] | _ => [] end)
  | DRoute None => (mkDetails (accounts d) (Some 0), [SetTab 0])
  end.

(** The tab of the specification reads [detail.id] as soon as it is built. *)
Definition specs_job_id (detail : option Json) : result (option Json) := read detail "id".

Definition specs_url (url : string) (jobId : string) : string := url +:+ "/snarker/job/spec?id=" +:+ jobId.

(** ** The toolbar and the statistics *)

Record Counts := mkCounts { total : nat; committed : nat; snarked : nat; available : nat }.

Definition listenToWorkPool (wp : list Pool) : Counts :=
  {| total := length wp;
     committed := count_if (fun w => is_some (commitment w)) wp;
     snarked := count_if (fun w => is_some (snark w)) wp;
     available := count_if (fun w => negb (is_some (commitment w)) && negb (is_some (snark w))) wp |}.

Definition allFilters : list string := ["local"; "remote"].
Definition toggleFilter (f : string) : list Out := [Do (ToggleFilter f)].

(** The values of the two graphs; zero is dropped. *)
Definition latencies (f : Pool -> option Z) (wp : list Pool) : list Z :=
  List.filter truthyZ (omap f wp).

Definition graph_values (wp : list Pool) : list Z * list Z :=
  (latencies commitmentRecLatency wp, latencies snarkRecLatency wp).

(** ** The side panel *)

Record Panel := mkPanel { activePool : option Pool; activeStep : Z; dropdown : bool }.

Fixpoint before_query (s : string) : string :=
  match s with
  | EmptyString => EmptyString
  | String c s' => if Ascii.eqb c "?"%char then EmptyString else String c (before_query s')
  end.

(** [url.split('/').pop().split('?')[0]] *)
Definition jobId (url : string) : string := before_query (default "" (last (Shell.split_slash url))).

Definition scan_state_url (origin : string) (node : option string) (url : string) : string :=
  origin +:+ "/snarks/scan-state?node=" +:+ default "undefined" node +:+ "&jobId=" +:+ jobId url.

Inductive PanelEvent :=
| PActive (wp : option Pool)
| PToggle
| PRemove
| PDropdown
| PDetach
| PScanState (origin url : string) (node : option string).

Definition panel_step (p : Panel) (ev : PanelEvent) : Panel * list Out :=
  match ev with
  | PActive wp => (mkPanel wp (if is_some wp then 1 else 0) (dropdown p), [])
  | PToggle => (p, [GoPage; Do ToggleSidePanel])
  | PRemove => (p, [Do (SetActiveWorkPool None); GoPage])
  | PDropdown => (mkPanel (activePool p) (activeStep p) (negb (dropdown p)), [])
  | PDetach => (mkPanel (activePool p) (activeStep p) false, [])
  | PScanState origin url node => (p, [OpenWindow (scan_state_url origin node url)])
  end.

(** ** The page *)

Inductive PageEvent := GNode | GOpen (open : bool) | GDestroy.

Definition page_step (isOpen : bool) (ev : PageEvent) : bool * list Out :=
  match ev with
  | GNode => (isOpen, [Do Init; Do GetWorkPool])
  | GOpen open =>
    (if open && negb isOpen then true else if negb open && isOpen then false else isOpen, [])
  | GDestroy => (isOpen, [Do Close])
  end.

(** ** The accounts are found *)

(** The tree of a ledger witness: accounts, hashes of what is left out, and inner nodes with
    their hash, as the node of this repository serialises them
    ([MinaBaseSparseLedgerBaseStableV2] and [AvailableJob] of its Rust sources). *)
Inductive Tree := TAccount (fields : list (string * Json)) | THash (h : string) | TNode (h : string) (l r : Tree).

Fixpoint encode (t : Tree) : Json :=
  match t with
  | TAccount fields => JObj [("Account", JObj fields)]
  | THash h => JObj [("Hash", JStr h)]
  | TNode h l r => JObj [("Node", JArr [JStr h; encode l; encode r])]
  end.

Fixpoint leaves (t : Tree) : list Json :=
  match t with
  | TAccount fields => [JObj fields]
  | THash _ => []
  | TNode _ l r => leaves l ++ leaves r
  end.

Record Witness := mkWitness { indexes : Json; depth : Json; tree : Tree }.

Definition encode_witness (w : Witness) : Json :=
  JObj [("indexes", indexes w); ("depth", depth w); ("tree", encode (tree w))].

(** A job proves a transaction, with the ledger before each of its passes, or merges
    two proofs. *)
Inductive Job :=
| Base (transaction state_hash statement init_stack : Json) (first second : Witness) (slot : Json)
| Merge (l r : Json).

Definition encode_job (j : Job) : Json :=
  match j with
  | Base tx sh st stack w1 w2 slot =>
    JObj [("Base", JObj [("transaction_with_info", tx); ("state_hash", sh); ("statement", st); ("init_stack", stack);
                         ("first_pass_ledger_witness", encode_witness w1);
                         ("second_pass_ledger_witness", encode_witness w2); ("block_global_slot", slot)])]
  | Merge l r => JObj [("Merge", JObj [("left", l); ("right", r)])]
  end.

(** The node sends one job or a pair of them, each under the name of its case. *)
Inductive OneOrTwo := One (j : Job) | Two (j1 j2 : Job).

Definition encode_jobs (d : OneOrTwo) : Json :=
  match d with
  | One j => JObj [("One", encode_job j)]
  | Two j1 j2 => JObj [("Two", JArr [encode_job j1; encode_job j2])]
  end.

Definition encode_detail (time id commitment snark : Json) (d : OneOrTwo) : Json :=
  JObj [("time", time); ("id", id); ("job", encode_jobs d); ("commitment", commitment); ("snark", snark)].

(** The accounts below the root, from left to right. *)
Definition below_root (t : Tree) : list Json :=
  match t with TNode _ l r => leaves l ++ leaves r | _ => [] end.

Definition accounts_of (idx : nat) (j : Job) : list Account :=
  match j with
  | Base _ _ _ _ w1 w2 _ =>
    (mkAccount idx true <$> below_root (tree w1)) ++ (mkAccount idx false <$> below_root (tree w2))
  | Merge _ _ => []
  end.

(** A list is walked node by node, until a node raises. *)
Lemma walk_cons node l :
  getAccountsRecursively (JArr (node :: l)) =
  (let '(found, ended) := getAccountsRecursively (JArr [node]) in
   if ended then let '(more, ended') := getAccountsRecursively (JArr l) in (found ++ more, ended')
   else (found, false)).
Proof.
  cbn. match goal with |- (let '(found, ended) := ?e in _) = _ => destruct e as [found []] end; [|done].
  by rewrite app_nil_r.
Qed.

Lemma walk_hash h l : getAccountsRecursively (JArr (JStr h :: l)) = getAccountsRecursively (JArr l).
Proof.
  rewrite walk_cons. change (getAccountsRecursively (JArr [JStr h])) with (@nil Json, true).
  cbv beta iota. by destruct (getAccountsRecursively (JArr l)).
Qed.

Lemma walk_tree t : getAccountsRecursively (JArr [encode t]) = (leaves t, true).
Proof.
  induction t as [f|h|h l IHl r IHr]; [done|done|].
  transitivity (let '(below, ended) := getAccountsRecursively (JArr [JStr h; encode l; encode r]) in (below, ended)).
  { cbn. repeat match goal with |- context [let '(_, _) := ?e in _] => destruct e as [? []] end;
      by rewrite ?app_nil_r. }
  by rewrite walk_hash, walk_cons, IHl, IHr.
Qed.

Lemma walk_root t : match read (Some (encode t)) "Node" with
                    | Ok (Some nodes) => fst (getAccountsRecursively nodes)
                    | _ => []
                    end = below_root t.
Proof.
  destruct t as [f|h|h l r]; [done|done|].
  change (fst (getAccountsRecursively (JArr [JStr h; encode l; encode r])) = leaves l ++ leaves r).
  by rewrite walk_hash, walk_cons, !walk_tree.
Qed.

Lemma job_accounts_encoded idx j : job_accounts idx (encode_job j) = accounts_of idx j.
Proof.
  destruct j as [tx sh st stack w1 w2 slot|l r]; [|done]. unfold job_accounts, accounts_of.
  rewrite <- !walk_root. done.
Qed.

(** C21: For a pair of jobs the accounts tab lists exactly the accounts below the roots of the
    ledger witnesses of its transactions: for every transaction in order first those of the
    first pass and then those of the second, each from left to right in its tree and marked
    with the number of the transaction and the pass. For a single job, which the node sends
    without a list around it, the tab is empty. *)
Theorem accounts_listed time id commitment snark d :
  getAccounts (Some (encode_detail time id commitment snark d)) =
  match d with
  | One _ => []
  | Two j1 j2 => accounts_of 0 j1 ++ accounts_of 1 j2
  end.
Proof.
  destruct d as [j|j1 j2]; [by destruct j|].
  change (getAccounts _) with (concat (mapi job_accounts [encode_job j1; encode_job j2])).
  cbn [mapi imap concat compose]. by rewrite !job_accounts_encoded, app_nil_r.
Qed.

Definition sample_job : Job :=
  let w := mkWitness JNull JNull (TNode "r" (TAccount [("balance", JNum 1)]) (THash "h")) in
  Base JNull JNull JNull JNull w w JNull.

(** The accounts of a single job are not shown. *)
Lemma single_job_empty time id commitment snark :
  length (accounts_of 0 sample_job) = 2%nat /\
  getAccounts (Some (encode_detail time id commitment snark (One sample_job))) = [].
Proof. done. Qed.

(** ** Further facts *)

(** Every job of the pool is available, committed, snarked or both of these. *)
Lemma counts_cover wp :
  let c := listenToWorkPool wp in
  (total c + count_if (fun w => is_some (commitment w) && is_some (snark w)) wp =
   available c + committed c + snarked c)%nat.
Proof.
  cbn. induction wp as [|w wp IH]; [done|]. rewrite !count_if_cons. cbn.
  destruct (commitment w), (snark w); cbn in *; lia.
Qed.

Ltac chars :=
  repeat match goal with
  | |- context [String ?c ?s +:+ ?t] => change (String c s +:+ t) with (String c (s +:+ t))
  | |- context [EmptyString +:+ ?t] => change (EmptyString +:+ t) with t
  end; cbn [before_query Shell.has_char Shell.split_slash] in *.

Lemma before_query_plain s q : Shell.has_char "?" s = false -> before_query (s +:+ String "?" q) = s.
Proof.
  induction s as [|c s IH]; chars; [done|]. intros [-> Hs]%orb_false_elim. by rewrite IH.
Qed.

(** A slash begins another part. *)
Lemma split_slash_ends p s :
  exists w ws, Shell.split_slash (p +:+ String "/" s) = w :: ws ++ Shell.split_slash s.
Proof.
  induction p as [|c p (w & ws & E)]; chars; [by exists "", []|]. rewrite E.
  destruct (Ascii.eqb c "/"); [by exists "", (w :: ws)|by exists (String c w), ws].
Qed.

Lemma last_split p s :
  Shell.has_char "/" s = false -> last (Shell.split_slash (p +:+ String "/" s)) = Some s.
Proof.
  intros Hs. destruct (split_slash_ends p s) as (w & ws & ->). rewrite Shell.split_slash_word by done.
  by rewrite app_comm_cons, last_snoc.
Qed.

(** The window of the scan state is opened at the job of the address. *)
Lemma job_of_address p id q :
  Shell.has_char "/" id = false -> Shell.has_char "?" id = false -> Shell.has_char "/" q = false ->
  jobId (p +:+ String "/" (id +:+ String "?" q)) = id.
Proof.
  intros H1 H2 H3. unfold jobId. rewrite last_split; [by apply before_query_plain|].
  clear H2. induction id as [|c id IH]; chars; [done|]. apply orb_false_elim in H1 as [-> H1]. by apply IH.
Qed.

(** A node that is [null] raises inside the walk: the accounts after it are missing. *)
Lemma null_hides_rest fields :
  getAccountsRecursively (JArr [JNull; encode (TAccount fields)]) = ([], false).
Proof. done. Qed.

(** The tab of the specification opened by its address raises: the detail is not there. *)
Lemma specs_before_detail : throws (specs_job_id None) = true.
Proof. done. Qed.

(** Closing the account of the address while another is open leaves it there, and the
    next change of the address opens it again. *)
Lemma closed_account_reopens :
  let step := @accounts_step _ item_toggler in
  let l := step (step (step (mkAccounts [] None) (AClick 1)) (AClick 2)) (AClick 2) in
  opened l = [1] /\ inAddress l = Some 2 /\ 2 ∈ opened (step l ARoute).
Proof. cbn zeta. split_and!; [done|done|]. apply (bool_decide_unpack _). reflexivity. Qed.

End WorkPoolPage.
