(* ===== verification/FuzzingPage.v ===== *)
(** * The page of the fuzzing reports

    [features/fuzzing] of [src/frontend/src/app]: the panel with the code of a file
    ([fuzzing-code.component.ts]) and the page ([fuzzing.component.ts]), around the
    store of [Fuzzing].

    The panel zips the active file with its details: the streams are paired one by
    one, and a value waits until the other stream has one too. Values pass when they
    are other objects than the ones shown, so the model names the file objects: those
    of the list, and the copies the reducer makes when the details arrive. *)

From Stdlib Require Import QArith Qcanon.
From stdpp Require Import base list strings.
From S2P Require Import Prelude SharedLib Fuzzing.
Open Scope Z_scope.

Module FuzzingPage.
Import Fuzzing.

Inductive Ref := Listed (n : nat) | Copy (n : nat).

#[export] Instance Ref_eq_dec : EqDecision Ref.
Proof. solve_decision. Defined.

(** ** The panel of the code *)

Record Code := mkCode {
  file : option Ref;
  fileDetails : option FileDetails;
  files_waiting : list (option Ref);
  details_waiting : list (option FileDetails);
  codeHighlighted : bool;
  activeLineFromUrl : option Z;        (* [None] is not a number, or nothing yet *)
  lineToScroll : option Z;
  scrollTop : Z
}.

Definition code_open : Code := mkCode None None [] [] true None None 0.

(** What the zipped pair does. *)
Definition show_pair (c : Code) (f : option Ref) (d : option FileDetails)
    (fs : list (option Ref)) (ds : list (option FileDetails)) : Code :=
  mkCode f d fs ds (codeHighlighted c) (activeLineFromUrl c)
    (if truthy_onum (lineToScroll c) then None else lineToScroll c)
    (if truthy_onum (lineToScroll c) then (default 0 (lineToScroll c) - 1) * 24 else 0).

(** [zip]: a pair is taken as soon as both sides have a value. *)
Definition pair_up (c : Code) : Code :=
  match files_waiting c, details_waiting c with
  | f :: fs, d :: ds => show_pair c f d fs ds
  | _, _ => c
  end.

Definition set_waiting (c : Code) (fs : list (option Ref)) (ds : list (option FileDetails)) : Code :=
  mkCode (file c) (fileDetails c) fs ds (codeHighlighted c) (activeLineFromUrl c) (lineToScroll c) (scrollTop c).

Definition on_file (c : Code) (f : option Ref) : Code :=
  if bool_decide (file c = f) then c
  else pair_up (set_waiting c (files_waiting c ++ [f]) (details_waiting c)).

Definition on_details (c : Code) (d : option FileDetails) : Code :=
  if bool_decide (fileDetails c = d) then c
  else pair_up (set_waiting c (files_waiting c) (details_waiting c ++ [d])).

(** [listenToRouteChange()]: the parameter, if there is one, with its number, if it is
    one. *)
Definition on_route (c : Code) (line : option (option Z)) : Code :=
  mkCode (file c) (fileDetails c) (files_waiting c) (details_waiting c) (codeHighlighted c) (mjoin line)
    (if negb (truthy_onum (activeLineFromUrl c)) && is_some line then mjoin line else lineToScroll c)
    (scrollTop c).

Definition toggleCodeHighlighting (c : Code) : Code :=
  mkCode (file c) (fileDetails c) (files_waiting c) (details_waiting c) (negb (codeHighlighted c))
    (activeLineFromUrl c) (lineToScroll c) (scrollTop c).

(** The tooltip over a piece of a line that has hits. *)
Definition hits_text (h : option string) : option string := (fun h => "Hits: " +:+ h) <$> h.

(** ** The panel with the store *)

(** The object of the active file, and the number of the next copy. *)
Record World := mkWorld { store : State; object : option Ref; next_copy : nat; code : Code }.

Inductive Event :=
| Select (f : option (nat * File))          (* a file of the list, or none: [closeSidePanel] *)
| Answer (d : FileDetails)
| Directory_ (d : Directory)
| Route (line : option (option Z))
| Highlight.

Section World.
Context `{TableSorter File}.

(** The store hands on what changed: the file first, then the details. *)
Definition emit (w : World) (s : State) (o : option Ref) (next : nat) : World :=
  let c1 := if bool_decide (o = object w) then code w else on_file (code w) o in
  let c2 := if bool_decide (activeFileDetails s = activeFileDetails (store w)) then c1
            else on_details c1 (activeFileDetails s) in
  mkWorld s o next c2.

Definition step (w : World) (ev : Event) : World :=
  match ev with
  | Select f =>
    emit w (fuzzingReducer (store w) (GetFileDetails (snd <$> f))) ((fun p => Listed (fst p)) <$> f) (next_copy w)
  | Answer d =>
    let s := fuzzingReducer (store w) (GetFileDetailsSuccess d) in
    if bool_decide (Some d = activeFileDetails (store w)) then w
    else emit w s (Some (Copy (next_copy w))) (S (next_copy w))
  | Directory_ d =>
    let s := fuzzingReducer (store w) (SetActiveDirectory d) in
    if bool_decide (Some (fullName d) = fullName <$> activeDirectory (store w)) then w
    else emit w s None (next_copy w)
  | Route line => mkWorld (store w) (object w) (next_copy w) (on_route (code w) line)
  | Highlight => mkWorld (store w) (object w) (next_copy w) (toggleCodeHighlighting (code w))
  end.

Definition run (w : World) (evs : list Event) : World := fold_left step evs w.

Definition opened : World := mkWorld initialState None 0 code_open.
End World.

(** ** The page *)

Record Page := mkPage { isActiveRow : bool; p_directory : option Directory }.

Inductive PageEvent := GTimer | GFile (f : ActiveFile) | GDirectory (d : option Directory) | GDestroy.

Definition has_file (f : ActiveFile) : bool := match f with NoFile => false | _ => true end.

(** The timer runs from the first address on, every five seconds. *)
Definition page_step (p : Page) (ev : PageEvent) : Page * list Action :=
  match ev with
  | GTimer => (p, GetDirectories :: (if is_some (p_directory p) then [GetFiles] else []))
  | GFile f =>
    (mkPage (if has_file f && negb (isActiveRow p) then true
             else if negb (has_file f) && isActiveRow p then false else isActiveRow p) (p_directory p), [])
  | GDirectory d => (mkPage (isActiveRow p) d, [])
  | GDestroy => (p, [Close])
  end.

(** ** The code that is shown *)

Definition copy_below (n : nat) (o : option Ref) : Prop :=
  match o with Some (Copy k) => (k < n)%nat | _ => True end.

(** No details wait; while details are shown a file waits for the next ones, or the
    active file will when it goes. *)
Definition in_step (w : World) : Prop :=
  let c := code w in
  details_waiting c = [] /\ fileDetails c = activeFileDetails (store w) /\
  copy_below (next_copy w) (object w) /\ copy_below (next_copy w) (file c) /\
  Forall (copy_below (next_copy w)) (files_waiting c) /\
  (is_Some (fileDetails c) -> files_waiting c <> [] \/ (is_Some (file c) /\ is_Some (object w))).

Lemma on_file_idle c f :
  details_waiting c = [] ->
  on_file c f = if bool_decide (file c = f) then c else set_waiting c (files_waiting c ++ [f]) [].
Proof.
  intros Hd. unfold on_file. destruct (bool_decide _); [done|]. unfold pair_up. cbn. rewrite Hd.
  by destruct (files_waiting c ++ [f]).
Qed.

Lemma on_details_idle c d f fs :
  details_waiting c = [] -> files_waiting c = f :: fs -> fileDetails c <> d ->
  on_details c d = show_pair c f d fs [].
Proof.
  intros Hd Hf Hn. unfold on_details. rewrite bool_decide_eq_false_2 by done.
  unfold pair_up. cbn. by rewrite Hd, Hf.
Qed.

Lemma copy_below_mono n m o : (n <= m)%nat -> copy_below n o -> copy_below m o.
Proof. destruct o as [[|k]|]; cbn; [done|lia|done]. Qed.

(** The store hands on a file, and other details only with a file to pair them with. *)
Lemma emit_in_step w s o next :
  in_step w -> (next_copy w <= next)%nat -> copy_below next o ->
  (activeFileDetails s <> activeFileDetails (store w) ->
   (o <> object w /\ file (code w) <> o /\ is_Some o) \/
   (activeFileDetails s = None /\
     (files_waiting (code w) <> [] \/ (o <> object w /\ file (code w) <> o)))) ->
  in_step (emit w s o next).
Proof.
  intros (H1 & H2 & H3 & H4 & H5 & H6) Hn Ho Hd.
  pose proof (copy_below_mono _ _ _ Hn H4) as H4'.
  assert (H5' : Forall (copy_below next) (files_waiting (code w)))
    by (eapply Forall_impl; [exact H5|intros x; by apply copy_below_mono]).
  unfold emit. set (c1 := if bool_decide (o = object w) then code w else on_file (code w) o).
  assert (Hc : c1 = code w /\ (o = object w \/ file (code w) = o) \/
               c1 = set_waiting (code w) (files_waiting (code w) ++ [o]) []).
  { unfold c1. destruct (bool_decide_reflect (o = object w)); [by left; auto|].
    rewrite on_file_idle by done. destruct (bool_decide_reflect (file (code w) = o)); [by left; auto|by right]. }
  clearbody c1. destruct (bool_decide_reflect (activeFileDetails s = activeFileDetails (store w))) as [E|E].
  - destruct Hc as [[-> Ho']| ->]; (split; [done|split; [cbn; congruence|]]); (split; [done|split; [done|]]); cbn.
    + split; [done|]. intros Hs. destruct (H6 Hs) as [|[Hf Hj]]; [by left|].
      destruct Ho' as [->|Ef]; [by right|right]. by rewrite <- Ef.
    + split; [apply Forall_app; by repeat constructor|]. intros _. left. by destruct (files_waiting (code w)).
  - specialize (Hd E).
    assert (exists f fs, files_waiting c1 = f :: fs /\ copy_below next f /\ Forall (copy_below next) fs /\
      (is_Some (activeFileDetails s) -> fs <> [] \/ (is_Some f /\ is_Some o)))
      as (f & fs & Hf & Hb & Hbs & Hj).
    { destruct Hc as [[-> Ho']| ->]; cbn.
      - destruct Hd as [(? & ? & _)|[Hnone [Hw|[? ?]]]]; [naive_solver| |naive_solver].
        destruct (files_waiting (code w)) as [|f fs]; [done|]. inv H5'. exists f, fs.
        rewrite Hnone. split_and!; try done.
      - destruct (files_waiting (code w)) as [|f fs]; cbn.
        + exists o, []. split_and!; try done. intros Hs. right.
          destruct Hd as [(_ & _ & ?)|[Hnone _]]; [done|]. rewrite Hnone in Hs. by destruct Hs.
        + inv H5'. exists f, (fs ++ [o]). split_and!; try done; [apply Forall_app; by repeat constructor|].
          intros _. left. by destruct fs. }
    assert (details_waiting c1 = [] /\ fileDetails c1 = activeFileDetails (store w)) as [Hd1 Hd2].
    { by destruct Hc as [[-> _]| ->]. }
    rewrite (on_details_idle c1 (activeFileDetails s) f fs) by (try done; congruence).
    split_and!; try done.
Qed.

Section InStep.
Context `{TableSorter File}.

Lemma step_in_step w ev : in_step w -> in_step (step w ev).
Proof.
  intros Hw. pose proof Hw as (H1 & H2 & H3 & H4 & H5 & H6).
  destruct ev as [f|d|d|line|]; cbn [step].
  - apply emit_in_step; [done|lia|by destruct f|done].
  - destruct (bool_decide_reflect (Some d = activeFileDetails (store w))); [done|].
    apply emit_in_step; [done|lia|cbn; lia|]. intros _. left.
    split_and!; [intros E|intros E|done]; [rewrite <- E in H3; cbn in H3; lia|rewrite E in H4; cbn in H4; lia].
  - destruct (bool_decide_reflect (Some (fullName d) = fullName <$> activeDirectory (store w))) as [E|E]; [done|].
    apply emit_in_step; [done|lia|done|]. cbn [fuzzingReducer]. rewrite bool_decide_eq_false_2 by done. cbn.
    intros Hc. right. split; [done|]. destruct (H6 ltac:(rewrite H2; destruct (activeFileDetails _); [eauto|done])) as [|[Hf Ho]].
    + by left.
    + right. destruct Hf as [? ->], Ho as [? ->]. done.
  - done.
  - done.
Qed.

(** C19: The panel shows the details of the store: whatever files are chosen, closed and
    answered in whatever order, and whatever directory is chosen, the zipped streams never
    lag behind, so the lines that are shown are those of the last details. *)
Theorem code_shows_details evs :
  fileDetails (code (run opened evs)) = activeFileDetails (store (run opened evs)) /\
  details_waiting (code (run opened evs)) = [].
Proof.
  assert (in_step (run opened evs)) as (H1 & H2 & _); [|done].
  unfold run. assert (in_step opened) as Ho by (repeat split; try done; by intros [? ?]).
  revert Ho. generalize opened as w. induction evs as [|ev evs IH]; intros w Hw; [done|].
  by apply IH, step_in_step.
Qed.

(** A click on a line puts it into the address, which marks it for scrolling: the next
    file that is opened is scrolled to that line. *)
Lemma clicked_line_scrolls :
  let f n := (n, mkFile "a" 0%Qc "a") in
  scrollTop (code (run opened [Select (Some (f 0%nat)); Answer (mkDetails "a" 0 []); Route (Some (Some 40));
                               Select (Some (f 1%nat)); Answer (mkDetails "b" 0 [])])) = 936.
Proof. reflexivity. Qed.

(** The zipped file is not the one whose details are shown: each answer leaves a copy of
    its file behind, which is paired with the next details. *)
Lemma zipped_file_lags :
  let f n := (n, mkFile "a" 0%Qc "a") in
  let w := run opened [Select (Some (f 0%nat)); Answer (mkDetails "a" 0 []);
                       Select (Some (f 1%nat)); Answer (mkDetails "b" 0 [])] in
  fileDetails (code w) = Some (mkDetails "b" 0 []) /\ file (code w) = Some (Copy 0) /\
  files_waiting (code w) = [Some (Listed 1); Some (Copy 1)].
Proof. split_and!; reflexivity. Qed.
End InStep.

End FuzzingPage.
