(* ===== verification/MempoolPage.v ===== *)
(** * The page of the mempool

    [features/mempool] of [src/frontend/src/app]: the filters with their search field
    ([mempool-filters.component.ts]), the side panel ([mempool-side-panel.component.ts])
    and the page ([mempool.component.ts]), around the store of [Mempool].

    The search field reports its value when it differs from the one reported last, and
    a report takes effect when 200 milliseconds pass without another. *)

From stdpp Require Import base list strings.
From S2P Require Import Prelude SharedLib Mempool.
Open Scope Z_scope.

Module MempoolPage.
Import Mempool.

(** ** The filters *)

(** The text of the field, the value reported last and the one that waits. *)
Record Field := mkField { text : string; reported : option string; waiting : option string }.

Definition setValue (f : Field) (v : string) : Field :=
  if bool_decide (reported f = Some v) then mkField v (reported f) (waiting f)
  else mkField v (Some v) (Some v).

Definition set_search (fs : Filters) (v : string) : Filters :=
  mkFilters (zkApp fs) (payment fs) (delegation fs) (Some v).
Definition set_kind (fs : Filters) (k : TransactionKind) (b : bool) : Filters :=
  match k with
  | ZK_APP => mkFilters b (payment fs) (delegation fs) (search fs)
  | PAYMENT => mkFilters (zkApp fs) b (delegation fs) (search fs)
  | DELEGATION => mkFilters (zkApp fs) (payment fs) b (search fs)
  end.

(** The numbers of transactions next to the boxes. *)
Definition kind_counts (l : list Transaction) : nat * nat * nat :=
  (count_if (fun t => bool_decide (kind t = ZK_APP)) l, count_if (fun t => bool_decide (kind t = PAYMENT)) l,
   count_if (fun t => bool_decide (kind t = DELEGATION)) l).

(** The component with the store; its own [filters] are those of the store. *)
Record Page := mkPage { field : Field; store : State }.

(** [listenToFilters()]: the store of the page always has a text to search for. *)
Definition listenToFilters (f : Field) (fs : Filters) : Field :=
  match search fs with
  | Some s => if bool_decide (s = text f) then f else setValue f s
  | None => f
  end.

(** [changeFilter(filter, value)] and what the store answers. *)
Definition changeFilters (p : Page) (fs : Filters) : Page :=
  let s := mempoolReducer (store p) (ChangeFilters fs) in
  mkPage (listenToFilters (field p) (filters s)) s.

Inductive Event :=
| Type_ (v : string)
| Box (k : TransactionKind) (b : bool)
| Quiet                                     (* 200 milliseconds without a report *)
| Loaded (l : list Transaction).

Definition step (p : Page) (ev : Event) : Page :=
  match ev with
  | Type_ v => mkPage (setValue (field p) v) (store p)
  | Box k b => changeFilters p (set_kind (filters (store p)) k b)
  | Quiet =>
    match waiting (field p) with
    | Some v =>
      let p' := mkPage (mkField (text (field p)) (reported (field p)) None) (store p) in
      changeFilters p' (set_search (filters (store p)) (trim v))
    | None => p
    end
  | Loaded l => mkPage (field p) (mempoolReducer (store p) (GetTxsSuccess l))
  end.

Definition run (p : Page) (evs : list Event) : Page := fold_left step evs p.

Definition opened : Page := mkPage (mkField "" None None) initialState.

(** ** The page and the side panel *)

Inductive PageEvent := GNode | GTimer | GActive (tx : option Transaction) | GDestroy.

(** The timer asks first after ten seconds and then every three. *)
Definition page_step (isActiveRow : bool) (ev : PageEvent) : bool * list Action :=
  match ev with
  | GNode => (isActiveRow, [Init])
  | GTimer => (isActiveRow, [GetTxs])
  | GActive tx =>
    (if is_some tx && negb isActiveRow then true
     else if negb (is_some tx) && isActiveRow then false else isActiveRow, [])
  | GDestroy => (isActiveRow, [Close])
  end.

(** [closeSidePanel()], after the navigation to the page. *)
Definition closeSidePanel : list Action := [SetActiveTx None].

(** ** The search settles *)

Lemma trim_right_idem s : trim_right (trim_right s) = trim_right s.
Proof.
  induction s as [|c s IH]; [done|]. cbn [trim_right]. destruct (trim_right s) as [|d t] eqn:E.
  - destruct (is_blank c) eqn:Hc; [done|]. cbn [trim_right]. by rewrite Hc.
  - cbn [trim_right]. cbn [trim_right] in IH. by rewrite IH.
Qed.

(** Text that begins with no blank. *)
Definition no_blank_first (s : string) : Prop :=
  match s with EmptyString => True | String c _ => is_blank c = false end.

Lemma trim_left_first s : no_blank_first (trim_left s).
Proof. induction s as [|c s IH]; [done|]. cbn [trim_left]. by destruct (is_blank c) eqn:E. Qed.

Lemma trim_left_id s : no_blank_first s -> trim_left s = s.
Proof. destruct s as [|c s]; [done|]. cbn. by intros ->. Qed.

Lemma trim_right_first s : no_blank_first s -> no_blank_first (trim_right s).
Proof.
  destruct s as [|c s]; [done|]. cbn [no_blank_first trim_right]. intros Hc.
  destruct (trim_right s); [|done]. by rewrite Hc.
Qed.

Lemma trim_idem s : trim (trim s) = trim s.
Proof.
  unfold trim. rewrite (trim_left_id (trim_right (trim_left s))); [apply trim_right_idem|].
  apply trim_right_first, trim_left_first.
Qed.

(** What waits is the text of the field; when nothing waits it is the searched one; the
    table is the filtered pool. *)
Definition tracked (p : Page) : Prop :=
  (reported (field p) = Some (text (field p)) \/ (reported (field p) = None /\ text (field p) = "")) /\
  (waiting (field p) = Some (text (field p)) \/
   (waiting (field p) = None /\ search (filters (store p)) = Some (text (field p)))) /\
  (exists s, search (filters (store p)) = Some s /\ trim s = s) /\
  txs (store p) = filterTxs (allTxs (store p)) (filters (store p)).

Lemma setValue_waits f v :
  (reported f = Some (text f) \/ (reported f = None /\ text f = "")) -> v <> text f \/ reported f = None ->
  setValue f v = mkField v (Some v) (Some v).
Proof.
  intros Hr Hv. unfold setValue. rewrite bool_decide_eq_false_2; [done|].
  intros E. destruct Hr as [Hr|[Hr _]], Hv as [Hv|Hv]; congruence.
Qed.

Lemma type_tracked p v : tracked p -> tracked (step p (Type_ v)) /\ text (field (step p (Type_ v))) = v.
Proof.
  intros (Hr & Hw & Hs & Ht). cbn [step field store].
  destruct (decide (v = text (field p) /\ reported (field p) <> None)) as [[-> Hn]|Hv].
  - destruct Hr as [Hr|[Hr _]]; [|done]. unfold setValue. rewrite bool_decide_eq_true_2 by done.
    split; [|done]. repeat split; try done. cbn. by left.
  - rewrite setValue_waits; [|done|].
    + split; [|done]. repeat split; try done; cbn; by left.
    + destruct (reported (field p)) eqn:E; [|by right]. left. intros ->. by apply Hv.
Qed.

Lemma listen_tracked p s f :
  (reported f = Some (text f) \/ (reported f = None /\ text f = "")) ->
  (waiting f = Some (text f) \/ waiting f = None) ->
  filters s = p -> (exists t, search p = Some t /\ trim t = t) -> txs s = filterTxs (allTxs s) (filters s) ->
  tracked (mkPage (listenToFilters f p) s).
Proof.
  intros Hr Hw <- (t & Hp & Ht) Hx. unfold listenToFilters. rewrite Hp.
  destruct (bool_decide_reflect (t = text f)) as [->|Hne].
  - repeat split; cbn; [done| |by eauto|done]. destruct Hw; [by left|by right].
  - rewrite setValue_waits; [|done|by left]. repeat split; cbn; [by left|by left|by eauto|done].
Qed.

Lemma step_tracked p ev : tracked p -> tracked (step p ev).
Proof.
  intros Hp. pose proof Hp as (Hr & Hw & (t & Hs & Ht) & Hx). destruct ev as [v|k b| |l]; cbn [step].
  - by apply type_tracked.
  - apply listen_tracked; [done| |done| |done]; [destruct Hw as [|[? _]]; by auto|].
    exists t. by destruct k.
  - destruct (waiting (field p)) as [v|] eqn:E; [|done].
    apply listen_tracked; [done|by right|done| |done]. exists (trim v). split; [done|apply trim_idem].
  - repeat split; try done. cbn. by eauto.
Qed.

Lemma run_tracked evs : tracked (run opened evs).
Proof.
  assert (tracked opened) as Ho.
  { repeat split; [by right|by right|by exists ""]. }
  unfold run. revert Ho. generalize opened. induction evs as [|ev evs IH]; intros p Hp; [done|].
  by apply IH, step_tracked.
Qed.

(** After the field was quiet the text is searched for without the blanks around it. *)
Lemma quiet_settles p :
  tracked p -> trim (text (field p)) = text (field p) ->
  let p' := step p Quiet in
  text (field p') = text (field p) /\ waiting (field p') = None /\
  search (filters (store p')) = Some (text (field p)).
Proof.
  intros (Hr & Hw & _ & _) Ht. cbn [step]. destruct Hw as [Hn|[Hn Hs]]; rewrite Hn; [|done].
  unfold changeFilters, listenToFilters. cbn. rewrite Ht, bool_decide_eq_true_2 by done. done.
Qed.

(** C18: The search settles: whatever was typed, clicked and loaded before, once a text is
    typed and the field is quiet twice, the field shows it without the blanks around it,
    the store searches for exactly that, nothing waits, and the table is the loaded
    transactions under the filters. *)
Theorem search_settles evs v :
  let p := run opened (evs ++ [Type_ v; Quiet; Quiet]) in
  text (field p) = trim v /\ search (filters (store p)) = Some (trim v) /\ waiting (field p) = None /\
  txs (store p) = filterTxs (allTxs (store p)) (filters (store p)).
Proof.
  cbn zeta. unfold run. rewrite fold_left_app. cbn [fold_left].
  destruct (type_tracked _ v (run_tracked evs)) as [H1 H2]. unfold run in H1, H2.
  set (p1 := step _ (Type_ v)) in *. clearbody p1.
  assert (tracked (step p1 Quiet) /\ text (field (step p1 Quiet)) = trim v) as [H3 H4].
  { split; [by apply step_tracked|]. destruct (decide (trim v = v)) as [E|E].
    - rewrite E, <- H2. apply quiet_settles; [done|by rewrite H2].
    - pose proof H1 as (Hr & Hw & (t & Hs & Ht) & _). cbn [step]. destruct Hw as [->|[_ Hs']].
      + unfold changeFilters, listenToFilters. cbn. rewrite H2, bool_decide_eq_false_2 by congruence.
        unfold setValue. by destruct (bool_decide _).
      + rewrite H2 in Hs'. congruence. }
  destruct (quiet_settles _ H3) as (H5 & H6 & H7); [by rewrite H4, trim_idem|].
  rewrite H5, H4 in *. split_and!; try done. apply (step_tracked _ Quiet H3).
Qed.

(** A box that is clicked before the field was quiet puts the text of before back. *)
Lemma typed_text_lost : text (field (run opened [Type_ "B62q"; Box ZK_APP false])) = "".
Proof. reflexivity. Qed.

(** A blank at the end of a text is taken away when the typing pauses. *)
Lemma blank_taken_away : text (field (run opened [Type_ "B62 "; Quiet])) = "B62".
Proof. reflexivity. Qed.

End MempoolPage.
