(* ===== verification/SplitsPage.v ===== *)
(** * The page of the network splits

    [features/network/splits] of [src/frontend/src/app]: the side panel with the sets of peers
    ([dashboard-splits-side-panel.component.ts]), the toolbar and the page, around the
    store of [NetworkSplits].

    The peers of one answer are told apart by their addresses. A request clears the
    active peer; one that is chosen while the answer is awaited is not told apart from
    the new peer with its address. *)

From stdpp Require Import base list strings sets.
From S2P Require Import Prelude SharedLib NetworkSplits.
Open Scope Z_scope.

Module SplitsPage.
Import Splits.

Inductive Out := Do (a : Action) | GoPeer (address : string) | GoTopology.

(** ** The side panel *)

Record Panel := mkPanel {
  sets : list PeerSet;
  expandedItems : list Z;
  activePeer : option Peer;
  idFromRoute : option string
}.

Definition has_peer (p : Peer) (s : PeerSet) : bool := existsb (has_address (address p)) (set_peers s).

(** [sets.findIndex(set => set.peers.includes(peer))], which is -1 without a set or a
    peer. *)
Definition set_index (ss : list PeerSet) (p : option Peer) : Z :=
  match p ≫= (fun p => findIndex (has_peer p) ss) with
  | Some i => Z.of_nat i
  | None => -1
  end.

Definition same_peer (a b : option Peer) : bool := bool_decide (address <$> a = address <$> b).

Section Panel.
Context `{ItemToggler Z}.

(** [selectPeer(peer)] *)
Definition selectPeer (p : Panel) (peer : option Peer) : list Out :=
  match peer with Some q => [GoPeer (address q)] | None => [] end ++
  (if same_peer (activePeer p) peer then [GoTopology; Do (SetActivePeer None)]
   else [Do (SetActivePeer peer)]).

Definition toggleExpandedItems (p : Panel) (i : Z) : Panel * list Out :=
  let expanded := toggleItem (expandedItems p) i in
  if is_some (activePeer p) && negb (includes expanded (set_index (sets p) (activePeer p)))
  then let p' := mkPanel (sets p) expanded None (idFromRoute p) in (p', selectPeer p' None)
  else (mkPanel (sets p) expanded (activePeer p) (idFromRoute p), []).

(** [selectSplitsPeersAndLinks()] *)
Definition on_sets (p : Panel) (peers : list Peer) (ss : list PeerSet) : Panel * list Out :=
  let p1 := mkPanel ss (expandedItems p) (activePeer p) (idFromRoute p) in
  let '(p2, outs) :=
    match idFromRoute p ≫= (fun a => List.find (has_address a) peers) with
    | Some peer =>
      let '(p2, outs) := toggleExpandedItems p1 (set_index ss (Some peer)) in
      (mkPanel ss (expandedItems p2) (activePeer p2) None, outs ++ selectPeer p2 (Some peer))
    | None => (p1, [])
    end in
  (if (length ss =? 1)%nat then mkPanel ss [0] (activePeer p2) (idFromRoute p2) else p2, outs).

(** [listenToActivePeerChanges()] *)
Definition on_active (p : Panel) (peer : option Peer) : Panel :=
  let i := set_index (sets p) peer in
  mkPanel (sets p) (if includes (expandedItems p) i then expandedItems p else toggleItem (expandedItems p) i)
    peer (idFromRoute p).

Inductive PanelEvent :=
| PRoute (addr : option string)
| PSets (peers : list Peer) (ss : list PeerSet)
| PActive (peer : option Peer)
| PToggle (i : Z)
| PSelect (peer : Peer)
| PClose.

Definition panel_step (p : Panel) (ev : PanelEvent) : Panel * list Out :=
  match ev with
  | PRoute addr =>
    (match addr with
     | Some a => if truthy_str a then mkPanel (sets p) (expandedItems p) (activePeer p) (Some a) else p
     | None => p
     end, [])
  | PSets peers ss => on_sets p peers ss
  | PActive peer => (on_active p peer, [])
  | PToggle i => toggleExpandedItems p i
  | PSelect peer => (p, selectPeer p (Some peer))
  | PClose => (p, [Do ToggleSidePanel])
  end.

(** The set of the active peer is expanded. *)
Definition active_shown (p : Panel) : Prop :=
  is_Some (activePeer p) -> set_index (sets p) (activePeer p) ∈ expandedItems p.

(** A change of the sets that keeps the set of the active peer where it is, as the
    sorting of the peers does, or that comes without an active peer. *)
Definition keeps_place (p : Panel) (ev : PanelEvent) : Prop :=
  match ev with
  | PSets _ ss =>
    is_Some (activePeer p) ->
    set_index ss (activePeer p) = set_index (sets p) (activePeer p) /\ 0 <= set_index ss (activePeer p)
  | _ => True
  end.

Lemma includes_elem (l : list Z) i : includes l i = true <-> i ∈ l.
Proof. unfold includes. by rewrite bool_decide_eq_true. Qed.

Lemma toggle_shown p i : active_shown (fst (toggleExpandedItems p i)).
Proof.
  unfold toggleExpandedItems, active_shown. destruct (activePeer p) as [q|] eqn:E; cbn.
  - destruct (includes _ _) eqn:Hi; cbn; [|by intros [? ?]]. intros _. by apply includes_elem.
  - by intros [? ?].
Qed.

Lemma set_index_single s p : 0 <= set_index [s] (Some p) -> set_index [s] (Some p) = 0.
Proof. unfold set_index. cbn. by destruct (has_peer p s). Qed.

(** Whatever the user does in the panel or the graph, the set of the active peer is
    expanded: collapsing it clears the active peer, and activating a peer expands its
    set. *)
Lemma active_set_expanded p ev :
  active_shown p -> keeps_place p ev -> active_shown (fst (panel_step p ev)).
Proof.
  intros Hp Hk. destruct ev as [[a|]|peers ss|peer|i|peer|]; cbn [panel_step fst]; try done.
  - by destruct (truthy_str a).
  - unfold on_sets. cbn in Hk.
    set (p1 := mkPanel ss (expandedItems p) (activePeer p) (idFromRoute p)).
    assert (active_shown p1) as H1.
    { intros Ha. cbn in Ha |- *. destruct (Hk Ha) as [-> _]. by apply Hp. }
    assert (forall q, activePeer q = activePeer p \/ activePeer q = None -> active_shown q -> sets q = ss ->
      active_shown (if (length ss =? 1)%nat then mkPanel ss [0] (activePeer q) (idFromRoute q) else q)) as Hq.
    { intros q Hq Hs Es. destruct ss as [|s [|s' ss]]; [done| |done]. cbn. intros Ha. cbn in *.
      destruct Hq as [Hq|Hq]; rewrite Hq in Ha |- *; [|by destruct Ha].
      destruct (Hk Ha) as [_ H0]. destruct Ha as [r Hr]. rewrite Hr in H0 |- *.
      rewrite set_index_single by done. by left. }
    destruct (_ ≫= _) as [peer|]; [|by apply (Hq p1); [left| |]].
    destruct (toggleExpandedItems p1 _) as [p2 outs] eqn:E.
    pose proof (toggle_shown p1 (set_index ss (Some peer))) as Ht. rewrite E in Ht. cbn in Ht.
    assert ((activePeer p2 = activePeer p \/ activePeer p2 = None) /\ sets p2 = ss) as [Ha Es].
    { unfold toggleExpandedItems in E. destruct (_ && _); inv E; cbn; auto. }
    apply (Hq (mkPanel ss (expandedItems p2) (activePeer p2) None)); [done| |done].
    unfold active_shown in *. cbn. by rewrite <- Es.
  - unfold on_active, active_shown. cbn. intros _. destruct (includes _ _) eqn:Hi; [by apply includes_elem|].
    apply toggleItem_absent; [|by right]. by rewrite <- includes_elem, Hi.
  - apply toggle_shown.
Qed.

(** Without an active peer the missing set counts as one more: it is put among the
    expanded ones. *)
Lemma missing_set_expanded : -1 ∈ expandedItems (on_active (mkPanel [] [] None None) None).
Proof. cbn. apply toggleItem_absent; [apply not_elem_of_nil|by right]. Qed.
End Panel.

(** ** The toolbar and the page *)

Record Toolbar := mkToolbar {
  setsLength : option nat;
  t_sets : list PeerSet;
  networkSplitTime : option string;
  networkMergeTime : option string;
  stats : option NodeCount;
  t_fetching : option bool
}.

Inductive ToolbarEvent :=
| TLoading (length : nat)
| TSets (ss : list PeerSet)
| TSplit (time : option string)
| TMerge (time : option string)
| TStats (s : option NodeCount)
| TSplitNodes | TRefresh | TMergeNodes.

(** Empty sets are not shown, so the last ones stay while new ones are loaded. *)
Definition toolbar_step (t : Toolbar) (ev : ToolbarEvent) : Toolbar * list Out :=
  let '(mkToolbar n ss st mt c f) := t in
  match ev with
  | TLoading l => (mkToolbar n ss st mt c (Some (0 <? l)%nat), [])
  | TSets ss' => (if (0 <? length ss')%nat then mkToolbar (Some (length ss')) ss' st mt c f else t, [])
  | TSplit time => (mkToolbar n ss time mt c f, [])
  | TMerge time => (mkToolbar n ss st time c f, [])
  | TStats s => (mkToolbar n ss st mt s f, [])
  | TSplitNodes => (t, [Do SplitNodes])
  | TRefresh => (t, [Do GetSplits])
  | TMergeNodes => (t, [Do MergeNodes])
  end.

(** The page shows the panel as the store says; it asks when it is opened. *)
Inductive PageEvent := GInit | GPanel (show : bool) | GDestroy.

Definition page_step (show : bool) (ev : PageEvent) : bool * list Out :=
  match ev with
  | GInit => (show, [Do GetSplits])
  | GPanel b => (b, [])
  | GDestroy => (show, [Do Close])
  end.
End SplitsPage.
