(* ===== verification/MemoryPage.v ===== *)
(** * The page of the memory

    [features/resources/memory] of [src/frontend/src/app]: the toolbar with its two
    dropdowns ([memory-resources-toolbar.component.ts]) and the page
    ([memory-resources.component.ts]), around the store of [MemoryResources]. *)

From stdpp Require Import base list strings sets.
From S2P Require Import Prelude SharedLib MemoryResources.
Open Scope Z_scope.

Module MemoryPage.
Import Memory.

(** ** The toolbar *)

Inductive Dropdown := GranularityDropdown | TreemapDropdown.

Record Toolbar := mkToolbar {
  t_active : option Resource;
  t_crumbs : list (option Resource);
  t_granularity : option Z;
  t_view : option TreemapView;
  overlay : option Dropdown
}.

Definition granularities : list Z := [1024; 512; 256; 128; 64; 32; 16; 8; 4].
Definition treemapOptions : list TreemapView := [BINARY; SQUARE; SLICE; DICE].

Inductive Event :=
| TState (s : State)
| TBack
| TOpen (d : Dropdown)
| TDetach
| TGranularity (g : Z)
| TView (v : TreemapView).

(** [back()]: the last crumb but one; a missing one is dispatched as [undefined]. *)
Definition back (t : Toolbar) : list (option Resource) :=
  if (length (t_crumbs t) <? 2)%nat then []
  else match t_crumbs t !! (length (t_crumbs t) - 2)%nat with Some r => [r] | None => [] end.

Inductive Out := Do (a : Action) | Activate (r : option Resource).

(** While there is no resource the toolbar keeps what it shows. The choice that is
    already made leaves its dropdown open. *)
Definition toolbar_step (t : Toolbar) (ev : Event) : Toolbar * list Out :=
  let set_overlay o := mkToolbar (t_active t) (t_crumbs t) (t_granularity t) (t_view t) o in
  match ev with
  | TState s =>
    (if is_some (resource s)
     then mkToolbar (activeResource s) (breadcrumbs s) (Some (granularity s)) (Some (treemapView s)) (overlay t)
     else t, [])
  | TBack => (t, Activate <$> back t)
  | TOpen d => (set_overlay (Some d), [])
  | TDetach => (set_overlay None, [])
  | TGranularity g =>
    if bool_decide (t_granularity t = Some g) then (t, []) else (set_overlay None, [Do (SetGranularity g)])
  | TView v =>
    if bool_decide (t_view t = Some v) then (t, []) else (set_overlay None, [Do (SetTreemapView v)])
  end.

(** ** The page *)

Inductive PageEvent := GNode (node : bool) | GState (s : State) | GCrumb (r : option Resource) | GDestroy.

Definition page_step (shown : option Resource * list (option Resource)) (ev : PageEvent)
    : (option Resource * list (option Resource)) * list Out :=
  match ev with
  | GNode node => (shown, if node then [Do Get] else [])
  | GState s => (if is_some (resource s) then (activeResource s, breadcrumbs s) else shown, [])
  | GCrumb r => (shown, [Activate r])
  | GDestroy => (shown, [Do Close])
  end.

(** ** Going back *)

(** The way back undoes the way down: from a resource below another one, the button
    makes that one active again and takes the last crumb away. *)
Lemma back_goes_up init s t rs parent child :
  crumbs_ok s -> is_some (resource s) = true ->
  breadcrumbs s = Some <$> (rs ++ [parent; child]) -> executableName (r_name parent) <> "root" ->
  back (fst (toolbar_step t (TState s))) = [Some parent] /\
  memoryResourcesReducer init s (SetActiveResource parent) =
    Ok (mkState (resource s) (Some parent) (Some <$> (rs ++ [parent])) (granularity s) (treemapView s)).
Proof.
  intros (rs' & Hc & Hnd & Hlast & _) Hres Hb Hroot.
  assert (rs' = rs ++ [parent; child]) as ->.
  { rewrite Hb in Hc. by apply (inj (fmap Some)). }
  assert (Hl : (rs ++ [parent; child]) !! length rs = Some parent) by (by rewrite list_lookup_middle).
  split.
  - cbn. rewrite Hres. unfold back. cbn. rewrite Hb, length_fmap, length_app. cbn.
    replace (length rs + 2 - 2)%nat with (length rs) by lia. rewrite list_lookup_fmap, Hl.
    by destruct (Nat.leb_spec (length rs + 2) 1); [lia|].
  - rewrite fmap_app in Hnd. apply NoDup_app in Hnd as (Hnd1 & Hnd2 & Hnd3). cbn in Hnd3.
    assert (r_id parent <> r_id child) by (intros E; rewrite E in Hnd3; by apply NoDup_cons_1_1 in Hnd3; set_solver).
    cbn [memoryResourcesReducer]. unfold is_active.
    replace (rs ++ [parent; child]) with ((rs ++ [parent]) ++ [child]) in Hlast by (by rewrite <- app_assoc).
    rewrite last_snoc in Hlast. destruct (activeResource s) as [a|]; [|done]. cbn in Hlast.
    destruct (Nat.eqb_spec (r_id a) (r_id parent)); [congruence|].
    unfold new_breadcrumbs. rewrite (proj2 (String.eqb_neq _ _)) by done.
    rewrite Hb, crumb_index_spec, findIndex_app.
    assert (findIndex (fun b => r_id b =? r_id parent)%nat rs = None) as ->.
    { apply findIndex_None. intros x Hx. apply Nat.eqb_neq. intros E. apply (Hnd2 (r_id x)).
      - by apply list_elem_of_fmap_2.
      - rewrite E. by left. }
    cbn. rewrite Nat.eqb_refl. cbn. rewrite Nat.add_0_r, <- fmap_take.
    replace (rs ++ [parent; child]) with ((rs ++ [parent]) ++ [child]) by (by rewrite <- app_assoc).
    by rewrite take_app_le, take_ge by (rewrite length_app; cbn; lia).
Qed.

(** The granularity that is already chosen leaves the dropdown open. *)
Lemma same_choice_stays t g :
  t_granularity t = Some g ->
  overlay (fst (toolbar_step (fst (toolbar_step t (TOpen GranularityDropdown))) (TGranularity g))) =
    Some GranularityDropdown.
Proof. intros Hg. cbn. by rewrite Hg, bool_decide_eq_true_2. Qed.

End MemoryPage.
