(* ===== verification/NetworkPages.v ===== *)
(** * The pages of the blocks, the bootstrap statistics and the actions

    [features/network/blocks], [features/network/bootstrap-stats] and
    [features/state/actions] of [src/frontend/src/app]: their toolbars, side panels and
    pages, around the stores of [NetworkBlocks], [BootstrapStats] and [StateActions]. *)

From stdpp Require Import base list strings.
From S2P Require Import Prelude SharedLib AppStore NetworkBlocks BootstrapStats StateActions.
Open Scope Z_scope.

Module NetworkPages.

(** ** Blocks *)

Inductive BlocksOut := DoBlocks (a : Blocks.Action) | GoBlock (height : Z).

Record BlocksToolbar := mkBlocksToolbar {
  b_active : list string;
  b_all : list string;
  b_block : option Z;
  b_earliest : option Z
}.

Inductive BlocksToolbarEvent :=
| BAll (fs : list string)
| BActive (fs : list string)
| BBlock (b : option Z)
| BEarliest (b : option Z)
| BToggleFilter (f : string)
| BToggleSidePanel
| BGetBlock (h : Z).

Definition blocks_toolbar_step (t : BlocksToolbar) (ev : BlocksToolbarEvent) : BlocksToolbar * list BlocksOut :=
  let '(mkBlocksToolbar act all b e) := t in
  match ev with
  | BAll fs => (mkBlocksToolbar act fs b e, [])
  | BActive fs => (mkBlocksToolbar fs all b e, [])
  | BBlock b' => (mkBlocksToolbar act all b' e, [])
  | BEarliest e' => (if truthy_onum e' then mkBlocksToolbar act all b e' else t, [])
  | BToggleFilter f => (t, [DoBlocks (Blocks.ToggleFilter f)])
  | BToggleSidePanel => (t, [DoBlocks Blocks.ToggleSidePanel])
  | BGetBlock h => (t, [DoBlocks (Blocks.SetActiveBlock (Some h) true); GoBlock h])
  end.

(** The side panel: the shortest latency that is not zero. *)
Definition firstSentTime (bs : list Blocks.Block) : option Z :=
  match List.filter truthyZ (omap Blocks.sentLatency bs) with
  | [] => None
  | v :: vs => Some (fold_left Z.min vs v)
  end.

Inductive BlocksPageEvent :=
| BRoute (height : option Z)          (* the first address; its height as a number *)
| BNode (node : bool)
| BPanel (open : bool)
| BDestroy.

Definition blocks_page_step (isSidePanelOpen : bool) (ev : BlocksPageEvent) : bool * list BlocksOut :=
  match ev with
  | BRoute (Some h) => (isSidePanelOpen, [DoBlocks (Blocks.SetActiveBlock (Some h) false); DoBlocks Blocks.Init])
  | BRoute None => (isSidePanelOpen, [])
  | BNode node => (isSidePanelOpen, if node then [DoBlocks Blocks.GetEarliestBlock] else [])
  | BPanel open => (open, [])
  | BDestroy => (isSidePanelOpen, [DoBlocks Blocks.Close])
  end.

(** ** Bootstrap statistics *)

Import BootstrapStats.

Inductive StatsOut := DoStats (a : Action) | GoStats | GoNodeDht (peerId : option string).

(** The copy of the request that the viewer shows: a field that is not there was
    deleted; without a request the copy is empty. *)
Record Shown := mkShown {
  s_request : option StatsRequest;
  s_finish : option Z;
  s_duration : option Z;
  s_error : option string
}.

Definition listenToActiveRequest (r : option StatsRequest) : Shown :=
  mkShown r
    (r ≫= (fun r => if truthy_onum (finish r) then finish r else None))
    (r ≫= (fun r => if truthy_onum (finish r) then durationInSecs r else None))
    (r ≫= (fun r => match error r with Some e => if truthy_str e then Some e else None | None => None end)).

Section Stats.
Context `{HasValue} (env : Config.Env).

Record StatsPanel := mkStatsPanel { shown : Shown; activeTab : Z; hasNodeDhtEnabled : bool }.

Inductive StatsPanelEvent :=
| SNode (node : MinaNode)
| SRequest (r : option StatsRequest)
| SClose
| STab (n : Z)
| SGoToNodeDht.

Definition stats_panel_step (p : StatsPanel) (ev : StatsPanelEvent) : result (StatsPanel * list StatsOut) :=
  match ev with
  | SNode node =>
    match Config.isSubFeatureEnabled env node "network" "bootstrap-stats" with
    | Ok b => Ok (mkStatsPanel (shown p) (activeTab p) b, [])
    | Throw e => Throw e
    end
  | SRequest r => Ok (mkStatsPanel (listenToActiveRequest r) (activeTab p) (hasNodeDhtEnabled p), [])
  | SClose => Ok (p, [GoStats; DoStats (SetActiveBootstrapRequest None)])
  | STab n => Ok (mkStatsPanel (shown p) n (hasNodeDhtEnabled p), [])
  | SGoToNodeDht => Ok (p, [GoNodeDht (peerId <$> s_request (shown p))])
  end.
End Stats.

(** The page asks through [init] and then every three seconds. *)
Inductive StatsPageEvent := SPInit | SPTimer | SPActive (r : option StatsRequest) | SPDestroy.

Definition stats_page_step (openSidePanel : bool) (ev : StatsPageEvent) : bool * list Action :=
  match ev with
  | SPInit => (openSidePanel, [Init])
  | SPTimer => (openSidePanel, [GetBootstrapStats])
  | SPActive r =>
    (if is_some r && negb openSidePanel then true
     else if negb (is_some r) && openSidePanel then false else openSidePanel, [])
  | SPDestroy => (openSidePanel, [Close])
  end.

(** ** Actions *)

Inductive ActionsOut := DoActions (a : StateActions.Action) | GoSlot (slot : Z).

(** The search field as in the mempool: the value reported last, and the one that
    waits for the field to be quiet. *)
Record ActionsToolbar := mkActionsToolbar {
  a_slot : option Z;
  a_earliest : js Z;
  a_sort : TableSort;
  a_reported : option string;
  a_waiting : option string
}.

Inductive ActionsToolbarEvent :=
| ARoute (id : option Z)
| AValues (slot : option Z) (earliest : js Z) (sort : TableSort)
| AGetSlot (slot : Z)
| ASort (by_ : string)
| AType (v : string)
| AQuiet.

Definition getSlot (slot : Z) : list ActionsOut := [DoActions (StateActions.GetActions (Some slot)); GoSlot slot].

Definition next_sort (ts : TableSort) (by_ : string) : TableSort :=
  mkTableSort by_
    (if negb (String.eqb by_ (sortBy ts)) then sortDirection ts
     else match sortDirection ts with ASC => DSC | DSC => ASC end).

(** The [null] of a text of at most two characters counts as an empty text. *)
Definition search_text (v : string) : string :=
  if (String.length v <=? 2)%nat then "" else toLowerCase (trim v).

Definition actions_toolbar_step (t : ActionsToolbar) (ev : ActionsToolbarEvent) : ActionsToolbar * list ActionsOut :=
  let '(mkActionsToolbar sl e ts r w) := t in
  match ev with
  | ARoute (Some id) => (t, getSlot id)
  | ARoute None => (t, [])
  | AValues sl' e' ts' => (mkActionsToolbar sl' e' ts' r w, [])
  | AGetSlot slot => (t, getSlot slot)
  | ASort by_ => (t, [DoActions (StateActions.Sort (next_sort ts by_))])
  | AType v => (if bool_decide (r = Some v) then t else mkActionsToolbar sl e ts (Some v) (Some v), [])
  | AQuiet =>
    match w with
    | Some v => (mkActionsToolbar sl e ts r None, [DoActions (StateActions.Search (search_text v))])
    | None => (t, [])
    end
  end.

(** The page: a timer per active node, the first tick of which is forced. *)
Record ActionsPage := mkActionsPage { timer : bool; force : bool; show_panel : bool }.

Inductive ActionsPageEvent := APNode | APTick | APPanel (open : bool) | APDestroy.

Definition actions_page_step (p : ActionsPage) (ev : ActionsPageEvent) : ActionsPage * list StateActions.Action :=
  match ev with
  | APNode => (mkActionsPage true true (show_panel p), [])
  | APTick =>
    if timer p
    then (mkActionsPage true false (show_panel p), [StateActions.GetEarliestSlot (force p)])
    else (p, [])
  | APPanel open => (mkActionsPage (timer p) (force p) open, [])
  | APDestroy => (mkActionsPage false (force p) (show_panel p), [StateActions.Close])
  end.

(** ** Properties *)

Lemma fold_min_spec vs v :
  let m := fold_left Z.min vs v in m ∈ v :: vs /\ forall x, x ∈ v :: vs -> m <= x.
Proof.
  revert v. induction vs as [|w vs IH]; intros v; cbn.
  - split; [by left|]. intros x [->|Hx]%elem_of_cons; [done|by apply not_elem_of_nil in Hx].
  - destruct (IH (Z.min v w)) as [H1 H2]. split.
    + apply elem_of_cons in H1 as [->|H1]; [|by right; right].
      destruct (Z.min_spec v w) as [[_ ->]|[_ ->]]; [by left|by right; left].
    + intros x Hx. pose proof (H2 (Z.min v w) ltac:(by left)).
      apply elem_of_cons in Hx as [->|[->|Hx]%elem_of_cons]; [lia|lia|]. apply H2. by right.
Qed.

(** The time of the side panel is the shortest latency that is not zero. *)
Lemma first_sent_shortest bs t :
  firstSentTime bs = Some t ->
  t <> 0 /\ (exists b, b ∈ bs /\ Blocks.sentLatency b = Some t) /\
  forall b v, b ∈ bs -> Blocks.sentLatency b = Some v -> v <> 0 -> t <= v.
Proof.
  unfold firstSentTime. destruct (List.filter truthyZ (omap Blocks.sentLatency bs)) as [|v vs] eqn:E; [done|].
  intros [= <-]. destruct (fold_min_spec vs v) as [H1 H2]. rewrite <- E in H1, H2.
  apply elem_of_lfilter in H1 as [(b & Hb & Hs)%list_elem_of_omap Hz].
  split_and!; [|by eauto|].
  - by apply negb_true_iff, Z.eqb_neq in Hz.
  - intros b' x Hb' Hx Hn. apply H2, elem_of_lfilter. split; [apply list_elem_of_omap; by eauto|].
    by apply negb_true_iff, Z.eqb_neq.
Qed.

(** Two clicks on the same heading bring the first order back, and a click on another
    one keeps the direction. *)
Lemma sort_twice ts : next_sort (next_sort ts (sortBy ts)) (sortBy ts) = ts.
Proof.
  destruct ts as [b d]. unfold next_sort. cbn. rewrite !String.eqb_refl. cbn. by destruct d.
Qed.

(** After a change of the node exactly the first request is forced. *)
Lemma forced_once p n :
  snd (actions_page_step p APNode) = [] /\
  let ps := fst (actions_page_step p APNode) in
  snd (actions_page_step ps APTick) = [StateActions.GetEarliestSlot true] /\
  Nat.iter n (fun q => fst (actions_page_step q APTick)) (fst (actions_page_step ps APTick)) =
    mkActionsPage true false (show_panel p).
Proof.
  cbn zeta. split_and!; [done|done|]. induction n as [|n IH]; [done|]. by rewrite Nat.iter_succ, IH.
Qed.

(** The link to the DHT of the node is shown when the bootstrap statistics are enabled,
    whether the DHT is or not. *)
Lemma dht_link_without_dht p node :
  let env := Config.mkEnv [] (Some (FObject [("network", ["bootstrap-stats"])])) in
  @Config.isSubFeatureEnabled has_value env node "network" "node-dht" = Ok false /\
  @stats_panel_step has_value env p (SNode node) = Ok (mkStatsPanel (shown p) (activeTab p) true, []).
Proof. done. Qed.

End NetworkPages.
