(* ===== verification/TreemapChart.v ===== *)
(** * The chart of the memory

    [features/resources/memory/memory-resources-treemap] of [src/frontend/src/app]:
    the component that draws the treemap of [Treemap], as a machine composed with the
    store of [MemoryResources]: the groups of rectangles in the drawing, the scales, the
    zoom into and out of a node, the mouse and the window; and the clicks of the table
    and of the breadcrumbs that choose another node.

    Resources are told apart by the answer they came with and their number. A group
    that is left fades and is removed when its transition ends. What a handler that
    raises leaves behind is not modelled. *)

From Stdlib Require Import QArith Qround Qfield Lqa.
From stdpp Require Import base list strings.
From S2P Require Import Prelude SharedLib MemoryResources Treemap.
Open Scope Z_scope.

Module TreemapChart.
Import Memory Treemap.
Open Scope Z_scope.

(** ** The drawing *)

(** The colours of an element that the mouse changes. *)
Record Look := mkLook { rect_fill : string; stroke_width : Q; val_fill : string; bg_fill : string }.

Definition has_children (r : Resource) : bool := (0 <? length (r_children r))%nat.

Definition plain_look (r : Resource) : Look :=
  mkLook (if has_children r then "var(--base-surface-top)" else "var(--base-background)") (1 # 2)
    "var(--base-tertiary)" "var(--base-container)".

Definition hover_look : Look :=
  mkLook "var(--base-tertiary2)" 2 "var(--base-secondary)" "var(--base-container)".

Definition left_look : Look :=
  mkLook "var(--base-surface-top)" (1 # 2) "var(--base-tertiary)" "var(--base-background)".

(** An element of class [node]: its datum, what was appended to it and its colours. *)
Record NodeEl := mkEl {
  datum : Tile;
  rects : bool;
  name_text : option string;
  val_text : option Z;
  count_texts : list nat;
  look : Look;
  see : bool;
  chevron_see : bool
}.

Definition new_el (t : Tile) : NodeEl :=
  mkEl t false None None [] (plain_look (t_data t)) false false.

Definition set_datum (e : NodeEl) (t : Tile) : NodeEl :=
  mkEl t (rects e) (name_text e) (val_text e) (count_texts e) (look e) (see e) (chevron_see e).

Definition set_look (e : NodeEl) (l : Look) : NodeEl :=
  mkEl (datum e) (rects e) (name_text e) (val_text e) (count_texts e) l (see e) (chevron_see e).

(** [data(root.children).join('g')]: elements are reused in order. *)
Fixpoint join_els (old : list NodeEl) (ts : list Tile) : list NodeEl :=
  match old, ts with
  | _, [] => []
  | [], t :: ts' => new_el t :: join_els [] ts'
  | e :: old', t :: ts' => set_datum e t :: join_els old' ts'
  end.

Definition not_iterable : string := "undefined is not iterable".

(** [render(group, root)]: the rectangle and the two texts are appended when no element
    has one, the number of children always. A node without children has no list of
    them. *)
Definition render (old : list NodeEl) (root : Tile) : result (list NodeEl) :=
  match t_children root with
  | [] => Throw not_iterable
  | ts =>
    let els := join_els old ts in
    let some_rect := existsb rects els in
    let some_name := existsb (fun e => is_some (name_text e)) els in
    let some_val := existsb (fun e => is_some (val_text e)) els in
    Ok ((fun e =>
           let r := t_data (datum e) in
           mkEl (datum e) (if some_rect then rects e else true)
             (if some_name then name_text e else Some (executableName (r_name r)))
             (if some_val then val_text e else Some (r_value r))
             (count_texts e ++ [length (r_children r)])
             (if some_rect then look e else plain_look r) (see e) (chevron_see e)) <$> els)
  end.

(** The boxes of an element that [fadeTexts] measures. *)
Record Boxes := mkBoxes { rectWidth : Q; rectHeight : Q; nameWidth : Q; bgWidth : Q }.

(** [fadeTexts(group)] on one element. *)
Definition fadeText (b : Boxes) (e : NodeEl) : NodeEl :=
  let textWidth := (nameWidth b + 10)%Q in
  let zeroChildren := negb (has_children (t_data (datum e))) in
  let requiredWidth := if zeroChildren then textWidth else (textWidth + bgWidth b + 20)%Q in
  if negb (Qle_bool requiredWidth (rectWidth b)) || negb (Qle_bool 30 (rectHeight b))
  then mkEl (datum e) (rects e) (name_text e) (val_text e) (count_texts e) (look e) false (chevron_see e)
  else mkEl (datum e) (rects e) (name_text e) (val_text e) (count_texts e) (look e) true (negb zeroChildren).

Record Group := mkGroup { g_id : nat; g_root : Tile; g_els : list NodeEl; g_fading : bool }.

Definition fade (i : nat) (gs : list Group) : list Group :=
  (fun g => if (g_id g =? i)%nat then mkGroup (g_id g) (g_root g) (g_els g) true else g) <$> gs.

(** ** The component *)

(** A resource with the number of its answer. *)
Definition Obj : Type := (nat * Resource)%type.
Definition same_obj (a b : Obj) : bool := (a.1 =? b.1)%nat && (r_id a.2 =? r_id b.2)%nat.

Record Comp := mkComp {
  crumbs : list (option Resource);
  active : option Obj;
  isFirst : bool;
  last_clicked : option Obj;
  base : option Obj;
  c_view : option TreemapView;
  size : Z * Z;
  svg : option (list Group);
  group : option nat;
  treemap : option Tile;
  domain : Rect;
  next : nat;
  tooltip : option Resource
}.

Definition set_drawing (c : Comp) gs g t dom nx : Comp :=
  mkComp (crumbs c) (active c) (isFirst c) (last_clicked c) (base c) (c_view c) (size c) gs g t dom nx (tooltip c).

Definition set_last (c : Comp) (o : option Obj) : Comp :=
  mkComp (crumbs c) (active c) (isFirst c) o (base c) (c_view c) (size c) (svg c) (group c) (treemap c)
    (domain c) (next c) (tooltip c).

Definition unit_rect : Rect := mkRect 0 0 1 1.

Section Component.
Context `{D3}.

(** [createTreemapValues(resource)] with the fields it reads; without a view the
    binary one is taken. *)
Definition chart_of (c : Comp) (r : Resource) : Tile :=
  createTreemapValues (inject_Z (size c).1) (inject_Z (size c).2) (default BINARY (c_view c)) r.

Definition no_svg : string := "Cannot read properties of undefined (reading 'attr')".
Definition no_node : string := "Cannot read properties of null (reading 'data')".

(** [zoomIn(d, dispatch)] without the dispatch: the old group fades, the new one is
    appended. *)
Definition zoom_in (c : Comp) (answer : nat) (d : Tile) : result Comp :=
  match svg c, group c with
  | Some gs, Some g =>
    match render [] d with
    | Throw e => Throw e
    | Ok els =>
      Ok (set_drawing (set_last c (Some (answer, t_data d)))
            (Some (fade g gs ++ [mkGroup (next c) d els false])) (Some (next c)) (treemap c) (t_rect d) (S (next c)))
    end
  | _, _ => Throw no_svg
  end.

(** [zoomOut(d)] without the dispatch: the new group is put below all others. *)
Definition zoom_out (c : Comp) (answer : nat) (p : Tile) : result Comp :=
  match svg c, group c with
  | Some gs, Some g =>
    match render [] p with
    | Throw e => Throw e
    | Ok els =>
      Ok (set_drawing (set_last c (Some (answer, t_data p)))
            (Some (mkGroup (next c) p els false :: fade g gs)) (Some (next c)) (treemap c) (t_rect p) (S (next c)))
    end
  | _, _ => Throw no_svg
  end.

(** [findNodeByName(node, this.treemap)] and [zoomIn(node, false)] *)
Definition zoom_to (c : Comp) (o : option Obj) : result Comp :=
  match o, treemap c with
  | Some (answer, r), Some t =>
    match findNodeByName (r_id r) t with
    | Some d => zoom_in c answer d
    | None => Throw no_node
    end
  | _, _ => Throw no_svg
  end.

Definition no_data : string := "Cannot read properties of undefined (reading 'children')".

(** [createTreemapValues(this.baseResource)] *)
Definition relayout (c : Comp) : result Comp :=
  match base c with
  | Some (_, r) => Ok (set_drawing c (svg c) (group c) (Some (chart_of c r)) (domain c) (next c))
  | None => Throw no_data
  end.

(** ** What the store hands on *)

Definition on_view (c : Comp) (v : TreemapView) : result Comp :=
  let c1 := mkComp (crumbs c) (active c) (isFirst c) (last_clicked c) (base c) (Some v) (size c) (svg c) (group c)
              (treemap c) (domain c) (next c) (tooltip c) in
  match c_view c with
  | None => Ok c1
  | Some _ => match relayout c1 with Ok c2 => zoom_to c2 (active c2) | Throw e => Throw e end
  end.

(** [createChart(resource)] in an element of the given size: the drawing and the first
    group are reused when they are there. *)
Definition createChart (c : Comp) (o : Obj) (element : Z * Z) : result Comp :=
  let c1 := mkComp (crumbs c) (active c) (isFirst c) (last_clicked c) (Some o) (c_view c)
              (element.1 - 2, element.2 - 2) (svg c) (group c) (treemap c) (domain c) (next c) (tooltip c) in
  let t := chart_of c1 o.2 in
  match default [] (svg c) with
  | [] =>
    match render [] t with
    | Ok els => Ok (set_drawing c1 (Some [mkGroup (next c) t els false]) (Some (next c)) (Some t) unit_rect (S (next c)))
    | Throw e => Throw e
    end
  | g :: gs =>
    match render (g_els g) t with
    | Ok els => Ok (set_drawing c1 (Some (mkGroup (g_id g) t els (g_fading g) :: gs)) (Some (g_id g)) (Some t) unit_rect (next c))
    | Throw e => Throw e
    end
  end.

Definition on_resource (c : Comp) (o : option Obj) (element : Z * Z) : result Comp :=
  match o with
  | Some o => createChart c o element
  | None => Ok (mkComp (crumbs c) (active c) true None None (c_view c) (size c) None (group c) (treemap c) (domain c)
                  (next c) None)
  end.

Definition on_active (c : Comp) (o : option Obj) : result Comp :=
  match o with
  | None => Ok c
  | Some o =>
    let set c first := mkComp (crumbs c) (Some o) first (last_clicked c) (base c) (c_view c) (size c) (svg c) (group c)
                         (treemap c) (domain c) (next c) (tooltip c) in
    let c1 := set c (isFirst c) in
    if negb (isFirst c) && negb (match last_clicked c with Some l => same_obj l o | None => false end)
    then match zoom_to (set_last c1 (Some o)) (Some o) with Ok c2 => Ok (set c2 false) | Throw e => Throw e end
    else Ok (set c1 false)
  end.

Definition on_crumbs (c : Comp) (l : list (option Resource)) : Comp :=
  mkComp l (active c) (isFirst c) (last_clicked c) (base c) (c_view c) (size c) (svg c) (group c) (treemap c)
    (domain c) (next c) (tooltip c).
End Component.

(** ** The chart with the store *)

Record World := mkWorld { store : State; answer : nat; comp : Comp; element : Z * Z }.

Inductive Event :=
| WLoaded (o : option Resource)
| WGranularity (g : Z)
| WView (v : TreemapView)
| WRow (i : nat)                 (* a row of the table *)
| WCrumb (i : nat)               (* a breadcrumb *)
| WClick (i : nat)               (* an element of the current group *)
| WEscape
| WResize (w h : Z)              (* the window, or the menu beside the chart *)
| WEnter (i : nat)
| WLeave (i : nat)
| WEnd (id : nat) (boxes : list Boxes).

Definition current (c : Comp) : option Group :=
  match svg c, group c with
  | Some gs, Some i => List.find (fun g => (g_id g =? i)%nat) gs
  | _, _ => None
  end.

Definition on_group (i : option nat) (f : list NodeEl -> list NodeEl) (gs : list Group) : list Group :=
  (fun g => if bool_decide (Some (g_id g) = i) then mkGroup (g_id g) (g_root g) (f (g_els g)) (g_fading g) else g) <$> gs.

Definition update_els (c : Comp) (f : list NodeEl -> list NodeEl) : Comp :=
  set_drawing c (on_group (group c) f <$> svg c) (group c) (treemap c) (domain c) (next c).

Definition set_tooltip (c : Comp) (t : option Resource) : Comp :=
  mkComp (crumbs c) (active c) (isFirst c) (last_clicked c) (base c) (c_view c) (size c) (svg c) (group c) (treemap c)
    (domain c) (next c) t.

(** The listener for the mouse that comes: the element goes on top of its group. *)
Definition mouse_enter (i : nat) (els : list NodeEl) : list NodeEl :=
  match els !! i with
  | Some e =>
    if has_children (t_data (datum e)) then delete i els ++ [set_look e hover_look] else els
  | None => els
  end.

Definition mouse_leave (i : nat) (els : list NodeEl) : list NodeEl :=
  match els !! i with
  | Some e => if has_children (t_data (datum e)) then <[i := set_look e left_look]> els else els
  | None => els
  end.

(** The end of the transition of a group: a fading one is removed, the texts of a new
    one fade in or out. *)
Fixpoint fade_texts (bs : list Boxes) (els : list NodeEl) : list NodeEl :=
  match bs, els with
  | b :: bs', e :: els' => fadeText b e :: fade_texts bs' els'
  | _, _ => els
  end.

Definition end_transition (i : nat) (bs : list Boxes) (gs : list Group) : list Group :=
  (fun g => if (g_id g =? i)%nat then mkGroup (g_id g) (g_root g) (fade_texts bs (g_els g)) (g_fading g) else g) <$>
  List.filter (fun g => negb ((g_id g =? i)%nat && g_fading g)) gs.

Section World.
Context `{D3} (init : State).

Definition is_answer (a : Action) : bool := match a with GetSuccess _ => true | _ => false end.

(** Whether a selector of an optional resource emits. *)
Definition changed (a : Action) (old new : option Resource) : bool :=
  match old, new with
  | None, None => false
  | Some x, Some y => is_answer a || negb (r_id x =? r_id y)%nat
  | _, _ => true
  end.

Definition emits {A} (b : bool) (f : A -> result A) (c : A) : result A := if b then f c else Ok c.

(** The four subscriptions, in the order they were made. *)
Definition hand_on (a : Action) (s s' : State) (n : nat) (el : Z * Z) (c : Comp) : result Comp :=
  let obj r := (n, r) in
  match emits (negb (bool_decide (treemapView s' = treemapView s))) (fun c => on_view c (treemapView s')) c with
  | Throw e => Throw e
  | Ok c1 =>
    match emits (changed a (resource s) (resource s')) (fun c => on_resource c (obj <$> resource s') el) c1 with
    | Throw e => Throw e
    | Ok c2 =>
      match emits (changed a (activeResource s) (activeResource s')) (fun c => on_active c (obj <$> activeResource s')) c2 with
      | Throw e => Throw e
      | Ok c3 => Ok (on_crumbs c3 (breadcrumbs s'))
      end
    end
  end.

Definition dispatch (w : World) (a : Action) : result World :=
  match memoryResourcesReducer init (store w) a with
  | Throw e => Throw e
  | Ok s' =>
    let n := if is_answer a then S (answer w) else answer w in
    match hand_on a (store w) s' n (element w) (comp w) with
    | Ok c => Ok (mkWorld s' n c (element w))
    | Throw e => Throw e
    end
  end.

Definition set_comp (w : World) (c : Comp) : World := mkWorld (store w) (answer w) c (element w).

(** The number of the answer whose objects the chart holds. *)
Definition chart_answer (c : Comp) : nat := default 0%nat (fst <$> base c).

Definition click (w : World) (d : Tile) : result World :=
  match zoom_in (comp w) (chart_answer (comp w)) d with
  | Ok c => dispatch (set_comp w c) (SetActiveResource (t_data d))
  | Throw e => Throw e
  end.

(** [redrawChart()] *)
Definition redraw (w : World) (el : Z * Z) : result World :=
  let c := comp w in
  match svg c with
  | None => Throw no_svg
  | Some _ =>
    let c1 := mkComp (crumbs c) (active c) (isFirst c) (last_clicked c) (base c) (c_view c) (el.1 - 2, el.2 - 2) (svg c)
                (group c) (treemap c) unit_rect (next c) (tooltip c) in
    match relayout c1 with
    | Throw e => Throw e
    | Ok c2 =>
      match active c2, treemap c2 with
      | Some (_, r), Some t =>
        match findNodeByName (r_id r) t with
        | Some d => click (mkWorld (store w) (answer w) c2 el) d
        | None => Throw no_node
        end
      | _, _ => Throw no_svg
      end
    end
  end.

(** [onKeydownHandler()] *)
Definition escape_key (w : World) : result World :=
  let c := comp w in
  if (1 <? length (crumbs c))%nat then
    match mjoin (last (crumbs c)), treemap c with
    | Some crumb, Some t =>
      match findNodeByName (r_id crumb) t with
      | None => Throw null_error
      | Some d =>
        match parent_of (r_id (t_data d)) t with
        | None => Throw null_error
        | Some p =>
          match zoom_out c (chart_answer c) p with
          | Ok c' => dispatch (set_comp w c') (SetActiveResource (t_data p))
          | Throw e => Throw e
          end
        end
      end
    | _, _ => Throw null_error
    end
  else Ok w.

Definition step (w : World) (ev : Event) : result World :=
  match ev with
  | WLoaded o => dispatch w (GetSuccess o)
  | WGranularity g => dispatch w (SetGranularity g)
  | WView v => dispatch w (SetTreemapView v)
  | WRow i =>
    match (activeResource (store w) ≫= fun r => r_children r !! i) with
    | Some c => if has_children c then dispatch w (SetActiveResource c) else Ok w
    | None => Ok w
    end
  | WCrumb i =>
    match breadcrumbs (store w) !! i with
    | Some (Some r) => dispatch w (SetActiveResource r)
    | Some None => Throw no_data
    | None => Ok w
    end
  | WClick i =>
    match current (comp w) ≫= (fun g => g_els g !! i) with
    | Some e => if (0 <? length (t_children (datum e)))%nat then click w (datum e) else Ok w
    | None => Ok w
    end
  | WEscape => escape_key w
  | WResize x y => redraw w (x, y)
  | WEnter i =>
    Ok (set_comp w (set_tooltip (update_els (comp w) (mouse_enter i))
          (match current (comp w) ≫= (fun g => g_els g !! i) with
           | Some e => Some (t_data (datum e))
           | None => tooltip (comp w)
           end)))
  | WLeave i => Ok (set_comp w (set_tooltip (update_els (comp w) (mouse_leave i)) None))
  | WEnd i bs =>
    Ok (set_comp w (set_drawing (comp w) (end_transition i bs <$> svg (comp w)) (group (comp w)) (treemap (comp w))
                      (domain (comp w)) (next (comp w))))
  end.

Fixpoint run (w : World) (evs : list Event) : result World :=
  match evs with
  | [] => Ok w
  | ev :: evs' => match step w ev with Ok w' => run w' evs' | Throw e => Throw e end
  end.

(** The component after [ngAfterViewInit] on the initial store. *)
Definition opened (el : Z * Z) : World :=
  mkWorld init 0 (mkComp [] None true None None (Some (treemapView init)) (0, 0) None None None unit_rect 0 None) el.
End World.

(** ** The place of an element *)

(** [d3.scaleLinear().rangeRound([0, n])] on a domain: a domain of one point is sent to
    the middle. *)
Definition math_round (q : Q) : Z := Qfloor (q + (1 # 2)).

Definition scale (a b : Q) (n : Z) (x : Q) : Z :=
  math_round (inject_Z n * (if Qeq_bool a b then 1 # 2 else (x - a) / (b - a)))%Q.

(** [position(group)]: the corner and the size of an element. *)
Record Place := mkPlace { p_x : Z; p_y : Z; p_width : Z; p_height : Z }.

Definition position (dom : Rect) (n : Z * Z) (t : Tile) : Place :=
  let r := t_rect t in
  let xScale := scale (x0 dom) (x1 dom) n.1 in
  let yScale := scale (y0 dom) (y1 dom) n.2 in
  mkPlace (xScale (x0 r)) (yScale (y0 r)) (xScale (x1 r) - xScale (x0 r)) (yScale (y1 r) - yScale (y0 r)).

(** [resSize]: the size in the texts, with the two decimals of [toFixed] in hundredths. *)
Definition hundredths (q : Q) : Z := Qfloor (q * 100 + (1 # 2)).

Definition res_size (kilobytes : Z) : Z * string :=
  if 1048576 <=? kilobytes then (hundredths (inject_Z kilobytes / 1048576), "GB")
  else if 1024 <=? kilobytes then (hundredths (inject_Z kilobytes / 1024), "MB")
  else (kilobytes * 100, "KB").

(** ** The drawn group *)

(** What an element says: its node, the name, the value and the number of children. *)
Definition says (e : NodeEl) : Tile * option string * option Z * list nat :=
  (datum e, name_text e, val_text e, count_texts e).

Definition about (t : Tile) : Tile * option string * option Z * list nat :=
  (t, Some (executableName (r_name (t_data t))), Some (r_value (t_data t)), [length (r_children (t_data t))]).

Lemma join_fresh ts : join_els [] ts = new_el <$> ts.
Proof. induction ts as [|t ts IH]; [done|]. cbn. by rewrite IH. Qed.

Lemma existsb_fresh (f : NodeEl -> bool) ts : (forall t, f (new_el t) = false) -> existsb f (new_el <$> ts) = false.
Proof. intros Hf. induction ts as [|t ts IH]; [done|]. cbn. by rewrite Hf, IH. Qed.

Lemma render_fresh d :
  t_children d <> [] -> exists els, render [] d = Ok els /\ says <$> els = about <$> t_children d.
Proof.
  intros Hd. unfold render. destruct (t_children d) as [|t ts] eqn:E; [done|]. rewrite <- E.
  eexists. split; [reflexivity|]. rewrite join_fresh, !existsb_fresh by done.
  rewrite <- !list_fmap_compose. apply list_fmap_ext. done.
Qed.

Definition fresh_ids (c : Comp) (gs : list Group) : Prop :=
  Forall (fun g => (g_id g < next c)%nat) gs /\ NoDup (g_id <$> gs).

Lemma fade_ids i gs : g_id <$> fade i gs = g_id <$> gs.
Proof.
  unfold fade. rewrite <- list_fmap_compose. apply list_fmap_ext. intros _ g _. cbn. by destruct (g_id g =? i)%nat.
Qed.

Lemma Forall_ids (P : nat -> Prop) gs : Forall (fun g => P (g_id g)) gs <-> Forall P (g_id <$> gs).
Proof. by rewrite Forall_fmap. Qed.

Lemma find_fresh i gs : Forall (fun g => (g_id g < i)%nat) gs -> List.find (fun g => (g_id g =? i)%nat) gs = None.
Proof.
  induction 1 as [|g gs Hg _ IH]; [done|]. cbn. destruct (Nat.eqb_spec (g_id g) i); [lia|done].
Qed.

(** The groups after a new one was put above or below the fading ones. *)
Lemma add_group c gs i new above :
  fresh_ids c gs -> g_id new = next c ->
  let gs' := if above : bool then fade i gs ++ [new] else new :: fade i gs in
  Forall (fun g => (g_id g < S (next c))%nat) gs' /\ NoDup (g_id <$> gs') /\
  List.find (fun g => (g_id g =? next c)%nat) gs' = Some new.
Proof.
  intros [Hb Hn] Hi. assert (Hf : Forall (fun g => (g_id g < next c)%nat) (fade i gs)).
  { apply (Forall_ids (fun n => (n < next c)%nat)). rewrite fade_ids. by apply (Forall_ids (fun n => (n < next c)%nat)). }
  assert (Hs : Forall (fun g => (g_id g < S (next c))%nat) (fade i gs)) by (eapply Forall_impl; [exact Hf|]; cbn; lia).
  assert (Hout : next c ∉ g_id <$> gs).
  { intros (g & He & Hg)%list_elem_of_fmap. rewrite Forall_forall in Hb. specialize (Hb g Hg). lia. }
  destruct above; cbn zeta.
  - split; [apply Forall_app; split; [done|]; apply Forall_singleton; lia|]. split.
    + rewrite fmap_app, fade_ids. cbn. rewrite Hi. apply NoDup_app. split; [done|]. split; [|apply NoDup_singleton].
      intros x Hx ->%list_elem_of_singleton. done.
    + rewrite find_app, find_fresh by done. cbn. by rewrite Hi, Nat.eqb_refl.
  - split; [constructor; [lia|done]|]. split.
    + rewrite fmap_cons, fade_ids, Hi. by constructor.
    + cbn. by rewrite Hi, Nat.eqb_refl.
Qed.

(** *** The tiles of a chart *)

Section Tiles.
Context `{D3} (width height : Q) (view : TreemapView).

Lemma go_data q cs rs :
  length rs = length cs -> t_data <$> go width height view q cs rs = h_data <$> cs.
Proof.
  revert rs. induction cs as [|[d l] cs IH]; intros [|x rs] Hl; try done. cbn. f_equal. apply IH. by injection Hl.
Qed.

Lemma represents_data n r : represents n r -> h_data n = r.
Proof. destruct n as [d cs]. by intros [-> _]%represents_unfold. Qed.

Lemma layout_children n r q u :
  represents n r -> sub u (layout width height view n q) -> t_data <$> t_children u ≡ₚ r_children (t_data u).
Proof.
  revert r q u. induction n as [d cs IH] using HNode_nested_ind. intros r q u Hr Hu.
  apply represents_unfold in Hr as (-> & rs & Hperm & Hall).
  assert (Hlen : length (tiles view (mkH r cs) width height) = length cs) by apply tiles_length.
  inversion Hu as [|? c ? Hc Hu']; subst.
  - cbn [t_data t_children layout]. fold (go width height view q). rewrite go_data by done. rewrite <- Hperm.
    clear -Hall. induction Hall as [|n x cs rs Hn _ IHall]; [done|]. cbn. by rewrite IHall, (represents_data n x).
  - cbn [t_children layout] in Hc. fold (go width height view q) in Hc.
    apply go_elem in Hc as (n & q' & Hn & ->); [|done]. apply list_elem_of_lookup_1 in Hn as [i Hi].
    destruct (Forall2_lookup_l _ _ _ _ _ Hall Hi) as (p & _ & Hnp).
    rewrite Forall_forall in IH. eapply IH; [|exact Hnp|exact Hu']. by eapply list_elem_of_lookup_2.
Qed.

Lemma sub_trans u v t : sub u v -> sub v t -> sub u t.
Proof. intros Huv. induction 1 as [|? c t Hc _ IH]; [done|]. eapply sub_step; [done|by apply IH]. Qed.

Lemma sub_child c u t : sub u t -> c ∈ t_children u -> sub c t.
Proof. intros Hu Hc. eapply sub_trans; [|exact Hu]. eapply sub_step; [done|constructor]. Qed.
End Tiles.

Section Shows.
Context `{D3}.

(** The drawing of a component that holds the chart of [r] from answer [a]. *)
Definition ready (c : Comp) (a : nat) (r : Resource) : Prop :=
  base c = Some (a, r) /\ treemap c = Some (chart_of c r) /\
  exists gs i, svg c = Some gs /\ group c = Some i /\ fresh_ids c gs.

(** The current group is the one of the resource [x] and shows its children. *)
Definition shows (c : Comp) (r x : Resource) : Prop :=
  exists g, current c = Some g /\ g_fading g = false /\ t_data (g_root g) = x /\
    sub (g_root g) (chart_of c r) /\ domain c = t_rect (g_root g) /\
    says <$> g_els g ≡ₚ about <$> t_children (g_root g).

(** What a zoom leaves as it is. *)
Definition kept (c c' : Comp) : Prop :=
  crumbs c' = crumbs c /\ active c' = active c /\ isFirst c' = isFirst c /\ c_view c' = c_view c /\ size c' = size c.

Definition good (r : Resource) : Prop :=
  NoDup (ids r) /\ has_children r = true /\
  forall x, below x r -> executableName (r_name x) = "root" <-> x = r.

Lemma chart_children c r d : sub d (chart_of c r) -> t_data <$> t_children d ≡ₚ r_children (t_data d).
Proof. intros Hd. eapply layout_children; [apply hierarchy_represents|exact Hd]. Qed.

Lemma chart_below c r d : sub d (chart_of c r) -> below (t_data d) r.
Proof.
  intros Hd. eapply (layout_tiles _ _ _ (hierarchy leaf_value r) r unit_rect); [apply hierarchy_represents|exact Hd].
Qed.

Lemma chart_data c r : t_data (chart_of c r) = r.
Proof. unfold chart_of, createTreemapValues. rewrite layout_data. apply represents_data, hierarchy_represents. Qed.

Lemma has_tiles c r d : sub d (chart_of c r) -> has_children (t_data d) = (0 <? length (t_children d))%nat.
Proof. intros Hd. unfold has_children. by rewrite <- (chart_children c r d Hd), length_fmap. Qed.

Lemma zoom_shows c a r d (above : bool) :
  ready c a r -> has_children (t_data d) = true -> sub d (chart_of c r) ->
  exists c', (if above then zoom_in c a d else zoom_out c a d) = Ok c' /\
    ready c' a r /\ shows c' r (t_data d) /\ kept c c' /\ last_clicked c' = Some (a, t_data d).
Proof.
  intros (Hb & Ht & gs & i & Hs & Hg & Hf) Hx Hd.
  destruct (render_fresh d) as (els & He & Hsay).
  { intros Hn. by rewrite (has_tiles c r d Hd), Hn in Hx. }
  destruct (add_group c gs i (mkGroup (next c) d els false) above Hf eq_refl) as (H1 & H2 & H3).
  destruct above; unfold zoom_in, zoom_out; rewrite Hs, Hg, He; eexists; (split; [reflexivity|]);
    (split; [split; [done|split; [done|]]; eexists _, _; by repeat split|]);
    (split; [|done]); exists (mkGroup (next c) d els false); unfold current; cbn; rewrite Hsay; by repeat split.
Qed.

Lemma zoom_to_shows c a r x :
  ready c a r -> NoDup (ids r) -> below x r -> has_children x = true ->
  exists c', zoom_to c (Some (a, x)) = Ok c' /\
    ready c' a r /\ shows c' r x /\ kept c c' /\ last_clicked c' = Some (a, x).
Proof.
  intros Hc Hnd Hx Hch. destruct (chart_finds (inject_Z (size c).1) (inject_Z (size c).2) (default BINARY (c_view c)) r x
    Hnd Hx) as (d & Hd & <-). fold (chart_of c r) in Hd.
  unfold zoom_to. rewrite (proj1 (proj2 Hc)), Hd. apply find_sound in Hd as [Hs _].
  exact (zoom_shows c a r d true Hc Hch Hs).
Qed.

(** *** The way down to a resource *)

Inductive path (r : Resource) : list Resource -> Resource -> Prop :=
| path_root : path r [r] r
| path_down rs p c : path r rs p -> c ∈ r_children p -> has_children c = true -> path r (rs ++ [c]) c.

Lemma path_below r rs p : path r rs p -> below p r.
Proof. induction 1 as [|rs p c _ IH Hc _]; [constructor|by eapply below_child]. Qed.

Lemma path_nested r rs p x : path r rs p -> x ∈ rs -> below p x /\ below x r.
Proof.
  induction 1 as [|rs p c Hp IH Hc _]; intros Hx.
  - apply list_elem_of_singleton in Hx as ->. split; constructor.
  - apply elem_of_app in Hx as [Hx|Hx%list_elem_of_singleton].
    + destruct (IH Hx) as [H1 H2]. split; [by eapply below_child|done].
    + subst x. split; [constructor|]. eapply below_child; [by eapply path_below|done].
Qed.

Lemma path_parent r rs p : has_children r = true -> path r rs p -> has_children p = true.
Proof. intros Hr. by induction 1. Qed.

Lemma path_last r rs p : path r rs p -> last rs = Some p.
Proof. induction 1; [done|by rewrite last_snoc]. Qed.

Lemma path_take r rs p i x : path r rs p -> rs !! i = Some x -> path r (take (S i) rs) x.
Proof.
  induction 1 as [|rs p c Hp IH Hc Hch].
  - destruct i; [|done]. intros [= <-]. constructor.
  - intros Hi. destruct (decide (i < length rs)%nat) as [Hl|Hl].
    + rewrite lookup_app_l in Hi by done. rewrite take_app_le by lia. by apply IH.
    + rewrite take_ge by (rewrite length_app; cbn; apply lookup_lt_Some in Hi; rewrite length_app in Hi; cbn in Hi; lia).
      rewrite lookup_app_r in Hi by lia. apply list_lookup_singleton_Some in Hi as [_ <-]. by econstructor.
Qed.

Lemma NoDup_below x r : NoDup (ids r) -> below x r -> NoDup (ids x).
Proof. intros Hr Hx. induction Hx as [|x c r Hc _ IH]; [done|]. apply IH. by eapply NoDup_child. Qed.
End Shows.

(** ** The chart follows the store *)

Section Follows.
Context `{D3} (init : State).

(** The component and the store hold the same path of resources. *)
Record synced (s : State) (a : nat) (c : Comp) (r p : Resource) (rs : list Resource) : Prop := mkSynced {
  sy_resource : resource s = Some r;
  sy_active : activeResource s = Some p;
  sy_crumbs : breadcrumbs s = Some <$> rs;
  sy_path : path r rs p;
  sy_own_crumbs : crumbs c = breadcrumbs s;
  sy_own_active : active c = Some (a, p);
  sy_first : isFirst c = false;
  sy_view : c_view c = Some (treemapView s);
  sy_ready : ready c a r
}.

(** The last click was in an older answer or on the active resource. *)
Definition last_ok (a : nat) (c : Comp) (p : Resource) : Prop :=
  match last_clicked c with None => True | Some (b, l) => (b < a)%nat \/ b = a /\ l = p end.

Definition Idle (w : World) : Prop :=
  resource (store w) = None /\ activeResource (store w) = None /\ breadcrumbs (store w) = [] /\
  crumbs (comp w) = [] /\ isFirst (comp w) = true /\ last_clicked (comp w) = None /\ base (comp w) = None /\
  c_view (comp w) = Some (treemapView (store w)) /\ svg (comp w) = None.

Definition Drawn (w : World) : Prop :=
  exists r p rs, good r /\ synced (store w) (answer w) (comp w) r p rs /\ shows (comp w) r p /\
    last_ok (answer w) (comp w) p.

(** *** The choice of a resource *)

Lemma choose s a c r p rs x :
  good r -> synced s a c r p rs -> x ∈ rs \/ x ∈ r_children p /\ has_children x = true ->
  exists rs', path r rs' x /\
    memoryResourcesReducer init s (SetActiveResource x) =
      Ok (mkState (resource s) (Some x) (Some <$> rs') (granularity s) (treemapView s)).
Proof.
  intros (Hnd & Hch & Hname) [Hr Hp Hc Hpath _ _ _ _ _] Hx.
  assert (Hxr : below x r).
  { destruct Hx as [Hx|[Hx _]]; [by eapply path_nested|]. eapply below_child; [by eapply path_below|done]. }
  cbn [memoryResourcesReducer]. unfold is_active. rewrite Hp. destruct (Nat.eqb_spec (r_id p) (r_id x)) as [E|E].
  { apply (below_unique r) in E as <-; [|done|by eapply path_below|done].
    exists rs. split; [done|]. destruct s. cbn in *. by subst. }
  unfold new_breadcrumbs. destruct (String.eqb_spec (executableName (r_name x)) "root") as [Ex|Ex].
  { apply (Hname x Hxr) in Ex as ->. exists [r]. split; [constructor|]. by rewrite Hr. }
  rewrite Hc, crumb_index_spec. destruct (findIndex _ rs) as [i|] eqn:Ei.
  - apply findIndex_Some in Ei as (b & Hb & Eb%Nat.eqb_eq & _).
    apply (below_unique r) in Eb as ->; [|done|eapply path_nested; [done|by eapply list_elem_of_lookup_2]|done].
    exists (take (S i) rs). split; [by eapply path_take|]. by rewrite Nat.add_1_r, fmap_take.
  - rewrite findIndex_None in Ei. destruct Hx as [Hx|[Hx Hxc]].
    + specialize (Ei x Hx). by rewrite Nat.eqb_refl in Ei.
    + exists (rs ++ [x]). split; [by econstructor|]. by rewrite fmap_app.
Qed.

Lemma hand_on_choice s s' n el c r p rs x rs' :
  good r -> synced s n c r p rs -> path r rs' x ->
  s' = mkState (resource s) (Some x) (Some <$> rs') (granularity s) (treemapView s) ->
  last_clicked c = Some (n, x) /\ shows c r x \/ last_ok n c p /\ shows c r p ->
  exists c', hand_on (SetActiveResource x) s s' n el c = Ok c' /\
    synced s' n c' r x rs' /\ shows c' r x /\ last_ok n c' x.
Proof.
  intros (Hnd & Hch & _) [Hr Hp Hc Hpath H1 H2 H3 H4 H5] Hx -> Hs. unfold hand_on. cbn [treemapView resource activeResource breadcrumbs].
  rewrite bool_decide_true by done. rewrite Hr, Hp. cbn [negb emits changed is_answer]. rewrite Nat.eqb_refl.
  cbn [orb negb emits]. destruct (Nat.eqb_spec (r_id p) (r_id x)) as [E|E]; cbn [negb emits].
  { apply (below_unique r) in E as <-; [|done|by eapply path_below|by eapply path_below].
    eexists. split; [reflexivity|]. split; [by split|]. split; [by destruct Hs as [[_ Hs]|[_ Hs]]|].
    destruct Hs as [[Hl _]|[Hl _]]; [|done]. unfold last_ok. cbn. rewrite Hl. by right. }
  unfold on_active. cbn [fmap option_fmap option_map]. rewrite H3. cbn [negb andb]. destruct Hs as [[Hl Hs]|[Hl Hs]].
  - rewrite Hl. unfold same_obj. cbn [fst snd]. rewrite !Nat.eqb_refl. cbn [andb negb].
    eexists. split; [reflexivity|]. split; [by split|]. split; [done|]. by right.
  - assert (Hdiff : (match last_clicked c with Some l => same_obj l (n, x) | None => false end) = false).
    { unfold last_ok in Hl. destruct (last_clicked c) as [[b l]|]; [|done]. unfold same_obj. cbn.
      destruct Hl as [Hl|[-> ->]]; [by rewrite (proj2 (Nat.eqb_neq b n)) by lia|].
      by rewrite (proj2 (Nat.eqb_neq (r_id p) (r_id x))), andb_false_r. }
    rewrite Hdiff. cbn [negb]. set (c1 := set_last _ _). change (zoom_to c1 _) with (zoom_to c1 (Some (n, x))).
    destruct (zoom_to_shows c1 n r x) as (c2 & Ez & R2 & S2 & K2 & L2); [exact H5|done|by eapply path_below|by eapply path_parent|].
    rewrite Ez. eexists. split; [reflexivity|]. destruct K2 as (K1 & _ & _ & K4 & _). split.
    + split; try done. cbn. by rewrite K4.
    + split; [done|]. unfold last_ok. cbn. rewrite L2. by right.
Qed.

Lemma dispatch_choice w r p rs x :
  good r -> synced (store w) (answer w) (comp w) r p rs -> x ∈ rs \/ x ∈ r_children p /\ has_children x = true ->
  last_clicked (comp w) = Some (answer w, x) /\ shows (comp w) r x \/ last_ok (answer w) (comp w) p /\ shows (comp w) r p ->
  exists w', dispatch init w (SetActiveResource x) = Ok w' /\ Drawn w' /\ activeResource (store w') = Some x.
Proof.
  intros Hg Hsy Hx Hs. destruct (choose _ _ _ _ _ _ x Hg Hsy Hx) as (rs' & Hp & E).
  unfold dispatch. rewrite E. cbn [is_answer].
  destruct (hand_on_choice _ _ _ (element w) _ _ _ _ x rs' Hg Hsy Hp eq_refl Hs) as (c' & E' & Hd).
  rewrite E'. eexists. split; [reflexivity|]. split; [|done]. by exists r, x, rs'.
Qed.

(** *** A click, the window and the key *)

Lemma kept_synced s a c c' r p rs : synced s a c r p rs -> kept c c' -> ready c' a r -> synced s a c' r p rs.
Proof. intros [] (K1 & K2 & K3 & K4 & _) Hr. split; try done; congruence. Qed.

(** A zoom, in or out, with the choice of its resource. *)
Lemma zoom_dispatch w r p rs d (above : bool) :
  good r -> synced (store w) (answer w) (comp w) r p rs -> has_children (t_data d) = true ->
  sub d (chart_of (comp w) r) -> t_data d ∈ rs \/ t_data d ∈ r_children p ->
  exists c' w', (if above then zoom_in (comp w) (answer w) d else zoom_out (comp w) (answer w) d) = Ok c' /\
    dispatch init (set_comp w c') (SetActiveResource (t_data d)) = Ok w' /\ Drawn w' /\
    activeResource (store w') = Some (t_data d).
Proof.
  intros Hg Hsy Hch Hd Hx. destruct (zoom_shows _ _ _ d above (sy_ready _ _ _ _ _ _ Hsy) Hch Hd) as (c' & E & R & S & K & L).
  destruct (dispatch_choice (set_comp w c') r p rs (t_data d)) as (w' & Ew & Hw);
    [done|by eapply kept_synced|destruct Hx; [by left|by right]|by left|]. by exists c', w'.
Qed.

Lemma chart_answer_synced s a c r p rs : synced s a c r p rs -> chart_answer c = a.
Proof. intros [_ _ _ _ _ _ _ _ (Hb & _)]. unfold chart_answer. by rewrite Hb. Qed.

Lemma click_follows w r p rs d :
  good r -> synced (store w) (answer w) (comp w) r p rs -> has_children (t_data d) = true ->
  sub d (chart_of (comp w) r) -> t_data d ∈ rs \/ t_data d ∈ r_children p ->
  exists w', click init w d = Ok w' /\ Drawn w' /\ activeResource (store w') = Some (t_data d).
Proof.
  intros Hg Hsy Hch Hd Hx. destruct (zoom_dispatch w r p rs d true Hg Hsy Hch Hd Hx) as (c' & w' & E & Ew & Hw).
  exists w'. unfold click. by rewrite (chart_answer_synced _ _ _ _ _ _ Hsy), E.
Qed.

Lemma shows_node c r p i e g :
  current c = Some g -> t_data (g_root g) = p -> sub (g_root g) (chart_of c r) ->
  says <$> g_els g ≡ₚ about <$> t_children (g_root g) -> g_els g !! i = Some e ->
  sub (datum e) (chart_of c r) /\ t_data (datum e) ∈ r_children p.
Proof.
  intros _ <- Hs Hp Hi. assert (He : says e ∈ about <$> t_children (g_root g)).
  { rewrite <- Hp. apply list_elem_of_fmap_2. by eapply list_elem_of_lookup_2. }
  apply list_elem_of_fmap in He as (t & E & Ht). injection E as -> _ _ _. split; [by eapply sub_child|].
  rewrite <- (chart_children c r _ Hs). by apply list_elem_of_fmap_2.
Qed.

Lemma wclick_follows w i : Drawn w -> exists w', step init w (WClick i) = Ok w' /\ Drawn w'.
Proof.
  intros (r & p & rs & Hg & Hsy & (g & Hc & Hf & Hr & Hs & Hd & Hp) & Hl). cbn [step]. rewrite Hc. cbn [mbind option_bind].
  assert (Hw : Drawn w) by (exists r, p, rs; split; [done|]; split; [done|]; split; [by exists g|done]).
  destruct (g_els g !! i) as [e|] eqn:Ei; [|by eauto].
  destruct (shows_node _ _ p i e g Hc Hr Hs Hp Ei) as [Hse Hce].
  destruct (0 <? length (t_children (datum e)))%nat eqn:El; [|by eauto].
  rewrite <- (has_tiles _ _ _ Hse) in El.
  destruct (click_follows w r p rs (datum e) Hg Hsy El Hse ltac:(by right)) as (w' & E & Hw' & _). by exists w'.
Qed.

Lemma resize_follows w x y : Drawn w -> exists w', step init w (WResize x y) = Ok w' /\ Drawn w'.
Proof.
  intros (r & p & rs & Hg & Hsy & _). pose proof Hg as (Hnd & Hch & _).
  pose proof Hsy as [H1 H2 H3 H4 H5 H6 H7 H8 (Hb & Ht & gs & i & Hs & Hi & Hf)]. cbn [step]. unfold redraw, relayout.
  rewrite Hs, Hb. cbn [base active treemap set_drawing]. rewrite H6. set (c2 := set_drawing _ _ _ _ _ _).
  destruct (chart_finds (inject_Z (size c2).1) (inject_Z (size c2).2) (default BINARY (c_view c2)) r p
    Hnd (path_below _ _ _ H4)) as (d & Ed & Hd). change (createTreemapValues _ _ _ r) with (chart_of c2 r) in Ed.
  match goal with |- context [findNodeByName (r_id p) ?t] => change t with (chart_of c2 r) end. rewrite Ed.
  apply find_sound in Ed as [Hsub _].
  destruct (click_follows (mkWorld (store w) (answer w) c2 (x, y)) r p rs d) as (w' & E & Hw & _).
  - done.
  - split; try done. split; [done|]. split; [done|]. by exists gs, i.
  - rewrite Hd. by eapply path_parent.
  - done.
  - left. rewrite Hd. apply last_Some_elem_of. by eapply path_last.
  - by exists w'.
Qed.

Lemma escape_follows w : Drawn w -> exists w', step init w WEscape = Ok w' /\ Drawn w'.
Proof.
  intros Hw. pose proof Hw as (r & p & rs & Hg & Hsy & _). pose proof Hg as (Hnd & Hch & _).
  pose proof Hsy as [H1 H2 H3 H4 H5 _ _ _ (_ & Ht & _)]. cbn [step]. unfold escape_key.
  rewrite H5, H3, length_fmap. destruct (1 <? length rs)%nat eqn:El; [|by eauto].
  rewrite fmap_last, (path_last _ _ _ H4), Ht. cbn [fmap option_fmap option_map mjoin option_join].
  inversion H4 as [|rs0 q c Hq Hcq Hcc]; subst; [done|].
  destruct (chart_finds (inject_Z (size (comp w)).1) (inject_Z (size (comp w)).2) (default BINARY (c_view (comp w))) r p
    Hnd (path_below _ _ _ H4)) as (d & Ed & Hd). fold (chart_of (comp w) r) in Ed. rewrite Ed, Hd.
  destruct (chart_parent (inject_Z (size (comp w)).1) (inject_Z (size (comp w)).2) (default BINARY (c_view (comp w))) r q p
    Hnd (path_below _ _ _ Hq) Hcq) as (u & Eu & Hu). fold (chart_of (comp w) r) in Eu. rewrite Eu.
  apply parent_sound in Eu as [Hsu _].
  destruct (zoom_dispatch w r p (rs0 ++ [p]) u false) as (c' & w' & E & Ew & Hw' & _); [done|done| |done| |].
  - rewrite Hu. exact (path_parent _ _ _ Hch Hq).
  - left. rewrite Hu. apply elem_of_app. left. apply last_Some_elem_of. by eapply path_last.
  - rewrite (chart_answer_synced _ _ _ _ _ _ Hsy), E. by exists w'.
Qed.

Lemma choices_follow w :
  Drawn w -> forall i, (exists w', step init w (WRow i) = Ok w' /\ Drawn w') /\ (exists w', step init w (WCrumb i) = Ok w' /\ Drawn w').
Proof.
  intros Hw i. pose proof Hw as (r & p & rs & Hg & Hsy & Hs & Hl). cbn [step]. split.
  - rewrite (sy_active _ _ _ _ _ _ Hsy). cbn [mbind option_bind]. destruct (r_children p !! i) as [x|] eqn:Ei; [|by eauto].
    destruct (has_children x) eqn:Ex; [|by eauto].
    destruct (dispatch_choice w r p rs x Hg Hsy) as (w' & E & Hw' & _); [|by right|by exists w'].
    right. split; [by eapply list_elem_of_lookup_2|done].
  - rewrite (sy_crumbs _ _ _ _ _ _ Hsy), list_lookup_fmap. destruct (rs !! i) as [x|] eqn:Ei; [|by eauto]. cbn [fmap option_fmap option_map].
    destruct (dispatch_choice w r p rs x Hg Hsy) as (w' & E & Hw' & _); [|by right|by exists w'].
    left. by eapply list_elem_of_lookup_2.
Qed.

Lemma view_follows w v : Drawn w -> exists w', step init w (WView v) = Ok w' /\ Drawn w'.
Proof.
  intros (r & p & rs & Hg & Hsy & Hs & Hl). pose proof Hg as (Hnd & Hch & _).
  pose proof Hsy as [H1 H2 H3 H4 H5 H6 H7 H8 H9]. cbn [step]. unfold dispatch, hand_on.
  cbn [memoryResourcesReducer is_answer treemapView resource activeResource breadcrumbs].
  rewrite H1, H2. cbn [changed is_answer]. rewrite !Nat.eqb_refl. cbn [orb negb emits].
  destruct (decide (v = treemapView (store w))) as [->|Hv]; [rewrite bool_decide_true by done|rewrite bool_decide_false by done]; cbn [negb emits].
  - eexists. split; [reflexivity|]. exists r, p, rs. split; [done|]. by split; [split|].
  - unfold on_view, relayout. rewrite H8. destruct H9 as (Hb & Ht & Hd). cbn [base]. rewrite Hb. set (c2 := set_drawing _ _ _ _ _ _).
    change (active c2) with (active (comp w)). rewrite H6.
    destruct (zoom_to_shows c2 (answer w) r p) as (c' & E & R & S & (K1 & K2 & K3 & K4 & K5) & L);
      [by split|done|by eapply path_below|by eapply path_parent|]. rewrite E.
    eexists. split; [reflexivity|]. exists r, p, rs. split; [done|]. split; [|split; [done|]].
    + split; try done; cbn; [by rewrite K2|by rewrite K3].
    + unfold last_ok. cbn. rewrite L. by right.
Qed.

(** *** The answers *)

Lemma loaded_idle w r : Idle w -> good r -> exists w', step init w (WLoaded (Some r)) = Ok w' /\ Drawn w'.
Proof.
  intros (H1 & H2 & H3 & H4 & H5 & H6 & H7 & H8 & H9) Hg. pose proof Hg as (Hnd & Hch & _).
  cbn [step]. unfold dispatch, hand_on. cbn [memoryResourcesReducer is_answer treemapView resource activeResource breadcrumbs].
  rewrite bool_decide_true, H1, H2 by done. cbn [negb emits changed fmap option_fmap option_map on_resource].
  unfold createChart. rewrite H9. cbn [default]. set (c1 := mkComp _ _ _ _ _ _ _ _ _ _ _ _ _). cbn [snd].
  assert (Hdata : t_data (chart_of c1 r) = r) by apply chart_data.
  destruct (render_fresh (chart_of c1 r)) as (els & E & Hsay).
  { intros Hn. rewrite <- Hdata, (has_tiles c1 r) in Hch by constructor. by rewrite Hn in Hch. }
  rewrite E. unfold on_active. cbn [set_drawing isFirst c1]. rewrite H5. cbn [negb andb].
  eexists. split; [reflexivity|]. exists r, r, [r]. split; [done|]. split; [|split].
  - split; try done; [constructor|]. split; [done|]. split; [done|]. eexists _, _. split; [done|]. split; [done|].
    split; [apply Forall_singleton; cbn; lia|apply NoDup_singleton].
  - exists (mkGroup (next (comp w)) (chart_of c1 r) els false). split; [unfold current; cbn; by rewrite Nat.eqb_refl|]. split; [done|]. split; [done|]. split; [constructor|].
    split; [symmetry; apply layout_rect|]. cbn [g_els g_root]. by rewrite Hsay.
  - unfold last_ok. cbn. by rewrite H6.
Qed.

Lemma render_any old d : t_children d <> [] -> exists els, render old d = Ok els.
Proof. unfold render. destruct (t_children d) as [|t ts]; [done|]. by eauto. Qed.

Lemma loaded_drawn w r : Drawn w -> good r -> exists w', step init w (WLoaded (Some r)) = Ok w' /\ Drawn w'.
Proof.
  intros (r0 & p & rs & Hg0 & [H1 H2 H3 H4 H5 H6 H7 H8 (Hb & Ht & gs & i & Hs & Hi & Hf)] & (g & Hc & _) & Hl) Hg.
  pose proof Hg as (Hnd & Hch & _).
  cbn [step]. unfold dispatch, hand_on. cbn [memoryResourcesReducer is_answer treemapView resource activeResource breadcrumbs].
  rewrite bool_decide_true, H1, H2 by done. cbn [negb emits changed fmap option_fmap option_map on_resource is_answer orb].
  unfold createChart. rewrite Hs. cbn [default id]. unfold current in Hc. rewrite Hs, Hi in Hc.
  destruct gs as [|g0 gs]; [done|]. cbn [id]. set (c1 := mkComp _ _ _ _ _ _ _ _ _ _ _ _ _). cbn [snd].
  assert (Hdata : t_data (chart_of c1 r) = r) by apply chart_data.
  destruct (render_any (g_els g0) (chart_of c1 r)) as [els E].
  { intros Hn. pose proof Hch as Hch'. rewrite <- Hdata, (has_tiles c1 r) in Hch' by constructor. by rewrite Hn in Hch'. }
  rewrite E. unfold on_active. cbn [set_drawing isFirst c1 last_clicked]. rewrite H7.
  assert (Hdiff : (match last_clicked (comp w) with Some l => same_obj l (S (answer w), r) | None => false end) = false).
  { unfold last_ok in Hl. destruct (last_clicked (comp w)) as [[b l]|]; [|done]. unfold same_obj. cbn [fst snd].
    by rewrite (proj2 (Nat.eqb_neq b (S (answer w)))) by lia. }
  rewrite Hdiff. cbn [negb andb]. set (c2 := set_last _ _).
  destruct (zoom_to_shows c2 (S (answer w)) r r) as (c3 & E3 & R & S & (K1 & K2 & K3 & K4 & K5) & L); [|done|constructor|done|].
  - split; [done|]. split; [done|]. eexists _, _. split; [done|]. split; [done|]. destruct Hf as [F1 F2].
    inversion F1; subst. split; [by constructor|done].
  - change (zoom_to c2 _) with (zoom_to c2 (Some (Datatypes.S (answer w), r))). rewrite E3.
    eexists. split; [reflexivity|]. exists r, r, [r]. split; [done|]. split; [|split; [done|]].
    + split; try done; [constructor|]. cbn. by rewrite K4.
    + unfold last_ok. cbn. rewrite L. by right.
Qed.

(** Without a resource the drawing is removed. *)
Lemma cleared w a :
  Idle w \/ Drawn w -> (a = GetSuccess None \/ exists g, a = SetGranularity g) ->
  exists w', dispatch init w a = Ok w' /\ Idle w'.
Proof.
  intros [Hw|(r & p & rs & _ & [H1 H2 H3 H4 H5 H6 H7 H8 _] & _)] Ha.
  - destruct Hw as (H1 & H2 & H3 & H4 & H5 & H6 & H7 & H8 & H9). unfold dispatch, hand_on.
    destruct Ha as [->|[g ->]]; cbn [memoryResourcesReducer treemapView resource activeResource breadcrumbs];
      rewrite bool_decide_true, H1, H2 by done; cbn [negb emits changed]; (eexists; split; [reflexivity|]; by repeat split).
  - unfold dispatch, hand_on.
    destruct Ha as [->|[g ->]]; cbn [memoryResourcesReducer treemapView resource activeResource breadcrumbs];
      rewrite bool_decide_true, H1, H2 by done; cbn [negb emits changed fmap option_fmap option_map on_resource on_active];
      (eexists; split; [reflexivity|]; by repeat split).
Qed.

(** *** The mouse and the transitions *)

Lemma same_drawing w c' gs' g' r p rs :
  good r -> synced (store w) (answer w) (comp w) r p rs -> shows (comp w) r p -> last_ok (answer w) (comp w) p ->
  kept (comp w) c' -> base c' = base (comp w) -> treemap c' = treemap (comp w) -> domain c' = domain (comp w) ->
  last_clicked c' = last_clicked (comp w) -> group c' = group (comp w) ->
  svg c' = Some gs' -> fresh_ids c' gs' -> current c' = Some g' -> g_fading g' = false ->
  (forall g, current (comp w) = Some g -> g_root g' = g_root g /\ says <$> g_els g' ≡ₚ says <$> g_els g) ->
  Drawn (set_comp w c').
Proof.
  intros Hg Hsy (g & Hc & Hf & Hr & Hs & Hd & Hp) Hl Hk Eb Et Ed El Eg Es Hfr Hc' Hf' Hsame.
  pose proof Hk as (_ & _ & _ & K4 & K5). assert (Hchart : chart_of c' r = chart_of (comp w) r).
  { unfold chart_of. by rewrite K4, K5. }
  destruct (Hsame g Hc) as [Er Ep]. exists r, p, rs. split; [done|]. split; [|split].
  - eapply kept_synced; [done|done|]. destruct (sy_ready _ _ _ _ _ _ Hsy) as (Hb & Ht & gs & i & _ & Hi & _).
    split; [cbn; congruence|]. split; [cbn; by rewrite Et, Ht, Hchart|]. exists gs', i. cbn. by rewrite Eg.
  - exists g'. cbn. rewrite Er, Ep, Hchart, Ed. by repeat split.
  - unfold last_ok. cbn. by rewrite El.
Qed.

Lemma find_on_group i f gs :
  List.find (fun g => (g_id g =? i)%nat) (on_group (Some i) f gs) =
    (fun g => mkGroup (g_id g) (g_root g) (f (g_els g)) (g_fading g)) <$> List.find (fun g => (g_id g =? i)%nat) gs.
Proof.
  induction gs as [|g gs IH]; [done|]. cbn [on_group fmap list_fmap List.find]. fold (on_group (Some i) f gs).
  destruct (Nat.eqb_spec (g_id g) i) as [<-|Hn].
  - rewrite bool_decide_true by done. cbn. by rewrite Nat.eqb_refl.
  - rewrite bool_decide_false by congruence. destruct (Nat.eqb_spec (g_id g) i); [done|]. exact IH.
Qed.

Lemma on_group_ids i f gs : g_id <$> on_group i f gs = g_id <$> gs.
Proof.
  unfold on_group. rewrite <- list_fmap_compose. apply list_fmap_ext. intros _ g _. cbn. by case_bool_decide.
Qed.

Lemma fresh_ids_same c c' gs gs' : next c' = next c -> g_id <$> gs' = g_id <$> gs -> fresh_ids c gs -> fresh_ids c' gs'.
Proof.
  intros Hn E [H1 H2]. unfold fresh_ids. rewrite E, Hn. split; [|done].
  apply (Forall_ids (fun n => (n < next c)%nat)). rewrite E. by apply (Forall_ids (fun n => (n < next c)%nat)).
Qed.

Lemma enter_says i els : says <$> mouse_enter i els ≡ₚ says <$> els.
Proof.
  unfold mouse_enter. destruct (els !! i) as [e|] eqn:E; [|done]. destruct (has_children _); [|done].
  rewrite fmap_app. cbn. change (says (set_look e hover_look)) with (says e).
  rewrite (delete_Permutation els i e E) at 2. cbn. by rewrite Permutation_app_comm.
Qed.

Lemma leave_says i els : says <$> mouse_leave i els = says <$> els.
Proof.
  unfold mouse_leave. destruct (els !! i) as [e|] eqn:E; [|done]. destruct (has_children _); [|done].
  rewrite list_fmap_insert. change (says (set_look e left_look)) with (says e). apply list_insert_id.
  by rewrite list_lookup_fmap, E.
Qed.

Lemma fade_says bs els : says <$> fade_texts bs els = says <$> els.
Proof.
  revert els. induction bs as [|b bs IH]; intros [|e els]; [done|done|done|]. cbn [fade_texts fmap list_fmap]. f_equal; [|apply IH].
  unfold fadeText. by destruct (negb _ || negb _).
Qed.

Lemma mouse_follows w f tip :
  Drawn w -> (forall els, says <$> f els ≡ₚ says <$> els) ->
  Drawn (set_comp w (set_tooltip (update_els (comp w) f) tip)).
Proof.
  intros (r & p & rs & Hg & Hsy & Hs & Hl) Hf. pose proof Hs as (g & Hc & Hfd & _).
  destruct (sy_ready _ _ _ _ _ _ Hsy) as (Hb & Ht & gs & i & Hv & Hi & Hfr).
  eapply (same_drawing w _ (on_group (Some i) f gs) (mkGroup (g_id g) (g_root g) (f (g_els g)) (g_fading g)) r p rs); try done.
  - cbn. by rewrite Hv, Hi.
  - eapply fresh_ids_same; [|apply on_group_ids|exact Hfr]. done.
  - unfold current in *. cbn. rewrite Hv, Hi in *. cbn. by rewrite find_on_group, Hc.
  - intros g' Hg'. rewrite Hc in Hg'. injection Hg' as <-. by split; [|apply Hf].
Qed.

Definition ended (i : nat) (bs : list Boxes) (g : Group) : Group :=
  if (g_id g =? i)%nat then mkGroup (g_id g) (g_root g) (fade_texts bs (g_els g)) (g_fading g) else g.

Lemma ended_id i bs g : g_id (ended i bs g) = g_id g.
Proof. unfold ended. by destruct (g_id g =? i)%nat. Qed.

Lemma find_ended j i bs gs g :
  List.find (fun g => (g_id g =? j)%nat) gs = Some g -> g_fading g = false ->
  List.find (fun g => (g_id g =? j)%nat) (end_transition i bs gs) = Some (ended i bs g).
Proof.
  intros Hg Hf. induction gs as [|h gs IH]; [done|]. cbn [List.find] in Hg. unfold end_transition. cbn [List.filter].
  destruct (g_id h =? j)%nat eqn:E.
  - injection Hg as ->. rewrite Hf, andb_false_r. cbn [negb fmap list_fmap List.find]. fold (ended i bs g).
    by rewrite ended_id, E.
  - destruct (negb _); cbn [fmap list_fmap List.find]; [|by apply IH]. fold (ended i bs h). rewrite ended_id, E. by apply IH.
Qed.

Lemma ended_ids i bs gs : sublist (g_id <$> end_transition i bs gs) (g_id <$> gs).
Proof.
  induction gs as [|g gs IH]; [done|]. unfold end_transition. cbn [List.filter]. destruct (negb _); cbn [fmap list_fmap].
  - fold (ended i bs g). rewrite ended_id. by constructor.
  - by constructor.
Qed.

Lemma end_follows w i bs : Drawn w -> exists w', step init w (WEnd i bs) = Ok w' /\ Drawn w'.
Proof.
  intros (r & p & rs & Hg & Hsy & Hs & Hl). pose proof Hs as (g & Hc & Hfd & _).
  destruct (sy_ready _ _ _ _ _ _ Hsy) as (Hb & Ht & gs & j & Hv & Hj & [F1 F2]).
  eexists. split; [reflexivity|]. eapply (same_drawing w _ (end_transition i bs gs) (ended i bs g) r p rs); try done.
  - cbn. by rewrite Hv.
  - split; [|eapply sublist_NoDup; [exact F2|apply ended_ids]].
    apply (Forall_ids (fun n => (n < next (comp w))%nat)). apply Forall_forall. intros n Hn.
    apply (Forall_ids (fun n => (n < next (comp w))%nat)) in F1. rewrite Forall_forall in F1. apply F1.
    eapply elem_of_sublist; [exact Hn|apply ended_ids].
  - unfold current in *. cbn. rewrite Hv, Hj in *. cbn. by apply find_ended.
  - unfold ended. by destruct (g_id g =? i)%nat.
  - intros g' Hg'. rewrite Hc in Hg'. injection Hg' as <-. unfold ended. destruct (g_id g =? i)%nat; [|done].
    by split; [|cbn; rewrite fade_says].
Qed.

(** *** Sequences of events *)

(** The view and the window change only while a resource is loaded. *)
Fixpoint polite (loaded : bool) (evs : list Event) : bool :=
  match evs with
  | [] => true
  | WLoaded o :: evs' => polite (is_some o) evs'
  | WGranularity _ :: evs' => polite false evs'
  | (WView _ | WResize _ _) :: evs' => loaded && polite loaded evs'
  | _ :: evs' => polite loaded evs'
  end.

Definition good_event (ev : Event) : Prop := match ev with WLoaded (Some r) => good r | _ => True end.

Lemma drawn_step w ev :
  Drawn w -> good_event ev ->
  exists w', step init w ev = Ok w' /\
    match ev with WLoaded None | WGranularity _ => Idle w' | _ => Drawn w' end.
Proof.
  intros Hw Hev. destruct ev as [[r|]|g|v|i|i|i| |x y|i|i|i bs].
  - by apply loaded_drawn.
  - apply cleared; [by right|by left].
  - apply cleared; [by right|right; by exists g].
  - by apply view_follows.
  - by apply (choices_follow w Hw i).
  - by apply (choices_follow w Hw i).
  - by apply wclick_follows.
  - by apply escape_follows.
  - by apply resize_follows.
  - eexists. split; [reflexivity|]. apply mouse_follows; [done|apply enter_says].
  - eexists. split; [reflexivity|]. apply mouse_follows; [done|]. intros els. by rewrite leave_says.
  - by apply end_follows.
Qed.

Lemma idle_step w ev :
  Idle w -> good_event ev -> match ev with WView _ | WResize _ _ => False | _ => True end ->
  exists w', step init w ev = Ok w' /\ match ev with WLoaded (Some _) => Drawn w' | _ => Idle w' end.
Proof.
  intros Hw Hev Hp. pose proof Hw as (H1 & H2 & H3 & H4 & H5 & H6 & H7 & H8 & H9).
  destruct ev as [[r|]|g|v|i|i|i| |x y|i|i|i bs]; try done.
  - by apply loaded_idle.
  - apply cleared; [by left|by left].
  - apply cleared; [by left|right; by exists g].
  - exists w. cbn [step]. by rewrite H2.
  - exists w. cbn [step]. by rewrite H3.
  - exists w. cbn [step]. unfold current. by rewrite H9.
  - exists w. cbn [step]. unfold escape_key. by rewrite H4.
  - eexists. split; [reflexivity|]. repeat split; try done. cbn. by rewrite H9.
  - eexists. split; [reflexivity|]. repeat split; try done. cbn. by rewrite H9.
  - eexists. split; [reflexivity|]. repeat split; try done. cbn. by rewrite H9.
Qed.

Lemma run_follows evs : forall w (loaded : bool),
  (if loaded then Drawn w else Idle w) -> polite loaded evs = true -> Forall good_event evs ->
  exists w', run init w evs = Ok w' /\ (Idle w' \/ Drawn w').
Proof.
  induction evs as [|ev evs IH]; intros w loaded Hw Hp Hg.
  { exists w. split; [done|]. destruct loaded; [by right|by left]. }
  inversion Hg; subst. cbn [run]. destruct loaded.
  - destruct (drawn_step w ev) as (w' & -> & Hw'); [done|done|].
    destruct ev as [[r|]|g|v|i|i|i| |x y|i|i|i bs]; first [by apply (IH w' true)|by apply (IH w' false)].
  - destruct (idle_step w ev) as (w' & -> & Hw'); [done|done|by destruct ev|].
    destruct ev as [[r|]|g|v|i|i|i| |x y|i|i|i bs]; try done; first [by apply (IH w' true)|by apply (IH w' false)].
Qed.
End Follows.

(** *** The scales *)

Lemma math_round_le p q : (p <= q)%Q -> math_round p <= math_round q.
Proof. intros Hpq. apply Qfloor_resp_le. lra. Qed.

Lemma math_round_int n : math_round (inject_Z n) = n.
Proof.
  unfold math_round. apply Z.le_antisymm.
  - enough (Qfloor (inject_Z n + (1 # 2)) < n + 1) by lia. rewrite Zlt_Qlt, inject_Z_plus.
    pose proof (Qfloor_le (inject_Z n + (1 # 2))). change (inject_Z 1) with 1%Q. lra.
  - rewrite <- (Qfloor_Z n) at 1. apply Qfloor_resp_le. lra.
Qed.

Lemma scale_le a b n x y : (a <= b)%Q -> 0 <= n -> (x <= y)%Q -> scale a b n x <= scale a b n y.
Proof.
  intros Hab Hn Hxy. unfold scale. apply math_round_le. destruct (Qeq_bool a b) eqn:E; [lra|].
  apply Qeq_bool_neq in E. assert (Hn' : (0 <= inject_Z n)%Q) by (rewrite <- (Zle_Qle 0); lia).
  assert (Hd : (0 < b - a)%Q) by (apply Qle_lteq in Hab as [|]; [lra|done]).
  pose proof (fraction_mono (x - a) (y - a) (b - a) Hd ltac:(lra)). rewrite !(Qmult_comm (inject_Z n)). by apply Qmult_le_compat_r.
Qed.

Lemma scale_ends a b n : (a <= b)%Q -> 0 <= n -> 0 <= scale a b n a /\ scale a b n b <= n.
Proof.
  intros Hab Hn. unfold scale. assert (Hn' : (0 <= inject_Z n)%Q) by (rewrite <- (Zle_Qle 0); lia).
  rewrite <- (math_round_int 0) at 1. rewrite <- (math_round_int n) at 3. split; apply math_round_le; change (inject_Z 0) with 0%Q.
  - destruct (Qeq_bool a b) eqn:E; [nra|]. apply Qeq_bool_neq in E.
    assert (Hd : (0 < b - a)%Q) by (apply Qle_lteq in Hab as [|]; [lra|done]).
    apply Qmult_le_0_compat; [done|]. apply Qle_shift_div_l; lra.
  - destruct (Qeq_bool a b) eqn:E; [nra|]. apply Qeq_bool_neq in E.
    assert (Hd : (0 < b - a)%Q) by (apply Qle_lteq in Hab as [|]; [lra|done]).
    assert (Hone : ((b - a) / (b - a) == 1)%Q) by (field; lra). rewrite Hone. lra.
Qed.

Definition within (n : Z * Z) (p : Place) : Prop :=
  0 <= p_x p /\ 0 <= p_width p /\ p_x p + p_width p <= n.1 /\ 0 <= p_y p /\ 0 <= p_height p /\ p_y p + p_height p <= n.2.

Definition disjoint_places (p q : Place) : Prop :=
  p_x p + p_width p <= p_x q \/ p_x q + p_width q <= p_x p \/
  p_y p + p_height p <= p_y q \/ p_y q + p_height q <= p_y p.

Lemma position_within dom n t :
  proper dom -> 0 <= n.1 -> 0 <= n.2 -> inside (t_rect t) dom -> within n (position dom n t).
Proof.
  intros [Px Py] Hw Hh [(X1 & X2 & X3) (Y1 & Y2 & Y3)]. unfold within, position. cbn [p_x p_y p_width p_height].
  destruct (scale_ends (x0 dom) (x1 dom) n.1 Px Hw), (scale_ends (y0 dom) (y1 dom) n.2 Py Hh).
  pose proof (scale_le _ _ n.1 _ _ Px Hw X1). pose proof (scale_le _ _ n.1 _ _ Px Hw X2). pose proof (scale_le _ _ n.1 _ _ Px Hw X3).
  pose proof (scale_le _ _ n.2 _ _ Py Hh Y1). pose proof (scale_le _ _ n.2 _ _ Py Hh Y2). pose proof (scale_le _ _ n.2 _ _ Py Hh Y3).
  lia.
Qed.

Lemma position_disjoint dom n t u :
  proper dom -> 0 <= n.1 -> 0 <= n.2 -> apart (t_rect t) (t_rect u) -> disjoint_places (position dom n t) (position dom n u).
Proof.
  intros [Px Py] Hw Hh Ha. unfold disjoint_places, position. cbn [p_x p_y p_width p_height].
  destruct Ha as [Ha|[Ha|[Ha|Ha]]]; [left|right; left|right; right; left|right; right; right];
    pose proof (scale_le _ _ n.1 _ _ Px Hw Ha); pose proof (scale_le _ _ n.2 _ _ Py Hh Ha); lia.
Qed.

Lemma nested_unfold d r cs : nested (mkTile d r cs) <-> Forall (fun c => inside (t_rect c) r) cs /\ all_apart (t_rect <$> cs) /\ Forall nested cs.
Proof.
  cbn [nested]. set (all := fix all (cs : list Tile) : Prop := _).
  assert (Hall : forall cs, all cs <-> Forall nested cs).
  { clear. induction cs as [|c cs IH]; [by split|]. cbn. rewrite IH, Forall_cons. done. }
  by rewrite Hall.
Qed.

Lemma nested_sub u t : sub u t -> nested t -> proper (t_rect t) -> nested u /\ proper (t_rect u).
Proof.
  induction 1 as [t|u c [d r cs] Hc _ IH]; [done|]. intros (Hi & _ & Hn)%nested_unfold _. cbn in Hc.
  rewrite Forall_forall in Hi, Hn. apply IH; [by apply Hn|]. destruct (Hi c Hc) as [(_ & H1 & _) (_ & H2 & _)]. by split.
Qed.

Section Properties.
Context `{D3}.

Lemma says_resources c r p g :
  t_data (g_root g) = p -> sub (g_root g) (chart_of c r) -> says <$> g_els g ≡ₚ about <$> t_children (g_root g) ->
  (fun e => (t_data (datum e), name_text e, val_text e, count_texts e)) <$> g_els g ≡ₚ
  (fun x => (x, Some (executableName (r_name x)), Some (r_value x), [length (r_children x)])) <$> r_children p.
Proof.
  intros <- Hs Hp. rewrite <- (chart_children c r _ Hs). set (f := fun q : Tile * option string * option Z * list nat =>
    (t_data q.1.1.1, q.1.1.2, q.1.2, q.2)). apply (fmap_Permutation f) in Hp. by rewrite <- !list_fmap_compose in *.
Qed.

(** C32: The treemap follows the store through any sequence of answers, clicks in the chart, in the table and on the
    breadcrumbs, escape keys, changes of the view and of the window, mouse movements and ends of transitions, as long as
    the view and the window change only while a tree is loaded and the loaded trees have distinct numbers, children and one
    node named root: nothing raises, and while a resource is active, the current group is not the fading one and shows the
    name, the value and the number of children of exactly its children, and the last breadcrumb is the active resource. *)
Theorem treemap_follows_store (granularity : Z) (view : TreemapView) el evs :
  let init := initialState granularity view in
  Forall good_event evs -> polite false evs = true ->
  exists w, run init (opened init el) evs = Ok w /\
    match activeResource (store w) with
    | None => current (comp w) = None
    | Some p => last (breadcrumbs (store w)) = Some (Some p) /\
        exists g, current (comp w) = Some g /\ g_fading g = false /\ domain (comp w) = t_rect (g_root g) /\
          (fun e => (t_data (datum e), name_text e, val_text e, count_texts e)) <$> g_els g ≡ₚ
          (fun x => (x, Some (executableName (r_name x)), Some (r_value x), [length (r_children x)])) <$> r_children p
    end.
Proof.
  intros init Hg Hp. destruct (run_follows init evs (opened init el) false) as (w & Hw & Hi); [by repeat split|done|done|].
  exists w. split; [done|]. destruct Hi as [(H1 & H2 & _ & _ & _ & _ & _ & _ & H9)|(r & p & rs & _ & Hsy & (g & S1 & S2 & S3 & S4 & S5 & S6) & _)].
  - rewrite H2. unfold current. by rewrite H9.
  - rewrite (sy_active _ _ _ _ _ _ Hsy). split.
    + by rewrite (sy_crumbs _ _ _ _ _ _ Hsy), fmap_last, (path_last _ _ _ (sy_path _ _ _ _ _ _ Hsy)).
    + exists g. split; [done|]. split; [done|]. split; [done|]. by eapply says_resources.
Qed.

Lemma all_apart_perm l l' : l ≡ₚ l' -> all_apart l -> all_apart l'.
Proof.
  intros Hp%symmetry Ha i j a b Hij Hi Hj. apply Permutation_inj in Hp as (_ & f & Hf & Hl).
  rewrite Hl in Hi, Hj. eapply Ha; [|exact Hi|exact Hj]. intros E. by apply Hf in E.
Qed.

(** C33: Zoomed at any node of any such sequence, the rectangles the drawing shows lie within a drawing of positive size, have
    no negative extent and do not overlap, after the rounding to whole pixels. *)
Theorem zoomed_fits (granularity : Z) (view : TreemapView) el evs w g :
  let init := initialState granularity view in
  Forall good_event evs -> polite false evs = true -> run init (opened init el) evs = Ok w ->
  0 < (size (comp w)).1 -> 0 < (size (comp w)).2 -> current (comp w) = Some g ->
  let places := (fun e => position (domain (comp w)) (size (comp w)) (datum e)) <$> g_els g in
  Forall (within (size (comp w))) places /\
  forall i j p q, i <> j -> places !! i = Some p -> places !! j = Some q -> disjoint_places p q.
Proof.
  intros init Hg Hp Hrun Hw Hh Hc. destruct (run_follows init evs (opened init el) false) as (w' & Hw' & Hi); [by repeat split|done|done|].
  assert (w' = w) as -> by congruence. destruct Hi as [(_ & _ & _ & _ & _ & _ & _ & _ & H9)|(r & p & rs & _ & _ & (g' & S1 & _ & _ & S4 & S5 & S6) & _)].
  { unfold current in Hc. by rewrite H9 in Hc. }
  assert (g' = g) as -> by congruence. assert (Hd : datum <$> g_els g ≡ₚ t_children (g_root g)).
  { apply (fmap_Permutation (fun q : Tile * option string * option Z * list nat => q.1.1.1)) in S6.
    rewrite <- !list_fmap_compose in S6. by rewrite (list_fmap_ext _ id), list_fmap_id in S6. }
  destruct (nested_sub _ _ S4) as [Hn Hpr]; [apply layout_nested; [by rewrite <- (Zlt_Qlt 0)|by rewrite <- (Zlt_Qlt 0)|by split; cbn]| |].
  { unfold chart_of, createTreemapValues. rewrite layout_rect. by split; cbn. }
  rewrite S5. destruct (g_root g) as [d rect cs]. apply nested_unfold in Hn as (Hin & Hap & _). cbn [t_rect t_children] in *.
  cbn zeta. split.
  - apply Forall_fmap, (Forall_fmap datum (fun t => within _ (position rect _ t))). rewrite Hd.
    eapply Forall_impl; [exact Hin|]. intros t Ht. apply position_within; [done|lia|lia|done].
  - intros i j a b Hij Hi Hj. rewrite list_lookup_fmap in Hi, Hj.
    destruct (g_els g !! i) as [e|] eqn:Ei; [|done]. destruct (g_els g !! j) as [f|] eqn:Ej; [|done].
    injection Hi as <-. injection Hj as <-. apply position_disjoint; [done|lia|lia|].
    apply (all_apart_perm _ (t_rect <$> (datum <$> g_els g))) in Hap; [|by rewrite Hd].
    eapply Hap; [exact Hij|by rewrite !list_lookup_fmap, Ei|by rewrite !list_lookup_fmap, Ej].
Qed.
End Properties.

(** ** A session *)

Definition tall_tree : Resource :=
  mkResource (mkName "root" None) 9
    [mkResource (mkName "a" None) 6 [mkResource (mkName "b" None) 4 [] 0; mkResource (mkName "c" None) 2 [] 1] 2;
     mkResource (mkName "d" None) 3 [] 3] 4.

Lemma tall_good : good tall_tree.
Proof.
  split; [|split; [done|]].
  - apply (bool_decide_unpack _). by vm_compute.
  - intros x Hx. assert (Hin : x ∈ tall_tree :: r_children tall_tree ++ (r_children tall_tree ≫= r_children)).
    { inversion Hx as [|? c ? Hc Hx']; subst; [apply list_elem_of_here|]. cbn in Hc. apply list_elem_of_further, elem_of_app.
      apply elem_of_cons in Hc as [->|Hc]; [|apply list_elem_of_singleton in Hc as ->].
      - inversion Hx' as [|? e ? He Hx'']; subst; [left; apply list_elem_of_here|right]. cbn in He |- *.
        apply elem_of_cons in He as [->|He]; [|apply list_elem_of_singleton in He as ->];
          inversion Hx'' as [|? f ? Hf]; subst; try by apply not_elem_of_nil in Hf.
        + apply list_elem_of_here.
        + apply list_elem_of_further, list_elem_of_here.
      - inversion Hx' as [|? e ? He]; subst; [|by apply not_elem_of_nil in He]. left. apply list_elem_of_further, list_elem_of_here. }
    cbn in Hin. repeat (apply elem_of_cons in Hin as [->|Hin]; [by split|]). by apply not_elem_of_nil in Hin.
Qed.

(** Into a node, with the mouse over it, back with the key, and in a smaller window. *)
Definition session : list Event :=
  [WLoaded (Some tall_tree); WEnter 0; WClick 1; WEnd 0 []; WView DICE; WEscape; WRow 0; WCrumb 0; WResize 52 22; WClick 0].

Lemma session_good : Forall good_event session.
Proof. constructor; [apply tall_good|]. repeat (constructor; [exact I|]). constructor. Qed.

Lemma treemap_follows_store_witness :
  Forall good_event session /\ polite false session = true /\
  exists w, @run column_d3 (initialState 1 BINARY) (opened (initialState 1 BINARY) (102, 52)) session = Ok w /\
    (r_id <$> activeResource (store w)) = Some 2%nat.
Proof.
  assert (Hg : Forall good_event session) by exact session_good.
  split; [exact Hg|]. split; [reflexivity|].
  destruct (@treemap_follows_store column_d3 1 BINARY (102, 52) session Hg eq_refl) as (w & Hw & _).
  exists w. split; [exact Hw|]. revert Hw. vm_compute. by intros [= <-].
Defined.

Lemma session_ends :
  match @run column_d3 (initialState 1 BINARY) (opened (initialState 1 BINARY) (102, 52)) session with
  | Ok w => is_some (current (comp w)) && (0 <? (size (comp w)).1) && (0 <? (size (comp w)).2)
  | Throw _ => false
  end = true.
Proof. vm_compute. reflexivity. Qed.

Lemma zoomed_fits_witness :
  exists w g, @run column_d3 (initialState 1 BINARY) (opened (initialState 1 BINARY) (102, 52)) session = Ok w /\
    current (comp w) = Some g /\ 0 < (size (comp w)).1 /\ 0 < (size (comp w)).2 /\
    Forall (within (size (comp w))) ((fun e => position (domain (comp w)) (size (comp w)) (datum e)) <$> g_els g).
Proof.
  pose proof session_ends as Hend. destruct (run _ _ session) as [w|e] eqn:E; [|discriminate Hend].
  apply andb_true_iff in Hend as [[Hc H1%Z.ltb_lt]%andb_true_iff H2%Z.ltb_lt].
  destruct (current (comp w)) as [g|] eqn:Eg; [|discriminate Hc].
  exists w, g. split; [reflexivity|]. split; [exact Eg|]. split; [exact H1|]. split; [exact H2|].
  apply (@zoomed_fits column_d3 1 BINARY (102, 52) session w g session_good eq_refl E H1 H2 Eg).
Defined.

(** ** Where the chart fails *)

(** While nothing is loaded, another view and another size of the window raise; so does a tree without children. *)
Lemma chart_raises `{D3} granularity view v el n value i :
  let init := initialState granularity view in
  (v <> view -> step init (opened init el) (WView v) = Throw no_data) /\
  (forall x y, step init (opened init el) (WResize x y) = Throw no_svg) /\
  step init (opened init el) (WLoaded (Some (mkResource n value [] i))) = Throw not_iterable.
Proof.
  intros init. split; [|split].
  - intros Hv. cbn [step]. unfold dispatch, hand_on. cbn [memoryResourcesReducer treemapView init initialState store opened].
    by rewrite bool_decide_false.
  - done.
  - cbn [step]. unfold dispatch, hand_on. cbn [memoryResourcesReducer treemapView].
    rewrite bool_decide_true by done. cbn [negb emits]. unfold on_resource. cbn [changed resource init initialState store opened emits fmap option_fmap option_map].
    unfold createChart. cbn [comp svg opened default]. set (c1 := mkComp _ _ _ _ _ _ _ _ _ _ _ _ _). cbn [snd].
    unfold render. destruct (t_children (chart_of c1 (mkResource n value [] i))) as [|t ts] eqn:E; [done|].
    pose proof (chart_children c1 (mkResource n value [] i) _ (sub_refl _)) as Hp. rewrite E, chart_data in Hp.
    by apply Permutation_nil_r in Hp.
Qed.

(** An element that the mouse has left does not look as before: the box of its number of children keeps another colour. *)
Lemma leave_does_not_restore e :
  has_children (t_data (datum e)) = true -> look e = plain_look (t_data (datum e)) ->
  exists e', mouse_leave 0 (mouse_enter 0 [e]) = [e'] /\ bg_fill (look e') <> bg_fill (look e) /\
    rect_fill (look e') = rect_fill (look e).
Proof.
  intros Hc Hl. unfold mouse_leave, mouse_enter. cbn [lookup list_lookup]. rewrite Hc. cbn -[has_children]. rewrite Hc. eexists. split; [reflexivity|].
  rewrite Hl. unfold plain_look. by rewrite Hc.
Qed.

(** An answer that comes while a group fades takes the fading group for the drawing: the group of the node the user was
    in is never removed, and its rectangles stay in the drawing below the new ones. *)
Lemma group_left_behind :
  exists w, @run column_d3 (initialState 1 BINARY) (opened (initialState 1 BINARY) (102, 52))
    [WLoaded (Some tall_tree); WClick 0; WLoaded (Some tall_tree); WEnd 0 []; WEnd 1 []; WEnd 2 []] = Ok w /\
    option_map (map (fun g => (g_id g, g_fading g))) (svg (comp w)) = Some [(1%nat, false); (2%nat, false)].
Proof. eexists. split; [vm_compute; reflexivity|]. reflexivity. Qed.
End TreemapChart.
