(* ===== verification/DhtDrawing.v ===== *)
(** * The drawing of the routing table

    [createGraph] of [src/frontend/src/app/features/network/dht-graph/network-dht-graph-binary-tree]:
    the circles, the lines, the digits and the scale of the graph, on the tree of
    [DhtGraph]. The layout [d3.tree] is a parameter with its documented properties;
    coordinates are real numbers. *)

From Stdlib Require Import Reals Lra.
From stdpp Require Import base list strings.
From S2P Require Import Prelude SharedLib DhtTree DhtGraph.

Module DhtDrawing.
Import DhtTree.
Open Scope R_scope.

(** ** Layout *)

(** A node of [d3.hierarchy] with the place the layout gives it. *)
Inductive ptree := PNode (data : tree) (x y : R) (children : list ptree).

Definition p_data (p : ptree) : tree := let '(PNode d _ _ _) := p in d.
Definition p_x (p : ptree) : R := let '(PNode _ x _ _) := p in x.
Definition p_y (p : ptree) : R := let '(PNode _ _ y _) := p in y.
Definition p_children (p : ptree) : list ptree := let '(PNode _ _ _ cs) := p in cs.

(** The nodes stand for the nodes of the tree, with the same children in order. *)
Fixpoint faithful (p : ptree) : Prop :=
  match p with
  | PNode t _ _ cs =>
    p_data <$> cs = t_children t /\
    (fix all (cs : list ptree) : Prop := match cs with [] => True | c :: cs' => faithful c /\ all cs' end) cs
  end.

Fixpoint zip_levels {A} (a b : list (list A)) : list (list A) :=
  match a, b with
  | [], _ => b
  | _, [] => a
  | x :: a', y :: b' => (x ++ y) :: zip_levels a' b'
  end.

(** The nodes by depth, each with its parent. *)
Fixpoint levels (parent : option ptree) (p : ptree) : list (list (option ptree * ptree)) :=
  match p with
  | PNode _ _ _ cs => [(parent, p)] :: foldr zip_levels [] (map (levels (Some p)) cs)
  end.

(** [root.descendants()] goes level by level. *)
Definition descendants (p : ptree) : list (option ptree * ptree) := concat (levels None p).

(** [d3.hierarchy(data)] and [d3.tree().nodeSize([w, h])]: nodes of one depth lie on a
    line, at least the width of a node from each other. *)
Class TreeLayout := mkLayout {
  place : R -> R -> tree -> ptree;
  place_data : forall w h t, p_data (place w h t) = t /\ faithful (place w h t);
  place_depth : forall w h t k l n, 0 < w -> 0 < h -> levels None (place w h t) !! k = Some l -> n ∈ l -> p_y n.2 = INR k * h;
  place_apart : forall w h t k l i j n m, 0 < w -> 0 < h -> levels None (place w h t) !! k = Some l ->
    l !! i = Some n -> l !! j = Some m -> i <> j -> w <= Rabs (p_x n.2 - p_x m.2)
}.

(** ** Drawing *)

Definition nodeWidth : R := 25.
Definition nodeHeight : R := 25.
Definition radius : R := 8.

Record Circle := mkCircle { c_peer : Peer; c_x : R; c_y : R; fill : string; stroke : option string }.
Record Line := mkLine { l_from : R * R; l_to : R * R; dashed : bool }.
Record Text := mkText { t_x : R; t_y : R; digit : option bool }.

(** [zoomIdentity.translate(x, y).scale(k)] *)
Record Transform := mkTransform { tr_x : R; tr_y : R; tr_k : R }.

Record Drawing := mkDrawing { circles : list Circle; lines : list Line; texts : list Text; transform : Transform }.

Section Graph.
Context `{TreeLayout} (connection : Peer -> string) (peers : list Peer).

Definition colour (p : Peer) : string :=
  if DhtGraph.isOrigin peers p then "var(--base-surface)"
  else
    let c := connection p in
    if String.eqb c "Connected" then "var(--success-primary)"
    else if String.eqb c "Can Connect" || String.eqb c "Not Connected" then "var(--base-tertiary)"
    else if String.eqb c "Cannot Connect" then "var(--warn-primary)"
    else "var(--base-secondary)".

Definition circle (n : ptree) : option Circle :=
  (fun p => mkCircle p (p_x n) (p_y n) (colour p)
     (if DhtGraph.isOrigin peers p then Some "var(--special-selected-alt-1-primary)" else None)) <$> t_peer (p_data n).

(** A line is cut at the circle of its source or, when the source has none, at the one
    of its target. *)
Definition line (source target : ptree) : Line :=
  let dx := p_x target - p_x source in
  let dy := p_y target - p_y source in
  let dr := sqrt (dx * dx + dy * dy) in
  let offsetX := (dx / dr) * 8 in
  let offsetY := (dy / dr) * 8 in
  let is_dashed := if Req_dec_T (p_x source) (p_x target) then true else false in
  match t_peer (p_data source), t_peer (p_data target) with
  | Some _, _ => mkLine (p_x source + offsetX, p_y source + offsetY) (p_x target, p_y target) is_dashed
  | None, Some _ => mkLine (p_x source, p_y source) (p_x target - offsetX, p_y target - offsetY) is_dashed
  | None, None => mkLine (p_x source, p_y source) (p_x target, p_y target) is_dashed
  end.

Definition prevBranch (t : tree) : option bool := let '(Node _ _ _ br) := t in br.

(** The digit beside a line that is not upright. *)
Definition text (parent d : ptree) : option Text :=
  if Req_dec_T (p_x d) (p_x parent) then None
  else Some (mkText ((p_x d + p_x parent) / 2 + (if Rlt_dec (p_x parent) (p_x d) then 10 else -10))
               ((p_y d + nodeHeight / 2) - nodeHeight + (if Rlt_dec (p_y d) (p_y parent) then 2 else -2))
               (prevBranch (p_data d))).

Definition with_parent {A} (f : ptree -> ptree -> A) (l : list (option ptree * ptree)) : list A :=
  omap (fun n => (fun p => f p n.2) <$> n.1) l.

(** [nodesG.node().getBBox()]: the width and the height of the circles. *)
Definition extent (l : list R) : R :=
  match l with
  | [] => 0
  | x :: l' => (foldr Rmax x l' + radius) - (foldr Rmin x l' - radius)
  end.

Definition fit (clientWidth clientHeight : R) (cs : list Circle) : Transform :=
  let width := extent (c_x <$> cs) in
  let height := extent (c_y <$> cs) in
  let scale := Rmin (clientWidth / width) (clientHeight / height) in
  mkTransform ((clientWidth - width * scale) / 2 + width / 2 * scale) ((clientHeight - height * scale) / 2) (scale * 0.9).

(** [createGraph()]; the nodes of a tree that is [null] have no peer to read. *)
Definition createGraph (clientWidth clientHeight : R) (data : option tree) : result Drawing :=
  match data with
  | None => Throw "Cannot read properties of null (reading 'peer')"
  | Some t =>
    let nodes := descendants (place nodeWidth nodeHeight t) in
    let cs : list Circle := omap (fun n => circle n.2) nodes in
    Ok (mkDrawing cs (with_parent line nodes) (omap (fun o => o) (with_parent text nodes)) (fit clientWidth clientHeight cs))
  end.
End Graph.

(** ** Levels *)

Fixpoint ptree_nested_ind (P : ptree -> Prop)
    (Hnode : forall d x y cs, Forall P cs -> P (PNode d x y cs)) (p : ptree) : P p.
Proof.
  destruct p as [d x y cs]. apply Hnode. induction cs as [|c cs IH]; constructor; [by apply ptree_nested_ind|done].
Qed.

Lemma faithful_unfold d x y cs : faithful (PNode d x y cs) <-> p_data <$> cs = t_children d /\ Forall faithful cs.
Proof.
  cbn [faithful]. set (all := fix all (cs : list ptree) : Prop := _).
  assert (Hall : forall cs, all cs <-> Forall faithful cs).
  { clear. induction cs as [|c cs IH]; [by split|]. cbn. by rewrite IH, Forall_cons. }
  by rewrite Hall.
Qed.

Lemma concat_zip {A} (a b : list (list A)) : concat (zip_levels a b) ≡ₚ concat a ++ concat b.
Proof.
  revert b. induction a as [|x a IH]; intros [|y b]; [done|done|by rewrite app_nil_r|]. cbn [zip_levels concat].
  rewrite IH. solve_Permutation.
Qed.

Lemma concat_levels pa d x y cs :
  concat (levels pa (PNode d x y cs)) ≡ₚ
  (pa, PNode d x y cs) :: concat ((fun c => concat (levels (Some (PNode d x y cs)) c)) <$> cs).
Proof.
  cbn [levels concat]. cbn. f_equiv. generalize (Some (PNode d x y cs)). intros q.
  induction cs as [|c cs IH]; [done|]. cbn. by rewrite concat_zip, IH.
Qed.

(** What holds of the nodes of a level of one child holds of those of the level. *)
Lemma zip_lookup {A} (a b : list (list A)) k l x :
  zip_levels a b !! k = Some l -> x ∈ l -> exists l', (a !! k = Some l' \/ b !! k = Some l') /\ x ∈ l'.
Proof.
  revert b k. induction a as [|u a IH]; intros [|v b] k Hk Hx; cbn in Hk; [done|by eauto|by eauto|].
  destruct k as [|k]; [|by apply (IH b k)]. injection Hk as <-.
  apply elem_of_app in Hx as [Hx|Hx]; [exists u|exists v]; by eauto.
Qed.

Lemma zip_lookup_2 {A} (a b : list (list A)) k l x :
  a !! k = Some l \/ b !! k = Some l -> x ∈ l -> exists l', zip_levels a b !! k = Some l' /\ x ∈ l'.
Proof.
  revert b k. induction a as [|u a IH]; intros [|v b] k [Hk|Hk] Hx; cbn; try done; [by eauto|by eauto|..];
    (destruct k as [|k]; [injection Hk as <-; eexists; split; [done|]; apply elem_of_app; by auto|]);
    apply (IH b k); by auto.
Qed.

Lemma levels_parent k : forall pa p l n,
  levels pa p !! S k = Some l -> n ∈ l -> exists q l', n.1 = Some q /\ levels pa p !! k = Some l' /\ (exists m, m ∈ l' /\ m.2 = q).
Proof.
  induction k as [|k IH]; intros pa [d x y cs] l n Hl Hn; cbn [levels lookup list_lookup] in *.
  - exists (PNode d x y cs), [(pa, PNode d x y cs)]. split; [|split; [done|]].
    + revert l Hl Hn. generalize (Some (PNode d x y cs)). intros q. induction cs as [|c cs IHc]; [done|]. intros l Hl Hn.
      cbn [map foldr] in Hl. apply (zip_lookup _ _ _ _ n) in Hl as (l' & [Hl|Hl] & Hn'); [|by eapply IHc|done].
      destruct c as [dc xc yc ccs]. cbn in Hl. injection Hl as <-. by apply list_elem_of_singleton in Hn' as ->.
    + eexists. split; [apply list_elem_of_here|done].
  - revert l Hl Hn. generalize (Some (PNode d x y cs)). intros q. induction cs as [|c cs IHc]; [done|]. intros l Hl Hn.
    cbn [map foldr] in *. apply (zip_lookup _ _ _ _ n) in Hl as (l' & [Hl|Hl] & Hn'); [| |done].
    + destruct (IH _ _ _ _ Hl Hn') as (r & l'' & E & Hl'' & m & Hm & Em).
      destruct (zip_lookup_2 (levels q c) (foldr zip_levels [] (map (levels q) cs)) k l'' m) as (l3 & H3 & Hm3); [by left|done|].
      exists r, l3. split; [done|]. split; [done|]. by exists m.
    + destruct (IHc _ Hl Hn') as (r & l'' & E & Hl'' & m & Hm & Em).
      destruct (zip_lookup_2 (levels q c) (foldr zip_levels [] (map (levels q) cs)) k l'' m) as (l3 & H3 & Hm3); [by right|done|].
      exists r, l3. split; [done|]. split; [done|]. by exists m.
Qed.

(** *** The nodes *)

Lemma omap_perm {A B} (f : A -> option B) (l l' : list A) : l ≡ₚ l' -> omap f l ≡ₚ omap f l'.
Proof.
  induction 1 as [|x l l' _ IH|x y l|]; [done| | |by etrans]; cbn; [by destruct (f x); [f_equiv|]|].
  destruct (f x), (f y); try done. constructor.
Qed.

Lemma levels_shown pa p :
  faithful p -> omap (fun n : option ptree * ptree => t_peer (p_data n.2)) (concat (levels pa p)) ≡ₚ DhtGraph.shown (p_data p).
Proof.
  revert pa. induction p as [d x y cs IH] using ptree_nested_ind. intros pa [Hd Hcs]%faithful_unfold.
  rewrite (omap_perm _ _ _ (concat_levels pa d x y cs)). destruct d as [dp ds di db]. cbn [t_children] in Hd. subst ds.
  cbn [p_data DhtGraph.shown]. rewrite <- list_fmap_compose.
  assert (Hrest : forall q, omap (fun n : option ptree * ptree => t_peer (p_data n.2)) (concat ((fun c => concat (levels q c)) <$> cs)) ≡ₚ
    concat ((DhtGraph.shown ∘ p_data) <$> cs)).
  { intros q. induction Hcs as [|c cs Hc Hcs IHcs]; [done|]. inversion IH as [|? ? IHc IHcs']; subst.
    cbn. rewrite omap_app, (IHc q Hc), IHcs by done. done. }
  cbn. destruct dp as [p|]; cbn; by rewrite Hrest.
Qed.

(** One node is the root; the others have a parent, so there is a line for each. *)
Lemma count_parents {A} (f : ptree -> ptree -> A) pa p :
  length (with_parent f (concat (levels pa p))) = (length (concat (levels pa p)) - (if pa then 0 else 1))%nat.
Proof.
  unfold with_parent. revert pa. induction p as [d x y cs IH] using ptree_nested_ind. intros pa.
  rewrite (omap_perm _ _ _ (concat_levels pa d x y cs)), (concat_levels pa d x y cs).
  assert (Hrest : forall q, length (omap (fun n : option ptree * ptree => (fun p => f p n.2) <$> n.1)
      (concat ((fun c => concat (levels (Some q) c)) <$> cs))) = length (concat ((fun c => concat (levels (Some q) c)) <$> cs))).
  { intros q. induction IH as [|c cs Hc _ IHcs]; [done|]. cbn. by rewrite omap_app, !length_app, Hc, IHcs, Nat.sub_0_r. }
  destruct pa as [q|]; cbn; rewrite Hrest; lia.
Qed.

(** ** Pairs *)

Lemma FOP_app {A} (R : A -> A -> Prop) l1 l2 :
  ForallOrdPairs R l1 -> ForallOrdPairs R l2 -> (forall x y, x ∈ l1 -> y ∈ l2 -> R x y) -> ForallOrdPairs R (l1 ++ l2).
Proof.
  intros H1 H2 Hc. induction H1 as [|x l1 Hx _ IH]; [done|]. cbn. constructor.
  - apply List.Forall_app. split; [done|]. apply Forall_forall. intros y Hy. apply Hc; [apply list_elem_of_here|done].
  - apply IH. intros z y Hz Hy. apply Hc; [by apply list_elem_of_further|done].
Qed.

Lemma FOP_lookup {A} (R : A -> A -> Prop) l :
  (forall i j x y, (i < j)%nat -> l !! i = Some x -> l !! j = Some y -> R x y) -> ForallOrdPairs R l.
Proof.
  induction l as [|z l IH]; intros Hl; constructor.
  - apply Forall_forall. intros y Hy. apply list_elem_of_lookup_1 in Hy as [j Hj]. by apply (Hl 0%nat (S j) z y); [lia| |].
  - apply IH. intros i j x y Hij Hi Hj. apply (Hl (S i) (S j)); [lia|done|done].
Qed.

Lemma FOP_concat {A} (R : A -> A -> Prop) ls :
  (forall k l, ls !! k = Some l -> ForallOrdPairs R l) ->
  (forall k k' l l' x y, (k < k')%nat -> ls !! k = Some l -> ls !! k' = Some l' -> x ∈ l -> y ∈ l' -> R x y) ->
  ForallOrdPairs R (concat ls).
Proof.
  induction ls as [|l ls IH]; intros H1 H2; [constructor|]. cbn. apply FOP_app.
  - by apply (H1 0%nat).
  - apply IH; [intros k; apply (H1 (S k))|]. intros k k' l1 l2 x y Hk. apply (H2 (S k) (S k')). lia.
  - intros x y Hx Hy. apply list_elem_of_In, in_concat in Hy as (l' & Hl' & Hy). rewrite <- list_elem_of_In in Hl'. rewrite <- list_elem_of_In in Hy.
    apply list_elem_of_lookup_1 in Hl' as [k Hk]. by apply (H2 0%nat (S k) l l'); [lia| | | |].
Qed.

Lemma FOP_omap {A B} (R : B -> B -> Prop) (f : A -> option B) l :
  ForallOrdPairs (fun x y => forall a b, f x = Some a -> f y = Some b -> R a b) l -> ForallOrdPairs R (omap f l).
Proof.
  induction 1 as [|x l Hx _ IH]; [constructor|]. cbn. destruct (f x) as [a|] eqn:E; [|done]. constructor; [|done].
  apply Forall_forall. intros b (y & Hy & Ey)%list_elem_of_omap. rewrite Forall_forall in Hx. by eapply Hx.
Qed.

(** ** Circles and lines *)

(** The circles do not touch. *)
Definition circles_apart (a b : Circle) : Prop :=
  (2 * radius) * (2 * radius) < (c_x a - c_x b) * (c_x a - c_x b) + (c_y a - c_y b) * (c_y a - c_y b).

(** The end of a line is on the way to [b] at the edge of the circle around [a]. *)
Definition at_edge (a b e : R * R) : Prop :=
  (e.1 - a.1) * (e.1 - a.1) + (e.2 - a.2) * (e.2 - a.2) = radius * radius /\
  exists s, 0 < s < 1 /\ e.1 = a.1 + s * (b.1 - a.1) /\ e.2 = a.2 + s * (b.2 - a.2).

Definition centre (p : ptree) : R * R := (p_x p, p_y p).

(** What the line between a node and its child looks like. *)
Definition joins (s t : ptree) (l : Line) : Prop :=
  match t_peer (p_data s), t_peer (p_data t) with
  | None, None => l_from l = centre s /\ l_to l = centre t
  | None, Some _ => l_from l = centre s /\ at_edge (centre t) (centre s) (l_to l)
  | Some _, _ => l_to l = centre t /\ at_edge (centre s) (centre t) (l_from l)
  end.

Lemma edge_fraction dx dy :
  dy = 25 -> let dr := sqrt (dx * dx + dy * dy) in
  0 < 8 / dr < 1 /\ (dx / dr * 8) * (dx / dr * 8) + (dy / dr * 8) * (dy / dr * 8) = 64.
Proof.
  intros -> dr. assert (Hs : 0 <= dx * dx + 25 * 25) by nra. pose proof (sqrt_sqrt _ Hs) as Hsq. fold dr in Hsq.
  assert (Hdr : 25 <= dr).
  { unfold dr. rewrite <- (sqrt_square 25) at 1 by lra. apply sqrt_le_1_alt. nra. }
  split.
  - split; [apply Rdiv_lt_0_compat; lra|]. apply Rmult_lt_reg_r with dr; [lra|]. unfold Rdiv. rewrite Rmult_assoc, Rinv_l by lra. lra.
  - replace (dx / dr * 8 * (dx / dr * 8) + 25 / dr * 8 * (25 / dr * 8)) with (64 * (dx * dx + 25 * 25) / (dr * dr)) by (field; lra).
    rewrite Hsq. field. nra.
Qed.

Lemma line_joins s t : p_y t = p_y s + 25 -> joins s t (line s t).
Proof.
  intros Hy. destruct (edge_fraction (p_x t - p_x s) (p_y t - p_y s)) as [Hf He]; [lra|].
  unfold joins, line, centre. set (dr := sqrt _) in *.
  assert (Hr : radius * radius = 64) by (unfold radius; lra).
  destruct (t_peer (p_data s)) as [p|]; [|destruct (t_peer (p_data t)) as [p|]]; [| |done]; cbn [l_from l_to];
    (split; [done|]); unfold at_edge; cbn [fst snd]; rewrite Hr.
  - split; [rewrite <- He; ring|]. exists (8 / dr). split; [done|]. split; unfold Rdiv; ring.
  - split; [rewrite <- He; ring|]. exists (8 / dr). split; [done|]. split; unfold Rdiv; ring.
Qed.

Section Graph.
Context `{TreeLayout} (connection : Peer -> string) (peers : list Peer).

Notation nodes t := (descendants (place nodeWidth nodeHeight t)).

Lemma circle_place n c : circle connection peers n = Some c -> c_x c = p_x n /\ c_y c = p_y n /\ t_peer (p_data n) = Some (c_peer c).
Proof. unfold circle. destruct (t_peer (p_data n)) as [p|]; [|done]. by intros [= <-]. Qed.

Lemma nodes_apart t : ForallOrdPairs circles_apart (omap (fun n => circle connection peers n.2) (nodes t)).
Proof.
  assert (Hw : 0 < nodeWidth) by (unfold nodeWidth; lra). assert (Hh : 0 < nodeHeight) by (unfold nodeHeight; lra).
  apply FOP_omap, FOP_concat.
  - intros k l Hl. apply FOP_lookup. intros i j n m Hij Hi Hj a b Ha Hb.
    apply circle_place in Ha as (Xa & Ya & _). apply circle_place in Hb as (Xb & Yb & _). unfold circles_apart. rewrite Xa, Xb.
    pose proof (place_apart _ _ _ _ _ _ _ _ _ Hw Hh Hl Hi Hj ltac:(lia)) as Hd. unfold nodeWidth, radius in *.
    set (dx := p_x n.2 - p_x m.2) in *. assert (25 * 25 <= dx * dx); [|pose proof (Rle_0_sqr (c_y a - c_y b)) as Hs; unfold Rsqr in Hs; lra].
    unfold Rabs in Hd. destruct (Rcase_abs dx); nra.
  - intros k k' l l' n m Hk Hl Hl' Hn Hm a b Ha Hb.
    apply circle_place in Ha as (Xa & Ya & _). apply circle_place in Hb as (Xb & Yb & _). unfold circles_apart. rewrite Ya, Yb.
    rewrite (place_depth _ _ _ _ _ _ Hw Hh Hl Hn), (place_depth _ _ _ _ _ _ Hw Hh Hl' Hm).
    assert (Hkk : INR k + 1 <= INR k') by (rewrite <- S_INR; apply le_INR; lia). unfold nodeHeight, radius.
    pose proof (Rle_0_sqr (c_x a - c_x b)) as Hs. unfold Rsqr in Hs. nra.
Qed.

Lemma nodes_joined t pa n : (Some pa, n) ∈ nodes t -> joins pa n (line pa n).
Proof.
  assert (Hw : 0 < nodeWidth) by (unfold nodeWidth; lra). assert (Hh : 0 < nodeHeight) by (unfold nodeHeight; lra).
  unfold descendants. rewrite list_elem_of_In, in_concat. intros (l & Hl & Hn). rewrite <- list_elem_of_In in Hl. rewrite <- list_elem_of_In in Hn.
  apply list_elem_of_lookup_1 in Hl as [[|k] Hk].
  - destruct (place nodeWidth nodeHeight t). cbn in Hk. injection Hk as <-. by apply list_elem_of_singleton in Hn.
  - destruct (levels_parent _ _ _ _ _ Hk Hn) as (q & l' & E & Hl' & m & Hm & Em). injection E as <-.
    apply line_joins. pose proof (place_depth _ _ _ _ _ _ Hw Hh Hl' Hm) as H1. pose proof (place_depth _ _ _ _ _ _ Hw Hh Hk Hn) as H2.
    rewrite Em in H1. cbn [snd] in H2. rewrite H1, H2, S_INR. unfold nodeHeight. ring.
Qed.

Lemma circles_shown t : c_peer <$> omap (fun n => circle connection peers n.2) (nodes t) ≡ₚ DhtGraph.shown t.
Proof.
  destruct (place_data nodeWidth nodeHeight t) as [Hd Hf]. rewrite <- Hd at 2. rewrite <- (levels_shown None _ Hf).
  unfold descendants. induction (concat _) as [|n l IH]; [done|]. cbn. unfold circle.
  destruct (t_peer (p_data n.2)); cbn; by rewrite IH.
Qed.
End Graph.

Section Drawn.
Context `{TreeLayout}.

(** C4: For peers with different distances of the same length the component draws the graph without an error: one circle for
    every peer (except for the origin beside a single peer of the other half of the space), no two of which touch, and
    one line for every node but the root, from the node to its parent, that ends at the edge of the circle of the parent or,
    when the parent has none, at the edge of that of the child. *)
Theorem graph_drawn (connection : Peer -> string) st peers L clientWidth clientHeight :
  peers <> [] -> (forall q, q ∈ peers -> length (bits q) = L) -> NoDup (bits <$> peers) ->
  let sorted := js_sort DhtGraph.sortPeers peers in
  exists t st' d, DhtGraph.graph_data st peers = mret (Some t, st') /\
    createGraph connection (DhtGraph.with_ids sorted) clientWidth clientHeight (Some t) = Ok d /\
    DhtGraph.named ∘ c_peer <$> circles d ≡ₚ DhtGraph.named <$> (if DhtGraph.origin_lost sorted then tail sorted else peers) /\
    ForallOrdPairs circles_apart (circles d) /\
    S (length (lines d)) = length (descendants (place nodeWidth nodeHeight t)) /\
    forall parent n, (Some parent, n) ∈ descendants (place nodeWidth nodeHeight t) ->
      exists l, l ∈ lines d /\ joins parent n l.
Proof.
  intros Hne Hlen Hd sorted. destruct (DhtGraph.graph_draws_all st peers L Hne Hlen Hd) as (t & st' & E & Hp).
  eexists t, st', _. split; [done|]. split; [reflexivity|]. cbn [circles lines]. split; [|split; [|split]].
  - rewrite list_fmap_compose, circles_shown. by apply DhtGraph.named_shown.
  - apply nodes_apart.
  - unfold descendants. rewrite count_parents. destruct (place _ _ t). cbn. lia.
  - intros parent n Hn. exists (line parent n). split; [|by eapply nodes_joined].
    apply list_elem_of_omap. by exists (Some parent, n).
Qed.
End Drawn.

(** ** A layout *)

(** The nodes are numbered from the root down and from left to right. *)
Fixpoint lay (w h : R) (t : tree) (depth i : nat) : ptree * nat :=
  match t with
  | Node p cs id br =>
    let '(l, i') := foldl (fun acc c => let '(q, i') := lay w h c (S depth) acc.2 in (acc.1 ++ [q], i')) ([], S i) cs in
    (PNode t (INR i * w) (INR depth * h) l, i')
  end.

Fixpoint lay_list (w h : R) (cs : list tree) (depth i : nat) : list ptree * nat :=
  match cs with
  | [] => ([], i)
  | c :: cs' => let '(q, i') := lay w h c depth i in let '(l, i'') := lay_list w h cs' depth i' in (q :: l, i'')
  end.

Lemma lay_unfold w h p cs id br depth i :
  lay w h (Node p cs id br) depth i =
    let '(l, i') := lay_list w h cs (S depth) (S i) in (PNode (Node p cs id br) (INR i * w) (INR depth * h) l, i').
Proof.
  cbn [lay]. assert (Hf : forall l0 n, foldl (fun acc c => let '(q, i') := lay w h c (S depth) acc.2 in (acc.1 ++ [q], i')) (l0, n) cs =
    let '(l, i') := lay_list w h cs (S depth) n in (l0 ++ l, i')).
  { induction cs as [|c cs IH]; intros l0 n; cbn; [by rewrite app_nil_r|]. destruct (lay w h c (S depth) n) as [q i'].
    rewrite IH. destruct (lay_list w h cs (S depth) i') as [l i'']. cbn. by rewrite <- app_assoc. }
  rewrite Hf. by destruct (lay_list w h cs (S depth) (S i)).
Qed.

(** A subtree with the numbers from [i] to [i'] at a depth. *)
Definition laid (w h : R) (t : tree) (depth i i' : nat) (q : ptree) : Prop :=
  p_data q = t /\ faithful q /\ (i < i')%nat /\
  (forall pa, (fun n : option ptree * ptree => p_x n.2) <$> concat (levels pa q) ≡ₚ (fun j => INR j * w) <$> seq i (i' - i)) /\
  (forall pa k l n, levels pa q !! k = Some l -> n ∈ l -> p_y n.2 = INR (depth + k) * h).

Lemma lay_laid w h t : forall depth i, laid w h t depth i (lay w h t depth i).2 (lay w h t depth i).1.
Proof.
  induction t as [p cs id br IH] using DhtGraph.tree_ind'. intros depth i. rewrite lay_unfold.
  assert (Hl : forall j, let '(l, j') := lay_list w h cs (S depth) j in
    p_data <$> l = cs /\ Forall faithful l /\ (j <= j')%nat /\
    (forall pa, (fun n : option ptree * ptree => p_x n.2) <$> concat ((fun c => concat (levels pa c)) <$> l) ≡ₚ (fun j => INR j * w) <$> seq j (j' - j)) /\
    (forall pa k l' n, foldr zip_levels [] (map (levels pa) l) !! k = Some l' -> n ∈ l' -> p_y n.2 = INR (S depth + k) * h)).
  { clear i. induction IH as [|c cs Hc _ IHcs]; intros j; cbn [lay_list].
    - split; [done|]. split; [constructor|]. split; [lia|]. split; [|done]. intros pa. by rewrite Nat.sub_diag.
    - specialize (Hc (S depth) j). destruct (lay w h c (S depth) j) as [q j1]. specialize (IHcs j1).
      destruct (lay_list w h cs (S depth) j1) as [l j2]. destruct Hc as (C1 & C2 & C3 & C4 & C5), IHcs as (L1 & L2 & L3 & L4 & L5).
      cbn [fst snd] in *. split; [cbn; by rewrite C1, L1|]. split; [by constructor|]. split; [lia|]. split.
      + intros pa. cbn. rewrite fmap_app, C4, L4, <- fmap_app. replace (j2 - j)%nat with ((j1 - j) + (j2 - j1))%nat by lia.
        rewrite seq_app. by replace (j + (j1 - j))%nat with j1 by lia.
      + intros pa k l' n Hk Hn. cbn [map foldr] in Hk. destruct (zip_lookup _ _ _ _ _ Hk Hn) as (l'' & [Hl|Hl] & Hn''); by eauto. }
  specialize (Hl (S i)). destruct (lay_list w h cs (S depth) (S i)) as [l i']. destruct Hl as (L1 & L2 & L3 & L4 & L5).
  cbn [fst snd]. split; [done|]. split; [by apply faithful_unfold|]. split; [lia|]. split.
  - intros pa. rewrite concat_levels. rewrite fmap_cons, L4. cbn [snd p_x].
    replace (i' - i)%nat with (S (i' - S i)) by lia. done.
  - intros pa [|k] l' n Hk Hn; cbn in Hk.
    + injection Hk as <-. apply list_elem_of_singleton in Hn as ->. cbn [snd p_y]. by rewrite Nat.add_0_r.
    + rewrite (L5 _ _ _ _ Hk Hn). f_equal. f_equal. lia.
Qed.

Lemma concat_index {A} (ls : list (list A)) k l i x :
  ls !! k = Some l -> l !! i = Some x -> concat ls !! (length (concat (take k ls)) + i)%nat = Some x.
Proof.
  revert k. induction ls as [|l0 ls IH]; intros [|k] Hk Hi; try done; cbn in *.
  - injection Hk as ->. by rewrite lookup_app_l; [|by eapply lookup_lt_Some].
  - rewrite length_app, lookup_app_r by lia. replace (_ - length l0)%nat with (length (concat (take k ls)) + i)%nat by lia. by apply IH.
Qed.

Lemma INR_apart (i j : nat) w : i <> j -> 0 < w -> w <= Rabs (INR i * w - INR j * w).
Proof.
  intros Hij Hw. unfold Rabs. destruct (Rcase_abs _), (Nat.lt_ge_cases i j) as [Hlt|Hge];
    try (assert (INR i + 1 <= INR j) by (rewrite <- S_INR; apply le_INR; lia); nra);
    assert (INR j + 1 <= INR i) by (rewrite <- S_INR; apply le_INR; lia); nra.
Qed.

Definition numbered_layout : TreeLayout.
Proof.
  refine (mkLayout (fun w h t => (lay w h t 0 0).1) _ _ _).
  - intros w h t. by destruct (lay_laid w h t 0 0) as (H1 & H2 & _).
  - intros w h t k l n _ _ Hk Hn. destruct (lay_laid w h t 0 0) as (_ & _ & _ & _ & H5). by rewrite (H5 None k l n Hk Hn).
  - intros w h t k l i j n m Hw _ Hk Hi Hj Hij. destruct (lay_laid w h t 0 0) as (_ & _ & _ & H4 & _).
    specialize (H4 None). apply Permutation_inj in H4 as (_ & f & Hf & Hl).
    pose proof (Hl (length (concat (take k (levels None (lay w h t 0 0).1))) + i)%nat) as Ei.
    pose proof (Hl (length (concat (take k (levels None (lay w h t 0 0).1))) + j)%nat) as Ej.
    rewrite list_lookup_fmap, (concat_index _ _ _ _ _ Hk Hi), list_lookup_fmap in Ei.
    rewrite list_lookup_fmap, (concat_index _ _ _ _ _ Hk Hj), list_lookup_fmap in Ej.
    set (fi := f _) in Ei. set (fj := f _) in Ej. assert (Hne : fi <> fj) by (unfold fi, fj; intros E; apply Hf in E; lia).
    destruct (seq 0 _ !! fi) as [a|] eqn:Ea; [|done]. destruct (seq 0 _ !! fj) as [b|] eqn:Eb; [|done].
    cbn in Ei, Ej. injection Ei as ->. injection Ej as ->.
    apply lookup_seq in Ea as [-> _]. apply lookup_seq in Eb as [-> _]. by apply INR_apart.
Defined.

Lemma graph_drawn_witness :
  exists t st' d, DhtGraph.graph_data DhtGraph.no_statics DhtGraph.three_peers = mret (Some t, st') /\
    @createGraph numbered_layout (fun _ => "Connected") (DhtGraph.with_ids (js_sort DhtGraph.sortPeers DhtGraph.three_peers)) 800 600 (Some t) = Ok d /\
    DhtGraph.named ∘ c_peer <$> circles d ≡ₚ DhtGraph.named <$> DhtGraph.three_peers.
Proof.
  destruct (@graph_drawn numbered_layout (fun _ => "Connected") DhtGraph.no_statics DhtGraph.three_peers 2 800 600 ltac:(done)
    DhtGraph.three_peers_length DhtGraph.three_peers_distinct) as (t & st' & d & E & Ed & Hp & _).
  exists t, st', d. split; [exact E|]. split; [exact Ed|]. exact Hp.
Defined.

(** ** Where the drawing fails *)

(** Without peers the component raises. *)
Lemma no_peers_raise `{TreeLayout} connection st w h :
  exists e st', DhtGraph.graph_data st [] = mret (None, st') /\ createGraph connection [] w h None = Throw e.
Proof. by eexists _, _. Qed.

Lemma extent_same (l : list R) y : l <> [] -> (forall x, x ∈ l -> x = y) -> extent l = 16.
Proof.
  intros Hne Hl. destruct l as [|x l]; [done|]. cbn [extent]. assert (x = y) as -> by (apply Hl, list_elem_of_here).
  assert (Hm : foldr Rmax y l = y /\ foldr Rmin y l = y).
  { assert (Hl' : forall x, x ∈ l -> x = y) by (intros z Hz; apply Hl; by apply list_elem_of_further). clear Hl Hne.
    induction l as [|z l IH]; [done|]. cbn. destruct IH as [-> ->]; [intros u Hu; apply Hl'; by apply list_elem_of_further|].
    rewrite (Hl' z) by apply list_elem_of_here. split; [by apply Rmax_left; lra|by apply Rmin_left; lra]. }
  destruct Hm as [-> ->]. unfold radius. lra.
Qed.

(** The scale is chosen for the height of the circles alone, which lie on one line, and the line is not moved to the
    top: when few peers make the scale large, every circle is drawn below the visible area. *)
Lemma few_peers_hidden W H D cs c :
  c ∈ cs -> (forall c, c ∈ cs -> c_y c = INR D * nodeHeight) ->
  let s := Rmin (W / extent (c_x <$> cs)) (H / 16) in
  0 < s -> H / 2 < s * (22.5 * INR D - 16) ->
  H < tr_y (fit W H cs) + tr_k (fit W H cs) * (c_y c - radius).
Proof.
  intros Hc Hy s Hs Hbig. unfold fit. rewrite (extent_same (c_y <$> cs) (INR D * nodeHeight)).
  - fold s. cbn [tr_y tr_k]. rewrite (Hy c Hc). unfold nodeHeight, radius. nra.
  - intros E. apply fmap_nil_inv in E as ->. by apply not_elem_of_nil in Hc.
  - intros x (c' & -> & Hc')%list_elem_of_fmap. by apply Hy.
Qed.
End DhtDrawing.
