(* ===== verification/WebNodeService.v ===== *)
(** * The node in the browser

    [core/services/web-node.service.ts] of [src/frontend/src/app] as a machine, with the
    effects of [app.effects.ts] that subscribe to it, the script of [index.html] that
    imports the module and [core/services/firestore.service.ts] that posts the heartbeats;
    and the pages around it, [features/web-node]. The keys and addresses are those of
    [WebNode].

    An event is one answer: the import of the module, the secrets, the two promises of
    the module, a tick of the timer, a heartbeat, the end of a request. What the module
    computes is in the events. [webnode$] is shared: a node that has started is seen by the
    stream of the other effect too, whose timer begins anew and whose [heartBeat$], once a
    tick has subscribed to it, makes a heartbeat of the new node. *)

From Stdlib Require Import ZArith Lia.
From stdpp Require Import base list strings.
From S2P Require Import Prelude SharedLib NetworkBlocks TablePages WebNode.

Module WebNodeService.
Import WebNode.
Local Open Scope Z_scope.

(** ** The service *)

(** [window.webnode]: first the module, then the node it started. *)
Inductive Handle := Module_ | Node (number : nat).

#[export] Instance Handle_eq_dec : EqDecision Handle.
Proof. solve_decision. Defined.

(** Where the stream of the effect is; [loadWasm$] itself never ends. *)
Inductive Phase (B : Type) :=
| Quiet
| Secrets                                        (* the file of the secrets is requested *)
| Initialising                                   (* [wasm.default] *)
| Starting                                       (* [wasm.run] *)
| Silent                                         (* started, without heartbeats *)
| Beating (live making : bool) (posting : option B).  (* [live]: [heartBeat$] is subscribed to *)
Arguments Quiet {B}.
Arguments Secrets {B}.
Arguments Initialising {B}.
Arguments Starting {B}.
Arguments Silent {B}.
Arguments Beating {B} _ _ _.

(** The effects that subscribe to the service: [initSuccess$] and [onNodeChange$]. *)
Inductive Who := ByInit | ByChange.

#[export] Instance Who_eq_dec : EqDecision Who.
Proof. solve_decision. Defined.

(** The stream of one effect: the arguments [loadWasm$] has read, and its phase. *)
Record Stream (B : Type) := mkStream { subscribed : option (option Args); phase : Phase B }.
Arguments mkStream {B} _ _.
Arguments subscribed {B} _.
Arguments phase {B} _.

Section Service.
Context {J B : Type} (heartbeats : bool) (origin : string).

Record Service := mkService {
  window : option Handle;
  webnode : option Handle;
  wasm : option Handle;
  keys : option (KeyPair * Network);
  firstPeerConnected : bool;
  progress : NodeState;
  privateStake : option (PrivateStake J);
  noBlockProduction : bool;
  started : nat;
  by_init : Stream B;
  by_change : Stream B
}.

Inductive Event :=
| Subscribe (w : Who) (args : option Args)       (* the active node is the web node *)
| OtherNode                                      (* another node becomes the active one *)
| Upload (stake : option (PrivateStake J)) (noBlocks : bool)
| Imported                                       (* the script has imported the module *)
| SecretsAnswer (w : Who) (answer : option KeyPair)
| InitDone (w : Who) (ok : bool)
| RunDone (w : Who) (ok : bool)
| Tick (w : Who)
| Beat (w : Who) (made : option B)
| Posted (w : Who) (ok : bool)
| Peers (connected : list bool).

Inductive Output :=
| RequestSecrets
| CallDefault
| CallRun (args : RunArgs J)
| Progress (st : NodeState)
| SentryError
| MakeHeartbeat
| Post (b : B)
| GetNodeEnvBuild                                (* the action [initSuccess$] dispatches *)
| EffectFails.

Definition stream (s : Service) (w : Who) : Stream B := match w with ByInit => by_init s | ByChange => by_change s end.

Definition set_stream (s : Service) (w : Who) (st : Stream B) : Service :=
  mkService (window s) (webnode s) (wasm s) (keys s) (firstPeerConnected s) (progress s) (privateStake s) (noBlockProduction s)
    (started s) (match w with ByInit => st | ByChange => by_init s end) (match w with ByInit => by_change s | ByChange => st end).

Definition phase_of (s : Service) (w : Who) : Phase B := phase (stream s w).

Definition set_phase (s : Service) (w : Who) (p : Phase B) : Service :=
  set_stream s w (mkStream (subscribed (stream s w)) p).

(** Handles, keys and progress. *)
Definition set_handles (s : Service) win node was : Service :=
  mkService win node was (keys s) (firstPeerConnected s) (progress s) (privateStake s) (noBlockProduction s) (started s)
    (by_init s) (by_change s).

Definition set_keys (s : Service) (k : KeyPair * Network) : Service :=
  mkService (window s) (webnode s) (wasm s) (Some k) (firstPeerConnected s) (progress s) (privateStake s) (noBlockProduction s)
    (started s) (by_init s) (by_change s).

Definition set_progress (s : Service) (first : bool) (st : NodeState) (n : nat) : Service :=
  mkService (window s) (webnode s) (wasm s) (keys s) first st (privateStake s) (noBlockProduction s) n (by_init s) (by_change s).

(** A value of the stream: the effect of the change dispatches nothing. *)
Definition emits (w : Who) : list Output := match w with ByInit => [GetNodeEnvBuild] | ByChange => [] end.

(** An error before the node has started is reported; every error ends the stream with
    one more value. *)
Definition fails (s : Service) (w : Who) (report : bool) : Service * list Output :=
  (set_phase s w Quiet, (if report then [SentryError] else []) ++ emits w).

(** [startWasm$()]: a node has no [default]. *)
Definition start (s : Service) (w : Who) : Service * list Output :=
  let s1 := set_handles s (window s) (webnode s) (window s) in
  match window s with
  | Some Module_ => (set_phase s1 w Initialising, [CallDefault])
  | _ => fails s1 w true
  end.

(** The module is there: the first [switchMap] of [loadWasm$]. *)
Definition on_loaded (s : Service) (w : Who) : Service * list Output :=
  match subscribed (stream s w) with
  | None => (s, [])
  | Some None => (set_phase s w Secrets, [RequestSecrets])
  | Some (Some a) => start (set_keys s (loadWasm (Some a) (mkKeyPair None None))) w
  end.

Definition run_args (s : Service) : RunArgs J :=
  startWasm origin (privateStake s) (noBlockProduction s) (default (mkKeyPair None None, DEFAULT_NETWORK) (keys s)).

Definition other (w : Who) : Who := match w with ByInit => ByChange | ByChange => ByInit end.

(** [webnode$.next(webnode)], as the stream of [w] sees it. *)
Definition renotify (s : Service) (w : Who) : Service * list Output :=
  match phase_of s w with
  | Beating true _ p => (set_phase s w (Beating true true p), [MakeHeartbeat])
  | _ => (s, [])
  end.

Definition step (s : Service) (ev : Event) : Service * list Output :=
  match ev with
  | Subscribe w a =>
    let s1 := set_stream s w (mkStream (Some a) Quiet) in
    if window s then on_loaded s1 w else (s1, [])
  | OtherNode => (set_stream s ByChange (mkStream None Quiet), [])
  | Upload stake noBlocks =>
    (mkService (window s) (webnode s) (wasm s) (keys s) (firstPeerConnected s) (progress s) stake noBlocks (started s)
       (by_init s) (by_change s), [])
  | Imported =>
    let s1 := set_handles s (Some Module_) (webnode s) (wasm s) in
    let '(s2, out) := on_loaded s1 ByInit in
    let '(s3, out') := on_loaded s2 ByChange in (s3, out ++ out')
  | SecretsAnswer w answer =>
    match phase_of s w, answer with
    | Secrets, Some kp => start (set_keys s (loadWasm None kp)) w
    | Secrets, None => (set_stream s w (mkStream None Quiet), [EffectFails])
    | _, _ => (s, [])
    end
  | InitDone w ok =>
    match phase_of s w with
    | Initialising =>
      if ok then (set_phase (set_progress s (firstPeerConnected s) Loaded (started s)) w Starting, [Progress Loaded; CallRun (run_args s)])
      else fails s w true
    | _ => (s, [])
    end
  | RunDone w ok =>
    match phase_of s w with
    | Starting =>
      if ok then
        let node := Some (Node (started s)) in
        let '(s1, out) := renotify s (other w) in
        (set_phase (set_handles (set_progress s1 (firstPeerConnected s1) Started (S (started s1))) node node (wasm s1)) w
           (if heartbeats then Beating false false None else Silent), out ++ [Progress Started])
      else fails s w true
    | _ => (s, [])
    end
  | Tick w => match phase_of s w with Beating _ _ p => (set_phase s w (Beating true true p), [MakeHeartbeat]) | _ => (s, []) end
  | Beat w made =>
    match phase_of s w, made with
    | Beating l true _, Some b => (set_phase s w (Beating l false (Some b)), [Post b])
    | Beating _ true _, None => fails s w false
    | _, _ => (s, [])
    end
  | Posted w _ =>
    match phase_of s w with
    | Beating l m (Some _) => (set_phase s w (Beating l m None), emits w)
    | _ => (s, [])
    end
  | Peers connected =>
    if webnode s then
      if negb (firstPeerConnected s) && existsb (fun c => c) connected
      then (set_progress s true Connected (started s), [Progress Connected]) else (s, [])
    else (s, [])
  end.

Fixpoint run (s : Service) (evs : list Event) : Service * list Output :=
  match evs with
  | [] => (s, [])
  | ev :: evs' =>
    let '(s1, out) := step s ev in
    let '(s2, out') := run s1 evs' in (s2, out ++ out')
  end.

Definition initial : Service :=
  mkService None None None None false Empty None false 0 (mkStream None Quiet) (mkStream None Quiet).

(** [isWebNodeLoaded()] *)
Definition isWebNodeLoaded (s : Service) : bool := is_some (window s).

(** ** Queries *)

Inductive Query :=
| QStatus | QBlockProducerStats | QPeers | QMessageProgress | QSync | QAccounts | QUserCommands | QPayment | QTransactionPool
| QHeartbeat | QActions.

(** The methods a query calls on the node, from the left. *)
Definition methods (q : Query) : list string :=
  match q with
  | QStatus => ["status"]
  | QBlockProducerStats => ["stats"; "block_producer"]
  | QPeers => ["state"; "peers"]
  | QMessageProgress => ["state"; "message_progress"]
  | QSync => ["stats"; "sync"]
  | QAccounts => ["ledger"; "latest"; "accounts"; "all"]
  | QUserCommands => ["transition_frontier"; "best_chain"; "user_commands"]
  | QPayment => ["transaction_pool"; "inject"; "payment"]
  | QTransactionPool => ["transaction_pool"; "get"]
  | QHeartbeat => ["make_heartbeat"]
  | QActions => ["stats"; "actions"]
  end.

(** What a subscription to a query calls at once: nothing while there is no node. *)
Definition ask (s : Service) (q : Query) : option (Handle * list string) :=
  (fun n => (n, methods q)) <$> webnode s.

(** [envBuildDetails$] calls [build_env] of what was last started. *)
Definition envBuildDetails (s : Service) : option (result Handle) :=
  match wasm s with
  | None => None
  | Some Module_ => Some (Ok Module_)
  | Some (Node _) => Some (Throw "webnode.build_env is not a function")
  end.
End Service.

(** [path.split('?id=')[1]] *)
Fixpoint until_marker (s : string) : string :=
  match s with
  | EmptyString => EmptyString
  | String c s' => if string_prefix "?id=" s then EmptyString else String c (until_marker s')
  end.

Fixpoint after_marker (s : string) : option string :=
  if string_prefix "?id=" s then Some (until_marker (String.substring 4 (String.length s - 4) s))
  else match s with EmptyString => None | String _ s' => after_marker s' end.

Inductive Slot := SlotNumber (n : Z) | SlotString (s : string) | SlotUndefined.

(** The argument of [actions$(path)]; [Number] of a string of digits, that of an empty one
    is [0]. *)
Definition actions_slot (path : string) : Slot :=
  match after_marker path with
  | None => SlotUndefined
  | Some EmptyString => SlotNumber 0
  | Some s => if TablePages.all_digits s then SlotNumber (Blocks.BigInt s) else SlotString s
  end.

(** ** The pages *)

(** [WebNodeComponent] and [WebNodeNotSupportedComponent], which it shows. *)
Record Memory := mkMemory { m_initial : option Z; m_maximum : option Z; m_shared : bool }.

(** [Number(s)] of a parameter that is not empty: [None] is [NaN]. *)
Definition param_number (s : string) : option Z := if TablePages.all_digits s then Some (Blocks.BigInt s) else None.

(** [listenToRoute()] on the query parameters. *)
Definition memory_of (initial maximum shared : option string) : Memory :=
  let number o d := match o with Some s => if truthy_str s then param_number s else Some d | None => Some d end in
  mkMemory (number initial 176) (number maximum 65536)
    (match shared with Some s => if truthy_str s then String.eqb s "true" else true | None => true end).

(** [checkIfDeviceIsSupported()]; the major version is the first number of [iOSversion()]. *)
Record Device := mkDevice { ios : bool; firefox : bool; major : Z }.

Definition device_supported (d : Device) : bool * bool :=
  if ios d then (18 <=? major d, true) else (negb (firefox d), false).

Record Page := mkPage {
  supported : bool;
  isPhone : bool;
  showFileUpload : bool;
  devMode : bool;
  codeVerifier : list (option Z)
}.

Definition code : list Z := [1; 2; 3; 2].

Definition open_page (d : Device) : Page := mkPage (device_supported d).1 (device_supported d).2 true false [].

Inductive PageEvent :=
| AddDevKey (key : Z)
| AddDevKey2
| Password (value : string)
| StartWebNode.

(** [checkCode()] after a key: the verifier compares with [===] at every index. *)
Definition checkCode (p : Page) (v : list (option Z)) : Page :=
  if (length v =? length code)%nat then
    if bool_decide (v = Some <$> code)
    then mkPage (supported p) (isPhone p) (showFileUpload p) true v
    else mkPage (supported p) (isPhone p) (showFileUpload p) (devMode p) []
  else mkPage (supported p) (isPhone p) (showFileUpload p) (devMode p) v.

(** The keys are on the page of an unsupported device, the browsers or the phone; the
    password is asked in the mode of developers. *)
Definition page_step (p : Page) (ev : PageEvent) : Page :=
  match ev with
  | AddDevKey key => if negb (supported p) && negb (isPhone p) then checkCode p (codeVerifier p ++ [Some key]) else p
  | AddDevKey2 => if negb (supported p) && isPhone p then checkCode p (codeVerifier p ++ [code !! length (codeVerifier p)]) else p
  | Password value =>
    if negb (supported p) && devMode p && String.eqb value "allowme"
    then mkPage true (isPhone p) (showFileUpload p) (devMode p) (codeVerifier p) else p
  | StartWebNode => if supported p then mkPage (supported p) (isPhone p) false (devMode p) (codeVerifier p) else p
  end.

Definition page_run (p : Page) (evs : list PageEvent) : Page := fold_left page_step evs p.

(** ** Heartbeats *)

Section Heartbeats.
Context {J B : Type} (heartbeats : bool) (origin : string).

Notation step := (@step J B heartbeats origin).
Notation run := (@run J B heartbeats origin).

Definition posts (out : list (@Output J B)) : list B := omap (fun o => match o with Post b => Some b | _ => None end) out.
Definition made (evs : list (@Event J B)) : list B := omap (fun ev => match ev with Beat _ o => o | _ => None end) evs.

Definition making (p : Phase B) : nat := match p with Beating _ true _ => 1 | _ => 0 end.
Definition credit (s : @Service J B) : nat := (making (phase_of s ByInit) + making (phase_of s ByChange))%nat.


Lemma posts_app a b : posts (a ++ b) = posts a ++ posts b.
Proof. apply omap_app. Qed.





Lemma set_phase_same s w p : @phase_of J B (set_phase s w p) w = p.
Proof. by destruct w. Qed.

Lemma set_phase_other s w v p : w <> v -> @phase_of J B (set_phase s w p) v = phase_of s v.
Proof. by destruct w, v. Qed.







Lemma credit_set (s : @Service J B) w p :
  (credit (set_phase s w p) + making (phase_of s w) = credit s + making p)%nat.
Proof. unfold credit. destruct w; rewrite set_phase_same, set_phase_other by done; lia. Qed.


























Lemma run_app s evs evs' :
  run s (evs ++ evs') = let '(s1, out) := run s evs in let '(s2, out') := run s1 evs' in (s2, out ++ out').
Proof.
  revert s. induction evs as [|ev evs IH]; intros s; cbn; [by destruct (run s evs')|].
  destruct (step s ev) as [s1 out]. rewrite IH. destruct (run s1 evs) as [s2 out2]. destruct (run s2 evs') as [s3 out3].
  by rewrite app_assoc.
Qed.


(** The events of a start by the first effect, from the arguments of the address. *)
Definition start_events (a : Args) : list (@Event J B) := [Subscribe ByInit (Some a); Imported; InitDone ByInit true; RunDone ByInit true].

Lemma started_state a :
  exists out, run initial (start_events a) =
    (mkService (Some (Node 0)) (Some (Node 0)) (Some Module_) (Some (loadWasm (Some a) (mkKeyPair None None))) false Started None false 1
       (mkStream (Some (Some a)) (if heartbeats then Beating false false None else Silent)) (mkStream None Quiet), out) /\ posts out = [].
Proof. eexists. split; [reflexivity|]. done. Qed.
End Heartbeats.



(** ** Where the service fails *)

Section Failures.
Context {J B : Type} (heartbeats : bool) (origin : string).

Notation step := (@step J B heartbeats origin).
Notation run := (@run J B heartbeats origin).

Definition restarts (ev : @Event J B) : bool := match ev with Subscribe _ _ | Imported => true | _ => false end.

(** One heartbeat that cannot be made ends the heartbeats until the module is loaded again. *)
Lemma beats_end_with_an_error s l m b evs :
  phase_of s ByInit = Beating l true m -> phase_of s ByChange = Quiet -> forallb (fun ev => negb (restarts ev)) evs = true ->
  posts (run (step s (Beat ByInit None)).1 (Tick ByInit :: Beat ByInit (Some b) :: evs)).2 = [].
Proof.
  intros Hs Hc Hevs. assert (Hall : forall evs (t : @Service J B), phase_of t ByInit = Quiet -> phase_of t ByChange = Quiet ->
    forallb (fun ev => negb (restarts ev)) evs = true -> posts (run t evs).2 = []).
  { clear. induction evs as [|ev evs IH]; intros t H1 H2 He; [done|]. cbn in He. apply andb_true_iff in He as [He Hr].
    assert (Hstep : phase_of (step t ev).1 ByInit = Quiet /\ phase_of (step t ev).1 ByChange = Quiet /\ posts (step t ev).2 = []).
    { destruct ev as [| |st nb| |w o|w ok|w ok|w|w o|w ok|l]; try done; cbn [WebNodeService.step]; try (destruct w; rewrite ?H1, ?H2; done).
      destruct (webnode t); [|done]. by destruct (negb _ && _). }
    cbn [WebNodeService.run]. destruct (step t ev) as [t1 out]. destruct Hstep as (S1 & S2 & S3). cbn [fst snd] in *.
    specialize (IH t1 S1 S2 Hr). destruct (run t1 evs). cbn [snd] in *. by rewrite posts_app, S3, IH. }
  apply Hall; [|by cbn; rewrite Hs|by cbn].
  cbn [WebNodeService.step]. rewrite Hs. done.
Qed.

(** A node that the one effect starts makes the stream of the other effect send a heartbeat without a tick. *)
Lemma start_prompts_beat s m :
  phase_of s ByInit = Beating true m None -> phase_of s ByChange = Starting ->
  (step s (RunDone ByChange true)).2 = [MakeHeartbeat; Progress Started].
Proof. intros H1 H2. cbn [WebNodeService.step]. rewrite H2. unfold renotify. cbn [other]. by rewrite H1. Qed.

(** A second visit of the page that starts the node imports the module again, and a second node is started. *)
Lemma second_visit_starts_again a :
  started (run initial (start_events a ++ [Imported; InitDone ByInit true; RunDone ByInit true])).1 = 2%nat.
Proof. destruct heartbeats; reflexivity. Qed.

(** Back at the web node, the running node is taken for the module: its start fails, and the build details, which are
    read from the module, cannot be read any more. *)
Lemma back_breaks_build_details a :
  let s := (run initial (start_events a ++ [OtherNode; Subscribe ByChange (Some a)])).1 in
  wasm s = Some (Node 0) /\ envBuildDetails s = Some (Throw "webnode.build_env is not a function").
Proof. done. Qed.
End Failures.

(** Without heartbeats the build details of a web node that has started are never requested. *)
Lemma build_details_need_heartbeats {J B} origin a n :
  (run (J:=J) (B:=B) false origin initial (start_events a ++ replicate n (Tick ByInit))).2 =
    [CallDefault; Progress Loaded; CallRun (run_args origin (run (J:=J) (B:=B) false origin initial (take 3 (start_events a))).1); Progress Started].
Proof.
  rewrite run_app. destruct (started_state (J:=J) (B:=B) false origin a) as (out & E & _).
  assert (Ho : out = (run (J:=J) (B:=B) false origin initial (start_events a)).2) by (by rewrite E).
  rewrite E. match goal with |- context [run _ _ ?s (replicate n _)] => assert (Hr : (run false origin s (replicate n (Tick ByInit))).2 = []) end.
  { induction n as [|n IH]; [done|]. cbn [replicate run step phase_of stream by_init phase]. match goal with |- context [run _ _ ?s (replicate n _)] =>
      destruct (run false origin s (replicate n (Tick ByInit))) as [s2 o] end. done. }
  match goal with |- context [run _ _ ?s (replicate n _)] => destruct (run false origin s (replicate n (Tick ByInit))) as [s2 o] end.
  cbn [snd] in *. subst o. rewrite app_nil_r, Ho. done.
Qed.

(** ** The page of an unsupported device *)

Definition typed (p : Page) : Prop := devMode p = true -> take 4 (codeVerifier p) = Some <$> code.

Lemma checkCode_typed p v : typed p -> (devMode p = true -> take 4 v = Some <$> code) -> typed (checkCode p v).
Proof.
  unfold typed, checkCode. intros Hp Hv. destruct (Nat.eqb_spec (length v) (length code)) as [Hl|Hl]; [|done].
  case_bool_decide as Hc; cbn; [intros _; by rewrite Hc|]. intros Hd. exfalso. apply Hc.
  specialize (Hv Hd). rewrite <- Hv, take_ge; [done|]. cbn in Hl. lia.
Qed.

Lemma verifier_kept evs : forall q, supported q = true -> codeVerifier (page_run q evs) = codeVerifier q.
Proof.
  induction evs as [|ev evs IH]; intros q Hq; [done|]. cbn [page_run fold_left]. fold (page_run (page_step q ev) evs).
  destruct ev; cbn [page_step]; rewrite Hq; cbn [negb andb]; by rewrite IH.
Qed.

(** A device that is not supported is let in only with the code, typed on the page, and the password. *)
Theorem unsupported_stays_closed d evs :
  (device_supported d).1 = false -> supported (page_run (open_page d) evs) = true ->
  take 4 (codeVerifier (page_run (open_page d) evs)) = Some <$> code /\ Password "allowme" ∈ evs.
Proof.
  intros Hd. assert (Hinv : forall evs p, supported p = false -> typed p ->
    let q := page_run p evs in supported q = true -> take 4 (codeVerifier q) = Some <$> code /\ Password "allowme" ∈ evs).
  { clear. induction evs as [|ev evs IH]; intros p Hs Ht; [by cbn; rewrite Hs|]. cbn [page_run fold_left]. fold (page_run (page_step p ev) evs).
    destruct (supported (page_step p ev)) eqn:E.
    - destruct ev as [k| |v|]; cbn [page_step] in E; rewrite Hs in E; cbn [negb andb] in E.
      + destruct (negb (isPhone p)); [|congruence]. unfold checkCode in E. destruct (_ =? _)%nat; [case_bool_decide|]; cbn in E; congruence.
      + destruct (isPhone p); [|congruence]. unfold checkCode in E. destruct (_ =? _)%nat; [case_bool_decide|]; cbn in E; congruence.
      + destruct (devMode p) eqn:Ed; [|cbn in E; congruence]. destruct (String.eqb_spec v "allowme") as [->|]; [|cbn in E; congruence].
        intros _. split; [|apply list_elem_of_here]. cbn [page_step]. rewrite Hs, Ed. cbn [negb andb String.eqb].
        rewrite verifier_kept by done. cbn. by apply Ht.
      + congruence.
    - intros Hq. apply IH in Hq as [H1 H2]; [split; [done|by apply list_elem_of_further]|done|].
      assert (Htk : forall k, devMode p = true -> take 4 (codeVerifier p ++ [k]) = Some <$> code).
      { intros k Hdm. specialize (Ht Hdm). rewrite take_app_le; [done|]. apply (f_equal length) in Ht. rewrite length_take in Ht. change (length (Some <$> code)) with 4%nat in Ht. lia. }
      destruct ev as [k| |v|]; cbn [page_step]; rewrite Hs; cbn [negb andb]; [| |by destruct (_ && _)|done].
      + destruct (negb (isPhone p)); [by apply checkCode_typed; [|apply Htk]|done].
      + destruct (isPhone p); [by apply checkCode_typed; [|apply Htk]|done]. }
  apply Hinv; [done|]. by intros Hdm.
Qed.
End WebNodeService.
