(* ===== verification/Menus.v ===== *)
(** * The menus

    The menu beside the page and the one below it on small screens, [layout/menu] and
    [layout/menu-tabs] of [src/frontend/src/app], and the tabs of a page,
    [layout/submenu-tabs], as machines composed with the store of the application. The
    overlays of the small menu are in [Shell], the items and the tabs in [Layout].

    A selector that emits the value it had leaves a component as it is, so the
    subscriptions are run after every action. A handler that raises stops where it
    raises. *)

From stdpp Require Import base list strings.
From S2P Require Import Prelude SharedLib AppStore Layout Shell.

Module Menus.
Import Layout.

(** ** The menu *)

(** The window of the build: the build it was opened with. *)
Record Menu := mkMenu {
  menuItems : list MenuItem;
  menu : option App.Menu;
  dark : bool;
  activeNode : option MinaNode;
  activeRoute : option string;
  lastUrl : option string;
  network : option App.MinaNetwork;
  chainId : option string;
  envBuild : option string;
  modal : option (option string)
}.

(** The menu of the small screens. *)
Record Tabs := mkTabs {
  t_menuItems : list MenuItem;
  t_activeNode : option MinaNode;
  t_activeRoute : option string;
  t_lastUrl : option string;
  t_network : option App.MinaNetwork;
  t_chainId : option string;
  t_envBuild : option string
}.

(** The tabs of a page. *)
Record SubTabs := mkSubTabs {
  subMenus : list SubMenu;
  s_mobile : option bool;
  baseRoute : option string;
  activeSubMenu : option string;
  activeNodeName : option string
}.

Section Menus.
Context `{Shell.UrlParams} (env : Config.Env).

Definition items_or (node : option MinaNode) (old : list MenuItem) : list MenuItem :=
  match allowedMenuItems env node with Ok l => l | Throw _ => old end.

(** [listenToCollapsingMenu], [listenToActiveNodeChange] and [listenToEnvBuild] of the menu. *)
Definition menu_store (m : Menu) (s : App.State) : Menu :=
  let node := match App.activeNode s with Some n => Some n | None => activeNode m end in
  let items := match App.activeNode s with Some n => items_or (Some n) (menuItems m) | None => menuItems m end in
  mkMenu items (Some (App.menu s)) (dark m) node (activeRoute m) (lastUrl m) (App.network (App.activeNodeDetails s))
    (App.chainId (App.activeNodeDetails s))
    (match App.envBuild s with Some b => Some b | None => envBuild m end) (modal m).

Definition menu_route (m : Menu) (url : string) : Menu :=
  if bool_decide (lastUrl m = Some url) then m
  else mkMenu (menuItems m) (menu m) (dark m) (activeNode m) (Shell.activeRoute url) (Some url) (network m) (chainId m) (envBuild m) (modal m).

(** The clicks: the theme, the window of the build and its two ways to close. *)
Inductive MenuClick := ChangeTheme | OpenEnvBuild | CloseEnvBuild.

Definition menu_click (m : Menu) (c : MenuClick) : Menu :=
  mkMenu (menuItems m) (menu m) (match c with ChangeTheme => negb (dark m) | _ => dark m end) (activeNode m) (activeRoute m)
    (lastUrl m) (network m) (chainId m) (envBuild m)
    (match c with ChangeTheme => modal m | OpenEnvBuild => Some (envBuild m) | CloseEnvBuild => None end).

(** [listenToActiveNodeChange], [listenToEnvBuild] and [listenToNetwork] of the small menu. *)
Definition tabs_store (t : Tabs) (s : App.State) : Tabs :=
  let node := match App.activeNode s with Some n => Some n | None => t_activeNode t end in
  let items := match App.activeNode s with Some n => items_or (Some n) (t_menuItems t) | None => t_menuItems t end in
  mkTabs items node (t_activeRoute t) (t_lastUrl t) (App.network (App.activeNodeDetails s))
    (App.chainId (App.activeNodeDetails s)) (App.envBuild s).

Definition tabs_route (t : Tabs) (url : string) : Tabs :=
  if bool_decide (t_lastUrl t = Some url) then t
  else mkTabs (t_menuItems t) (t_activeNode t) (Shell.activeRoute url) (Some url) (t_network t) (t_chainId t) (t_envBuild t).

(** [listenToRouteChange] of the tabs, after the debounce; [queryNode] is the parameter
    of the address. *)
Definition sub_route (t : SubTabs) (node : option MinaNode) (url : string) (queryNode : option string) : SubTabs :=
  let '(base, sub) := Shell.tab_route url in
  mkSubTabs
    (match setSubMenusOfActiveNodeForNewPage env node (default EmptyString base) with Ok l => l | Throw _ => subMenus t end)
    (s_mobile t) base sub queryNode.

Definition sub_menu (t : SubTabs) (m : App.Menu) : SubTabs :=
  if bool_decide (s_mobile t = Some (App.isMobile m)) then t
  else mkSubTabs (subMenus t) (Some (App.isMobile m)) (baseRoute t) (activeSubMenu t) (activeNodeName t).

(** ** The menus with the store *)

Record World := mkWorld {
  app : App.State;
  storage : option App.Storage;
  url : option string;
  side : Menu;
  bottom : Tabs;
  sub : SubTabs
}.

Inductive Event :=
| Act (a : App.Action)
| Route (u : string) (queryNode : option string)
| Toggle                                          (* the head of the menu *)
| Item                                            (* an item of the menu *)
| Click (c : MenuClick).

Definition dispatch (w : World) (a : App.Action) : World :=
  let '(s, st) := App.appReducer (app w, storage w) a in
  mkWorld s st (url w) (menu_store (side w) s) (tabs_store (bottom w) s)
    (sub_menu (match url w with Some u => sub_route (sub w) (App.activeNode s) u (activeNodeName (sub w)) | None => sub w end) (App.menu s)).

Definition maybe (w : World) (a : option App.Action) : World := match a with Some a => dispatch w a | None => w end.

Definition step (w : World) (ev : Event) : World :=
  match ev with
  | Act a => dispatch w a
  | Route u q =>
    mkWorld (app w) (storage w) (Some u) (menu_route (side w) u) (tabs_route (bottom w) u)
      (sub_route (sub w) (App.activeNode (app w)) u q)
  | Toggle => maybe w (menu (side w) ≫= toggleMenu)
  | Item => maybe w (menu (side w) ≫= showHideMenu)
  | Click c => mkWorld (app w) (storage w) (url w) (menu_click (side w) c) (bottom w) (sub w)
  end.

Definition run (w : World) (evs : list Event) : World := fold_left step evs w.

(** Both menus are created with the items of no node and subscribe at once. *)
Definition created (s : App.State) (st : option App.Storage) (theme : bool) : World :=
  let items := items_or None [] in
  mkWorld s st None
    (menu_store (mkMenu items None theme None None None None None None None) s)
    (tabs_store (mkTabs items None None None None None None) s)
    (sub_menu (mkSubTabs [] None None None None) (App.menu s)).

(** ** Agreement *)

Record agree (w : World) : Prop := mkAgree {
  ag_items : menuItems (side w) = t_menuItems (bottom w);
  ag_node : activeNode (side w) = t_activeNode (bottom w);
  ag_route : activeRoute (side w) = t_activeRoute (bottom w);
  ag_url : lastUrl (side w) = t_lastUrl (bottom w) /\ t_lastUrl (bottom w) = url w;
  ag_path : activeRoute (side w) = url w ≫= Shell.activeRoute;
  ag_network : network (side w) = App.network (App.activeNodeDetails (app w)) /\ t_network (bottom w) = network (side w);
  ag_chain : chainId (side w) = App.chainId (App.activeNodeDetails (app w)) /\ t_chainId (bottom w) = chainId (side w);
  ag_menu : menu (side w) = Some (App.menu (app w));
  ag_active : forall n, App.activeNode (app w) = Some n -> activeNode (side w) = Some n /\
    forall l, allowedMenuItems env (Some n) = Ok l -> menuItems (side w) = l;
  ag_build : t_envBuild (bottom w) = App.envBuild (app w) /\
    (forall b, App.envBuild (app w) = Some b -> envBuild (side w) = Some b);
  ag_mobile : s_mobile (sub w) = Some (App.isMobile (App.menu (app w)))
}.

Lemma items_or_ok node old l : allowedMenuItems env node = Ok l -> items_or node old = l.
Proof. unfold items_or. by intros ->. Qed.

Lemma sub_menu_mobile t m : s_mobile (sub_menu t m) = Some (App.isMobile m).
Proof. unfold sub_menu. by case_bool_decide. Qed.

Lemma agree_store s st u sd bt sb :
  menuItems sd = t_menuItems bt -> activeNode sd = t_activeNode bt -> activeRoute sd = t_activeRoute bt ->
  lastUrl sd = t_lastUrl bt -> t_lastUrl bt = u -> activeRoute sd = u ≫= Shell.activeRoute ->
  agree (mkWorld s st u (menu_store sd s) (tabs_store bt s) (sub_menu sb (App.menu s))).
Proof.
  intros H1 H2 H3 H4 H5 H6. split; cbn; try done.
  - destruct (App.activeNode s); [by rewrite H1|done].
  - by rewrite H2.
  - intros n ->. split; [done|]. intros l Hl. by apply items_or_ok.
  - split; [done|]. by intros b ->.
  - apply sub_menu_mobile.
Qed.

Lemma agree_dispatch w a : agree w -> agree (dispatch w a).
Proof.
  intros [H1 H2 H3 [H4 H4'] H5 H6 H7 H8 H9 H10 H11]. unfold dispatch. destruct (App.appReducer _ a) as [s st].
  by apply agree_store.
Qed.

Lemma agree_step w ev : agree w -> agree (step w ev).
Proof.
  intros Hw. destruct ev as [a|u q| | |c]; cbn [step].
  - by apply agree_dispatch.
  - destruct Hw as [H1 H2 H3 [H4 H4'] H5 [H6 H6'] [H7 H7'] H8 H9 H10 H11]. unfold menu_route, tabs_route, sub_route. rewrite <- H4.
    destruct (Shell.tab_route u) as [base sb]. case_bool_decide as Hu.
    + split; cbn; try done; [by rewrite <- H4, Hu|]. rewrite H5, <- H4', <- H4, Hu. done.
    + by split.
  - unfold maybe. destruct (_ ≫= _); [by apply agree_dispatch|done].
  - unfold maybe. destruct (_ ≫= _); [by apply agree_dispatch|done].
  - destruct Hw. by destruct c; split.
Qed.

(** The two menus agree with each other and with the store after any sequence of actions, navigations and clicks: they
    show the same items, those of the active node where it has any, the same active route, which is that of the address,
    and the network and chain of the details of the node; the tabs know whether the screen is small; and the side menu has
    the build of the store where there is one. *)
Theorem menus_agree s st theme evs : agree (run (created s st theme) evs).
Proof.
  unfold run. assert (H0 : agree (created s st theme)) by by apply agree_store.
  revert H0. generalize (created s st theme). induction evs as [|ev evs IH]; intros w Hw; [done|]. by apply IH, agree_step.
Qed.

(** A click on the head of the menu, twice, leaves the store as it was. *)
Lemma toggle_twice w : agree w -> App.menu (app (step (step w Toggle) Toggle)) = App.menu (app w).
Proof.
  intros Hw. pose proof (ag_menu _ (agree_step _ Toggle Hw)) as Hm'. pose proof (ag_menu _ Hw) as Hm. revert Hm'. cbn [step]. rewrite Hm.
  cbn [mbind option_bind]. destruct (App.menu (app w)) as [c m o] eqn:E. unfold toggleMenu, showHideMenu, collapseMenu. cbn [App.isMobile App.collapsed maybe].
  unfold dispatch. destruct m; cbn; rewrite E; intros _; cbn; by rewrite ?negb_involutive.
Qed.

(** After a request for the build that failed the side menu keeps the build of the node before, the small menu has none. *)
Lemma stale_build w b :
  agree w -> App.envBuild (app w) = Some b ->
  let w' := step w (Act (App.GetNodeEnvBuildSuccess None)) in
  envBuild (side w') = Some b /\ t_envBuild (bottom w') = None.
Proof. intros Hw Hb. cbn. split; [|done]. by apply (ag_build _ Hw). Qed.
End Menus.

Lemma menus_agree_witness :
  let w := @run Shell.url_params example_env (@created example_env (App.initialState None) None true)
             [Act (App.ChangeActiveNode no_features); Route "/network/messages?node=a" (Some "a"); Toggle; Click OpenEnvBuild] in
  @agree Shell.url_params example_env w /\ activeRoute (side w) = Some "network" /\ (App.collapsed <$> menu (side w)) = Some true.
Proof.
  split; [|split; reflexivity].
  apply (@menus_agree Shell.url_params example_env (App.initialState None) None true
    [Act (App.ChangeActiveNode no_features); Route "/network/messages?node=a" (Some "a"); Toggle; Click OpenEnvBuild]).
Defined.
End Menus.
