(* ===== verification/LeaderboardPage.v ===== *)
(** * The pages of the leaderboard

    [src/frontend/src/app/features/leaderboard]: the page with its timer, banner and
    downloads ([leaderboard-page], [leaderboard-landing-page]), the filters
    ([leaderboard-filters]), the table and the title ([leaderboard-table],
    [leaderboard-title]) and the header ([leaderboard-header]), as one machine with the
    store, the effect and the service of [Leaderboard]. *)

From stdpp Require Import base list strings.
From S2P Require Import Prelude SharedLib Leaderboard.
Open Scope Z_scope.

Module LeaderboardPage.
Import Leaderboard.

(** ** Components *)

Definition SCROLL_THRESHOLD : Z := 100.

(** The handler of the scroll events, of the page and of the landing page. *)
Definition on_scroll (showBanner : bool) (scrollPosition : Z) : bool :=
  if (SCROLL_THRESHOLD <? scrollPosition) && negb showBanner then true
  else if (scrollPosition <=? SCROLL_THRESHOLD) && showBanner then false
  else showBanner.

(** [sortBy(sortBy)] of the filters. *)
Definition next_sort (currentSort : TableSort) (key : string) : TableSort :=
  mkTableSort key
    (if negb (String.eqb key (sortBy currentSort)) then sortDirection currentSort
     else match sortDirection currentSort with ASC => DSC | DSC => ASC end).

(** The header: its menu is always open on a wide screen. *)
Record Header := mkHeader { route : option string; isMenuOpen : bool }.

Inductive HeaderEvent := HRoute (url : string) | HClose | HToggle.

Definition header_step (isDesktop : bool) (h : Header) (ev : HeaderEvent) : Header :=
  match ev with
  | HRoute url => mkHeader (Some url) (isMenuOpen h)
  | HClose => if isDesktop then h else mkHeader (route h) false
  | HToggle => if isDesktop then h else mkHeader (route h) (negb (isMenuOpen h))
  end.

Definition header_run (isDesktop : bool) (evs : list HeaderEvent) : Header :=
  fold_left (header_step isDesktop) evs (mkHeader None isDesktop).

(** The components of the open page. *)
Record Page := mkPage {
  showBanner : bool;
  canDownloadCSV : bool;
  input : string;
  currentSort : TableSort;
  rows : list HeartbeatSummary;
  title_rows : list HeartbeatSummary;
  loading : bool
}.

(** The marks of a row of the table: the lottery, the uptime and the blocks. Percentages
    are in hundredths. *)
Definition marks (i : HeartbeatSummary) : bool * bool * bool :=
  (negb (isWhale i) && (3333 <? uptimePercentage i), uptimePrize i, blocksPrize i).

(** ** The page with the store *)

Inductive File := UptimeLottery | HighestUptime | MostProducedBlocks | AllScores.

Record World := mkWorld {
  store : State;
  listening : bool;
  maxScoreRightNow : option Z;
  page : option Page
}.

Inductive Event :=
| Open (canDownload : bool)
| Leave
| Tick                                           (* the timer of the page *)
| Data (o : outcome (list Score * list MaxScore))
| Key (value : string)                           (* the text after a key *)
| SortClick (key : string)
| Scroll (position : Z)
| Download (f : File) (docs : list Score).

(** What an event does beyond the page. *)
Inductive Output := Dispatched (d : dispatched Action) | SavedFile (content : string).

Section World.
Context `{TableSorter HeartbeatSummary} (now : string) (percent readable : Z -> string).

(** The subscriptions of the components to the store. *)
Definition refresh (s : State) (p : Page) : Page :=
  mkPage (showBanner p) (canDownloadCSV p) (input p) (sortBy_ s) (filteredHeartbeatSummaries s) (filteredHeartbeatSummaries s) (isLoading s).

Definition dispatch (w : World) (a : Action) : World :=
  let s := leaderboardReducer (store w) a in
  mkWorld s (listening w) (maxScoreRightNow w) (refresh s <$> page w).

Definition actions (ds : list (dispatched Action)) : list Action := omap (fun d => match d with Dispatch a => Some a | _ => None end) ds.

Definition run_effect (w : World) (ev : Leaderboard.Event) : World * list Output :=
  let '(l, ds) := getHeartbeats_effect now (listening w) ev in
  (fold_left dispatch (actions ds) (mkWorld (store w) l (maxScoreRightNow w) (page w)), Dispatched <$> ds).

Definition file (f : File) (max : option Z) (docs : list Score) : string :=
  match f with
  | UptimeLottery => downloadUptimeLottery max docs
  | HighestUptime => downloadHighestUptime max docs
  | MostProducedBlocks => downloadMostProducedBlocks max docs
  | AllScores => downloadAll percent readable (default 0 max) docs
  end.

Definition set_page (w : World) (p : Page) : World := mkWorld (store w) (listening w) (maxScoreRightNow w) (Some p).

Definition step (w : World) (ev : Event) : World * list Output :=
  match ev, page w with
  | Open canDownload, None =>
    (set_page w (refresh (store w) (mkPage false canDownload "" (sortBy_ (store w)) [] [] true)), [])
  | Leave, Some _ => (mkWorld (store w) (listening w) (maxScoreRightNow w) None, [])
  | Tick, Some _ =>
    let '(w', out) := run_effect (dispatch w GetHeartbeats) OnGet in (w', Dispatched (Dispatch GetHeartbeats) :: out)
  | Data o, _ =>
    let w1 := mkWorld (store w) (listening w)
                (match o with Next (_, maxScores) => if listening w then Some (current_max maxScores) else maxScoreRightNow w
                 | Failed _ => maxScoreRightNow w end) (page w) in
    run_effect w1 (OnData o)
  | Key value, Some p =>
    let w1 := set_page w (mkPage (showBanner p) (canDownloadCSV p) value (currentSort p) (rows p) (title_rows p) (loading p)) in
    (dispatch w1 (ChangeFilters value), [Dispatched (Dispatch (ChangeFilters value))])
  | SortClick key, Some p =>
    let ts := next_sort (currentSort p) key in (dispatch w (Sort ts), [Dispatched (Dispatch (Sort ts))])
  | Scroll position, Some p =>
    (set_page w (mkPage (on_scroll (showBanner p) position) (canDownloadCSV p) (input p) (currentSort p) (rows p) (title_rows p) (loading p)), [])
  | Download f docs, Some p => (w, if canDownloadCSV p then [SavedFile (file f (maxScoreRightNow w) docs)] else [])
  | _, _ => (w, [])
  end.

Fixpoint run (w : World) (evs : list Event) : World * list Output :=
  match evs with
  | [] => (w, [])
  | ev :: evs' => let '(w1, out) := step w ev in let '(w2, out') := run w1 evs' in (w2, out ++ out')
  end.

Definition started : World := mkWorld initialState false None None.

(** ** The page shows the store *)

(** The summaries of the last answer: none before the first and after a failure. *)
Fixpoint last_data (listen : bool) (old : list HeartbeatSummary) (open : bool) (evs : list Event) : list HeartbeatSummary :=
  match evs with
  | [] => old
  | Open _ :: evs' => last_data listen old true evs'
  | Leave :: evs' => last_data listen old false evs'
  | Tick :: evs' => last_data (listen || open) old open evs'
  | Data o :: evs' =>
    match listen, o with
    | true, Next (scores, maxScores) => last_data true (getHeartbeatsSummaries scores maxScores).1 open evs'
    | true, Failed _ => last_data false [] open evs'
    | false, _ => last_data false old open evs'
    end
  | _ :: evs' => last_data listen old open evs'
  end.

(** The page, if it is open, shows what the store has. *)
Definition in_step (w : World) : Prop :=
  reachable (store w) /\
  forall p, page w = Some p -> rows p = filteredHeartbeatSummaries (store w) /\ title_rows p = rows p /\
    currentSort p = sortBy_ (store w) /\ loading p = isLoading (store w).

Lemma in_step_dispatch w a : in_step w -> in_step (dispatch w a).
Proof.
  intros [Hr _]. split; [by constructor|]. cbn. destruct (page w) as [q|]; [|done]. by intros p [= <-].
Qed.

Lemma in_step_effect w ev : in_step w -> in_step (run_effect w ev).1.
Proof.
  intros Hw. unfold run_effect. destruct (getHeartbeats_effect now (listening w) ev) as [l ds]. cbn [fst].
  assert (H0 : in_step (mkWorld (store w) l (maxScoreRightNow w) (page w))) by exact Hw.
  revert H0. generalize (mkWorld (store w) l (maxScoreRightNow w) (page w)).
  induction (actions ds) as [|a l' IH]; intros v Hv; [done|]. by apply IH, in_step_dispatch.
Qed.

Lemma effect_data w o :
  let w' := (run_effect w (OnData o)).1 in
  search (store w') = search (store w) /\ (input <$> page w') = (input <$> page w) /\ is_some (page w') = is_some (page w) /\
  (listening w', heartbeatSummaries (store w')) =
    (if listening w then match o with
       | Next (scores, maxScores) => (true, (getHeartbeatsSummaries scores maxScores).1)
       | Failed _ => (false, [])
       end else (false, heartbeatSummaries (store w))).
Proof.
  destruct w as [s l m p]. cbn zeta. unfold run_effect, getHeartbeats_effect. destruct l; cbn [listening]; [|by destruct p].
  destruct o as [[scores maxScores]|e]; destruct p; done.
Qed.

(** The input, while there is something in it, is the search of the store. *)
Definition searched (w : World) : Prop := forall p, page w = Some p -> input p <> "" -> search (store w) = input p.

Lemma world_in_step w ev : in_step w -> in_step (step w ev).1.
Proof.
  intros Hw. pose proof Hw as [Hr Hp]. destruct ev as [b| | |o|v|k|n|f docs]; cbn [step]; destruct (page w) as [p|] eqn:E; try done.
  - split; [done|]. cbn. by intros q [= <-].
  - destruct (run_effect _ OnGet) as [w' out] eqn:Ew. cbn [fst]. replace w' with (run_effect (dispatch w GetHeartbeats) OnGet).1 by (by rewrite Ew).
    by apply in_step_effect, in_step_dispatch.
  - apply in_step_effect. split; [done|]. cbn. intros q Hq. apply Hp. congruence.
  - apply in_step_effect. split; [done|]. cbn. intros q Hq. congruence.
  - cbn [fst]. apply in_step_dispatch. split; [done|]. cbn. intros q [= <-]. cbn. exact (Hp p eq_refl).
  - cbn [fst]. by apply in_step_dispatch.
  - split; [done|]. cbn. intros q [= <-]. cbn. exact (Hp p eq_refl).
Qed.

Lemma step_follows w ev :
  searched w ->
  let w' := (step w ev).1 in
  searched w' /\
  forall evs, last_data (listening w) (heartbeatSummaries (store w)) (is_some (page w)) (ev :: evs) =
    last_data (listening w') (heartbeatSummaries (store w')) (is_some (page w')) evs.
Proof.
  intros Hs. destruct w as [s l m p]. unfold searched in *. cbn [page store listening] in Hs.
  destruct ev as [b| | |o|v|k|n|f docs]; cbn zeta; cbn [step page].
  4: { set (w1 := mkWorld _ _ _ _). destruct (effect_data w1 o) as (E1 & E2 & E3 & E4). destruct (run_effect w1 (OnData o)) as [w' out].
       cbn [fst] in *. split.
       - intros q Hq Hi. rewrite E1. rewrite Hq in E2. cbn [page w1] in E2. destruct p as [p|]; [|done]. injection E2 as E2.
         rewrite E2 in *. by apply (Hs p).
       - intros evs. cbn [last_data listening store page]. rewrite E3. destruct l; cbn [listening w1] in E4.
         + destruct o as [[scores maxScores]|e]; injection E4 as -> ->; done.
         + by injection E4 as -> ->. }
  all: destruct p as [p|]; cbn; (split; [|intros evs; by rewrite ?orb_true_r, ?orb_false_r]).
  all: try (intros q [= <-]; cbn; first [done|by apply (Hs p)]). all: done.
Qed.

(** C28: The page of the leaderboard shows the last answer: after any sequence of visits, answers, keys, sorts, scrolls and
    downloads, the rows of the open page are the summaries of the last answer that match the search, each as often as it was
    received, with the whales at the end; the title counts the same rows; and the search is the text of the input, while it
    has one. *)
Theorem leaderboard_page_shows evs :
  let w := (run started evs).1 in
  forall p, page w = Some p ->
    rows p ≡ₚ List.filter (search_match (search (store w))) (last_data false [] false evs) /\ whales_last (rows p) /\
    title_rows p = rows p /\ (input p <> "" -> search (store w) = input p).
Proof.
  intros w p Hp. assert (Hinv : forall evs v, in_step v -> searched v ->
    in_step (run v evs).1 /\ searched (run v evs).1 /\
    heartbeatSummaries (store (run v evs).1) = last_data (listening v) (heartbeatSummaries (store v)) (is_some (page v)) evs).
  { clear. induction evs as [|ev evs IH]; intros v Hv Hs; [done|]. pose proof (world_in_step v ev Hv) as H1.
    destruct (step_follows v ev Hs) as [H2 H3]. cbn [run]. rewrite H3. destruct (step v ev) as [v1 out]. cbn [fst] in *.
    destruct (IH v1 H1 H2) as (I1 & I2 & I3). destruct (run v1 evs) as [v2 out']. done. }
  destruct (Hinv evs started) as ([Hr Hq] & Hs & Hd); [split; [constructor|done]|done|]. fold w in Hr, Hq, Hs, Hd.
  destruct (Hq p Hp) as (E1 & E2 & _). destruct (leaderboard_rows (store w) Hr) as [L1 L2].
  rewrite E1. split; [rewrite L1, Hd; done|]. split; [done|]. split; [congruence|]. by apply Hs.
Qed.

(** The banner is there exactly while the page is scrolled by more than the threshold. *)
Lemma banner_exact b n : on_scroll b n = (SCROLL_THRESHOLD <? n).
Proof. unfold on_scroll. destruct b, (Z.ltb_spec SCROLL_THRESHOLD n), (Z.leb_spec n SCROLL_THRESHOLD); cbn; (done || lia). Qed.

(** A page that was left keeps its search in the store: the next one is filtered while its input is empty. *)
Lemma stale_search l :
  let w := (run (mkWorld (mkState l l "" (mkTableSort "uptimePercentage" DSC) false) true None None) [Open false; Key "b62"; Leave; Open false]).1 in
  search (store w) = "b62" /\ (input <$> page w) = Some "".
Proof. done. Qed.
End World.

Lemma header_open_on_desktop evs : isMenuOpen (header_run true evs) = true.
Proof.
  unfold header_run. assert (H : forall h, isMenuOpen h = true -> isMenuOpen (fold_left (header_step true) evs h) = true); [|by apply H].
  induction evs as [|ev evs IH]; intros h Hh; [done|]. apply IH. by destruct ev.
Qed.

Lemma leaderboard_page_shows_witness :
  let evs := [Open true; Tick; Data (Next ([fast; slow; whale], [mkMaxScore "current" 100])); Key "fa"] in
  exists p, page (@run (unsorted HeartbeatSummary) "" show show started evs).1 = Some p /\
    rows p ≡ₚ [award 100 [mapScore 100 fast; mapScore 100 slow; mapScore 100 whale] (mapScore 100 fast)].
Proof.
  eexists. split; [vm_compute; reflexivity|].
  exact (proj1 (@leaderboard_page_shows (unsorted HeartbeatSummary) "" show show
    [Open true; Tick; Data (Next ([fast; slow; whale], [mkMaxScore "current" 100])); Key "fa"] _ eq_refl)).
Defined.
End LeaderboardPage.
