(* ===== verification/ScanStateDrawing.v ===== *)
(** * The drawing of the scan state and its list

    [features/snarks/scan-state/scan-state-tree-chart] and
    [features/snarks/scan-state/scan-state-tree-list] of [src/frontend/src/app] as
    machines around the store of [ScanState]: the three groups of the drawing with the
    elements they hold, what the inputs, the store, the side panel, the menu and the mouse
    change in them, and the list that passes the trees on.

    A group is the list of its elements in document order.  A join of [d3] gives the
    datum [i] to the element [i], appends elements for the data that are left over, and
    leaves the elements that are left over in an exit selection; [merge] gives a selection
    without one.  The element measures itself when the chart is drawn anew, so the events
    that do so carry the size.  The layout is the class [Partition] of [ScanStateChart]. *)

From Stdlib Require Import ZArith Lia QArith Qminmax Lqa.
From stdpp Require Import base list strings.
From S2P Require Import Prelude SharedLib ScanState ScanStateChart ScanStatePage.

Module ScanStateDrawing.
Import ScanState ScanStateChart.
Open Scope Q_scope.

(** ** The elements *)

(** A [rect] of the group of the leafs: its class [highlight], its datum, what is drawn and
    whether it is displayed. *)
Record Elem := mkElem {
  e_highlight : bool; e_leaf : option Leaf; e_rect : Rect; e_fill : string; e_pulse : bool;
  e_shown : bool
}.

Definition with_fill (f : string) (e : Elem) : Elem :=
  mkElem (e_highlight e) (e_leaf e) (e_rect e) f (e_pulse e) (e_shown e).

(** The fields of the component; [leafsHolder], [linesHolder] and [jobsHolder] are the
    contents of the groups, [cells] the nodes of [root] in the order of [descendants()]. *)
Record Chart := mkChart {
  tree : Tree; active : option Leaf; blockHeight : option Z;
  c_width : Q; c_height : Q;
  cells : list Cell; leafWidth : Q;
  view : bool; highlightSnarks : bool;
  leafsHolder : list Elem; linesHolder : list Line; jobsHolder : list (Mark * string);
  svg_size : Q * Q; jobs_top : Q;
  tooltip : option Tooltip
}.

Definition with_leafs (g : list Elem) (c : Chart) : Chart :=
  mkChart (tree c) (active c) (blockHeight c) (c_width c) (c_height c) (cells c) (leafWidth c)
    (view c) (highlightSnarks c) g (linesHolder c) (jobsHolder c) (svg_size c) (jobs_top c) (tooltip c).

Definition with_lines (g : list Line) (c : Chart) : Chart :=
  mkChart (tree c) (active c) (blockHeight c) (c_width c) (c_height c) (cells c) (leafWidth c)
    (view c) (highlightSnarks c) (leafsHolder c) g (jobsHolder c) (svg_size c) (jobs_top c) (tooltip c).

Definition with_jobs (g : list (Mark * string)) (c : Chart) : Chart :=
  mkChart (tree c) (active c) (blockHeight c) (c_width c) (c_height c) (cells c) (leafWidth c)
    (view c) (highlightSnarks c) (leafsHolder c) (linesHolder c) g (svg_size c) (jobs_top c) (tooltip c).

Definition with_root (cs : list Cell) (lw : Q) (c : Chart) : Chart :=
  mkChart (tree c) (active c) (blockHeight c) (c_width c) (c_height c) cs lw
    (view c) (highlightSnarks c) (leafsHolder c) (linesHolder c) (jobsHolder c) (svg_size c) (jobs_top c)
    (tooltip c).

Definition with_view (tv : bool) (c : Chart) : Chart :=
  mkChart (tree c) (active c) (blockHeight c) (c_width c) (c_height c) (cells c) (leafWidth c)
    tv (highlightSnarks c) (leafsHolder c) (linesHolder c) (jobsHolder c) (svg_size c) (jobs_top c) (tooltip c).

Definition with_highlight (h : bool) (c : Chart) : Chart :=
  mkChart (tree c) (active c) (blockHeight c) (c_width c) (c_height c) (cells c) (leafWidth c)
    (view c) h (leafsHolder c) (linesHolder c) (jobsHolder c) (svg_size c) (jobs_top c) (tooltip c).

Definition with_inputs (t : Tree) (a : option Leaf) (bh : option Z) (c : Chart) : Chart :=
  mkChart t a bh (c_width c) (c_height c) (cells c) (leafWidth c)
    (view c) (highlightSnarks c) (leafsHolder c) (linesHolder c) (jobsHolder c) (svg_size c) (jobs_top c)
    (tooltip c).

Definition with_tooltip (t : option Tooltip) (c : Chart) : Chart :=
  mkChart (tree c) (active c) (blockHeight c) (c_width c) (c_height c) (cells c) (leafWidth c)
    (view c) (highlightSnarks c) (leafsHolder c) (linesHolder c) (jobsHolder c) (svg_size c) (jobs_top c) t.

(** The size of the element, with that of the drawing and the place of the jobs. *)
Definition measured (size : Q * Q) (c : Chart) : Chart :=
  mkChart (tree c) (active c) (blockHeight c) size.1 size.2 (cells c) (leafWidth c)
    (view c) (highlightSnarks c) (leafsHolder c) (linesHolder c) (jobsHolder c) size (size.2 - 15) (tooltip c).

(** ** Drawing *)

Section Drawing.
Context `{Partition} (root3 : Q).

(** The attributes and styles a joined element gets; the class [highlight] and the display
    are not among them. *)
Definition draw_cell (tv hl : bool) (lw : Q) (e : option Elem) (node : Cell * Leaf) : Elem :=
  let '(cell, l) := node in
  mkElem (match e with Some e => e_highlight e | None => false end) (Some l)
    (cell_rect tv lw cell) (rectsFill (Some l) hl) (hasPulseEffect hl l)
    (match e with Some e => e_shown e | None => true end).

(** The join: the exit selection of [this.cellsData.merge(enteringCells)] is empty, so the
    elements that are left over stay. *)
Fixpoint join_cells (tv hl : bool) (lw : Q) (es : list Elem) (nodes : list (Cell * Leaf)) : list Elem :=
  match es, nodes with
  | e :: es, n :: nodes => draw_cell tv hl lw (Some e) n :: join_cells tv hl lw es nodes
  | [], nodes => draw_cell tv hl lw None <$> nodes
  | es, [] => es
  end.

Definition nodes_of (c : Chart) : list (Cell * Leaf) := zip (cells c) (leafs (tree c)).

(** [updateLeafs] *)
Definition updateLeafs (redraw : bool) (c : Chart) : Chart :=
  with_leafs (join_cells (view c) (highlightSnarks c) (leafWidth c)
                (if redraw then [] else leafsHolder c) (nodes_of c)) c.

(** [root.links()]: every node but the root with its parent, in the order of the nodes. *)
Definition links (n : nat) : list (nat * nat) := (fun i => (Nat.div (i - 1) 2, i)) <$> seq 1 (n - 1).

(** [updateLines]: here the exit selection is that of the join, so the group holds exactly
    the lines of the links. *)
Definition draw_lines (c : Chart) : Chart :=
  with_lines (updateLines (view c) (leafWidth c) (nodes_of c) (links (length (nodes_of c)))) c.

(** [updateBaseJobs]: only the entering paths get attributes, and none is removed without
    [redraw]. *)
Definition draw_jobs (redraw : bool) (c : Chart) : Chart :=
  let old := if redraw then [] else jobsHolder c in
  with_jobs (old ++ drop (length old) (updateBaseJobs root3 (c_width c) (leafs (tree c)))) c.

(** [select('rect.highlight').remove()]: the first element of the class. *)
Fixpoint remove_highlight (es : list Elem) : list Elem :=
  match es with
  | e :: es => if e_highlight e then es else e :: remove_highlight es
  | [] => []
  end.

Definition no_rect : Rect := mkRect 0 0 0 0.

(** The element [getHighlightRect] appends; it has no datum. *)
Definition new_highlight : Elem := mkElem true None no_rect "var(--selected-tertiary)" false false.

(** The change of the first element of the class, which is appended if there is none. *)
Fixpoint on_highlight (f : Elem -> Elem) (es : list Elem) : list Elem :=
  match es with
  | e :: es => if e_highlight e then f e :: es else e :: on_highlight f es
  | [] => [f new_highlight]
  end.

Definition place_highlight (r : option Rect) (e : Elem) : Elem :=
  match r with
  | Some r => mkElem (e_highlight e) (e_leaf e) r (e_fill e) (e_pulse e) true
  | None => mkElem (e_highlight e) (e_leaf e) (e_rect e) (e_fill e) (e_pulse e) false
  end.

(** [updateHighlightRect] *)
Definition draw_highlight (redraw : bool) (c : Chart) : Chart :=
  let es := if redraw then remove_highlight (leafsHolder c) else leafsHolder c in
  with_leafs (on_highlight (place_highlight
    (updateHighlightRect (view c) (leafWidth c) (cells c) (active c))) es) c.

(** [drawTree] *)
Definition draw (redraw : bool) (c : Chart) : result Chart :=
  let cs := partition (leafs (tree c)) (c_width c) (c_height c - 10) in
  lw ← leaf_width cs;
  mret (draw_highlight redraw (draw_jobs redraw (draw_lines (updateLeafs redraw (with_root cs lw c))))).

(** [redrawChart] *)
Definition redrawChart (size : Q * Q) (c : Chart) : result Chart := draw true (measured size c).

(** The subscriber of [listenToTreeViewChange] *)
Definition tree_view_changed (tv : bool) (c : Chart) : Chart :=
  draw_highlight true (draw_lines (updateLeafs true (with_view tv c))).

(** [listenToHighlightSnarkPoolChange]: every rectangle of the group is coloured, that of
    the highlight too. *)
Definition highlight_changed (h : bool) (c : Chart) : Chart :=
  with_leafs ((fun e => mkElem (e_highlight e) (e_leaf e) (e_rect e) (rectsFill (e_leaf e) h)
                          match e_leaf e with Some l => hasPulseEffect h l | None => false end (e_shown e))
                <$> leafsHolder c) (with_highlight h c).

(** [mouseOverHandle] and [mouseOutHandler] on the element [i] *)
Definition mouse_over (i : nat) (c : Chart) : Chart :=
  match leafsHolder c !! i with
  | Some e =>
    match e_leaf e with
    | Some l =>
      with_tooltip (Some (mouseOverHandle (highlightSnarks c) l))
        (with_leafs (<[i := with_fill (getColorByStatus (status l) (highlightSnarks c)) e]> (leafsHolder c)) c)
    | None => c
    end
  | None => c
  end.

Definition mouse_out (i : nat) (c : Chart) : Chart :=
  match leafsHolder c !! i with
  | Some e =>
    match e_leaf e with
    | Some l =>
      with_tooltip None (with_leafs (<[i := with_fill (rectsFill (Some l) (highlightSnarks c)) e]> (leafsHolder c)) c)
    | None => c
    end
  | None => c
  end.

(** ** The chart and the store *)

(** [panel] and [menu]: the delayed values that are still to come, and whether the first
    one is still to be skipped. *)
Record Page := mkPage {
  store : State; chart : Chart; panel : nat * bool; menu : nat * bool
}.

Inductive Event :=
| Dispatch (a : Action) (size : Q * Q)
| Changes (t : Tree) (a : option Leaf) (bh : option Z)
| WindowResized (size : Q * Q)
| PanelTimer (size : Q * Q)
| MenuChanged
| MenuTimer (mobile : bool) (size : Q * Q)
| Over (i : nat)
| Out (i : nat)
| Click (i : nat) (size : Q * Q).

(** The address a click goes to: the height and the job of the query. *)
Definition Navigation : Type := option Z * option string.

Definition blank (st : State) (t : Tree) (a : option Leaf) (bh : option Z) (size : Q * Q) : Chart :=
  mkChart t a bh size.1 size.2 [] 0 false (highlightSnarkPool st) [] [] [] size (size.2 - 15) None.

(** [ngOnInit].  The value of the highlighting is taken before its first emission is
    skipped; a sidebar that was resized before draws the chart anew at once. *)
Definition ngOnInit (st : State) (t : Tree) (a : option Leaf) (bh : option Z) (size : Q * Q) : result Page :=
  c1 ← draw false (blank st t a bh size);
  c2 ← (if truthyZ (sideBarResized st) then redrawChart size c1 else mret c1);
  mret (mkPage st (tree_view_changed (treeView st) c2) (1%nat, true) (1%nat, true)).

(** What the subscriptions of the chart get of a change of the store, in their order. *)
Definition emit (st st' : State) (size : Q * Q) (p : Page) : result Page :=
  let c1 := if Bool.eqb (highlightSnarkPool st) (highlightSnarkPool st') then chart p
            else highlight_changed (highlightSnarkPool st') (chart p) in
  c2 ← (if Z.eqb (sideBarResized st) (sideBarResized st') then mret c1
        else if truthyZ (sideBarResized st') then redrawChart size c1 else mret c1);
  let panel' := if Bool.eqb (openSidePanel st) (openSidePanel st') then panel p
                else (S (panel p).1, (panel p).2) in
  let c3 := if Bool.eqb (treeView st) (treeView st') then c2 else tree_view_changed (treeView st') c2 in
  mret (mkPage st' c3 panel' (menu p)).

Definition dispatch (desktop stored : bool) (a : Action) (size : Q * Q) (p : Page) : result Page :=
  emit (store p) (reducer desktop stored (store p) a) size p.

Definition on_chart (r : result Chart) (p : Page) : result Page :=
  c ← r; mret (mkPage (store p) c (panel p) (menu p)).

(** A value that was delayed: the first one is skipped. *)
Definition delayed (size : Q * Q) (passes : bool) (timers : nat * bool) (c : Chart) : result Chart :=
  match timers with
  | (S _, false) => if passes then redrawChart size c else mret c
  | _ => mret c
  end.

Definition taken (timers : nat * bool) : nat * bool :=
  match timers with (S n, _) => (n, false) | t => t end.

(** [ngOnChanges], [handleResizing] and the handlers of the rectangles *)
Definition step (desktop stored : bool) (e : Event) (p : Page) : result (Page * list Navigation) :=
  match e with
  | Dispatch a size => p' ← dispatch desktop stored a size p; mret (p', [])
  | Changes t a bh => p' ← on_chart (draw false (with_inputs t a bh (chart p))) p; mret (p', [])
  | WindowResized size => p' ← on_chart (redrawChart size (chart p)) p; mret (p', [])
  | PanelTimer size =>
    c ← delayed size true (panel p) (chart p);
    mret (mkPage (store p) c (taken (panel p)) (menu p), [])
  | MenuChanged => mret (mkPage (store p) (chart p) (panel p) (S (menu p).1, (menu p).2), [])
  | MenuTimer mobile size =>
    c ← delayed size (negb mobile) (menu p) (chart p);
    mret (mkPage (store p) c (panel p) (taken (menu p)), [])
  | Over i => mret (mkPage (store p) (mouse_over i (chart p)) (panel p) (menu p), [])
  | Out i => mret (mkPage (store p) (mouse_out i (chart p)) (panel p) (menu p), [])
  | Click i size =>
    match leafsHolder (chart p) !! i ≫= e_leaf with
    | Some l =>
      let '(a, nav) := click_cell (blockHeight (chart p)) l in
      p' ← dispatch desktop stored a size p; mret (p', [nav])
    | None => mret (p, [])
    end
  end.

Fixpoint run (desktop stored : bool) (evs : list Event) (p : Page) : result (Page * list Navigation) :=
  match evs with
  | [] => mret (p, [])
  | e :: evs =>
    '(p1, o1) ← step desktop stored e p;
    '(p2, o2) ← run desktop stored evs p1;
    mret (p2, o1 ++ o2)
  end.
End Drawing.

(** ** The list of the trees *)

Record TreeList := mkTreeList {
  base : ScanStatePage.TreeList; openPanel : bool; mobile : bool; l_highlight : bool;
  activeJobIdInRoute : option string; panel_values : list bool
}.

Inductive ListEvent :=
| BlockIs (b : option Block)
| LeafIs (l : option Leaf)
| PanelIs (open : bool)
| PanelValue (i : nat)
| HighlightIs (h : bool)
| LatestClicked
| SidePanelClicked.

(** [ngOnInit] of the list: the values the selectors have when it is subscribed to them; the
    value of the side panel comes after its delay, and only on a mobile. *)
Definition list_init (st : State) (jobId : option string) (mobile : bool) : TreeList :=
  let t0 := ScanStatePage.mkTreeList [] None false None in
  let t1 := match block st with Some b => ScanStatePage.listenToTreesChanges b t0 | None => t0 end in
  let t2 := (ScanStatePage.listenToActiveJobID (activeLeaf st) t1).1 in
  mkTreeList t2 false mobile (highlightSnarkPool st) jobId
    (if mobile then [openSidePanel st] else []).

(** The values of the side panel are delayed each on its own ([mergeMap]): any of those on
    their way may be the next to come. *)
Definition list_step (ev : ListEvent) (t : TreeList) : TreeList * list Action :=
  match ev with
  | BlockIs None => (t, [])
  | BlockIs (Some b) =>
    (mkTreeList (ScanStatePage.listenToTreesChanges b (base t)) (openPanel t) (mobile t) (l_highlight t)
       (activeJobIdInRoute t) (panel_values t), [])
  | LeafIs l =>
    (mkTreeList (ScanStatePage.listenToActiveJobID l (base t)).1 (openPanel t) (mobile t) (l_highlight t)
       None (panel_values t), [])
  | PanelIs open =>
    (mkTreeList (base t) (openPanel t) (mobile t) (l_highlight t) (activeJobIdInRoute t)
       (if mobile t then panel_values t ++ [open] else panel_values t), [])
  | PanelValue i =>
    match panel_values t !! i with
    | Some open =>
      (mkTreeList (base t) (if open && negb (openPanel t) then true
                            else if negb open && openPanel t then false else openPanel t)
         (mobile t) (l_highlight t) (activeJobIdInRoute t) (list_delete i (panel_values t)), [])
    | None => (t, [])
    end
  | HighlightIs h =>
    (mkTreeList (base t) (openPanel t) (mobile t) h (activeJobIdInRoute t) (panel_values t), [])
  | LatestClicked => (t, [GetBlock None; Start])
  | SidePanelClicked => (t, [ToggleSidePanel])
  end.

(** The inputs of the chart of the tree [i]: only that of the tree of the active leaf has
    one. *)
Definition inputs (t : TreeList) (i : nat) : option (Tree * option Leaf * option Z) :=
  (fun tr => (tr, match ScanStatePage.tl_leaf (base t) with
                  | Some l => if bool_decide (treeIndex l = Some i) then Some l else None
                  | None => None
                  end, ScanStatePage.tl_height (base t))) <$> ScanStatePage.tl_trees (base t) !! i.

(** ** What a drawn chart shows *)

(** The element of a node: its rectangle, its pulse, and its colour, which is the brighter one
    of the same highlighting under the mouse. *)
Definition cell_shown (tv hl : bool) (lw : Q) (node : Cell * Leaf) (e : Elem) : Prop :=
  e_highlight e = false /\ e_leaf e = Some node.2 /\ e_rect e = cell_rect tv lw node.1 /\
  e_pulse e = hasPulseEffect hl node.2 /\
  (e_fill e = rectsFill (Some node.2) hl \/ e_fill e = getColorByStatus (status node.2) hl).

Definition highlight_placed (c : Chart) (e : Elem) : Prop :=
  match updateHighlightRect (view c) (leafWidth c) (cells c) (active c) with
  | Some r => e_shown e = true /\ e_rect e = r
  | None => e_shown e = false
  end.

Definition sized (c : Chart) : Prop :=
  length (leafs (tree c)) = complete /\ 0 < c_width c /\ 10 < c_height c.

(** The group holds one element per leaf, and then that of the highlight. *)
Definition grouped (c : Chart) : Prop :=
  exists es hi, leafsHolder c = es ++ [hi] /\ length es = complete /\
    Forall (fun e => e_highlight e = false) es /\ e_highlight hi = true /\ e_leaf hi = None.

Definition laid_out `{Partition} (c : Chart) : Prop :=
  cells c = partition (leafs (tree c)) (c_width c) (c_height c - 10) /\ leaf_width (cells c) = Ok (leafWidth c).

Definition cells_shown (c : Chart) : Prop :=
  exists es hi, leafsHolder c = es ++ [hi] /\
    Forall2 (cell_shown (view c) (highlightSnarks c) (leafWidth c)) (nodes_of c) es /\
    e_highlight hi = true /\ e_leaf hi = None /\ highlight_placed c hi.

Definition lines_shown (c : Chart) : Prop :=
  linesHolder c = updateLines (view c) (leafWidth c) (nodes_of c) (links (length (nodes_of c))).

Definition good `{Partition} (c : Chart) : Prop :=
  sized c /\ laid_out c /\ cells_shown c /\ lines_shown c.

(** The fields that drawing leaves as they are. *)
Definition same_fields (c c' : Chart) : Prop :=
  tree c' = tree c /\ active c' = active c /\ view c' = view c /\ highlightSnarks c' = highlightSnarks c.

Section Shown.
Context `{Partition} (root3 : Q).

Lemma fresh_shown tv hl lw nodes :
  Forall2 (cell_shown tv hl lw) nodes (draw_cell tv hl lw None <$> nodes).
Proof.
  induction nodes as [|[cell l] nodes IH]; [constructor|]. rewrite fmap_cons. constructor; [|done].
  unfold cell_shown. cbn. auto 10.
Qed.

Lemma join_shown tv hl lw es rest nodes :
  length es = length nodes -> Forall (fun e => e_highlight e = false) es ->
  exists es', join_cells tv hl lw (es ++ rest) nodes = es' ++ rest /\ Forall2 (cell_shown tv hl lw) nodes es'.
Proof.
  revert nodes. induction es as [|e es IH]; intros [|[cell l] nodes] Hl Hes; try discriminate Hl.
  - exists []. split; [|constructor]. by destruct rest.
  - apply Forall_cons in Hes as [He Hes]. destruct (IH nodes) as (es' & E & Hs); [cbn in Hl; lia|done|].
    exists (draw_cell tv hl lw (Some e) (cell, l) :: es'). cbn [app join_cells]. rewrite E. split; [done|].
    constructor; [|done]. unfold cell_shown. cbn. auto 10.
Qed.

Lemma shown_not_highlight tv hl lw nodes es :
  Forall2 (cell_shown tv hl lw) nodes es -> Forall (fun e => e_highlight e = false) es.
Proof. induction 1 as [|n e nodes es [He _] _ IH]; constructor; done. Qed.

Lemma remove_no_highlight es : Forall (fun e => e_highlight e = false) es -> remove_highlight es = es.
Proof. induction 1 as [|e es He _ IH]; [done|]. cbn. by rewrite He, IH. Qed.

Lemma on_highlight_new f es :
  Forall (fun e => e_highlight e = false) es -> on_highlight f es = es ++ [f new_highlight].
Proof. induction 1 as [|e es He _ IH]; [done|]. cbn. by rewrite He, IH. Qed.

Lemma on_highlight_there f es hi :
  Forall (fun e => e_highlight e = false) es -> e_highlight hi = true -> on_highlight f (es ++ [hi]) = es ++ [f hi].
Proof. intros Hes Hhi. induction Hes as [|e es He _ IH]; cbn; [by rewrite Hhi|]. by rewrite He, IH. Qed.

Lemma placed c hi :
  let e := place_highlight (updateHighlightRect (view c) (leafWidth c) (cells c) (active c)) hi in
  highlight_placed c e /\ e_highlight e = e_highlight hi /\ e_leaf e = e_leaf hi.
Proof. cbn zeta. unfold highlight_placed. by destruct (updateHighlightRect _ _ _ _). Qed.

Lemma nodes_complete c : sized c -> laid_out c -> length (nodes_of c) = complete.
Proof.
  intros (Hl & _) (Hc & _). unfold nodes_of.
  rewrite length_zip_with, Hc, partition_length, Hl. by vm_compute.
Qed.

(** The group after a join and the placing of the highlight. *)
Lemma cells_drawn (redraw : bool) (c : Chart) :
  length (nodes_of c) = complete -> (redraw = true \/ leafsHolder c = [] \/ grouped c) ->
  cells_shown (draw_highlight redraw (draw_lines (updateLeafs redraw c))).
Proof.
  intros Hn Hg.
  assert (Hjoin : exists es rest,
    join_cells (view c) (highlightSnarks c) (leafWidth c) (if redraw then [] else leafsHolder c) (nodes_of c) =
      es ++ rest /\ Forall2 (cell_shown (view c) (highlightSnarks c) (leafWidth c)) (nodes_of c) es /\
    (rest = [] \/ redraw = false /\ exists hi, rest = [hi] /\ e_highlight hi = true /\ e_leaf hi = None)).
  { assert (Hnew : exists es rest, join_cells (view c) (highlightSnarks c) (leafWidth c) [] (nodes_of c) =
      es ++ rest /\ Forall2 (cell_shown (view c) (highlightSnarks c) (leafWidth c)) (nodes_of c) es /\ rest = []).
    { eexists _, []. rewrite app_nil_r. split; [reflexivity|]. split; [apply fresh_shown|done]. }
    destruct redraw; [destruct Hnew as (es & rest & ? & ? & ->); exists es, []; auto|].
    destruct Hg as [Hg|[->|(es & hi & -> & Hl & Hes & Hhi & Hd)]]; [done| |].
    - destruct Hnew as (es & rest & ? & ? & ->); exists es, []; auto.
    - destruct (join_shown (view c) (highlightSnarks c) (leafWidth c) es [hi] (nodes_of c)) as (es' & E & Hs);
        [by rewrite Hn|done|]. exists es', [hi]. split; [done|]. split; [done|]. right. eauto. }
  destruct Hjoin as (es & rest & E & Hs & Hrest). pose proof (shown_not_highlight _ _ _ _ _ Hs) as Hes.
  assert (EL : leafsHolder (draw_lines (updateLeafs redraw c)) = es ++ rest) by exact E.
  unfold cells_shown, draw_highlight. rewrite EL. cbn.
  destruct Hrest as [->|[-> (hi & -> & Hhi & Hd)]].
  - rewrite app_nil_r. rewrite (remove_no_highlight es) by done.
    destruct (placed c new_highlight) as (Hp & Hh & Hl).
    exists es, (place_highlight (updateHighlightRect (view c) (leafWidth c) (cells c) (active c)) new_highlight).
    split; [by destruct redraw; rewrite on_highlight_new|]. done.
  - destruct (placed c hi) as (Hp & Hh & Hl).
    exists es, (place_highlight (updateHighlightRect (view c) (leafWidth c) (cells c) (active c)) hi).
    split; [by rewrite on_highlight_there|]. split; [done|]. rewrite Hh, Hl. done.
Qed.

Lemma good_grouped c : good c -> grouped c.
Proof.
  intros (Hsz & Hlo & (es & hi & E & Hs & Hhi & Hd & _) & _). exists es, hi. split; [done|].
  split; [by rewrite <- (Forall2_length _ _ _ Hs), nodes_complete|].
  split; [by eapply shown_not_highlight|]. done.
Qed.

Lemma leaf_width_ok ls w h : length ls = complete -> exists lw, leaf_width (partition ls w h) = Ok lw.
Proof.
  intros Hl. rewrite complete_cells by done. destruct (leaf_width_complete w h) as (lw & E & _). by exists lw.
Qed.

(** [drawTree] succeeds on a complete tree and leaves a good chart. *)
Lemma draw_good (redraw : bool) (c : Chart) :
  sized c -> (redraw = true \/ leafsHolder c = [] \/ grouped c) ->
  exists c', draw root3 redraw c = Ok c' /\ good c' /\ same_fields c c' /\
    c_width c' = c_width c /\ c_height c' = c_height c.
Proof.
  intros Hsz Hg. destruct (leaf_width_ok (leafs (tree c)) (c_width c) (c_height c - 10)) as [lw Hlw]; [apply Hsz|].
  unfold draw. rewrite Hlw. cbn [mbind result_bind mret result_ret].
  set (c1 := with_root (partition (leafs (tree c)) (c_width c) (c_height c - 10)) lw c).
  assert (Hlo : laid_out c1) by (split; [done|exact Hlw]).
  assert (Hsz1 : sized c1) by exact Hsz.
  eexists. split; [reflexivity|]. split; [|by repeat split].
  split; [exact Hsz|]. split; [exact Hlo|]. split; [|done].
  exact (cells_drawn redraw c1 (nodes_complete c1 Hsz1 Hlo) Hg).
Qed.

Lemma redraw_good size c :
  sized c -> 0 < size.1 -> 10 < size.2 ->
  exists c', redrawChart root3 size c = Ok c' /\ good c' /\ same_fields c c'.
Proof.
  intros (Hl & _ & _) Hw Hh.
  destruct (draw_good true (measured size c)) as (c' & E & Hg & Hf & _); [done|auto|]. by exists c'.
Qed.

Lemma view_good tv c :
  good c -> good (tree_view_changed tv c) /\ tree (tree_view_changed tv c) = tree c /\
    view (tree_view_changed tv c) = tv /\ highlightSnarks (tree_view_changed tv c) = highlightSnarks c.
Proof.
  intros (Hsz & Hlo & Hc & Hl). split; [|done]. split; [exact Hsz|]. split; [exact Hlo|].
  split; [|done]. apply (cells_drawn true (with_view tv c)); [|auto]. by apply (nodes_complete c).
Qed.

Lemma highlight_good h c :
  good c -> good (highlight_changed h c) /\ tree (highlight_changed h c) = tree c /\
    view (highlight_changed h c) = view c /\ highlightSnarks (highlight_changed h c) = h.
Proof.
  intros (Hsz & Hlo & (es & hi & E & Hs & Hhi & Hd & Hp) & Hl). split; [|done].
  split; [exact Hsz|]. split; [exact Hlo|]. split; [|exact Hl].
  unfold cells_shown, highlight_changed. cbn. rewrite E, fmap_app. eexists _, _. split; [reflexivity|].
  split; [|cbn; by rewrite Hhi, Hd].
  apply Forall2_fmap_r. eapply Forall2_impl; [exact Hs|]. intros [cell l] e (He & Hle & Hr & Hpu & Hf).
  unfold cell_shown. cbn in *. rewrite Hle. auto 10.
Qed.

(** A change of the colour of one element. *)
Lemma coloured_good c i e l f :
  good c -> leafsHolder c !! i = Some e -> e_leaf e = Some l ->
  f = rectsFill (Some l) (highlightSnarks c) \/ f = getColorByStatus (status l) (highlightSnarks c) ->
  good (with_leafs (<[i := with_fill f e]> (leafsHolder c)) c).
Proof.
  intros (Hsz & Hlo & (es & hi & E & Hs & Hhi & Hd & Hp) & Hl) Hi He Hf.
  split; [exact Hsz|]. split; [exact Hlo|]. split; [|exact Hl].
  rewrite E in Hi. apply lookup_snoc_Some in Hi as [[Hi Hlk]|[_ <-]]; [|congruence].
  exists (<[i := with_fill f e]> es), hi. cbn. rewrite E. split; [by rewrite insert_app_l|].
  split; [|done].
  destruct (Forall2_lookup_r _ _ _ _ _ Hs Hlk) as ([cell l'] & Hn & Hc).
  change (Forall2 (cell_shown (view c) (highlightSnarks c) (leafWidth c)) (nodes_of c) (<[i:=with_fill f e]> es)).
  rewrite <- (list_insert_id (nodes_of c) i (cell, l')) by done.
  apply Forall2_insert; [done|]. destruct Hc as (H1 & H2 & H3 & H4 & _). cbn in *.
  assert (l' = l) as -> by congruence. unfold cell_shown. cbn. auto 10.
Qed.

Lemma over_good i c :
  good c -> good (mouse_over i c) /\ same_fields c (mouse_over i c).
Proof.
  intros Hg. unfold mouse_over. destruct (leafsHolder c !! i) as [e|] eqn:Hi; [|by repeat split; apply Hg].
  destruct (e_leaf e) as [l|] eqn:He; [|by repeat split; apply Hg].
  split; [|by repeat split]. apply (coloured_good c i e l); auto.
Qed.

Lemma out_good i c :
  good c -> good (mouse_out i c) /\ same_fields c (mouse_out i c).
Proof.
  intros Hg. unfold mouse_out. destruct (leafsHolder c !! i) as [e|] eqn:Hi; [|by repeat split; apply Hg].
  destruct (e_leaf e) as [l|] eqn:He; [|by repeat split; apply Hg].
  split; [|by repeat split]. apply (coloured_good c i e l); auto.
Qed.
End Shown.

(** ** Any sequence of events *)

Definition size_ok (size : Q * Q) : Prop := 0 < size.1 /\ 10 < size.2.

(** The trees of the inputs are complete, and the element has room when it is measured. *)
Definition event_ok (e : Event) : Prop :=
  match e with
  | Dispatch _ size | WindowResized size | PanelTimer size | MenuTimer _ size | Click _ size => size_ok size
  | Changes t _ _ => length (leafs t) = complete
  | MenuChanged | Over _ | Out _ => True
  end.

(** The tree of the last inputs. *)
Definition tree_after (t : Tree) (e : Event) : Tree :=
  match e with Changes t' _ _ => t' | _ => t end.

Definition last_tree (t : Tree) (evs : list Event) : Tree := fold_left tree_after evs t.

Definition page_good `{Partition} (p : Page) : Prop :=
  good (chart p) /\ view (chart p) = treeView (store p) /\
  highlightSnarks (chart p) = highlightSnarkPool (store p).

Section Sessions.
Context `{Partition} (root3 : Q).

Lemma emit_good st' size p :
  page_good p -> size_ok size ->
  exists p', emit root3 (store p) st' size p = Ok p' /\ page_good p' /\ tree (chart p') = tree (chart p).
Proof.
  intros (Hg & Hv & Hh) [Hw Hht]. unfold emit.
  assert (H1 : exists c1, (if Bool.eqb (highlightSnarkPool (store p)) (highlightSnarkPool st') then chart p
      else highlight_changed (highlightSnarkPool st') (chart p)) = c1 /\ good c1 /\
      view c1 = treeView (store p) /\ highlightSnarks c1 = highlightSnarkPool st' /\ tree c1 = tree (chart p)).
  { destruct (Bool.eqb _ _) eqn:E.
    - apply Bool.eqb_prop in E. rewrite <- E. eauto 10.
    - destruct (highlight_good (highlightSnarkPool st') (chart p) Hg) as (? & ? & ? & ?).
      eexists. split; [reflexivity|]. split; [done|]. split; [by rewrite <- Hv|]. done. }
  destruct H1 as (c1 & -> & Hg1 & Hv1 & Hh1 & Ht1).
  assert (H2 : exists c2, (if Z.eqb (sideBarResized (store p)) (sideBarResized st') then mret c1
      else if truthyZ (sideBarResized st') then redrawChart root3 size c1 else mret c1) = Ok c2 /\ good c2 /\
      view c2 = treeView (store p) /\ highlightSnarks c2 = highlightSnarkPool st' /\ tree c2 = tree (chart p)).
  { destruct (Z.eqb _ _); [by exists c1|]. destruct (truthyZ _); [|by exists c1].
    destruct (redraw_good root3 size c1) as (c2 & -> & Hg2 & E1 & _ & E2 & E3); [apply Hg1|done|done|].
    exists c2. split; [done|]. split; [done|]. rewrite E1, E2, E3. done. }
  destruct H2 as (c2 & -> & Hg2 & Hv2 & Hh2 & Ht2). cbn [mbind result_bind mret result_ret].
  eexists. split; [reflexivity|]. destruct (Bool.eqb (treeView (store p)) (treeView st')) eqn:E.
  - apply Bool.eqb_prop in E. split; [|done]. split; [done|]. cbn. by rewrite Hv2, E.
  - destruct (view_good (treeView st') c2 Hg2) as (Hg3 & E1 & E2 & E3). cbn [chart].
    split; [|by rewrite E1]. split; [done|]. split; [done|]. exact (eq_trans E3 Hh2).
Qed.

Lemma delayed_good size b timers c :
  good c -> size_ok size ->
  exists c', delayed root3 size b timers c = Ok c' /\ good c' /\ same_fields c c'.
Proof.
  intros Hg [Hw Hh]. assert (Hsame : exists c', Ok c = Ok c' /\ good c' /\ same_fields c c') by by exists c.
  destruct timers as [[|n] []]; cbn; try done. destruct b; [|done].
  destruct (redraw_good root3 size c) as (c' & E & Hg' & Hf); [apply Hg|done|done|]. by exists c'.
Qed.

Lemma chart_replaced p c' pa me :
  page_good p -> good c' -> same_fields (chart p) c' ->
  page_good (mkPage (store p) c' pa me) /\ tree c' = tree (chart p).
Proof. intros (_ & Hv & Hh) Hg (E1 & _ & E2 & E3). split; [|done]. by rewrite <- E2, <- E3 in *. Qed.

Lemma changes_good t a bh c :
  good c -> length (leafs t) = complete ->
  exists c', draw root3 false (with_inputs t a bh c) = Ok c' /\ good c' /\ tree c' = t /\
    view c' = view c /\ highlightSnarks c' = highlightSnarks c.
Proof.
  intros Hg Hl. destruct (draw_good root3 false (with_inputs t a bh c)) as (c' & E & Hg' & (E1 & _ & E2 & E3) & _).
  - destruct Hg as ((_ & ?) & _). by split.
  - right. right. exact (good_grouped c Hg).
  - exists c'. done.
Qed.

Lemma step_good desktop stored e p :
  page_good p -> event_ok e ->
  exists p' o, step root3 desktop stored e p = Ok (p', o) /\ page_good p' /\
    tree (chart p') = tree_after (tree (chart p)) e.
Proof.
  intros Hp He. pose proof Hp as (Hg & Hv & Hh).
  destruct e as [a size|t a bh|size|size| |mob size|i|i|i size]; cbn [step event_ok tree_after] in *.
  - destruct (emit_good (reducer desktop stored (store p) a) size p Hp He) as (p' & E & Hp' & Ht).
    unfold dispatch. rewrite E. by eexists _, _.
  - destruct (changes_good t a bh (chart p) Hg He) as (c' & E & Hg' & Ht & E1 & E2). unfold on_chart.
    rewrite E. eexists _, _. split; [reflexivity|]. split; [|done]. split; [done|]. cbn. by rewrite E1, E2.
  - destruct (redraw_good root3 size (chart p)) as (c' & E & Hg' & Hf); [apply Hg|apply He|apply He|].
    unfold on_chart. rewrite E. eexists _, _. split; [reflexivity|]. by apply chart_replaced.
  - destruct (delayed_good size true (panel p) (chart p) Hg He) as (c' & E & Hg' & Hf). rewrite E.
    eexists _, _. split; [reflexivity|]. by apply chart_replaced.
  - by eexists _, _.
  - destruct (delayed_good size (negb mob) (menu p) (chart p) Hg He) as (c' & E & Hg' & Hf). rewrite E.
    eexists _, _. split; [reflexivity|]. by apply chart_replaced.
  - destruct (over_good i (chart p) Hg) as [Hg' Hf]. eexists _, _. split; [reflexivity|]. by apply chart_replaced.
  - destruct (out_good i (chart p) Hg) as [Hg' Hf]. eexists _, _. split; [reflexivity|]. by apply chart_replaced.
  - destruct (leafsHolder (chart p) !! i ≫= e_leaf) as [l|]; [|by eexists _, _]. cbn [click_cell].
    destruct (emit_good (reducer desktop stored (store p) (SetActiveLeaf (Some l))) size p Hp He) as (p' & E & Hp' & Ht).
    unfold dispatch. rewrite E. by eexists _, _.
Qed.

Lemma run_good desktop stored evs p :
  page_good p -> Forall event_ok evs ->
  exists p' o, run root3 desktop stored evs p = Ok (p', o) /\ page_good p' /\
    tree (chart p') = last_tree (tree (chart p)) evs.
Proof.
  intros Hp Hevs. revert p Hp. induction Hevs as [|e evs He _ IH]; intros p Hp; cbn [run].
  - by eexists p, [].
  - destruct (step_good desktop stored e p Hp He) as (p1 & o1 & -> & Hp1 & Ht1). cbn [mbind result_bind].
    destruct (IH p1 Hp1) as (p2 & o2 & -> & Hp2 & Ht2). cbn.
    eexists _, _. split; [reflexivity|]. split; [done|]. by rewrite Ht2, Ht1.
Qed.

Lemma init_good st t a bh size :
  length (leafs t) = complete -> size_ok size ->
  exists p, ngOnInit root3 st t a bh size = Ok p /\ page_good p /\ tree (chart p) = t.
Proof.
  intros Hl [Hw Hh]. unfold ngOnInit.
  destruct (draw_good root3 false (blank st t a bh size)) as (c1 & -> & Hg1 & (T1 & _ & V1 & S1) & _);
    [done|auto|]. cbn [mbind result_bind].
  assert (H2 : exists c2, (if truthyZ (sideBarResized st) then redrawChart root3 size c1 else mret c1) = Ok c2 /\
     good c2 /\ same_fields c1 c2).
  { destruct (truthyZ _); [|by exists c1]. apply redraw_good; [apply Hg1|done|done]. }
  destruct H2 as (c2 & -> & Hg2 & T2 & _ & V2 & S2). cbn [mbind result_bind mret result_ret].
  destruct (view_good (treeView st) c2 Hg2) as (Hg3 & T3 & V3 & S3).
  eexists. split; [reflexivity|]. split; [|by cbn [chart]; rewrite T3, T2, T1].
  split; [done|]. split; [done|]. cbn [chart]. by rewrite S3, S2, S1.
Qed.

(** The rectangles of the group are those [drawTree] gives for the chart. *)
Lemma good_drawn c :
  good c -> exists es hi drawn, leafsHolder c = es ++ [hi] /\ e_highlight hi = true /\ highlight_placed c hi /\
    drawTree (view c) (highlightSnarks c) (leafs (tree c)) (c_width c) (c_height c) = Ok drawn /\
    length es = length drawn /\
    forall i e, es !! i = Some e -> exists d l, drawn !! i = Some d /\ leafs (tree c) !! i = Some l /\
      e_rect e = rect d /\ e_pulse e = pulse d /\ (e_fill e = fill d \/ e_fill e = getColorByStatus (status l) (highlightSnarks c)).
Proof.
  intros (Hsz & [Hc Hlw] & (es & hi & E & Hs & Hhi & _ & Hp) & _). unfold drawTree. rewrite <- Hc, Hlw.
  eexists es, hi, _. split; [done|]. split; [done|]. split; [done|]. split; [reflexivity|].
  split; [rewrite <- (Forall2_length _ _ _ Hs); unfold nodes_of; by rewrite !length_zip_with|].
  intros i e He. destruct (Forall2_lookup_r _ _ _ _ _ Hs He) as ([cell l] & Hn & (_ & _ & H1 & H2 & H3)).
  apply lookup_zip_with_Some in Hn as (cell' & l' & [= <- <-] & Hcell & Hleaf).
  eexists _, l. rewrite lookup_zip_with, Hcell. cbn. rewrite Hleaf. split; [reflexivity|]. auto.
Qed.
End Sessions.

(** C25: From the opening of the chart on, whatever the store, the inputs, the window, the panel, the
    menu and the mouse do, with complete trees and room for the drawing nothing is raised, and
    the chart shows the tree of its last inputs in the view and the highlighting of the store:
    the group holds one rectangle per leaf, in the order of the leafs, inside the chart and
    apart from each other, with the pulse and the colour of the leaf, which is at most
    brightened by the mouse; then the highlight, on the rectangle of the active leaf or
    hidden; and the lines are those of the links in that view. *)
Theorem scan_chart_shows `{Partition} (root3 : Q) (desktop stored : bool) (st : State) (t : Tree)
    (a : option Leaf) (bh : option Z) (size : Q * Q) (evs : list Event) :
  length (leafs t) = complete -> size_ok size -> Forall event_ok evs ->
  exists p0 p o, ngOnInit root3 st t a bh size = Ok p0 /\ run root3 desktop stored evs p0 = Ok (p, o) /\
    let c := chart p in
    let hl := highlightSnarkPool (store p) in
    tree c = last_tree t evs /\ view c = treeView (store p) /\ highlightSnarks c = hl /\ lines_shown c /\
    exists es hi, leafsHolder c = es ++ [hi] /\ length es = length (leafs (tree c)) /\
      e_highlight hi = true /\ highlight_placed c hi /\
      (forall i e, es !! i = Some e -> in_chart (c_width c) (c_height c - 10) (e_rect e) /\
         exists l, leafs (tree c) !! i = Some l /\ e_pulse e = hasPulseEffect hl l /\
           (e_fill e = rectsFill (Some l) hl \/ e_fill e = getColorByStatus (status l) hl)) /\
      (forall i j e e', i ≠ j -> es !! i = Some e -> es !! j = Some e' -> apart (e_rect e) (e_rect e')).
Proof.
  intros Hl Hs Hevs. destruct (init_good root3 st t a bh size Hl Hs) as (p0 & E0 & Hp0 & Ht0).
  destruct (run_good root3 desktop stored evs p0 Hp0 Hevs) as (p & o & E & (Hg & Hv & Hh) & Ht).
  exists p0, p, o. split; [done|]. split; [done|]. cbn zeta. rewrite <- Hh.
  split; [by rewrite Ht, Ht0|]. split; [done|]. split; [done|]. split; [apply Hg|].
  destruct (good_drawn (chart p) Hg) as (es & hi & drawn & Ees & Hhi & Hpl & Ed & Hlen & Hes).
  destruct Hg as ((Hcl & Hw & Hht) & _).
  destruct (chart_drawn (view (chart p)) (highlightSnarks (chart p)) _ _ _ Hcl Hw Hht)
    as (drawn' & Ed' & Hlen' & Hin & Hap). assert (drawn' = drawn) as -> by congruence.
  exists es, hi. split; [done|]. split; [by rewrite Hlen|]. split; [done|]. split; [done|]. split.
  - intros i e He. destruct (Hes i e He) as (d & l & Hd & Hle & Hr & Hpu & Hf).
    destruct (Hin i d Hd) as (Hic & l' & Hl' & Hfd & Hpd). assert (l' = l) as -> by congruence.
    rewrite Hr. split; [done|]. exists l. rewrite Hpu, <- Hfd. done.
  - intros i j e e' Hij He He'. destruct (Hes i e He) as (d & _ & Hd & _ & -> & _).
    destruct (Hes j e' He') as (d' & _ & Hd' & _ & -> & _). by apply (Hap i j).
Qed.

(** ** An example *)

Definition leaf_of (kind : option string) (i : nat) : Leaf :=
  mkLeaf (Some Pending) None None kind None None None (Some i) (Some 0%nat) None.

(** A complete tree with a payment and a coinbase as its first base jobs, in either order. *)
Definition tree_with (first second : string) : Tree :=
  mkTree (imap (fun i _ => leaf_of (if Nat.eqb i 127 then Some first
                                    else if Nat.eqb i 128 then Some second else None) i)
            (repeat tt complete)) 0 0 0 0 0 1 1 0 0 0.

Definition sample_events : list Event :=
  [Dispatch ToggleTreeView (800, 74); Over 3; Changes (tree_with "Coinbase" "Payment") (Some (leaf_of None 4)) None;
   PanelTimer (700, 74); Dispatch HighlightSnarkPool (700, 74); Click 7 (700, 74); MenuTimer false (700, 74)].

Lemma scan_chart_shows_witness :
  exists p0 p o,
    ngOnInit (H := even_partition) (173 # 100) (initialState true false) (tree_with "Payment" "Coinbase") None None (800, 74) = Ok p0 /\
    run (H := even_partition) (173 # 100) true false sample_events p0 = Ok (p, o) /\
    let c := chart p in
    let hl := highlightSnarkPool (store p) in
    tree c = last_tree (tree_with "Payment" "Coinbase") sample_events /\ view c = treeView (store p) /\
    highlightSnarks c = hl /\ lines_shown c /\
    exists es hi, leafsHolder c = es ++ [hi] /\ length es = length (leafs (tree c)) /\
      e_highlight hi = true /\ highlight_placed c hi /\
      (forall i e, es !! i = Some e -> in_chart (c_width c) (c_height c - 10) (e_rect e) /\
         exists l, leafs (tree c) !! i = Some l /\ e_pulse e = hasPulseEffect hl l /\
           (e_fill e = rectsFill (Some l) hl \/ e_fill e = getColorByStatus (status l) hl)) /\
      (forall i j e e', i ≠ j -> es !! i = Some e -> es !! j = Some e' -> apart (e_rect e) (e_rect e')).
Proof.
  apply (scan_chart_shows (H := even_partition)); [vm_compute; reflexivity|split; reflexivity|].
  repeat (apply Forall_cons; split); [..|by apply Forall_nil]; try exact I; split; reflexivity.
Defined.

(** ** The mouse, the marks and the highlight *)

(** Leaving a cell gives back the colour it had before the mouse came. *)
Lemma over_out i (c : Chart) e l :
  leafsHolder c !! i = Some e -> e_leaf e = Some l -> e_fill e = rectsFill (Some l) (highlightSnarks c) ->
  leafsHolder (mouse_out i (mouse_over i c)) = leafsHolder c.
Proof.
  intros Hi He Hf. unfold mouse_over. rewrite Hi, He. unfold mouse_out. cbn.
  rewrite list_lookup_insert_eq by (by eapply lookup_lt_Some). cbn. rewrite He. cbn.
  rewrite list_insert_insert_eq. apply list_insert_id. rewrite Hi. f_equal. destruct e. cbn in *. by subst.
Qed.

(** New inputs leave the marks of the base jobs as they were: only entering marks are drawn. *)
Lemma marks_stay `{Partition} root3 t a bh (c c' : Chart) :
  (128 <= length (jobsHolder c))%nat -> draw root3 false (with_inputs t a bh c) = Ok c' ->
  jobsHolder c' = jobsHolder c.
Proof.
  intros Hl. unfold draw. destruct (leaf_width _) as [lw|msg]; [|done]. cbn. intros [= <-]. cbn.
  rewrite drop_ge, app_nil_r; [done|]. unfold updateBaseJobs. rewrite length_imap. unfold base_jobs.
  rewrite length_drop. lia.
Qed.

(** So the chart of a tree that is kept, because the tree that replaces its own is tracked by
    the same key, may show marks of other jobs than those of its tree. *)
Lemma marks_stale `{Partition} root3 a bh (c c' : Chart) :
  let t := tree_with "Payment" "Coinbase" in
  let t' := tree_with "Coinbase" "Payment" in
  tree c = t -> jobsHolder c = updateBaseJobs root3 (c_width c) (leafs t) ->
  draw root3 false (with_inputs t' a bh c) = Ok c' ->
  ScanStatePage.trackTree t = ScanStatePage.trackTree t' /\
  jobsHolder c' ≠ updateBaseJobs root3 (c_width c') (leafs t').
Proof.
  intros t t' Ht Hj Hd. split; [reflexivity|].
  rewrite (marks_stay root3 t' a bh c c') by
    (done || (rewrite Hj; unfold updateBaseJobs; rewrite length_imap; vm_compute; lia)).
  rewrite Hj. intros E. apply (f_equal (fun l => snd <$> head l)) in E. discriminate E.
Qed.

(** A change of the highlighting gives the rectangle over the active leaf the colour of a cell
    without a leaf. *)
Lemma highlight_covers `{Partition} h (c : Chart) :
  good c -> exists es hi, leafsHolder (highlight_changed h c) = es ++ [hi] /\ e_highlight hi = true /\
    e_fill hi = "var(--base-container)"%string.
Proof.
  intros (_ & _ & (es & hi & E & _ & Hhi & Hd & _) & _). unfold highlight_changed. cbn.
  rewrite E, fmap_app. eexists _, _. split; [reflexivity|]. cbn. by rewrite Hd.
Qed.

(** ** The list *)

(** The active leaf is passed to at most one chart. *)
Lemma one_active (t : TreeList) i j tr tr' l l' hi hj :
  inputs t i = Some (tr, Some l, hi) -> inputs t j = Some (tr', Some l', hj) -> i = j /\ l = l'.
Proof.
  unfold inputs. destruct (ScanStatePage.tl_trees (base t) !! i); [|done].
  destruct (ScanStatePage.tl_trees (base t) !! j); [|done]. cbn.
  destruct (ScanStatePage.tl_leaf (base t)) as [x|]; [|done].
  destruct (bool_decide (treeIndex x = Some i)) eqn:Ei; [|done].
  destruct (bool_decide (treeIndex x = Some j)) eqn:Ej; [|done].
  apply bool_decide_eq_true in Ei, Ej. intros [= _ <- _] [= _ <- _]. split; [congruence|done].
Qed.
End ScanStateDrawing.
