(* ===== verification/BenchmarksPage.v ===== *)
(** * The page of the wallet benchmark

    [features/benchmarks/wallets] of [src/frontend/src/app]: the page, the toolbar of the
    payments, that of the zkapps and the table as machines around the store of [Benchmarks],
    and [src/frontend/src/assets/o1js/src/zk-app/zk-app.ts], which sends a zkapp command.

    A form control holds its value and the last value that [distinctUntilChanged] let pass.
    A value set by the program may be emitted again, so a handler can be entered from
    itself; an action dispatched while the store emits waits until it has done so.  The
    o1js package, its keys and its clock are parameters.  Numbers of tokens are billionths,
    as in [Benchmarks]; the number of a batch may be a fraction. *)

From Stdlib Require Import ZArith Lia QArith Qround Lqa.
From stdpp Require Import base list strings.
From S2P Require Import Prelude SharedLib Ledger Mempool Benchmarks.

Module BenchmarksPage.
Import Ledger Benchmarks.
Open Scope Z_scope.

(** ** Form controls *)

(** [None] is [null], an empty field. *)
Record Control (A : Type) := mkControl { value : option A; passed : option (option A) }.
Arguments mkControl {A} _ _.
Arguments value {A} _.
Arguments passed {A} _.

(** A new value and what the subscriber of [valueChanges] gets. *)
Definition set_number (v : option Z) (c : Control Z) : Control Z * option Z :=
  (mkControl v (Some v), if bool_decide (passed c = Some v) then None else v).

(** Strict equality of numbers. *)
Definition same_number (a b : option Q) : bool :=
  match a, b with Some x, Some y => Qeq_bool x y | None, None => true | _, _ => false end.

Definition already_passed (v : option Q) (c : Control Q) : bool :=
  match passed c with Some l => same_number l v | None => false end.

(** ** The toolbars *)

Inductive Kind := Payments | Zkapps.

(** [overlays] counts the overlays that were created, [attached] tells whether the last one
    is open.  The toolbar of the zkapps has no amount. *)
Record Toolbar := mkToolbar {
  batch : Control Q; amount : Control Z; fee : Control Z;
  streamSending : bool; sent : SentStats; t_random : bool; t_active : option Wallet;
  t_wallets : list Wallet; currentBatch : option Z;
  overlays : nat; attached : bool
}.

Definition with_batch (c : Control Q) (t : Toolbar) : Toolbar :=
  mkToolbar c (amount t) (fee t) (streamSending t) (sent t) (t_random t) (t_active t) (t_wallets t)
    (currentBatch t) (overlays t) (attached t).
Definition with_amount (c : Control Z) (t : Toolbar) : Toolbar :=
  mkToolbar (batch t) c (fee t) (streamSending t) (sent t) (t_random t) (t_active t) (t_wallets t)
    (currentBatch t) (overlays t) (attached t).
Definition with_fee (c : Control Z) (t : Toolbar) : Toolbar :=
  mkToolbar (batch t) (amount t) c (streamSending t) (sent t) (t_random t) (t_active t) (t_wallets t)
    (currentBatch t) (overlays t) (attached t).
Definition with_overlay (n : nat) (a : bool) (t : Toolbar) : Toolbar :=
  mkToolbar (batch t) (amount t) (fee t) (streamSending t) (sent t) (t_random t) (t_active t) (t_wallets t)
    (currentBatch t) n a.

(** [initForm]: the fields, before the store is subscribed to. *)
Definition new_toolbar : Toolbar :=
  mkToolbar (mkControl (Some 0%Q) None) (mkControl (Some 0) None) (mkControl (Some 0) None)
    false (mkSent 0 0) false None [] None 0 false.

Definition batch_of (k : Kind) (s : State) : option Z :=
  match k with Payments => txSendingBatch s | Zkapps => Some (zkAppsSendingBatch s) end.
Definition fee_of (k : Kind) (s : State) : Z :=
  match k with Payments => sendingFee s | Zkapps => sendingFeeZkapps s end.
Definition change_batch (k : Kind) (n : Z) : Action :=
  match k with Payments => ChangeTransactionBatch n | Zkapps => ChangeZkAppsBatch n end.
Definition change_fee (k : Kind) (n : Z) : Action :=
  match k with Payments => ChangeFee n | Zkapps => ChangeFeeZkApps n end.
Definition send_action (k : Kind) : Action :=
  match k with Payments => SendTxs | Zkapps => SendZkApps end.

(** [listenToFeeChange] and [listenToAmountChange]: the field gets the absolute value, which
    its own subscriber sends to the store. *)
Definition receive_number (emits : bool) (n : Z) (change : Z -> Action) (c : Control Z)
    : Control Z * list Action :=
  if emits then
    let '(c', p) := set_number (Some (Z.abs n)) c in
    (c', match p with Some v => [change v] | None => [] end)
  else (c, []).

(** [listenToBatchChange]: the field gets the batch without an event. *)
Definition receive_batch (emits : bool) (b : option Z) (t : Toolbar) : Control Q * option Z :=
  if emits then (mkControl (inject_Z <$> b) (passed (batch t)), b) else (batch t, currentBatch t).

(** [listenToWalletsChanges], [listenToTransactionChanges] and
    [listenToStressingSendStreaming]: the copies of the store. *)
Definition copy_store (s : State) (t : Toolbar) : Toolbar :=
  mkToolbar (batch t) (amount t) (fee t) (sending_blocked s) (sentTransactions s) (randomWallet s) (activeWallet s)
    (wallets s) (currentBatch t) (overlays t) (attached t).

(** What the subscriptions of a toolbar get from the store: all values when they begin, and
    then those that changed.  The action of the number is queued. *)
Definition receive (k : Kind) (old : option State) (s : State) (t : Toolbar) : Toolbar * list Action :=
  let emits (f : State -> Z) := match old with Some o => negb (f o =? f s) | None => true end in
  let batch_emits := match old with Some o => negb (bool_decide (batch_of k o = batch_of k s)) | None => true end in
  let '(fee', q1) := receive_number (emits (fee_of k)) (fee_of k s) (change_fee k) (fee t) in
  let '(amount', q2) := match k with
                        | Payments => receive_number (emits sendingAmount) (sendingAmount s) ChangeAmount (amount t)
                        | Zkapps => (amount t, [])
                        end in
  let '(batch', current') := receive_batch batch_emits (batch_of k s) t in
  let t' := copy_store s t in
  (mkToolbar batch' amount' fee' (streamSending t') (sent t') (t_random t') (t_active t') (t_wallets t') current'
     (overlays t') (attached t'),
   q1 ++ q2).

(** ** The page *)

(** [rows] are those of the table; [nodes] tells whether a node was seen.  The toolbar of
    the zkapps is shown unless the node is a web node. *)
Record Page := mkPage {
  store : State; payments : Toolbar; zkapps : option Toolbar; rows : list Wallet; nodes : bool
}.

Definition toolbar (k : Kind) (p : Page) : option Toolbar :=
  match k with Payments => Some (payments p) | Zkapps => zkapps p end.

Definition with_toolbar (k : Kind) (t : Toolbar) (p : Page) : Page :=
  match k with
  | Payments => mkPage (store p) t (zkapps p) (rows p) (nodes p)
  | Zkapps => mkPage (store p) (payments p) (Some t) (rows p) (nodes p)
  end.

Definition new_rows (s : State) (old : list Wallet) : list Wallet :=
  match wallets s with [] => old | ws => ws end.

Section Page.
Context `{Browser} `{HasValue}.

(** The actions in the order in which they are reduced.  [None]: the queue never empties. *)
Fixpoint settle (fuel : nat) (queue : list Action) (p : Page) : option (result Page) :=
  match queue with
  | [] => Some (Ok p)
  | a :: queue =>
    match fuel with
    | O => None
    | S fuel =>
      match reducer (store p) a with
      | Throw e => Some (Throw e)
      | Ok s =>
        let '(t1, q1) := receive Payments (Some (store p)) s (payments p) in
        let '(t2, q2) := match zkapps p with
                         | Some t => let '(t', q) := receive Zkapps (Some (store p)) s t in (Some t', q)
                         | None => (None, [])
                         end in
        settle fuel (queue ++ q1 ++ q2) (mkPage s t1 t2 (new_rows s (rows p)) (nodes p))
      end
    end
  end.

Definition dispatch (a : Action) (p : Page) : option (result Page) := settle 8 [a] p.

Definition andThen (r : option (result Page)) (f : Page -> option (result Page)) : option (result Page) :=
  match r with Some (Ok p) => f p | r => r end.

(** The batch for the number in the field. *)
Definition payload_of (t : Toolbar) (q : Q) : Z :=
  let payload := Qceiling (if Qeq_bool q 0 then 1%Q else q) in
  let n := Z.of_nat (length (t_wallets t)) in
  if n <? payload then (if t_random t then n else n - 1) else payload.

(** The subscriber of the field of the batch, entered again by its own [patchValue]. *)
Fixpoint batch_set (fuel : nat) (k : Kind) (v : option Q) (p : Page) : option (result Page) :=
  match toolbar k p with
  | None => Some (Ok p)
  | Some t =>
    let p1 := with_toolbar k (with_batch (mkControl v (Some v)) t) p in
    if already_passed v (batch t) then Some (Ok p1)
    else
      match v with
      | None => Some (Ok p1)
      | Some q =>
        let payload := payload_of t q in
        match fuel with
        | O => None
        | S fuel =>
          andThen (batch_set fuel k (Some (inject_Z payload)) p1) (fun p2 =>
            match toolbar k p2 with
            | Some t2 => if bool_decide (currentBatch t2 = Some payload) then Some (Ok p2)
                         else dispatch (change_batch k payload) p2
            | None => Some (Ok p2)
            end)
        end
      end
  end.

Inductive Event :=
| TypeBatch (k : Kind) (v : option Q)
| TypeFee (k : Kind) (v : option Z)
| TypeAmount (v : option Z)
| ClickSend (k : Kind)
| ClickSenders (k : Kind) (random : bool)
| ClickWallet (k : Kind) (i : nat)
| ClickDropdown (k : Kind)
| ClickOutside (k : Kind)
| NodeIs (webNode : bool)
| Other (a : Action).

(** A toolbar that is opened. *)
Definition open_toolbar (k : Kind) (p : Page) : option (result Page) :=
  let '(t, q) := receive k None (store p) new_toolbar in
  settle 8 q (with_toolbar k t p).

(** A node that is selected: the toolbar of the zkapps comes or goes, and every node but
    the first one asks for the wallets. *)
Definition node_is (webNode : bool) (p : Page) : option (result Page) :=
  let shown :=
    if webNode then Some (Ok (mkPage (store p) (payments p) None (rows p) true))
    else match zkapps p with
         | Some _ => Some (Ok (mkPage (store p) (payments p) (zkapps p) (rows p) true))
         | None => open_toolbar Zkapps (mkPage (store p) (payments p) None (rows p) true)
         end in
  if nodes p then andThen shown (dispatch (GetWallets true)) else shown.

Definition on_toolbar (k : Kind) (p : Page) (f : Toolbar -> option (result Page)) : option (result Page) :=
  match toolbar k p with Some t => f t | None => Some (Ok p) end.

Definition send (k : Kind) (p : Page) : option (result Page) :=
  on_toolbar k p (fun t => if streamSending t then Some (Ok p) else dispatch (send_action k) p).

Definition detachOverlay (k : Kind) (p : Page) : option (result Page) :=
  on_toolbar k p (fun t => Some (Ok (with_toolbar k (with_overlay (overlays t) false t) p))).

Definition changeWallet (k : Kind) (w : Wallet) (p : Page) : option (result Page) :=
  andThen (dispatch (SelectWallet (Some w)) p) (detachOverlay k).

(** A new overlay is created each time; the last one is only detached. *)
Definition openDropdown (k : Kind) (p : Page) : option (result Page) :=
  on_toolbar k p (fun t =>
    Some (Ok (with_toolbar k (if attached t then with_overlay (overlays t) false t
                              else with_overlay (S (overlays t)) true t) p))).

(** The handlers of the templates and of the fields. *)
Definition step (e : Event) (p : Page) : option (result Page) :=
  match e with
  | TypeBatch k v => batch_set 4 k v p
  | TypeFee k v => on_toolbar k p (fun t =>
      let '(c, passes) := set_number v (fee t) in
      let p1 := with_toolbar k (with_fee c t) p in
      match passes with Some n => dispatch (change_fee k n) p1 | None => Some (Ok p1) end)
  | TypeAmount v => on_toolbar Payments p (fun t =>
      let '(c, passes) := set_number v (amount t) in
      let p1 := with_toolbar Payments (with_amount c t) p in
      match passes with Some n => dispatch (ChangeAmount n) p1 | None => Some (Ok p1) end)
  | ClickSend k => send k p
  | ClickSenders k random => on_toolbar k p (fun t =>
      if Bool.eqb random (t_random t) then Some (Ok p) else dispatch ToggleRandomWallet p)
  | ClickWallet k i => on_toolbar k p (fun t =>
      match t_wallets t !! i with Some w => changeWallet k w p | None => Some (Ok p) end)
  | ClickDropdown k => openDropdown k p
  | ClickOutside k => detachOverlay k p
  | NodeIs webNode => node_is webNode p
  | Other a => dispatch a p
  end.

Fixpoint run (evs : list Event) (p : Page) : option (result Page) :=
  match evs with
  | [] => Some (Ok p)
  | e :: evs => andThen (step e p) (run evs)
  end.

(** [ngOnInit] of the page, and then of the toolbars; [node] is the active node when there
    is one. *)
Definition open_page (s : State) (node : option bool) : option (result Page) :=
  match reducer s (GetWallets true) with
  | Throw e => Some (Throw e)
  | Ok s1 =>
    andThen (open_toolbar Payments (mkPage s1 new_toolbar None (new_rows s1 []) (is_some node)))
      (fun p => if default false node then Some (Ok p) else open_toolbar Zkapps p)
  end.
End Page.

(** ** What an open page keeps *)

(** The copies of the store in a toolbar. *)
Definition copies (k : Kind) (s : State) (t : Toolbar) : Prop :=
  streamSending t = sending_blocked s /\ sent t = sentTransactions s /\ t_random t = randomWallet s /\
  t_active t = activeWallet s /\ t_wallets t = wallets s /\ currentBatch t = batch_of k s.

(** The field of a number: it is empty or shows the number of the store, which is not
    negative. *)
Definition settled (c : Control Z) (n : Z) : Prop :=
  passed c = Some (value c) /\ (value c = None \/ value c = Some n) /\ 0 <= n.

(** The same when actions that change the number wait to be reduced. *)
Definition num_ok (c : Control Z) (n : Z) (waiting : list Z) : Prop :=
  match waiting with
  | [] => settled c n
  | [v] => passed c = Some (value c) /\ value c = Some v /\ 0 <= v
  | _ => False
  end.

Definition new_fee (k : Kind) (a : Action) : option Z :=
  match k, a with
  | Payments, ChangeFee n | Zkapps, ChangeFeeZkApps n => Some n
  | _, _ => None
  end.
Definition new_amount (a : Action) : option Z := match a with ChangeAmount n => Some n | _ => None end.

Definition is_number (a : Action) : Prop :=
  match a with ChangeFee _ | ChangeFeeZkApps _ | ChangeAmount _ => True | _ => False end.

Definition toolbar_ok (k : Kind) (s : State) (queue : list Action) (t : Toolbar) : Prop :=
  copies k s t /\ num_ok (fee t) (fee_of k s) (omap (new_fee k) queue) /\
  (k = Payments -> num_ok (amount t) (sendingAmount s) (omap new_amount queue)).

Definition page_ok (queue : list Action) (p : Page) : Prop :=
  Forall is_number queue /\
  toolbar_ok Payments (store p) queue (payments p) /\
  (forall t, zkapps p = Some t -> toolbar_ok Zkapps (store p) queue t).

(** ** One number *)

(** A change of the number from [n] to [n'] while the actions [waiting] are still to come and
    with the new actions [w]: it is none, or the field and the new action are right. *)
Definition fate (c : Control Z) (n n' : Z) (waiting w : list Z) : Prop :=
  (n' = n /\ w = [] /\ num_ok c n waiting) \/
  (waiting = [] /\ exists c', num_ok c' n' w /\
     forall change, receive_number (negb (n =? n')) n' change c = (c', change <$> w)).

Lemma fate_receive c n n' waiting w :
  fate c n n' waiting w -> exists c', num_ok c' n' (waiting ++ w) /\
    forall change, receive_number (negb (n =? n')) n' change c = (c', change <$> w).
Proof.
  intros [(-> & -> & Hn)|[-> Hw]]; [|exact Hw]. exists c. rewrite app_nil_r, Z.eqb_refl. by split.
Qed.

Lemma fate_known c n n' : settled c n -> 0 <= n' -> exists w, fate c n n' [] w.
Proof.
  intros Hs Hn'. destruct (Z.eq_dec n' n) as [->|Hne]; [exists []; by left|].
  exists (if bool_decide (passed c = Some (Some n')) then [] else [n']). right. split; [done|].
  exists (mkControl (Some n') (Some (Some n'))). unfold receive_number, set_number.
  replace (n =? n') with false by lia. rewrite Z.abs_eq by lia. cbn [negb].
  destruct (bool_decide (passed c = Some (Some n'))); (split; [by repeat split; auto|done]).
Qed.

Lemma fate_typed n n' : 0 <= n -> exists w, fate (mkControl (Some n') (Some (Some n'))) n n' [] w.
Proof.
  intros Hn. exists (if bool_decide (0 <= n') then [] else [Z.abs n']). right. split; [done|].
  unfold receive_number, set_number. cbn [passed].
  destruct (Z.eqb_spec n n') as [->|Hne]; cbn [negb].
  - rewrite bool_decide_true by done. eexists. split; [|done]. by repeat split; auto.
  - case_bool_decide as Hp.
    + rewrite Z.abs_eq, bool_decide_true by done. eexists. split; [|done]. by repeat split; auto.
    + rewrite bool_decide_false by (intros [= E]; lia).
      eexists. split; [|done]. repeat split; [cbn; lia].
Qed.

Lemma fate_waiting c n v rest : num_ok c n (v :: rest) -> fate c n v rest [].
Proof.
  destruct rest as [|x rest]; [|done]. intros (Hp & Hv & Hnn). right. split; [done|].
  unfold receive_number, set_number. rewrite Hp, Hv, Z.abs_eq, bool_decide_true by done.
  destruct (Z.eqb_spec n v) as [->|_]; cbn [negb].
  - exists c. split; [|done]. split; [done|]. by auto.
  - eexists. split; [|done]. by repeat split; auto.
Qed.

(** ** One action *)

Lemma omap_all {A B} (f : B -> option A) (g : A -> B) (l : list A) : (forall x, f (g x) = Some x) -> omap f (g <$> l) = l.
Proof. intros E. induction l as [|x l IH]; [done|]. cbn. rewrite E. by f_equal. Qed.

Lemma omap_none {A B C} (f : B -> option C) (g : A -> B) (l : list A) : (forall x, f (g x) = None) -> omap f (g <$> l) = [].
Proof. intros E. induction l as [|x l IH]; [done|]. cbn. by rewrite E. Qed.

(** The actions a toolbar adds for its numbers. *)
Definition queued (k : Kind) (wf wa : list Z) : list Action :=
  (change_fee k <$> wf) ++ match k with Payments => ChangeAmount <$> wa | Zkapps => [] end.

Lemma queued_number k wf wa : Forall is_number (queued k wf wa).
Proof.
  unfold queued. apply Forall_app. split; [apply Forall_fmap, Forall_true; by destruct k|].
  destruct k; [apply Forall_fmap, Forall_true; done|done].
Qed.

Lemma queued_fee k k' wf wa : omap (new_fee k) (queued k' wf wa) = match k, k' with
  | Payments, Payments | Zkapps, Zkapps => wf | _, _ => [] end.
Proof.
  unfold queued. rewrite omap_app.
  destruct k, k'; rewrite ?omap_all, ?(omap_none (new_fee _) (change_fee _)), ?(omap_none (new_fee _) ChangeAmount),
    ?app_nil_r by done; done.
Qed.

Lemma queued_amount k wf wa : omap new_amount (queued k wf wa) = match k with Payments => wa | Zkapps => [] end.
Proof.
  unfold queued. rewrite omap_app, (omap_none new_amount (change_fee k)) by by destruct k.
  destruct k; [by apply omap_all|done].
Qed.

Lemma receive_ok k s s' t fees amounts wf wa :
  currentBatch t = batch_of k s -> fate (fee t) (fee_of k s) (fee_of k s') fees wf ->
  (k = Payments -> fate (amount t) (sendingAmount s) (sendingAmount s') amounts wa) ->
  exists t', receive k (Some s) s' t = (t', queued k wf wa) /\ copies k s' t' /\
    num_ok (fee t') (fee_of k s') (fees ++ wf) /\
    (k = Payments -> num_ok (amount t') (sendingAmount s') (amounts ++ wa)).
Proof.
  intros Hb Hf Ha. destruct (fate_receive _ _ _ _ _ Hf) as (cf & Hcf & Ef).
  assert (Hcopies : forall c1 c2, copies k s' (let '(b, cur) :=
      receive_batch (negb (bool_decide (batch_of k s = batch_of k s'))) (batch_of k s') t in
      mkToolbar b c1 c2 (sending_blocked s') (sentTransactions s') (randomWallet s') (activeWallet s') (wallets s')
        cur (overlays t) (attached t))).
  { intros c1 c2. unfold receive_batch. destruct (bool_decide_reflect (batch_of k s = batch_of k s')); cbn;
      repeat split; cbn; congruence. }
  unfold receive. rewrite Ef. destruct k.
  - destruct (fate_receive _ _ _ _ _ (Ha eq_refl)) as (ca & Hca & Ea). rewrite Ea.
    specialize (Hcopies ca cf). destruct (receive_batch _ _ t). eexists. split; [reflexivity|].
    split; [exact Hcopies|]. by split.
  - specialize (Hcopies (amount t) cf). destruct (receive_batch _ _ t). eexists. split; [reflexivity|].
    split; [exact Hcopies|]. by split.
Qed.

Section Actions.
Context `{Browser} `{HasValue}.

(** One action is reduced and passed on to the toolbars. *)
Definition reduced (s : State) (p : Page) : Page * list Action :=
  let '(t1, q1) := receive Payments (Some (store p)) s (payments p) in
  let '(t2, q2) := match zkapps p with
                   | Some t => let '(t', q) := receive Zkapps (Some (store p)) s t in (Some t', q)
                   | None => (None, [])
                   end in
  (mkPage s t1 t2 (new_rows s (rows p)) (nodes p), q1 ++ q2).

Lemma settle_cons fuel a queue p s :
  reducer (store p) a = Ok s ->
  settle (S fuel) (a :: queue) p = settle fuel (queue ++ (reduced s p).2) (reduced s p).1.
Proof.
  intros E. cbn [settle]. rewrite E. unfold reduced.
  destruct (receive Payments _ s (payments p)) as [t1 q1]. destruct (zkapps p) as [t|]; [|done].
  by destruct (receive Zkapps _ s t).
Qed.

Definition page_copies (p : Page) : Prop :=
  currentBatch (payments p) = batch_of Payments (store p) /\
  forall t, zkapps p = Some t -> currentBatch t = batch_of Zkapps (store p).

Lemma reduced_ok s p rest wf wa wz :
  page_copies p -> Forall is_number rest ->
  fate (fee (payments p)) (sendingFee (store p)) (sendingFee s) (omap (new_fee Payments) rest) wf ->
  fate (amount (payments p)) (sendingAmount (store p)) (sendingAmount s) (omap new_amount rest) wa ->
  (forall t, zkapps p = Some t ->
     fate (fee t) (sendingFeeZkapps (store p)) (sendingFeeZkapps s) (omap (new_fee Zkapps) rest) wz) ->
  page_ok (rest ++ (reduced s p).2) (reduced s p).1 /\ store (reduced s p).1 = s /\
  (reduced s p).2 = queued Payments wf wa ++ (if is_some (zkapps p) then queued Zkapps wz [] else []).
Proof.
  intros [Hb1 Hb2] Hrest Hf Ha Hz. unfold reduced.
  destruct (receive_ok Payments (store p) s (payments p) _ _ wf wa Hb1 Hf (fun _ => Ha)) as (t1 & -> & Hc1 & Hf1 & Ha1).
  specialize (Ha1 eq_refl). destruct (zkapps p) as [t|].
  - destruct (receive_ok Zkapps (store p) s t _ [] wz [] (Hb2 t eq_refl) (Hz t eq_refl)) as (t2 & -> & Hc2 & Hf2 & _);
      [discriminate|]. cbn [fst snd is_some]. split; [|done].
    split; [rewrite !Forall_app; auto using queued_number|]. cbn [store payments zkapps].
    split; [|intros ? [= <-]]; (split; [done|]); rewrite !omap_app, !queued_fee, ?app_nil_r; (split; [done|]); [|discriminate].
    intros _. by rewrite ?omap_app, !queued_amount, ?app_nil_r.
  - cbn [fst snd is_some]. rewrite app_nil_r. split; [|done]. split; [rewrite Forall_app; auto using queued_number|].
    split; [|done]. split; [done|]. cbn [store payments]. rewrite !omap_app, queued_fee. split; [done|].
    intros _. by rewrite ?omap_app, queued_amount.
Qed.
End Actions.

(** ** The queue empties *)

(** What the actions of the numbers leave as it is. *)
Definition kept (p p' : Page) : Prop :=
  wallets (store p') = wallets (store p) /\ txSendingBatch (store p') = txSendingBatch (store p) /\
  batch (payments p') = batch (payments p) /\ sending_blocked (store p') = sending_blocked (store p) /\
  randomWallet (store p') = randomWallet (store p) /\ activeWallet (store p') = activeWallet (store p) /\
  txsToSend (store p') = txsToSend (store p).

Lemma kept_refl p : kept p p.
Proof. by repeat split. Qed.

Lemma kept_trans p1 p2 p3 : kept p1 p2 -> kept p2 p3 -> kept p1 p3.
Proof.
  intros (? & ? & ? & ? & ? & ? & ?) (? & ? & ? & ? & ? & ? & ?). repeat split; etransitivity; eassumption.
Qed.

Section Queue.
Context `{Browser} `{HasValue}.

Lemma page_ok_copies queue p : page_ok queue p -> page_copies p.
Proof. intros (_ & (Hc & _) & Hz). split; [apply Hc|]. intros t Ht. apply (Hz t Ht). Qed.

Lemma reduced_store s p : store (reduced s p).1 = s.
Proof.
  unfold reduced. destruct (receive Payments _ s (payments p)).
  by destruct (match zkapps p with Some _ => _ | None => _ end).
Qed.

Lemma reduced_batch s p :
  txSendingBatch s = txSendingBatch (store p) -> batch (payments (reduced s p).1) = batch (payments p).
Proof.
  intros Es. unfold reduced, receive. cbn [batch_of fee_of].
  destruct (receive_number _ (sendingFee s) _ _), (receive_number _ (sendingAmount s) _ _).
  destruct (match zkapps p with Some _ => _ | None => _ end). cbn. by rewrite Es, bool_decide_true.
Qed.

Lemma fate_same c n waiting : num_ok c n waiting -> fate c n n waiting [].
Proof. intros Hn. left. done. Qed.

(** An action of a number that waited adds no other. *)
Lemma number_reduced a queue p :
  page_ok (a :: queue) p ->
  exists s, reducer (store p) a = Ok s /\ page_ok queue (reduced s p).1 /\ (reduced s p).2 = [] /\
    kept p (reduced s p).1.
Proof.
  intros Hok. pose proof (page_ok_copies _ _ Hok) as Hpc. destruct Hok as (Hq & (Hc1 & Hf1 & Ha1) & Hz).
  specialize (Ha1 eq_refl). apply Forall_cons in Hq as [Ha Hq].
  assert (Hgo : forall s,
    fate (fee (payments p)) (sendingFee (store p)) (sendingFee s) (omap (new_fee Payments) queue) [] ->
    fate (amount (payments p)) (sendingAmount (store p)) (sendingAmount s) (omap new_amount queue) [] ->
    (forall t, zkapps p = Some t ->
       fate (fee t) (sendingFeeZkapps (store p)) (sendingFeeZkapps s) (omap (new_fee Zkapps) queue) []) ->
    kept p (reduced s p).1 ->
    page_ok queue (reduced s p).1 /\ (reduced s p).2 = [] /\ kept p (reduced s p).1).
  { intros s F1 F2 F3 Hk. destruct (reduced_ok s p queue [] [] [] Hpc Hq F1 F2 F3) as (Hok & _ & E).
    assert (E' : (reduced s p).2 = []) by (rewrite E; by destruct (is_some (zkapps p))).
    rewrite E', app_nil_r in Hok. done. }
  assert (Hz' : forall t, zkapps p = Some t ->
    num_ok (fee t) (sendingFeeZkapps (store p)) (omap (new_fee Zkapps) (a :: queue))) by (intros t Ht; apply (Hz t Ht)).
  assert (Hkept : forall fee amount zfee,
    kept p (reduced (with_settings (store p) (txSendingBatch (store p)) (randomWallet (store p))
      (activeWallet (store p)) fee amount (zkAppsSendingBatch (store p)) zfee) p).1).
  { intros. unfold kept. rewrite reduced_store, reduced_batch by done. done. }
  destruct a; try done; eexists; (split; [reflexivity|]);
    (apply Hgo; [..|apply Hkept]); cbn in *; auto using fate_same, fate_waiting.
  intros t Ht. apply fate_waiting, (Hz' t Ht).
Qed.

Lemma settle_waiting fuel queue p :
  page_ok queue p -> (length queue <= fuel)%nat ->
  exists p', settle fuel queue p = Some (Ok p') /\ page_ok [] p' /\ kept p p'.
Proof.
  revert queue p. induction fuel as [|fuel IH]; intros [|a queue] p Hok Hl; cbn in Hl; try lia.
  - exists p. auto using kept_refl.
  - exists p. auto using kept_refl.
  - destruct (number_reduced a queue p Hok) as (s & Er & Hok' & E2 & Hk).
    rewrite (settle_cons fuel a queue p s Er), E2, app_nil_r.
    destruct (IH queue _ Hok') as (p' & Ep & Hp' & Hk'); [lia|].
    exists p'. eauto using kept_trans.
Qed.

(** An action outside the numbers keeps them, or sets them to those of the start. *)
Lemma reducer_numbers s a s' :
  ~ is_number a -> reducer s a = Ok s' ->
  (sendingFee s' = sendingFee s \/ 0 <= sendingFee s') /\
  (sendingAmount s' = sendingAmount s \/ 0 <= sendingAmount s') /\
  (sendingFeeZkapps s' = sendingFeeZkapps s \/ 0 <= sendingFeeZkapps s').
Proof.
  intros Ha E. destruct a; cbn in *; try tauto; try (injection E as <-; cbn; auto; fail).
  - injection E as <-. cbn. repeat split; right; lia.
  - destruct (next_payments s); [|done]. injection E as <-. cbn. auto.
  - destruct (next_zkapps s); [|done]. injection E as <-. cbn. auto.
  - destruct mempoolTxs; [|done]. injection E as <-. cbn. auto.
Qed.

Lemma fate_kept_or_known c n n' : settled c n -> n' = n \/ 0 <= n' -> exists w, fate c n n' [] w.
Proof. intros Hs [->|Hn]; [exists []; by left|by apply fate_known]. Qed.

Lemma fate_short c n n' w : fate c n n' [] w -> (length w <= 1)%nat.
Proof.
  intros [(_ & -> & _)|(_ & c' & Hn & _)]; [cbn; lia|]. destruct w as [|x [|y w]]; [cbn; lia|cbn; lia|done].
Qed.

(** The first action is reduced, and then those of the numbers it caused. *)
Lemma dispatch_fates a p s wf wa wz :
  page_copies p -> reducer (store p) a = Ok s ->
  fate (fee (payments p)) (sendingFee (store p)) (sendingFee s) [] wf ->
  fate (amount (payments p)) (sendingAmount (store p)) (sendingAmount s) [] wa ->
  (forall t, zkapps p = Some t -> fate (fee t) (sendingFeeZkapps (store p)) (sendingFeeZkapps s) [] wz) ->
  exists p', dispatch a p = Some (Ok p') /\ page_ok [] p' /\ kept (reduced s p).1 p'.
Proof.
  intros Hpc E F1 F2 F3. unfold dispatch. rewrite (settle_cons 7 a [] p s E).
  destruct (reduced_ok s p [] wf wa wz Hpc (Forall_nil_2 _) F1 F2 F3) as (Hok & _ & Eq).
  apply settle_waiting; [exact Hok|]. cbn [app]. rewrite Eq.
  apply fate_short in F1, F2. destruct (zkapps p) as [t|]; cbn [is_some].
  - specialize (F3 t eq_refl). apply fate_short in F3. unfold queued.
    rewrite !length_app, !length_fmap. cbn. lia.
  - unfold queued. rewrite !length_app, !length_fmap. cbn. lia.
Qed.

Lemma settled_fields p :
  page_ok [] p -> settled (fee (payments p)) (sendingFee (store p)) /\
    settled (amount (payments p)) (sendingAmount (store p)) /\
    forall t, zkapps p = Some t -> settled (fee t) (sendingFeeZkapps (store p)).
Proof.
  intros (_ & (_ & Hf & Ha) & Hz). split; [done|]. split; [by apply Ha|]. intros t Ht. apply (Hz t Ht).
Qed.

(** An action that is none of the numbers: the exception of the reducer, or a page that is
    right again. *)
Lemma dispatch_ok a p :
  page_ok [] p -> ~ is_number a ->
  match reducer (store p) a with
  | Throw e => dispatch a p = Some (Throw e)
  | Ok s => exists p', dispatch a p = Some (Ok p') /\ page_ok [] p' /\ kept (reduced s p).1 p'
  end.
Proof.
  intros Hok Ha. destruct (reducer (store p) a) as [s|e] eqn:E; [|unfold dispatch; cbn; by rewrite E].
  destruct (reducer_numbers _ _ _ Ha E) as (N1 & N2 & N3).
  destruct (settled_fields p Hok) as (S1 & S2 & S3).
  destruct (fate_kept_or_known _ _ _ S1 N1) as [wf F1]. destruct (fate_kept_or_known _ _ _ S2 N2) as [wa F2].
  destruct (zkapps p) as [t|] eqn:Ez.
  - destruct (fate_kept_or_known _ _ _ (S3 t eq_refl) N3) as [wz F3].
    apply (dispatch_fates a p s wf wa wz); [by eapply page_ok_copies|done..|]. intros ? [= <-]%(eq_trans (eq_sym Ez)). done.
  - apply (dispatch_fates a p s wf wa []); [by eapply page_ok_copies|done..|]. intros t Ht. by rewrite Ez in Ht.
Qed.
End Queue.

(** ** Every event *)

(** The actions of the numbers come from the toolbars only. *)
Definition event_ok (e : Event) : Prop := match e with Other a => ~ is_number a | _ => True end.

(** Only the reducers of the batches and of the answers raise. *)
Definition may_raise (e : Event) : Prop := match e with ClickSend _ | Other _ => True | _ => False end.

(** A page that is right again, or the exception of a reducer when [raises] allows one. *)
Definition outcome_ok (raises : Prop) (r : option (result Page)) : Prop :=
  match r with
  | Some (Ok p) => page_ok [] p
  | Some (Throw _) => raises
  | None => False
  end.

Lemma toolbar_of k q p t : page_ok q p -> toolbar k p = Some t -> toolbar_ok k (store p) q t.
Proof. intros (_ & Hp & Hz) Ht. destruct k; [by injection Ht as <-|by apply Hz]. Qed.

Lemma with_toolbar_ok k q p t : page_ok q p -> toolbar_ok k (store p) q t -> page_ok q (with_toolbar k t p).
Proof. intros (Hq & Hp & Hz) Ht. destruct k; (split; [done|]); (split; [done|]); [done|]. by intros ? [= <-]. Qed.

Lemma toolbar_with k t p : toolbar k (with_toolbar k t p) = Some t.
Proof. by destruct k. Qed.

Lemma store_with k t p : store (with_toolbar k t p) = store p.
Proof. by destruct k. Qed.

Section Events.
Context `{Browser} `{HasValue}.

Lemma andThen_ok P r f :
  outcome_ok P r -> (forall p, page_ok [] p -> outcome_ok P (f p)) -> outcome_ok P (andThen r f).
Proof. intros Hr Hf. destruct r as [[p|e]|]; cbn in *; auto. Qed.

Lemma on_toolbar_ok P k p f :
  page_ok [] p -> (forall t, toolbar k p = Some t -> toolbar_ok k (store p) [] t -> outcome_ok P (f t)) ->
  outcome_ok P (on_toolbar k p f).
Proof.
  intros Hp Hf. unfold on_toolbar. destruct (toolbar k p) as [t|] eqn:E; [|done].
  apply Hf; [done|]. by eapply toolbar_of.
Qed.

Lemma dispatch_outcome (P : Prop) a p :
  page_ok [] p -> ~ is_number a -> (forall e, reducer (store p) a = Throw e -> P) -> outcome_ok P (dispatch a p).
Proof.
  intros Hp Ha Hr. pose proof (dispatch_ok a p Hp Ha) as Hd.
  destruct (reducer (store p) a) as [s|e]; [destruct Hd as (p' & -> & Hp' & _); exact Hp'|].
  rewrite Hd. by eapply Hr.
Qed.

(** A number that does not pass to the store leaves the field right. *)
Lemma unpassed v c n : settled c n -> (set_number v c).2 = None -> settled (set_number v c).1 n.
Proof.
  intros (Hp & Hv & Hn) E. cbn in *. split; [done|]. split; [|done]. cbn.
  case_bool_decide as Hb; [|by left]. rewrite Hp in Hb. injection Hb as <-. exact Hv.
Qed.

Lemma typed_fee k p v : page_ok [] p -> outcome_ok False (step (TypeFee k v) p).
Proof.
  intros Hp. cbn [step]. apply on_toolbar_ok; [done|]. intros t Ht (Hc & Hf & Ha).
  destruct (set_number v (fee t)) as [c passes] eqn:E. destruct passes as [n|].
  - assert (v = Some n /\ c = mkControl (Some n) (Some (Some n))) as [-> ->].
    { unfold set_number in E. case_bool_decide; [done|]. injection E as <- ->. done. }
    set (p1 := with_toolbar k (with_fee (mkControl (Some n) (Some (Some n))) t) p).
    destruct (settled_fields p Hp) as (S1 & S2 & S3). pose proof (page_ok_copies _ _ Hp) as [C1 C2].
    assert (Hs : exists wf wa wz s, page_copies p1 /\ reducer (store p1) (change_fee k n) = Ok s /\
      fate (fee (payments p1)) (sendingFee (store p1)) (sendingFee s) [] wf /\
      fate (amount (payments p1)) (sendingAmount (store p1)) (sendingAmount s) [] wa /\
      (forall t, zkapps p1 = Some t -> fate (fee t) (sendingFeeZkapps (store p1)) (sendingFeeZkapps s) [] wz)).
    { destruct (fate_typed (fee_of k (store p)) n) as [w Hw]; [apply Hf|]. destruct k.
      - injection Ht as <-. exists w, [], []. eexists. split; [done|]. split; [reflexivity|].
        split; [exact Hw|]. split; [by apply fate_same|]. intros t' Ht'. by apply fate_same, S3.
      - exists [], [], w. eexists. split; [split; [done|]|].
        { cbn. intros ? [= <-]. cbn. by apply C2. }
        split; [reflexivity|]. split; [by apply fate_same|]. split; [by apply fate_same|]. by intros ? [= <-]. }
    destruct Hs as (wf & wa & wz & s & H1 & H2 & H3 & H4 & H5).
    destruct (dispatch_fates _ p1 s wf wa wz H1 H2 H3 H4 H5) as (p' & -> & Hp' & _). exact Hp'.
  - apply with_toolbar_ok; [done|]. split; [done|]. split; [|done].
    cbn [fee with_fee omap list_omap]. pose proof (unpassed v _ _ Hf) as Hu. rewrite E in Hu. by apply Hu.
Qed.

Lemma typed_amount p v : page_ok [] p -> outcome_ok False (step (TypeAmount v) p).
Proof.
  intros Hp. cbn [step]. apply on_toolbar_ok; [done|]. intros t [= <-] (Hc & Hf & Ha). specialize (Ha eq_refl).
  destruct (set_number v (amount (payments p))) as [c passes] eqn:E. destruct passes as [n|].
  - assert (v = Some n /\ c = mkControl (Some n) (Some (Some n))) as [-> ->].
    { unfold set_number in E. case_bool_decide; [done|]. injection E as <- ->. done. }
    destruct (fate_typed (sendingAmount (store p)) n) as [w Hw]; [apply Ha|].
    destruct (settled_fields p Hp) as (S1 & S2 & S3). pose proof (page_ok_copies _ _ Hp) as [C1 C2].
    destruct (reducer (store p) (ChangeAmount n)) as [s|] eqn:Es; [|done].
    destruct (dispatch_fates (ChangeAmount n) (with_toolbar Payments
      (with_amount (mkControl (Some n) (Some (Some n))) (payments p)) p) s [] w []) as (p' & -> & Hp' & _);
      [done|done|..|exact Hp']; injection Es as <-; [by apply fate_same|exact Hw|].
    intros t Ht. by apply fate_same, S3.
  - apply with_toolbar_ok; [done|]. split; [done|]. split; [done|]. intros _.
    pose proof (unpassed v _ _ Ha) as Hu. rewrite E in Hu. by apply Hu.
Qed.

(** ** The field of the batch *)

(** [payload_of] reaches a fixed point within [d] steps. *)
Fixpoint fixed (d : nat) (t : Toolbar) (q : Q) : Prop :=
  match d with
  | O => False
  | S d => (inject_Z (payload_of t q) == q)%Q \/ fixed d t (inject_Z (payload_of t q))
  end.

Lemma payload_Z t z :
  payload_of t (inject_Z z) =
  let n := Z.of_nat (length (t_wallets t)) in
  let v := if z =? 0 then 1 else z in
  if n <? v then (if t_random t then n else n - 1) else v.
Proof.
  unfold payload_of. replace (Qeq_bool (inject_Z z) 0) with (z =? 0).
  - destruct (z =? 0); [change 1%Q with (inject_Z 1)|]; by rewrite Qceiling_Z.
  - unfold Qeq_bool. cbn. by rewrite Z.mul_1_r.
Qed.

Lemma payload_cases t z :
  let n := Z.of_nat (length (t_wallets t)) in
  let y := payload_of t (inject_Z z) in
  (z <> 0 /\ z <= n /\ y = z) \/ (z = 0 /\ 1 <= n /\ y = 1) \/
  ((z <> 0 \/ n < 1) /\ (z = 0 \/ n < z) /\ ((t_random t = true /\ y = n) \/ (t_random t = false /\ y = n - 1))).
Proof.
  cbn zeta. rewrite payload_Z. cbn zeta.
  destruct (Z.eqb_spec z 0); destruct (Z.ltb_spec (Z.of_nat (length (t_wallets t))) 1);
    try destruct (Z.ltb_spec (Z.of_nat (length (t_wallets t))) z); destruct (t_random t); lia.
Qed.

Lemma payload_fixed t q : fixed 3 t q.
Proof.
  right. assert (Hx : let n := Z.of_nat (length (t_wallets t)) in
    payload_of t q <= n /\ (t_random t = false -> payload_of t q < n \/ payload_of t q = n)).
  { unfold payload_of. cbn zeta. destruct (Z.ltb_spec (Z.of_nat (length (t_wallets t)))
      (Qceiling (if Qeq_bool q 0 then 1%Q else q))); destruct (t_random t); lia. }
  cbn zeta in Hx. revert Hx. generalize (payload_of t q). intros x Hx. cbn [fixed].
  rewrite !inject_Z_injective. pose proof (payload_cases t x) as Cx. cbn zeta in Cx.
  set (y := payload_of t (inject_Z x)) in *. pose proof (payload_cases t y) as Cy. cbn zeta in Cy.
  set (z := payload_of t (inject_Z y)) in *. destruct (t_random t); lia.
Qed.
End Events.

Lemma fixed_more d t q : fixed d t q -> fixed (S d) t q.
Proof. revert q. induction d as [|d IH]; intros q Hd; [done|]. destruct Hd as [E|Hd]; [by left|right; by apply IH]. Qed.

Lemma fixed_with d t q c : fixed d t q -> fixed d (with_batch c t) q.
Proof.
  revert q. induction d as [|d IH]; intros q Hd; [done|].
  destruct Hd as [E|Hd]; [by left|right; by apply (IH (inject_Z (payload_of t q)))].
Qed.

Lemma passed_self q q' v : (q' == q)%Q -> already_passed (Some q') (mkControl v (Some (Some q))) = true.
Proof. intros E. cbn. apply Qeq_bool_iff. by symmetry. Qed.

Section Runs.
Context `{Browser} `{HasValue}.

(** What the subscriber of the field does after its [patchValue]. *)
Definition finish (k : Kind) (payload : Z) (p : Page) : option (result Page) :=
  match toolbar k p with
  | Some t => if bool_decide (currentBatch t = Some payload) then Some (Ok p)
              else dispatch (change_batch k payload) p
  | None => Some (Ok p)
  end.

Lemma batch_set_S d k q p t :
  toolbar k p = Some t -> already_passed (Some q) (batch t) = false ->
  batch_set (S d) k (Some q) p =
  andThen (batch_set d k (Some (inject_Z (payload_of t q)))
             (with_toolbar k (with_batch (mkControl (Some q) (Some (Some q))) t) p)) (finish k (payload_of t q)).
Proof. intros Ht Hp. cbn [batch_set]. by rewrite Ht, Hp. Qed.

Lemma batch_set_passed d k q p t :
  toolbar k p = Some t -> already_passed (Some q) (batch t) = true ->
  batch_set d k (Some q) p = Some (Ok (with_toolbar k (with_batch (mkControl (Some q) (Some (Some q))) t) p)).
Proof. intros Ht Hp. destruct d; cbn [batch_set]; by rewrite Ht, Hp. Qed.

Lemma with_batch_ok k c t p :
  page_ok [] p -> toolbar k p = Some t -> page_ok [] (with_toolbar k (with_batch c t) p).
Proof. intros Hp Ht. apply with_toolbar_ok; [done|]. exact (toolbar_of k [] p t Hp Ht). Qed.

Lemma finish_ok k n p : page_ok [] p -> outcome_ok False (finish k n p).
Proof.
  intros Hp. unfold finish. destruct (toolbar k p); [|done]. case_bool_decide; [done|].
  apply dispatch_outcome; [done|by destruct k; intros []|by destruct k].
Qed.

Lemma batch_set_ok d k q p t :
  page_ok [] p -> toolbar k p = Some t -> fixed d t q -> outcome_ok False (batch_set d k (Some q) p).
Proof.
  revert q p t. induction d as [|d IH]; intros q p t Hp Ht Hd; [done|].
  destruct (already_passed (Some q) (batch t)) eqn:E.
  - rewrite (batch_set_passed _ _ _ _ _ Ht E). by apply with_batch_ok.
  - rewrite (batch_set_S _ _ _ _ _ Ht E). apply andThen_ok; [|intros; by apply finish_ok].
    destruct Hd as [Heq|Hd].
    + erewrite batch_set_passed; [|apply toolbar_with|by apply passed_self].
      apply with_batch_ok; [by apply with_batch_ok|apply toolbar_with].
    + eapply IH; [by apply with_batch_ok|apply toolbar_with|by apply fixed_with].
Qed.

(** The queue of a toolbar that opens. *)
Lemma opened_toolbar k s :
  exists t, receive k None s new_toolbar =
      (t, queued k [Z.abs (fee_of k s)] [Z.abs (sendingAmount s)]) /\
    copies k s t /\ num_ok (fee t) (fee_of k s) [Z.abs (fee_of k s)] /\
    (k = Payments -> num_ok (amount t) (sendingAmount s) [Z.abs (sendingAmount s)]).
Proof.
  destruct k; (eexists; split; [reflexivity|]); repeat split; try discriminate; cbn; lia.
Qed.

Lemma open_payments p : zkapps p = None -> outcome_ok False (open_toolbar Payments p).
Proof.
  intros Hz. unfold open_toolbar. destruct (opened_toolbar Payments (store p)) as (t & -> & Hc & Hf & Ha).
  edestruct (settle_waiting 8) as (p' & -> & Hp' & _); [|shelve|exact Hp'].
  split; [apply queued_number|]. split; [|intros t' Ht'; cbn in Ht'; congruence].
  split; [done|]. rewrite queued_fee, queued_amount. by split.
  Unshelve. cbn. lia.
Qed.

Lemma open_zkapps p : page_ok [] p -> outcome_ok False (open_toolbar Zkapps p).
Proof.
  intros (_ & (Hc1 & Hf1 & Ha1) & _). unfold open_toolbar.
  destruct (opened_toolbar Zkapps (store p)) as (t & -> & Hc & Hf & _).
  edestruct (settle_waiting 8) as (p' & -> & Hp' & _); [|shelve|exact Hp'].
  split; [apply queued_number|]. split; [|intros ? [= <-]]; (split; [done|]); rewrite queued_fee, queued_amount; by split.
  Unshelve. cbn. lia.
Qed.

Lemma node_ok webNode p : page_ok [] p -> outcome_ok False (node_is webNode p).
Proof.
  intros Hp. unfold node_is.
  assert (Hbase : forall z, z = None \/ z = zkapps p ->
    page_ok [] (mkPage (store p) (payments p) z (rows p) true)).
  { intros z Hz. destruct Hp as (H1 & H2 & H3). split; [done|]. split; [done|].
    destruct Hz as [->| ->]; [by intros|done]. }
  set (shown := if webNode then _ else _).
  assert (Hs : outcome_ok False shown).
  { unfold shown. destruct webNode; [apply Hbase; auto|].
    destruct (zkapps p) eqn:Ez; [apply Hbase; rewrite <- Ez; auto|apply open_zkapps, Hbase; auto]. }
  destruct (nodes p); [|done]. apply andThen_ok; [done|]. intros p1 Hp1. by apply dispatch_outcome; [|intros []|].
Qed.

Lemma overlay_ok k n a p t :
  page_ok [] p -> toolbar k p = Some t -> page_ok [] (with_toolbar k (with_overlay n a t) p).
Proof. intros Hp Ht. apply with_toolbar_ok; [done|]. exact (toolbar_of k [] p t Hp Ht). Qed.

Lemma step_ok e p : page_ok [] p -> event_ok e -> outcome_ok (may_raise e) (step e p).
Proof.
  intros Hp He. destruct e as [k v|k v|v|k|k r|k i|k|k|w|a]; [|by apply typed_fee|by apply typed_amount|..]; cbn [step].
  - destruct (toolbar k p) as [t|] eqn:Ht; [|by cbn; rewrite Ht]. destruct v as [q|].
    + eapply batch_set_ok; [done|done|]. apply fixed_more, payload_fixed.
    + cbn. rewrite Ht. destruct (already_passed None (batch t)); by apply with_batch_ok.
  - apply on_toolbar_ok; [done|]. intros t Ht _. destruct (streamSending t); [done|].
    apply dispatch_outcome; [done|by destruct k; intros []|done].
  - apply on_toolbar_ok; [done|]. intros t Ht _. destruct (Bool.eqb r (t_random t)); [done|].
    by apply dispatch_outcome; [|intros []|].
  - apply on_toolbar_ok; [done|]. intros t Ht _. destruct (t_wallets t !! i); [|done].
    apply andThen_ok; [by apply dispatch_outcome; [|intros []|]|]. intros p1 Hp1.
    apply on_toolbar_ok; [done|]. intros t1 Ht1 _. by apply overlay_ok.
  - apply on_toolbar_ok; [done|]. intros t Ht _. destruct (attached t); by apply overlay_ok.
  - apply on_toolbar_ok; [done|]. intros t Ht _. by apply overlay_ok.
  - by apply node_ok.
  - by apply dispatch_outcome.
Qed.

Lemma outcome_weaken (P Q : Prop) r : (P -> Q) -> outcome_ok P r -> outcome_ok Q r.
Proof. intros HPQ. destruct r as [[p|e]|]; cbn; auto. Qed.

Lemma run_ok evs p : page_ok [] p -> Forall event_ok evs -> outcome_ok (Exists may_raise evs) (run evs p).
Proof.
  intros Hp Hevs. revert p Hp. induction Hevs as [|e evs He _ IH]; intros p Hp; [done|].
  cbn [run]. apply andThen_ok; [by eapply outcome_weaken, step_ok; [constructor 1|..]|].
  intros p1 Hp1. by eapply outcome_weaken, IH; [constructor 2|].
Qed.

Lemma open_ok s node : outcome_ok False (open_page s node).
Proof.
  unfold open_page. cbn [reducer]. apply andThen_ok; [by apply open_payments|].
  intros p Hp. destruct (default false node); [done|by apply open_zkapps].
Qed.

Lemma session_ok s node evs : Forall event_ok evs -> outcome_ok (Exists may_raise evs) (andThen (open_page s node) (run evs)).
Proof. intros Hevs. apply andThen_ok; [by eapply outcome_weaken, open_ok|]. intros p Hp. by apply run_ok. Qed.
End Runs.

(** C23: From the opening of the page on, whatever is typed, clicked, loaded and answered, every
    dispatch comes to an end; only a reducer that makes a batch or takes an answer can raise;
    and when none has raised, each toolbar has the wallets, senders, counters and current
    batch of the store, its fields of fee and amount are empty or show the numbers of the
    store, which are never negative, and its button does nothing while sending is blocked.
    The text in the field of the batch may differ from the store. *)
Theorem benchmark_toolbars `{Browser} `{HasValue} (s : State) (node : option bool) (evs : list Event) :
  Forall event_ok evs ->
  exists r, andThen (open_page s node) (run evs) = Some r /\
    match r with
    | Ok p => forall k t, toolbar k p = Some t ->
        copies k (store p) t /\ settled (fee t) (fee_of k (store p)) /\
        (k = Payments -> settled (amount t) (sendingAmount (store p))) /\
        (sending_blocked (store p) = true -> step (ClickSend k) p = Some (Ok p))
    | Throw _ => Exists may_raise evs
    end.
Proof.
  intros Hevs. pose proof (session_ok s node evs Hevs) as Hs.
  destruct (andThen (open_page s node) (run evs)) as [r|]; [|done]. exists r. split; [done|].
  destruct r as [p|e]; [|exact Hs]. intros k t Ht. destruct (toolbar_of k [] p t Hs Ht) as (Hc & Hf & Ha).
  split; [done|]. split; [done|]. split; [done|]. intros Hb. cbn [step]. unfold send, on_toolbar. rewrite Ht.
  destruct Hc as (Es & _). by rewrite Es, Hb.
Qed.

Definition sample_accounts : list Account := [mkAccount "A" (Some "k") 9 4; mkAccount "B" (Some "k") 7 0].

Definition sample_events : list Event :=
  [Other (GetWalletsSuccess sample_accounts); TypeFee Payments (Some (-5)); TypeFee Zkapps None;
   TypeBatch Zkapps (Some (1 # 2)%Q); ClickSenders Zkapps false; TypeBatch Payments (Some 7%Q); ClickSend Payments].

Definition sample_run : option (result Page) :=
  andThen (@open_page test_browser has_value initialState (Some false)) (@run test_browser has_value sample_events).

Lemma sample_ends :
  match sample_run with
  | Some (Ok p) => (sendingFee (store p) =? 5) && bool_decide (txSendingBatch (store p) = Some 1) &&
                   (length (txsToSend (store p)) =? 1)%nat
  | _ => false
  end = true.
Proof. vm_compute. reflexivity. Qed.

Lemma benchmark_toolbars_witness :
  exists p, sample_run = Some (Ok p) /\
    sendingFee (store p) = 5 /\ txSendingBatch (store p) = Some 1 /\ length (txsToSend (store p)) = 1%nat /\
    forall k t, toolbar k p = Some t -> settled (fee t) (fee_of k (store p)).
Proof.
  destruct (@benchmark_toolbars test_browser has_value initialState (Some false) sample_events) as (r & Hr & Hgood).
  { repeat constructor. intros []. }
  pose proof sample_ends as E. unfold sample_run in *. rewrite Hr in *. destruct r as [p|e]; [|discriminate E].
  exists p. split; [done|]. apply andb_prop in E as [E E3]. apply andb_prop in E as [E1 E2].
  split; [by apply Z.eqb_eq|]. split; [by apply bool_decide_eq_true in E2|]. split; [by apply Nat.eqb_eq|].
  intros k t Ht. apply (Hgood k t Ht).
Defined.

(** ** A typed batch is sent *)

Section Batch.
Context `{Browser} `{HasValue}.

Lemma reduced_batch_new s p n :
  txSendingBatch (store p) <> Some n -> txSendingBatch s = Some n ->
  value (batch (payments (reduced s p).1)) = Some (inject_Z n).
Proof.
  intros Hne Es. unfold reduced, receive. cbn [batch_of fee_of].
  destruct (receive_number _ (sendingFee s) _ _), (receive_number _ (sendingAmount s) _ _).
  destruct (match zkapps p with Some _ => _ | None => _ end). cbn.
  rewrite bool_decide_false by congruence. cbn. by rewrite Es.
Qed.

(** The store that follows a typed batch: nothing else changed. *)
Definition batch_is (n : Z) (p p' : Page) : Prop :=
  page_ok [] p' /\ txSendingBatch (store p') = Some n /\ value (batch (payments p')) = Some (inject_Z n) /\
  wallets (store p') = wallets (store p) /\ sending_blocked (store p') = sending_blocked (store p) /\
  randomWallet (store p') = randomWallet (store p) /\ activeWallet (store p') = activeWallet (store p).

Lemma finish_batch n p :
  page_ok [] p -> value (batch (payments p)) = Some (inject_Z n) ->
  exists p', finish Payments n p = Some (Ok p') /\ batch_is n p p'.
Proof.
  intros Hp Hv. unfold finish. cbn [toolbar].
  destruct (toolbar_of Payments [] p _ Hp eq_refl) as ((_ & _ & _ & _ & _ & Hb) & _). rewrite Hb. cbn [batch_of] in *.
  case_bool_decide as E; [by exists p|].
  pose proof (dispatch_ok (ChangeTransactionBatch n) p Hp (fun x => x)) as Hd. cbn [reducer] in Hd.
  destruct Hd as (p' & Ed & Hp' & K1 & K2 & K3 & K4 & K5 & K6 & _). exists p'. split; [done|].
  rewrite reduced_store in *. split; [done|]. split; [by rewrite K2|].
  split; [by rewrite K3, (reduced_batch_new _ p n)|]. by rewrite K1, K4, K5, K6.
Qed.

Lemma batch_is_again n p p' p'' : batch_is n p p' -> finish Payments n p' = Some (Ok p'') -> p'' = p'.
Proof.
  intros (Hp & Hb & _) E. unfold finish in E. cbn [toolbar] in E.
  destruct (toolbar_of Payments [] p' _ Hp eq_refl) as ((_ & _ & _ & _ & _ & Hc) & _).
  rewrite bool_decide_true in E by (by rewrite Hc). by injection E as <-.
Qed.

(** The number that fits: with at least two wallets a positive one gives one from the first
    to the last of them, which the handler keeps. *)
Lemma payload_fits t q :
  (2 <= length (t_wallets t))%nat -> (0 < q)%Q ->
  1 <= payload_of t q <= Z.of_nat (length (t_wallets t)) /\ payload_of t (inject_Z (payload_of t q)) = payload_of t q.
Proof.
  intros Hl Hq.
  assert (Hr : 1 <= payload_of t q <= Z.of_nat (length (t_wallets t))).
  { assert (1 <= Qceiling (if Qeq_bool q 0 then 1%Q else q)).
    { destruct (Qeq_bool q 0); [done|]. destruct (Z_lt_le_dec (Qceiling q) 1) as [Hc|]; [|done].
      pose proof (Qle_ceiling q) as Hle. assert (Hz : (inject_Z (Qceiling q) <= 0)%Q).
      { change 0%Q with (inject_Z 0). rewrite <- Zle_Qle. lia. }
      lra. }
    unfold payload_of. cbn zeta. destruct (Z.ltb_spec (Z.of_nat (length (t_wallets t)))
      (Qceiling (if Qeq_bool q 0 then 1%Q else q))); destruct (t_random t); lia. }
  split; [done|]. destruct (payload_cases t (payload_of t q)) as [?|[?|?]]; lia.
Qed.

Lemma typed_batch p q :
  page_ok [] p -> (2 <= length (wallets (store p)))%nat -> (0 < q)%Q ->
  already_passed (Some q) (batch (payments p)) = false ->
  exists p', step (TypeBatch Payments (Some q)) p = Some (Ok p') /\ batch_is (payload_of (payments p) q) p p'.
Proof.
  intros Hp Hl Hq Hn. cbn [step].
  destruct (toolbar_of Payments [] p _ Hp eq_refl) as ((_ & _ & _ & _ & Hw & _) & _).
  destruct (payload_fits (payments p) q) as [_ Hfix]; [by rewrite Hw|done|].
  set (n := payload_of (payments p) q) in *. rewrite (batch_set_S 3 Payments q p (payments p) eq_refl Hn). fold n.
  set (p1 := with_toolbar Payments _ p).
  assert (Hp1 : page_ok [] p1) by by apply with_batch_ok.
  destruct (already_passed (Some (inject_Z n)) (batch (payments p1))) eqn:E.
  - rewrite (batch_set_passed 3 Payments _ p1 _ eq_refl E). cbn [andThen].
    destruct (finish_batch n (with_toolbar Payments (with_batch (mkControl (Some (inject_Z n)) (Some (Some (inject_Z n))))
      (payments p1)) p1)) as (p' & Ef & Hb); [by apply with_batch_ok|done|]. by exists p'.
  - rewrite (batch_set_S 2 Payments _ p1 (payments p1) eq_refl E).
    change (payload_of (payments p1) (inject_Z n)) with (payload_of (payments p) (inject_Z n)). rewrite Hfix.
    set (p2 := with_toolbar Payments _ p1). assert (Hp2 : page_ok [] p2) by by apply with_batch_ok.
    rewrite (batch_set_passed 2 Payments _ p2 (payments p2) eq_refl) by by apply passed_self. cbn [andThen].
    destruct (finish_batch n (with_toolbar Payments (with_batch (mkControl (Some (inject_Z n)) (Some (Some (inject_Z n))))
      (payments p2)) p2)) as (p' & Ef & Hb); [by apply with_batch_ok|done|].
    rewrite Ef. cbn [andThen]. pose proof (finish_ok Payments n p' (proj1 Hb)) as Hok.
    destruct (finish Payments n p') as [[p''|e]|] eqn:Ef2; [|done|done].
    rewrite (batch_is_again n _ p' p'' Hb Ef2). by exists p'.
Qed.
End Batch.

(** C24: On an open page with at least two wallets, a positive number typed into the field of the
    payments becomes a batch that the store and the field agree on, at least one and at most
    the number of wallets; and the button then makes exactly so many payments, each to a
    wallet of the table, when there is a chosen sender, or when the random draws reach
    another wallet. *)
Theorem typed_batch_sent `{Browser} `{HasValue} (s : State) (node : option bool) (evs : list Event) (p : Page) (q : Q) :
  Forall event_ok evs -> andThen (open_page s node) (run evs) = Some (Ok p) ->
  (2 <= length (wallets (store p)))%nat -> (0 < q)%Q ->
  already_passed (Some q) (batch (payments p)) = false ->
  sending_blocked (store p) = false ->
  (if randomWallet (store p)
   then forall i w, w ∈ wallets (store p) -> useful_draws (draws i) w (wallets (store p))
   else is_Some (activeWallet (store p))) ->
  exists p1 p2 n, step (TypeBatch Payments (Some q)) p = Some (Ok p1) /\
    txSendingBatch (store p1) = Some (Z.of_nat n) /\ value (batch (payments p1)) = Some (inject_Z (Z.of_nat n)) /\
    (1 <= n <= length (wallets (store p)))%nat /\
    (Qceiling q <= Z.of_nat (length (wallets (store p))) -> Z.of_nat n = Qceiling q) /\
    step (ClickSend Payments) p1 = Some (Ok p2) /\ length (txsToSend (store p2)) = n /\
    Forall (fun tx => exists w, w ∈ wallets (store p) /\ p_to tx = publicKey w) (txsToSend (store p2)).
Proof.
  intros Hevs Hrun Hl Hq Hn Hblocked Hsender. pose proof (session_ok s node evs Hevs) as Hp. rewrite Hrun in Hp.
  destruct (typed_batch p q Hp Hl Hq Hn) as (p1 & E1 & Hp1 & B1 & V1 & W1 & S1 & R1 & A1).
  destruct (toolbar_of Payments [] p _ Hp eq_refl) as ((_ & _ & _ & _ & Hw & _) & _).
  destruct (payload_fits (payments p) q) as [Hfit _]; [by rewrite Hw|done|].
  assert (Hexact : Qceiling q <= Z.of_nat (length (wallets (store p))) -> payload_of (payments p) q = Qceiling q).
  { intros Hc. unfold payload_of. cbn zeta. rewrite Hw. destruct (Qeq_bool q 0) eqn:Eq0.
    - apply Qeq_bool_iff in Eq0. lra.
    - by destruct (Z.ltb_spec (Z.of_nat (length (wallets (store p)))) (Qceiling q)); [lia|]. }
  rewrite Hw in Hfit. set (z := payload_of (payments p) q) in *. clearbody z.
  assert (Hbatch : exists txs, next_payments (store p1) = Ok txs /\ length txs = Z.to_nat z /\
    Forall (fun tx => exists w, w ∈ wallets (store p) /\ p_to tx = publicKey w) txs).
  { destruct (randomWallet (store p)) eqn:Er.
    - destruct (random_batch (store p1)) as (txs & E & Hall); [done|by rewrite W1|]. exists txs. split; [done|].
      rewrite B1, W1 in Hall. split.
      + rewrite <- (Forall2_length _ _ _ Hall). unfold slice0. destruct (Z.leb_spec 0 z); [|lia].
        rewrite length_take. lia.
      + eapply Forall2_Forall_r; [exact Hall|]. apply Forall_forall. intros x _ tx (_ & _ & _ & _ & _ & _ & w' & ? & ?).
        exists w'. auto.
    - destruct Hsender as [w Hactive].
      destruct (active_batch (store p1) w (Z.to_nat z)) as (txs & E & Hlen & Hall);
        [congruence|congruence|by rewrite B1, Z2Nat.id by lia|rewrite W1; lia|].
      exists txs. split; [done|]. split; [done|]. apply Forall_lookup. intros i tx Htx.
      destruct (Hall i tx Htx) as (_ & _ & w' & Hw' & ?). exists w'. split; [|done].
      rewrite <- W1. by eapply list_elem_of_lookup_2. }
  destruct Hbatch as (txs & Etxs & Hlen & Hall).
  pose proof (dispatch_ok SendTxs p1 Hp1 (fun x => x)) as Hd. cbn [reducer] in Hd. rewrite Etxs in Hd.
  destruct Hd as (p2 & Ed & _ & _ & _ & _ & _ & _ & _ & Ht). rewrite reduced_store in Ht. cbn in Ht.
  destruct (toolbar_of Payments [] p1 _ Hp1 eq_refl) as ((Hs1 & _) & _).
  exists p1, p2, (Z.to_nat z). rewrite Z2Nat.id by lia. split; [done|]. split; [done|]. split; [done|].
  split; [lia|]. split; [done|]. cbn [step]. unfold send, on_toolbar. cbn [toolbar].
  rewrite Hs1, S1, Hblocked. cbn [send_action]. by rewrite Ed, Ht.
Qed.

Definition loaded_events : list Event := [Other (GetWalletsSuccess sample_accounts); ClickSenders Payments false].

Lemma loaded_page :
  match andThen (@open_page test_browser has_value initialState None) (@run test_browser has_value loaded_events) with
  | Some (Ok p) => (2 =? length (wallets (store p)))%nat && negb (already_passed (Some (3 # 2)%Q) (batch (payments p))) &&
                   negb (sending_blocked (store p)) && negb (randomWallet (store p)) && is_some (activeWallet (store p))
  | _ => false
  end = true.
Proof. vm_compute. reflexivity. Qed.

Lemma typed_batch_sent_witness :
  exists p p1 p2, andThen (@open_page test_browser has_value initialState None)
      (@run test_browser has_value loaded_events) = Some (Ok p) /\
    @step test_browser has_value (TypeBatch Payments (Some (3 # 2)%Q)) p = Some (Ok p1) /\
    @step test_browser has_value (ClickSend Payments) p1 = Some (Ok p2) /\ length (txsToSend (store p2)) = 2%nat.
Proof.
  pose proof loaded_page as E.
  destruct (andThen (@open_page test_browser has_value initialState None) (@run test_browser has_value loaded_events))
    as [[p|e]|] eqn:Ep; [|discriminate E|discriminate E].
  apply andb_prop in E as [E E5]. apply andb_prop in E as [E E4]. apply andb_prop in E as [E E3].
  apply andb_prop in E as [E1 E2]. apply Nat.eqb_eq in E1. apply negb_true_iff in E2, E3, E4.
  destruct (@typed_batch_sent test_browser has_value initialState None loaded_events p (3 # 2)%Q)
    as (p1 & p2 & n & H1 & _ & _ & Hn & Hex & H2 & Hl & _).
  - repeat constructor. intros [].
  - exact Ep.
  - lia.
  - reflexivity.
  - exact E2.
  - exact E3.
  - rewrite E4. destruct (activeWallet (store p)); [by eexists|discriminate E5].
  - exists p, p1, p2. split; [done|]. split; [done|]. split; [done|]. rewrite Hl.
    rewrite <- E1 in Hex. specialize (Hex (Z.le_refl _)). change (Qceiling (3 # 2)) with 2 in Hex. lia.
Defined.

(** ** What the fields let through *)

Section Limits.
Context `{Browser} `{HasValue}.

(** A negative number is not raised to one: with a chosen sender the next batch raises. *)
Lemma negative_batch p n w :
  page_ok [] p -> randomWallet (store p) = false -> activeWallet (store p) = Some w ->
  txSendingBatch (store p) = Some n -> n < 0 ->
  payload_of (payments p) (inject_Z n) = n /\ dispatch SendTxs p = Some (Throw "Invalid array length").
Proof.
  intros Hp Hr Ha Hb Hn. split.
  - destruct (payload_cases (payments p) n) as [(_ & _ & E)|[?|?]]; [exact E|lia|lia].
  - unfold dispatch. cbn. unfold next_payments. rewrite Hr, Ha, Hb. cbn. by destruct (Z.leb_spec 0 n); [lia|].
Qed.

(** Before the wallets are loaded every positive number becomes a batch of none, and the
    number of the wallets no longer replaces it. *)
Lemma early_batch_empty t q s accounts s' :
  t_wallets t = [] -> t_random t = true -> (0 < q)%Q -> txSendingBatch s = Some (payload_of t q) ->
  reducer s (GetWalletsSuccess accounts) = Ok s' -> txSendingBatch s' = Some 0.
Proof.
  intros Hw Hr Hq Hb [= <-]. cbn. unfold loaded_batch. rewrite Hb, hasValue_spec. cbn. f_equal.
  assert (Hc : 0 < Qceiling q).
  { destruct (Z_lt_le_dec 0 (Qceiling q)) as [|Hc]; [done|]. pose proof (Qle_ceiling q) as Hle.
    assert ((inject_Z (Qceiling q) <= 0)%Q) by (change 0%Q with (inject_Z 0); by rewrite <- Zle_Qle). lra. }
  unfold payload_of. rewrite Hw, Hr. cbn zeta. destruct (Qeq_bool q 0) eqn:E; [done|].
  change (Z.of_nat (length [])) with 0. destruct (Z.ltb_spec 0 (Qceiling q)); [done|lia].
Qed.

(** A table keeps its rows when the wallets are gone. *)
Lemma rows_stay s old : wallets s = [] -> new_rows s old = old.
Proof. intros E. unfold new_rows. by rewrite E. Qed.
End Limits.

(** With one wallet and a chosen sender a large number leaves a batch of none, and the number
    one that is typed then does not reach the store. *)
Definition one_wallet_events : list Event :=
  [Other (GetWalletsSuccess [mkAccount "A" (Some "k") 9 4]); ClickSenders Payments false;
   TypeBatch Payments (Some 5%Q); TypeBatch Payments (Some 1%Q)].

Lemma field_and_store_differ :
  match andThen (@open_page test_browser has_value initialState None) (@run test_browser has_value one_wallet_events) with
  | Some (Ok p) => bool_decide (txSendingBatch (store p) = Some 0) && same_number (value (batch (payments p))) (Some 1%Q)
  | _ => false
  end = true.
Proof. vm_compute. reflexivity. Qed.
End BenchmarksPage.
