(* ===== verification/ZkApp.v ===== *)
(** * The zkapp commands of the wallet benchmark

    [src/frontend/src/assets/o1js/src/zk-app/zk-app.ts], the contract with the two functions
    that deploy and update it, and the loading of that script and the order of its calls in
    [benchmarks-wallets-zk.service.ts].

    The o1js package is a class of operations that may fail, its keys, transactions and
    answers being types of it, and [performance.now()] a sequence of readings in
    milliseconds.  A promise that is rejected is a thrown message.  Field elements are
    integers modulo a prime, which is a parameter. *)

From Stdlib Require Import ZArith Lia QArith Qround.
From stdpp Require Import base list strings.
From S2P Require Import Prelude SharedLib Ledger Mempool Benchmarks.

Module ZkApp.
Import Ledger Benchmarks.
Open Scope Z_scope.

(** ** The contract *)

(** The state of the account of a contract: whether a proof has set it, and [num]. *)
Record Account := mkAccount { provedState : bool; num : Z }.

Inductive Permission := signature | proof | none.

(** The permissions that [deploy] sets beside the default ones. *)
Definition deploy_permissions : list (string * Permission) :=
  [("setDelegate", signature); ("setPermissions", signature); ("setZkappUri", signature);
   ("setTokenSymbol", signature); ("incrementNonce", signature); ("setVotingFor", signature);
   ("setTiming", signature); ("send", proof); ("editState", proof); ("receive", none); ("access", none);
   ("editActionState", proof)].

(** [init]: the state must not have been proved before. *)
Definition init (a : Account) : result Account :=
  if provedState a then Throw "Bool.assertFalse()" else Ok (mkAccount true 1).

(** [update], in the field of the order [p] *)
Definition update (p : Z) (a : Account) : Account := mkAccount (provedState a) ((num a + 5) mod p).

(** ** The script *)

Inductive Call := FundNewAccount (n : Z) | Deploy (key : string) | Update (key : string).

(** Public keys are named by their text. *)
Record Payer := mkPayer { p_sender : string; p_fee : Z; p_nonce : Z; p_memo : jstr }.

Class O1js := {
  Tx : Type;
  toPublicKey : string -> string;
  privateFromBase58 : option string -> result string;
  publicFromBase58 : string -> result string;
  random : nat -> string;
  compile : result unit;
  transaction : Payer -> list Call -> result Tx;
  prove : Tx -> result Tx;
  sign : Tx -> list string -> result Tx;
  safeSend : Tx -> result ZkResponse;
  reading : nat -> Q
}.

(** [{ step, duration }]; the duration is in milliseconds. *)
Record StepUpdate := mkUpdate { step : option string; duration : option Z }.

(** [Math.round] *)
Definition round (q : Q) : Z := Qfloor (q + (1 # 2)).

(** A computation that sends updates, reads the clock and may fail: the number of readings
    so far and [stepStartTime] are its state. *)
Definition Zk (A : Type) : Type := nat * Q -> list StepUpdate * result (A * (nat * Q)).

Definition ret {A} (a : A) : Zk A := fun s => ([], Ok (a, s)).
Definition bind {A B} (m : Zk A) (f : A -> Zk B) : Zk B := fun s =>
  match m s with
  | (u, Ok (a, s1)) => let '(u', r) := f a s1 in (u ++ u', r)
  | (u, Throw e) => (u, Throw e)
  end.
Definition await {A} (r : result A) : Zk A := fun s =>
  ([], match r with Ok a => Ok (a, s) | Throw e => Throw e end).

Notation "x <- m ;; f" := (bind m (fun x => f)) (at level 100, m at next level, right associativity).
Notation "m ;;; f" := (bind m (fun _ => f)) (at level 100, right associativity).

Section Script.
Context `{O1js}.

Definition updateStep (name : option string) : Zk unit := fun '(i, start) =>
  let now := reading i in
  if bool_decide (name = Some "Compiling") then ([mkUpdate name None], Ok (tt, (S i, start)))
  else ([mkUpdate name (Some (round (now - start)))], Ok (tt, (S i, now))).

Definition startClock : Zk unit := fun '(i, _) => ([], Ok (tt, (S i, reading i))).

Definition deployedZkApps : list string :=
  ["EKEbTHeqQbq5zeFuspjVSoatEebrG7fJnz8CrXyP4aVAXzeD1Z6A"; "EKFF1zZ4KUCZoe7GXHAPcfLdkGPgsYJ5RNtQvHMx8ndhY1pZttaa"].

(** The keys of the contracts that are updated: those of [deployedZkApps] by position. *)
Fixpoint known_keys (i n : nat) : result (list string) :=
  match n with
  | O => Ok []
  | S n =>
    key ← privateFromBase58 (deployedZkApps !! i);
    keys ← known_keys (S i) n;
    mret (key :: keys)
  end.

(** What follows the compilation: the fee of the input is in billionths. *)
Definition send_steps (input : Zkapp) (calls : list Call) (keys : list string) (name : string) : Zk ZkResponse :=
  sender <- await (publicFromBase58 (payerPublicKey input)) ;;
  tx <- await (transaction (mkPayer sender (z_fee input) (z_nonce input) (z_memo input)) calls) ;;
  updateStep (Some name) ;;;
  proved <- await (prove tx) ;;
  updateStep (Some "Proved") ;;;
  payer <- await (privateFromBase58 (payerPrivateKey input)) ;;
  signed <- await (sign proved (payer :: keys)) ;;
  updateStep (Some "Signed") ;;;
  sentTx <- await (safeSend signed) ;;
  updateStep (Some "Sent") ;;;
  ret sentTx.

Definition compile_steps : Zk unit :=
  startClock ;;;
  updateStep (Some "Compiling") ;;;
  await compile ;;;
  updateStep (Some "Compiled").

Definition count_of (input : Zkapp) : nat := Z.to_nat (accountUpdates input).

Definition deployZkApp (input : Zkapp) : Zk ZkResponse :=
  let keys := random <$> seq 0 (count_of input) in
  compile_steps ;;;
  send_steps input (FundNewAccount (accountUpdates input) :: ((fun k => Deploy (toPublicKey k)) <$> keys)) keys "Deployed".

Definition updateZkApp (input : Zkapp) : Zk ZkResponse :=
  keys <- await (known_keys 0 (count_of input)) ;;
  compile_steps ;;;
  sentTx <- send_steps input ((fun k => Update (toPublicKey k)) <$> keys) keys "Proved Check Even" ;;
  updateStep None ;;;
  ret sentTx.

(** [executeSequentially]: the commands one after the other, and what the service gets. *)
Fixpoint executeSequentially (zs : list Zkapp) : Zk (list ZkResponse) :=
  match zs with
  | [] => ret []
  | z :: zs =>
    response <- updateZkApp z ;;
    results <- executeSequentially zs ;;
    ret (response :: results)
  end.

(** [sendZkApp] once the interface is there. *)
Definition send_all (zs : list Zkapp) (s : nat * Q)
    : list StepUpdate * (list Zkapp * option TxError) :=
  let '(u, r) := executeSequentially zs s in
  (u, sendZkApp zs match r with Ok (rs, _) => Next rs | Throw e => Failed (mkJsError e None "") end).
End Script.

(** ** The loading of the script *)

(** [o1jsWrapper] of the window, the interface of the service, and the scripts that were
    appended and are not loaded yet. *)
Record Loader := mkLoader { wrapper : bool; interface : bool; loading : nat }.

Inductive LoadEvent := LoadO1js | ScriptLoaded.

Definition load_step (e : LoadEvent) (l : Loader) : Loader :=
  match e with
  | LoadO1js => if wrapper l then l else mkLoader (wrapper l) (interface l) (S (loading l))
  | ScriptLoaded => match loading l with S n => mkLoader true true n | O => l end
  end.

(** The service has the interface exactly when the script was loaded. *)
Lemma interface_follows evs l :
  interface l = wrapper l ->
  let l' := fold_left (fun l e => load_step e l) evs l in interface l' = wrapper l'.
Proof.
  revert l. induction evs as [|e evs IH]; intros l Hl; [done|]. apply IH.
  destruct e; cbn; [destruct (wrapper l) eqn:E; cbn; congruence|by destruct (loading l)].
Qed.

(** ** The steps *)

Definition update_names : list (option string) :=
  [Some "Compiling"; Some "Compiled"; Some "Proved Check Even"; Some "Proved"; Some "Signed"; Some "Sent"; None].
Definition deploy_names : list (option string) :=
  [Some "Compiling"; Some "Compiled"; Some "Deployed"; Some "Proved"; Some "Signed"; Some "Sent"].

(** The steps that were shown: all of them when the command was sent, and fewer when an
    operation failed. *)
Definition steps_shown {A} (names : list (option string)) (o : list StepUpdate * result A) : Prop :=
  match o.2 with
  | Ok _ => step <$> o.1 = names
  | Throw _ => exists n, (n < length names)%nat /\ step <$> o.1 = take n names
  end.

Section Steps.
Context `{O1js}.

Lemma send_steps_shown input calls keys name s :
  steps_shown [Some name; Some "Proved"; Some "Signed"; Some "Sent"] (send_steps input calls keys name s) \/
  name = "Compiling".
Proof.
  destruct (String.eq_dec name "Compiling") as [|Hn]; [by right|left]. destruct s as [i start].
  unfold send_steps, bind, await, updateStep, ret, steps_shown.
  destruct (publicFromBase58 (payerPublicKey input)) as [sender|e]; cbn; [|by exists 0%nat; split; [lia|]].
  destruct (transaction _ calls) as [tx|e]; cbn; [|by exists 0%nat; split; [lia|]].
  rewrite bool_decide_false by congruence.
  destruct (prove tx) as [proved|e]; cbn; [|by exists 1%nat; split; [lia|]].
  destruct (privateFromBase58 (payerPrivateKey input)) as [payer|e]; cbn; [|by exists 2%nat; split; [lia|]].
  destruct (sign proved (payer :: keys)) as [sg|e]; cbn; [|by exists 2%nat; split; [lia|]].
  destruct (safeSend sg) as [sn|e]; cbn; [done|by exists 3%nat; split; [lia|]].
Qed.

Lemma compile_steps_shown s : steps_shown [Some "Compiling"; Some "Compiled"] (compile_steps s).
Proof.
  destruct s as [i start]. unfold compile_steps, bind, await, updateStep, startClock, steps_shown. cbn.
  destruct compile; cbn; [done|by exists 1%nat; split; [lia|]].
Qed.

Lemma steps_bind {A B} l1 l2 (m : Zk A) (f : A -> Zk B) s :
  steps_shown l1 (m s) -> (0 < length l2)%nat -> (forall a s', steps_shown l2 (f a s')) ->
  steps_shown (l1 ++ l2) (bind m f s).
Proof.
  intros H1 Hl H2. unfold bind, steps_shown in *. destruct (m s) as [u [[a s']|e]]; cbn in *.
  - specialize (H2 a s'). destruct (f a s') as [u' [x|e]]; cbn in *.
    + by rewrite fmap_app, H1, H2.
    + destruct H2 as (n & Hn & E). exists (length l1 + n)%nat. rewrite length_app. split; [lia|].
      rewrite fmap_app, H1, E, take_app_add. done.
  - destruct H1 as (n & Hn & E). exists n. rewrite length_app. split; [lia|].
    by rewrite E, take_app_le by lia.
Qed.

Lemma steps_ret {A B} l (m : Zk A) (g : A -> B) s :
  steps_shown l (m s) -> steps_shown l (bind m (fun a => ret (g a)) s).
Proof.
  unfold bind, steps_shown, ret. destruct (m s) as [u [[a s']|e]]; cbn; [by rewrite app_nil_r|done].
Qed.

(** Every deployment shows its six steps in their order, up to the operation that failed. *)
Lemma deploy_steps input s : steps_shown deploy_names (deployZkApp input s).
Proof.
  unfold deployZkApp. change deploy_names with
    ([Some "Compiling"; Some "Compiled"] ++ [Some "Deployed"; Some "Proved"; Some "Signed"; Some "Sent"]).
  apply steps_bind; [apply compile_steps_shown|cbn; lia|]. intros _ s'.
  by destruct (send_steps_shown input (FundNewAccount (accountUpdates input) ::
    ((fun k => Deploy (toPublicKey k)) <$> (random <$> seq 0 (count_of input)))) (random <$> seq 0 (count_of input)) "Deployed" s').
Qed.

(** Every update shows its seven steps, the last of which clears the text. *)
Lemma update_steps input s : steps_shown update_names (updateZkApp input s).
Proof.
  unfold updateZkApp, bind at 1, await. destruct (known_keys 0 (count_of input)) as [keys|e]; cbn [fst snd app];
    [|by exists 0%nat; split; [cbn; lia|]].
  match goal with |- steps_shown _ (let '(_, _) := ?x in _) =>
    assert (Hx : steps_shown update_names x); [|by destruct x] end.
  change update_names with ([Some "Compiling"; Some "Compiled"] ++
    ([Some "Proved Check Even"; Some "Proved"; Some "Signed"; Some "Sent"] ++ [None])).
  apply steps_bind; [apply compile_steps_shown|cbn; lia|]. intros _ s1.
  apply steps_bind; [by destruct (send_steps_shown input ((fun k => Update (toPublicKey k)) <$> keys) keys "Proved Check Even" s1)|cbn; lia|].
  intros sentTx s2. apply steps_ret. by destruct s2.
Qed.

(** A command that fails after its first step leaves the name of a step on the page. *)
Lemma failed_step_stays input s u e :
  updateZkApp input s = (u, Throw e) -> u <> [] -> exists name d, last u = Some (mkUpdate (Some name) d).
Proof.
  intros E Hu. pose proof (update_steps input s) as Hs. rewrite E in Hs. cbn in Hs. destruct Hs as (n & Hn & Es).
  assert (Hl : last (step <$> u) = step <$> last u) by apply fmap_last.
  destruct (last u) as [[nm d]|] eqn:El; [|by apply last_None in El]. rewrite Es in Hl. cbn in Hl.
  assert (exists name, nm = Some name) as [name ->]; [|by exists name, d].
  do 7 (destruct n as [|n]; [cbn in Hl; try discriminate Hl; injection Hl as <-; by eexists|]). cbn in Hn. lia.
Qed.

(** All commands: the seven steps of each, one command after the other, and an answer for
    each; or the steps of those before the one that failed and some of its own. *)
Theorem commands_in_order zs s :
  match executeSequentially zs s with
  | (u, Ok (rs, _)) => length rs = length zs /\ step <$> u = concat (replicate (length zs) update_names)
  | (u, Throw _) => exists k n, (k < length zs)%nat /\ (n < length update_names)%nat /\
      step <$> u = concat (replicate k update_names) ++ take n update_names
  end.
Proof.
  revert s. induction zs as [|z zs IH]; intros s; [done|]. cbn [executeSequentially]. unfold bind at 1.
  pose proof (update_steps z s) as Hz. destruct (updateZkApp z s) as [u [[r s1]|e]]; unfold steps_shown in Hz; cbn in Hz.
  - unfold bind. specialize (IH s1). destruct (executeSequentially zs s1) as [u' [[rs s2]|e]].
    + destruct IH as [Hl Hu]. cbn. rewrite app_nil_r, fmap_app, Hz, Hu, Hl. done.
    + destruct IH as (k & n & Hk & Hn & Hu). exists (S k), n. cbn [length]. split; [lia|]. split; [done|].
      rewrite fmap_app, Hz, Hu. done.
  - destruct Hz as (n & Hn & E). exists 0%nat, n. cbn [length]. split; [lia|]. split; [done|]. exact E.
Qed.

(** More than two contracts are not known: an input that asks for them fails before its
    first step. *)
Lemma too_many_contracts input s e :
  2 < accountUpdates input -> (forall k, k ∈ deployedZkApps -> exists key, privateFromBase58 (Some k) = Ok key) ->
  privateFromBase58 None = Throw e -> updateZkApp input s = ([], Throw e).
Proof.
  intros Hn Hk He. unfold updateZkApp, bind at 1, await.
  assert (count_of input = S (S (S (count_of input - 3)))) as -> by (unfold count_of; lia).
  cbn [known_keys lookup list_lookup deployedZkApps mbind result_bind].
  destruct (Hk "EKEbTHeqQbq5zeFuspjVSoatEebrG7fJnz8CrXyP4aVAXzeD1Z6A") as [k1 E1]; [apply list_elem_of_here|].
  destruct (Hk "EKFF1zZ4KUCZoe7GXHAPcfLdkGPgsYJ5RNtQvHMx8ndhY1pZttaa") as [k2 E2];
    [apply list_elem_of_further, list_elem_of_here|].
  rewrite E1, E2. change ([] !! 2%nat) with (@None string). cbn. by rewrite He.
Qed.
End Steps.

(** ** The contract *)

(** After the deployment and any number of updates. *)
Lemma updated_num p k a a' :
  1 < p -> init a = Ok a' -> num (Nat.iter k (update p) a') = (1 + 5 * Z.of_nat k) mod p.
Proof.
  intros Hp Ha. unfold init in Ha. destruct (provedState a); [done|]. injection Ha as <-.
  induction k as [|k IH]; [cbn; by rewrite Z.mod_small by lia|]. cbn [Nat.iter nat_rect]. unfold update at 1. cbn [num].
  change (nat_rect _ _ _ k) with (Nat.iter k (update p) (mkAccount true 1)).
  rewrite IH, Zplus_mod_idemp_l. f_equal. lia.
Qed.

End ZkApp.
