(* ===== verification/WebNodeBar.v ===== *)
(** * The bar of the initialization page

    The drawing of [features/web-node/web-node-initialization] of [src/frontend/src/app]:
    the circle with its arc and texts, drawn by [buildProgressBar] and changed by
    [updateProgressBar] and [markErrorOnD3], and the message of the download, around the
    machine of the page in [WebNode].

    The end of the arc is the part of the full circle it covers. Opacities and the offset of
    the percent sign are rationals. *)

From Stdlib Require Import ZArith Lia QArith Qminmax Qround Lqa.
From stdpp Require Import base gmap strings list.
From S2P Require Import Prelude SharedLib WebNode.

Module WebNodeBar.
Import WebNode.
Open Scope Z_scope.

(** ** The drawing *)

(** A part of the drawing that an error marks. *)
Record Part := mkPart { fill : string; opacity : Q }.

Record Bar := mkBar {
  svg_width : Q; svg_height : Q; centre : Q * Q; radius : Q; inner : Q;
  turn : Q; path : Part;
  text : string; number : Part;
  symbol_dx : Q; symbol : Part
}.

Definition barWidth : Q := 4.

(** [x.toFixed(0)] and [x.toFixed(1)] of a number that is not negative *)
Definition toFixed0 (x : Q) : string := show (Qfloor (x + (1 # 2))).
Definition toFixed1 (x : Q) : string :=
  let z := Qfloor (x * 10 + (1 # 2)) in show (z / 10) +:+ "." +:+ show (z mod 10).

Definition buildProgressBar (width height : Q) : Bar :=
  let progress := 0%Q in
  let radius := (Qmin width height / 2 - barWidth)%Q in
  mkBar width height ((width / 2)%Q, (height / 2)%Q) radius (radius - barWidth)%Q
    (progress / 100)%Q (mkPart "url(#progress-gradient)" (8 # 10))
    (toFixed0 progress) (mkPart "var(--base-primary)" (8 # 10))
    (15 # 10) (mkPart "var(--base-tertiary)" (8 # 10)).

(** [numberOfDigits * 0.45] *)
Definition symbol_offset (progress : Q) : Q :=
  (inject_Z (Z.of_nat (String.length (toFixed0 progress)) + 1) * (45 # 100))%Q.

(** The part of [updateProgressBar] that draws. *)
Definition draw_progress (newProgress : Q) (b : Bar) : Bar :=
  mkBar (svg_width b) (svg_height b) (centre b) (radius b) (inner b) (newProgress / 100)%Q (path b)
    (toFixed0 newProgress) (number b) (symbol_offset newProgress) (symbol b).

Definition markErrorOnD3 (b : Bar) : Bar :=
  let warn := "var(--warn-primary)" in
  mkBar (svg_width b) (svg_height b) (centre b) (radius b) (inner b) (turn b) (mkPart warn (4 # 10))
    (text b) (mkPart warn (8 # 10)) (symbol_dx b) (mkPart warn (4 # 10)).

Definition capped (q : Q) : Q := if Qle_bool 100 q then 100%Q else q.

(** The number an event passes to [updateProgressBar], if any. *)
Definition advanced_to (e : Event) (p : Page) : option Q :=
  match e with
  | OnDownload em => Some (em_progress em * inject_Z (pct1 p) / 100)%Q
  | OnTimer i =>
    match timers p !! i with
    | Some (Second q) =>
      if Qle_bool (inject_Z (pct2 p - 1)) q then None else Some (inject_Z (pct1 p) + (q + (1 # 8)))%Q
    | Some (Fast current k) => Some (current + inject_Z (Z.of_nat k))%Q
    | Some (Third q) =>
      if Qle_bool (inject_Z (pct3 p - 1)) q then None else Some (inject_Z (pct1 p + pct2 p) + (q + (1 # 8)))%Q
    | Some (End q) => if Qle_bool q 100 then Some (q + 1)%Q else None
    | Some (Warn _) | None => None
    end
  | OnState _ | OnError _ => None
  end.

(** ** The page with its bar *)

(** The bar is built after the page was initialized; an emission of the download before
    that changes the message only. *)
Record View := mkView { page : Page; bar : option Bar; downloadingMessage : string }.

Inductive ViewEvent :=
| AfterViewInit (width height : Q)
| Of (e : Event).

Definition download_message (em : Emission) : string :=
  "Downloading " +:+ toFixed1 (em_downloaded em / 1000000) +:+ " of " +:+
  toFixed1 (inject_Z WASM_FILE_SIZE / 1000000) +:+ " MB".

Definition draw_event (e : Event) (p : Page) (b : Bar) : Bar :=
  let b1 := match advanced_to e p with Some q => draw_progress (capped q) b | None => b end in
  match e with OnError msg => if truthy_str msg then markErrorOnD3 b1 else b1 | _ => b1 end.

(** What an event does; before the bar is built an error, or a timer that advances, reads a
    drawing that is undefined. *)
Definition view_step (e : ViewEvent) (v : View) : result View :=
  match e with
  | AfterViewInit w h => Ok (mkView (page v) (Some (buildProgressBar w h)) (downloadingMessage v))
  | Of e =>
    let message := match e with OnDownload em => download_message em | _ => downloadingMessage v end in
    match bar v, e with
    | Some b, _ => Ok (mkView (page_step (page v) e) (Some (draw_event e (page v) b)) message)
    | None, OnDownload _ => Ok (mkView (page v) None message)
    | None, OnError msg =>
      if truthy_str msg then Throw "Cannot read properties of undefined (reading 'select')" else Ok v
    | None, _ =>
      match advanced_to e (page v) with
      | Some _ => Throw "Cannot read properties of undefined (reading 'endAngle')"
      | None => Ok (mkView (page_step (page v) e) None message)
      end
    end
  end.

Fixpoint view_run (es : list ViewEvent) (v : View) : result View :=
  match es with
  | [] => Ok v
  | e :: es => v1 ← view_step e v; view_run es v1
  end.

(** The page as it is opened: the framework builds the bar right after [ngOnInit]. *)
Definition open_view (noBlockProduction : bool) (r1 r2 : Z) (w h : Q) (es : list Event) : result View :=
  view_run (AfterViewInit w h :: (Of <$> es)) (mkView (WebNode.ngOnInit noBlockProduction false r1 r2) None "").

(** ** The drawing follows the page *)

Definition shown_fields (p : Page) : Q * bool := (progress p, hasError p).

(** [advanced_to] is the number the page was set to, and only an error sets [hasError]. *)
Lemma step_fields e p :
  shown_fields (page_step p e) =
  (match advanced_to e p with Some q => capped q | None => progress p end,
   match e with OnError msg => truthy_str msg || hasError p | _ => hasError p end).
Proof.
  assert (Hup : forall q p0, shown_fields (updateProgressBar q p0) = (capped q, hasError p0)).
  { intros q p0. unfold updateProgressBar, capped. by destruct (Qle_bool 100 q). }
  assert (Hmsg : forall m p0, shown_fields (updateLoadingMessage m p0) = shown_fields p0).
  { intros m p0. unfold updateLoadingMessage. by destruct (hasError p0 || hasWarn p0). }
  assert (Hclear : forall i p0, shown_fields (clearInterval i p0) = shown_fields p0) by by intros [i|].
  assert (Hthird : forall c i p0, shown_fields (third_loop c i p0) = shown_fields p0).
  { intros c i p0. unfold third_loop. by destruct (Qle_bool _ _). }
  destruct e as [st|i|em|msg]; cbn [page_step advanced_to].
  - destruct st; cbn [checkWebNodeProgress]; [done| | |].
    + exact (Hmsg _ _).
    + unfold advanceProgressFor3rdStep. rewrite Hthird.
      set (p1 := set_timer (Warn 2) (updateLoadingMessage "~3 seconds left" p)).
      transitivity (shown_fields (clearInterval (secondStepInterval p1) p1)); [reflexivity|].
      rewrite Hclear. exact (Hmsg _ _).
    + set (p1 := updateLoadingMessage "Web Node is ready" p).
      transitivity (shown_fields (clearInterval (thirdStepInterval p1) p1)); [reflexivity|].
      rewrite Hclear. exact (Hmsg _ _).
  - unfold fire. destruct (timers p !! i) as [[q|c k|q|q|k]|]; [..|done].
    + destruct (Qle_bool _ _); [done|by rewrite Hup].
    + by rewrite Hthird, Hup.
    + destruct (Qle_bool _ _); [done|by rewrite Hup].
    + destruct (Qle_bool q 100); [by rewrite Hup|by rewrite Hclear].
    + cbn zeta. destruct (negb (hasError _) && _); [exact (Hmsg _ _)|done].
  - unfold fetchProgress. by rewrite Hup.
  - unfold onError. by destruct (truthy_str msg).
Qed.

Definition part_fill (error : bool) (plain : string) : string := if error then "var(--warn-primary)" else plain.

(** What the bar shows of a page. *)
Definition shows (p : Page) (b : Bar) : Prop :=
  (turn b == progress p / 100)%Q /\ text b = toFixed0 (progress p) /\
  fill (path b) = part_fill (hasError p) "url(#progress-gradient)" /\
  fill (number b) = part_fill (hasError p) "var(--base-primary)" /\
  fill (symbol b) = part_fill (hasError p) "var(--base-tertiary)".

Lemma draw_shows e p b : shows p b -> shows (page_step p e) (draw_event e p b).
Proof.
  intros (H1 & H2 & H3 & H4 & H5). pose proof (step_fields e p) as E. injection E as E1 E2.
  unfold shows. rewrite E1, E2. unfold draw_event.
  destruct (advanced_to e p) as [q|]; (destruct e as [st|i|em|msg]; [| | |destruct (truthy_str msg)]);
    cbn; repeat split; auto; reflexivity.
Qed.

Lemma run_shows es p b m :
  shows p b -> exists v b', view_run (Of <$> es) (mkView p (Some b) m) = Ok v /\ bar v = Some b' /\
    page v = run_page p es /\ shows (page v) b' /\ radius b' = radius b /\ svg_width b' = svg_width b.
Proof.
  revert p b m. induction es as [|e es IH]; intros p b m Hs; [by eexists _, b|].
  cbn [fmap list_fmap view_run view_step mbind result_bind bar page].
  destruct (IH (page_step p e) (draw_event e p b)
    (match e with OnDownload em => download_message em | _ => m end) (draw_shows e p b Hs))
    as (v & b' & E & Hb & Hp & Hv & Hr & Hw).
  exists v, b'. split; [exact E|]. split; [done|]. split; [exact Hp|]. split; [done|].
  rewrite Hr, Hw. unfold draw_event.
  destruct (advanced_to e p), e as [st|i|em|msg]; cbn; try destruct (truthy_str msg); done.
Qed.

(** Whatever the order of node states, timers, downloads and errors, the drawing of the
    initialization page raises nothing once it is built and shows the page: the arc covers
    the share of the circle that the progress is of a hundred, which is between none and the
    whole, the number is the progress without decimals, and all parts have the colour of
    the warning exactly when an error was reported. *)
Theorem bar_drawn (nbp : bool) (r1 r2 : Z) (w h : Q) (es : list Event) :
  0 <= r1 < 15 -> 0 <= r2 < 2 -> Forall event_ok es ->
  exists v b, open_view nbp r1 r2 w h es = Ok v /\ bar v = Some b /\
    page v = run_page (WebNode.ngOnInit nbp false r1 r2) es /\
    shows (page v) b /\ (0 <= turn b <= 1)%Q /\ (radius b == Qmin w h / 2 - 4)%Q /\
    (hasError (page v) = true <-> exists msg, OnError msg ∈ es /\ truthy_str msg = true).
Proof.
  intros H1 H2 Hes. unfold open_view. cbn [view_run view_step mbind result_bind page downloadingMessage].
  destruct (run_shows es (WebNode.ngOnInit nbp false r1 r2) (buildProgressBar w h) "") as (v & b & E & Hb & Hp & Hs & Hr & _).
  { by repeat split. }
  exists v, b. split; [exact E|]. split; [done|]. split; [exact Hp|]. split; [exact Hs|].
  pose proof (run_inv _ _ _ (init_inv nbp r1 r2 H1 H2) Hes) as Hinv. rewrite <- Hp in Hinv.
  split; [|split; [by rewrite Hr|]].
  - destruct Hs as (Ht & _). pose proof (pi_bar _ _ Hinv) as Hbar.
    assert (Hd : (progress (page v) / 100 == progress (page v) * (1 # 100))%Q) by reflexivity.
    rewrite Hd in Ht. lra.
  - rewrite Hp. clear. enough (forall p, hasError (run_page p es) = true <->
      hasError p = true \/ exists msg, OnError msg ∈ es /\ truthy_str msg = true) as Hg.
    { rewrite Hg. split; [intros [?|?]; done|by right]. }
    induction es as [|e es IH]; intros p; cbn [run_page fold_left].
    + split; [by left|]. intros [?|(msg & Hm & _)]; [done|by apply not_elem_of_nil in Hm].
    + change (fold_left page_step es (page_step p e)) with (run_page (page_step p e) es). rewrite IH.
      pose proof (step_fields e p) as E. injection E as _ ->. split.
      * intros [Hh|(msg & Hm & Ht)]; [|right; exists msg; split; [by apply list_elem_of_further|done]].
        destruct e; try by left. apply orb_prop in Hh as [Ht|?]; [|by left].
        right. eexists. split; [apply list_elem_of_here|done].
      * intros [Hh|(msg & Hm & Ht)].
        { left. destruct e; try done. by rewrite Hh, orb_true_r. }
        apply elem_of_cons in Hm as [<-|Hm]; [left; by rewrite Ht|right; eauto].
Qed.

(** An error that is reported before the bar is built raises. *)
Lemma early_error_raises p m msg :
  truthy_str msg = true ->
  view_step (Of (OnError msg)) (mkView p None m) = Throw "Cannot read properties of undefined (reading 'select')".
Proof. intros Ht. cbn. by rewrite Ht. Qed.

(** The message of a download that is complete. *)
Lemma download_complete : download_message (mkEmission 100 StatusComplete (inject_Z WASM_FILE_SIZE)) = "Downloading 31.6 of 31.6 MB".
Proof. by vm_compute. Qed.
End WebNodeBar.
