(* ===== verification/SplitsDrawing.v ===== *)
(** * The drawing of the network splits

    The component [features/network/splits/dashboard-splits-graph] of
    [src/frontend/src/app] as a machine around what [SplitsGraph] models of it: the loads
    that wait for the eigenvalues, the groups of the drawing with their zoom, the places a
    tick of the simulation gives to lines and shapes, the tooltip and the width of the
    drawing.

    The eigenvalues of [mathjs] and the forces and zooms of [d3] are parameters: an event
    carries the eigenvalues or the error of the routine, and the places of the nodes after a
    tick; the class [Zoom] has the transformations, whose scale stays within the extent that
    was set. *)

From Stdlib Require Import ZArith Lia QArith Lqa Qminmax.
From stdpp Require Import base gmap strings list relations.
From S2P Require Import Prelude SharedLib NetworkSplits SplitsGraph.

Module SplitsDrawing.
Import Splits SplitsGraph.
Local Open Scope Z_scope.

Class Zoom := {
  Transform : Type;
  zoomIdentity : Transform;
  scale : Transform -> Q;
  scaleBy : Q -> Transform -> Transform;
  scale_identity : (scale zoomIdentity == 1)%Q;
  scale_within : forall k t, ((1 # 10) <= scale (scaleBy k t) <= 10)%Q
}.

(** ** Eigenvalues *)

(** [eigenvalues.sort((a, b) => a - b)] *)
Fixpoint insert_number (x : Q) (l : list Q) : list Q :=
  match l with
  | [] => [x]
  | y :: l' => if Qle_bool x y then x :: l else y :: insert_number x l'
  end.
Definition sort_numbers (l : list Q) : list Q := foldr insert_number [] l.

(** [sortedEigenvalues[1] - sortedEigenvalues[0]]; [None] is not a number. *)
Definition spectralGap (eigenvalues : list Q) : option Q :=
  match sort_numbers eigenvalues with a :: b :: _ => Some (b - a)%Q | _ => None end.

(** ** Places *)

Definition Place : Type := Q * Q.

(** What a tick sets: the ends of a line, the centre of a circle, the translation of a
    triangle or diamond, the corner of a square. *)
Record LinePlace := mkLine { x1 : Q; y1 : Q; x2 : Q; y2 : Q }.

Definition radius_of (p : Peer) : Q := match radius p with Some r => inject_Z r | None => 0 end.

Definition shape_place (s : Shape) (p : Peer) (at_ : Place) : Place :=
  match s with
  | Square => ((at_.1 - radius_of p)%Q, (at_.2 - radius_of p)%Q)
  | _ => at_
  end.

(** The centre of a shape that is drawn at a place: a square is twice its radius wide. *)
Definition centre (s : Shape) (p : Peer) (drawn : Place) : Place :=
  match s with
  | Square => ((drawn.1 + radius_of p * 2 / 2)%Q, (drawn.2 + radius_of p * 2 / 2)%Q)
  | _ => drawn
  end.

(** The simulation: the nodes and its parameters. *)
Record Simulation := mkSimulation {
  s_nodes : list Peer; linkDistance : Q; charge : Q; collideRadius : Q; s_centre : Place;
  targets : list Place
}.

Definition createSimulation (width height : Z) (sets : list PeerSet) (nodes : list Peer) : Simulation :=
  mkSimulation nodes (if Nat.eqb (length sets) 1 then 250 else 100) (-30)
    (if (length sets <? 3)%nat then 25 else 17)
    ((inject_Z width / 2)%Q, (inject_Z height / 2)%Q)
    ((fun p => (forceX width sets p, forceY height sets p)) <$> nodes).

(** ** The component *)

Section Graph.
Context `{Zoom}.

(** A group: its class, and the attribute [transform] if it was set. *)
Record Group := mkGroup { cls : string; transform : option Transform }.

Record Tooltip := mkTooltip { tip_text : string; tip_left : Q; tip_top : Q }.

(** [drawn] is [None] until the first drawing; [waiting] are the loads whose eigenvalues
    are computed. *)
Record Graph := mkGraph {
  width : Z; height : Z; svg_width : Z; zoom : Transform;
  groups : list Group;
  drawn : option Highlight;
  simulation : option Simulation;
  line_places : list LinePlace; shape_places : list (Shape * Peer * Place);
  fetching : bool; waiting : list (list Peer * list Link * list PeerSet);
  stored : option (list (list Z)); tooltip : option Tooltip
}.

Definition with_groups (gs : list Group) (t : Transform) (g : Graph) : Graph :=
  mkGraph (width g) (height g) (svg_width g) t gs (drawn g) (simulation g) (line_places g) (shape_places g)
    (fetching g) (waiting g) (stored g) (tooltip g).
Definition with_drawn (h : option Highlight) (g : Graph) : Graph :=
  mkGraph (width g) (height g) (svg_width g) (zoom g) (groups g) h (simulation g) (line_places g) (shape_places g)
    (fetching g) (waiting g) (stored g) (tooltip g).
Definition with_tooltip (t : option Tooltip) (g : Graph) : Graph :=
  mkGraph (width g) (height g) (svg_width g) (zoom g) (groups g) (drawn g) (simulation g) (line_places g)
    (shape_places g) (fetching g) (waiting g) (stored g) t.
Definition with_places (ls : list LinePlace) (ss : list (Shape * Peer * Place)) (g : Graph) : Graph :=
  mkGraph (width g) (height g) (svg_width g) (zoom g) (groups g) (drawn g) (simulation g) ls ss
    (fetching g) (waiting g) (stored g) (tooltip g).
Definition with_svg_width (w : Z) (g : Graph) : Graph :=
  mkGraph (width g) (height g) w (zoom g) (groups g) (drawn g) (simulation g) (line_places g) (shape_places g)
    (fetching g) (waiting g) (stored g) (tooltip g).

(** [ngOnInit] *)
Definition ngOnInit (w h : Z) : Graph :=
  mkGraph w h w zoomIdentity [] None None [] [] true [] None None.

(** [getG]: the group of the class, which is appended without a transformation. *)
Definition getG (c : string) (gs : list Group) : list Group :=
  if existsb (fun g => String.eqb (cls g) c) gs then gs else gs ++ [mkGroup c None].

Definition classes : list string := ["links"; "circles"; "triangles"; "squares"; "diamonds"].

Definition all_groups (gs : list Group) : list Group := fold_left (fun gs c => getG c gs) classes gs.

Definition with_links (ls : list Link) (h : Highlight) : Highlight :=
  mkHighlight (connections h) (strokes h) (elements h) (fills h) (borders h) ls (active h)
    (clickedConnectedLinks h) (hoveredConnectedLinks h).

(** The subscriber of the store up to the computation of the eigenvalues; the links are those
    of the new load from then on. *)
Definition store_emits (ps : list Peer) (ls : list Link) (sets : list PeerSet) (still : bool) (g : Graph) : Graph :=
  let '(fetching', passes) := listen (fetching g) ps ls still in
  mkGraph (width g) (height g) (svg_width g) (zoom g) (groups g)
    (if passes then with_links ls <$> drawn g else drawn g) (simulation g) (line_places g) (shape_places g) fetching'
    (if passes then waiting g ++ [(ps, ls, sets)] else waiting g)
    (if passes then Some (laplacianMatrix ps ls) else stored g) (tooltip g).

(** The new elements have the first colours; the active peer is still that of the component,
    and its clicked and hovered lines are elements that are gone. *)
Definition carried (old : option Highlight) (h : Highlight) : Highlight :=
  match old with
  | None => h
  | Some o => mkHighlight (connections h) (strokes h) (elements h) (fills h) (borders h) (graph_links h)
                (active o) ((fun _ => []) <$> clickedConnectedLinks o) ((fun _ => []) <$> hoveredConnectedLinks o)
  end.

(** [renderGraph], once the eigenvalues of the first load that waits are there; an error of
    the routine rejects the promise, and nothing is drawn. *)
Definition eigenvalues_come (r : result (list Q)) (g : Graph) : result Graph :=
  match waiting g, r with
  | [], _ => Ok g
  | _ :: rest, Throw _ =>
    Ok (mkGraph (width g) (height g) (svg_width g) (zoom g) (groups g) (drawn g) (simulation g) (line_places g)
          (shape_places g) (fetching g) rest (stored g) (tooltip g))
  | (ps, ls, sets) :: rest, Ok _ =>
    h ← renderGraph ps ls;
    mret (mkGraph (width g) (height g) (svg_width g) (zoom g) (all_groups (groups g)) (Some (carried (drawn g) h))
            (Some (createSimulation (width g) (height g) sets ps)) [] [] (fetching g) rest (stored g) (tooltip g))
  end.

Definition place_of (at_ : string -> Place) (l : string * string) : LinePlace :=
  mkLine (at_ l.1).1 (at_ l.1).2 (at_ l.2).1 (at_ l.2).2.

(** The listener of a tick; [at_] are the places of the nodes by address. *)
Definition tick (at_ : string -> Place) (g : Graph) : Graph :=
  match drawn g, simulation g with
  | Some h, Some s =>
    with_places (place_of at_ <$> connections h)
      (flat_map (fun sh => (fun p => (sh, p, shape_place sh p (at_ (address p)))) <$> shape_nodes sh (s_nodes s))
         [Circle; Triangle; Square; Diamond]) g
  | _, _ => g
  end.

(** [mouseOverHandle] up to the colours; the text without its markup. *)
Definition tooltip_of (p : Peer) (left_ w top_ tipWidth : Q) : Tooltip :=
  mkTooltip (default (address p) (node_name p) +:+ ", " +:+ "→ " +:+
             default "undefined" ((fun n => show (Z.of_nat n)) <$> incomingConnections p) +:+ " / " +:+
             default "undefined" ((fun n => show (Z.of_nat n)) <$> outgoingConnections p) +:+ " →")
    (left_ + w / 2 - tipWidth / 2)%Q (top_ - 50)%Q.

Inductive Event :=
| Store (ps : list Peer) (ls : list Link) (sets : list PeerSet) (still : bool)
| Eigenvalues (r : result (list Q))
| Tick (at_ : string -> Place)
| Activate (a : option string)
| Over (e : nat) (p : Peer) (left_ w top_ tipWidth : Q)
| Out (e : nat) (p : Peer)
| Zoomed (t : Transform)
| ZoomIn | ZoomOut | ZoomReset
| PanelMoved (offsetWidth : Z).

Definition zoomed (t : Transform) (g : Graph) : Graph :=
  with_groups ((fun x => mkGroup (cls x) (Some t)) <$> groups g) t g.

(** The colours change only what is drawn; before the first drawing the selections are
    undefined. *)
Definition on_drawn (f : Highlight -> result Highlight) (g : Graph) : result Graph :=
  match drawn g with
  | Some h => h' ← f h; mret (with_drawn (Some h') g)
  | None => Throw type_error
  end.

Definition step (e : Event) (g : Graph) : result Graph :=
  match e with
  | Store ps ls sets still => Ok (store_emits ps ls sets still g)
  | Eigenvalues r => eigenvalues_come r g
  | Tick at_ => Ok (tick at_ g)
  | Activate None => match drawn g with None => Ok g | Some _ => on_drawn (activate None) g end
  | Activate (Some a) => on_drawn (activate (Some a)) g
  | Over e p l w t tw => on_drawn (mouseOver e (address p)) (with_tooltip (Some (tooltip_of p l w t tw)) g)
  | Out e p => on_drawn (mouseOut e (address p)) (with_tooltip None g)
  | Zoomed t => Ok (zoomed t g)
  | ZoomIn => Ok (zoomed (scaleBy (15 # 10) (zoom g)) g)
  | ZoomOut => Ok (zoomed (scaleBy (5 # 10) (zoom g)) g)
  | ZoomReset => Ok (zoomed zoomIdentity g)
  | PanelMoved w => Ok (with_svg_width w g)
  end.

Fixpoint run (es : list Event) (g : Graph) : result Graph :=
  match es with
  | [] => Ok g
  | e :: es => g1 ← step e g; run es g1
  end.
End Graph.

(** ** The spectral gap *)

Definition sorted (l : list Q) : Prop := forall i a b, l !! i = Some a -> l !! S i = Some b -> (a <= b)%Q.

Lemma sorted_cons x l : (forall y, head l = Some y -> (x <= y)%Q) -> sorted l -> sorted (x :: l).
Proof. intros Hx Hl [|i] a b Ha Hb; [|by apply (Hl i)]. injection Ha as <-. apply Hx. by destruct l. Qed.

Lemma insert_sorted x l : sorted l -> sorted (insert_number x l).
Proof.
  induction l as [|y l IH]; intros Hl; [intros [|i] a b Ha Hb; [discriminate Hb|destruct i; discriminate Hb]|]. cbn.
  destruct (Qle_bool x y) eqn:E.
  - apply sorted_cons; [|done]. intros ? [= <-]. by apply Qle_bool_iff.
  - apply sorted_cons; [|apply IH; intros i a b; apply (Hl (S i))]. intros z Hz.
    assert (Hyx : (y <= x)%Q).
    { destruct (Qlt_le_dec y x); [by apply Qlt_le_weak|]. exfalso. apply Qle_bool_iff in q. congruence. }
    destruct l as [|w l]; cbn in Hz; [by injection Hz as <-|].
    destruct (Qle_bool x w); injection Hz as <-; [done|]. by apply (Hl 0%nat).
Qed.

(** The gap of any eigenvalues is not negative. *)
Lemma gap_nonnegative l gap : spectralGap l = Some gap -> (0 <= gap)%Q.
Proof.
  assert (Hs : sorted (sort_numbers l)).
  { induction l as [|x l IH]; [by intros [|i] a b|]. by apply insert_sorted. }
  unfold spectralGap. destruct (sort_numbers l) as [|a [|b r]]; [done|done|]. intros [= <-].
  specialize (Hs 0%nat a b eq_refl eq_refl). lra.
Qed.

(** ** Lines and shapes *)

Section Graphs.
Context `{Zoom}.

(** After a tick every line begins and ends at the centre of every shape of its peers. *)
Theorem tick_attached (at_ : string -> Place) (g : Graph) h s i a b l :
  drawn g = Some h -> simulation g = Some s -> connections h !! i = Some (a, b) ->
  line_places (tick at_ g) !! i = Some l ->
  forall sh p pl, (sh, p, pl) ∈ shape_places (tick at_ g) ->
    (address p = a -> (x1 l == (centre sh p pl).1)%Q /\ (y1 l == (centre sh p pl).2)%Q) /\
    (address p = b -> (x2 l == (centre sh p pl).1)%Q /\ (y2 l == (centre sh p pl).2)%Q).
Proof.
  intros Hd Hs Hc Hl sh p pl Hp. unfold tick in *. rewrite Hd, Hs in *. cbn in Hl, Hp.
  rewrite list_lookup_fmap, Hc in Hl. injection Hl as <-. cbn.
  assert (Hpl : pl = shape_place sh p (at_ (address p))).
  { rewrite app_nil_r, !elem_of_app, !list_elem_of_fmap in Hp.
    destruct Hp as [(q & E & _)|[(q & E & _)|[(q & E & _)|(q & E & _)]]]; injection E as -> -> ->; done. }
  subst pl. split; intros <-; destruct sh; cbn; split; try reflexivity; field.
Qed.

(** ** Zoom *)

Definition group_follows (g : Graph) (x : Group) : Prop := transform x = None \/ transform x = Some (zoom g).

Lemma getG_keeps (P : Group -> Prop) c gs : (forall c', P (mkGroup c' None)) -> Forall P gs -> Forall P (getG c gs).
Proof. intros Hn Hg. unfold getG. destruct (existsb _ gs); [done|]. apply Forall_app. by split; [|repeat constructor]. Qed.

Lemma all_groups_keep (P : Group -> Prop) gs : (forall c, P (mkGroup c None)) -> Forall P gs -> Forall P (all_groups gs).
Proof.
  intros Hn. unfold all_groups. generalize classes. intros cs. revert gs.
  induction cs as [|c cs IH]; intros gs Hg; [done|]. cbn. apply IH. by apply getG_keeps.
Qed.

Definition event_within (e : Event) : Prop :=
  match e with Zoomed t => ((1 # 10) <= scale t <= 10)%Q | _ => True end.

Definition zoom_ok (g : Graph) : Prop :=
  Forall (group_follows g) (groups g) /\ ((1 # 10) <= scale (zoom g) <= 10)%Q.

Lemma zoomed_ok t g : ((1 # 10) <= scale t <= 10)%Q -> zoom_ok (zoomed t g).
Proof.
  intros Ht. split; [|done]. cbn. apply Forall_fmap, Forall_true. intros x. by right.
Qed.

Lemma step_zoom e g g' : zoom_ok g -> event_within e -> step e g = Ok g' -> zoom_ok g'.
Proof.
  intros [Hg Hz] He E.
  assert (Hdrawn : forall f g0, on_drawn f g0 = Ok g' -> groups g0 = groups g -> zoom g0 = zoom g -> zoom_ok g').
  { intros f g0. unfold on_drawn. destruct (drawn g0) as [h|]; [|done]. destruct (f h); [|done].
    intros [= <-] E1 E2. unfold zoom_ok, group_follows. cbn. rewrite E1, E2. by split. }
  destruct e as [ps ls sets still|r|at_|a|e p l w t tw|e p|t| | | |w]; cbn [step] in E.
  - injection E as <-. unfold store_emits. destruct (listen _ ps ls still). by split.
  - unfold eigenvalues_come in E. destruct (waiting g) as [|[[ps ls] sets] rest]; [by injection E as <-|].
    destruct r; [|injection E as <-; by split]. destruct (renderGraph ps ls) as [h|]; [|done]. injection E as <-.
    split; [|done]. apply (all_groups_keep (group_follows _)); [by left|exact Hg].
  - injection E as <-. unfold tick. destruct (drawn g), (simulation g); by split.
  - destruct a; [by eapply Hdrawn|]. destruct (drawn g); [by eapply Hdrawn|injection E as <-; by split].
  - by eapply Hdrawn.
  - by eapply Hdrawn.
  - injection E as <-. by apply zoomed_ok.
  - injection E as <-. apply zoomed_ok, scale_within.
  - injection E as <-. apply zoomed_ok, scale_within.
  - injection E as <-. apply zoomed_ok. rewrite scale_identity. split; reflexivity || discriminate.
  - injection E as <-. by split.
Qed.

(** Through any sequence of events the groups have the transformation of the zoom, or none,
    and the scale stays between a tenth and ten. *)
Theorem groups_follow (w h : Z) (es : list Event) (g : Graph) :
  Forall event_within es -> run es (ngOnInit w h) = Ok g -> zoom_ok g.
Proof.
  assert (H0 : zoom_ok (ngOnInit w h)).
  { split; [constructor|]. cbn. rewrite scale_identity. split; discriminate. }
  revert H0. generalize (ngOnInit w h). intros g0 H0 Hes. revert g0 H0.
  induction Hes as [|e es He _ IH]; intros g0 H0 E; cbn [run] in E; [by injection E as <-|].
  destruct (step e g0) as [g1|] eqn:E1; [|done]. apply (IH g1); [by eapply step_zoom|exact E].
Qed.

(** A zoom before the first drawing is not applied to the groups that are drawn then. *)
Lemma late_groups_unzoomed w h t ps ls sets vals hl g :
  renderGraph ps ls = Ok hl -> listen true ps ls false = (false, true) ->
  run [Zoomed t; Store ps ls sets false; Eigenvalues (Ok vals)] (ngOnInit w h) = Ok g ->
  zoom g = t /\ length (groups g) = 5%nat /\ Forall (fun x => transform x = None) (groups g).
Proof.
  intros Hr Hl E. cbn [run step mbind result_bind] in E. unfold store_emits, zoomed in E. cbn in E.
  rewrite Hl in E. cbn in E. rewrite Hr in E. cbn in E. injection E as <-. cbn.
  split; [done|]. split; [done|]. by repeat constructor.
Qed.

(** A peer that is selected while a load runs is still the active one after the drawing of
    that load, but none of the new shapes has its colour. *)
Lemma reload_loses_highlight (o h : Highlight) ps ls a :
  renderGraph ps ls = Ok h -> active o = Some a ->
  active (carried (Some o) h) = Some a /\ SelectedPrimary ∉ fills (carried (Some o) h) /\
  Selected ∉ strokes (carried (Some o) h).
Proof.
  intros Hr Ha. unfold renderGraph in Hr. destruct (lines ps ls); [|done]. destruct (all_ends _); [|done].
  injection Hr as <-. cbn. split; [done|].
  split; intros Hin%list_elem_of_lookup_1; destruct Hin as [i Hi]; apply lookup_replicate in Hi as [? _]; done.
Qed.

(** A graph that is selected in before it was drawn raises. *)
Lemma early_selection_raises w h a : step (Activate (Some a)) (ngOnInit w h) = Throw type_error.
Proof. reflexivity. Qed.

(** Without eigenvalues the load is not drawn. *)
Lemma failed_eigenvalues msg (g g' : Graph) :
  eigenvalues_come (Throw msg) g = Ok g' -> drawn g' = drawn g /\ groups g' = groups g.
Proof. unfold eigenvalues_come. destruct (waiting g) as [|[[ps ls] sets] rest]; by intros [= <-]. Qed.
End Graphs.
End SplitsDrawing.
