(* ===== verification/Application.v ===== *)
(** * The application and its active node

    [app.effects.ts], [app.component.ts], [core/services/rust.service.ts] and the actions of
    [layout/node-picker] of [src/frontend/src/app] together: the store of [AppStore], the
    node the requests go to, the address of the browser, and the requests for the details
    and the build of the node.

    [onNodeChange$] is an effect that does not dispatch. An effect that raises is subscribed
    to again by the framework, a limited number of times, which is a parameter. A navigation
    replaces one that has not been completed, and one without [queryParamsHandling] drops
    the query of the address. The start of a web node is [WebNodeService]; here its end is an event. *)

From Stdlib Require Import ZArith Lia.
From stdpp Require Import base list strings.
From S2P Require Import Prelude SharedLib AppStore.

Module Application.
Import AppStore.
Open Scope Z_scope.

(** ** The parts *)

(** [progress] is the field [requestInProgress], [asked] the target of the request for the
    details, [builds] those of the requests for the build, in their order, and [errors] the
    number of errors [onNodeChange$] has raised. *)
Record World := mkWorld {
  app : App.State * option App.Storage;
  rust : option MinaNode;
  page : string; query : option string;
  progress : bool; asked : option (result Rust.Target);
  builds : list (result Rust.Target);
  errors : nat
}.

Definition with_app (a : App.State * option App.Storage) (w : World) : World :=
  mkWorld a (rust w) (page w) (query w) (progress w) (asked w) (builds w) (errors w).
Definition with_rust (n : option MinaNode) (w : World) : World :=
  mkWorld (app w) n (page w) (query w) (progress w) (asked w) (builds w) (errors w).
Definition with_address (p : string) (q : option string) (w : World) : World :=
  mkWorld (app w) (rust w) p q (progress w) (asked w) (builds w) (errors w).
Definition with_details (b : bool) (t : option (result Rust.Target)) (w : World) : World :=
  mkWorld (app w) (rust w) (page w) (query w) b t (builds w) (errors w).
Definition with_builds (l : list (result Rust.Target)) (w : World) : World :=
  mkWorld (app w) (rust w) (page w) (query w) (progress w) (asked w) l (errors w).
Definition raised (w : World) : World :=
  mkWorld (app w) (rust w) (page w) (query w) (progress w) (asked w) (builds w) (S (errors w)).

Definition active (w : World) : option MinaNode := App.activeNode (app w).1.

Definition reduce (a : App.Action) (w : World) : World := with_app (App.appReducer (app w) a) w.

(** [RustService.get] on its node *)
Definition rust_get (path : string) (w : World) : result Rust.Target :=
  match rust w with
  | Some n => Rust.get n path
  | None => Throw "Cannot read properties of undefined (reading 'isWebNode')"
  end.

Section Node.
Context `{HasValue} (env : Config.Env) (retries : nat).

(** [getNodeEnvBuild$]: every action asks, whatever is in flight. *)
Definition getNodeEnvBuild (w : World) : World := with_builds (builds w ++ [rust_get "/build_env" w]) w.


(** [onNodeChange$] up to the start of a web node: the actions of its last operator are not
    dispatched. What was done before it raises stays. *)
Definition onNodeChange (w : World) : World :=
  let w1 := with_rust (active w) w in
  match active w with
  | None => raised w1
  | Some n =>
    let w2 := with_address (page w1) (Some (node_name n)) w1 in
    match Config.isFeatureEnabled env n (page w1) with
    | Throw _ => raised w2
    | Ok true => w2
    | Ok false =>
      match Config.getFirstFeature env true (Some n) with
      | Ok (Some f) => with_address f None w1
      | Ok None | Throw _ => raised w2
      end
    end
  end.

Inductive Event :=
| SelectNode (n : MinaNode)
| AddNode (n : MinaNode)
| DeleteNode (n : MinaNode)
| Timer
| Details (o : outcome App.NodeDetails)
| WebNodeStarted
| Build (i : nat) (o : outcome string)
| Visit (p : string).

(** The actions an effect puts on the store. *)
Definition reduce_all (l : list (dispatched App.Action)) (w : World) : World :=
  fold_left (fun w d => match d with Dispatch a => reduce a w | ErrorAdd _ => w end) l w.

(** A request for the build that fails ends the others: the effect subscribes again. *)
Definition step (now : string) (e : Event) (w : World) : World :=
  match e with
  | SelectNode n =>
    if bool_decide (active w = Some n) then w
    else
      let w1 := reduce (App.ChangeActiveNode n) w in
      if (errors w <=? retries)%nat then onNodeChange w1 else w1
  | AddNode n => reduce (App.AddNode n) w
  | DeleteNode n => reduce (App.DeleteNode n) w
  | Timer => if progress w then w else with_details true (Some (rust_get "/status" w)) w
  | Details o =>
    match asked w with
    | None => w
    | Some _ =>
      reduce_all (catchErrorAndRepeat now GENERIC (App.GetNodeDetailsSuccess App.offlineDetails)
                    match o with Next d => Next (App.GetNodeDetailsSuccess d) | Failed err => Failed err end)
        (with_details false None w)
    end
  | WebNodeStarted => getNodeEnvBuild w
  | Build i o =>
    match builds w !! i with
    | None => w
    | Some _ =>
      let rest := match o with Next _ => list_delete i (builds w) | Failed _ => [] end in
      reduce_all (App.getNodeEnvBuild now o) (with_builds rest w)
    end
  | Visit p => with_address p (query w) w
  end.



(** ** The requests go to the active node *)







Lemma change_active n w : active (reduce (App.ChangeActiveNode n) w) = Some n.
Proof. unfold active, reduce. cbn. by destruct (app w). Qed.













End Node.


(** ** An example and the limits *)





Section Limits.
Context `{HasValue} (env : Config.Env) (retries : nat).

(** A change of the node asks for neither its build nor its details: the store keeps those of
    the node before. *)
Lemma build_not_requested now n w :
  let w' := step env retries now (SelectNode n) w in
  builds w' = builds w /\ asked w' = asked w /\ App.envBuild (app w').1 = App.envBuild (app w).1.
Proof.
  cbn [step]. case_bool_decide; [done|]. cbn zeta.
  assert (Hk : App.envBuild (app (reduce (App.ChangeActiveNode n) w)).1 = App.envBuild (app w).1)
    by (unfold reduce; cbn; by destruct (app w)).
  destruct (errors w <=? retries)%nat; [|done]. unfold onNodeChange. rewrite change_active.
  destruct (Config.isFeatureEnabled _ _ _) as [[]|]; [done| |done].
  by destruct (Config.getFirstFeature _ _ _) as [[f|]|].
Qed.

(** When the active node is deleted the store has another one, and the requests still go to
    the deleted node. *)
Lemma deleted_node_asked now w n m ns :
  active w = Some n -> rust w = Some n -> App.nodes (app w).1 = n :: m :: ns -> node_name m <> node_name n ->
  let w' := step env retries now (DeleteNode n) w in
  active w' = Some m /\ rust_get "/status" w' = Rust.get n "/status".
Proof.
  intros Ha Hr Hns Hne. unfold active, reduce, rust_get in *. cbn.
  destruct (app w) as [s st]. cbn in *. rewrite Ha, Hns, Hr. rewrite String.eqb_refl. cbn.
  unfold App.not_named. rewrite String.eqb_refl. cbn. destruct (String.eqb_spec (node_name m) (node_name n)); done.
Qed.

(** When the page of the address is not one of the new node, the address loses the node: a
    reload starts with the first node again. *)
Lemma change_forgotten now n w c cs storage f :
  Config.configs env = c :: cs -> active w <> Some n -> (errors w <= retries)%nat ->
  Config.isFeatureEnabled env n (page w) = Ok false -> Config.getFirstFeature env true (Some n) = Ok (Some f) ->
  let w' := step env retries now (SelectNode n) w in
  page w' = f /\ query w' = None /\
  App.getActiveNode (query w') (App.getNodes (Config.configs env) storage) = Some c.
Proof.
  intros Hc Hne Hr Hf Hff. cbn [step]. rewrite bool_decide_false by done. cbn zeta.
  apply Nat.leb_le in Hr. rewrite Hr. unfold onNodeChange. rewrite change_active.
  assert (Hp : page (with_rust (Some n) (reduce (App.ChangeActiveNode n) w)) = page w) by done.
  rewrite Hp, Hf, Hff. split; [done|]. split; [done|]. cbn. unfold App.getActiveNode, App.getNodes. rewrite Hc.
  assert (Hnone : forall l, List.find (fun c => bool_decide (Some (node_name c) = None)) l = None).
  { induction l as [|x l IH]; [done|]. exact IH. }
  by rewrite Hnone.
Qed.

(** The answer of the node before, which was asked in time, is written as that of the new
    node. *)
Lemma late_details now d n w t :
  asked w = Some t ->
  let w' := step env retries now (SelectNode n) w in
  let w'' := step env retries now (Details (Next d)) w' in
  App.activeNodeDetails (app w'').1 = d /\ active w'' = active w'.
Proof.
  intros Ht. cbn zeta. destruct (build_not_requested now n w) as (_ & Ha & _).
  set (w' := step _ _ _ (SelectNode n) w) in *. clearbody w'. cbn [step]. rewrite Ha, Ht.
  unfold active, reduce_all, reduce. cbn. by destruct (app w').
Qed.
End Limits.

End Application.
