(* ===== verification/EpochGraphs.v ===== *)
(** * The graphs of the epochs

    [features/block-production/overview/epoch-graphs] of [src/frontend/src/app]: the bars
    above the overview, one group for each epoch of the store of [BlockOverview]. The height
    of a bar is a percentage, in the linear scale a share of 238 slots, in the adaptive one
    a logarithm over that of the greatest count of all epochs.

    Numbers are real, with the infinities and the missing number of JavaScript: the rounding
    of doubles is left out, and so is the sign of a zero. *)

From Stdlib Require Import Reals Lra Lia ZArith.
From stdpp Require Import base sets list strings.
From S2P Require Import Prelude SharedLib BlockOverview.

Module EpochGraphs.
Import BlockOverview.
Open Scope Z_scope.

(** ** Numbers *)

Inductive num := Fin (r : R) | PosInf | NegInf | NaN.

Definition log10 (z : Z) : num :=
  if z <? 0 then NaN else if z =? 0 then NegInf else Fin (ln (IZR z) / ln 10).

Definition ceiling (r : R) : Z := - Int_part (- r).

Definition ceil (x : num) : num :=
  match x with Fin r => Fin (IZR (ceiling r)) | _ => x end.

(** A division by a zero, which is positive here *)
Definition over_zero (a : R) : num :=
  if Req_dec_T a 0 then NaN else if Rlt_dec a 0 then NegInf else PosInf.

Definition div (x y : num) : num :=
  match x, y with
  | NaN, _ | _, NaN => NaN
  | Fin a, Fin b => if Req_dec_T b 0 then over_zero a else Fin (a / b)
  | Fin _, _ => Fin 0
  | PosInf, Fin b => if Rlt_dec b 0 then NegInf else PosInf
  | NegInf, Fin b => if Rlt_dec b 0 then PosInf else NegInf
  | _, _ => NaN
  end.

Definition times100 (x : num) : num := match x with Fin r => Fin (r * 100) | _ => x end.

(** ** The component *)

(** [max] is [None] for the minus infinity of a maximum of nothing. *)
Record Graphs := mkGraphs {
  g_epochs : list Epoch;
  g_active : option Epoch;
  max : option Z;
  g_scale : Scale
}.

Definition initial : Graphs := mkGraphs [] None None adaptive.

(** [Math.max] with any number of arguments *)
Definition maximum (l : list (option Z)) : option Z :=
  foldr (fun x m => match x, m with
                    | Some a, Some b => Some (Z.max a b)
                    | Some a, None => Some a
                    | None, _ => m
                    end) None l.

Definition window_max (w : Window) : option Z :=
  maximum [Some (w_canonical w); Some (w_orphaned w); Some (w_missed w); Some (w_futureRights w)].

Definition epoch_max (e : Epoch) : result (option Z) :=
  match windows e with
  | Some ws => Ok (maximum (window_max <$> ws))
  | None => Throw "Cannot read properties of undefined (reading 'map')"
  end.

Fixpoint maxima (l : list Epoch) : result (list (option Z)) :=
  match l with
  | [] => Ok []
  | e :: l => m ← epoch_max e; ms ← maxima l; Ok (m :: ms)
  end.

Inductive Emission := EScale (s : Scale) | EEpochs (l : list Epoch) | EActive (e : option Epoch).

(** [listenToScale], [listenToEpochs] *)
Definition step (e : Emission) (g : Graphs) : result Graphs :=
  match e with
  | EScale s => Ok (mkGraphs (g_epochs g) (g_active g) (max g) s)
  | EEpochs [] => Ok g
  | EEpochs l => ms ← maxima l; Ok (mkGraphs l (g_active g) (maximum ms) (g_scale g))
  | EActive a => Ok (mkGraphs (g_epochs g) a (max g) (g_scale g))
  end.

Fixpoint steps (es : list Emission) (g : Graphs) : result Graphs :=
  match es with
  | [] => Ok g
  | e :: es => g1 ← step e g; steps es g1
  end.

Definition getHeight (g : Graphs) (data : Z) : num :=
  match g_scale g with
  | linear => Fin (IZR (data * 100) / 238)
  | adaptive =>
    let base := ceil match max g with Some m => log10 m | None => NaN end in
    times100 (div (log10 (data + 1)) base)
  end.

(** The count above the axis: the future rights of a window in which nothing has happened *)
Definition positive (w : Window) : Z :=
  if (w_canonical w =? 0) && (w_orphaned w =? 0) && (w_missed w =? 0) then w_futureRights w else w_canonical w.

(** The counts of the bars of a window: above the axis, and below it *)
Definition counts (w : Window) : list Z := [positive w; w_orphaned w; w_missed w].

Definition bars (g : Graphs) : list num :=
  e ← g_epochs g; w ← default [] (windows e); getHeight g <$> counts w.

Definition drawn_active (g : Graphs) (e : Epoch) : bool :=
  bool_decide ((a ← g_active g; epochNumber a) = epochNumber e).

(** ** The logarithm *)

Definition lg (z : Z) : R := (ln (IZR z) / ln 10)%R.

Lemma ln10_pos : (0 < ln 10)%R.
Proof. rewrite <- ln_1. apply ln_increasing; lra. Qed.

Lemma lg_le a b : 0 < a -> a <= b -> (lg a <= lg b)%R.
Proof.
  intros Ha Hab. unfold lg, Rdiv. apply Rmult_le_compat_r; [left; apply Rinv_0_lt_compat, ln10_pos|].
  apply IZR_le in Hab. apply IZR_lt in Ha. destruct (Req_dec (IZR a) (IZR b)) as [->|Hne]; [lra|].
  left. apply ln_increasing; lra.
Qed.

Lemma lg_lt a b : 0 < a -> a < b -> (lg a < lg b)%R.
Proof.
  intros Ha Hab. unfold lg, Rdiv. apply Rmult_lt_compat_r; [apply Rinv_0_lt_compat, ln10_pos|].
  apply IZR_lt in Hab. apply IZR_lt in Ha. by apply ln_increasing.
Qed.

Lemma lg_pow k : 0 <= k -> lg (10 ^ k) = IZR k.
Proof.
  intros Hk. unfold lg. rewrite <- (Z2Nat.id k Hk), <- pow_IZR, ln_pow by lra.
  rewrite <- INR_IZR_INZ. field. pose proof ln10_pos. lra.
Qed.

Lemma lg_one : lg 1 = 0%R.
Proof. exact (lg_pow 0 ltac:(lia)). Qed.

Lemma ceiling_spec r : (IZR (ceiling r) - 1 < r <= IZR (ceiling r))%R.
Proof. unfold ceiling. rewrite opp_IZR. destruct (base_Int_part (- r)). lra. Qed.

Lemma ceiling_int k : ceiling (IZR k) = k.
Proof.
  pose proof (ceiling_spec (IZR k)) as [H1 H2]. apply le_IZR in H2.
  rewrite <- minus_IZR in H1. apply lt_IZR in H1. lia.
Qed.

(** The base of the scale is the number of digits that the maximum needs. *)
Lemma base_spec m : 2 <= m -> 1 <= ceiling (lg m) /\ 10 ^ (ceiling (lg m) - 1) < m <= 10 ^ ceiling (lg m).
Proof.
  intros Hm. set (k := ceiling (lg m)). pose proof (ceiling_spec (lg m)) as [H1 H2]. fold k in H1, H2.
  assert (Hk : 1 <= k).
  { assert (H0 : (0 < lg m)%R) by (rewrite <- lg_one; apply lg_lt; lia).
    assert (H3 : (0 < IZR k)%R) by lra. apply lt_IZR in H3. lia. }
  split; [done|]. rewrite <- minus_IZR, <- lg_pow in H1 by lia. rewrite <- lg_pow in H2 by lia. split.
  - destruct (Z_lt_le_dec (10 ^ (k - 1)) m) as [|Hle]; [done|]. apply lg_le in Hle; [lra|lia].
  - destruct (Z_lt_le_dec (10 ^ k) m) as [Hlt|]; [|done]. apply lg_lt in Hlt; [lra|]. by apply Z.pow_pos_nonneg; lia.
Qed.

Lemma log10_pos z : 0 < z -> log10 z = Fin (lg z).
Proof.
  intros Hz. unfold log10. destruct (Z.ltb_spec z 0); [lia|]. destruct (Z.eqb_spec z 0); [lia|]. done.
Qed.

Lemma adaptive_height g m data :
  g_scale g = adaptive -> max g = Some m -> 2 <= m -> 0 <= data ->
  getHeight g data = Fin (lg (data + 1) / IZR (ceiling (lg m)) * 100).
Proof.
  intros Hs Hm H2 Hd. unfold getHeight. rewrite Hs, Hm, !log10_pos by lia. cbn.
  destruct (base_spec m H2) as [Hb _]. apply IZR_le in Hb.
  destruct (Req_dec_T _ 0) as [E|_]; [lra|done].
Qed.

(** ** The maximum *)

Definition bounds (l : list (option Z)) (m : option Z) : Prop :=
  forall x, Some x ∈ l -> exists y, m = Some y /\ x <= y.

Lemma maximum_bounds l : bounds l (maximum l).
Proof.
  intros x Hx. induction l as [|a l IH]; [by apply not_elem_of_nil in Hx|].
  apply elem_of_cons in Hx as [<-|Hx]; cbn; fold (maximum l).
  - destruct (maximum l) as [b|]; eexists; (split; [done|lia]).
  - destruct (IH Hx) as (y & Hy & Hle). rewrite Hy. destruct a; eexists; (split; [done|lia]).
Qed.

Lemma maxima_elem l ms e : maxima l = Ok ms -> e ∈ l -> exists ws, windows e = Some ws /\ maximum (window_max <$> ws) ∈ ms.
Proof.
  revert ms. induction l as [|e' l IH]; intros ms Hms He; [by apply not_elem_of_nil in He|]. cbn in Hms.
  destruct (epoch_max e') as [m|] eqn:Em; [|done]. cbn in Hms. destruct (maxima l) as [ms'|]; [|done].
  injection Hms as <-. apply elem_of_cons in He as [<-|He].
  - unfold epoch_max in Em. destruct (windows e) as [ws|]; [|done]. injection Em as <-. exists ws.
    split; [done|]. apply elem_of_cons. by left.
  - destruct (IH _ eq_refl He) as (ws & Hw & Hin). exists ws. split; [done|]. apply elem_of_cons. by right.
Qed.

(** The maximum of the component bounds the counts of the epochs it shows. *)
Definition bounded (g : Graphs) : Prop :=
  forall e ws w c, e ∈ g_epochs g -> windows e = Some ws -> w ∈ ws -> c ∈ counts w ->
  exists m, max g = Some m /\ c <= m.

Lemma counts_window w c : c ∈ counts w -> exists y, window_max w = Some y /\ c <= y.
Proof.
  intros Hc. assert (Hin : Some c ∈ [Some (w_canonical w); Some (w_orphaned w); Some (w_missed w); Some (w_futureRights w)]).
  { unfold counts, positive in Hc. destruct (_ && _); set_solver. }
  exact (maximum_bounds _ c Hin).
Qed.

Lemma step_bounded e g g' : step e g = Ok g' -> bounded g -> bounded g'.
Proof.
  destruct e as [s|[|e0 l]|a]; cbn [step]; try (intros [= <-]; done).
  destruct (maxima (e0 :: l)) as [ms|] eqn:Ems; [|done]. intros [= <-] _ e ws w c He Hws Hw Hc. cbn in He |- *.
  destruct (maxima_elem _ _ _ Ems He) as (ws' & Hws' & Hin). rewrite Hws in Hws'. injection Hws' as <-.
  destruct (counts_window w c Hc) as (y & Hy & Hcy).
  assert (Hyin : Some y ∈ window_max <$> ws) by (apply list_elem_of_fmap; by exists w).
  destruct (maximum_bounds _ y Hyin) as (z & Hz & Hyz). rewrite Hz in Hin.
  destruct (maximum_bounds ms z Hin) as (m & Hm & Hzm). exists m. split; [done|lia].
Qed.

Lemma steps_bounded es g g' : steps es g = Ok g' -> bounded g -> bounded g'.
Proof.
  revert g. induction es as [|e es IH]; intros g E Hg; cbn [steps] in E; [by injection E as <-|].
  destruct (step e g) as [g1|] eqn:E1; [|done]. apply (IH g1 E). by apply (step_bounded e g).
Qed.

Lemma bars_elem g h :
  h ∈ bars g -> exists e ws w c, e ∈ g_epochs g /\ windows e = Some ws /\ w ∈ ws /\ c ∈ counts w /\ h = getHeight g c.
Proof.
  unfold bars. intros (e & Hh & He)%list_elem_of_bind. apply list_elem_of_bind in Hh as (w & Hh & Hw).
  apply list_elem_of_fmap in Hh as (c & -> & Hc). destruct (windows e) as [ws|] eqn:Ews; [|by apply not_elem_of_nil in Hw].
  by exists e, ws, w, c.
Qed.

(** ** The bars fit *)

Definition natural_counts (g : Graphs) : Prop :=
  forall e ws w c, e ∈ g_epochs g -> windows e = Some ws -> w ∈ ws -> c ∈ counts w -> 0 <= c.

Lemma height_range g m c :
  g_scale g = adaptive -> max g = Some m -> 2 <= m -> (forall k, 0 <= k -> m <> 10 ^ k) -> 0 <= c -> c <= m ->
  exists r, getHeight g c = Fin r /\ (0 <= r <= 100)%R.
Proof.
  intros Hs Hm H2 Hp Hc Hcm. eexists. split; [by apply adaptive_height|].
  destruct (base_spec m H2) as (Hb & _ & Hle). set (b := ceiling (lg m)) in *.
  assert (Hlt : c + 1 <= 10 ^ b) by (specialize (Hp b ltac:(lia)); lia).
  assert (H0 : (0 <= lg (c + 1))%R) by (rewrite <- lg_one; apply lg_le; lia).
  assert (H1 : (lg (c + 1) <= IZR b)%R) by (rewrite <- lg_pow by lia; apply lg_le; lia).
  apply IZR_le in Hb. assert (Hdiv : (0 <= lg (c + 1) / IZR b <= 1)%R); [|lra]. split.
  - apply Rmult_le_pos; [done|]. left. apply Rinv_0_lt_compat. lra.
  - apply Rmult_le_reg_r with (IZR b); [lra|]. unfold Rdiv. rewrite Rmult_assoc, Rinv_l by lra. lra.
Qed.

Lemma height_grows g m c d :
  g_scale g = adaptive -> max g = Some m -> 2 <= m -> 0 <= c -> c < d ->
  exists r s, getHeight g c = Fin r /\ getHeight g d = Fin s /\ (r < s)%R.
Proof.
  intros Hs Hm H2 Hc Hcd. do 2 eexists. split; [by apply adaptive_height|].
  split; [apply adaptive_height; (done || lia)|]. destruct (base_spec m H2) as [Hb _]. apply IZR_le in Hb.
  apply Rmult_lt_compat_r; [lra|]. apply Rmult_lt_compat_r; [apply Rinv_0_lt_compat; lra|]. apply lg_lt; lia.
Qed.

(** C30: Whatever the store emits, in whatever order, when the adaptive scale is on and the
    greatest count of the epochs shown is at least two and no power of ten, every bar of
    every window is drawn with a height between 0 and 100 percent, and a greater count has
    a higher bar. *)
Theorem heights_fit (es : list Emission) (g : Graphs) (m : Z) :
  steps es initial = Ok g -> g_scale g = adaptive -> max g = Some m -> 2 <= m ->
  (forall k, 0 <= k -> m <> 10 ^ k) -> natural_counts g ->
  (forall h, h ∈ bars g -> exists r, h = Fin r /\ (0 <= r <= 100)%R) /\
  (forall c d, 0 <= c -> c < d -> exists r s, getHeight g c = Fin r /\ getHeight g d = Fin s /\ (r < s)%R).
Proof.
  intros E Hs Hm H2 Hp Hn. split; [|intros c d; by apply (height_grows g m)].
  assert (Hb : bounded g) by (apply (steps_bounded es initial g E); intros ? ? ? ? []%not_elem_of_nil).
  intros h (e & ws & w & c & He & Hws & Hw & Hc & ->)%bars_elem.
  destruct (Hb e ws w c He Hws Hw Hc) as (m' & Hm' & Hle). rewrite Hm in Hm'. injection Hm' as <-.
  apply (height_range g m); try done. by apply (Hn e ws w c).
Qed.

Definition sample_window (c o mi f : Z) : Window := mkWindow 0 475 c mi o f (0, 475).

Definition sample_epoch (n : Z) (ws : list Window) : Epoch :=
  mkEpoch (Some n) (Some ws) (Some 1) None None (Some false).

Definition sample_epochs : list Epoch :=
  [sample_epoch 4 [sample_window 23 1 0 0; sample_window 0 0 0 7]; sample_epoch 5 [sample_window 3 0 2 0]].

Definition sample_graphs : Graphs := mkGraphs sample_epochs None (Some 23) adaptive.

Lemma not_power m k : 10 < m < 100 -> 0 <= k -> m <> 10 ^ k.
Proof.
  intros Hm Hk ->. destruct (Z_lt_le_dec k 2).
  - assert (k = 0 \/ k = 1) as [-> | ->] by lia; lia.
  - pose proof (Z.pow_le_mono_r 10 2 k ltac:(lia) ltac:(lia)). lia.
Qed.

Lemma heights_fit_witness :
  steps [EScale linear; EEpochs []; EEpochs sample_epochs; EScale adaptive] initial = Ok sample_graphs /\
  (forall h, h ∈ bars sample_graphs -> exists r, h = Fin r /\ (0 <= r <= 100)%R).
Proof.
  assert (E : steps [EScale linear; EEpochs []; EEpochs sample_epochs; EScale adaptive] initial = Ok sample_graphs)
    by reflexivity.
  split; [exact E|]. apply (heights_fit _ _ 23 E); try done; [intros k; by apply not_power|].
  intros e ws w c He Hws Hw Hc. unfold sample_graphs, sample_epochs in He. cbn in He.
  repeat (apply elem_of_cons in He as [->|He]); try (by apply not_elem_of_nil in He); injection Hws as <-;
    repeat (apply elem_of_cons in Hw as [->|Hw]); try (by apply not_elem_of_nil in Hw); cbn in Hc;
    repeat (apply elem_of_cons in Hc as [->|Hc]); try (by apply not_elem_of_nil in Hc); by vm_compute.
Defined.

(** When the greatest count is a power of ten, its bar is higher than its place. *)
Lemma round_maximum_overflows g k :
  g_scale g = adaptive -> 1 <= k -> max g = Some (10 ^ k) -> exists r, getHeight g (10 ^ k) = Fin r /\ (100 < r)%R.
Proof.
  intros Hs Hk Hm. assert (H10 : 10 ^ 1 <= 10 ^ k) by (apply Z.pow_le_mono_r; lia).
  eexists. split; [apply adaptive_height; (done || lia)|]. rewrite lg_pow, ceiling_int by lia.
  assert (Hl : (IZR k < lg (10 ^ k + 1))%R) by (rewrite <- (lg_pow k) by lia; apply lg_lt; lia).
  apply IZR_le in Hk. assert (H1 : (1 < lg (10 ^ k + 1) / IZR k)%R); [|lra].
  apply Rmult_lt_reg_r with (IZR k); [lra|]. unfold Rdiv. rewrite Rmult_assoc, Rinv_l by lra. lra.
Qed.

(** When no count is greater than one, no bar has a height: an empty one is not a number,
    any other one is infinite. *)
Lemma single_counts_undrawn g :
  g_scale g = adaptive -> max g = Some 1 -> getHeight g 0 = NaN /\ getHeight g 1 = PosInf.
Proof.
  intros Hs Hm. unfold getHeight. rewrite Hs, Hm, !log10_pos by lia. cbn. fold (lg 1).
  change (0 + 1) with 1. change (1 + 1) with 2. rewrite lg_one, ceiling_int.
  destruct (Req_dec_T 0 0) as [_|]; [|done]. unfold over_zero. destruct (Req_dec_T 0 0) as [_|]; [|done].
  assert (H2 : (0 < lg 2)%R) by (rewrite <- lg_one; apply lg_lt; lia). split; [done|].
  destruct (Req_dec_T (lg 2) 0); [lra|]. by destruct (Rlt_dec (lg 2) 0); [lra|].
Qed.

(** In the linear scale a bar fits up to 238 slots of the 476 of a window. *)
Lemma linear_fits g c : g_scale g = linear -> exists r, getHeight g c = Fin r /\ ((r <= 100)%R <-> c <= 238).
Proof.
  intros Hs. unfold getHeight. rewrite Hs. eexists. split; [reflexivity|]. rewrite mult_IZR. split.
  - intros H. apply le_IZR. lra.
  - intros H. apply IZR_le in H. lra.
Qed.
End EpochGraphs.
