(* ===== verification/Polling.v ===== *)
(** * What the loading effects promise

    The effects [getData$] of [features/dashboard/dashboard.effects.ts], [getNodes$] of
    [features/nodes/live/nodes-live.effects.ts] and of
    [features/nodes/bootstrap/nodes-bootstrap.effects.ts], and [getBootstrapStats$] of
    [features/network/bootstrap-stats/network-bootstrap-stats.effects.ts], all under
    [src/frontend/src/app], are modelled in the files of their pages by the pipeline of
    [GuardedLoad]: a flag, a filter in front of [switchMap] and [tap]s behind it. Here each
    of them refines a specification without a flag. *)

From stdpp Require Import base list strings.
From S2P Require Import Prelude SharedLib GuardedLoad NodesOverview NodesLive NodesBootstrap.
From S2P Require Import Dashboard BootstrapStats.

Module Polling.
Import GuardedLoad.

(** The outputs for a sequence of events, each with its time. *)
Fixpoint trace {S E O} (step : string -> S -> E -> S * list O) (s : S) (evs : list (string * E)) : list (list O) :=
  match evs with
  | [] => []
  | (now, ev) :: evs => let '(s', out) := step now s ev in out :: trace step s' evs
  end.

Section Simulation.
Context {S S' E O : Type} (step : string -> S -> E -> S * list O) (step' : string -> S' -> E -> S' * list O)
  (related : S -> S' -> Prop).

(** A forward simulation with equal outputs. *)
Definition simulates : Prop :=
  forall now s s' ev, related s s' ->
    related (step now s ev).1 (step' now s' ev).1 /\ (step now s ev).2 = (step' now s' ev).2.

Lemma simulation_traces s s' evs : simulates -> related s s' -> trace step s evs = trace step' s' evs.
Proof.
  intros Hsim. revert s s'. induction evs as [|[now ev] evs IH]; intros s s' Hr; [done|]. cbn [trace].
  destruct (Hsim now s s' ev Hr) as [Hr' Ho]. destruct (step now s ev), (step' now s' ev). cbn in *.
  by rewrite Ho, (IH _ _ Hr').
Qed.
End Simulation.

(** ** The specifications *)

Section Specifications.
Context {T A : Type} (answers : string -> outcome T -> list (dispatched A)).

(** A load runs to its end, whatever page is open: a second request goes out only when it
    is forced, and leaving the page does not concern the load. *)
Inductive Lock := Free | Running.

Definition lock (now : string) (l : Lock) (ev : Event T) : Lock * list (Output A) :=
  match ev, l with
  | OnGet _, Free | OnGet true, Running => (Running, [Request])
  | OnGet false, Running => (Running, [])
  | OnClose, l => (l, [])
  | OnOutcome o, Running => (Free, [Actions (answers now o)])
  | OnOutcome _, Free => (Free, [])
  end.

(** A load is cancelled when the page is left, and after a load that failed nothing is
    loaded until then. *)
Inductive Fuse := Ready | Busy | Blown.

Definition fuse (now : string) (l : Fuse) (ev : Event T) : Fuse * list (Output A) :=
  match ev, l with
  | OnGet _, Ready => (Busy, [Request])
  | OnGet _, _ => (l, [])
  | OnClose, _ => (Ready, [])
  | OnOutcome o, Busy => (match o with Next _ => Ready | Failed _ => Blown end, [Actions (answers now o)])
  | OnOutcome _, _ => (l, [])
  end.

Definition as_lock (e : EffectState) (l : Lock) : Prop :=
  e = match l with Free => mkEffect false false | Running => mkEffect true true end.

Definition as_fuse (e : EffectState) (l : Fuse) : Prop :=
  e = match l with
      | Ready => mkEffect false false
      | Busy => mkEffect true true
      | Blown => mkEffect true false
      end.
End Specifications.

(** ** The pages *)

Section Pages.
Context `{HasValue} (readable : Z -> string) (clock : Z) (nodeName : string).

(** What the pages dispatch for the outcome of their requests: the loads of the nodes
    handle every error themselves. *)
Definition dashboard_answers (now : string) (o : outcome Dashboard.Answer) : list (dispatched Dashboard.Action) :=
  match o with
  | Next a => [Dispatch (Dashboard.success readable clock nodeName a)]
  | Failed err => [ErrorAdd (addError now err GENERIC); Dispatch (Dashboard.GetDataSuccess [] [] Dashboard.no_rpc_stats)]
  end.

Definition live_answers (now : string) (o : outcome (list NodesOverview.SyncTip * NodesOverview.Details))
    : list (dispatched NodesLive.Action) :=
  [Dispatch (NodesLive.GetNodesSuccess (NodesLive.getLiveNodeTips readable (NodesOverview.getNodeTips readable clock nodeName o)))].

Definition bootstrap_answers (now : string) (o : outcome (list NodesOverview.SyncTip * NodesOverview.Details))
    : list (dispatched NodesBootstrap.Action) :=
  [Dispatch (NodesBootstrap.GetNodesSuccess (NodesBootstrap.getBootstrapNodeTips (NodesOverview.getNodeTips readable clock nodeName o)))].

Definition stats_answers (now : string) (o : outcome (list BootstrapStats.RawRequest))
    : list (dispatched BootstrapStats.Action) :=
  match o with
  | Next l => [Dispatch (BootstrapStats.GetBootstrapStatsSuccess (BootstrapStats.mapBootstrapStats l))]
  | Failed err => [ErrorAdd (addError now err RUST); Dispatch (BootstrapStats.GetBootstrapStatsSuccess [])]
  end.

Definition live_event (ev : NodesLive.LiveEvent) : Event (list NodesOverview.SyncTip * NodesOverview.Details) :=
  match ev with
  | NodesLive.OnLoad force => OnGet force
  | NodesLive.OnLeave => OnClose
  | NodesLive.OnAnswer o => OnOutcome o
  end.

Definition bootstrap_event (ev : NodesBootstrap.BootstrapEvent) : Event (list NodesOverview.SyncTip * NodesOverview.Details) :=
  match ev with
  | NodesBootstrap.OnLoad force => OnGet force
  | NodesBootstrap.OnLeave => OnClose
  | NodesBootstrap.OnAnswer o => OnOutcome o
  end.

Lemma dashboard_simulates :
  simulates (Dashboard.getData_effect readable clock nodeName) (lock dashboard_answers) as_lock.
Proof. intros now e l ev ->. by destruct ev as [[]| |[]], l. Qed.

Lemma live_simulates fallback :
  simulates (NodesLive.getNodes_effect readable clock nodeName fallback)
    (fun now l ev => lock live_answers now l (live_event ev)) as_lock.
Proof. intros now e l ev ->. by destruct ev as [[]| |o], l. Qed.

Lemma bootstrap_simulates fallback :
  simulates (NodesBootstrap.getNodes_effect readable clock nodeName fallback)
    (fun now l ev => lock bootstrap_answers now l (bootstrap_event ev)) as_lock.
Proof. intros now e l ev ->. by destruct ev as [[]| |o], l. Qed.

Lemma stats_simulates : simulates BootstrapStats.getBootstrapStats_effect (fuse stats_answers) as_fuse.
Proof. intros now e l ev ->. by destruct ev as [[]| |[]], l. Qed.

(** C20: On every sequence of loads, closings and outcomes the effects of the dashboard, of
    the live view and of the bootstrap view of the nodes give the requests and actions of a
    lock: one load at a time unless it is forced, every outcome of a running load
    dispatched, a closed page notwithstanding. That of the bootstrap statistics gives those
    of a fuse: closing cancels the load, and after a failed load there is none until the
    page is closed. *)
Theorem effects_refine fallback_live fallback_bootstrap :
  (forall evs, trace (Dashboard.getData_effect readable clock nodeName) initialEffect evs =
               trace (lock dashboard_answers) Free evs) /\
  (forall evs, trace (NodesLive.getNodes_effect readable clock nodeName fallback_live) initialEffect evs =
               trace (fun now l ev => lock live_answers now l (live_event ev)) Free evs) /\
  (forall evs, trace (NodesBootstrap.getNodes_effect readable clock nodeName fallback_bootstrap) initialEffect evs =
               trace (fun now l ev => lock bootstrap_answers now l (bootstrap_event ev)) Free evs) /\
  (forall evs, trace BootstrapStats.getBootstrapStats_effect initialEffect evs =
               trace (fuse stats_answers) Ready evs).
Proof.
  split_and!; intros evs; eapply simulation_traces;
    [apply dashboard_simulates|done|apply live_simulates|done|apply bootstrap_simulates|done|apply stats_simulates|done].
Qed.
End Pages.
End Polling.
